(* ===== verification/_CoqProject ===== *)
-Q . S2P
Prelude.v
Types.v
Str.v
Bootarg.v
Bits.v
Bitmap.v
Virq.v
MemRegion.v
Vmm.v
Shmem.v
Page.v
KPages.v
Stage1.v
Stage2.v
Guest.v
Uaccess.v
Vspace.v
Handle.v
Poll.v
Kmem.v
Slab.v
Task.v
Event.v
Ipc.v
Flag.v
Sched.v
Queue.v
TaskCreate.v
Timer.v
