(* ===== verification/Prelude.v ===== *)
(** * Minos2: a verified model of the kernel

    Minos2 is a micro-kernel operating system in C with a hypervisor: a kernel (src/kernel) that
    schedules tasks, manages memory, hands out capabilities and passes messages, and user-space
    services on top of it.  This library translates the platform-independent parts of the kernel, and
    the page tables of its 64-bit ARM port, into executable definitions and proves what they promise to
    each other.  Paths below are relative to src/kernel.

    ** How C becomes Rocq

    A w-bit integer is a [Z], with [wrap] (and [u8] ... [u64], [s32]) where the code relies on its
    width.  A function that can stop the kernel, leave an object or loop is a computation in the monad
    [outcome] of this file: [Ret] a value, [Panic] for ASSERT and BUG_ON, [Fault] for an access out of
    range, and [OutOfFuel] for a loop that has not finished.  Linked lists are the lists of their
    elements in link order; where the links themselves matter (the slab caches, the chain of handle
    pages, page tables, the lists of poll hubs) they are finite maps from addresses.  State is passed
    explicitly.  A blocking call is two functions around the call of the scheduler, and where calls
    overlap in time ([Ipc], the senders of [Poll]) each is a thread with a program point and a schedule
    interleaves their steps; what happens while a lock is dropped ([Timer]) is a list of operations,
    quantified over.  Code that is not in the repository, the clock, the configuration, hardware status
    and the outcome of user copies are arguments or section variables.

    ** The files, from the bottom up

    - [Prelude] (this file): outcomes and their notations, machine words, shared lemmas and tactics.
    - [Types]: include/minos/types.h, errno.h and asm_types.h: alignment and address translation.
    - [Str]: core/string.c, core/print.c, core/stdlib.c: number conversion, vsprintf, strtoul, strsep
      and time stamps.  [Bootarg]: core/bootarg.c on top of it.
    - [Bits]: asm/bitops.h, bitops.h, core/hweight.c.  [Bitmap]: core/find_bit.c, core/bitmap.c.
    - [Virq]: virt/virq.c and virt/virq_chips/vgic.c, the virtual interrupts of a virtual machine.
    - [MemRegion]: core/mem.c.  [Page]: core/page.c.  [KPages]: the interface of single pages that
      [Page] implements and [Stage1] and [Handle] use.  [Kmem]: core/kmem.c and the composition of the
      three in mm_init.
    - [Stage1]: arch/aarch64/core/stage1.c, translation tables against the walk of the hardware.
    - [Vmm], [Shmem], [Stage2], [Guest]: the memory of virtual machines.  [Vmm] has the areas and the 2
      MB blocks of virt/vmm.c, [Shmem] the pool of shared pages of virt/shmem.c, [Stage2] the tables of
      arch/aarch64/virt/stage2.c, and [Guest] what the rest of virt/vmm.c and virt/vm.c make of them:
      creating, sharing and destroying the memory of guests.
    - [Slab]: core/slab.c, the heap, against the interface [HeapPages].
    - [Handle]: userspace/kobject.c, handle.c and syscall.c: objects, handles, rights, and the handles
      that a new process gets (create_process and process_create of userspace/process.c).
    - [Task]: the task and CPU records, ready lists and wake-up of core/sched.c.  [Event]:
      core/event.c, sem.c, mutex.c, mbox.c.  [Flag]: core/flag.c.  [Queue]: core/queue.c.  [Sched]: the
      rest of core/sched.c.  [TaskCreate]: core/task.c and the recycling in core/idle.c.  They share
      the state [sys] and the invariant [sys_ok] of [Task], which their operations preserve.
    - [Ipc]: userspace/iqueue.c, the message queues of ports and endpoints.
    - [Uaccess]: userspace/uaccess.c, kobject_copy.c and the range check, copies to, from and between
      processes through the tables of [Stage1].  [Vspace]: userspace/vspace.c and core/host_vspace.c:
      identifiers of address spaces, mapping, unmapping and page faults.
    - [Poll]: userspace/poll.c, the hubs through which a process waits for events of many objects.
    - [Timer]: core/timer.c.

    ** What the theorems show

    - Scheduling ([Task], [Sched], [Event], [Flag], [Queue], [TaskCreate]): the invariant holds from
      boot through wake-ups, starting and blocking tasks, switches and inter-CPU interrupts (the end of
      a task is modelled, and can panic, but is not among these steps); the task that runs next is the
      first of the highest ready priority; tasks of one priority take turns; a wake-up makes a sleeping
      task that is off its CPU ready exactly once; mutexes exclude and are handed over in order; the
      ring buffer refines a double-ended queue.
    - Capabilities ([Handle]): over runs of system calls that also create processes, rights to objects
      other than the console never grow and handles never name a freed object; a transfer moves what it
      says, closing the last handle releases the object, and a call without the right fails and changes
      nothing.
    - Memory ([MemRegion], [Kmem], [Page], [Slab], [Stage1]): regions stay disjoint; in page sections
      below 4 GiB an allocation returns aligned free pages and marks just them, two allocations are
      disjoint, freeing restores the state (block sections fault, as shown); the heap returns fresh
      chunks and reuses freed ones; mapping where no block is mapped, and unmapping within a gigabyte,
      change the hardware's walk on exactly the given range.
    - Virtual interrupts ([Virq]): while SPIs are requested and sent and local interrupts are sent,
      what is pending, active and in a list register agrees; an interrupt sent reaches the guest at the
      next entry, unless an earlier entry ran out of list registers; an exit retires what the guest has
      finished.
    - Guest memory ([Vmm], [Shmem], [Stage2], [Guest]), with blocks below 4 GB: areas divide the
      address space of a virtual machine, a block has one owner, runs of shared pages do not overlap,
      mapping and unmapping change the walk of the hardware on exactly the given range, a guest gets
      the blocks it asks for and loses them when it is destroyed, and however guests come and go and
      shared memory is allocated and freed, none reaches the memory of another; only the blocks of the
      pool are shared.
    - Messages ([Ipc]): however the calls of cooperating parties interleave (nobody times out, is
      stopped or closes the queue), messages arrive in order and once, an answer reaches its own
      sender, no wake-up is lost, and memory that is gone is touched at one place only.
    - User memory ([Uaccess], [Vspace]): copies move exactly the bytes of the range and stop before the
      first page that is not mapped, what is written is read back, a message stays inside a
      receiver's buffer that starts on a page or is short (others can be overrun, as shown), the range
      check computes its comparison, living address spaces have different identifiers until none is
      left, and unmapped pages are not reused while the kernel works on them.
    - Poll hubs ([Poll]): as long as no item is removed while an event of its object is sent,
      released items and hubs are never touched; an event reaches each hub that
      watches it once, and readers get the events in order and do not sleep beside them.
    - Text and boot options ([Str], [Bootarg]): printing and parsing a number are inverse, buffers
      suffice, formats render as specified, and options are found with the text they were given.
    - Timers ([Timer]): whatever handlers and other CPUs do meanwhile, the interrupt fires only due
      timers, in order and once, fires those nobody touched, keeps the others, and arms the next.

    Each theorem with hypotheses is applied at a concrete state in the lemma that bears its name with
    the suffix witness.  Lemmas at the end of a file's sections show behaviour that is not what the
    code or its comments intend; they evaluate the definitions on small inputs.

    ** Bounds and fuel

    Loops that are not structural take fuel: the length of the list or bitmap they walk, the number of
    entries of a table, the number of timers, or the number of digits of a machine word.  For each the
    development proves that this fuel suffices, so that [OutOfFuel] does not occur, except where the C
    code itself can spin (a stop that waits for a timer handler on another CPU, a wake-up of a task
    that is not off its CPU yet).  Numbers that only count, such as the
    tokens of messages, are assumed not to reach the end of their type where a theorem says so.

    ** What is not modelled

    Memory barriers, caches and the translation buffer have no counterpart.  Locks held around a whole
    operation make it one step.  Register contexts, exception entry, device drivers, interrupt
    controllers, boot and SMP start-up are assembly or device access.  Not translated are
    the other communication objects (notifications, futexes, interrupts, memory objects),
    the creation of threads and the end of processes, and the virtual CPUs, devices and traps of the
    hypervisor.  The user-space services and the libraries they import are outside of the kernel. *)

From Stdlib Require Export ZArith Lia.
From stdpp Require Export base tactics numbers list_numbers option gmap list.

Open Scope Z_scope.

(** ** Outcomes of C code

    A C function of the kernel either returns, stops in [ASSERT], [BUG_ON] or
    [panic] (which never return), reads or writes outside of the object it was
    given, or - for a loop modelled with fuel - has not finished yet. *)

Inductive outcome (A : Type) : Type :=
| Ret (a : A)
| Panic
| Fault
| OutOfFuel.
Arguments Ret {A} a.
Arguments Panic {A}.
Arguments Fault {A}.
Arguments OutOfFuel {A}.

Definition obind {A B} (f : A -> outcome B) (c : outcome A) : outcome B :=
  match c with
  | Ret a => f a
  | Panic => Panic
  | Fault => Fault
  | OutOfFuel => OutOfFuel
  end.

#[export] Instance outcome_ret : MRet outcome := fun A a => Ret a.
#[export] Instance outcome_bind : MBind outcome := fun A B f c => obind f c.
#[export] Instance outcome_fmap : FMap outcome :=
  fun A B f c => obind (fun a => Ret (f a)) c.

(** [ASSERT(b)] and [BUG_ON(!b)]: continue, or the kernel stops. *)
Definition assert (b : bool) : outcome unit := if b then Ret tt else Panic.

Declare Scope minos_scope.
Delimit Scope minos_scope with minos.
Notation "'let*' x := c 'in' k" := (obind (fun x => k) c)
  (at level 10, x pattern, c at level 100, k at level 200,
   format "'[v' let*  x  :=  c  'in' '/' k ']'") : minos_scope.
Notation "'check' b 'in' k" := (obind (fun _ : unit => k) (assert b))
  (at level 10, b at level 100, k at level 200,
   format "'[v' check  b  'in' '/' k ']'") : minos_scope.
Open Scope minos_scope.

(** The value a stateful operation returns, without the state. *)
Definition value {A B} (o : outcome (A * B)) : outcome A := let* (a, _) := o in Ret a.

Lemma obind_Ret_inv {A B} (f : A -> outcome B) c b :
  obind f c = Ret b -> exists a, c = Ret a /\ f a = Ret b.
Proof. destruct c; cbn; try discriminate; eauto. Qed.

Lemma Ret_inj {A} (a b : A) : Ret a = Ret b -> a = b.
Proof. by intros [= ->]. Qed.

Lemma assert_Ret b u : assert b = Ret u -> b = true.
Proof. by destruct b. Qed.

(** ** Machine words

    A [w]-bit unsigned value is a [Z] in [0, 2^w); every C operation that can
    leave that range is followed by [wrap]. *)

Definition wrap (w x : Z) : Z := x mod 2 ^ w.
Abbreviation u64 := (wrap 64).
Abbreviation u32 := (wrap 32).
Abbreviation u16 := (wrap 16).
Abbreviation u8 := (wrap 8).

(** Conversion to [int]: two's complement of the low 32 bits. *)
Definition s32 (x : Z) : Z :=
  let y := u32 x in if y <? 2 ^ 31 then y else y - 2 ^ 32.

Definition not64 (x : Z) : Z := u64 (Z.lnot x).
Definition shl64 (x n : Z) : Z := u64 (Z.shiftl x n).
Definition ULONG_MAX : Z := 2 ^ 64 - 1.

Definition is_word (w x : Z) : Prop := 0 <= x < 2 ^ w.

Create HintDb minos discriminated.
Create Rewrite HintDb bits.

Lemma wrap_range w x : 0 <= w -> 0 <= wrap w x < 2 ^ w.
Proof. intros. apply Z.mod_pos_bound. lia. Qed.

Lemma wrap_small w x : 0 <= x < 2 ^ w -> wrap w x = x.
Proof. apply Z.mod_small. Qed.

Lemma wrap_wrap w x : wrap w (wrap w x) = wrap w x.
Proof.
  unfold wrap. destruct (decide (2 ^ w = 0)) as [->|].
  - by rewrite !Z.mod_0_r.
  - by rewrite Z.mod_mod.
Qed.

Lemma testbit_wrap w x i :
  0 <= w -> Z.testbit (wrap w x) i = (i <? w) && Z.testbit x i.
Proof.
  intros Hw. unfold wrap. destruct (Z.ltb_spec i w); cbn.
  - by apply Z.mod_pow2_bits_low.
  - by apply Z.mod_pow2_bits_high.
Qed.

Lemma testbit_above w x i : 0 <= w -> 0 <= x < 2 ^ w -> w <= i -> Z.testbit x i = false.
Proof.
  intros Hw Hx Hi. rewrite <- (wrap_small w x Hx), testbit_wrap by done.
  by destruct (Z.ltb_spec i w); [lia|].
Qed.

Lemma testbit_not64 x i :
  0 <= i -> Z.testbit (not64 x) i = (i <? 64) && negb (Z.testbit x i).
Proof. intros. unfold not64. by rewrite testbit_wrap, Z.lnot_spec by lia. Qed.

Lemma testbit_shl64 x n i :
  0 <= i -> Z.testbit (shl64 x n) i = (i <? 64) && Z.testbit x (i - n).
Proof. intros. unfold shl64. by rewrite testbit_wrap, Z.shiftl_spec by lia. Qed.

Lemma testbit_ULONG_MAX i : Z.testbit ULONG_MAX i = (0 <=? i) && (i <? 64).
Proof.
  change ULONG_MAX with (Z.ones 64).
  destruct (Z.leb_spec 0 i), (Z.ltb_spec i 64); cbn.
  - apply Z.ones_spec_low; lia.
  - apply Z.ones_spec_high; lia.
  - apply Z.testbit_neg_r; lia.
  - apply Z.testbit_neg_r; lia.
Qed.

Lemma testbit_shiftr x n i : 0 <= i -> Z.testbit (Z.shiftr x n) i = Z.testbit x (i + n).
Proof. apply Z.shiftr_spec. Qed.

Lemma word_ext w x y :
  0 <= w -> 0 <= x < 2 ^ w -> 0 <= y < 2 ^ w ->
  (forall i, 0 <= i < w -> Z.testbit x i = Z.testbit y i) -> x = y.
Proof.
  intros Hw Hx Hy H. apply Z.bits_inj'. intros i Hi.
  destruct (decide (i < w)); [by apply H|].
  by rewrite !(testbit_above w) by lia.
Qed.

(** Bits decide the range of a word: nothing set at or above [w]. *)
Lemma word_of_bits w x :
  0 <= w -> (forall i, w <= i -> Z.testbit x i = false) -> 0 <= x -> 0 <= x < 2 ^ w.
Proof.
  intros Hw H Hx. split; [done|].
  destruct (decide (x = 0)) as [->|]; [lia|].
  apply Z.log2_lt_pow2; [lia|].
  destruct (decide (Z.log2 x < w)); [done|].
  specialize (H (Z.log2 x) ltac:(lia)). by rewrite Z.bit_log2 in H by lia.
Qed.

Lemma land_word w x y : 0 <= w -> 0 <= x < 2 ^ w -> 0 <= Z.land x y < 2 ^ w.
Proof.
  intros Hw Hx. apply word_of_bits; [done| |apply Z.land_nonneg; lia].
  intros i Hi. by rewrite Z.land_spec, (testbit_above w) by lia.
Qed.

Lemma lor_word w x y :
  0 <= w -> 0 <= x < 2 ^ w -> 0 <= y < 2 ^ w -> 0 <= Z.lor x y < 2 ^ w.
Proof.
  intros Hw Hx Hy. apply word_of_bits; [done| |apply Z.lor_nonneg; lia].
  intros i Hi. by rewrite Z.lor_spec, !(testbit_above w) by lia.
Qed.

Lemma lxor_word w x y :
  0 <= w -> 0 <= x < 2 ^ w -> 0 <= y < 2 ^ w -> 0 <= Z.lxor x y < 2 ^ w.
Proof.
  intros Hw Hx Hy. apply word_of_bits; [done| |apply Z.lxor_nonneg; lia].
  intros i Hi. by rewrite Z.lxor_spec, !(testbit_above w) by lia.
Qed.

Lemma land_wrap_l w x m : 0 <= w -> 0 <= m < 2 ^ w -> Z.land (wrap w x) m = Z.land x m.
Proof.
  intros Hw Hm. apply Z.bits_inj'. intros i Hi. rewrite !Z.land_spec, testbit_wrap by done.
  destruct (Z.ltb_spec i w); [done|]. by rewrite (testbit_above w m), !andb_false_r by lia.
Qed.

#[export] Hint Resolve wrap_range land_word lor_word lxor_word : minos.

#[export] Hint Rewrite Z.land_spec Z.lor_spec Z.lxor_spec Z.testbit_0_l
  testbit_ULONG_MAX : bits.
#[export] Hint Rewrite testbit_wrap testbit_not64 testbit_shl64 testbit_shiftr
  using lia : bits.

(** Decide integer comparisons that occur as booleans in the goal. *)
Ltac case_bools :=
  repeat match goal with
  | |- context [?a <? ?b] => destruct (Z.ltb_spec a b)
  | |- context [?a <=? ?b] => destruct (Z.leb_spec a b)
  | |- context [?a =? ?b] => destruct (Z.eqb_spec a b)
  end; cbn [andb orb negb xorb] in *; try lia.

(** Masking with a single bit tests it. *)
Lemma land_bit_testbit x k : 0 <= k -> negb (Z.land x (2 ^ k) =? 0) = Z.testbit x k.
Proof.
  intros Hk. destruct (Z.testbit x k) eqn:Hb; destruct (Z.eqb_spec (Z.land x (2 ^ k)) 0) as [E|E];
    try done; exfalso.
  - apply (f_equal (fun y => Z.testbit y k)) in E.
    rewrite Z.land_spec, Hb, Z.pow2_bits_true, Z.testbit_0_l in E by done. done.
  - apply E, Z.bits_inj'. intros i Hi. rewrite Z.land_spec, Z.pow2_bits_eqb, Z.testbit_0_l by done.
    destruct (Z.eqb_spec k i) as [<-|]; [by rewrite Hb|apply andb_false_r].
Qed.

Lemma s32_small x : 0 <= x < 2 ^ 31 -> s32 x = x.
Proof.
  intros Hx. unfold s32. rewrite wrap_small by lia. destruct (Z.ltb_spec x (2 ^ 31)); lia.
Qed.

(** Masking with the complement of [2^k - 1] rounds down. *)
Lemma land_not64_pow2 x k :
  0 <= x < 2 ^ 64 -> 0 <= k -> Z.land x (not64 (2 ^ k - 1)) = 2 ^ k * (x / 2 ^ k).
Proof.
  intros Hx Hk. assert (0 < 2 ^ k) by lia. apply (word_ext 64); [lia|by apply land_word| |].
  { pose proof (Z.mul_div_le x (2 ^ k)). pose proof (Z.div_pos x (2 ^ k)). lia. }
  intros j Hj. rewrite Z.land_spec, testbit_not64 by lia.
  replace (2 ^ k - 1) with (Z.ones k) by (rewrite Z.ones_equiv; lia).
  rewrite Z.mul_comm, <- Z.shiftl_mul_pow2, <- Z.shiftr_div_pow2, Z.shiftl_spec by lia.
  destruct (decide (j < k)).
  - by rewrite Z.ones_spec_low, (Z.testbit_neg_r _ (j - k)), !andb_false_r by lia.
  - rewrite Z.ones_spec_high, testbit_shiftr by lia. case_bools.
    rewrite andb_true_r. f_equal; lia.
Qed.

(** Turn boolean comparisons in the hypotheses into propositions. *)
Ltac bool_hyps :=
  repeat match goal with
  | H : (_ && _) = true |- _ => apply andb_true_iff in H; destruct H
  | H : (_ || _) = false |- _ => apply orb_false_iff in H; destruct H
  | H : negb _ = true |- _ => apply negb_true_iff in H
  | H : negb _ = false |- _ => apply negb_false_iff in H
  | H : (_ <? _) = true |- _ => apply Z.ltb_lt in H
  | H : (_ <? _) = false |- _ => apply Z.ltb_ge in H
  | H : (_ <=? _) = true |- _ => apply Z.leb_le in H
  | H : (_ <=? _) = false |- _ => apply Z.leb_gt in H
  | H : (_ =? _) = true |- _ => apply Z.eqb_eq in H
  | H : (_ =? _) = false |- _ => apply Z.eqb_neq in H
  end.

(** Run a computation that ended in [Ret]: expose every intermediate result. *)
Ltac outcome_inv :=
  repeat match goal with
  | H : obind _ _ = Ret _ |- _ =>
      let a := fresh "r" in let Ha := fresh "Hr" in
      apply obind_Ret_inv in H; destruct H as (a & Ha & H)
  | H : assert _ = Ret _ |- _ => apply assert_Ret in H
  | H : Ret _ = Ret _ |- _ => injection H as H
  | H : Panic = Ret _ |- _ => discriminate H
  | H : Fault = Ret _ |- _ => discriminate H
  | H : OutOfFuel = Ret _ |- _ => discriminate H
  end; simplify_eq.

(** ** Counting the entries of a map *)

Definition tally `{Countable K} {A} (f : A -> bool) (m : gmap K A) : Z := map_fold (fun _ x n => Z.b2z (f x) + n) 0 m.

Lemma tally_insert_fresh `{Countable K} {A} (f : A -> bool) (m : gmap K A) i x : m !! i = None -> tally f (<[i := x]> m) = Z.b2z (f x) + tally f m.
Proof. intros Hi. unfold tally. rewrite map_fold_insert_L; [done| |done]. intros. lia. Qed.

Lemma tally_insert `{Countable K} {A} (f : A -> bool) (m : gmap K A) i x y :
  m !! i = Some y -> tally f (<[i := x]> m) = tally f m - Z.b2z (f y) + Z.b2z (f x).
Proof.
  intros Hi. rewrite <- (insert_delete_id m i y Hi) at 2. rewrite <- insert_delete_eq.
  rewrite !tally_insert_fresh by apply lookup_delete_eq. lia.
Qed.

Lemma tally_nonneg `{Countable K} {A} (f : A -> bool) (m : gmap K A) : 0 <= tally f m.
Proof. induction m as [|i x m Hi IH] using map_ind; [done|]. rewrite tally_insert_fresh by done. destruct (f x); cbn; lia. Qed.

Lemma tally_pos `{Countable K} {A} (f : A -> bool) (m : gmap K A) i x : m !! i = Some x -> f x = true -> 0 < tally f m.
Proof.
  intros Hi Hf. rewrite <- (insert_delete_id m i x Hi), tally_insert_fresh by apply lookup_delete_eq. rewrite Hf.
  pose proof (tally_nonneg f (delete i m)). cbn. lia.
Qed.

Lemma tally_delete `{Countable K} {A} (f : A -> bool) (m : gmap K A) i x : m !! i = Some x -> tally f (delete i m) = tally f m - Z.b2z (f x).
Proof. intros Hi. rewrite <- (insert_delete_id m i x Hi) at 2. rewrite tally_insert_fresh by apply lookup_delete_eq. lia. Qed.

Lemma tally_none `{Countable K} {A} (f : A -> bool) (m : gmap K A) : (forall k x, m !! k = Some x -> f x = false) -> tally f m = 0.
Proof.
  induction m as [|k x m Hk IH] using map_ind; intros Hf; [done|]. rewrite tally_insert_fresh by done. rewrite (Hf k x) by apply lookup_insert_eq.
  rewrite IH; [done|]. intros k' y Hy. apply (Hf k'). rewrite lookup_insert_ne; [done|]. intros ->. congruence.
Qed.
