(* ===== verification/Types.v ===== *)
(** * Constants and alignment arithmetic

    [include/minos/types.h], the error numbers of [include/minos/errno.h] the
    modelled code returns, and the address translation macros of
    [arch/aarch64/include/asm/asm_types.h] in the configuration without address
    tagging.  The alignment macros are bit masks in the code; the lemmas give
    their arithmetic meaning. *)

From S2P Require Import Prelude.

Definition PAGE_SHIFT : Z := 12.
Definition PAGE_SIZE : Z := 0x1000.
Definition BLOCK_SHIFT : Z := 21.
Definition BLOCK_SIZE : Z := 0x200000.
Definition PAGES_PER_BLOCK : Z := Z.shiftr BLOCK_SIZE PAGE_SHIFT.

Definition ALIGN (x y : Z) : Z := Z.land x (not64 (y - 1)).
Definition BALIGN (x y : Z) : Z := Z.land (u64 (x + y - 1)) (not64 (y - 1)).
Definition PAGE_ALIGN (x : Z) : Z := ALIGN x PAGE_SIZE.
Definition PAGE_BALIGN (x : Z) : Z := BALIGN x PAGE_SIZE.
Definition BLOCK_ALIGN (x : Z) : Z := ALIGN x BLOCK_SIZE.
Definition BLOCK_BALIGN (x : Z) : Z := BALIGN x BLOCK_SIZE.
Definition PAGE_NR (size : Z) : Z := Z.shiftr (PAGE_BALIGN size) PAGE_SHIFT.
Definition IS_PAGE_ALIGN (x : Z) : bool := Z.land x (PAGE_SIZE - 1) =? 0.
Definition IS_BLOCK_ALIGN (x : Z) : bool := Z.land x 0x1fffff =? 0.
Definition IN_RANGE_UNSIGNED (sbase ssize dbase dsize : Z) : bool :=
  (dbase <=? sbase) && (u64 (sbase + ssize - 1) <? u64 (dbase + dsize)).

Definition ptov (addr : Z) : Z := addr.
Definition vtop (addr : Z) : Z := addr.
Definition is_kva (va : Z) : bool := 4096 <=? va.

Definition EPERM : Z := 1.
Definition ENOENT : Z := 2.
Definition EIO : Z := 5.
Definition E2BIG : Z := 7.
Definition EBADF : Z := 9.
Definition EAGAIN : Z := 11.
Definition ENOMEM : Z := 12.
Definition EACCES : Z := 13.
Definition EFAULT : Z := 14.
Definition EBUSY : Z := 16.
Definition EEXIST : Z := 17.
Definition ENODEV : Z := 19.
Definition EINVAL : Z := 22.
Definition ENOSPC : Z := 28.
Definition ENOSYS : Z := 38.
Definition EOVERFLOW : Z := 75.
Definition EPROTONOSUPPORT : Z := 93.
Definition EOPNOTSUPP : Z := 95.
Definition ETIMEDOUT : Z := 110.
Definition EABORT : Z := 134.
Definition EOTHERSIDECLOSED : Z := 135.

(** ** Alignment *)

Lemma ALIGN_pow2 x k : 0 <= x < 2 ^ 64 -> 0 <= k -> ALIGN x (2 ^ k) = 2 ^ k * (x / 2 ^ k).
Proof. apply land_not64_pow2. Qed.

Lemma BALIGN_pow2 x k :
  0 <= x -> 0 <= k -> x + 2 ^ k <= 2 ^ 64 ->
  BALIGN x (2 ^ k) = 2 ^ k * ((x + 2 ^ k - 1) / 2 ^ k).
Proof. intros. unfold BALIGN. rewrite wrap_small by lia. apply land_not64_pow2; lia. Qed.

Lemma land_pow2_mod x k : 0 <= k -> Z.land x (2 ^ k - 1) = x mod 2 ^ k.
Proof.
  intros. replace (2 ^ k - 1) with (Z.ones k) by (rewrite Z.ones_equiv; lia).
  by apply Z.land_ones.
Qed.

(** Rounding down and up, as bounds. *)
Lemma PAGE_ALIGN_spec x :
  0 <= x < 2 ^ 64 -> PAGE_ALIGN x mod 4096 = 0 /\ x - 4096 < PAGE_ALIGN x <= x /\ 0 <= PAGE_ALIGN x.
Proof.
  intros Hx. unfold PAGE_ALIGN. change PAGE_SIZE with (2 ^ 12). rewrite ALIGN_pow2 by lia.
  change (2 ^ 12) with 4096. Z.div_mod_to_equations; lia.
Qed.

Lemma PAGE_BALIGN_spec x :
  0 <= x <= 2 ^ 64 - 4096 ->
  PAGE_BALIGN x mod 4096 = 0 /\ x <= PAGE_BALIGN x < x + 4096.
Proof.
  intros Hx. unfold PAGE_BALIGN. change PAGE_SIZE with (2 ^ 12). rewrite BALIGN_pow2 by lia.
  change (2 ^ 12) with 4096. Z.div_mod_to_equations; lia.
Qed.

Lemma BLOCK_ALIGN_spec x :
  0 <= x < 2 ^ 64 ->
  BLOCK_ALIGN x mod BLOCK_SIZE = 0 /\ x - BLOCK_SIZE < BLOCK_ALIGN x <= x /\ 0 <= BLOCK_ALIGN x.
Proof.
  intros Hx. unfold BLOCK_ALIGN. change BLOCK_SIZE with (2 ^ 21). rewrite ALIGN_pow2 by lia.
  change (2 ^ 21) with 2097152. Z.div_mod_to_equations; lia.
Qed.

Lemma BLOCK_BALIGN_spec x :
  0 <= x <= 2 ^ 64 - BLOCK_SIZE ->
  BLOCK_BALIGN x mod BLOCK_SIZE = 0 /\ x <= BLOCK_BALIGN x < x + BLOCK_SIZE.
Proof.
  unfold BLOCK_BALIGN. change BLOCK_SIZE with (2 ^ 21). intros Hx. rewrite BALIGN_pow2 by lia.
  change (2 ^ 21) with 2097152. Z.div_mod_to_equations; lia.
Qed.

Lemma IS_PAGE_ALIGN_spec x : IS_PAGE_ALIGN x = (x mod 4096 =? 0).
Proof.
  unfold IS_PAGE_ALIGN. change (PAGE_SIZE - 1) with (2 ^ 12 - 1). by rewrite land_pow2_mod.
Qed.

Lemma IS_BLOCK_ALIGN_spec x : IS_BLOCK_ALIGN x = (x mod BLOCK_SIZE =? 0).
Proof.
  unfold IS_BLOCK_ALIGN. change 0x1fffff with (2 ^ 21 - 1). by rewrite land_pow2_mod.
Qed.

Lemma shiftr_PAGE x : Z.shiftr x PAGE_SHIFT = x / 4096.
Proof. unfold PAGE_SHIFT. by rewrite Z.shiftr_div_pow2. Qed.

Lemma shiftr_BLOCK x : Z.shiftr x BLOCK_SHIFT = x / BLOCK_SIZE.
Proof. unfold BLOCK_SHIFT. by rewrite Z.shiftr_div_pow2. Qed.
