(* ===== verification/Str.v ===== *)
(** * Strings, numbers and formatting

    [core/string.c], [muldiv64] of [core/stdlib.c] and [core/print.c]: conversion of
    numbers to and from text, the format interpreter [vsprintf], [strsep], and the time
    stamp of the log.

    A character is its code, a C string the list of its characters without the final
    NUL.  A buffer that the code writes is a list of cells, [None] while a cell is not
    initialised; reading such a cell, or any access out of range, is a fault.  What is
    printed is the list of characters in order, to memory or to the console alike.
    The arguments of a format are [va_arg] values: a machine word or a string. *)

From Stdlib Require Import Ascii String.
From S2P Require Import Prelude Types.

Definition ch (a : ascii) : Z := Z.of_nat (nat_of_ascii a).
Arguments ch a%_char.
Definition str (s : string) : list Z := map ch (list_ascii_of_string s).
Arguments str s%_string.

(** ** Numbers to text *)

Definition hex : list Z := str "0123456789abcdef".

Definition hex_at (i : Z) : outcome Z :=
  match hex !! Z.to_nat i with Some c => Ret c | None => Fault end.

Definition put_cell (tmp : list (option Z)) (pos : nat) (c : Z) : outcome (list (option Z)) :=
  if (pos <? length tmp)%nat then Ret (<[pos := Some c]> tmp) else Fault.

Definition read_cell (tmp : list (option Z)) (pos : nat) : outcome Z :=
  match tmp !! pos with Some (Some c) => Ret c | _ => Fault end.

(** The [do ... while (num >= bdho)] loop: what is left of the number, the buffer and
    the number of characters in it. *)
Fixpoint digit_loop (n : nat) (num bdho : Z) (tmp : list (option Z)) (pos : nat)
    : outcome (Z * list (option Z) * nat) :=
  match n with
  | O => OutOfFuel
  | S n =>
      let m := num mod bdho in
      let num := num / bdho in
      let* c := hex_at m in
      let* tmp := put_cell tmp pos c in
      if bdho <=? num then digit_loop n num bdho tmp (S pos) else Ret (num, tmp, S pos)
  end.

Fixpoint emit (tmp : list (option Z)) (len : nat) : outcome (list Z) :=
  match len with
  | O => Ret []
  | S len => let* c := read_cell tmp len in let* r := emit tmp len in Ret (c :: r)
  end.

(** The text written to [buf]; its length is the value returned.  A word has at most 64
    digits, so 64 rounds suffice. *)
Definition num_to_str (num b : Z) : outcome (list Z) :=
  let bdho := if b =? 32 then 16 else b in
  let tmp := replicate 16 (Some (ch "0")) ++ replicate 48 None in
  let* ((num, tmp), pos) := digit_loop 64 num bdho tmp 0 in
  let* (tmp, pos) := if negb (num =? 0)
                     then let* c := hex_at num in let* tmp := put_cell tmp pos c in Ret (tmp, S pos)
                     else Ret (tmp, pos) in
  emit tmp (if b =? 32 then 16%nat else pos).

(** [xxxtoa]; [neg] is [~num + 1] at the type of [num]. *)
Definition s64 (x : Z) : Z := let y := u64 x in if y <? 2 ^ 63 then y else y - 2 ^ 64.

Definition xxxtoa (num neg : Z) : outcome (list Z) :=
  if num <? 0 then let* l := num_to_str (u64 neg) 10 in Ret (ch "-" :: l)
  else num_to_str (u64 num) 10.

Definition ltoa (num : Z) : outcome (list Z) := xxxtoa num (s64 (Z.lnot num + 1)).
Definition itoa (num : Z) : outcome (list Z) := xxxtoa num (s32 (Z.lnot num + 1)).
Definition ultoa (num : Z) : outcome (list Z) := num_to_str num 10.
Definition uitoa (num : Z) : outcome (list Z) := num_to_str num 10.
Definition hextoa (num : Z) : outcome (list Z) := num_to_str num 16.
Definition octtoa (num : Z) : outcome (list Z) := num_to_str num 8.
Definition bintoa (num : Z) : outcome (list Z) := num_to_str num 2.
Definition ptoa (num : Z) : outcome (list Z) := num_to_str num 32.

Definition PRINTF_DEC : Z := 0x0001.
Definition PRINTF_HEX : Z := 0x0002.
Definition PRINTF_OCT : Z := 0x0004.
Definition PRINTF_BIN : Z := 0x0008.
Definition PRINTF_POINTER : Z := 0x0010.
Definition PRINTF_MASK : Z := 0xff.
Definition PRINTF_UNSIGNED : Z := 0x0100.
Definition PRINTF_SIGNED : Z := 0x0200.
Definition PRINTF_LONG : Z := 0x0400.

Definition numbric (num flag : Z) : outcome (list Z) :=
  let kind := Z.land flag PRINTF_MASK in
  if kind =? PRINTF_DEC then
    if negb (Z.land flag PRINTF_SIGNED =? 0) then
      if negb (Z.land flag PRINTF_LONG =? 0) then ltoa (s64 num) else itoa (s32 num)
    else
      if negb (Z.land flag PRINTF_LONG =? 0) then ultoa num else uitoa (u32 num)
  else if kind =? PRINTF_HEX then hextoa num
  else if kind =? PRINTF_OCT then octtoa num
  else if kind =? PRINTF_BIN then bintoa num
  else if kind =? PRINTF_POINTER then ptoa num
  else Ret [].

(** ** Formatting *)

Definition is_digit (c : Z) : bool := (c <=? ch "9") && (ch "0" <=? c).

Inductive arg : Type :=
| ANum (v : Z)
| AStr (s : list Z).

(** [PRINT_ALIGN_CHAR]: blanks up to the width. *)
Definition align_chars (align : Z) (len : nat) : list Z :=
  if negb (align =? 0) && (Z.of_nat len <? align) then replicate (Z.to_nat (align - Z.of_nat len)) (ch " ") else [].

(** What follows a ['%'] and its width: text that is printed as it is, a string, a
    character, or a number with its flags. *)
Inductive conversion : Type :=
| CText (s : list Z)
| CStr
| CChar
| CNum (flag : Z).

(** The conversion of [fmt], whose first character is [c], 0 at the end of the format;
    [l] are the characters after it. *)
Definition conversion_of (align c : Z) (l : list Z) : conversion :=
  let width := if negb (align =? 0) then [align + ch "0"] else [] in
  if c =? ch "l" then
    let c := default 0 (l !! 0%nat) in
    if negb (c =? ch "d") && negb (c =? ch "x") then CText (ch "%" :: width ++ [ch "l"; c])
    else if c =? ch "d" then CNum (Z.lor PRINTF_LONG PRINTF_DEC)
    else CNum (Z.lor PRINTF_LONG PRINTF_HEX)
  else if c =? ch "d" then CNum (Z.lor PRINTF_DEC PRINTF_SIGNED)
  else if c =? ch "p" then CNum (Z.lor PRINTF_POINTER PRINTF_UNSIGNED)
  else if c =? ch "x" then CNum (Z.lor PRINTF_HEX PRINTF_UNSIGNED)
  else if c =? ch "u" then CNum (Z.lor PRINTF_DEC PRINTF_UNSIGNED)
  else if c =? ch "s" then CStr
  else if c =? ch "c" then CChar
  else if c =? ch "o" then CNum (Z.lor PRINTF_DEC PRINTF_SIGNED)
  else if c =? ch "%" then CText ((if negb (align =? 0) then ch "%" :: width else []) ++ [ch "%"])
  else CText (ch "%" :: width ++ [c]).

Definition print_conversion (align : Z) (conv : conversion) (args : list arg) : outcome (list Z * list arg) :=
  match conv, args with
  | CText s, _ => Ret (s, args)
  | CStr, AStr s :: args => Ret (align_chars align (length s) ++ s, args)
  | CChar, ANum v :: args => Ret (align_chars align 1 ++ [u8 v], args)
  | CNum flag, ANum v :: args =>
      let* num_buf := numbric v flag in
      if (96 <? length num_buf)%nat then Fault else
      Ret (align_chars align (length num_buf) ++ num_buf, args)
  | _, _ => Fault
  end.

(** One round of the loop takes one plain character, or a ['%'] with what belongs to it.
    A format that ends inside a conversion is read past its terminating NUL. *)
Fixpoint format_loop (n : nat) (fmt : list Z) (args : list arg) : outcome (list Z) :=
  match n with
  | O => OutOfFuel
  | S n =>
      match fmt with
      | [] => Ret []
      | c :: fmt =>
          if negb (c =? ch "%") then let* out := format_loop n fmt args in Ret (c :: out)
          else
            let (align, fmt) := match fmt with
                                | d :: fmt' => if is_digit d then (d - ch "0", fmt') else (0, fmt)
                                | [] => (0, fmt)
                                end in
            let c := default 0 (fmt !! 0%nat) in
            let fmt' := if c =? ch "l" then drop 2 fmt else drop 1 fmt in
            let past := if c =? ch "l" then (length fmt <? 2)%nat else (length fmt <? 1)%nat in
            let* (out, args) := print_conversion align (conversion_of align c (drop 1 fmt)) args in
            if past then Fault else
            let* rest := format_loop n fmt' args in
            Ret (out ++ rest)
      end
  end.

(** The characters printed before the terminating NUL; their number is returned. *)
Definition vsprintf (fmt : list Z) (args : list arg) : outcome (list Z) := format_loop (S (length fmt)) fmt args.

(** ** Text to numbers *)

Definition TOLOWER (x : Z) : Z := Z.lor x 0x20.
Definition isdigit (c : Z) : bool := (ch "0" <=? c) && (c <=? ch "9").
Definition isxdigit (c : Z) : bool := isdigit c || ((ch "a" <=? c) && (c <=? ch "f")).

Fixpoint strtoul_loop (cp : list Z) (base result : Z) : Z * list Z :=
  match cp with
  | [] => (result, [])
  | c :: rest =>
      if isxdigit c then
        let value := if isdigit c then c - ch "0" else TOLOWER c - ch "a" + 10 in
        if base <=? value then (result, cp)
        else strtoul_loop rest base (u64 (result * base + value))
      else (result, cp)
  end.

(** The number, and the text from [*endp] on. *)
Definition strtoul (cp : list Z) (base : Z) : Z * list Z :=
  let base := if base =? 0 then 10 else base in
  let cp := match cp with
            | c0 :: c1 :: rest =>
                if (base =? 16) && (c0 =? ch "0") && (TOLOWER c1 =? ch "x") then rest else cp
            | _ => cp
            end in
  strtoul_loop cp base 0.

(** ** Tokens

    [strsep] works in place: it overwrites the delimiter it finds with a NUL.  The buffer
    is the memory that holds the string, a pointer into it an index. *)

Definition char_at (buf : list Z) (i : nat) : outcome Z :=
  match buf !! i with Some c => Ret c | None => Fault end.

(** The inner loop over [delim], which ends with the NUL of [delim]. *)
Definition is_delim (delim : list Z) (c : Z) : bool := existsb (Z.eqb c) delim || (c =? 0).

Fixpoint strsep_loop (n : nat) (buf : list Z) (s : nat) (delim : list Z) : outcome (option nat * list Z) :=
  match n with
  | O => OutOfFuel
  | S n =>
      let* c := char_at buf s in
      if is_delim delim c then
        if c =? 0 then Ret (None, buf) else Ret (Some (S s), <[s := 0]> buf)
      else strsep_loop n buf (S s) delim
  end.

(** The token, the new value of [*stringp] and the buffer. *)
Definition strsep (buf : list Z) (stringp : option nat) (delim : list Z)
    : outcome (option nat * option nat * list Z) :=
  match stringp with
  | None => Ret (None, None, buf)
  | Some s => let* (next, buf) := strsep_loop (S (length buf)) buf s delim in Ret (Some s, next, buf)
  end.

(** [strncpy] copies [len] characters, whatever they are. *)
Definition strncpy (src : list Z) (len : nat) : outcome (list Z) :=
  if (length src <? len)%nat then Fault else Ret (take len src).

(** The C string at an index of the buffer. *)
Fixpoint c_string (l : list Z) : option (list Z) :=
  match l with
  | [] => None
  | c :: l => if c =? 0 then Some [] else cons c <$> c_string l
  end.

Definition string_at (buf : list Z) (i : nat) : outcome (list Z) :=
  match c_string (drop i buf) with Some s => Ret s | None => Fault end.

(** ** The time stamp of the log *)

(** Left part, blank padded to 8; right part, zero padded to 6.  [now] is the time in
    nanoseconds. *)
Definition get_print_time (now : Z) : outcome (list Z) :=
  let us := now / 1000 in
  let second := us / 1000000 in
  let us := us mod 1000000 in
  let* buf := uitoa (u32 second) in
  let len := Nat.min 8 (length buf) in
  let left := replicate (8 - len) (ch " ") ++ take len buf in
  let* buf := uitoa (u32 us) in
  let len := Nat.min 6 (length buf) in
  Ret (left ++ ch "." :: replicate (6 - len) (ch "0") ++ take len buf).

(** What [level_print] sends to the console. *)
Definition level_print (print_level level now cpuid tid : Z) (fmt : list Z) (args : list arg)
    : outcome (Z * list Z) :=
  if print_level <? level then Ret (0, []) else
  let* time := get_print_time now in
  let buf := ch "[" :: time ++ [ch "@"; cpuid / 10 + ch "0"; cpuid mod 10 + ch "0"; ch " ";
                                tid / 100 + ch "0"; (tid mod 100) / 10 + ch "0"; tid mod 10 + ch "0";
                                ch "]"; ch " "] in
  let* out := vsprintf fmt args in
  Ret (Z.of_nat (length buf + length out), buf ++ out ++ [0]).

(** ** Scaled division *)

(** The unions split and join the halves of a word. *)
Definition muldiv64 (a b c : Z) : outcome Z :=
  if c =? 0 then Fault else
  let rl := u64 (u32 a * b) in
  let rh := u64 (Z.shiftr a 32 * b) in
  let rh := u64 (rh + Z.shiftr rl 32) in
  let high := u32 (rh / c) in
  let low := u32 (u64 (u64 (Z.shiftl (rh mod c) 32) + Z.land rl 0xffffffff) / c) in
  Ret (high * 2 ^ 32 + low).

Definition SECOND : Z := 1000000000.
Definition ticks_to_ns (cpu_khz ticks : Z) : outcome Z := muldiv64 ticks SECOND (u32 (1000 * cpu_khz)).
Definition ns_to_ticks (cpu_khz ns : Z) : outcome Z := muldiv64 ns (u32 (1000 * cpu_khz)) SECOND.

(** ** Reference definitions *)

(** The character of a digit, the digits of a number, most significant first, and the
    number a list of digits stands for. *)
Definition dig (d : Z) : Z := if d <? 10 then 48 + d else 87 + d.

Fixpoint digits (fuel : nat) (b n : Z) : list Z :=
  match fuel with
  | O => []
  | S fuel => if n <? b then [n] else digits fuel b (n / b) ++ [n mod b]
  end.

Definition text (b n : Z) : list Z := map dig (digits 64 b n).

Definition number (b : Z) (l : list Z) : Z := fold_left (fun acc d => acc * b + d) l 0.

Ltac chars :=
  repeat match goal with
  | |- context [ch ?a] => let v := eval vm_compute in (ch a) in change (ch a) with v
  | H : context [ch ?a] |- _ => let v := eval vm_compute in (ch a) in change (ch a) with v in H
  end.

Lemma digit_cases d : 0 <= d < 16 ->
  d = 0 \/ d = 1 \/ d = 2 \/ d = 3 \/ d = 4 \/ d = 5 \/ d = 6 \/ d = 7 \/
  d = 8 \/ d = 9 \/ d = 10 \/ d = 11 \/ d = 12 \/ d = 13 \/ d = 14 \/ d = 15.
Proof. lia. Qed.

Lemma hex_at_dig d : 0 <= d < 16 -> hex_at d = Ret (dig d).
Proof. intros Hd%digit_cases. repeat destruct Hd as [->|Hd]; [reflexivity..|by subst]. Qed.

Lemma digits_range fuel b n : 1 < b -> 0 <= n < b ^ Z.of_nat fuel -> Forall (fun d => 0 <= d < b) (digits fuel b n).
Proof.
  intros Hb. revert n. induction fuel as [|f IH]; intros n Hn; [constructor|]. cbn [digits].
  destruct (Z.ltb_spec n b); [apply Forall_singleton; lia|].
  rewrite Nat2Z.inj_succ, Z.pow_succ_r in Hn by lia.
  apply Forall_app. split; [|apply Forall_singleton, Z.mod_pos_bound; lia].
  apply IH. split; [apply Z.div_pos; lia|]. apply Z.div_lt_upper_bound; lia.
Qed.

Lemma fold_number b l acc : fold_left (fun acc d => acc * b + d) l acc = acc * b ^ Z.of_nat (length l) + number b l.
Proof.
  unfold number. revert acc. induction l as [|d l IH]; intros acc; cbn [fold_left length].
  - change (b ^ Z.of_nat 0) with 1. lia.
  - rewrite (IH (acc * b + d)), (IH (0 * b + d)), Nat2Z.inj_succ, Z.pow_succ_r by lia. ring.
Qed.

Lemma number_snoc b l d : number b (l ++ [d]) = number b l * b + d.
Proof. unfold number. by rewrite fold_left_app. Qed.

Lemma digits_number fuel b n : 1 < b -> 0 <= n < b ^ Z.of_nat fuel -> number b (digits fuel b n) = n.
Proof.
  intros Hb. revert n. induction fuel as [|f IH]; intros n Hn; [cbn in *; lia|]. cbn [digits].
  destruct (Z.ltb_spec n b); [unfold number; cbn; lia|].
  rewrite Nat2Z.inj_succ, Z.pow_succ_r in Hn by lia.
  rewrite number_snoc, IH; [|split; [apply Z.div_pos; lia|apply Z.div_lt_upper_bound; lia]].
  pose proof (Z.div_mod n b ltac:(lia)). lia.
Qed.

(** The digits are as many as needed. *)
Lemma digits_length fuel b n :
  1 < b -> 0 <= n < b ^ Z.of_nat fuel -> (0 < fuel)%nat ->
  (1 <= length (digits fuel b n) <= fuel)%nat /\
  (n < b -> digits fuel b n = [n]) /\
  (b <= n -> b ^ (Z.of_nat (length (digits fuel b n)) - 1) <= n).
Proof.
  intros Hb. revert n. induction fuel as [|f IH]; intros n Hn Hf; [lia|]. cbn [digits].
  destruct (Z.ltb_spec n b); [cbn; split_and!; intros; lia || done|].
  rewrite Nat2Z.inj_succ, Z.pow_succ_r in Hn by lia.
  assert (Hq : 1 <= n / b) by (apply Z.div_le_lower_bound; lia).
  assert (Hq2 : n / b < b ^ Z.of_nat f) by (apply Z.div_lt_upper_bound; lia).
  assert (Hf0 : (0 < f)%nat) by (destruct f; [cbn in Hq2; lia|lia]).
  destruct (IH (n / b) ltac:(lia) Hf0) as (Hl & Hone & Hmany). rewrite length_app. cbn [length].
  split_and!; [lia|lia|lia|]. intros _.
  replace (Z.of_nat (length (digits f b (n / b)) + 1) - 1) with (Z.succ (Z.of_nat (length (digits f b (n / b))) - 1)) by lia.
  rewrite Z.pow_succ_r by lia. pose proof (Z.mul_div_le n b ltac:(lia)).
  destruct (Z.lt_ge_cases (n / b) b) as [Hs|Hs].
  - rewrite (Hone Hs). cbn [length]. change (b ^ (Z.of_nat 1 - 1)) with 1. nia.
  - specialize (Hmany Hs). nia.
Qed.

(** ** Conversion loops *)

(** The loop has written the digits below the leading one, least significant first. *)
Lemma digit_loop_spec b n num tmp pos :
  1 < b <= 16 -> 0 <= num < b ^ Z.of_nat n -> (0 < n)%nat -> (pos + n <= length tmp)%nat ->
  exists low q tmp', digit_loop n num b tmp pos = Ret (q, tmp', (pos + length low)%nat) /\
    digits n b num = (if q =? 0 then [] else [q]) ++ rev low /\ 0 <= q < b /\
    length tmp' = length tmp /\
    (forall i d, low !! i = Some d -> tmp' !! (pos + i)%nat = Some (Some (dig d))) /\
    (forall j, (j < pos \/ pos + length low <= j)%nat -> tmp' !! j = tmp !! j).
Proof.
  intros Hb. revert num tmp pos. induction n as [|n IH]; intros num tmp pos Hnum Hn Hlen; [lia|].
  cbn [digit_loop digits]. rewrite Nat2Z.inj_succ, Z.pow_succ_r in Hnum by lia.
  pose proof (Z.mod_pos_bound num b ltac:(lia)) as Hm.
  assert (Hq : 0 <= num / b < b ^ Z.of_nat n) by (split; [apply Z.div_pos; lia|apply Z.div_lt_upper_bound; lia]).
  rewrite hex_at_dig by lia. cbn [obind]. unfold put_cell at 1.
  destruct (Nat.ltb_spec pos (length tmp)) as [Hpos|]; [|lia]. cbn [obind].
  set (tmp1 := <[pos := Some (dig (num mod b))]> tmp).
  destruct (Z.leb_spec b (num / b)) as [Hbig|Hsmall].
  - destruct (IH (num / b) tmp1 (S pos)) as (low & q & tmp' & E & Ed & Hq' & Hl & Hin & Hout).
    + lia.
    + destruct n; [cbn in Hq; lia|lia].
    + unfold tmp1. rewrite length_insert. lia.
    + exists (num mod b :: low), q, tmp'. rewrite E.
      destruct (Z.ltb_spec num b) as [Hlt|_]; [rewrite Z.div_small in Hbig; lia|].
      split_and!; try lia.
      * cbn [length]. do 2 f_equal. lia.
      * rewrite Ed. cbn [rev]. by rewrite app_assoc.
      * unfold tmp1 in Hl. by rewrite length_insert in Hl.
      * intros [|i] d Hd; cbn in Hd.
        -- injection Hd as <-. rewrite Nat.add_0_r, Hout by lia. by apply list_lookup_insert_eq.
        -- replace (pos + S i)%nat with (S pos + i)%nat by lia. by apply Hin.
      * intros j Hj. cbn [length] in Hj. rewrite Hout by lia. apply list_lookup_insert_ne. lia.
  - exists [num mod b], (num / b), tmp1. split_and!; try lia.
    + cbn [length]. do 2 f_equal. lia.
    + cbn [rev]. destruct (Z.ltb_spec num b) as [Hlt|Hge].
      * by rewrite Z.div_small, Z.mod_small by lia.
      * assert (1 <= num / b) by (apply Z.div_le_lower_bound; lia).
        destruct (Z.eqb_spec (num / b) 0); [lia|]. destruct n as [|n]; [cbn in Hq; lia|].
        cbn [digits]. by destruct (Z.ltb_spec (num / b) b); [|lia].
    + apply length_insert.
    + intros [|i] d Hd; [|done]. injection Hd as <-. rewrite Nat.add_0_r. by apply list_lookup_insert_eq.
    + intros j Hj. cbn [length] in Hj. apply list_lookup_insert_ne. lia.
Qed.

Lemma emit_spec tmp l :
  (forall i c, l !! i = Some c -> tmp !! i = Some (Some c)) -> emit tmp (length l) = Ret (rev l).
Proof.
  induction l as [|c l IH] using rev_ind; intros Hl; [done|].
  rewrite length_app, Nat.add_1_r. cbn [emit]. unfold read_cell.
  rewrite (Hl (length l) c) by (by rewrite lookup_app_r, Nat.sub_diag). cbn [obind].
  rewrite IH; [by rewrite rev_app_distr|]. intros i x Hi. apply Hl. by apply lookup_app_l_Some.
Qed.

(** The digits written by [num_to_str] before they are turned around: [low] and the
    leading digit [q]. *)
Lemma num_to_str_digits b bdho num :
  bdho = (if b =? 32 then 16 else b) -> 1 < bdho <= 16 -> 0 <= num < 2 ^ 64 ->
  exists ds tmp, rev ds = digits 64 bdho num /\ (length ds <= 64)%nat /\
    num_to_str num b = emit tmp (if b =? 32 then 16%nat else length ds) /\
    (forall i d, ds !! i = Some d -> tmp !! i = Some (Some (dig d))) /\
    (forall j, (length ds <= j < 16)%nat -> tmp !! j = Some (Some (ch "0"))).
Proof.
  intros -> Hb Hnum. unfold num_to_str. cbn zeta. set (bd := if b =? 32 then 16 else b) in *.
  set (tmp0 := replicate 16 (Some (ch "0")) ++ replicate 48 None).
  assert (H64 : num < bd ^ Z.of_nat 64).
  { eapply Z.lt_le_trans; [apply Hnum|]. apply (Z.pow_le_mono_l 2 bd 64). lia. }
  destruct (digit_loop_spec bd 64 num tmp0 0 Hb ltac:(lia) ltac:(lia)) as (low & q & tmp1 & E & Ed & Hq & Hl & Hin & Hout).
  { done. }
  pose proof (digits_length 64 bd num ltac:(lia) ltac:(lia) ltac:(lia)) as [Hlen _]. rewrite Ed in Hlen.
  rewrite length_app, length_rev in Hlen.
  rewrite E. cbn [obind]. clear E. rewrite Nat.add_0_l in *.
  assert (H0 : forall j, (j < 16)%nat -> tmp0 !! j = Some (Some (ch "0"))).
  { intros j Hj. unfold tmp0. rewrite lookup_app_l by (by rewrite length_replicate). by rewrite lookup_replicate_2. }
  destruct (Z.eqb_spec q 0) as [->|Hq0]; cbn [negb obind] in *.
  - exists low, tmp1. split_and!; [done|lia|done|done|]. intros j Hj. rewrite Hout by lia. apply H0. lia.
  - rewrite hex_at_dig by lia. cbn [obind]. unfold put_cell.
    assert (Hlt : (length low < length tmp1)%nat) by (rewrite Hl; unfold tmp0; rewrite length_app, !length_replicate; cbn in Hlen; lia).
    destruct (Nat.ltb_spec (length low) (length tmp1)); [|lia]. cbn [obind].
    exists (low ++ [q]), (<[length low := Some (dig q)]> tmp1). rewrite length_app. cbn [length] in *.
    split_and!; [by rewrite rev_app_distr, Ed|lia|by rewrite Nat.add_1_r| |].
    + intros i d [Hi|[Hi Hd]]%lookup_app_Some.
      * rewrite list_lookup_insert_ne by (apply lookup_lt_Some in Hi; lia). by apply Hin.
      * apply list_lookup_singleton_Some in Hd as [? <-]. replace i with (length low) by lia. by apply list_lookup_insert_eq.
    + intros j Hj. rewrite list_lookup_insert_ne, Hout by lia. apply H0. lia.
Qed.

Lemma num_to_str_text b num :
  1 < b <= 16 -> 0 <= num < 2 ^ 64 -> num_to_str num b = Ret (text b num).
Proof.
  intros Hb Hnum.
  assert (E32 : (b =? 32) = false) by (apply Z.eqb_neq; lia).
  destruct (num_to_str_digits b b num) as (ds & tmp & Er & _ & -> & Hin & _); [by rewrite E32|done|done|].
  rewrite E32. rewrite <- (length_map dig ds), emit_spec.
  - unfold text. by rewrite <- Er, map_rev.
  - intros i c Hc. apply list_lookup_fmap_Some in Hc as (d & -> & Hi). by apply Hin.
Qed.

Lemma text_length b num : 1 < b -> 0 <= num < 2 ^ 64 -> (1 <= length (text b num) <= 64)%nat.
Proof.
  intros Hb Hnum. unfold text. rewrite length_map. apply digits_length; [done| |lia].
  split; [lia|]. eapply Z.lt_le_trans; [apply Hnum|]. apply (Z.pow_le_mono_l 2 b 64). lia.
Qed.

Lemma hex_text_length num : 0 <= num < 2 ^ 64 -> (length (digits 64 16 num) <= 16)%nat.
Proof.
  intros Hnum. destruct (digits_length 64 16 num ltac:(lia) ltac:(lia) ltac:(lia)) as (Hl & Hone & Hmany).
  destruct (Z.lt_ge_cases num 16) as [Hs|Hs]; [rewrite (Hone Hs); cbn [length]; lia|].
  specialize (Hmany Hs). assert (Hlt : 16 ^ (Z.of_nat (length (digits 64 16 num)) - 1) < 16 ^ 16) by lia.
  apply Z.pow_lt_mono_r_iff in Hlt; lia.
Qed.

Lemma rev_replicate {B} n (x : B) : rev (replicate n x) = replicate n x.
Proof. induction n as [|n IH]; [done|]. cbn [replicate rev]. by rewrite IH, <- replicate_S_end. Qed.

(** A pointer is printed with all its sixteen digits. *)
Lemma ptoa_text num :
  0 <= num < 2 ^ 64 -> ptoa num = Ret (replicate (16 - length (text 16 num)) (ch "0") ++ text 16 num).
Proof.
  intros Hnum. unfold ptoa.
  destruct (num_to_str_digits 32 16 num eq_refl ltac:(lia) Hnum) as (ds & tmp & Er & _ & -> & Hin & Hz).
  pose proof (hex_text_length num Hnum) as H16. rewrite <- Er, length_rev in H16.
  change (32 =? 32) with true. cbn iota.
  set (l := map dig ds ++ replicate (16 - length ds) (ch "0")).
  assert (Hl : length l = 16%nat) by (unfold l; rewrite length_app, length_map, length_replicate; lia).
  assert (E : emit tmp (length l) = Ret (rev l)).
  { apply emit_spec. intros i c [Hi|[Hi Hc]]%lookup_app_Some.
    - apply list_lookup_fmap_Some in Hi as (d & -> & Hd). by apply Hin.
    - rewrite length_map in *. apply lookup_replicate in Hc as [-> Hlt]. apply Hz. lia. }
  rewrite Hl in E. rewrite E. unfold l, text.
  by rewrite <- Er, rev_app_distr, rev_replicate, map_rev, length_rev, length_map.
Qed.

(** ** Reading numbers back *)

Lemma dig_chars d : 0 <= d < 16 ->
  isxdigit (dig d) = true /\
  (if isdigit (dig d) then dig d - ch "0" else TOLOWER (dig d) - ch "a" + 10) = d /\
  (dig d = ch "0" -> d = 0) /\ TOLOWER (dig d) <> ch "x".
Proof. intros Hd%digit_cases. repeat destruct Hd as [->|Hd]; subst; vm_compute; done. Qed.

Lemma strtoul_loop_digits b ds rest r :
  1 < b <= 16 -> Forall (fun d => 0 <= d < b) ds ->
  strtoul_loop (map dig ds ++ rest) b (u64 r) =
  strtoul_loop rest b (u64 (fold_left (fun acc d => acc * b + d) ds r)).
Proof.
  intros Hb Hds. revert r. induction Hds as [|d ds Hd Hds IH]; intros r; [done|].
  cbn [map app strtoul_loop fold_left]. destruct (dig_chars d ltac:(lia)) as (-> & -> & _).
  destruct (Z.leb_spec b d); [lia|]. rewrite <- IH. f_equal. unfold wrap.
  by rewrite Z.add_mod, Z.mul_mod, Z.mod_mod, <- Z.mul_mod, <- Z.add_mod by lia.
Qed.

(** What may follow a number. *)
Definition number_ends (rest : list Z) : Prop :=
  match rest with [] => True | c :: _ => isxdigit c = false /\ TOLOWER c <> ch "x" end.

Lemma strtoul_text b num rest :
  1 < b <= 16 -> 0 <= num < 2 ^ 64 -> number_ends rest -> strtoul (text b num ++ rest) b = (num, rest).
Proof.
  intros Hb Hnum Hrest. unfold strtoul. destruct (Z.eqb_spec b 0); [lia|].
  assert (H64 : num < b ^ Z.of_nat 64).
  { eapply Z.lt_le_trans; [apply Hnum|]. apply (Z.pow_le_mono_l 2 b 64). lia. }
  pose proof (digits_range 64 b num ltac:(lia) ltac:(lia)) as Hr.
  pose proof (digits_number 64 b num ltac:(lia) ltac:(lia)) as Hn.
  assert (Hend : strtoul_loop rest b num = (num, rest)).
  { destruct rest as [|c rest]; [done|]. cbn [strtoul_loop]. by destruct Hrest as [-> _]. }
  assert (Hx : forall cp, cp = text b num ++ rest ->
    match cp with
    | c0 :: c1 :: rest0 => if (b =? 16) && (c0 =? ch "0") && (TOLOWER c1 =? ch "x") then rest0 else cp
    | _ => cp
    end = cp).
  { intros cp E. destruct cp as [|c0 [|c1 cp]]; try done.
    destruct (Z.eqb_spec (TOLOWER c1) (ch "x")) as [Hc1|]; [|by rewrite andb_false_r]. exfalso.
    unfold text in E. destruct (digits_length 64 b num ltac:(lia) ltac:(lia) ltac:(lia)) as [Hl _].
    destruct Hr as [|d0 ds Hd0 Hds]; [cbn in Hl; lia|].
    injection E as -> E. destruct Hds as [|d1 ds Hd1 _]; cbn in E.
    - subst rest. by destruct Hrest.
    - injection E as -> _. by apply (dig_chars d1); [lia|]. }
  rewrite (Hx _ eq_refl). unfold text. rewrite <- (wrap_small 64 0) by lia.
  rewrite strtoul_loop_digits by done. fold (number b (digits 64 b num)). by rewrite Hn, wrap_small.
Qed.

(** ** Formats as lists of directives *)

Inductive kind := KDec | KUns | KHex | KPtr | KLong | KLHex | KStr | KChr | KPct.

(** A plain character, or a conversion with a width from 0 (none) to 9. *)
Inductive item : Type :=
| Lit (c : Z)
| Conv (w : Z) (k : kind).

Definition letters (k : kind) : list Z :=
  match k with
  | KDec => str "d" | KUns => str "u" | KHex => str "x" | KPtr => str "p" | KLong => str "ld"
  | KLHex => str "lx" | KStr => str "s" | KChr => str "c" | KPct => str "%"
  end.

Definition show (it : item) : list Z :=
  match it with
  | Lit c => [c]
  | Conv w k => ch "%" :: (if w =? 0 then [] else [ch "0" + w]) ++ letters k
  end.

Definition signed_text (v : Z) : list Z := if v <? 0 then ch "-" :: text 10 (- v) else text 10 v.

(** The text of a number; [%ld] prints an unsigned number, and [%d] has no text for the
    least [int]. *)
Definition number_text (k : kind) (v : Z) : option (list Z) :=
  match k with
  | KDec => if s32 v =? - 2 ^ 31 then None else Some (signed_text (s32 v))
  | KUns => Some (text 10 (u32 v))
  | KHex | KLHex => Some (text 16 v)
  | KPtr => Some (replicate (16 - length (text 16 v)) (ch "0") ++ text 16 v)
  | KLong => Some (text 10 v)
  | _ => None
  end.

Definition pad (w : Z) (s : list Z) : list Z := replicate (Z.to_nat (w - Z.of_nat (length s))) (ch " ") ++ s.

(** What a directive prints, and the arguments left. *)
Definition render_item (it : item) (args : list arg) : option (list Z * list arg) :=
  match it, args with
  | Lit c, _ => if c =? ch "%" then None else Some ([c], args)
  | Conv w KPct, _ => if w =? 0 then Some ([ch "%"], args) else None
  | Conv w KStr, AStr s :: args => if (0 <=? w) && (w <=? 9) then Some (pad w s, args) else None
  | Conv w KChr, ANum v :: args => if (0 <=? w) && (w <=? 9) then Some (pad w [u8 v], args) else None
  | Conv w k, ANum v :: args =>
      if (0 <=? w) && (w <=? 9) && (0 <=? v) && (v <? 2 ^ 64)
      then (fun t => (pad w t, args)) <$> number_text k v else None
  | _, _ => None
  end.

Fixpoint render (l : list item) (args : list arg) : option (list Z) :=
  match l with
  | [] => Some []
  | it :: l => '(out, args) ← render_item it args; rest ← render l args; Some (out ++ rest)
  end.

Definition conv_of (k : kind) : conversion :=
  match k with
  | KDec => CNum (Z.lor PRINTF_DEC PRINTF_SIGNED)
  | KUns => CNum (Z.lor PRINTF_DEC PRINTF_UNSIGNED)
  | KHex => CNum (Z.lor PRINTF_HEX PRINTF_UNSIGNED)
  | KPtr => CNum (Z.lor PRINTF_POINTER PRINTF_UNSIGNED)
  | KLong => CNum (Z.lor PRINTF_LONG PRINTF_DEC)
  | KLHex => CNum (Z.lor PRINTF_LONG PRINTF_HEX)
  | KStr => CStr
  | KChr => CChar
  | KPct => CText [ch "%"]
  end.

Lemma s32_range x : - 2 ^ 31 <= s32 x < 2 ^ 31.
Proof.
  unfold s32. cbn zeta. pose proof (wrap_range 32 x ltac:(lia)). destruct (Z.ltb_spec (u32 x) (2 ^ 31)); lia.
Qed.

Lemma itoa_text v : - 2 ^ 31 < v < 2 ^ 31 -> itoa v = Ret (signed_text v).
Proof.
  intros Hv. unfold itoa, xxxtoa, signed_text. replace (Z.lnot v + 1) with (- v) by (unfold Z.lnot; lia).
  destruct (Z.ltb_spec v 0).
  - rewrite s32_small, wrap_small by lia. by rewrite num_to_str_text by lia.
  - rewrite wrap_small by lia. by rewrite num_to_str_text by lia.
Qed.

Lemma align_pad w s : 0 <= w -> align_chars w (length s) ++ s = pad w s.
Proof.
  intros Hw. unfold align_chars, pad. destruct (Z.eqb_spec w 0) as [->|]; cbn [negb andb].
  - replace (Z.to_nat (0 - Z.of_nat (length s))) with 0%nat by lia. done.
  - destruct (Z.ltb_spec (Z.of_nat (length s)) w); [done|].
    replace (Z.to_nat (w - Z.of_nat (length s))) with 0%nat by lia. done.
Qed.

Lemma numbric_text k v t :
  0 <= v < 2 ^ 64 -> number_text k v = Some t ->
  exists flag, conv_of k = CNum flag /\ numbric v flag = Ret t /\ (length t <= 65)%nat.
Proof.
  intros Hv E. pose proof (wrap_range 32 v ltac:(lia)). pose proof (s32_range v).
  assert (Hlen : forall b n, 1 < b <= 16 -> 0 <= n < 2 ^ 64 -> (length (text b n) <= 65)%nat)
    by (intros b n Hb Hn; pose proof (text_length b n ltac:(lia) Hn); lia).
  destruct k; cbn [number_text] in E; try done; try injection E as <-; (eexists; split; [done|]).
  - destruct (Z.eqb_spec (s32 v) (- 2 ^ 31)); [done|]. injection E as <-.
    split; [apply itoa_text; lia|]. unfold signed_text. pose proof (text_length 10 (s32 v) ltac:(lia)).
    pose proof (text_length 10 (- s32 v) ltac:(lia)). destruct (Z.ltb_spec (s32 v) 0); cbn [length]; lia.
  - split; [apply num_to_str_text; lia|apply Hlen; lia].
  - split; [apply num_to_str_text; lia|apply Hlen; lia].
  - split; [by apply ptoa_text|]. rewrite length_app, length_replicate. specialize (Hlen 16 v). lia.
  - split; [apply num_to_str_text; lia|apply Hlen; lia].
  - split; [apply num_to_str_text; lia|apply Hlen; lia].
Qed.

(** One round of the loop reads one directive. *)
Lemma format_conv n w k fmt args :
  0 <= w <= 9 -> (k = KPct -> w = 0) ->
  format_loop (S n) (show (Conv w k) ++ fmt) args =
  let* (out, args) := print_conversion w (conv_of k) args in
  let* rest := format_loop n fmt args in Ret (out ++ rest).
Proof.
  intros Hw Hk. cbn [format_loop show app]. change (ch "%" =? ch "%") with true. cbn [negb].
  destruct (Z.eqb_spec w 0) as [->|Hw0]; cbn [app].
  - destruct k; reflexivity.
  - assert (Hd : is_digit (ch "0" + w) = true) by (unfold is_digit; chars; case_bools; try done; lia).
    rewrite Hd. replace (ch "0" + w - ch "0") with w by lia. destruct k; try reflexivity. by specialize (Hk eq_refl).
Qed.

Lemma render_item_spec it args out args' :
  render_item it args = Some (out, args') ->
  forall n fmt, format_loop (S n) (show it ++ fmt) args =
    let* rest := format_loop n fmt args' in Ret (out ++ rest).
Proof.
  intros E n fmt. destruct it as [c|w k].
  - cbn [render_item] in E. destruct (Z.eqb_spec c (ch "%")) as [|Hc]; [done|]. injection E as <- <-.
    cbn [show app format_loop]. by destruct (Z.eqb_spec c (ch "%")).
  - assert (Hw : 0 <= w <= 9 /\ (k = KPct -> w = 0)).
    { revert E. unfold render_item.
      destruct (Z.leb_spec 0 w), (Z.leb_spec w 9), (Z.eqb_spec w 0); cbn [andb];
        destruct k, args as [|[] args]; intros E; try done; (split; [lia|done]). }
    destruct Hw as [Hw Hpct]. rewrite format_conv by done. cbn [render_item] in E.
    replace ((0 <=? w) && (w <=? 9)) with true in E by (symmetry; apply andb_true_iff; rewrite !Z.leb_le; lia).
    assert (Hnum : forall v args0, args = ANum v :: args0 -> k <> KStr -> k <> KChr -> k <> KPct ->
      print_conversion w (conv_of k) args = Ret (out, args')).
    { intros v args0 -> H1 H2 H3.
      assert (Et : (fun t => (pad w t, args0)) <$> number_text k v = Some (out, args') /\ 0 <= v < 2 ^ 64).
      { destruct (Z.leb_spec 0 v), (Z.ltb_spec v (2 ^ 64)); cbn in E; destruct k; done. }
      destruct Et as [Et Hv]. apply fmap_Some in Et as (t & Et & [= -> ->]).
      destruct (numbric_text k v t Hv Et) as (flag & -> & En & Hl). cbn [print_conversion]. rewrite En. cbn [obind].
      destruct (Nat.ltb_spec 96 (length t)); [lia|]. by rewrite align_pad by lia. }
    destruct k, args as [|[v|s] args]; try done; try (by rewrite (Hnum v args) by done); cbn in E; try done; try by destruct ((0 <=? v) && (v <? 2 ^ 64)).
    + injection E as <- <-. cbn [print_conversion conv_of obind]. by rewrite align_pad by lia.
    + injection E as <- <-. cbn [print_conversion conv_of obind]. by rewrite <- align_pad by lia.
    + rewrite (Hpct eq_refl) in E. by injection E as <- <-.
    + rewrite (Hpct eq_refl) in E. by injection E as <- <-.
    + rewrite (Hpct eq_refl) in E. by injection E as <- <-.
Qed.

Lemma show_length it : (1 <= length (show it))%nat.
Proof. destruct it; cbn [show length]; lia. Qed.

Lemma format_renders l args out n :
  render l args = Some out -> (length (concat (map show l)) < n)%nat ->
  format_loop n (concat (map show l)) args = Ret out.
Proof.
  revert args out n. induction l as [|it l IH]; intros args out n E Hn.
  - injection E as <-. destruct n; [cbn in Hn; lia|done].
  - cbn [render] in E. destruct (render_item it args) as [[o args']|] eqn:Ei; [|done]. cbn in E.
    destruct (render l args') as [rest|] eqn:El; [|done]. injection E as <-.
    cbn [map concat] in *. rewrite length_app in Hn. pose proof (show_length it). destruct n as [|n]; [lia|].
    rewrite (render_item_spec it args o args' Ei), (IH args' rest n El) by lia. done.
Qed.

(** ** Tokens and division *)

Lemma is_delim_true delim c : is_delim delim c = true <-> c ∈ delim \/ c = 0.
Proof.
  unfold is_delim. rewrite orb_true_iff, existsb_exists, Z.eqb_eq. split.
  - intros [(x & Hx & ->%Z.eqb_eq)|?]; [left; by apply list_elem_of_In|by right].
  - intros [?|?]; [left; exists c; split; [by apply list_elem_of_In|by apply Z.eqb_eq]|by right].
Qed.

(** No character of [w] ends a token. *)
Definition plain (delim w : list Z) : Prop := Forall (fun c => is_delim delim c = false) w.

Lemma strsep_loop_spec n pre w c post delim :
  plain delim w -> is_delim delim c = true -> (length w < n)%nat ->
  strsep_loop n (pre ++ w ++ c :: post) (length pre) delim =
  Ret (if c =? 0 then (None, pre ++ w ++ c :: post)
       else (Some (length pre + length w + 1)%nat, pre ++ w ++ 0 :: post)).
Proof.
  intros Hw Hc. revert n pre. induction Hw as [|x w Hx Hw IH]; intros n pre Hn; (destruct n as [|n]; [cbn in Hn; lia|]);
    cbn [strsep_loop app]; unfold char_at; rewrite list_lookup_middle by done; cbn [obind].
  - rewrite Hc. cbn [length]. destruct (Z.eqb_spec c 0); [done|].
    rewrite insert_app_r_alt, Nat.sub_diag by done. cbn. do 3 f_equal. lia.
  - rewrite Hx. cbn [length] in Hn. replace (S (length pre)) with (length (pre ++ [x])) by (rewrite length_app; cbn; lia).
    replace (pre ++ x :: w ++ c :: post) with ((pre ++ [x]) ++ w ++ c :: post) by (by rewrite <- app_assoc).
    rewrite IH by lia. rewrite length_app. cbn [length].
    replace ((pre ++ [x]) ++ w ++ 0 :: post) with (pre ++ x :: w ++ 0 :: post) by (by rewrite <- app_assoc).
    destruct (c =? 0); do 3 f_equal; lia.
Qed.

Lemma strsep_spec pre w c post delim :
  plain delim w -> is_delim delim c = true ->
  strsep (pre ++ w ++ c :: post) (Some (length pre)) delim =
  Ret (Some (length pre),
       (if c =? 0 then None else Some (length pre + length w + 1)%nat),
       (if c =? 0 then pre ++ w ++ c :: post else pre ++ w ++ 0 :: post)).
Proof.
  intros Hw Hc. unfold strsep. rewrite strsep_loop_spec; [|done|done|rewrite !length_app; lia].
  cbn [obind]. by destruct (c =? 0).
Qed.

Lemma c_string_app w post : Forall (fun c => c <> 0) w -> c_string (w ++ 0 :: post) = Some w.
Proof.
  induction 1 as [|c w Hc _ IH]; [done|]. cbn [app c_string]. destruct (Z.eqb_spec c 0); [done|]. by rewrite IH.
Qed.

Lemma shiftr32 a : Z.shiftr a 32 = a / 2 ^ 32.
Proof. apply Z.shiftr_div_pow2. lia. Qed.

(** The intermediate values fit in a word. *)
Lemma muldiv64_exact a b c :
  0 <= a < 2 ^ 64 -> 0 <= b < 2 ^ 32 -> 0 < c < 2 ^ 32 -> muldiv64 a b c = Ret (u64 (a * b / c)).
Proof.
  intros Ha Hb Hc. unfold muldiv64. destruct (Z.eqb_spec c 0); [lia|]. cbn zeta. rewrite !shiftr32.
  set (ah := a / 2 ^ 32). set (al := u32 a).
  assert (Eal : a = ah * 2 ^ 32 + al) by (unfold ah, al, wrap; pose proof (Z.div_mod a (2 ^ 32) ltac:(lia)); lia).
  assert (Hal : 0 <= al < 2 ^ 32) by (apply wrap_range; lia).
  assert (Hah : 0 <= ah < 2 ^ 32) by (unfold ah; split; [apply Z.div_pos; lia|apply Z.div_lt_upper_bound; lia]).
  assert (Hrl : 0 <= al * b < 2 ^ 64) by nia. assert (Hrh : 0 <= ah * b < 2 ^ 64) by nia.
  rewrite (wrap_small 64 (al * b)), (wrap_small 64 (ah * b)) by done.
  set (r := al * b). set (rh := ah * b + r / 2 ^ 32).
  assert (Hr32 : 0 <= r / 2 ^ 32 < 2 ^ 32) by (split; [apply Z.div_pos; lia|apply Z.div_lt_upper_bound; lia]).
  assert (Hrh2 : 0 <= rh < 2 ^ 64) by (unfold rh; nia).
  rewrite (wrap_small 64 rh) by done. change 0xffffffff with (Z.ones 32). rewrite Z.land_ones by lia.
  pose proof (Z.mod_pos_bound rh c ltac:(lia)) as Hm. pose proof (Z.mod_pos_bound r (2 ^ 32) ltac:(lia)) as Hrm.
  rewrite Z.shiftl_mul_pow2 by lia. rewrite (wrap_small 64 (rh mod c * 2 ^ 32)) by nia.
  rewrite (wrap_small 64 (rh mod c * 2 ^ 32 + r mod 2 ^ 32)) by nia.
  set (low := (rh mod c * 2 ^ 32 + r mod 2 ^ 32) / c).
  assert (Hlow : 0 <= low < 2 ^ 32) by (unfold low; split; [apply Z.div_pos; nia|apply Z.div_lt_upper_bound; nia]).
  rewrite (wrap_small 32 low) by done. f_equal.
  assert (Eab : a * b = rh * 2 ^ 32 + r mod 2 ^ 32).
  { unfold rh. pose proof (Z.div_mod r (2 ^ 32) ltac:(lia)). rewrite Eal. unfold r in *. nia. }
  assert (Eq : a * b / c = rh / c * 2 ^ 32 + low).
  { unfold low. rewrite Eab. pose proof (Z.div_mod rh c ltac:(lia)) as E.
    replace (rh * 2 ^ 32 + r mod 2 ^ 32) with ((rh mod c * 2 ^ 32 + r mod 2 ^ 32) + (rh / c * 2 ^ 32) * c) by nia.
    rewrite Z.div_add by lia. lia. }
  rewrite Eq. unfold wrap. change (2 ^ 64) with (2 ^ 32 * 2 ^ 32).
  rewrite (Z.add_mod (rh / c * 2 ^ 32)), Z.mul_mod_distr_r by lia.
  pose proof (Z.mod_pos_bound (rh / c) (2 ^ 32) ltac:(lia)).
  rewrite (Z.mod_small low), (Z.mod_small ((rh / c) mod 2 ^ 32 * 2 ^ 32 + low)) by lia. done.
Qed.

(** ** Properties *)

(** Printing a number of up to 64 bits in base 2 to 16 stays inside the 64-character
    scratch buffer, and writes the digits of the number: they stand for it, each is below
    the base, and there are no leading zeros. *)
Theorem num_to_str_bounds b num :
  1 < b <= 16 -> 0 <= num < 2 ^ 64 ->
  exists ds, num_to_str num b = Ret (map dig ds) /\ number b ds = num /\
    Forall (fun d => 0 <= d < b) ds /\ (1 <= length ds <= 64)%nat /\
    (length ds = 1%nat \/ b ^ (Z.of_nat (length ds) - 1) <= num).
Proof.
  intros Hb Hnum. assert (H64 : num < b ^ Z.of_nat 64).
  { eapply Z.lt_le_trans; [apply Hnum|]. apply (Z.pow_le_mono_l 2 b 64). lia. }
  exists (digits 64 b num). destruct (digits_length 64 b num ltac:(lia) ltac:(lia) ltac:(lia)) as (Hl & Hone & Hmany).
  split; [by apply num_to_str_text|]. split; [apply digits_number; lia|]. split; [apply digits_range; lia|].
  split; [done|]. destruct (Z.lt_ge_cases num b) as [Hs|Hs]; [left; by rewrite Hone|right; by apply Hmany].
Qed.

(** C38: a number printed in base 2 to 16 is read back by [strtoul] in that base, up to the
    first character that cannot continue it. *)
Theorem number_roundtrip b num rest :
  1 < b <= 16 -> 0 <= num < 2 ^ 64 -> number_ends rest ->
  exists txt, num_to_str num b = Ret txt /\ strtoul (txt ++ rest) b = (num, rest).
Proof. intros Hb Hnum Hrest. exists (text b num). by split; [apply num_to_str_text|apply strtoul_text]. Qed.

(** [vsprintf] on a format made of plain characters and conversions returns, and prints
    the rendering of each in order: numbers in their base, strings and characters padded with
    blanks to the width. *)
Theorem vsprintf_renders l args out :
  render l args = Some out -> vsprintf (concat (map show l)) args = Ret out.
Proof. intros E. apply format_renders; [done|lia]. Qed.

(** [muldiv64] computes the product of a 64-bit and a 32-bit number divided by a 32-bit
    number without overflow in between: the result is the exact quotient modulo 2^64. *)
Theorem muldiv64_rounds_down a b c :
  0 <= a < 2 ^ 64 -> 0 <= b < 2 ^ 32 -> 0 < c < 2 ^ 32 -> muldiv64 a b c = Ret (u64 (a * b / c)).
Proof. apply muldiv64_exact. Qed.

Lemma num_to_str_bounds_witness : exists ds, num_to_str 255 2 = Ret (map dig ds) /\ number 2 ds = 255.
Proof. destruct (num_to_str_bounds 2 255) as (ds & E & Hn & _); [lia|lia|by exists ds]. Defined.

Lemma number_roundtrip_witness : exists txt, num_to_str 0xbeef 16 = Ret txt /\ strtoul (txt ++ str " end") 16 = (0xbeef, str " end").
Proof. apply (number_roundtrip 16 0xbeef (str " end")); [lia|lia|by vm_compute]. Defined.

Lemma vsprintf_renders_witness :
  vsprintf (str "irq %3d at %p: %s%%") [ANum 7; ANum 0x1000; AStr (str "ok")] =
  Ret (str "irq   7 at 0000000000001000: ok%").
Proof.
  exact (vsprintf_renders
    (map Lit (str "irq ") ++ [Conv 3 KDec] ++ map Lit (str " at ") ++ [Conv 0 KPtr] ++ map Lit (str ": ")
       ++ [Conv 0 KStr; Conv 0 KPct])
    [ANum 7; ANum 0x1000; AStr (str "ok")] (str "irq   7 at 0000000000001000: ok%") ltac:(vm_compute; reflexivity)).
Defined.

Lemma muldiv64_rounds_down_witness : muldiv64 (2 ^ 63) 1000000000 62500000 = Ret (u64 (2 ^ 67)).
Proof. exact (muldiv64_rounds_down (2 ^ 63) 1000000000 62500000 ltac:(lia) ltac:(lia) ltac:(lia)). Defined.

(** The time stamp always has fifteen characters. *)
Lemma print_time_length now : 0 <= now < 2 ^ 64 -> exists s, get_print_time now = Ret s /\ length s = 15%nat.
Proof.
  intros Hnow. unfold get_print_time, uitoa. cbn zeta.
  pose proof (wrap_range 32 (now / 1000 / 1000000) ltac:(lia)). pose proof (wrap_range 32 ((now / 1000) mod 1000000) ltac:(lia)).
  rewrite !num_to_str_text by lia. cbn [obind]. eexists. split; [done|].
  repeat (rewrite length_app || rewrite length_replicate || rewrite length_take || cbn [length]). lia.
Qed.

(** [%d] of the least [int] prints a wrong number. *)
Example itoa_least_int : itoa (- 2 ^ 31) = Ret (str "-18446744071562067968").
Proof. vm_compute. reflexivity. Qed.

(** [%ld] of a negative number prints it as unsigned. *)
Example long_decimal_unsigned : vsprintf (str "%ld") [ANum (2 ^ 64 - 1)] = Ret (str "18446744073709551615").
Proof. vm_compute. reflexivity. Qed.

(** [%o] prints a decimal number. *)
Example octal_prints_decimal : vsprintf (str "%o") [ANum 8] = Ret (str "8").
Proof. vm_compute. reflexivity. Qed.

(** A format that ends in ["%"] is read past its end. *)
Example trailing_percent_overruns : vsprintf (str "100%") [] = Fault.
Proof. vm_compute. reflexivity. Qed.

(** Upper-case hexadecimal digits are not digits. *)
Example strtoul_upper_case : strtoul (str "0xBEEF") 16 = (0, str "BEEF").
Proof. vm_compute. reflexivity. Qed.
