(* ===== verification/Bootarg.v ===== *)
(** * Boot arguments

    [core/bootarg.c]: the kernel command line is copied into a static buffer, cut into
    words in place, and each word becomes an option whose name and arguments are pointers
    into that buffer.  An option is looked up by name, and its arguments are parsed as a
    number, a flag or a string.

    Pointers are indices into the one buffer [cmdline], which later cuts keep changing; the
    theorems say that every option still shows its name and arguments at the end.  How
    many allocations succeed is the argument [room]. *)

From Stdlib Require Import Ascii String.
From S2P Require Import Prelude Types Str.

Definition CMDLINE_SIZE : nat := 511.

Record boot_option := mk_option {
  bo_name : nat;
  bo_args : option nat;
}.

(** The buffer and the list of options, last one first. *)
Record boot := mk_boot {
  cmdline : list Z;
  boot_options : list boot_option;
}.

Definition bootarg_init_one (b : boot) (room : nat) (s : nat) : outcome (boot * nat) :=
  let* c := char_at (cmdline b) s in
  if (c =? 0) || (c =? ch " ") then Ret (b, room) else
  match room with
  | O => Panic
  | S room =>
      let* ((name, args), buf) := strsep (cmdline b) (Some s) (str "=") in
      Ret (mk_boot buf (mk_option (default 0%nat name) args :: boot_options b), room)
  end.

Fixpoint bootargs_loop (n : nat) (b : boot) (tmp : option nat) (room : nat) : outcome boot :=
  match n with
  | O => OutOfFuel
  | S n =>
      let* ((bootarg, tmp), buf) := strsep (cmdline b) tmp (str " ") in
      let b := mk_boot buf (boot_options b) in
      match bootarg with
      | None => Ret b
      | Some s => let* (b, room) := bootarg_init_one b room s in bootargs_loop n b tmp room
      end
  end.

(** A word takes at least one character of the buffer, so its size bounds the rounds. *)
Definition bootargs_init (b : boot) (line : list Z) (len room : nat) : outcome boot :=
  let len := Nat.min len CMDLINE_SIZE in
  let* copy := strncpy line len in
  let buf := copy ++ 0 :: drop (S len) (cmdline b) in
  bootargs_loop (CMDLINE_SIZE + 3) (mk_boot buf (boot_options b)) (Some 0%nat) room.

(** ** Looking options up *)

Definition args_at (buf : list Z) (o : option nat) : outcome (option (list Z)) :=
  match o with None => Ret None | Some i => let* s := string_at buf i in Ret (Some s) end.

(** [parse] gets the argument string, if there is one, and returns a status or a value. *)
Fixpoint get_boot_option {V} (buf : list Z) (l : list boot_option) (name : list Z)
    (parse : option (list Z) -> Z + V) : outcome (Z + V) :=
  match l with
  | [] => Ret (inl (- ENOENT))
  | bo :: l =>
      let* n := string_at buf (bo_name bo) in
      if negb (bool_decide (name = n)) then get_boot_option buf l name parse
      else let* a := args_at buf (bo_args bo) in Ret (parse a)
  end.

Definition __get_boot_option {V} (b : boot) (name : list Z) (parse : option (list Z) -> Z + V) : outcome (Z + V) :=
  get_boot_option (cmdline b) (boot_options b) name parse.

Definition __parse_hex32 (args : option (list Z)) : Z + Z :=
  match args with None => inl (- EINVAL) | Some s => inr (u32 (strtoul s 16).1) end.
Definition __parse_hex64 (args : option (list Z)) : Z + Z :=
  match args with None => inl (- EINVAL) | Some s => inr (strtoul s 16).1 end.
Definition __parse_uint (args : option (list Z)) : Z + Z :=
  match args with None => inl (- EINVAL) | Some s => inr (u32 (strtoul s 10).1) end.
Definition __parse_bool (args : option (list Z)) : Z + Z := inr 1.
Definition __parse_string (args : option (list Z)) : Z + list Z :=
  match args with None => inl (- EINVAL) | Some s => inr s end.

Definition bootarg_parse_hex32 (b : boot) (name : list Z) := __get_boot_option b name __parse_hex32.
Definition bootarg_parse_hex64 (b : boot) (name : list Z) := __get_boot_option b name __parse_hex64.
Definition bootarg_parse_uint (b : boot) (name : list Z) := __get_boot_option b name __parse_uint.
Definition bootarg_parse_bool (b : boot) (name : list Z) := __get_boot_option b name __parse_bool.
Definition bootarg_parse_string (b : boot) (name : list Z) := __get_boot_option b name __parse_string.

(** ** What the command line means *)

Fixpoint split (d : Z) (l : list Z) : list (list Z) :=
  match l with
  | [] => [[]]
  | c :: l => if c =? d then [] :: split d l
              else match split d l with w :: ws => (c :: w) :: ws | [] => [[c]] end
  end.

(** A word at its first ["="]. *)
Fixpoint cut (w : list Z) : list Z * option (list Z) :=
  match w with
  | [] => ([], None)
  | c :: w => if c =? ch "=" then ([], Some w) else let (n, a) := cut w in (c :: n, a)
  end.

Definition parse_line (line : list Z) : list (list Z * option (list Z)) :=
  map cut (filter (fun w => w <> []) (split (ch " ") line)).

(** An option and the texts its pointers show in the buffer. *)
Definition shows (buf : list Z) (bo : boot_option) (opt : list Z * option (list Z)) : Prop :=
  string_at buf (bo_name bo) = Ret opt.1 /\ args_at buf (bo_args bo) = Ret opt.2.

(** ** Strings in the buffer *)

Definition no_nul (l : list Z) : Prop := Forall (fun c => c <> 0) l.

Lemma string_at_app pre post i s : string_at pre i = Ret s -> string_at (pre ++ post) i = Ret s.
Proof.
  unfold string_at. destruct (c_string (drop i pre)) as [x|] eqn:E; [|done]. intros [= <-].
  destruct (decide (i <= length pre)%nat) as [Hi|Hi]; [|by rewrite drop_ge in E by lia].
  rewrite drop_app_le by done. assert (Hc : forall l s, c_string l = Some s -> c_string (l ++ post) = Some s).
  { clear. induction l as [|c l IH]; intros s E; [done|]. cbn [app c_string] in *. destruct (c =? 0); [done|].
    apply fmap_Some in E as (t & Et & ->). by rewrite (IH t Et). }
  by rewrite (Hc _ _ E).
Qed.

Lemma shows_app pre post bo opt : shows pre bo opt -> shows (pre ++ post) bo opt.
Proof.
  intros [H1 H2]. split; [by apply string_at_app|]. revert H2. unfold args_at. destruct (bo_args bo) as [i|]; [|done].
  destruct (string_at pre i) as [s| | |] eqn:E; try done. by rewrite (string_at_app pre post i s E).
Qed.

Lemma string_at_mid pre w post : no_nul w -> string_at (pre ++ w ++ 0 :: post) (length pre) = Ret w.
Proof. intros Hw. unfold string_at. by rewrite drop_app_length, c_string_app. Qed.

Lemma delim_false d w : no_nul w -> ~ d ∈ w -> plain [d] w.
Proof.
  intros Hw Hd. apply Forall_forall. intros c Hc. apply not_true_is_false. rewrite is_delim_true, list_elem_of_singleton.
  unfold no_nul in Hw. rewrite Forall_forall in Hw. intros [-> | ->]; [done|]. by apply (Hw 0).
Qed.

(** A line is one word, or a word, a blank and the rest. *)
Lemma split_cases d l :
  (~ d ∈ l /\ split d l = [l]) \/
  exists w l', l = w ++ d :: l' /\ ~ d ∈ w /\ split d l = w :: split d l'.
Proof.
  induction l as [|c l IH]; [by left; split; [apply not_elem_of_nil|]|]. cbn [split].
  destruct (Z.eqb_spec c d) as [->|Hc]; [right; exists [], l; by split_and!; [|apply not_elem_of_nil|]|].
  destruct IH as [[Hl ->]|(w & l' & -> & Hw & ->)].
  - left. split; [|done]. rewrite elem_of_cons. intros [?|?]; congruence.
  - right. exists (c :: w), l'. split_and!; [done| |done]. rewrite elem_of_cons. intros [?|?]; congruence.
Qed.

Lemma cut_cases w :
  (~ ch "=" ∈ w /\ cut w = (w, None)) \/
  exists n a, w = n ++ ch "=" :: a /\ ~ ch "=" ∈ n /\ cut w = (n, Some a).
Proof.
  induction w as [|c w IH]; [by left; split; [apply not_elem_of_nil|]|]. cbn [cut].
  destruct (Z.eqb_spec c (ch "=")) as [->|Hc]; [right; exists [], w; by split_and!; [|apply not_elem_of_nil|]|].
  destruct IH as [[Hl ->]|(n & a & -> & Hn & ->)].
  - left. split; [|done]. rewrite elem_of_cons. intros [?|?]; congruence.
  - right. exists (c :: n), a. split_and!; [done| |done]. rewrite elem_of_cons. intros [?|?]; congruence.
Qed.

(** The options a word adds. *)
Definition word_options (w : list Z) : list (list Z * option (list Z)) :=
  match w with [] => [] | _ => [cut w] end.

Lemma parse_line_cons d w l : parse_line (w ++ d :: l) = word_options w ++ parse_line l \/ d <> ch " " \/ ch " " ∈ w.
Proof.
  destruct (decide (d = ch " ")) as [->|]; [|tauto]. destruct (decide (ch " " ∈ w)) as [|Hw]; [tauto|]. left.
  unfold parse_line. replace (split (ch " ") (w ++ ch " " :: l)) with (w :: split (ch " ") l).
  - by destruct w.
  - induction w as [|c w IH]; cbn [app split]; [by rewrite Z.eqb_refl|]. rewrite elem_of_cons in Hw.
    destruct (Z.eqb_spec c (ch " ")); [subst; tauto|]. rewrite <- IH by tauto. done.
Qed.

Lemma parse_line_last w : ~ ch " " ∈ w -> parse_line w = word_options w.
Proof.
  intros Hw. unfold parse_line. destruct (split_cases (ch " ") w) as [[_ ->]|(? & ? & -> & _)]; [by destruct w|].
  exfalso. apply Hw. rewrite elem_of_app, elem_of_cons. tauto.
Qed.

(** Cutting one word of the buffer. *)
Lemma init_one_spec pre w post opts room :
  no_nul w -> ~ ch " " ∈ w ->
  let k := length (word_options w) in
  (k <= room)%nat ->
  exists w' new, bootarg_init_one (mk_boot (pre ++ w ++ 0 :: post) opts) room (length pre) =
      Ret (mk_boot (pre ++ w' ++ 0 :: post) (new ++ opts), (room - k)%nat) /\
    length w' = length w /\ Forall2 (shows (pre ++ w' ++ [0])) new (word_options w).
Proof.
  intros Hw Hsp k Hk. unfold bootarg_init_one, char_at. cbn [cmdline boot_options].
  destruct w as [|c w].
  { exists [], []. cbn [app]. rewrite list_lookup_middle by done. cbn [obind Z.eqb orb]. unfold k. cbn. by rewrite Nat.sub_0_r. }
  cbn [app]. rewrite list_lookup_middle by done. cbn [obind].
  inversion Hw as [|? ? Hc Hw' E1]; subst. rewrite elem_of_cons in Hsp.
  destruct (Z.eqb_spec c 0) as [?|Hc0]; [done|]. destruct (Z.eqb_spec c (ch " ")) as [?|Hc1]; [exfalso; apply Hsp; by left|]. cbn [orb].
  destruct room as [|room]; [cbn in Hk; lia|]. unfold k. cbn [word_options length]. rewrite Nat.sub_succ, Nat.sub_0_r.
  change (pre ++ c :: w ++ 0 :: post) with (pre ++ (c :: w) ++ 0 :: post).
  assert (Hnul : string_at (pre ++ (c :: w) ++ [0]) (length pre) = Ret (c :: w)) by (by apply string_at_mid).
  destruct (cut_cases (c :: w)) as [[Hn Ec]|(n & a & E & Hn & Ec)].
  - rewrite strsep_spec; [|by apply delim_false|done]. cbn [obind default Z.eqb].
    exists (c :: w), [mk_option (length pre) None]. split_and!; [done|done|]. rewrite Ec. repeat constructor. exact Hnul.
  - rewrite E in *. unfold no_nul in Hw. rewrite Forall_app, Forall_cons in Hw. destruct Hw as (Hn0 & _ & Ha0).
    rewrite <- app_assoc. cbn [app]. rewrite (strsep_spec pre n (ch "=") (a ++ 0 :: post)); [|by apply delim_false|done].
    cbn [obind default]. change (ch "=" =? 0) with false. cbn iota.
    exists (n ++ 0 :: a), [mk_option (length pre) (Some (length pre + length n + 1)%nat)].
    split_and!; [by rewrite <- app_assoc|apply (f_equal length) in E; rewrite !length_app in *; cbn in *; lia|]. rewrite Ec. constructor; [|constructor].
    split; cbn [bo_name bo_args fst snd args_at].
    + rewrite <- app_assoc. cbn [app]. by apply string_at_mid.
    + replace (length pre + length n + 1)%nat with (length (pre ++ n ++ [0])) by (rewrite !length_app; cbn; lia).
      replace (pre ++ (n ++ 0 :: a) ++ [0]) with ((pre ++ n ++ [0]) ++ a ++ 0 :: [])
        by (rewrite <- !app_assoc; reflexivity).
      by rewrite string_at_mid.
Qed.

Lemma loop_end n b room : bootargs_loop (S n) b None room = Ret b.
Proof. by destruct b. Qed.

(** The loop over the words that are left: the part of the buffer before them stays. *)
Lemma loop_spec n rest pre post opts room :
  no_nul rest -> (length rest + 2 <= n)%nat -> (length (parse_line rest) <= room)%nat ->
  exists b new mid, bootargs_loop n (mk_boot (pre ++ rest ++ 0 :: post) opts) (Some (length pre)) room = Ret b /\
    cmdline b = pre ++ mid /\ boot_options b = new ++ opts /\
    Forall2 (shows (cmdline b)) new (rev (parse_line rest)).
Proof.
  revert rest pre opts room. induction n as [|n IH]; intros rest pre opts room Hrest Hn Hroom; [lia|].
  cbn [bootargs_loop cmdline boot_options].
  destruct (split_cases (ch " ") rest) as [[Hsp _]|(w & rest' & -> & Hsp & _)].
  - rewrite strsep_spec; [|by apply delim_false|done]. cbn [obind Z.eqb].
    rewrite parse_line_last in * by done.
    destruct (init_one_spec pre rest post opts room Hrest Hsp Hroom) as (w' & new & -> & Hl & Hs). cbn [obind].
    destruct n as [|n]; [lia|]. rewrite loop_end.
    exists (mk_boot (pre ++ w' ++ 0 :: post) (new ++ opts)), new, (w' ++ 0 :: post). split_and!; try done. cbn [cmdline].
    replace (rev (word_options rest)) with (word_options rest) by (by destruct rest).
    replace (pre ++ w' ++ 0 :: post) with ((pre ++ w' ++ [0]) ++ post) by (by rewrite <- !app_assoc).
    eapply Forall2_impl; [exact Hs|]. intros bo opt. apply shows_app.
  - unfold no_nul in Hrest. rewrite Forall_app, Forall_cons in Hrest. destruct Hrest as (Hw & _ & Hrest').
    destruct (parse_line_cons (ch " ") w rest') as [Ep|[?|?]]; [|done..]. rewrite Ep in *. rewrite length_app in Hroom.
    rewrite <- app_assoc. cbn [app]. rewrite (strsep_spec pre w (ch " ") (rest' ++ 0 :: post)); [|by apply delim_false|done].
    cbn [obind]. change (ch " " =? 0) with false. cbn iota.
    destruct (init_one_spec pre w (rest' ++ 0 :: post) opts room Hw Hsp ltac:(lia)) as (w' & new & -> & Hl & Hs). cbn [obind].
    set (pre' := pre ++ w' ++ [0]) in *.
    replace (pre ++ w' ++ 0 :: rest' ++ 0 :: post) with (pre' ++ rest' ++ 0 :: post) by (unfold pre'; by rewrite <- !app_assoc).
    replace (length pre + length w + 1)%nat with (length pre') by (unfold pre'; rewrite !length_app; cbn; lia).
    destruct (IH rest' pre' (new ++ opts) (room - length (word_options w))%nat) as (b & new' & mid & -> & Ec & Eo & Hs').
    + done.
    + rewrite length_app in Hn. cbn in Hn. lia.
    + lia.
    + exists b, (new' ++ new), (w' ++ [0] ++ mid). rewrite <- app_assoc. split_and!; [done| |done|].
      * rewrite Ec. unfold pre'. by rewrite <- !app_assoc.
      * rewrite rev_app_distr. apply Forall2_app; [done|].
        replace (rev (word_options w)) with (word_options w) by (by destruct w).
        rewrite Ec. eapply Forall2_impl; [exact Hs|]. intros bo opt. apply shows_app.
Qed.

Lemma bootargs_init_spec b line len room :
  boot_options b = [] -> no_nul line -> (len <= length line)%nat ->
  let text := take (Nat.min len CMDLINE_SIZE) line in
  (length (parse_line text) <= room)%nat ->
  exists b', bootargs_init b line len room = Ret b' /\
    Forall2 (shows (cmdline b')) (boot_options b') (rev (parse_line text)).
Proof.
  intros Hb Hline Hlen text Hroom. unfold bootargs_init, strncpy.
  destruct (Nat.ltb_spec (length line) (Nat.min len CMDLINE_SIZE)); [lia|]. cbn [obind]. rewrite Hb.
  destruct (loop_spec (CMDLINE_SIZE + 3) text [] (drop (S (Nat.min len CMDLINE_SIZE)) (cmdline b)) [] room)
    as (b' & new & mid & E & _ & Eo & Hs).
  - by apply Forall_take.
  - unfold text. rewrite length_take. unfold CMDLINE_SIZE. lia.
  - done.
  - exists b'. rewrite app_nil_r in Eo. subst new. by split; [exact E|].
Qed.

(** Looking an option up in the texts shown. *)
Lemma get_boot_option_spec {V} buf l opts name (parse : option (list Z) -> Z + V) :
  Forall2 (shows buf) l opts ->
  get_boot_option buf l name parse =
  Ret (match list_find (fun o => name = o.1) opts with Some (_, o) => parse o.2 | None => inl (- ENOENT) end).
Proof.
  induction 1 as [|bo opt l opts [Hn Ha] Hs IH]; [done|]. cbn [get_boot_option list_find]. rewrite Hn. cbn [obind].
  destruct (decide (name = opt.1)) as [E|E].
  - rewrite bool_decide_true by done. cbn [negb]. rewrite Ha. done.
  - rewrite bool_decide_false by done. cbn [negb]. rewrite IH. by destruct (list_find _ opts) as [[? ?]|].
Qed.

(** ** Properties *)

(** Parsing a command line returns, whatever the words are, and afterwards a lookup finds
    the last word with the given name - the part of a word before its first ["="] - and parses
    the part after it; later words do not spoil the texts of earlier ones in the buffer. *)
Theorem boot_options_found {V} b line len room (parse : option (list Z) -> Z + V) :
  boot_options b = [] -> no_nul line -> (len <= length line)%nat ->
  let text := take (Nat.min len CMDLINE_SIZE) line in
  (length (parse_line text) <= room)%nat ->
  exists b', bootargs_init b line len room = Ret b' /\
    forall name, __get_boot_option b' name parse =
      Ret (match list_find (fun o => name = o.1) (rev (parse_line text)) with
           | Some (_, o) => parse o.2
           | None => inl (- ENOENT)
           end).
Proof.
  intros Hb Hline Hlen text Hroom. destruct (bootargs_init_spec b line len room Hb Hline Hlen Hroom) as (b' & E & Hs).
  exists b'. split; [done|]. intros name. by apply get_boot_option_spec.
Qed.

(** Settings of names to numbers, as a command line. *)
Fixpoint print_settings (l : list (list Z * Z)) : list Z :=
  match l with
  | [] => []
  | (n, v) :: l => (n ++ ch "=" :: text 16 v) ++ ch " " :: print_settings l
  end.

Definition setting_ok (s : list Z * Z) : Prop :=
  no_nul s.1 /\ ~ ch " " ∈ s.1 /\ ~ ch "=" ∈ s.1 /\ s.1 <> [] /\ 0 <= s.2 < 2 ^ 64.

Lemma text_chars v c : 0 <= v < 2 ^ 64 -> c ∈ text 16 v -> c <> 0 /\ c <> ch " " /\ c <> ch "=".
Proof.
  intros Hv Hc. unfold text in Hc. apply list_elem_of_fmap in Hc as (d & -> & Hd).
  pose proof (digits_range 64 16 v ltac:(lia) ltac:(lia)) as Hr. rewrite Forall_forall in Hr. specialize (Hr d Hd).
  unfold dig. chars. destruct (Z.ltb_spec d 10); lia.
Qed.

Lemma cut_at n a : ~ ch "=" ∈ n -> cut (n ++ ch "=" :: a) = (n, Some a).
Proof.
  induction n as [|c n IH]; intros Hn; [done|]. rewrite elem_of_cons in Hn. cbn [app cut].
  destruct (Z.eqb_spec c (ch "=")) as [->|]; [tauto|]. by rewrite IH by tauto.
Qed.

Lemma parse_settings l :
  Forall setting_ok l -> no_nul (print_settings l) /\
  parse_line (print_settings l) = map (fun s => (s.1, Some (text 16 s.2))) l.
Proof.
  induction 1 as [|[n v] l (Hn & Hsp & Heq & Hne & Hv) _ [IH0 IH]]; [by split; [constructor|]|]. cbn [print_settings fst snd] in *.
  assert (Ht : no_nul (text 16 v)) by (apply Forall_forall; intros c Hc; by apply (text_chars v c)).
  split; [apply Forall_app; split; [apply Forall_app; split; [done|by constructor]|by constructor]|].
  destruct (parse_line_cons (ch " ") (n ++ ch "=" :: text 16 v) (print_settings l)) as [Ep|[?|Hin]]; [|done|].
  - rewrite Ep, IH. destruct n as [|c n]; [done|]. cbn [app word_options map fst snd].
    change (c :: n ++ ch "=" :: text 16 v) with ((c :: n) ++ ch "=" :: text 16 v). by rewrite cut_at.
  - exfalso. apply elem_of_app in Hin as [?|[?|Hin]%elem_of_cons]; [done..|]. by destruct (text_chars v _ Hv Hin) as (_ & ? & _).
Qed.

Lemma find_setting name (l : list (list Z * Z)) :
  Forall setting_ok l ->
  match list_find (fun o => name = o.1) (map (fun s => (s.1, Some (text 16 s.2))) l) with
  | Some (_, o) => __parse_hex64 o.2
  | None => inl (- ENOENT)
  end = match list_find (fun s => name = s.1) l with Some (_, s) => inr s.2 | None => inl (- ENOENT) end.
Proof.
  induction 1 as [|[n v] l (_ & _ & _ & _ & Hv) _ IH]; [done|]. cbn [map list_find fst snd] in *.
  destruct (decide (name = n)).
  - unfold __parse_hex64. cbn [snd]. rewrite <- (app_nil_r (text 16 v)), strtoul_text by (done || lia). done.
  - revert IH. destruct (list_find _ (map _ l)) as [[? ?]|], (list_find (fun s => name = s.1) l) as [[? ?]|]; done.
Qed.

(** Settings printed as [name=value] words in hexadecimal are read back from the command
    line: a lookup of a name gives the value set last, and [-ENOENT] for a name that was not set. *)
Theorem hex_option_roundtrip b l room name :
  boot_options b = [] -> Forall setting_ok l -> (length (print_settings l) <= CMDLINE_SIZE)%nat -> (length l <= room)%nat ->
  exists b', bootargs_init b (print_settings l) (length (print_settings l)) room = Ret b' /\
    bootarg_parse_hex64 b' name =
      Ret (match list_find (fun s => name = s.1) (rev l) with Some (_, s) => inr s.2 | None => inl (- ENOENT) end).
Proof.
  intros Hb Hl Hlen Hroom. destruct (parse_settings l Hl) as [H0 Ep].
  destruct (bootargs_init_spec b (print_settings l) (length (print_settings l)) room Hb H0 ltac:(done)) as (b' & E & Hs).
  { rewrite Nat.min_l, firstn_all, Ep, length_map by done. done. }
  exists b'. split; [done|]. unfold bootarg_parse_hex64, __get_boot_option. rewrite (get_boot_option_spec _ _ _ _ _ Hs).
  rewrite Nat.min_l, firstn_all, Ep, <- map_rev by done. by rewrite find_setting by (by apply Forall_rev).
Qed.

Definition empty_boot : boot := mk_boot (replicate 512 0) [].

Lemma boot_options_found_witness :
  exists b', bootargs_init empty_boot (str "tty=uart0 debug tty=vcon") 24 8 = Ret b' /\
    forall name, __get_boot_option b' name __parse_string =
      Ret (match list_find (fun o => name = o.1) (rev (parse_line (str "tty=uart0 debug tty=vcon"))) with
           | Some (_, o) => __parse_string o.2 | None => inl (- ENOENT) end).
Proof.
  apply (boot_options_found empty_boot (str "tty=uart0 debug tty=vcon") 24 8 __parse_string); [done| |vm_compute; lia|vm_compute; lia].
  unfold no_nul. apply Forall_forall. intros c Hc. repeat (apply elem_of_cons in Hc as [->|Hc]; [by vm_compute|]).
  by apply not_elem_of_nil in Hc.
Defined.

Lemma hex_option_roundtrip_witness :
  exists b', bootargs_init empty_boot (print_settings [(str "base", 0x40000000); (str "size", 0x200000)])
      (length (print_settings [(str "base", 0x40000000); (str "size", 0x200000)])) 4 = Ret b' /\
    bootarg_parse_hex64 b' (str "base") = Ret (inr 0x40000000).
Proof.
  apply (hex_option_roundtrip empty_boot [(str "base", 0x40000000); (str "size", 0x200000)] 4 (str "base"));
    [done| |vm_compute; lia|vm_compute; lia].
  assert (Hn : forall w, w = str "base" \/ w = str "size" -> no_nul w /\ ~ ch " " ∈ w /\ ~ ch "=" ∈ w /\ w <> []).
  { intros w Hw. split_and!.
    - apply Forall_forall. intros c Hc. destruct Hw as [-> | ->];
        repeat (apply elem_of_cons in Hc as [->|Hc]; [by vm_compute|]); by apply not_elem_of_nil in Hc.
    - intros Hc. destruct Hw as [-> | ->]; repeat (apply elem_of_cons in Hc as [Hc|Hc]; [by vm_compute in Hc|]);
        by apply not_elem_of_nil in Hc.
    - intros Hc. destruct Hw as [-> | ->]; repeat (apply elem_of_cons in Hc as [Hc|Hc]; [by vm_compute in Hc|]);
        by apply not_elem_of_nil in Hc.
    - by destruct Hw as [-> | ->]. }
  apply Forall_cons; split; [|apply Forall_singleton]; unfold setting_ok; cbn [fst snd].
  - destruct (Hn (str "base")) as (? & ? & ? & ?); [by left|]. by split_and!.
  - destruct (Hn (str "size")) as (? & ? & ? & ?); [by right|]. by split_and!.
Defined.
