(* ===== verification/Bits.v ===== *)
(** * Bit searching and counting in one machine word

    [arch/aarch64/include/asm/bitops.h] ([__ffs], [__fls], [fls], [fls64]),
    [include/minos/bitops.h] ([get_count_order], the rotations, sign extension),
    [core/hweight.c] (population counts) and the lookup table [ffs_one_table] of
    [core/bitmap.c] that the scheduler uses to pick a priority.

    Each branch-free or table-driven routine is proved equal to the plain
    definition it implements: the least set bit, [Z.log2], the number of ones. *)

From S2P Require Import Prelude.

(** ** The operations *)

(** One "if the low half is empty, skip it" step of [__ffs]. *)
Definition ffs_step (mask sh : Z) (st : Z * Z) : Z * Z :=
  let '(num, word) := st in
  if Z.land word mask =? 0 then (num + sh, Z.shiftr word sh) else (num, word).

Definition __ffs (word : Z) : Z :=
  let st := ffs_step 0xffffffff 32 (0, word) in
  let st := ffs_step 0xffff 16 st in
  let st := ffs_step 0xff 8 st in
  let st := ffs_step 0xf 4 st in
  let '(num, word) := ffs_step 0x3 2 st in
  if Z.land word 0x1 =? 0 then num + 1 else num.

Definition ffz (x : Z) : Z := __ffs (not64 x).

(** One "if the top [sh] bits are empty, shift them out" step of [__fls] and
    [fls]; [w] is the width of the word. *)
Definition fls_step (w mask sh : Z) (st : Z * Z) : Z * Z :=
  let '(num, word) := st in
  if Z.land word mask =? 0 then (num - sh, wrap w (Z.shiftl word sh)) else (num, word).

Definition __fls (word : Z) : Z :=
  let st := fls_step 64 (shl64 ULONG_MAX 32) 32 (63, word) in
  let st := fls_step 64 (shl64 ULONG_MAX 48) 16 st in
  let st := fls_step 64 (shl64 ULONG_MAX 56) 8 st in
  let st := fls_step 64 (shl64 ULONG_MAX 60) 4 st in
  let '(num, word) := fls_step 64 (shl64 ULONG_MAX 62) 2 st in
  if Z.land word (shl64 ULONG_MAX 63) =? 0 then num - 1 else num.

Definition fls (x : Z) : Z :=
  if x =? 0 then 0 else
  let st := fls_step 32 0xffff0000 16 (32, x) in
  let st := fls_step 32 0xff000000 8 st in
  let st := fls_step 32 0xf0000000 4 st in
  let st := fls_step 32 0xc0000000 2 st in
  let '(r, _) := fls_step 32 0x80000000 1 st in
  r.

Definition fls64 (x : Z) : Z := if x =? 0 then 0 else __fls x + 1.

Definition get_count_order (count : Z) : Z :=
  let order := fls count - 1 in
  if negb (Z.land count (u32 (count - 1)) =? 0) then order + 1 else order.

Definition rol64 (word shift : Z) : Z :=
  Z.lor (u64 (Z.shiftl word shift)) (Z.shiftr word (64 - shift)).
Definition ror64 (word shift : Z) : Z :=
  Z.lor (Z.shiftr word shift) (u64 (Z.shiftl word (64 - shift))).
Definition rol32 (word shift : Z) : Z :=
  Z.lor (u32 (Z.shiftl word shift)) (Z.shiftr word (Z.land (u32 (- shift)) 31)).
Definition ror32 (word shift : Z) : Z :=
  Z.lor (Z.shiftr word shift) (u32 (Z.shiftl word (32 - shift))).

(** Population counts, the branch without [CONFIG_ARCH_HAS_FAST_MULTIPLIER]. *)
Definition sw_hweight32 (w : Z) : Z :=
  let res := u32 (w - Z.land (Z.shiftr w 1) 0x55555555) in
  let res := u32 (Z.land res 0x33333333 + Z.land (Z.shiftr res 2) 0x33333333) in
  let res := Z.land (u32 (res + Z.shiftr res 4)) 0x0F0F0F0F in
  let res := u32 (res + Z.shiftr res 8) in
  Z.land (u32 (res + Z.shiftr res 16)) 0x000000FF.

Definition sw_hweight16 (w : Z) : Z :=
  let res := u32 (w - Z.land (Z.shiftr w 1) 0x5555) in
  let res := u32 (Z.land res 0x3333 + Z.land (Z.shiftr res 2) 0x3333) in
  let res := Z.land (u32 (res + Z.shiftr res 4)) 0x0F0F in
  Z.land (u32 (res + Z.shiftr res 8)) 0x00FF.

Definition sw_hweight8 (w : Z) : Z :=
  let res := u32 (w - Z.land (Z.shiftr w 1) 0x55) in
  let res := u32 (Z.land res 0x33 + Z.land (Z.shiftr res 2) 0x33) in
  Z.land (u32 (res + Z.shiftr res 4)) 0x0F.

Definition sw_hweight64 (w : Z) : Z :=
  let res := u64 (w - Z.land (Z.shiftr w 1) 0x5555555555555555) in
  let res := u64 (Z.land res 0x3333333333333333 +
                  Z.land (Z.shiftr res 2) 0x3333333333333333) in
  let res := Z.land (u64 (res + Z.shiftr res 4)) 0x0F0F0F0F0F0F0F0F in
  let res := u64 (res + Z.shiftr res 8) in
  let res := u64 (res + Z.shiftr res 16) in
  Z.land (u64 (res + Z.shiftr res 32)) 0x00000000000000FF.

(** [sizeof(unsigned long)] is 8 on this architecture. *)
Definition hweight_long (w : Z) : Z := sw_hweight64 w.

Definition ffs_one_table : list Z := [
  -1; 0; 1; 0; 2; 0; 1; 0; 3; 0; 1; 0; 2; 0; 1; 0;
  4; 0; 1; 0; 2; 0; 1; 0; 3; 0; 1; 0; 2; 0; 1; 0;
  5; 0; 1; 0; 2; 0; 1; 0; 3; 0; 1; 0; 2; 0; 1; 0;
  4; 0; 1; 0; 2; 0; 1; 0; 3; 0; 1; 0; 2; 0; 1; 0;
  6; 0; 1; 0; 2; 0; 1; 0; 3; 0; 1; 0; 2; 0; 1; 0;
  4; 0; 1; 0; 2; 0; 1; 0; 3; 0; 1; 0; 2; 0; 1; 0;
  5; 0; 1; 0; 2; 0; 1; 0; 3; 0; 1; 0; 2; 0; 1; 0;
  4; 0; 1; 0; 2; 0; 1; 0; 3; 0; 1; 0; 2; 0; 1; 0;
  7; 0; 1; 0; 2; 0; 1; 0; 3; 0; 1; 0; 2; 0; 1; 0;
  4; 0; 1; 0; 2; 0; 1; 0; 3; 0; 1; 0; 2; 0; 1; 0;
  5; 0; 1; 0; 2; 0; 1; 0; 3; 0; 1; 0; 2; 0; 1; 0;
  4; 0; 1; 0; 2; 0; 1; 0; 3; 0; 1; 0; 2; 0; 1; 0;
  6; 0; 1; 0; 2; 0; 1; 0; 3; 0; 1; 0; 2; 0; 1; 0;
  4; 0; 1; 0; 2; 0; 1; 0; 3; 0; 1; 0; 2; 0; 1; 0;
  5; 0; 1; 0; 2; 0; 1; 0; 3; 0; 1; 0; 2; 0; 1; 0;
  4; 0; 1; 0; 2; 0; 1; 0; 3; 0; 1; 0; 2; 0; 1; 0 ].

(** ** What they compute *)

(** [k] is the least set bit of [w]. *)
Definition is_ffs (w k : Z) : Prop :=
  0 <= k /\ Z.testbit w k = true /\ forall i, 0 <= i < k -> Z.testbit w i = false.

(** Number of ones among the low [n] bits. *)
Fixpoint popcount (n : nat) (w : Z) : Z :=
  match n with
  | O => 0
  | S n => Z.b2z (Z.testbit w 0) + popcount n (Z.shiftr w 1)
  end.

(** ** Least and greatest set bit *)

Lemma is_ffs_exists w : 0 < w -> exists k, is_ffs w k.
Proof.
  destruct w as [|p|p]; try lia. intros _.
  induction p as [p IH|p [k (Hk & Hb & Hl)]|].
  - exists 0. repeat split; [lia|intros; lia].
  - exists (k + 1). split; [lia|]. split.
    + rewrite Pos2Z.inj_xO, Z.add_1_r. by rewrite Z.testbit_even_succ by lia.
    + intros i Hi. rewrite Pos2Z.inj_xO.
      destruct (decide (i = 0)) as [->|]; [apply Z.testbit_even_0|].
      replace i with (Z.succ (i - 1)) by lia.
      rewrite Z.testbit_even_succ by lia. apply Hl; lia.
  - exists 0. repeat split; [lia|intros; lia].
Qed.

Lemma is_ffs_unique w k k' : is_ffs w k -> is_ffs w k' -> k = k'.
Proof.
  intros (? & Hb & Hl) (? & Hb' & Hl').
  destruct (Z.lt_trichotomy k k') as [|[|]]; [|done|].
  - specialize (Hl' k ltac:(lia)). congruence.
  - specialize (Hl k' ltac:(lia)). congruence.
Qed.

Lemma is_ffs_lt w n k : 0 <= n -> 0 <= w < 2 ^ n -> is_ffs w k -> k < n.
Proof.
  intros Hn Hw (? & Hb & _). destruct (decide (k < n)); [done|].
  by rewrite (testbit_above n) in Hb by lia.
Qed.

(** The low [sh] bits are empty exactly when the least set bit is above them. *)
Lemma land_ones_ffs w sh k :
  0 <= sh -> is_ffs w k -> (Z.land w (Z.ones sh) =? 0) = (sh <=? k).
Proof.
  intros Hsh (Hk & Hb & Hl). destruct (Z.leb_spec sh k) as [Hle|Hlt].
  - apply Z.eqb_eq, Z.bits_inj'. intros i Hi.
    rewrite Z.land_spec, Z.testbit_0_l. destruct (decide (i < sh)).
    + rewrite Hl by lia. done.
    + by rewrite Z.ones_spec_high, andb_false_r by lia.
  - apply Z.eqb_neq. intros E. apply (f_equal (fun x => Z.testbit x k)) in E.
    rewrite Z.land_spec, Hb, Z.ones_spec_low, Z.testbit_0_l in E by lia. done.
Qed.

Lemma ffs_step_spec sh num word k :
  0 < sh -> is_ffs word k -> k < 2 * sh ->
  exists k' word', ffs_step (Z.ones sh) sh (num, word) = (num + k - k', word')
    /\ is_ffs word' k' /\ k' < sh.
Proof.
  intros Hsh Hk Hlt. unfold ffs_step. rewrite (land_ones_ffs _ _ k) by (done || lia).
  destruct (Z.leb_spec sh k).
  - exists (k - sh), (Z.shiftr word sh). destruct Hk as (? & Hb & Hl).
    split; [f_equal; lia|]. split; [|lia]. split; [lia|]. split.
    + rewrite Z.shiftr_spec by lia. by replace (k - sh + sh) with k by lia.
    + intros i Hi. rewrite Z.shiftr_spec by lia. apply Hl; lia.
  - exists k, word. split; [f_equal; lia|]. done.
Qed.

Lemma ffs_correct w : 0 < w < 2 ^ 64 -> is_ffs w (__ffs w).
Proof.
  intros Hw. destruct (is_ffs_exists w ltac:(lia)) as [k Hk].
  assert (Hlt : k < 64) by (eapply is_ffs_lt; [| |done]; lia).
  assert (Hk' := Hk). unfold __ffs.
  do 5 match goal with
  | Hk : is_ffs ?x ?k |- context [ffs_step ?m ?sh (?num, ?x)] =>
      change m with (Z.ones sh);
      destruct (ffs_step_spec sh num x k ltac:(lia) Hk ltac:(lia)) as (? & ? & -> & ? & ?);
      clear Hk
  end.
  match goal with
  | H : is_ffs ?x ?k' |- context [Z.land ?x 1] =>
      change (Z.land x 1) with (Z.land x (Z.ones 1));
      rewrite (land_ones_ffs x 1 k') by (done || lia); destruct H as (? & _)
  end.
  match goal with |- is_ffs w ?x => replace x with k; [done|] end.
  case_bools.
Qed.

Lemma ffs_range w : 0 < w < 2 ^ 64 -> 0 <= __ffs w < 64.
Proof.
  intros Hw. pose proof (ffs_correct w Hw) as H. split; [apply H|].
  eapply is_ffs_lt; [| |done]; lia.
Qed.

(** The top [sh] of [w] bits are empty exactly when the word is small. *)
Lemma land_top_small w sh x :
  0 <= sh <= w -> 0 <= x < 2 ^ w ->
  (Z.land x (wrap w (Z.shiftl ULONG_MAX (w - sh))) =? 0) = (x <? 2 ^ (w - sh)) \/ 64 < w.
Proof.
  intros Hsh Hx. destruct (decide (64 < w)); [by right|left].
  destruct (Z.ltb_spec x (2 ^ (w - sh))) as [Hlt|Hge].
  - apply Z.eqb_eq, Z.bits_inj'. intros i Hi. autorewrite with bits.
    rewrite Z.shiftl_spec by done. autorewrite with bits.
    destruct (decide (w - sh <= i)).
    + by rewrite (testbit_above (w - sh)) by lia.
    + case_bools; rewrite ?andb_false_r; done.
  - apply Z.eqb_neq. intros E.
    assert (0 < 2 ^ (w - sh)) by lia.
    assert (w - sh <= Z.log2 x) by (apply Z.log2_le_pow2; lia).
    assert (Z.log2 x < w) by (apply Z.log2_lt_pow2; lia).
    apply (f_equal (fun y => Z.testbit y (Z.log2 x))) in E.
    autorewrite with bits in E. rewrite Z.shiftl_spec, Z.bit_log2 in E by lia.
    autorewrite with bits in E. revert E. case_bools.
Qed.

(** A step of [__fls] keeps [num + Z.log2 word] and leaves the leading one among
    the top [sh] bits. *)
Lemma fls_step_spec w mask sh num word :
  w <= 64 -> 0 < sh -> 2 * sh <= w -> 0 < word < 2 ^ w -> w - 2 * sh <= Z.log2 word ->
  mask = wrap w (Z.shiftl ULONG_MAX (w - sh)) ->
  exists word', fls_step w mask sh (num, word) = (num + Z.log2 word - Z.log2 word', word')
    /\ 0 < word' < 2 ^ w /\ w - sh <= Z.log2 word'.
Proof.
  intros Hw Hsh Hle Hx Hlog ->. unfold fls_step.
  destruct (land_top_small w sh word) as [->|]; [lia..| |lia].
  destruct (Z.ltb_spec word (2 ^ (w - sh))) as [Hlt|Hge].
  - assert (Hb : 0 < word * 2 ^ sh < 2 ^ w).
    { replace (2 ^ w) with (2 ^ (w - sh) * 2 ^ sh) by (rewrite <- Z.pow_add_r by lia; f_equal; lia).
      nia. }
    exists (word * 2 ^ sh). rewrite Z.shiftl_mul_pow2, wrap_small by lia.
    rewrite Z.log2_mul_pow2 by lia. split; [f_equal; lia|lia].
  - exists word. split; [f_equal; lia|]. split; [lia|]. apply Z.log2_le_pow2; lia.
Qed.

Ltac run_fls_steps w :=
  repeat match goal with
  | |- context [fls_step w ?m ?sh (?num, ?x)] =>
      let y := fresh "y" in
      destruct (fls_step_spec w m sh num x) as (y & -> & ? & ?); [lia..|reflexivity|]
  end.

Lemma __fls_log2 w : 0 < w < 2 ^ 64 -> __fls w = Z.log2 w.
Proof.
  intros Hw. unfold __fls.
  assert (0 <= Z.log2 w) by apply Z.log2_nonneg. run_fls_steps 64.
  destruct (land_top_small 64 1 y3) as [E|]; [lia..| |lia].
  change (shl64 ULONG_MAX 63) with (u64 (Z.shiftl ULONG_MAX (64 - 1))). rewrite E.
  assert (Z.log2 y3 < 64) by (apply Z.log2_lt_pow2; lia).
  destruct (Z.ltb_spec y3 (2 ^ (64 - 1))).
  - assert (Z.log2 y3 < 63) by (apply Z.log2_lt_pow2; lia). lia.
  - assert (63 <= Z.log2 y3) by (apply Z.log2_le_pow2; lia). lia.
Qed.

Lemma fls_log2 x : 0 < x < 2 ^ 32 -> fls x = Z.log2 x + 1.
Proof.
  intros Hx. unfold fls. destruct (Z.eqb_spec x 0); [lia|].
  assert (0 <= Z.log2 x) by apply Z.log2_nonneg. run_fls_steps 32.
  repeat match goal with H : 0 < ?y < 2 ^ 32 |- _ =>
    assert (Z.log2 y < 32) by (apply Z.log2_lt_pow2; lia); clear H end.
  lia.
Qed.

Lemma fls64_log2 x : 0 < x < 2 ^ 64 -> fls64 x = Z.log2 x + 1.
Proof. intros Hx. unfold fls64. rewrite __fls_log2 by done. case_bools. Qed.

(** A power of two is the only positive number whose predecessor shares no bit. *)
Lemma land_pred_pow2 x :
  0 < x -> (Z.land x (x - 1) =? 0) = (x =? 2 ^ Z.log2 x).
Proof.
  intros Hx. pose proof (Z.log2_spec x Hx) as [Hlo Hhi].
  destruct (Z.eqb_spec x (2 ^ Z.log2 x)) as [E|E].
  - apply Z.eqb_eq. pose proof (Z.log2_nonneg x) as Hk.
    replace (x - 1) with (Z.ones (Z.log2 x)) by (rewrite Z.ones_equiv; lia).
    rewrite Z.land_ones by done. rewrite <- E. apply Z.mod_same. lia.
  - apply Z.eqb_neq. intros H0. apply (f_equal (fun y => Z.testbit y (Z.log2 x))) in H0.
    rewrite Z.land_spec, Z.bit_log2, Z.testbit_0_l in H0 by done.
    replace (Z.log2 x) with (Z.log2 (x - 1)) in H0.
    + rewrite Z.bit_log2 in H0; [done|].
      destruct (decide (x = 1)) as [->|]; [by cbn in E|lia].
    + apply Z.log2_unique; [apply Z.log2_nonneg|lia].
Qed.

Lemma get_count_order_log2_up n :
  0 < n < 2 ^ 31 -> get_count_order n = Z.log2_up n.
Proof.
  intros Hn. unfold get_count_order. rewrite fls_log2, wrap_small by lia.
  rewrite land_pred_pow2 by lia.
  pose proof (Z.log2_spec n ltac:(lia)) as [Hlo Hhi].
  destruct (Z.eqb_spec n (2 ^ Z.log2 n)) as [E|E]; cbn [negb].
  - rewrite E at 2. rewrite Z.log2_up_pow2 by apply Z.log2_nonneg. lia.
  - symmetry. apply Z.log2_up_unique; [pose proof (Z.log2_nonneg n); lia|].
    replace (Z.pred (Z.log2 n + 1 - 1 + 1)) with (Z.log2 n) by lia.
    replace (Z.log2 n + 1 - 1 + 1) with (Z.succ (Z.log2 n)) by lia. lia.
Qed.

(** ** Population counts

    A word is the list of its bytes, least significant first; each stage of the
    parallel sum acts on every byte alone. *)

Fixpoint of_bytes (l : list Z) : Z :=
  match l with
  | [] => 0
  | b :: l => b + 256 * of_bytes l
  end.

Definition is_byte (b : Z) : Prop := 0 <= b < 256.

Lemma of_bytes_range l : Forall is_byte l -> 0 <= of_bytes l < 256 ^ Z.of_nat (length l).
Proof.
  unfold is_byte. induction 1 as [|b l Hb _ IH]; cbn [of_bytes length]; [lia|].
  rewrite Nat2Z.inj_succ, Z.pow_succ_r by lia. lia.
Qed.

Lemma word_bytes n w :
  0 <= w < 256 ^ Z.of_nat n ->
  exists l, length l = n /\ Forall is_byte l /\ of_bytes l = w.
Proof.
  unfold is_byte. revert w. induction n as [|n IH]; intros w Hw.
  { exists []. cbn in *. split; [done|]. split; [constructor|lia]. }
  rewrite Nat2Z.inj_succ, Z.pow_succ_r in Hw by lia.
  destruct (IH (w / 256)) as (l & Hlen & Hl & E).
  { split; [apply Z.div_pos; lia|apply Z.div_lt_upper_bound; lia]. }
  exists (w mod 256 :: l). cbn. split; [lia|]. split.
  - constructor; [|done]. apply Z.mod_pos_bound; lia.
  - rewrite E. pose proof (Z.div_mod w 256). lia.
Qed.

Lemma testbit_byte_cons b h i :
  is_byte b -> 0 <= i ->
  Z.testbit (b + 256 * h) i = if i <? 8 then Z.testbit b i else Z.testbit h (i - 8).
Proof.
  unfold is_byte. intros Hb Hi. destruct (Z.ltb_spec i 8).
  - rewrite <- (Z.mod_pow2_bits_low _ 8) by lia. f_equal.
    change (2 ^ 8) with 256. rewrite Z.mul_comm, Z.mod_add, Z.mod_small; lia.
  - assert (E : (b + 256 * h) / 2 ^ 8 = h).
    { change (2 ^ 8) with 256. rewrite Z.mul_comm, Z.div_add, Z.div_small; lia. }
    rewrite <- E at 2. rewrite Z.div_pow2_bits by lia. f_equal; lia.
Qed.

(** Masking a shifted word by a byte mask whose top [k] bits are clear is
    masking each shifted byte. *)
Lemma land_shiftr_byte_cons k b h m m' :
  is_byte b -> 0 <= k <= 8 -> 0 <= m < 2 ^ (8 - k) -> 0 <= h -> 0 <= m' ->
  Z.land (Z.shiftr (b + 256 * h) k) (m + 256 * m') =
  Z.land (Z.shiftr b k) m + 256 * Z.land (Z.shiftr h k) m'.
Proof.
  intros Hb Hk Hm Hh Hm'.
  assert (2 ^ (8 - k) <= 256) by (change 256 with (2 ^ 8); apply Z.pow_le_mono_r; lia).
  assert (Hm8 : is_byte m) by (unfold is_byte; lia).
  assert (is_byte (Z.land (Z.shiftr b k) m)).
  { unfold is_byte. rewrite Z.land_comm. apply (land_word 8); lia. }
  apply Z.bits_inj'. intros i Hi.
  rewrite Z.land_spec, testbit_shiftr by lia. rewrite !testbit_byte_cons by (done || lia).
  rewrite !Z.land_spec, testbit_shiftr by lia.
  destruct (Z.ltb_spec i 8).
  - destruct (Z.ltb_spec (i + k) 8); [done|].
    by rewrite (testbit_above (8 - k) m), !andb_false_r by lia.
  - rewrite testbit_shiftr by lia. destruct (Z.ltb_spec (i + k) 8); [lia|].
    do 2 f_equal; lia.
Qed.

Definition rep (n : nat) (m : Z) : Z := of_bytes (replicate n m).

Lemma land_shiftr_bytes k m l :
  Forall is_byte l -> 0 <= k <= 8 -> 0 <= m < 2 ^ (8 - k) ->
  Z.land (Z.shiftr (of_bytes l) k) (rep (length l) m) =
  of_bytes (map (fun b => Z.land (Z.shiftr b k) m) l).
Proof.
  intros Hl Hk Hm.
  assert (is_byte m).
  { unfold is_byte. assert (2 ^ (8 - k) <= 256); [|lia].
    change 256 with (2 ^ 8). apply Z.pow_le_mono_r; lia. }
  induction Hl as [|b l Hb Hl IH]; cbn [of_bytes length map]; [by rewrite Z.shiftr_0_l|].
  unfold rep in *. cbn [replicate of_bytes].
  rewrite land_shiftr_byte_cons, IH; try done; try lia.
  - by apply of_bytes_range.
  - apply of_bytes_range, Forall_replicate; done.
Qed.

(** A fact about bytes is decided by running it on the 256 of them. *)
Lemma byte_forall (P : Z -> bool) :
  forallb P (seqZ 0 256) = true -> forall b, is_byte b -> P b = true.
Proof.
  unfold is_byte. rewrite forallb_forall. intros H b Hb. apply H.
  apply list_elem_of_In, elem_of_seqZ. lia.
Qed.

Definition weigh1 (b : Z) : Z := b - Z.land (Z.shiftr b 1) 0x55.
Definition weigh2 (b : Z) : Z := Z.land b 0x33 + Z.land (Z.shiftr b 2) 0x33.
Definition weigh3 (b : Z) : Z := Z.land (b + Z.shiftr b 4) 0x0F.

Lemma weigh_bytes b :
  is_byte b -> is_byte (weigh1 b) /\ is_byte (weigh2 (weigh1 b)) /\
  weigh2 (weigh1 b) mod 16 <= 4 /\ weigh2 (weigh1 b) / 16 <= 4 /\
  weigh3 (weigh2 (weigh1 b)) = popcount 8 b /\ 0 <= popcount 8 b <= 8.
Proof.
  intros Hb.
  pose proof (byte_forall (fun b =>
    let b1 := weigh1 b in let b2 := weigh2 b1 in
    ((0 <=? b1) && (b1 <? 256) && (0 <=? b2) && (b2 <? 256) && (b2 mod 16 <=? 4) && (b2 / 16 <=? 4)
     && (weigh3 b2 =? popcount 8 b) && (0 <=? popcount 8 b) && (popcount 8 b <=? 8)))
    ltac:(vm_compute; reflexivity) b Hb) as H.
  cbv beta zeta in H. unfold is_byte. bool_hyps. repeat split; done.
Qed.

Lemma of_bytes_map_sub (f g : Z -> Z) l :
  of_bytes (map f l) - of_bytes (map g l) = of_bytes (map (fun b => f b - g b) l).
Proof. induction l; cbn; lia. Qed.

Lemma of_bytes_map_add (f g : Z -> Z) l :
  of_bytes (map f l) + of_bytes (map g l) = of_bytes (map (fun b => f b + g b) l).
Proof. induction l; cbn; lia. Qed.

Lemma stage1_bytes l :
  Forall is_byte l ->
  of_bytes l - Z.land (Z.shiftr (of_bytes l) 1) (rep (length l) 0x55) = of_bytes (map weigh1 l).
Proof.
  intros Hl. rewrite land_shiftr_bytes by (done || lia).
  rewrite <- (map_id l) at 1. apply of_bytes_map_sub.
Qed.

Lemma stage2_bytes l :
  Forall is_byte l ->
  Z.land (of_bytes l) (rep (length l) 0x33) +
  Z.land (Z.shiftr (of_bytes l) 2) (rep (length l) 0x33) = of_bytes (map weigh2 l).
Proof.
  intros Hl. rewrite <- (Z.shiftr_0_r (of_bytes l)) at 1.
  rewrite !land_shiftr_bytes by (done || lia). rewrite of_bytes_map_add. f_equal.
Qed.

(** Two digits of at most 4 in a byte: adding the digits cannot carry. *)
Definition small_digits (b : Z) : Prop := is_byte b /\ b mod 16 <= 4 /\ b / 16 <= 4.

Lemma stage3_bytes l :
  Forall small_digits l ->
  Z.land (of_bytes l + Z.shiftr (of_bytes l) 4) (rep (length l) 0x0F) = of_bytes (map weigh3 l).
Proof.
  unfold small_digits. induction 1 as [|b l (Hb & Hlo & Hhi) Hl IH]; [done|].
  assert (Hl' : Forall is_byte l) by (apply (Forall_impl _ _ _ Hl); intros x (? & _); done).
  pose proof (of_bytes_range l Hl') as [Hpos _].
  assert (Hd : of_bytes l mod 16 <= 4).
  { clear IH Hpos Hl'. destruct Hl as [|c l (Hc & ? & ?) ?]; [done|].
    cbn [of_bytes]. replace (256 * of_bytes l) with (16 * of_bytes l * 16) by lia.
    rewrite Z.mod_add by lia. done. }
  cbn [of_bytes length map]. unfold rep in *. cbn [replicate of_bytes].
  rewrite <- IH. clear IH. set (h := of_bytes l) in *.
  assert (E : b + 256 * h + Z.shiftr (b + 256 * h) 4 =
    (b + b / 16 + 16 * (h mod 16)) + 256 * (h + Z.shiftr h 4)).
  { rewrite !Z.shiftr_div_pow2 by lia. change (2 ^ 4) with 16.
    replace (b + 256 * h) with (b + (16 * h) * 16) at 2 by lia.
    rewrite Z.div_add by lia. pose proof (Z.div_mod h 16). lia. }
  unfold is_byte in Hb.
  assert (0 <= h mod 16 < 16) by (apply Z.mod_pos_bound; lia).
  pose proof (Z.div_mod b 16 ltac:(lia)) as Hbd.
  rewrite E. rewrite <- (Z.shiftr_0_r (_ + 256 * (h + _))).
  rewrite land_shiftr_byte_cons; try (unfold is_byte; lia).
  - rewrite !Z.shiftr_0_r. f_equal. unfold weigh3. rewrite Z.shiftr_div_pow2 by lia.
    change 0x0F with (Z.ones 4). rewrite !Z.land_ones by lia. change (2 ^ 4) with 16.
    rewrite (Z.mul_comm 16). apply Z.mod_add. lia.
  - assert (0 <= Z.shiftr h 4) by (apply Z.shiftr_nonneg; lia). lia.
  - apply of_bytes_range, Forall_replicate. unfold is_byte. lia.
Qed.

Lemma popcount_app m n w :
  popcount (m + n) w = popcount m w + popcount n (Z.shiftr w (Z.of_nat m)).
Proof.
  revert w. induction m as [|m IH]; intros w; [by rewrite Z.shiftr_0_r|].
  cbn [Nat.add popcount]. rewrite IH, Z.shiftr_shiftr by lia.
  replace (1 + Z.of_nat m) with (Z.of_nat (S m)) by lia. lia.
Qed.

Lemma popcount_ext n w w' :
  (forall i, 0 <= i < Z.of_nat n -> Z.testbit w i = Z.testbit w' i) ->
  popcount n w = popcount n w'.
Proof.
  revert w w'. induction n as [|n IH]; intros w w' H; [done|].
  cbn [popcount]. rewrite (H 0) by lia. f_equal. apply IH.
  intros i Hi. rewrite !testbit_shiftr by lia. apply H. lia.
Qed.

Lemma popcount_byte_cons n b h :
  is_byte b -> popcount (8 + n) (b + 256 * h) = popcount 8 b + popcount n h.
Proof.
  intros Hb. rewrite popcount_app. f_equal.
  - apply popcount_ext. intros i Hi. rewrite testbit_byte_cons by (done || lia).
    by destruct (Z.ltb_spec i 8); [|lia].
  - f_equal. change (Z.of_nat 8) with 8. rewrite Z.shiftr_div_pow2 by lia.
    change (2 ^ 8) with 256. unfold is_byte in Hb.
    rewrite Z.mul_comm, Z.div_add, Z.div_small; lia.
Qed.

(** The three stages together: every byte holds its own count. *)
Lemma stages_bytes w l :
  0 <= w -> Forall is_byte l -> 8 * Z.of_nat (length l) <= w ->
  let res := wrap w (of_bytes l - Z.land (Z.shiftr (of_bytes l) 1) (rep (length l) 0x55)) in
  let res := wrap w (Z.land res (rep (length l) 0x33) +
                     Z.land (Z.shiftr res 2) (rep (length l) 0x33)) in
  Z.land (wrap w (res + Z.shiftr res 4)) (rep (length l) 0x0F) =
  of_bytes (map (popcount 8) l).
Proof.
  intros Hw Hl Hlen.
  assert (Hfit : forall l', length l' = length l -> Forall is_byte l' ->
    wrap w (of_bytes l') = of_bytes l').
  { intros l' E Hl'. apply wrap_small. pose proof (of_bytes_range l' Hl') as Hr.
    rewrite E in Hr. change 256 with (2 ^ 8) in Hr. rewrite <- Z.pow_mul_r in Hr by lia.
    pose proof (Z.pow_le_mono_r 2 (8 * Z.of_nat (length l)) w). lia. }
  assert (H1 : Forall is_byte (map weigh1 l)).
  { apply Forall_map, (Forall_impl _ _ _ Hl). intros b Hb. by apply weigh_bytes. }
  assert (H2 : Forall small_digits (map weigh2 (map weigh1 l))).
  { rewrite map_map. apply Forall_map, (Forall_impl _ _ _ Hl). intros b Hb.
    destruct (weigh_bytes b Hb) as (_ & ? & ? & ? & _). done. }
  assert (H2' : Forall is_byte (map weigh2 (map weigh1 l))).
  { apply (Forall_impl _ _ _ H2). by intros b (? & _). }
  cbv zeta. rewrite stage1_bytes, Hfit by (done || apply length_map).
  rewrite <- (length_map weigh1 l), stage2_bytes, Hfit by (done || by rewrite !length_map).
  rewrite <- (length_map weigh2 (map weigh1 l)).
  assert (Hc : map weigh3 (map weigh2 (map weigh1 l)) = map (popcount 8) l).
  { rewrite !map_map. apply map_ext_Forall, (Forall_impl _ _ _ Hl). intros b Hb. cbv beta.
    apply weigh_bytes, Hb. }
  rewrite <- Hc, <- stage3_bytes by done.
  rewrite !length_map. apply land_wrap_l; [done|].
  assert (Hr : Forall is_byte (replicate (length l) 0x0F)) by (by apply Forall_replicate).
  rewrite <- (Hfit _ (length_replicate _ _) Hr) at 1 2. by apply wrap_range.
Qed.

Lemma popcount_bytes l :
  Forall is_byte l -> popcount (8 * length l) (of_bytes l) = foldr Z.add 0 (map (popcount 8) l).
Proof.
  induction 1 as [|b l Hb Hl IH]; [done|]. cbn [length of_bytes map foldr].
  replace (8 * S (length l))%nat with (8 + 8 * length l)%nat by lia.
  rewrite popcount_byte_cons by done. by rewrite IH.
Qed.

(** Adding the halves: [shiftr] by a multiple of 8 drops bytes. *)
Lemma shiftr_byte_cons b h k :
  is_byte b -> 8 <= k -> Z.shiftr (b + 256 * h) k = Z.shiftr h (k - 8).
Proof.
  intros Hb Hk. apply Z.bits_inj'. intros i Hi.
  rewrite !testbit_shiftr, testbit_byte_cons by (done || lia).
  destruct (Z.ltb_spec (i + k) 8); [lia|]. f_equal; lia.
Qed.

Fixpoint add_bytes (l1 l2 : list Z) : list Z :=
  match l1, l2 with
  | a :: l1, b :: l2 => (a + b) :: add_bytes l1 l2
  | l1, [] => l1
  | [], l2 => l2
  end.

Definition upto (n b : Z) : Prop := 0 <= b <= n.

Lemma upto_byte n l : n < 256 -> Forall (upto n) l -> Forall is_byte l.
Proof. intros Hn Hl. apply (Forall_impl _ _ _ Hl). unfold upto, is_byte. lia. Qed.

Lemma shiftr_bytes k l :
  Forall is_byte l -> Z.shiftr (of_bytes l) (8 * Z.of_nat k) = of_bytes (drop k l).
Proof.
  intros Hl. revert k. induction Hl as [|b l Hb Hl IH]; intros k.
  - rewrite drop_nil. apply Z.shiftr_0_l.
  - destruct k as [|k]; [apply Z.shiftr_0_r|]. cbn [of_bytes drop].
    rewrite shiftr_byte_cons by (done || lia). rewrite <- IH. f_equal. lia.
Qed.

Lemma add_bytes_spec n l1 l2 :
  0 <= n -> Forall (upto n) l1 -> Forall (upto n) l2 ->
  of_bytes (add_bytes l1 l2) = of_bytes l1 + of_bytes l2 /\
  Forall (upto (2 * n)) (add_bytes l1 l2) /\
  length (add_bytes l1 l2) = Nat.max (length l1) (length l2).
Proof.
  unfold upto. intros Hn H1. revert l2. induction H1 as [|a l1 Ha H1 IH]; intros l2 H2.
  - split; [by destruct l2|]. split; [|by destruct l2].
    replace (add_bytes [] l2) with l2 by (by destruct l2).
    apply (Forall_impl _ _ _ H2). lia.
  - destruct H2 as [|b l2 Hb H2]; cbn [add_bytes of_bytes length].
    + split; [lia|]. split; [|lia]. constructor; [lia|]. apply (Forall_impl _ _ _ H1). lia.
    + destruct (IH l2 H2) as (E & Hf & Hlen). split; [lia|]. split; [|lia].
      constructor; [lia|done].
Qed.

Lemma fold_step w n k s l :
  s = 8 * Z.of_nat k -> 0 <= n -> 2 * n < 256 -> Forall (upto n) l -> 8 * Z.of_nat (length l) <= w ->
  wrap w (of_bytes l + Z.shiftr (of_bytes l) s) =
  of_bytes (add_bytes l (drop k l)) /\ Forall (upto (2 * n)) (add_bytes l (drop k l)).
Proof.
  intros -> Hn Hn' Hl Hw.
  destruct (add_bytes_spec n l (drop k l)) as (E & Hf & Hlen); [done|done|by apply Forall_drop|].
  split; [|done]. rewrite shiftr_bytes by (eapply upto_byte; [|done]; lia).
  rewrite <- E. apply wrap_small.
  pose proof (of_bytes_range _ (upto_byte _ _ Hn' Hf)) as Hr. rewrite Hlen, length_drop in Hr.
  replace (Nat.max _ _) with (length l) in Hr by lia.
  change 256 with (2 ^ 8) in Hr. rewrite <- Z.pow_mul_r in Hr by lia.
  pose proof (Z.pow_le_mono_r 2 (8 * Z.of_nat (length l)) w). lia.
Qed.

Lemma land_ff_byte_cons b h : is_byte b -> Z.land (b + 256 * h) 0xFF = b.
Proof.
  unfold is_byte. intros Hb. change 0xFF with (Z.ones 8). rewrite Z.land_ones by lia.
  change (2 ^ 8) with 256. rewrite Z.mul_comm, Z.mod_add, Z.mod_small; lia.
Qed.

Lemma counts_upto l : Forall is_byte l -> Forall (upto 8) (map (popcount 8) l).
Proof.
  intros Hl. apply Forall_map, (Forall_impl _ _ _ Hl). intros b Hb. by apply weigh_bytes.
Qed.

Lemma hweight64_popcount w : 0 <= w < 2 ^ 64 -> sw_hweight64 w = popcount 64 w.
Proof.
  intros Hw. destruct (word_bytes 8 w) as (l & Hlen & Hl & <-); [done|].
  pose proof (stages_bytes 64 l ltac:(lia) Hl) as Hs. pose proof (popcount_bytes l Hl) as Hp.
  pose proof (counts_upto l Hl) as Hc. rewrite Hlen in Hs, Hp. cbv zeta in Hs.
  unfold sw_hweight64. change (8 * 8)%nat with 64%nat in Hp. rewrite Hp.
  change 0x5555555555555555 with (rep 8 0x55). change 0x3333333333333333 with (rep 8 0x33).
  change 0x0F0F0F0F0F0F0F0F with (rep 8 0x0F). cbv zeta. rewrite Hs by lia. clear Hs Hp.
  do 8 (destruct l as [|? l]; [done|]). destruct l; [|done]. cbn [map] in *.
  destruct (fold_step 64 8 1 8 _ eq_refl ltac:(lia) ltac:(lia) Hc) as [-> Hc1]; [done|].
  destruct (fold_step 64 16 2 16 _ eq_refl ltac:(lia) ltac:(lia) Hc1) as [-> Hc2]; [done|].
  destruct (fold_step 64 32 4 32 _ eq_refl ltac:(lia) ltac:(lia) Hc2) as [-> Hc3]; [done|].
  apply upto_byte in Hc3; [|lia]. cbn [add_bytes drop of_bytes foldr] in *.
  apply Forall_inv in Hc3. rewrite land_ff_byte_cons by done. lia.
Qed.

Lemma hweight32_popcount w : 0 <= w < 2 ^ 32 -> sw_hweight32 w = popcount 32 w.
Proof.
  intros Hw. destruct (word_bytes 4 w) as (l & Hlen & Hl & <-); [done|].
  pose proof (stages_bytes 32 l ltac:(lia) Hl) as Hs. pose proof (popcount_bytes l Hl) as Hp.
  pose proof (counts_upto l Hl) as Hc. rewrite Hlen in Hs, Hp. cbv zeta in Hs.
  unfold sw_hweight32. change (8 * 4)%nat with 32%nat in Hp. rewrite Hp.
  change 0x55555555 with (rep 4 0x55). change 0x33333333 with (rep 4 0x33).
  change 0x0F0F0F0F with (rep 4 0x0F). cbv zeta. rewrite Hs by lia. clear Hs Hp.
  do 4 (destruct l as [|? l]; [done|]). destruct l; [|done]. cbn [map] in *.
  destruct (fold_step 32 8 1 8 _ eq_refl ltac:(lia) ltac:(lia) Hc) as [-> Hc1]; [done|].
  destruct (fold_step 32 16 2 16 _ eq_refl ltac:(lia) ltac:(lia) Hc1) as [-> Hc2]; [done|].
  apply upto_byte in Hc2; [|lia]. cbn [add_bytes drop of_bytes foldr] in *.
  apply Forall_inv in Hc2. rewrite land_ff_byte_cons by done. lia.
Qed.

Lemma hweight16_popcount w : 0 <= w < 2 ^ 16 -> sw_hweight16 w = popcount 16 w.
Proof.
  intros Hw. destruct (word_bytes 2 w) as (l & Hlen & Hl & <-); [done|].
  pose proof (stages_bytes 32 l ltac:(lia) Hl) as Hs. pose proof (popcount_bytes l Hl) as Hp.
  pose proof (counts_upto l Hl) as Hc. rewrite Hlen in Hs, Hp. cbv zeta in Hs.
  unfold sw_hweight16. change (8 * 2)%nat with 16%nat in Hp. rewrite Hp.
  change 0x5555 with (rep 2 0x55). change 0x3333 with (rep 2 0x33).
  change 0x0F0F with (rep 2 0x0F). cbv zeta. rewrite Hs by lia. clear Hs Hp.
  do 2 (destruct l as [|? l]; [done|]). destruct l; [|done]. cbn [map] in *.
  destruct (fold_step 32 8 1 8 _ eq_refl ltac:(lia) ltac:(lia) Hc) as [-> Hc1]; [cbn; lia|].
  apply upto_byte in Hc1; [|lia]. cbn [add_bytes drop of_bytes foldr] in *.
  apply Forall_inv in Hc1. rewrite land_ff_byte_cons by done. lia.
Qed.

Lemma hweight8_popcount w : is_byte w -> sw_hweight8 w = popcount 8 w.
Proof.
  intros Hw. pose proof (byte_forall (fun b => sw_hweight8 b =? popcount 8 b)
    ltac:(vm_compute; reflexivity) w Hw) as H. by apply Z.eqb_eq.
Qed.

(** The table picks the least set bit of a byte. *)
Definition table_entry_ok (b : Z) : bool :=
  (b =? 0) || match ffs_one_table !! Z.to_nat b with Some k => k =? __ffs b | None => false end.

Lemma ffs_one_table_ffs b :
  0 < b < 256 -> ffs_one_table !! Z.to_nat b = Some (__ffs b).
Proof.
  intros Hb. assert (H : table_entry_ok b = true).
  { apply byte_forall; [by vm_compute|unfold is_byte; lia]. }
  unfold table_entry_ok in H. destruct (Z.eqb_spec b 0); [lia|]. cbn [orb] in H.
  destruct (ffs_one_table !! Z.to_nat b); [|done]. bool_hyps. by f_equal.
Qed.

Lemma ffs_one_table_least b k :
  0 < b < 256 -> ffs_one_table !! Z.to_nat b = Some k -> is_ffs b k /\ 0 <= k < 8.
Proof.
  intros Hb. rewrite ffs_one_table_ffs by done. intros [= <-].
  pose proof (ffs_correct b ltac:(lia)) as H. split; [done|]. split; [apply H|].
  eapply is_ffs_lt; [| |done]; lia.
Qed.

(** Rotations by less than the width undo each other. *)
Lemma testbit_rol64 w s i :
  0 <= w < 2 ^ 64 -> 0 <= s < 64 -> 0 <= i < 64 ->
  Z.testbit (rol64 w s) i = Z.testbit w (if s <=? i then i - s else i + 64 - s).
Proof.
  intros Hw Hs Hi. unfold rol64. autorewrite with bits. rewrite Z.shiftl_spec by lia.
  destruct (Z.ltb_spec i 64); [|lia]. cbn [andb]. destruct (Z.leb_spec s i).
  - by rewrite (testbit_above 64 w (i + (64 - s))), orb_false_r by lia.
  - rewrite (Z.testbit_neg_r w (i - s)) by lia. cbn [orb]. f_equal; lia.
Qed.

Lemma testbit_ror64 w s i :
  0 <= w < 2 ^ 64 -> 0 <= s < 64 -> 0 <= i < 64 ->
  Z.testbit (ror64 w s) i = Z.testbit w (if i + s <? 64 then i + s else i + s - 64).
Proof.
  intros Hw Hs Hi. unfold ror64. autorewrite with bits. rewrite Z.shiftl_spec by lia.
  destruct (Z.ltb_spec i 64); [|lia]. cbn [andb]. destruct (Z.ltb_spec (i + s) 64).
  - by rewrite (Z.testbit_neg_r w (i - (64 - s))), orb_false_r by lia.
  - rewrite (testbit_above 64 w (i + s)) by lia. cbn [orb]. f_equal; lia.
Qed.

Lemma rol64_word w s : 0 <= w < 2 ^ 64 -> 0 <= s <= 64 -> 0 <= rol64 w s < 2 ^ 64.
Proof.
  intros Hw Hs. apply lor_word; [lia|by apply wrap_range|].
  apply word_of_bits; [lia| |apply Z.shiftr_nonneg; lia].
  intros i Hi. rewrite testbit_shiftr by lia. apply (testbit_above 64); lia.
Qed.

Lemma ror64_word w s : 0 <= w < 2 ^ 64 -> 0 <= s <= 64 -> 0 <= ror64 w s < 2 ^ 64.
Proof.
  intros Hw Hs. apply lor_word; [lia| |by apply wrap_range].
  apply word_of_bits; [lia| |apply Z.shiftr_nonneg; lia].
  intros i Hi. rewrite testbit_shiftr by lia. apply (testbit_above 64); lia.
Qed.

Lemma ror64_rol64 w s : 0 <= w < 2 ^ 64 -> 0 <= s < 64 -> ror64 (rol64 w s) s = w.
Proof.
  intros Hw Hs. pose proof (rol64_word w s Hw ltac:(lia)).
  apply (word_ext 64); [lia|apply ror64_word; lia|done|].
  intros i Hi. rewrite testbit_ror64 by done. rewrite testbit_rol64 by (done || case_bools).
  f_equal. case_bools.
Qed.

(** ** Properties *)

(** [__ffs] returns, for every non-zero 64-bit word, the index of its least
    set bit, and the index is below 64. *)
Theorem __ffs_least_set_bit w :
  0 < w < 2 ^ 64 -> is_ffs w (__ffs w) /\ 0 <= __ffs w < 64.
Proof. intros Hw. split; [by apply ffs_correct|by apply ffs_range]. Qed.

Lemma __ffs_least_set_bit_witness : is_ffs 0x8000000000000050 4.
Proof. exact (proj1 (__ffs_least_set_bit 0x8000000000000050 ltac:(lia))). Defined.

(** The three "find last set" routines compute the binary logarithm: [__fls]
    of a non-zero word is [Z.log2], [fls64] and the 32-bit [fls] are one more,
    and both of these are 0 on 0. *)
Theorem fls_family_log2 w x :
  0 < w < 2 ^ 64 -> 0 < x < 2 ^ 32 ->
  __fls w = Z.log2 w /\ fls64 w = Z.log2 w + 1 /\ fls x = Z.log2 x + 1 /\
  fls 0 = 0 /\ fls64 0 = 0.
Proof.
  intros Hw Hx. split; [by apply __fls_log2|]. split; [by apply fls64_log2|].
  split; [by apply fls_log2|done].
Qed.

Lemma fls_family_log2_witness : __fls (2 ^ 40 + 5) = 40 /\ fls 1000 = 10.
Proof.
  destruct (fls_family_log2 (2 ^ 40 + 5) 1000 ltac:(lia) ltac:(lia)) as (H1 & _ & H2 & _).
  split; [exact H1|exact H2].
Defined.

(** [get_count_order] returns the least order whose block of [2^order] pages
    holds [count] of them. *)
Theorem get_count_order_least count :
  0 < count < 2 ^ 31 ->
  count <= 2 ^ get_count_order count /\
  forall k, 0 <= k -> count <= 2 ^ k -> get_count_order count <= k.
Proof.
  intros Hc. rewrite get_count_order_log2_up by done. split.
  - destruct (decide (count = 1)) as [->|]; [done|]. apply Z.log2_up_spec. lia.
  - intros k Hk Hle. apply Z.log2_up_le_pow2; lia.
Qed.

Lemma get_count_order_least_witness : 9 <= 2 ^ get_count_order 9.
Proof. exact (proj1 (get_count_order_least 9 ltac:(lia))). Defined.

(** The parallel-sum routines of [hweight.c] return the number of set bits,
    at each of the four widths. *)
Theorem hweight_counts_ones w :
  (0 <= w < 2 ^ 64 -> hweight_long w = popcount 64 w) /\
  (0 <= w < 2 ^ 32 -> sw_hweight32 w = popcount 32 w) /\
  (0 <= w < 2 ^ 16 -> sw_hweight16 w = popcount 16 w) /\
  (0 <= w < 2 ^ 8 -> sw_hweight8 w = popcount 8 w).
Proof.
  split; [apply hweight64_popcount|]. split; [apply hweight32_popcount|].
  split; [apply hweight16_popcount|]. apply hweight8_popcount.
Qed.

Lemma hweight_counts_ones_witness : hweight_long 0xF00000000000000F = 8.
Proof. exact (proj1 (hweight_counts_ones 0xF00000000000000F) ltac:(lia)). Defined.
