(* ===== verification/Bitmap.v ===== *)
(** * Bitmaps

    [core/find_bit.c], [core/bitmap.c], the masks and inline functions of
    [include/minos/bitmap.h] and the single-bit operations of
    [arch/aarch64/lib/bitops.S].  A bitmap is the list of its 64-bit words; an
    access past the last word is [Fault].

    The word-at-a-time searches are proved to return the first (or last) bit with
    the wanted value, and to finish; the range updates to change exactly the bits
    of the range; the area searches to be complete: when they report failure there
    is no free aligned area. *)

From S2P Require Import Prelude Bits.

(** ** Operations *)

Definition BITMAP_FIRST_WORD_MASK (start : Z) : Z :=
  shl64 ULONG_MAX (Z.land start 63).
Definition BITMAP_LAST_WORD_MASK (nbits : Z) : Z :=
  Z.shiftr ULONG_MAX (Z.land (u64 (- nbits)) 63).
Definition round_down (x y : Z) : Z := Z.land x (not64 (y - 1)).
Definition BITS_TO_LONGS (nr : Z) : Z := (nr + 64 - 1) / 64.

(** [addr[i]] *)
Definition word (addr : list Z) (i : Z) : outcome Z :=
  if (0 <=? i) && (i <? Z.of_nat (length addr)) then
    match addr !! Z.to_nat i with Some w => Ret w | None => Fault end
  else Fault.

(** The body of [while (!tmp)] and the final [min]. *)
Fixpoint find_next_loop (fuel : nat) (addr : list Z) (nbits start invert tmp : Z) : outcome Z :=
  if tmp =? 0 then
    match fuel with
    | O => OutOfFuel
    | S fuel =>
        let start := u64 (start + 64) in
        if nbits <=? start then Ret nbits else
        let* w := word addr (start / 64) in
        find_next_loop fuel addr nbits start invert (Z.lxor w invert)
    end
  else Ret (Z.min (u64 (start + __ffs tmp)) nbits).

Definition _find_next_bit (addr : list Z) (nbits start invert : Z) : outcome Z :=
  if (nbits =? 0) || (nbits <=? start) then Ret nbits else
  let* w := word addr (start / 64) in
  let tmp := Z.land (Z.lxor w invert) (BITMAP_FIRST_WORD_MASK start) in
  find_next_loop (length addr) addr nbits (round_down start 64) invert tmp.

Definition find_next_bit (addr : list Z) (size offset : Z) : outcome Z :=
  _find_next_bit addr size offset 0.

Definition find_next_zero_bit (addr : list Z) (size offset : Z) : outcome Z :=
  _find_next_bit addr size offset ULONG_MAX.

(** The [goto loop] runs at most once more: the second round has [offset = 0]. *)
Definition _find_next_bit_loop (addr : list Z) (size offset invert : Z) : outcome Z :=
  let* bit := _find_next_bit addr size offset invert in
  if (size <=? bit) && negb (offset =? 0) then _find_next_bit addr size 0 invert
  else Ret bit.

Definition find_next_bit_loop (addr : list Z) (size offset : Z) : outcome Z :=
  _find_next_bit_loop addr size offset 0.

Definition find_next_zero_bit_loop (addr : list Z) (size offset : Z) : outcome Z :=
  _find_next_bit_loop addr size offset ULONG_MAX.

Fixpoint find_first_bit_from (fuel : nat) (addr : list Z) (size idx : Z) : outcome Z :=
  if u64 (idx * 64) <? size then
    match fuel with
    | O => OutOfFuel
    | S fuel =>
        let* w := word addr idx in
        if negb (w =? 0) then Ret (Z.min (u64 (idx * 64 + __ffs w)) size)
        else find_first_bit_from fuel addr size (idx + 1)
    end
  else Ret size.

Definition find_first_bit (addr : list Z) (size : Z) : outcome Z :=
  find_first_bit_from (length addr) addr size 0.

Fixpoint find_first_zero_bit_from (fuel : nat) (addr : list Z) (size idx : Z) : outcome Z :=
  if u64 (idx * 64) <? size then
    match fuel with
    | O => OutOfFuel
    | S fuel =>
        let* w := word addr idx in
        if negb (w =? ULONG_MAX) then Ret (Z.min (u64 (idx * 64 + ffz w)) size)
        else find_first_zero_bit_from fuel addr size (idx + 1)
    end
  else Ret size.

Definition find_first_zero_bit (addr : list Z) (size : Z) : outcome Z :=
  find_first_zero_bit_from (length addr) addr size 0.

(** [do { ... } while (idx--)]: the recursion is on the index itself. *)
Fixpoint find_last_bit_from (addr : list Z) (size val : Z) (idx : nat) : outcome Z :=
  let* w := word addr (Z.of_nat idx) in
  let val := Z.land val w in
  if negb (val =? 0) then Ret (u64 (Z.of_nat idx * 64 + __fls val)) else
  match idx with
  | O => Ret size
  | S idx => find_last_bit_from addr size ULONG_MAX idx
  end.

Definition find_last_bit (addr : list Z) (size : Z) : outcome Z :=
  if negb (size =? 0) then
    find_last_bit_from addr size (BITMAP_LAST_WORD_MASK size) (Z.to_nat ((size - 1) / 64))
  else Ret size.

(** The [for] loop over the full words, then the partial one. *)
Fixpoint bitmap_weight_words (bitmap : list Z) (k : Z) (n : nat) (w : Z) : outcome (Z * Z) :=
  match n with
  | O => Ret (k, w)
  | S n =>
      let* x := word bitmap k in
      bitmap_weight_words bitmap (k + 1) n (w + hweight_long x)
  end.

Definition __bitmap_weight (bitmap : list Z) (bits : Z) : outcome Z :=
  let lim := bits / 64 in
  let* (k, w) := bitmap_weight_words bitmap 0 (Z.to_nat lim) 0 in
  if negb (bits mod 64 =? 0) then
    let* x := word bitmap k in
    Ret (w + hweight_long (Z.land x (BITMAP_LAST_WORD_MASK bits)))
  else Ret w.

(** The loop [bitmap_set] and [bitmap_clear] share: [op] is [|=] or [&= ~]. *)
Fixpoint range_words (op : Z -> Z -> Z) (fuel : nat) (map : list Z) (p len bits mask : Z)
    : outcome (list Z * Z * Z * Z) :=
  if 0 <=? len - bits then
    match fuel with
    | O => OutOfFuel
    | S fuel =>
        let* w := word map p in
        range_words op fuel (<[Z.to_nat p := op w mask]> map) (p + 1) (len - bits) 64 ULONG_MAX
    end
  else Ret (map, p, len, mask).

Definition range_update (op : Z -> Z -> Z) (map : list Z) (start len : Z) : outcome (list Z) :=
  let p := start / 64 in
  let size := u32 (start + len) in
  let bits := 64 - start mod 64 in
  let mask := BITMAP_FIRST_WORD_MASK start in
  let* (map, p, len, mask) := range_words op (S (length map)) map p len bits mask in
  if negb (len =? 0) then
    let mask := Z.land mask (BITMAP_LAST_WORD_MASK size) in
    let* w := word map p in
    Ret (<[Z.to_nat p := op w mask]> map)
  else Ret map.

Definition bitmap_set (map : list Z) (start len : Z) : outcome (list Z) :=
  range_update (fun w mask => Z.lor w mask) map start len.

Definition bitmap_clear (map : list Z) (start len : Z) : outcome (list Z) :=
  range_update (fun w mask => Z.land w (not64 mask)) map start len.

Definition __ALIGN_MASK (x mask : Z) : Z := Z.land (u64 (x + mask)) (not64 mask).

Fixpoint find_area_off (fuel : nat) (map : list Z) (size start nr align_mask align_offset : Z)
    : outcome Z :=
  match fuel with
  | O => OutOfFuel
  | S fuel =>
      let* index := find_next_zero_bit map size start in
      let index := u64 (__ALIGN_MASK (u64 (index + align_offset)) align_mask - align_offset) in
      let end_ := u64 (index + nr) in
      if size <? end_ then Ret end_ else
      let* i := find_next_bit map end_ index in
      if i <? end_ then find_area_off fuel map size (u64 (i + 1)) nr align_mask align_offset
      else Ret index
  end.

Definition bitmap_find_next_zero_area_off (map : list Z)
    (size start nr align_mask align_offset : Z) : outcome Z :=
  find_area_off (S (S (Z.to_nat size))) map size start nr align_mask align_offset.

Definition bitmap_find_next_zero_area (map : list Z) (size start nr align_mask : Z) : outcome Z :=
  bitmap_find_next_zero_area_off map size start nr align_mask 0.

Fixpoint find_area_align (fuel : nat) (map : list Z) (size start nr align : Z) : outcome Z :=
  match fuel with
  | O => OutOfFuel
  | S fuel =>
      let* index := find_next_zero_bit map size start in
      let end_ := u64 (index + nr) in
      if size <? end_ then Ret end_ else
      if negb (Z.land index (u64 (align - 1)) =? 0) then
        find_area_align fuel map size (u64 (index + 1)) nr align
      else
      let* i := find_next_bit map end_ index in
      if i <? end_ then find_area_align fuel map size (u64 (i + 1)) nr align
      else Ret index
  end.

Definition bitmap_find_next_zero_area_align (map : list Z) (size start nr align : Z) : outcome Z :=
  find_area_align (S (S (Z.to_nat size))) map size start nr align.

(** [memset] over the words that hold [nbits]. *)
Fixpoint set_words (map : list Z) (n : nat) (v : Z) : outcome (list Z) :=
  match n, map with
  | O, _ => Ret map
  | S _, [] => Fault
  | S n, _ :: map => let* map := set_words map n v in Ret (v :: map)
  end.

Definition bitmap_zero (dst : list Z) (nbits : Z) : outcome (list Z) :=
  set_words dst (Z.to_nat (BITS_TO_LONGS nbits)) 0.

Definition bitmap_fill (dst : list Z) (nbits : Z) : outcome (list Z) :=
  let nlongs := BITS_TO_LONGS nbits in
  let* dst := set_words dst (Z.to_nat (nlongs - 1)) ULONG_MAX in
  let* _ := word dst (nlongs - 1) in
  Ret (<[Z.to_nat (nlongs - 1) := BITMAP_LAST_WORD_MASK nbits]> dst).

(** The [bitop] macro works on the 32-bit half of the little-endian word that
    holds the bit; [bit_mask] is that mask seen in the 64-bit word. *)
Definition bit_mask (nr : Z) : Z :=
  Z.shiftl (Z.shiftl 1 (Z.land nr 31)) (32 * ((nr / 32) mod 2)).

Definition bitop (instr : Z -> Z -> Z) (nr : Z) (addr : list Z) : outcome (list Z) :=
  let* w := word addr (nr / 64) in
  Ret (<[Z.to_nat (nr / 64) := instr w (bit_mask nr)]> addr).

Definition testop (instr : Z -> Z -> Z) (nr : Z) (addr : list Z) : outcome (bool * list Z) :=
  let* w := word addr (nr / 64) in
  Ret (negb (Z.land w (bit_mask nr) =? 0), <[Z.to_nat (nr / 64) := instr w (bit_mask nr)]> addr).

Definition set_bit := bitop Z.lor.
Definition clear_bit := bitop Z.ldiff.
Definition change_bit := bitop Z.lxor.
Definition test_and_set_bit := testop Z.lor.
Definition test_and_clear_bit := testop Z.ldiff.
Definition test_and_change_bit := testop Z.lxor.

(** ** What the searches return *)

Definition bit_at (addr : list Z) (i : Z) : bool :=
  match addr !! Z.to_nat (i / 64) with
  | Some w => (0 <=? i) && Z.testbit w (i mod 64)
  | None => false
  end.

(** Words are 64-bit and the bitmap fits the address space. *)
Definition bitmap_ok (addr : list Z) : Prop :=
  Forall (is_word 64) addr /\ 64 * Z.of_nat (length addr) < 2 ^ 64.

(** [r] is the first index of [[s, n)] where [P] holds, or [n]. *)
Definition is_next (P : Z -> bool) (n s r : Z) : Prop :=
  s <= r <= n /\ (forall i, s <= i < r -> P i = false) /\ (r < n -> P r = true).

Lemma bit_at_zeros n i : bit_at (replicate n 0) i = false.
Proof. unfold bit_at. destruct (replicate n 0 !! _) as [w|] eqn:E; [|done]. apply lookup_replicate in E as [-> _]. by rewrite Z.testbit_0_l, andb_false_r. Qed.

Lemma is_next_unique P n s r r' : is_next P n s r -> is_next P n s r' -> r = r'.
Proof.
  intros (H1 & H2 & H3) (H1' & H2' & H3').
  destruct (Z.lt_trichotomy r r') as [|[|]]; [|done|].
  - rewrite H2' in H3 by lia. by discriminate H3; lia.
  - rewrite H2 in H3' by lia. by discriminate H3'; lia.
Qed.

Lemma is_next_ext P Q n s r :
  (forall i, s <= i < n -> P i = Q i) -> is_next P n s r -> is_next Q n s r.
Proof.
  intros E (H1 & H2 & H3). split; [done|]. split.
  - intros i Hi. rewrite <- E by lia. auto.
  - intros Hr. rewrite <- E by lia. auto.
Qed.

Lemma bit_at_word addr q w j :
  addr !! q = Some w -> 0 <= j < 64 -> bit_at addr (64 * Z.of_nat q + j) = Z.testbit w j.
Proof.
  intros Hq Hj. unfold bit_at.
  replace ((64 * Z.of_nat q + j) / 64) with (Z.of_nat q) by (Z.div_mod_to_equations; lia).
  replace ((64 * Z.of_nat q + j) mod 64) with j by (Z.div_mod_to_equations; lia).
  rewrite Nat2Z.id, Hq. by destruct (Z.leb_spec 0 (64 * Z.of_nat q + j)); [|lia].
Qed.

Lemma word_in_range addr i :
  0 <= i < Z.of_nat (length addr) -> exists w, addr !! Z.to_nat i = Some w /\ word addr i = Ret w.
Proof.
  intros Hi. destruct (lookup_lt_is_Some_2 addr (Z.to_nat i)) as [w Hw]; [lia|].
  exists w. split; [done|]. unfold word. rewrite Hw. case_bools. done.
Qed.

Lemma bitmap_ok_word addr q w : bitmap_ok addr -> addr !! q = Some w -> 0 <= w < 2 ^ 64.
Proof. intros [H _] Hw. by apply (Forall_lookup_1 _ _ _ _ H Hw). Qed.

Lemma find_next_loop_spec P fuel addr nbits q invert tmp :
  bitmap_ok addr -> 0 <= invert < 2 ^ 64 -> nbits <= 64 * Z.of_nat (length addr) ->
  (forall p w j, (q < p)%nat -> addr !! p = Some w -> 0 <= j < 64 ->
     Z.testbit (Z.lxor w invert) j = P (64 * Z.of_nat p + j)) ->
  0 <= tmp < 2 ^ 64 -> 64 * Z.of_nat q < nbits ->
  (forall j, 0 <= j < 64 -> Z.testbit tmp j = P (64 * Z.of_nat q + j)) ->
  (length addr <= q + fuel)%nat ->
  exists r, find_next_loop fuel addr nbits (64 * Z.of_nat q) invert tmp = Ret r /\
    is_next P nbits (64 * Z.of_nat q) r.
Proof.
  intros Hok Hinv Hn. revert q tmp. induction fuel as [|fuel IH]; intros q tmp Hw Htmp Hq Hbits Hf;
    [lia|]. cbn [find_next_loop]. destruct (Z.eqb_spec tmp 0) as [->|Hnz].
  - assert (Hz : forall i, 64 * Z.of_nat q <= i < 64 * Z.of_nat q + 64 -> P i = false).
    { intros i Hi. specialize (Hbits (i - 64 * Z.of_nat q) ltac:(lia)).
      rewrite Z.testbit_0_l in Hbits. by replace (_ + _) with i in Hbits by lia. }
    replace (u64 (64 * Z.of_nat q + 64)) with (64 * Z.of_nat (S q))
      by (destruct Hok; rewrite wrap_small; lia).
    destruct (Z.leb_spec nbits (64 * Z.of_nat (S q))).
    + exists nbits. split; [done|]. split; [lia|]. split; [|lia]. intros; apply Hz; lia.
    + rewrite Z.mul_comm, Z.div_mul, Z.mul_comm by done.
      destruct (word_in_range addr (Z.of_nat (S q))) as (w & Hl & ->); [lia|]. cbn [obind].
      rewrite Nat2Z.id in Hl. destruct (IH (S q) (Z.lxor w invert)) as (r & -> & Hr & Hf0 & Ht).
      * intros; apply Hw; [lia|done..].
      * apply lxor_word; [lia|by eapply bitmap_ok_word|done].
      * lia.
      * intros j Hj. apply Hw; [lia|done..].
      * lia.
      * exists r. split; [done|]. split; [lia|]. split; [|done].
        intros i Hi. destruct (decide (i < 64 * Z.of_nat (S q))); [apply Hz|apply Hf0]; lia.
  - destruct (ffs_correct tmp) as (Hk & Hb & Hl); [lia|].
    pose proof (ffs_range tmp ltac:(lia)). set (k := __ffs tmp) in *.
    rewrite wrap_small by (destruct Hok; lia).
    eexists. split; [done|]. split; [lia|]. split.
    + intros i Hi. replace i with (64 * Z.of_nat q + (i - 64 * Z.of_nat q)) by lia.
      rewrite <- Hbits by lia. apply Hl; lia.
    + intros Hr. rewrite Z.min_l by lia. rewrite <- Hbits by lia. done.
Qed.

Lemma testbit_FIRST_WORD_MASK s j :
  0 <= s -> 0 <= j < 64 -> Z.testbit (BITMAP_FIRST_WORD_MASK s) j = (s mod 64 <=? j).
Proof.
  intros Hs Hj. unfold BITMAP_FIRST_WORD_MASK. change 63 with (Z.ones 6).
  rewrite Z.land_ones by lia. change (2 ^ 6) with 64.
  pose proof (Z.mod_pos_bound s 64 ltac:(lia)).
  rewrite testbit_shl64, testbit_ULONG_MAX by lia. case_bools; done.
Qed.

Lemma FIRST_WORD_MASK_word s : 0 <= BITMAP_FIRST_WORD_MASK s < 2 ^ 64.
Proof. by apply wrap_range. Qed.

Lemma round_down_64 s : 0 <= s < 2 ^ 64 -> round_down s 64 = 64 * (s / 64).
Proof.
  intros Hs. apply (land_not64_pow2 s 6); lia.
Qed.

(** What the search is for: set bits, or cleared bits when inverted. *)
Definition invert_mask (inv : bool) : Z := if inv then ULONG_MAX else 0.
Definition wanted (addr : list Z) (inv : bool) (i : Z) : bool := xorb inv (bit_at addr i).

Lemma testbit_invert w inv j :
  0 <= j < 64 -> Z.testbit (Z.lxor w (invert_mask inv)) j = xorb inv (Z.testbit w j).
Proof.
  intros Hj. rewrite Z.lxor_spec. destruct inv; cbn [invert_mask].
  - rewrite testbit_ULONG_MAX. case_bools. by destruct (Z.testbit w j).
  - by rewrite Z.testbit_0_l, xorb_false_r, xorb_false_l.
Qed.

Lemma invert_mask_word inv : 0 <= invert_mask inv < 2 ^ 64.
Proof. by destruct inv. Qed.

Lemma _find_next_bit_spec addr nbits start inv :
  bitmap_ok addr -> 0 <= start < nbits -> nbits <= 64 * Z.of_nat (length addr) ->
  exists r, _find_next_bit addr nbits start (invert_mask inv) = Ret r /\
    is_next (wanted addr inv) nbits start r.
Proof.
  intros Hok Hs Hn. unfold _find_next_bit. case_bools.
  destruct (word_in_range addr (start / 64)) as (w & Hl & ->).
  { Z.div_mod_to_equations; lia. }
  cbn [obind]. set (q := Z.to_nat (start / 64)) in *.
  assert (Hq : 64 * (start / 64) = 64 * Z.of_nat q) by (unfold q; Z.div_mod_to_equations; lia).
  assert (Hm : start = 64 * Z.of_nat q + start mod 64) by (rewrite <- Hq; apply Z.div_mod; lia).
  pose proof (Z.mod_pos_bound start 64 ltac:(lia)).
  rewrite round_down_64, Hq by (destruct Hok; lia).
  destruct (find_next_loop_spec (fun i => wanted addr inv i && (start <=? i)) (length addr) addr
    nbits q (invert_mask inv) (Z.land (Z.lxor w (invert_mask inv)) (BITMAP_FIRST_WORD_MASK start)))
    as (r & Hr & Hle & Hlo & Hhi); try done; try lia.
  - apply invert_mask_word.
  - intros p w' j Hp Hw' Hj. rewrite testbit_invert by done. unfold wanted.
    rewrite (bit_at_word _ _ _ _ Hw' Hj). case_bools. by rewrite andb_true_r.
  - rewrite Z.land_comm. apply land_word; [lia|apply FIRST_WORD_MASK_word].
  - intros j Hj. rewrite Z.land_spec, testbit_invert by done.
    rewrite testbit_FIRST_WORD_MASK by lia. unfold wanted.
    rewrite (bit_at_word _ _ _ _ Hl Hj). f_equal. case_bools; done.
  - exists r. split; [done|].
    assert (start <= r).
    { destruct (decide (start <= r)); [done|]. specialize (Hhi ltac:(lia)). revert Hhi.
      case_bools; by rewrite andb_false_r. }
    split; [lia|]. split.
    + intros i Hi. specialize (Hlo i ltac:(lia)). apply andb_false_iff in Hlo as [|]; [done|]. bool_hyps. lia.
    + intros Hi. specialize (Hhi Hi). by apply andb_true_iff in Hhi as [? _].
Qed.

Lemma find_next_bit_spec addr n s :
  bitmap_ok addr -> 0 <= s < n -> n <= 64 * Z.of_nat (length addr) ->
  exists r, find_next_bit addr n s = Ret r /\ is_next (bit_at addr) n s r.
Proof.
  intros Hok Hs Hn. destruct (_find_next_bit_spec addr n s false Hok Hs Hn) as (r & E & Hr).
  exists r. split; [done|]. eapply is_next_ext; [|done]. intros. apply xorb_false_l.
Qed.

Lemma find_next_zero_bit_spec addr n s :
  bitmap_ok addr -> 0 <= s < n -> n <= 64 * Z.of_nat (length addr) ->
  exists r, find_next_zero_bit addr n s = Ret r /\ is_next (fun i => negb (bit_at addr i)) n s r.
Proof. apply (_find_next_bit_spec addr n s true). Qed.

Lemma _find_next_bit_past addr n s invert : n <= s -> _find_next_bit addr n s invert = Ret n.
Proof. intros. unfold _find_next_bit. case_bools; by rewrite ?orb_true_r. Qed.

(** [r] is the first wanted index at or after [s], else the first one before
    [s], else [n]. *)
Definition is_next_wrap (P : Z -> bool) (n s r : Z) : Prop :=
  (s <= r < n /\ P r = true /\ forall i, s <= i < r -> P i = false) \/
  ((forall i, s <= i < n -> P i = false) /\ is_next P n 0 r).

Lemma _find_next_bit_loop_spec addr n s inv :
  bitmap_ok addr -> 0 < n -> 0 <= s -> n <= 64 * Z.of_nat (length addr) ->
  exists r, _find_next_bit_loop addr n s (invert_mask inv) = Ret r /\
    is_next_wrap (wanted addr inv) n s r.
Proof.
  intros Hok Hn0 Hs Hn. unfold _find_next_bit_loop.
  destruct (_find_next_bit_spec addr n 0 inv) as (r0 & E0 & H0); [done|lia|done|].
  destruct (decide (s < n)) as [Hlt|].
  - destruct (_find_next_bit_spec addr n s inv) as (r & E & Hr); [done|lia|done|].
    rewrite E. cbn [obind]. destruct Hr as (Hle & Hf & Ht).
    destruct (Z.leb_spec n r), (Z.eqb_spec s 0) as [->|]; cbn [andb negb].
    + exists r. split; [done|]. right. split; [intros; apply Hf; lia|done].
    + exists r0. split; [done|]. right. split; [intros; apply Hf; lia|done].
    + exists r. split; [done|]. left. split; [lia|]. split; [apply Ht; lia|done].
    + exists r. split; [done|]. left. split; [lia|]. split; [apply Ht; lia|done].
  - rewrite (_find_next_bit_past addr n s) by lia. cbn [obind]. case_bools.
    exists r0. split; [done|]. right. split; [intros; lia|done].
Qed.

(** The whole-bitmap searches are the searches from index 0. *)
Lemma is_next_word P n q r w :
  0 < w < 2 ^ 64 -> (forall i, 0 <= i < 64 * q -> P i = false) ->
  (forall j, 0 <= j < 64 -> Z.testbit w j = P (64 * q + j)) -> 0 <= 64 * q < n ->
  r = Z.min (64 * q + __ffs w) n -> is_next P n 0 r.
Proof.
  intros Hw Hz Hb Hn ->. destruct (ffs_correct w Hw) as (Hk & Ht & Hf).
  pose proof (ffs_range w Hw). split; [lia|]. split.
  - intros i Hi. destruct (decide (i < 64 * q)); [apply Hz; lia|].
    replace i with (64 * q + (i - 64 * q)) by lia. rewrite <- Hb by lia. apply Hf; lia.
  - intros Hr. rewrite Z.min_l by lia. by rewrite <- Hb by lia.
Qed.

Lemma find_first_bit_from_spec fuel addr n q :
  bitmap_ok addr -> 0 <= n <= 64 * Z.of_nat (length addr) -> (length addr <= q + fuel)%nat ->
  (forall i, 0 <= i < 64 * Z.of_nat q -> bit_at addr i = false) -> (q <= length addr)%nat ->
  exists r, find_first_bit_from fuel addr n (Z.of_nat q) = Ret r /\ is_next (bit_at addr) n 0 r.
Proof.
  intros Hok Hn. pose proof (proj2 Hok). revert q.
  induction fuel as [|fuel IH]; intros q Hf Hz Hq; cbn [find_first_bit_from];
    rewrite wrap_small by lia; destruct (Z.ltb_spec (Z.of_nat q * 64) n); try lia.
  1,3: exists n; split; [done|]; split; [lia|]; split; [intros; apply Hz|]; lia.
  destruct (word_in_range addr (Z.of_nat q)) as (w & Hl & ->); [lia|]. cbn [obind].
  rewrite Nat2Z.id in Hl. pose proof (bitmap_ok_word _ _ _ Hok Hl).
  destruct (Z.eqb_spec w 0) as [->|]; cbn [negb].
  - replace (Z.of_nat q + 1) with (Z.of_nat (S q)) by lia. apply IH; try lia.
    intros i Hi. destruct (decide (i < 64 * Z.of_nat q)); [apply Hz; lia|].
    replace i with (64 * Z.of_nat q + (i - 64 * Z.of_nat q)) by lia.
    rewrite (bit_at_word _ _ _ _ Hl) by lia. apply Z.testbit_0_l.
  - pose proof (ffs_range w ltac:(lia)). eexists. split; [done|].
    apply (is_next_word _ _ (Z.of_nat q) _ w); try lia; [done| |].
    + intros j Hj. by rewrite (bit_at_word _ _ _ _ Hl).
    + rewrite wrap_small by lia. f_equal. lia.
Qed.

Lemma find_first_bit_spec addr n :
  bitmap_ok addr -> 0 <= n <= 64 * Z.of_nat (length addr) ->
  exists r, find_first_bit addr n = Ret r /\ is_next (bit_at addr) n 0 r.
Proof.
  intros. apply (find_first_bit_from_spec (length addr) addr n 0); [done|done|lia| |lia].
  intros; lia.
Qed.

Lemma ffz_word w : 0 <= w < 2 ^ 64 -> w <> ULONG_MAX -> 0 < not64 w < 2 ^ 64.
Proof.
  intros Hw Hne. assert (0 <= not64 w < 2 ^ 64) by (by apply wrap_range).
  destruct (decide (not64 w = 0)) as [E|]; [|lia]. destruct Hne.
  apply (word_ext 64); [lia|done|done|]. intros i Hi.
  apply (f_equal (fun x => Z.testbit x i)) in E. rewrite testbit_not64, Z.testbit_0_l in E by lia.
  rewrite testbit_ULONG_MAX. revert E. case_bools. by destruct (Z.testbit w i).
Qed.

Lemma find_first_zero_bit_from_spec fuel addr n q :
  bitmap_ok addr -> 0 <= n <= 64 * Z.of_nat (length addr) -> (length addr <= q + fuel)%nat ->
  (forall i, 0 <= i < 64 * Z.of_nat q -> bit_at addr i = true) -> (q <= length addr)%nat ->
  exists r, find_first_zero_bit_from fuel addr n (Z.of_nat q) = Ret r /\
    is_next (fun i => negb (bit_at addr i)) n 0 r.
Proof.
  intros Hok Hn. pose proof (proj2 Hok). revert q.
  induction fuel as [|fuel IH]; intros q Hf Hz Hq; cbn [find_first_zero_bit_from];
    rewrite wrap_small by lia; destruct (Z.ltb_spec (Z.of_nat q * 64) n); try lia.
  1,3: exists n; split; [done|]; split; [lia|]; split; [intros; apply negb_false_iff, Hz|]; lia.
  destruct (word_in_range addr (Z.of_nat q)) as (w & Hl & ->); [lia|]. cbn [obind].
  rewrite Nat2Z.id in Hl. pose proof (bitmap_ok_word _ _ _ Hok Hl).
  destruct (Z.eqb_spec w ULONG_MAX) as [->|]; cbn [negb].
  - replace (Z.of_nat q + 1) with (Z.of_nat (S q)) by lia. apply IH; try lia.
    intros i Hi. destruct (decide (i < 64 * Z.of_nat q)); [apply Hz; lia|].
    replace i with (64 * Z.of_nat q + (i - 64 * Z.of_nat q)) by lia.
    rewrite (bit_at_word _ _ _ _ Hl) by lia. rewrite testbit_ULONG_MAX. case_bools; done.
  - pose proof (ffz_word w ltac:(lia) ltac:(done)). unfold ffz.
    pose proof (ffs_range (not64 w) ltac:(lia)). eexists. split; [done|].
    apply (is_next_word _ _ (Z.of_nat q) _ (not64 w)); try lia.
    + intros i Hi. by rewrite Hz.
    + intros j Hj. rewrite (bit_at_word _ _ _ _ Hl), testbit_not64 by lia. case_bools; done.
    + rewrite wrap_small by lia. f_equal. lia.
Qed.

Lemma find_first_zero_bit_spec addr n :
  bitmap_ok addr -> 0 <= n <= 64 * Z.of_nat (length addr) ->
  exists r, find_first_zero_bit addr n = Ret r /\ is_next (fun i => negb (bit_at addr i)) n 0 r.
Proof.
  intros. apply (find_first_zero_bit_from_spec (length addr) addr n 0); [done|done|lia| |lia].
  intros; lia.
Qed.

Lemma testbit_LAST_WORD_MASK n j :
  0 < n < 2 ^ 64 -> 0 <= j < 64 ->
  Z.testbit (BITMAP_LAST_WORD_MASK n) j = (j <=? (n - 1) mod 64).
Proof.
  intros Hn Hj. unfold BITMAP_LAST_WORD_MASK. rewrite land_wrap_l by lia.
  change 63 with (Z.ones 6). rewrite Z.land_ones by lia. change (2 ^ 6) with 64.
  replace ((- n) mod 64) with (63 - (n - 1) mod 64) by (Z.div_mod_to_equations; lia).
  rewrite testbit_shiftr, testbit_ULONG_MAX by lia.
  pose proof (Z.mod_pos_bound (n - 1) 64). case_bools; done.
Qed.

Lemma LAST_WORD_MASK_word n : 0 <= BITMAP_LAST_WORD_MASK n < 2 ^ 64.
Proof.
  unfold BITMAP_LAST_WORD_MASK. set (k := Z.land _ _).
  assert (0 <= k) by (unfold k; apply Z.land_nonneg; lia).
  apply word_of_bits; [lia| |apply Z.shiftr_nonneg; done].
  intros i Hi. rewrite testbit_shiftr, testbit_ULONG_MAX by lia. case_bools; done.
Qed.

(** [r] is the last index of [[0, n)] where [P] holds, or [n]. *)
Definition is_last (P : Z -> bool) (n r : Z) : Prop :=
  (0 <= r < n /\ P r = true /\ forall i, r < i < n -> P i = false) \/
  (r = n /\ forall i, 0 <= i < n -> P i = false).

Section last_word.
Context (addr : list Z) (n val w : Z) (q : nat).
Hypothesis Hl : addr !! q = Some w.
Hypothesis Hval : forall j, 0 <= j < 64 -> Z.testbit val j = (64 * Z.of_nat q + j <? n).
Hypothesis Hz : forall i, 64 * Z.of_nat q + 64 <= i < n -> bit_at addr i = false.

Lemma bit_at_masked j :
  0 <= j < 64 -> 64 * Z.of_nat q + j < n ->
  bit_at addr (64 * Z.of_nat q + j) = Z.testbit (Z.land val w) j.
Proof.
  intros Hj Hn. rewrite (bit_at_word _ _ _ _ Hl Hj), Z.land_spec, Hval by done. case_bools; done.
Qed.

Lemma last_miss i : Z.land val w = 0 -> 64 * Z.of_nat q <= i < n -> bit_at addr i = false.
Proof.
  intros E Hi. destruct (decide (64 * Z.of_nat q + 64 <= i)); [apply Hz; lia|].
  replace i with (64 * Z.of_nat q + (i - 64 * Z.of_nat q)) by lia.
  rewrite bit_at_masked, E by lia. apply Z.testbit_0_l.
Qed.

Lemma last_hit :
  0 < Z.land val w < 2 ^ 64 ->
  is_last (bit_at addr) n (64 * Z.of_nat q + Z.log2 (Z.land val w)) /\
  0 <= Z.log2 (Z.land val w) < 64.
Proof.
  intros Hpos. pose proof (Z.bit_log2 _ (proj1 Hpos)) as Ht. pose proof (Z.log2_nonneg (Z.land val w)).
  assert (Z.log2 (Z.land val w) < 64) by (apply Z.log2_lt_pow2; lia). split; [|lia].
  assert (Hn : 64 * Z.of_nat q + Z.log2 (Z.land val w) < n).
  { rewrite Z.land_spec in Ht. apply andb_true_iff in Ht as [Ht _].
    rewrite Hval in Ht by lia. bool_hyps. lia. }
  left. split; [lia|]. split; [by rewrite bit_at_masked by lia|].
  intros i Hi. destruct (decide (64 * Z.of_nat q + 64 <= i)); [apply Hz; lia|].
  replace i with (64 * Z.of_nat q + (i - 64 * Z.of_nat q)) by lia.
  rewrite bit_at_masked by lia. apply Z.bits_above_log2; lia.
Qed.
End last_word.

Lemma find_last_bit_from_spec addr n val idx :
  bitmap_ok addr -> n <= 64 * Z.of_nat (length addr) -> 0 <= val < 2 ^ 64 ->
  64 * Z.of_nat idx < n ->
  (forall j, 0 <= j < 64 -> Z.testbit val j = (64 * Z.of_nat idx + j <? n)) ->
  (forall i, 64 * Z.of_nat idx + 64 <= i < n -> bit_at addr i = false) ->
  exists r, find_last_bit_from addr n val idx = Ret r /\ is_last (bit_at addr) n r.
Proof.
  intros Hok Hn. pose proof (proj2 Hok). revert val.
  induction idx as [|idx IH]; intros val Hv Hlt Hb Hz; cbn [find_last_bit_from];
    (edestruct word_in_range as (w & Hl & ->); [|cbn [obind]]; [lia|]);
    rewrite Nat2Z.id in Hl; pose proof (land_word 64 val w ltac:(lia) Hv) as Hlw;
    destruct (Z.eqb_spec (Z.land val w) 0) as [E|E]; cbn [negb].
  2,4: destruct (last_hit _ _ _ _ _ Hl Hb Hz) as [Hlast ?]; [lia|];
    rewrite __fls_log2, wrap_small by lia; rewrite (Z.mul_comm _ 64); eauto.
  - exists n. split; [done|]. right. split; [done|]. intros i Hi.
    apply (last_miss _ _ _ _ _ Hl Hb Hz); [done|lia].
  - apply IH; [done|lia| |].
    + intros j Hj. rewrite testbit_ULONG_MAX. case_bools; done.
    + intros i Hi. apply (last_miss _ _ _ _ _ Hl Hb Hz); [done|lia].
Qed.

Lemma find_last_bit_spec addr n :
  bitmap_ok addr -> 0 <= n <= 64 * Z.of_nat (length addr) ->
  exists r, find_last_bit addr n = Ret r /\ is_last (bit_at addr) n r.
Proof.
  intros Hok Hn. unfold find_last_bit. destruct (Z.eqb_spec n 0) as [->|]; cbn [negb].
  { exists 0. split; [done|]. right. split; [done|intros; lia]. }
  pose proof (proj2 Hok).
  assert (Hidx : n - 1 = 64 * Z.of_nat (Z.to_nat ((n - 1) / 64)) + (n - 1) mod 64
    /\ 0 <= (n - 1) mod 64 < 64) by (Z.div_mod_to_equations; lia).
  apply find_last_bit_from_spec; try done; try lia.
  - apply LAST_WORD_MASK_word.
  - intros j Hj. rewrite testbit_LAST_WORD_MASK by lia. case_bools; done.
Qed.

(** ** Weight *)

Fixpoint count_from (addr : list Z) (i : Z) (n : nat) : Z :=
  match n with
  | O => 0
  | S n => Z.b2z (bit_at addr i) + count_from addr (i + 1) n
  end.

Lemma count_from_app addr i m n :
  count_from addr i (m + n) = count_from addr i m + count_from addr (i + Z.of_nat m) n.
Proof.
  revert i. induction m as [|m IH]; intros i; cbn [Nat.add count_from].
  - by rewrite Z.add_0_r.
  - rewrite IH. replace (i + 1 + Z.of_nat m) with (i + Z.of_nat (S m)) by lia. lia.
Qed.

Lemma count_from_word addr q w j n :
  addr !! q = Some w -> 0 <= j -> j + Z.of_nat n <= 64 ->
  count_from addr (64 * Z.of_nat q + j) n = popcount n (Z.shiftr w j).
Proof.
  intros Hl. revert j. induction n as [|n IH]; intros j Hj Hn; [done|].
  cbn [count_from popcount]. rewrite (bit_at_word _ _ _ _ Hl) by lia.
  rewrite testbit_shiftr, Z.shiftr_shiftr by lia. f_equal.
  rewrite <- Z.add_assoc. apply IH; lia.
Qed.

Lemma popcount_0 n : popcount n 0 = 0.
Proof. induction n as [|n IH]; [done|]. cbn [popcount]. by rewrite Z.shiftr_0_l, IH. Qed.

Lemma bitmap_weight_words_spec addr k n w :
  bitmap_ok addr -> (k + n <= length addr)%nat ->
  bitmap_weight_words addr (Z.of_nat k) n w =
  Ret (Z.of_nat (k + n), w + count_from addr (64 * Z.of_nat k) (64 * n)).
Proof.
  intros Hok. revert k w. induction n as [|n IH]; intros k w Hk; cbn [bitmap_weight_words].
  - rewrite Nat.add_0_r. cbn [count_from Nat.mul]. by rewrite Z.add_0_r.
  - edestruct word_in_range as (x & Hl & ->); [|cbn [obind]]; [lia|]. rewrite Nat2Z.id in Hl.
    pose proof (bitmap_ok_word _ _ _ Hok Hl). unfold hweight_long. rewrite hweight64_popcount by done.
    replace (Z.of_nat k + 1) with (Z.of_nat (S k)) by lia. rewrite IH by lia.
    do 2 f_equal; [lia|]. replace (64 * S n)%nat with (64 + 64 * n)%nat by lia.
    rewrite count_from_app, <- (Z.add_0_r (64 * Z.of_nat k)).
    rewrite (count_from_word _ _ _ 0 64 Hl), Z.shiftr_0_r by lia.
    replace (64 * Z.of_nat k + 0 + Z.of_nat 64) with (64 * Z.of_nat (S k)) by lia. lia.
Qed.

Lemma bitmap_weight_spec addr bits :
  bitmap_ok addr -> 0 <= bits <= 64 * Z.of_nat (length addr) ->
  __bitmap_weight addr bits = Ret (count_from addr 0 (Z.to_nat bits)).
Proof.
  intros Hok Hb. unfold __bitmap_weight. pose proof (proj2 Hok).
  assert (Hd : bits = 64 * Z.of_nat (Z.to_nat (bits / 64)) + bits mod 64 /\ 0 <= bits mod 64 < 64)
    by (Z.div_mod_to_equations; lia).
  set (k := Z.to_nat (bits / 64)) in *.
  pose proof (bitmap_weight_words_spec addr 0 k 0 Hok ltac:(lia)) as Hw. change (Z.of_nat 0) with 0 in Hw. rewrite Hw. change (64 * 0) with 0. cbn [Nat.add]. cbn [obind]. rewrite Z.add_0_l.
  destruct (Z.eqb_spec (bits mod 64) 0) as [E|E]; cbn [negb].
  { do 2 f_equal. lia. }
  edestruct word_in_range as (x & Hl & ->); [|cbn [obind]]; [lia|]. rewrite Nat2Z.id in Hl.
  pose proof (bitmap_ok_word _ _ _ Hok Hl). unfold hweight_long.
  rewrite hweight64_popcount by (by apply land_word).
  replace (Z.to_nat bits) with (64 * k + Z.to_nat (bits mod 64))%nat by lia.
  rewrite count_from_app. cbn [Nat.add] in Hl. do 2 f_equal.
  replace (0 + Z.of_nat (64 * k)) with (64 * Z.of_nat k + 0) by lia.
  rewrite (count_from_word _ _ _ 0 _ Hl) by lia. rewrite Z.shiftr_0_r.
  replace 64%nat with (Z.to_nat (bits mod 64) + (64 - Z.to_nat (bits mod 64)))%nat at 1 by lia.
  rewrite popcount_app. assert (Hm : (bits - 1) mod 64 = bits mod 64 - 1) by (Z.div_mod_to_equations; lia).
  rewrite <- (Z.add_0_r (popcount _ x)). f_equal.
  - apply popcount_ext. intros i Hi. rewrite Z.land_spec, testbit_LAST_WORD_MASK by lia.
    rewrite Hm. case_bools. by rewrite andb_true_r.
  - rewrite <- (popcount_0 (64 - Z.to_nat (bits mod 64))). apply popcount_ext. intros i Hi.
    rewrite testbit_shiftr, Z.land_spec, testbit_LAST_WORD_MASK, Hm, Z.testbit_0_l by lia.
    case_bools; by rewrite andb_false_r.
Qed.

(** ** Range updates *)

Lemma bit_at_insert addr q x i :
  (q < length addr)%nat -> 0 <= i ->
  bit_at (<[q := x]> addr) i =
  if i / 64 =? Z.of_nat q then Z.testbit x (i mod 64) else bit_at addr i.
Proof.
  intros Hq Hi. unfold bit_at. destruct (Z.eqb_spec (i / 64) (Z.of_nat q)) as [->|Hne].
  - rewrite Nat2Z.id, list_lookup_insert_eq by done. case_bools; done.
  - rewrite list_lookup_insert_ne; [done|]. intros ->. apply Hne.
    rewrite Z2Nat.id; [done|]. apply Z.div_pos; lia.
Qed.

Lemma bitmap_ok_insert addr q x : bitmap_ok addr -> 0 <= x < 2 ^ 64 -> bitmap_ok (<[q := x]> addr).
Proof.
  intros [H1 H2] Hx. split; [|by rewrite length_insert]. by apply Forall_insert.
Qed.

(** [m'] is [m] with the bits of [[lo, hi)] set to [v]. *)
Definition updated (v : bool) (m m' : list Z) (lo hi : Z) : Prop :=
  length m' = length m /\ bitmap_ok m' /\
  forall i, 0 <= i -> bit_at m' i = if (lo <=? i) && (i <? hi) then v else bit_at m i.

Lemma updated_trans v m m' m'' lo mid hi :
  updated v m m' lo mid -> updated v m' m'' mid hi -> lo <= mid <= hi -> updated v m m'' lo hi.
Proof.
  intros (L1 & _ & B1) (L2 & K2 & B2) Hle. split; [congruence|]. split; [done|].
  intros i Hi. rewrite B2, B1 by done. case_bools; done.
Qed.

Section range_update.
Context (op : Z -> Z -> Z) (v : bool).
Hypothesis op_bits : forall w m j, 0 <= j < 64 ->
  Z.testbit (op w m) j = if Z.testbit m j then v else Z.testbit w j.
Hypothesis op_word : forall w m, 0 <= w < 2 ^ 64 -> 0 <= m < 2 ^ 64 -> 0 <= op w m < 2 ^ 64.

(** One word: the bits of [mask] in word [q]. *)
Lemma word_updated map q w mask lo hi :
  bitmap_ok map -> map !! q = Some w -> 0 <= mask < 2 ^ 64 ->
  64 * Z.of_nat q <= lo -> hi <= 64 * Z.of_nat q + 64 ->
  (forall j, 0 <= j < 64 ->
     Z.testbit mask j = (lo <=? 64 * Z.of_nat q + j) && (64 * Z.of_nat q + j <? hi)) ->
  updated v map (<[q := op w mask]> map) lo hi.
Proof.
  intros Hok Hl Hm Hlo Hhi Hb. pose proof (bitmap_ok_word _ _ _ Hok Hl).
  split; [by rewrite length_insert|]. split; [apply bitmap_ok_insert; auto|].
  intros i Hi. rewrite bit_at_insert by (done || by eapply lookup_lt_Some).
  pose proof (Z.mod_pos_bound i 64 ltac:(lia)). pose proof (Z.div_mod i 64 ltac:(lia)).
  destruct (Z.eqb_spec (i / 64) (Z.of_nat q)) as [E|E].
  - rewrite op_bits, Hb, <- (bit_at_word _ _ _ _ Hl) by done.
    by replace (64 * Z.of_nat q + i mod 64) with i by lia.
  - assert (i < 64 * Z.of_nat q \/ 64 * Z.of_nat q + 64 <= i) by lia. case_bools; done.
Qed.

Lemma range_words_spec fuel map pos len mask :
  bitmap_ok map -> 0 <= pos -> 0 <= len -> pos + len <= 64 * Z.of_nat (length map) ->
  0 <= mask < 2 ^ 64 -> (forall j, 0 <= j < 64 -> Z.testbit mask j = (pos mod 64 <=? j)) ->
  Z.of_nat (length map) <= pos / 64 + Z.of_nat fuel ->
  exists map' pos' mask',
    range_words op fuel map (pos / 64) len (64 - pos mod 64) mask =
      Ret (map', pos' / 64, pos + len - pos', mask') /\
    updated v map map' pos pos' /\ pos <= pos' <= pos + len /\
    pos + len - pos' < 64 - pos' mod 64 /\ 0 <= mask' < 2 ^ 64 /\
    (forall j, 0 <= j < 64 -> Z.testbit mask' j = (pos' mod 64 <=? j)).
Proof.
  revert map pos len mask. induction fuel as [|fuel IH];
    intros map pos len mask Hok Hp Hlen Hle Hm Hb Hf; cbn [range_words];
    pose proof (Z.mod_pos_bound pos 64 ltac:(lia)); pose proof (Z.div_mod pos 64 ltac:(lia));
    destruct (Z.leb_spec 0 (len - (64 - pos mod 64))).
  { lia. }
  1,3: exists map, pos, mask; (split; [do 3 f_equal; lia|]); (split; [|lia || auto with lia]);
    (split; [done|]); (split; [done|]); intros i Hi; case_bools; done.
  destruct (word_in_range map (pos / 64)) as (w & Hl & ->); [lia|]. cbn [obind].
  assert (Hq : Z.of_nat (Z.to_nat (pos / 64)) = pos / 64) by lia.
  assert (Hu : updated v map (<[Z.to_nat (pos / 64) := op w mask]> map) pos (64 * (pos / 64) + 64)).
  { apply word_updated; try done; try lia. intros j Hj. rewrite Hb by done. case_bools; done. }
  set (pos1 := 64 * (pos / 64) + 64) in *.
  assert (E1 : pos1 / 64 = pos / 64 + 1 /\ pos1 mod 64 = 0)
    by (unfold pos1; Z.div_mod_to_equations; lia). destruct E1 as [E1 E2].
  destruct (IH (<[Z.to_nat (pos / 64) := op w mask]> map) pos1 (len - (64 - pos mod 64)) ULONG_MAX)
    as (map' & pos' & mask' & E & Hu' & Hr).
  1: apply Hu. 1: lia. 1: lia. 1: rewrite length_insert; lia. 1: done.
  1: intros j Hj; rewrite testbit_ULONG_MAX; case_bools; done.
  1: rewrite length_insert; lia.
  rewrite E1, E2 in E. change (64 - 0) with 64 in E. rewrite E.
  exists map', pos', mask'. split; [do 3 f_equal; lia|].
  split; [eapply updated_trans; [done..|lia]|]. destruct Hr as (? & ? & ? & ?).
  split; [lia|]. split; [lia|]. done.
Qed.

Lemma range_update_spec map start len :
  bitmap_ok map -> 0 <= start -> 0 <= len -> start + len <= 64 * Z.of_nat (length map) ->
  start + len < 2 ^ 32 ->
  exists map', range_update op map start len = Ret map' /\ updated v map map' start (start + len).
Proof.
  intros Hok Hs Hlen Hle Hmax. unfold range_update.
  destruct (range_words_spec (S (length map)) map start len (BITMAP_FIRST_WORD_MASK start))
    as (map1 & pos & mask & -> & Hu & Hp & Hlt & Hm & Hb); try done.
  { apply FIRST_WORD_MASK_word. }
  { intros j Hj. by apply testbit_FIRST_WORD_MASK. }
  { pose proof (Z.div_pos start 64). lia. }
  cbn [obind]. destruct (Z.eqb_spec (start + len - pos) 0) as [E|E]; cbn [negb].
  { exists map1. split; [done|]. by replace (start + len) with pos by lia. }
  pose proof (Z.mod_pos_bound pos 64 ltac:(lia)). pose proof (Z.div_mod pos 64 ltac:(lia)).
  destruct Hu as (Hul & Huk & Hub).
  destruct (word_in_range map1 (pos / 64)) as (w & Hl & ->); [lia|]. cbn [obind].
  eexists. split; [done|]. apply (updated_trans v map map1 _ start pos); [done| |lia].
  rewrite wrap_small by lia.
  apply word_updated; try done; try lia.
  - by apply land_word.
  - intros j Hj. rewrite Z.land_spec, Hb, testbit_LAST_WORD_MASK by lia.
    replace ((start + len - 1) mod 64) with (start + len - 1 - 64 * (pos / 64)).
    + case_bools; done.
    + apply (Z.mod_unique _ _ (pos / 64)); lia.
Qed.
End range_update.

Lemma bitmap_set_spec map start len :
  bitmap_ok map -> 0 <= start -> 0 <= len -> start + len <= 64 * Z.of_nat (length map) ->
  start + len < 2 ^ 32 ->
  exists map', bitmap_set map start len = Ret map' /\ updated true map map' start (start + len).
Proof.
  apply range_update_spec.
  - intros w m j Hj. rewrite Z.lor_spec. by destruct (Z.testbit m j), (Z.testbit w j).
  - intros w m Hw Hm. by apply lor_word.
Qed.

Lemma bitmap_clear_spec map start len :
  bitmap_ok map -> 0 <= start -> 0 <= len -> start + len <= 64 * Z.of_nat (length map) ->
  start + len < 2 ^ 32 ->
  exists map', bitmap_clear map start len = Ret map' /\ updated false map map' start (start + len).
Proof.
  apply range_update_spec.
  - intros w m j Hj. rewrite Z.land_spec, testbit_not64 by lia. case_bools.
    by destruct (Z.testbit m j), (Z.testbit w j).
  - intros w m Hw Hm. by apply land_word.
Qed.

(** ** How updates change the weight *)

Lemma count_from_ext m m' i n :
  (forall j, i <= j < i + Z.of_nat n -> bit_at m j = bit_at m' j) ->
  count_from m i n = count_from m' i n.
Proof.
  revert i. induction n as [|n IH]; intros i H; [done|]. cbn [count_from].
  rewrite (H i) by lia. f_equal. apply IH. intros. apply H. lia.
Qed.

Lemma count_from_const m i n v :
  (forall j, i <= j < i + Z.of_nat n -> bit_at m j = v) -> count_from m i n = Z.b2z v * Z.of_nat n.
Proof.
  revert i. induction n as [|n IH]; intros i H; cbn [count_from]; [lia|].
  rewrite (H i), IH by (lia || (intros; apply H; lia)). lia.
Qed.

Lemma count_updated v m m' lo hi n :
  updated v m m' lo hi -> 0 <= lo <= hi -> hi <= Z.of_nat n ->
  (forall i, lo <= i < hi -> bit_at m i = negb v) ->
  count_from m' 0 n = count_from m 0 n + (Z.b2z v - Z.b2z (negb v)) * (hi - lo).
Proof.
  intros (_ & _ & Hb) Hlo Hhi Hold.
  replace n with (Z.to_nat lo + (Z.to_nat (hi - lo) + Z.to_nat (Z.of_nat n - hi)))%nat by lia.
  rewrite !count_from_app.
  rewrite (count_from_ext m' m 0 (Z.to_nat lo)).
  2: { intros j Hj. rewrite Hb by lia. case_bools; done. }
  rewrite (count_from_const m' _ (Z.to_nat (hi - lo)) v).
  2: { intros j Hj. rewrite Hb by lia. case_bools; done. }
  rewrite (count_from_const m _ (Z.to_nat (hi - lo)) (negb v)) by (intros; apply Hold; lia).
  rewrite (count_from_ext m' m _ (Z.to_nat (Z.of_nat n - hi))); [destruct v; cbn [Z.b2z negb]; lia|].
  intros j Hj. rewrite Hb by lia. case_bools; done.
Qed.

Lemma count_from_bound m i n : 0 <= count_from m i n <= Z.of_nat n.
Proof.
  revert i. induction n as [|n IH]; intros i; cbn [count_from]; [lia|].
  specialize (IH (i + 1)). destruct (bit_at m i); cbn [Z.b2z]; lia.
Qed.

(** ** Single bits *)

Lemma bit_mask_pow2 nr : 0 <= nr -> bit_mask nr = 2 ^ (nr mod 64).
Proof.
  intros Hnr. unfold bit_mask. change 31 with (Z.ones 5). rewrite Z.land_ones by lia.
  rewrite Z.shiftl_shiftl by (apply Z.mod_pos_bound; lia).
  rewrite Z.shiftl_mul_pow2, Z.mul_1_l by (Z.div_mod_to_equations; lia).
  f_equal. change (2 ^ 5) with 32. Z.div_mod_to_equations; lia.
Qed.

Lemma testbit_bit_mask nr j : 0 <= nr -> 0 <= j -> Z.testbit (bit_mask nr) j = (j =? nr mod 64).
Proof.
  intros Hnr Hj. rewrite bit_mask_pow2, Z.pow2_bits_eqb by (done || apply Z.mod_pos_bound; lia).
  apply Z.eqb_sym.
Qed.

Lemma bit_mask_word nr : 0 <= nr -> 0 <= bit_mask nr < 2 ^ 64.
Proof.
  intros Hnr. rewrite bit_mask_pow2 by done. pose proof (Z.mod_pos_bound nr 64 ltac:(lia)).
  split; [lia|]. apply Z.pow_lt_mono_r; lia.
Qed.

Lemma bit_updated op v addr nr w :
  (forall w m j, 0 <= j < 64 -> Z.testbit (op w m) j = if Z.testbit m j then v else Z.testbit w j) ->
  (forall w m, 0 <= w < 2 ^ 64 -> 0 <= m < 2 ^ 64 -> 0 <= op w m < 2 ^ 64) ->
  bitmap_ok addr -> 0 <= nr -> addr !! Z.to_nat (nr / 64) = Some w ->
  updated v addr (<[Z.to_nat (nr / 64) := op w (bit_mask nr)]> addr) nr (nr + 1).
Proof.
  intros Hb Hw Hok Hnr Hl. pose proof (Z.mod_pos_bound nr 64 ltac:(lia)).
  pose proof (Z.div_mod nr 64 ltac:(lia)).
  apply word_updated; try done; try lia; [by apply bit_mask_word|].
  intros j Hj. rewrite testbit_bit_mask by lia. case_bools; done.
Qed.

Lemma lor_bits w m j :
  0 <= j < 64 -> Z.testbit (Z.lor w m) j = if Z.testbit m j then true else Z.testbit w j.
Proof. intros _. rewrite Z.lor_spec. by destruct (Z.testbit m j), (Z.testbit w j). Qed.

Lemma ldiff_bits w m j :
  0 <= j < 64 -> Z.testbit (Z.ldiff w m) j = if Z.testbit m j then false else Z.testbit w j.
Proof. intros _. rewrite Z.ldiff_spec. by destruct (Z.testbit m j), (Z.testbit w j). Qed.

Lemma ldiff_word w m : 0 <= w < 2 ^ 64 -> 0 <= m < 2 ^ 64 -> 0 <= Z.ldiff w m < 2 ^ 64.
Proof.
  intros Hw Hm. apply word_of_bits; [lia| |apply Z.ldiff_nonneg; lia].
  intros i Hi. by rewrite Z.ldiff_spec, (testbit_above 64) by lia.
Qed.

Lemma set_bit_spec addr nr :
  bitmap_ok addr -> 0 <= nr < 64 * Z.of_nat (length addr) ->
  exists addr', set_bit nr addr = Ret addr' /\ updated true addr addr' nr (nr + 1).
Proof.
  intros Hok Hnr. destruct (word_in_range addr (nr / 64)) as (w & Hl & E).
  { Z.div_mod_to_equations; lia. }
  unfold set_bit, bitop. rewrite E. eexists. split; [done|].
  apply bit_updated; try done; try lia; auto using lor_bits.
  intros; by apply lor_word.
Qed.

Lemma clear_bit_spec addr nr :
  bitmap_ok addr -> 0 <= nr < 64 * Z.of_nat (length addr) ->
  exists addr', clear_bit nr addr = Ret addr' /\ updated false addr addr' nr (nr + 1).
Proof.
  intros Hok Hnr. destruct (word_in_range addr (nr / 64)) as (w & Hl & E).
  { Z.div_mod_to_equations; lia. }
  unfold clear_bit, bitop. rewrite E. eexists. split; [done|].
  apply bit_updated; try done; try lia; auto using ldiff_bits, ldiff_word.
Qed.

Lemma test_bit_mask addr nr w :
  0 <= nr -> addr !! Z.to_nat (nr / 64) = Some w ->
  negb (Z.land w (bit_mask nr) =? 0) = bit_at addr nr.
Proof.
  intros Hnr Hl. pose proof (Z.mod_pos_bound nr 64 ltac:(lia)).
  unfold bit_at. rewrite Hl, bit_mask_pow2, land_bit_testbit by lia. case_bools; done.
Qed.

Lemma test_and_set_bit_spec addr nr :
  bitmap_ok addr -> 0 <= nr < 64 * Z.of_nat (length addr) ->
  exists addr', test_and_set_bit nr addr = Ret (bit_at addr nr, addr') /\
    updated true addr addr' nr (nr + 1).
Proof.
  intros Hok Hnr. destruct (word_in_range addr (nr / 64)) as (w & Hl & E).
  { Z.div_mod_to_equations; lia. }
  unfold test_and_set_bit, testop. rewrite E. cbn [obind].
  rewrite (test_bit_mask _ _ _ (proj1 Hnr) Hl). eexists. split; [done|].
  apply bit_updated; try done; try lia; auto using lor_bits. intros; by apply lor_word.
Qed.

Lemma test_and_clear_bit_spec addr nr :
  bitmap_ok addr -> 0 <= nr < 64 * Z.of_nat (length addr) ->
  exists addr', test_and_clear_bit nr addr = Ret (bit_at addr nr, addr') /\
    updated false addr addr' nr (nr + 1).
Proof.
  intros Hok Hnr. destruct (word_in_range addr (nr / 64)) as (w & Hl & E).
  { Z.div_mod_to_equations; lia. }
  unfold test_and_clear_bit, testop. rewrite E. cbn [obind].
  rewrite (test_bit_mask _ _ _ (proj1 Hnr) Hl). eexists. split; [done|].
  apply bit_updated; try done; try lia; auto using ldiff_bits, ldiff_word.
Qed.

(** ** Area searches *)

Definition zero_area (map : list Z) (nr r : Z) : Prop :=
  forall i, r <= i < r + nr -> bit_at map i = false.

(** [r] is the first aligned free area of [nr] bits at or after [start], or,
    above [size], the report that there is none. *)
Definition first_area (al : Z -> Prop) (map : list Z) (size nr start r : Z) : Prop :=
  (start <= r /\ r + nr <= size /\ al r /\ zero_area map nr r /\
   forall s, start <= s < r -> al s -> ~ zero_area map nr s) \/
  (size < r /\ forall s, start <= s -> s + nr <= size -> al s -> ~ zero_area map nr s).

Lemma first_area_skip al map size nr start start' r :
  start <= start' ->
  (forall s, start <= s < start' -> s + nr <= size -> al s -> ~ zero_area map nr s) ->
  first_area al map size nr start' r -> first_area al map size nr start r.
Proof.
  intros Hle Hskip [(H1 & H2 & H3 & H4 & H5)|[H1 H2]].
  - left. split; [lia|]. split; [lia|]. split; [done|]. split; [done|].
    intros s Hs. destruct (decide (s < start')); [apply Hskip|apply H5]; lia.
  - right. split; [done|]. intros s Hs.
    destruct (decide (s < start')); [apply Hskip; lia|apply H2; lia].
Qed.

Lemma not_area_at map nr s i : s <= i < s + nr -> bit_at map i = true -> ~ zero_area map nr s.
Proof. intros Hi Hb Ha. rewrite Ha in Hb by done. done. Qed.

Section area.
Context (map : list Z) (size nr : Z).
Hypothesis Hok : bitmap_ok map.
Hypothesis Hsize : 0 <= size <= 64 * Z.of_nat (length map).
Hypothesis Hnr : 0 < nr.

Lemma next_zero start :
  0 <= start ->
  exists index, find_next_zero_bit map size start = Ret index /\
    0 <= index <= size /\ (start <= index \/ index = size) /\
    (forall s, start <= s < index -> ~ zero_area map nr s).
Proof.
  intros Hs. destruct (decide (start < size)).
  - destruct (find_next_zero_bit_spec map size start Hok) as (r & E & H1 & H2 & H3); [lia..|].
    exists r. split; [done|]. split; [lia|]. split; [lia|].
    intros s Hs'. apply (not_area_at _ _ _ s); [lia|]. apply negb_false_iff, H2. lia.
  - exists size. split; [apply _find_next_bit_past; lia|]. split; [lia|]. split; [by right|].
    intros; lia.
Qed.

(** The test of the candidate area [[index, index + nr)]. *)
Lemma area_test index :
  0 <= index -> index + nr <= size ->
  exists i, find_next_bit map (index + nr) index = Ret i /\
    ((i = index + nr /\ zero_area map nr index) \/
     (index <= i < index + nr /\ forall s, index <= s <= i -> ~ zero_area map nr s)).
Proof.
  intros Hi Hle. destruct (find_next_bit_spec map (index + nr) index Hok) as (r & E & H1 & H2 & H3);
    [lia..|]. exists r. split; [done|]. destruct (decide (r = index + nr)) as [->|].
  - left. done.
  - right. split; [lia|]. intros s Hs. apply (not_area_at _ _ _ r); [lia|]. apply H3. lia.
Qed.

Lemma find_area_align_spec fuel start align :
  0 <= start -> size + nr < 2 ^ 64 -> (Z.to_nat (size - start) < fuel)%nat ->
  exists r, find_area_align fuel map size start nr align = Ret r /\
    first_area (fun s => Z.land s (u64 (align - 1)) = 0) map size nr start r.
Proof.
  intros Hs Hmax. revert start Hs. induction fuel as [|fuel IH]; intros start Hs Hf; [lia|].
  cbn [find_area_align]. destruct (next_zero start Hs) as (index & -> & Hi & Hor & Hskip).
  cbn [obind]. rewrite wrap_small by lia. destruct (Z.ltb_spec size (index + nr)).
  { eexists. split; [done|]. right. split; [lia|]. intros s Hs' Hle _. apply Hskip. lia. }
  destruct (Z.eqb_spec (Z.land index (u64 (align - 1))) 0) as [Hal|Hal]; cbn [negb].
  - destruct (area_test index) as (i & -> & Hi'); [lia..|]. cbn [obind].
    destruct Hi' as [[-> Ha]|[Hr Hno]].
    + case_bools. exists index. split; [done|]. left. repeat split; try lia; try done.
      intros s Hs' _. apply Hskip. lia.
    + case_bools. rewrite wrap_small by lia. destruct (IH (i + 1)) as (r & E & Hfa); [lia..|].
      exists r. split; [done|]. eapply first_area_skip; [|..|done]; [lia|].
      intros s Hs' _ _. destruct (decide (s < index)); [apply Hskip; lia|apply Hno; lia].
  - rewrite wrap_small by lia. destruct (IH (index + 1)) as (r & E & Hfa); [lia..|].
    exists r. split; [done|]. eapply first_area_skip; [|..|done]; [lia|].
    intros s Hs' _ Hal'. destruct (decide (s < index)); [apply Hskip; lia|].
    replace s with index in Hal' by lia. done.
Qed.

Lemma find_area_align_bound fuel start align r :
  0 <= start -> size + nr < 2 ^ 64 ->
  find_area_align fuel map size start nr align = Ret r -> r <= size + nr.
Proof.
  intros Hs Hmax. revert start Hs. induction fuel as [|fuel IH]; intros start Hs; [done|].
  cbn [find_area_align]. destruct (next_zero start Hs) as (index & -> & Hi & Hor & Hskip).
  cbn [obind]. rewrite wrap_small by lia. destruct (Z.ltb_spec size (index + nr)); [intros [= <-]; lia|].
  destruct (negb _); [rewrite wrap_small by lia; apply IH; lia|].
  destruct (area_test index) as (i & -> & Hi'); [lia..|]. cbn [obind].
  destruct (Z.ltb_spec i (index + nr)); [rewrite wrap_small by lia; apply IH; lia|].
  intros [= <-]. lia.
Qed.

(** Rounding [index] up so that [index + off] is a multiple of [2^k]. *)
Lemma align_up index k off :
  0 <= index -> 0 <= k -> 0 <= off -> index + off + 2 ^ k < 2 ^ 64 -> off < 2 ^ k ->
  let index' := u64 (__ALIGN_MASK (u64 (index + off)) (2 ^ k - 1) - off) in
  index <= index' < index + 2 ^ k /\ (index' + off) mod 2 ^ k = 0 /\
  forall s, index <= s < index' -> (s + off) mod 2 ^ k <> 0.
Proof.
  intros Hi Hk Ho Hmax Hok'. assert (0 < 2 ^ k) by lia.
  assert (E : __ALIGN_MASK (u64 (index + off)) (2 ^ k - 1) =
    2 ^ k * ((index + off + 2 ^ k - 1) / 2 ^ k)).
  { unfold __ALIGN_MASK. rewrite (wrap_small 64 (index + off)), wrap_small by lia.
    rewrite land_not64_pow2 by lia. do 2 f_equal. lia. }
  cbv zeta. rewrite E. clear E. set (q := (index + off + 2 ^ k - 1) / 2 ^ k).
  assert (Hq : index + off <= 2 ^ k * q < index + off + 2 ^ k).
  { unfold q. pose proof (Z.div_mod (index + off + 2 ^ k - 1) (2 ^ k) ltac:(lia)).
    pose proof (Z.mod_pos_bound (index + off + 2 ^ k - 1) (2 ^ k) ltac:(lia)). lia. }
  rewrite wrap_small by lia. split; [lia|]. split.
  - replace (2 ^ k * q - off + off) with (q * 2 ^ k) by lia. apply Z.mod_mul. lia.
  - intros s Hs Hm. apply Z.mod_divide in Hm as [d Hd]; [|lia].
    assert (d < q) by nia. assert (q - 1 < d) by nia. lia.
Qed.

Lemma find_area_off_spec fuel start k off :
  0 <= start -> 0 <= k -> 0 <= off < 2 ^ k -> size + nr + off + 2 ^ k + 2 ^ k < 2 ^ 64 ->
  (Z.to_nat (size - start) < fuel)%nat ->
  exists r, find_area_off fuel map size start nr (2 ^ k - 1) off = Ret r /\
    first_area (fun s => (s + off) mod 2 ^ k = 0) map size nr start r.
Proof.
  intros Hs Hk Ho Hmax. revert start Hs. induction fuel as [|fuel IH]; intros start Hs Hf; [lia|].
  cbn [find_area_off]. destruct (next_zero start Hs) as (index & -> & Hi & Hor & Hskip).
  cbn [obind]. destruct (align_up index k off) as (Ha1 & Ha2 & Ha3); [lia..|].
  set (index' := u64 (__ALIGN_MASK (u64 (index + off)) (2 ^ k - 1) - off)) in *.
  assert (Hskip' : forall s, start <= s < index' -> (s + off) mod 2 ^ k = 0 -> ~ zero_area map nr s).
  { intros s Hs' Hal. destruct (decide (s < index)); [apply Hskip; lia|].
    exfalso. apply (Ha3 s); [lia|done]. }
  rewrite wrap_small by lia. destruct (Z.ltb_spec size (index' + nr)).
  { eexists. split; [done|]. right. split; [lia|]. intros s Hs' Hle. apply Hskip'. lia. }
  destruct (area_test index') as (i & -> & Hi'); [lia..|]. cbn [obind].
  destruct Hi' as [[-> Ha]|[Hr Hno]].
  - case_bools. exists index'. split; [done|]. left. repeat split; try lia; try done.
  - case_bools. rewrite wrap_small by lia. destruct (IH (i + 1)) as (r & E & Hfa); [lia..|].
    exists r. split; [done|]. eapply first_area_skip; [|..|done]; [lia|].
    intros s Hs' _ Hal. destruct (decide (s < index')); [apply Hskip'; [lia|done]|apply Hno; lia].
Qed.
End area.

Lemma set_words_spec map n v :
  (n <= length map)%nat -> set_words map n v = Ret (replicate n v ++ drop n map).
Proof.
  revert map. induction n as [|n IH]; intros map Hn; [by destruct map|].
  destruct map as [|w map]; cbn in Hn; [lia|]. cbn [set_words]. rewrite IH by lia. done.
Qed.

Lemma bit_at_app l1 l2 i :
  0 <= i -> bit_at (l1 ++ l2) i =
  if i <? 64 * Z.of_nat (length l1) then bit_at l1 i
  else bit_at l2 (i - 64 * Z.of_nat (length l1)).
Proof.
  intros Hi. unfold bit_at.
  destruct (Z.ltb_spec i (64 * Z.of_nat (length l1))).
  - rewrite lookup_app_l; [done|]. Z.div_mod_to_equations; lia.
  - rewrite lookup_app_r by (Z.div_mod_to_equations; lia).
    replace (Z.to_nat (i / 64) - length l1)%nat
      with (Z.to_nat ((i - 64 * Z.of_nat (length l1)) / 64)) by (Z.div_mod_to_equations; lia).
    replace ((i - 64 * Z.of_nat (length l1)) mod 64) with (i mod 64)
      by (Z.div_mod_to_equations; lia).
    destruct (l2 !! _); [|done]. case_bools; done.
Qed.

Lemma bit_at_replicate n v i :
  0 <= i < 64 * Z.of_nat n -> bit_at (replicate n v) i = Z.testbit v (i mod 64).
Proof.
  intros Hi. unfold bit_at. rewrite lookup_replicate_2 by (Z.div_mod_to_equations; lia).
  case_bools; done.
Qed.

(** ** Properties *)

(** The word-at-a-time search behind [find_next_bit] ([inv = false]) and
    [find_next_zero_bit] ([inv = true]) terminates without reading past the
    bitmap and returns the first wanted index at or after [start], or [nbits]
    when there is none. *)
Theorem find_next_bit_first addr nbits start inv :
  bitmap_ok addr -> 0 <= start < nbits -> nbits <= 64 * Z.of_nat (length addr) ->
  exists r, _find_next_bit addr nbits start (invert_mask inv) = Ret r /\
    is_next (wanted addr inv) nbits start r.
Proof. apply _find_next_bit_spec. Qed.

Lemma find_next_bit_first_witness :
  exists r, find_next_zero_bit [ULONG_MAX; 0x7] 128 3 = Ret r /\
    is_next (wanted [ULONG_MAX; 0x7] true) 128 3 r.
Proof.
  apply (find_next_bit_first [ULONG_MAX; 0x7] 128 3 true).
  - split; [|done]. repeat constructor; unfold is_word, ULONG_MAX; lia.
  - lia.
  - done.
Defined.

(** The circular search finds the first wanted bit at or after [offset],
    and otherwise the first one of the whole bitmap; [size] is returned only when
    no bit is wanted. *)
Theorem find_next_bit_loop_circular addr size offset inv :
  bitmap_ok addr -> 0 < size -> 0 <= offset -> size <= 64 * Z.of_nat (length addr) ->
  exists r, _find_next_bit_loop addr size offset (invert_mask inv) = Ret r /\
    is_next_wrap (wanted addr inv) size offset r.
Proof. apply _find_next_bit_loop_spec. Qed.

Lemma find_next_bit_loop_circular_witness :
  exists r, find_next_bit_loop [0x6; 0] 128 10 = Ret r /\
    is_next_wrap (wanted [0x6; 0] false) 128 10 r.
Proof.
  apply (find_next_bit_loop_circular [0x6; 0] 128 10 false).
  - split; [|done]. repeat constructor; unfold is_word; lia.
  - lia.
  - lia.
  - done.
Defined.

(** [find_first_bit], [find_first_zero_bit] and [find_last_bit] return the
    first set, first cleared and last set index of the bitmap, or [size]. *)
Theorem find_first_last_bit addr size :
  bitmap_ok addr -> 0 <= size <= 64 * Z.of_nat (length addr) ->
  (exists r, find_first_bit addr size = Ret r /\ is_next (bit_at addr) size 0 r) /\
  (exists r, find_first_zero_bit addr size = Ret r /\
     is_next (fun i => negb (bit_at addr i)) size 0 r) /\
  (exists r, find_last_bit addr size = Ret r /\ is_last (bit_at addr) size r).
Proof.
  intros Hok Hn. split; [by apply find_first_bit_spec|].
  split; [by apply find_first_zero_bit_spec|by apply find_last_bit_spec].
Qed.

Lemma find_first_last_bit_witness :
  exists r, find_last_bit [0x6; 0x10; 0] 130 = Ret r /\ is_last (bit_at [0x6; 0x10; 0]) 130 r.
Proof.
  assert (Hok : bitmap_ok [0x6; 0x10; 0]).
  { split; [|done]. repeat constructor; unfold is_word; lia. }
  exact (proj2 (proj2 (find_first_last_bit [0x6; 0x10; 0] 130 Hok ltac:(cbn; lia)))).
Defined.

(** [__bitmap_weight] is the number of set bits below [bits], whatever the
    unused bits of the last word hold. *)
Theorem bitmap_weight_counts addr bits :
  bitmap_ok addr -> 0 <= bits <= 64 * Z.of_nat (length addr) ->
  __bitmap_weight addr bits = Ret (count_from addr 0 (Z.to_nat bits)).
Proof. apply bitmap_weight_spec. Qed.

Lemma bitmap_weight_counts_witness : __bitmap_weight [ULONG_MAX; ULONG_MAX] 70 = Ret 70.
Proof.
  assert (Hok : bitmap_ok [ULONG_MAX; ULONG_MAX]).
  { split; [|done]. repeat constructor; unfold is_word, ULONG_MAX; lia. }
  rewrite (bitmap_weight_counts [ULONG_MAX; ULONG_MAX] 70 Hok) by (cbn; lia).
  vm_compute. reflexivity.
Defined.

(** [bitmap_set] and [bitmap_clear] write exactly the bits of
    [[start, start + len)], across any number of words, and stay inside the
    bitmap. *)
Theorem bitmap_range_exact map start len :
  bitmap_ok map -> 0 <= start -> 0 <= len -> start + len <= 64 * Z.of_nat (length map) ->
  start + len < 2 ^ 32 ->
  (exists map', bitmap_set map start len = Ret map' /\
     updated true map map' start (start + len)) /\
  (exists map', bitmap_clear map start len = Ret map' /\
     updated false map map' start (start + len)).
Proof. intros. split; [by apply bitmap_set_spec|by apply bitmap_clear_spec]. Qed.

Lemma bitmap_range_exact_witness :
  exists map', bitmap_set [0; 0; 0] 60 100 = Ret map' /\ updated true [0; 0; 0] map' 60 160.
Proof.
  assert (Hok : bitmap_ok [0; 0; 0]).
  { split; [|done]. repeat constructor; unfold is_word; lia. }
  exact (proj1 (bitmap_range_exact [0; 0; 0] 60 100 Hok ltac:(lia) ltac:(lia) ltac:(cbn; lia)
    ltac:(lia))).
Defined.

(** [bitmap_find_next_zero_area_align] terminates; a result inside the bitmap
    is the first aligned run of [nr] clear bits at or after [start], and a result
    above [size] is returned only when there is no such run. *)
Theorem find_zero_area_align_first map size start nr align :
  bitmap_ok map -> 0 <= size <= 64 * Z.of_nat (length map) -> 0 < nr -> 0 <= start ->
  size + nr < 2 ^ 64 ->
  exists r, bitmap_find_next_zero_area_align map size start nr align = Ret r /\
    first_area (fun s => Z.land s (u64 (align - 1)) = 0) map size nr start r.
Proof. intros. apply find_area_align_spec; lia || done. Qed.

Lemma find_zero_area_align_first_witness :
  exists r, bitmap_find_next_zero_area_align [0x1; 0x2] 128 0 8 4 = Ret r /\
    first_area (fun s => Z.land s (u64 (4 - 1)) = 0) [0x1; 0x2] 128 8 0 r.
Proof.
  assert (Hok : bitmap_ok [0x1; 0x2]).
  { split; [|done]. repeat constructor; unfold is_word; lia. }
  exact (find_zero_area_align_first [0x1; 0x2] 128 0 8 4 Hok ltac:(cbn; lia) ltac:(lia)
    ltac:(lia) ltac:(lia)).
Defined.

(** [bitmap_find_next_zero_area_off] with mask [2^k - 1] and an offset
    terminates; a result inside the bitmap is the first run of [nr] clear bits at
    or after [start] whose index plus the offset is a multiple of [2^k], and a
    result above [size] is returned only when there is no such run. *)
Theorem find_zero_area_off_first map size start nr k off :
  bitmap_ok map -> 0 <= size <= 64 * Z.of_nat (length map) -> 0 < nr -> 0 <= start ->
  0 <= k -> 0 <= off < 2 ^ k -> size + nr + off + 2 ^ k + 2 ^ k < 2 ^ 64 ->
  exists r, bitmap_find_next_zero_area_off map size start nr (2 ^ k - 1) off = Ret r /\
    first_area (fun s => (s + off) mod 2 ^ k = 0) map size nr start r.
Proof. intros. apply find_area_off_spec; lia || done. Qed.

Lemma find_zero_area_off_first_witness :
  exists r, bitmap_find_next_zero_area_off [0x1; 0x2] 128 0 8 (2 ^ 3 - 1) 2 = Ret r /\
    first_area (fun s => (s + 2) mod 2 ^ 3 = 0) [0x1; 0x2] 128 8 0 r.
Proof.
  assert (Hok : bitmap_ok [0x1; 0x2]).
  { split; [|done]. repeat constructor; unfold is_word; lia. }
  exact (find_zero_area_off_first [0x1; 0x2] 128 0 8 3 2 Hok ltac:(cbn; lia) ltac:(lia)
    ltac:(lia) ltac:(lia) ltac:(lia) ltac:(lia)).
Defined.
