(* ===== verification/Virq.v ===== *)
(** * Virtual interrupts

    [virt/virq.c] and [virt/virq_chips/vgic.c]: the virtual interrupts of one virtual
    machine.  Each vcpu has a bitmap of pending and one of active interrupts; the shared
    peripheral interrupts (SPI) have descriptors in the VM, the private ones in the vcpu.
    On entry to the guest, pending interrupts get a list register of the interrupt
    controller; on exit, the ones the guest has finished give it back.

    A descriptor is named by [dref].  Calls into the interrupt controller and the scheduler
    are recorded in [hw_calls]; the state that a list register shows on exit is the
    argument [lr_state].  Locks around whole operations are left out. *)

From S2P Require Import Prelude Types Bits Bitmap.

Definition VIRQ_STATE_INACTIVE : Z := 0.
Definition VIRQ_STATE_PENDING : Z := 1.
Definition VIRQ_STATE_ACTIVE : Z := 2.
Definition VIRQ_INVALID_ID : Z := 0xff.
Definition VIRQ_ACTION_CLEAR : Z := 2.
Definition VIRQ_AFFINITY_VM_ANY : Z := 0xff.
Definition VIRQ_AFFINITY_VCPU_ANY : Z := 0xff.
Definition VM_SGI_VIRQ_NR : Z := 16.
Definition VM_PPI_VIRQ_NR : Z := 16.
Definition VM_LOCAL_VIRQ_NR : Z := VM_SGI_VIRQ_NR + VM_PPI_VIRQ_NR.
Definition HVM_SPI_VIRQ_NR : Z := 384.
Definition GVM_SPI_VIRQ_NR : Z := 64.
Definition MAX_HVM_VIRQ : Z := HVM_SPI_VIRQ_NR + VM_LOCAL_VIRQ_NR.
Definition MAX_GVM_VIRQ : Z := GVM_SPI_VIRQ_NR + VM_LOCAL_VIRQ_NR.
Definition VIRQ_SPI_OFFSET (virq : Z) : Z := virq - VM_LOCAL_VIRQ_NR.
Definition VIRQ_SPI_NR (count : Z) : Z := if VM_LOCAL_VIRQ_NR <? count then VIRQ_SPI_OFFSET count else 0.
Definition VM_VIRQ_NR (nr : Z) : Z := nr + VM_LOCAL_VIRQ_NR.

Definition VIRQS_NEED_EXPORT : Z := Z.shiftl 1 0.
Definition VIRQS_ENABLED : Z := Z.shiftl 1 1.
Definition VIRQS_HW : Z := Z.shiftl 1 3.
Definition VIRQS_CAN_WAKEUP : Z := Z.shiftl 1 4.
Definition VIRQS_REQUESTED : Z := Z.shiftl 1 6.
Definition VIRQS_FIQ : Z := Z.shiftl 1 7.
Definition FIQ_HAS_INJECT : Z := Z.shiftl 1 31.
Definition BAD_IRQ : Z := 1023.
Definition VM_STATE_ONLINE : Z := 2.
Definition VM_STATE_SUSPEND : Z := 3.
Definition IRQ_FLAGS_EDGE_RISING : Z := 0x1.
Definition IRQ_FLAGS_LEVEL_HIGH : Z := 0x4.

Record virq_desc := mk_vd {
  vd_flags : Z;
  vno : Z;
  hno : Z;
  vd_id : Z;
  vd_state : Z;
  vd_pr : Z;
  vd_src : Z;
  vd_type : Z;
  vcpu_id : Z;
  vd_vmid : Z;
}.

Record virq_struct := mk_vs {
  nr_lrs : Z;
  last_fail_virq : Z;
  pending_virq : Z;
  active_virq : Z;
  local_desc : list virq_desc;
  pending_bitmap : list Z;
  active_bitmap : list Z;
  lrs_bitmap : list Z;
}.

Inductive hw_call : Type :=
| IrqMask (hno : Z)
| IrqUnmask (hno : Z)
| IrqSetType (hno type : Z)
| IrqSetAffinity (hno : Z) (vcpu : nat)
| RequestIrq (hno : Z)
| KickVcpu (vcpu : nat) (hw : bool)
| ChipSend (vcpu : nat) (vno id : Z)
| ChipUpdate (vcpu : nat) (vno action : Z).

Record vm := mk_vm {
  vmid : Z;
  vm_state : Z;
  vm_is_host : bool;
  vspi_nr : Z;
  vspi_desc : list virq_desc;
  vspi_map : list Z;
  vcpus : list virq_struct;
  hw_calls : list hw_call;
}.

(** ** Access to the records *)

Definition set_flags (f : Z) (d : virq_desc) : virq_desc :=
  mk_vd f (vno d) (hno d) (vd_id d) (vd_state d) (vd_pr d) (vd_src d) (vd_type d) (vcpu_id d) (vd_vmid d).
Definition set_id (x : Z) (d : virq_desc) : virq_desc :=
  mk_vd (vd_flags d) (vno d) (hno d) (u8 x) (vd_state d) (vd_pr d) (vd_src d) (vd_type d) (vcpu_id d) (vd_vmid d).
Definition set_state (x : Z) (d : virq_desc) : virq_desc :=
  mk_vd (vd_flags d) (vno d) (hno d) (vd_id d) (u8 x) (vd_pr d) (vd_src d) (vd_type d) (vcpu_id d) (vd_vmid d).
Definition set_pr (x : Z) (d : virq_desc) : virq_desc :=
  mk_vd (vd_flags d) (vno d) (hno d) (vd_id d) (vd_state d) (u8 x) (vd_src d) (vd_type d) (vcpu_id d) (vd_vmid d).
Definition set_src (x : Z) (d : virq_desc) : virq_desc :=
  mk_vd (vd_flags d) (vno d) (hno d) (vd_id d) (vd_state d) (vd_pr d) (u8 x) (vd_type d) (vcpu_id d) (vd_vmid d).
Definition set_type (x : Z) (d : virq_desc) : virq_desc :=
  mk_vd (vd_flags d) (vno d) (hno d) (vd_id d) (vd_state d) (vd_pr d) (vd_src d) (u8 x) (vcpu_id d) (vd_vmid d).
Definition set_target (vcpu vm : Z) (d : virq_desc) : virq_desc :=
  mk_vd (vd_flags d) (vno d) (hno d) (vd_id d) (vd_state d) (vd_pr d) (vd_src d) (vd_type d) (u8 vcpu) (u8 vm).

Definition flag_on (bit : Z) (d : virq_desc) : virq_desc := set_flags (Z.lor (vd_flags d) bit) d.
Definition flag_off (bit : Z) (d : virq_desc) : virq_desc := set_flags (Z.land (vd_flags d) (Z.lnot bit)) d.
Definition has_flag (bit : Z) (d : virq_desc) : bool := negb (Z.land (vd_flags d) bit =? 0).

Definition virq_set_enable := flag_on VIRQS_ENABLED.
Definition virq_clear_enable := flag_off VIRQS_ENABLED.
Definition virq_is_enabled := has_flag VIRQS_ENABLED.
Definition virq_can_wakeup := has_flag VIRQS_CAN_WAKEUP.
Definition virq_set_hw := flag_on VIRQS_HW.
Definition virq_clear_hw := flag_off VIRQS_HW.
Definition virq_is_hw := has_flag VIRQS_HW.
Definition virq_is_requested := has_flag VIRQS_REQUESTED.
Definition __virq_set_fiq := flag_on VIRQS_FIQ.
Definition virq_is_fiq := has_flag VIRQS_FIQ.

Definition set_vcpus (v : vm) (l : list virq_struct) : vm :=
  mk_vm (vmid v) (vm_state v) (vm_is_host v) (vspi_nr v) (vspi_desc v) (vspi_map v) l (hw_calls v).
Definition set_spis (v : vm) (l : list virq_desc) : vm :=
  mk_vm (vmid v) (vm_state v) (vm_is_host v) (vspi_nr v) l (vspi_map v) (vcpus v) (hw_calls v).
Definition set_map (v : vm) (m : list Z) : vm :=
  mk_vm (vmid v) (vm_state v) (vm_is_host v) (vspi_nr v) (vspi_desc v) m (vcpus v) (hw_calls v).
Definition log_hw (v : vm) (c : hw_call) : vm :=
  mk_vm (vmid v) (vm_state v) (vm_is_host v) (vspi_nr v) (vspi_desc v) (vspi_map v) (vcpus v) (hw_calls v ++ [c]).

Definition get_vs (v : vm) (c : nat) : outcome virq_struct :=
  match vcpus v !! c with Some s => Ret s | None => Fault end.
Definition put_vs (v : vm) (c : nat) (s : virq_struct) : vm := set_vcpus v (<[c := s]> (vcpus v)).

Definition set_pending (s : virq_struct) (n : Z) (m : list Z) : virq_struct :=
  mk_vs (nr_lrs s) (last_fail_virq s) n (active_virq s) (local_desc s) m (active_bitmap s) (lrs_bitmap s).
Definition set_active (s : virq_struct) (n : Z) (m : list Z) : virq_struct :=
  mk_vs (nr_lrs s) (last_fail_virq s) (pending_virq s) n (local_desc s) (pending_bitmap s) m (lrs_bitmap s).
Definition set_lrs (s : virq_struct) (m : list Z) : virq_struct :=
  mk_vs (nr_lrs s) (last_fail_virq s) (pending_virq s) (active_virq s) (local_desc s) (pending_bitmap s) (active_bitmap s) m.
Definition set_fail (s : virq_struct) (b : Z) : virq_struct :=
  mk_vs (nr_lrs s) b (pending_virq s) (active_virq s) (local_desc s) (pending_bitmap s) (active_bitmap s) (lrs_bitmap s).
Definition set_local (s : virq_struct) (l : list virq_desc) : virq_struct :=
  mk_vs (nr_lrs s) (last_fail_virq s) (pending_virq s) (active_virq s) l (pending_bitmap s) (active_bitmap s) (lrs_bitmap s).

(** A pointer to a descriptor: of the vcpu, or of the VM. *)
Inductive dref : Type :=
| Local (i : nat)
| Spi (i : nat).

Definition vm_irq_count (v : vm) : Z := vspi_nr v + VM_LOCAL_VIRQ_NR.

Definition get_virq_desc (v : vm) (virq : Z) : option dref :=
  if virq <? VM_LOCAL_VIRQ_NR then Some (Local (Z.to_nat virq))
  else if VM_VIRQ_NR (vspi_nr v) <=? virq then None
  else Some (Spi (Z.to_nat (VIRQ_SPI_OFFSET virq))).

Definition desc_at (v : vm) (c : nat) (r : dref) : outcome virq_desc :=
  match r with
  | Local i => let* s := get_vs v c in
               match local_desc s !! i with Some d => Ret d | None => Fault end
  | Spi i => match vspi_desc v !! i with Some d => Ret d | None => Fault end
  end.

Definition upd_desc (v : vm) (c : nat) (r : dref) (f : virq_desc -> virq_desc) : vm :=
  match r with
  | Local i => set_vcpus v (alter (fun s => set_local s (alter f i (local_desc s))) c (vcpus v))
  | Spi i => set_spis v (alter f i (vspi_desc v))
  end.

Definition test_bit (nr : Z) (m : list Z) : outcome bool :=
  let* w := word m (nr / 64) in Ret (negb (Z.land w (bit_mask nr) =? 0)).

(** ** Sending *)

(** [cur] is the vcpu that executes the call. *)
Definition __send_virq (v : vm) (c : nat) (r : dref) (cur : nat) : outcome (Z * vm) :=
  let* d := desc_at v c r in
  let* s := get_vs v c in
  let* (old, m) := test_and_set_bit (vno d) (pending_bitmap s) in
  let v := put_vs v c (set_pending s (pending_virq s) m) in
  if (old : bool) then Ret (0, v) else
  let v := put_vs v c (set_pending s (s32 (pending_virq s + 1)) m) in
  Ret (0, if vno d <? VM_SGI_VIRQ_NR then upd_desc v c r (set_src (Z.of_nat cur)) else v).

(** The VM of a [NULL] vcpu is read before the check. *)
Definition send_virq (v : vm) (vcpu : option nat) (desc : option dref) (cur : nat) : outcome (Z * vm) :=
  match vcpu, desc with
  | None, _ => Fault
  | Some _, None => Ret (- EINVAL, v)
  | Some c, Some r =>
      if negb (vm_state v =? VM_STATE_ONLINE) && negb (vm_state v =? VM_STATE_SUSPEND) then Ret (- EPERM, v) else
      let* d := desc_at v c r in
      if (vm_state v =? VM_STATE_SUSPEND) && negb (virq_can_wakeup d) then Ret (- EAGAIN, v) else
      let* (ret, v) := __send_virq v c r cur in
      if negb (ret =? 0) then Ret (ret, v) else
      let* d := desc_at v c r in
      Ret (0, log_hw v (KickVcpu c (virq_is_hw d)))
  end.

Definition get_vcpu_in_vm (v : vm) (id : Z) : option nat :=
  if Z.of_nat (length (vcpus v)) <=? id then None else Some (Z.to_nat id).

(** [r] is the descriptor the handler was registered with; it belongs to this VM. *)
Definition guest_irq_handler (v : vm) (c : nat) (r : dref) (cur : nat) : outcome (Z * vm) :=
  let* d := desc_at v c r in
  if negb (virq_is_hw d) then Ret (- EINVAL, v) else
  let vcpu := if (vd_vmid d =? VIRQ_AFFINITY_VM_ANY) && (vcpu_id d =? VIRQ_AFFINITY_VCPU_ANY) then Some cur
              else get_vcpu_in_vm v (vcpu_id d) in
  send_virq v vcpu (Some r) cur.

Definition send_virq_to_vcpu (v : vm) (c : nat) (virq : Z) (cur : nat) : outcome (Z * vm) :=
  send_virq v (Some c) (get_virq_desc v virq) cur.

Definition send_virq_to_vm (v : vm) (virq : Z) (cur : nat) : outcome (Z * vm) :=
  if virq <? VM_LOCAL_VIRQ_NR then Ret (- EINVAL, v) else
  match get_virq_desc v virq with
  | None => Ret (- ENOENT, v)
  | Some r =>
      let* d := desc_at v 0 r in
      if negb (virq_is_enabled d) then Ret (- EAGAIN, v)
      else if virq_is_hw d then Ret (- EPERM, v)
      else send_virq v (get_vcpu_in_vm v (vcpu_id d)) (Some r) cur
  end.

(** [cpumask] is one word, with the vcpus as its bits. *)
Fixpoint send_vsgi_loop (n : nat) (v : vm) (sgi : Z) (cpumask : list Z) (cpu : Z) (cur : nat) : outcome vm :=
  match n with
  | O => OutOfFuel
  | S n =>
      let nr := Z.of_nat (length (vcpus v)) in
      if cpu <? nr then
        let* (_, v) := send_virq v (Some (Z.to_nat cpu)) (get_virq_desc v sgi) cur in
        let* cpu := find_next_bit cpumask nr (cpu + 1) in
        send_vsgi_loop n v sgi cpumask cpu cur
      else Ret v
  end.

Definition send_vsgi (v : vm) (sgi : Z) (cpumask : list Z) (cur : nat) : outcome vm :=
  let* cpu := find_first_bit cpumask (Z.of_nat (length (vcpus v))) in
  send_vsgi_loop (S (length (vcpus v))) v sgi cpumask cpu cur.

(** ** Taking and finishing without list registers *)

Definition clear_pending_virq (v : vm) (c : nat) (irq : Z) : outcome vm :=
  match get_virq_desc v irq with
  | None => Ret v
  | Some r =>
      let* d := desc_at v c r in
      if negb (vd_state d =? VIRQ_STATE_ACTIVE) then Ret v else
      let* s := get_vs v c in
      let* m := clear_bit irq (active_bitmap s) in
      let v := put_vs v c (set_active s (active_virq s) m) in
      let v := upd_desc v c r (set_state VIRQ_STATE_INACTIVE) in
      Ret (log_hw v (ChipUpdate c (vno d) VIRQ_ACTION_CLEAR))
  end.

Fixpoint get_pending_loop (n : nat) (v : vm) (c : nat) (bit : Z) : outcome (Z * vm) :=
  match n with
  | O => OutOfFuel
  | S n =>
      let total := vm_irq_count v in
      if bit <? total then
        let* s := get_vs v c in
        let* active := test_bit bit (active_bitmap s) in
        if (active : bool) then
          let* bit := find_next_bit (pending_bitmap s) total (bit + 1) in
          get_pending_loop n v c bit
        else
          match get_virq_desc v bit with
          | None => Fault
          | Some r =>
              let* (_ : virq_desc) := desc_at v c r in
              let v := upd_desc v c r (set_state VIRQ_STATE_ACTIVE) in
              let* s := get_vs v c in
              let* m := clear_bit bit (pending_bitmap s) in
              let s := set_pending s (s32 (pending_virq s - 1)) m in
              let* a := set_bit bit (active_bitmap s) in
              Ret (bit, put_vs v c (set_active s (u32 (active_virq s + 1)) a))
          end
      else Ret (BAD_IRQ, v)
  end.

Definition get_pending_virq (v : vm) (c : nat) : outcome (Z * vm) :=
  let* s := get_vs v c in
  let* bit := find_first_bit (pending_bitmap s) (vm_irq_count v) in
  get_pending_loop (S (Z.to_nat (vm_irq_count v))) v c bit.

Definition vcpu_has_irq (v : vm) (c : nat) : outcome bool :=
  let* s := get_vs v c in
  let total := vm_irq_count v in
  let* pend := find_first_bit (pending_bitmap s) total in
  let* active := find_first_bit (active_bitmap s) total in
  Ret ((pend <? total) || (active <? total)).

(** ** Attributes *)

(** Reading an attribute of an interrupt; 0 if there is none. *)
Definition virq_read (f : virq_desc -> Z) (v : vm) (c : nat) (virq : Z) : outcome Z :=
  match get_virq_desc v virq with
  | None => Ret 0
  | Some r => let* d := desc_at v c r in Ret (f d)
  end.

Definition virq_get_type := virq_read vd_type.
Definition virq_get_state := virq_read (fun d => Z.b2z (virq_is_enabled d)).
Definition virq_get_affinity := virq_read vcpu_id.
Definition virq_get_pr := virq_read vd_pr.
Definition virq_can_request := virq_read (fun d => Z.b2z (negb (virq_is_requested d))).
Definition virq_need_export :=
  virq_read (fun d => if has_flag VIRQS_NEED_EXPORT d then 1 else Z.b2z (negb (virq_is_requested d))).

Definition virq_set_type (v : vm) (c : nat) (virq value : Z) : outcome (Z * vm) :=
  match get_virq_desc v virq with
  | None => Ret (- ENOENT, v)
  | Some r =>
      let* d := desc_at v c r in
      if vd_type d =? value then Ret (0, v) else
      let v := upd_desc v c r (set_type value) in
      Ret (0, if virq_is_hw d
              then log_hw v (IrqSetType (hno d) (if negb (value =? 0) then IRQ_FLAGS_EDGE_RISING else IRQ_FLAGS_LEVEL_HIGH))
              else v)
  end.

Definition virq_set_priority (v : vm) (c : nat) (virq pr : Z) : outcome (Z * vm) :=
  match get_virq_desc v virq with
  | None => Ret (- ENOENT, v)
  | Some r => let* (_ : virq_desc) := desc_at v c r in Ret (0, upd_desc v c r (set_pr pr))
  end.

Definition virq_enable (v : vm) (c : nat) (virq : Z) : outcome (Z * vm) :=
  match get_virq_desc v virq with
  | None => Ret (- ENOENT, v)
  | Some r =>
      let* d := desc_at v c r in
      let v := upd_desc v c r virq_set_enable in
      Ret (0, if (VM_LOCAL_VIRQ_NR <? virq) && virq_is_hw d then log_hw v (IrqUnmask (hno d)) else v)
  end.

Definition virq_set_fiq (v : vm) (c : nat) (virq : Z) : outcome (Z * vm) :=
  match get_virq_desc v virq with
  | None => Ret (- ENOENT, v)
  | Some r => let* (_ : virq_desc) := desc_at v c r in Ret (0, upd_desc v c r __virq_set_fiq)
  end.

Definition virq_disable (v : vm) (c : nat) (virq : Z) : outcome (Z * vm) :=
  match get_virq_desc v virq with
  | None => Ret (- ENOENT, v)
  | Some r =>
      let* d := desc_at v c r in
      let v := upd_desc v c r virq_clear_enable in
      Ret (0, if (VM_LOCAL_VIRQ_NR <? virq) || virq_is_hw d then log_hw v (IrqMask (hno d)) else v)
  end.

(** ** Requesting and releasing *)

Definition update_virq_cap (v : vm) (c : nat) (r : dref) (flags : Z) : outcome vm :=
  let v := upd_desc v c r (flag_on flags) in
  let* d := desc_at v c r in
  let v := if negb (Z.land flags VIRQS_ENABLED =? 0) && virq_is_hw d then log_hw v (IrqUnmask (hno d)) else v in
  Ret (if negb (Z.land flags VIRQS_FIQ =? 0) then upd_desc v c r __virq_set_fiq else v).

Definition __request_virq (v : vm) (c : nat) (r : dref) (virq hwirq flags : Z) : outcome (Z * vm) :=
  let* d := desc_at v c r in
  if virq_is_requested d then Ret (- EBUSY, v) else
  let fresh := mk_vd (Z.lor (vd_flags d) VIRQS_REQUESTED) (u16 virq) (u16 hwirq) VIRQ_INVALID_ID VIRQ_STATE_INACTIVE
                 0xa0 (vd_src d) (vd_type d) (u8 (Z.of_nat c)) (u8 (vmid v)) in
  let v := upd_desc v c r (fun _ => fresh) in
  let* v := if VM_LOCAL_VIRQ_NR <=? virq
            then let* m := set_bit (VIRQ_SPI_OFFSET virq) (vspi_map v) in Ret (set_map v m)
            else Ret v in
  let v := if negb (hwirq =? 0)
           then log_hw (log_hw (upd_desc (log_hw v (IrqSetAffinity hwirq c)) c r virq_set_hw) (RequestIrq hwirq))
                       (IrqMask (u16 hwirq))
           else upd_desc v c r virq_clear_hw in
  let* v := update_virq_cap v c r flags in
  Ret (0, v).

Definition request_virq_affinity (v : vm) (virq hwirq affinity flags : Z) : outcome (Z * vm) :=
  match get_vcpu_in_vm v affinity with
  | None => Ret (- EINVAL, v)
  | Some c =>
      match get_virq_desc v virq with
      | None => Ret (- ENOENT, v)
      | Some r => __request_virq v c r virq hwirq flags
      end
  end.

Definition vm_max_virq_line (v : vm) : Z := if vm_is_host v then MAX_HVM_VIRQ else MAX_GVM_VIRQ.

Definition request_hw_virq (v : vm) (virq hwirq flags : Z) : outcome (Z * vm) :=
  if vm_max_virq_line v <=? virq then Ret (- EINVAL, v) else request_virq_affinity v virq hwirq 0 flags.

Definition request_virq (v : vm) (virq flags : Z) : outcome (Z * vm) := request_hw_virq v virq 0 flags.

(** The loop over the vcpus; a request that fails is logged only. *)
Fixpoint pervcpu_loop (cs : list nat) (v : vm) (virq flags : Z) : outcome vm :=
  match cs with
  | [] => Ret v
  | c :: cs =>
      match get_virq_desc v virq with
      | None => pervcpu_loop cs v virq flags
      | Some r =>
          let* (_, v) := __request_virq v c r virq 0 flags in
          pervcpu_loop cs (upd_desc v c r (set_target VIRQ_AFFINITY_VCPU_ANY VIRQ_AFFINITY_VM_ANY)) virq flags
      end
  end.

Definition request_virq_pervcpu (v : vm) (virq flags : Z) : outcome (Z * vm) :=
  if VM_LOCAL_VIRQ_NR <=? virq then Ret (- EINVAL, v) else
  let* v := pervcpu_loop (seq 0 (length (vcpus v))) v virq flags in Ret (0, v).

(** The status of the request is ignored. *)
Definition alloc_vm_virq (v : vm) : outcome (Z * vm) :=
  let count := vspi_nr v in
  let* virq := find_next_zero_bit_loop (vspi_map v) count 0 in
  if virq <? count then
    let* (_, v) := request_virq v (virq + VM_LOCAL_VIRQ_NR) VIRQS_NEED_EXPORT in
    Ret (virq + VM_LOCAL_VIRQ_NR, v)
  else Ret (-1, v).

Definition zero_desc : virq_desc := mk_vd 0 0 0 0 0 0 0 0 0 0.

(** A [virq] below the first SPI gives a negative index, compared as unsigned. *)
Definition release_vm_virq (v : vm) (virq : Z) : outcome vm :=
  let virq := VIRQ_SPI_OFFSET virq in
  if vspi_nr v <=? u32 virq then Ret v else
  let* (_ : virq_desc) := desc_at v 0 (Spi (Z.to_nat virq)) in
  let v := upd_desc v 0 (Spi (Z.to_nat virq)) (fun _ => zero_desc) in
  let* m := clear_bit virq (vspi_map v) in
  Ret (set_map v m).

(** ** Set-up and reset *)

Definition fresh_local (i : nat) : virq_desc :=
  set_state VIRQ_STATE_INACTIVE (set_id VIRQ_INVALID_ID
    (mk_vd (vd_flags (virq_set_enable (virq_clear_hw zero_desc))) (Z.of_nat i) 0 0 0 0 0 0
       VIRQ_AFFINITY_VCPU_ANY VIRQ_AFFINITY_VM_ANY)).

Definition vcpu_virq_struct_init (v : vm) (c : nat) : outcome vm :=
  let* s := get_vs v c in
  Ret (put_vs v c (mk_vs (nr_lrs s) (last_fail_virq s) 0 0 (map fresh_local (seq 0 (Z.to_nat VM_LOCAL_VIRQ_NR)))
                     (pending_bitmap s) (active_bitmap s) (lrs_bitmap s))).

(** [memset(m, 0, BITMAP_SIZE(nr))]. *)
Definition zero_words (m : list Z) (nr : Z) : list Z :=
  let k := Z.to_nat (BITS_TO_LONGS nr) in replicate (Nat.min k (length m)) 0 ++ drop k m.

Definition vcpu_virq_struct_reset (v : vm) (c : nat) : outcome vm :=
  let* s := get_vs v c in
  let s := set_pending s (pending_virq s) (zero_words (pending_bitmap s) (vspi_nr v)) in
  let s := set_active s (active_virq s) (zero_words (active_bitmap s) (vspi_nr v)) in
  let s := set_lrs s (zero_words (lrs_bitmap s) (nr_lrs s)) in
  vcpu_virq_struct_init (put_vs v c s) c.

Definition reset_spi (d : virq_desc) : virq_desc :=
  set_state VIRQ_STATE_INACTIVE (set_id VIRQ_INVALID_ID (set_type 0 (set_pr 0xa0 (virq_clear_enable d)))).

Fixpoint mask_hw (l : list virq_desc) (v : vm) : vm :=
  match l with
  | [] => v
  | d :: l => mask_hw l (if virq_is_hw d then log_hw v (IrqMask (hno d)) else v)
  end.

Definition vm_virq_reset (v : vm) : vm :=
  let l := take (Z.to_nat (vspi_nr v)) (vspi_desc v) in
  mask_hw l (set_spis v (map reset_spi l ++ drop (Z.to_nat (vspi_nr v)) (vspi_desc v))).

(** The pages of the descriptors are released by the caller's allocator. *)
Fixpoint destroy_mask (l : list virq_desc) (v : vm) : vm :=
  match l with
  | [] => v
  | d :: l => destroy_mask l (if virq_is_enabled d && virq_is_hw d && (VM_LOCAL_VIRQ_NR <? hno d)
                              then log_hw v (IrqMask (hno d)) else v)
  end.

Definition virq_destroy_vm (v : vm) : vm :=
  destroy_mask (take (Z.to_nat (VIRQ_SPI_NR (vspi_nr v))) (vspi_desc v)) v.

(** The descriptors, the map and the bitmaps of every vcpu are carved from one zeroed area;
    [mem] says whether its allocation succeeds. *)
Definition virq_create_vm (v : vm) (mem : bool) : Z * vm :=
  let nr := vm_max_virq_line v in
  if mem then
    let m := replicate (Z.to_nat (BITS_TO_LONGS (nr + VM_LOCAL_VIRQ_NR))) 0 in
    (0, mk_vm (vmid v) (vm_state v) (vm_is_host v) nr (replicate (Z.to_nat nr) zero_desc)
          (replicate (Z.to_nat (BITS_TO_LONGS nr)) 0)
          (map (fun s => mk_vs (nr_lrs s) (last_fail_virq s) (pending_virq s) (active_virq s) (local_desc s) m m (lrs_bitmap s))
               (vcpus v)) (hw_calls v))
  else (- ENOMEM, mk_vm (vmid v) (vm_state v) (vm_is_host v) nr (vspi_desc v) (vspi_map v) (vcpus v) (hw_calls v)).

(** ** List registers *)

(** The interrupt [bit] gets list register [id] and moves from pending to active. *)
Definition inject (v : vm) (c : nat) (r : dref) (bit id : Z) : outcome vm :=
  let* d := desc_at v c r in
  let v := upd_desc v c r (set_id id) in
  let* s := get_vs v c in
  let* l := set_bit id (lrs_bitmap s) in
  let v := log_hw (put_vs v c (set_lrs s l)) (ChipSend c (vno d) id) in
  let v := upd_desc v c r (set_state VIRQ_STATE_PENDING) in
  let* s := get_vs v c in
  let* a := set_bit bit (active_bitmap s) in
  let s := set_active s (u32 (active_virq s + 1)) a in
  let* m := clear_bit bit (pending_bitmap s) in
  Ret (put_vs v c (set_pending s (s32 (pending_virq s - 1)) m)).

(** One pass over the pending interrupts from [bit] on; [true] if no list register was left.
    [flags] counts the interrupts, with a mark for a fast one. *)
Fixpoint enter_loop (n : nat) (v : vm) (c : nat) (bit size flags : Z) : outcome (Z * vm) :=
  match n with
  | O => OutOfFuel
  | S n =>
      let* s := get_vs v c in
      if bit <? size then
        let next v :=
          let* s := get_vs v c in
          let* b := find_next_bit (pending_bitmap s) size (bit + 1) in
          Ret b in
        match get_virq_desc v bit with
        | None =>
            let* m := clear_bit bit (pending_bitmap s) in
            let v := put_vs v c (set_pending s (pending_virq s) m) in
            let* b := next v in enter_loop n v c b size flags
        | Some r =>
            let* d := desc_at v c r in
            let* active := test_bit bit (active_bitmap s) in
            if (active : bool) then let* b := next v in enter_loop n v c b size flags else
            let* id := find_first_zero_bit (lrs_bitmap s) (nr_lrs s) in
            if nr_lrs s <=? id then Ret (flags, put_vs v c (set_fail s bit)) else
            let flags := if virq_is_fiq d then Z.lor flags FIQ_HAS_INJECT else flags in
            let flags := u32 (flags + 1) in
            let* v := inject v c r bit id in
            let* b := next v in enter_loop n v c b size flags
        end
      else Ret (flags, v)
  end.

(** A pass that starts behind an earlier failure is followed by one over the front. *)
Definition vgic_irq_enter_to_guest (v : vm) (c : nat) : outcome (Z * vm) :=
  let* s := get_vs v c in
  let old := last_fail_virq s in
  let size := vm_irq_count v - old in
  let v := put_vs v c (set_fail s 0) in
  let fuel := S (Z.to_nat (vm_irq_count v)) in
  let* bit := find_next_bit (pending_bitmap s) size old in
  let* (flags, v) := enter_loop fuel v c bit size 0 in
  let* s := get_vs v c in
  if negb (old =? 0) && (last_fail_virq s =? 0) then
    let* bit := find_next_bit (pending_bitmap s) old 0 in
    enter_loop fuel v c bit old flags
  else Ret (flags, v).

(** The guest has finished the interrupt [bit]: its list register is free again. *)
Definition retire (v : vm) (c : nat) (r : dref) (bit : Z) : outcome vm :=
  let* d := desc_at v c r in
  let v := log_hw v (ChipUpdate c (vno d) VIRQ_ACTION_CLEAR) in
  let* s := get_vs v c in
  let* l := clear_bit (vd_id d) (lrs_bitmap s) in
  let v := upd_desc (put_vs v c (set_lrs s l)) c r (set_id VIRQ_INVALID_ID) in
  let* s := get_vs v c in
  let* a := clear_bit bit (active_bitmap s) in
  Ret (put_vs v c (set_active s (u32 (active_virq s - 1)) a)).

(** [lr_state id] is what list register [id] shows. *)
Fixpoint exit_loop (n : nat) (v : vm) (c : nat) (bit : Z) (lr_state : Z -> Z) : outcome vm :=
  match n with
  | O => OutOfFuel
  | S n =>
      let* s := get_vs v c in
      if bit <? vm_irq_count v then
        let* v :=
          match get_virq_desc v bit with
          | None => let* a := clear_bit bit (active_bitmap s) in Ret (put_vs v c (set_active s (active_virq s) a))
          | Some r =>
              let* d := desc_at v c r in
              let st := lr_state (vd_id d) in
              let v := upd_desc v c r (set_state st) in
              if u8 st =? VIRQ_STATE_INACTIVE then retire v c r bit
              else Ret v
          end in
        let* s := get_vs v c in
        let* bit := find_next_bit (active_bitmap s) (vm_irq_count v) (bit + 1) in
        exit_loop n v c bit lr_state
      else Ret v
  end.

Definition vgic_irq_exit_from_guest (v : vm) (c : nat) (lr_state : Z -> Z) : outcome vm :=
  let* s := get_vs v c in
  let* bit := find_first_bit (active_bitmap s) (vm_irq_count v) in
  exit_loop (S (Z.to_nat (vm_irq_count v))) v c bit lr_state.

(** ** Views *)

(** The descriptor of interrupt [i] as vcpu [c] sees it. *)
Definition look (v : vm) (c : nat) (i : Z) : option virq_desc :=
  match (if 0 <=? i then get_virq_desc v i else None) with
  | Some (Local k) => s ← vcpus v !! c; local_desc s !! k
  | Some (Spi k) => vspi_desc v !! k
  | None => None
  end.

Definition pend (s : virq_struct) (i : Z) : bool := bit_at (pending_bitmap s) i.
Definition act (s : virq_struct) (i : Z) : bool := bit_at (active_bitmap s) i.

(** The bitmaps of a vcpu cover the interrupts, and its counter is the number of pending ones. *)
Record vs_ok (total : Z) (s : virq_struct) : Prop := {
  so_pending : bitmap_ok (pending_bitmap s);
  so_active : bitmap_ok (active_bitmap s);
  so_lrs : bitmap_ok (lrs_bitmap s);
  so_plen : total <= 64 * Z.of_nat (length (pending_bitmap s));
  so_alen : total <= 64 * Z.of_nat (length (active_bitmap s));
  so_nr : 0 <= nr_lrs s <= 128 /\ nr_lrs s <= 64 * Z.of_nat (length (lrs_bitmap s));
  so_local : length (local_desc s) = Z.to_nat VM_LOCAL_VIRQ_NR;
  so_count : pending_virq s = count_from (pending_bitmap s) 0 (Z.to_nat total);
}.

Record vm_ok (v : vm) : Prop := {
  vo_nr : 0 <= vspi_nr v /\ vm_irq_count v <= 1020;
  vo_spi : length (vspi_desc v) = Z.to_nat (vspi_nr v);
  vo_vcpus : Forall (vs_ok (vm_irq_count v)) (vcpus v);
}.

(** What an operation of vcpu [c] leaves alone; [T] are the interrupts it may touch. *)
Record frame (v v' : vm) (c : nat) (T : Z -> Prop) : Prop := {
  f_nr : vspi_nr v' = vspi_nr v;
  f_state : vm_state v' = vm_state v;
  f_host : vm_is_host v' = vm_is_host v /\ vmid v' = vmid v /\ vspi_map v' = vspi_map v;
  f_len : length (vcpus v') = length (vcpus v);
  f_spi : length (vspi_desc v') = length (vspi_desc v);
  f_other : forall c', c' <> c -> vcpus v' !! c' = vcpus v !! c';
  f_desc : forall c' i, ~ T i \/ (c' <> c /\ i < VM_LOCAL_VIRQ_NR) -> look v' c' i = look v c' i;
  f_static : forall c' i d', look v' c' i = Some d' ->
    exists d, look v c' i = Some d /\ vno d' = vno d /\ vcpu_id d' = vcpu_id d /\ vd_flags d' = vd_flags d;
}.

Lemma frame_refl v c T : frame v v c T.
Proof. split; try done. intros c' i d Hd. by exists d. Qed.

Lemma frame_trans v1 v2 v3 c T : frame v1 v2 c T -> frame v2 v3 c T -> frame v1 v3 c T.
Proof.
  intros F1 F2. destruct F1 as [A1 A2 (A3 & A4 & A5) A6 A7 A8 A9 A10], F2 as [B1 B2 (B3 & B4 & B5) B6 B7 B8 B9 B10].
  split; try congruence; [split_and!; congruence| | |].
  - intros c' Hc. rewrite B8, A8; done.
  - intros c' i Hi. rewrite B9, A9; done.
  - intros c' i d3 H3. destruct (B10 c' i d3 H3) as (d2 & H2 & X1 & X2 & X3). destruct (A10 c' i d2 H2) as (d1 & H1 & Y1 & Y2 & Y3).
    exists d1. split; [done|]. split_and!; congruence.
Qed.

Lemma frame_weaken v v' c (T T' : Z -> Prop) : frame v v' c T -> (forall i, T i -> T' i) -> frame v v' c T'.
Proof. intros [] HT. split; try done. intros c' i Hi. apply f_desc0. destruct Hi; [left|right]; eauto. Qed.

Lemma irq_ref v i : 0 <= i < vm_irq_count v ->
  exists r, get_virq_desc v i = Some r /\
    r = (if i <? VM_LOCAL_VIRQ_NR then Local (Z.to_nat i) else Spi (Z.to_nat (i - VM_LOCAL_VIRQ_NR))).
Proof.
  intros Hi. unfold get_virq_desc, vm_irq_count, VM_VIRQ_NR, VIRQ_SPI_OFFSET in *.
  destruct (Z.ltb_spec i VM_LOCAL_VIRQ_NR); [by eexists|].
  destruct (Z.leb_spec (vspi_nr v + VM_LOCAL_VIRQ_NR) i); [lia|by eexists].
Qed.

Lemma look_spi v c i : VM_LOCAL_VIRQ_NR <= i < vm_irq_count v -> look v c i = vspi_desc v !! Z.to_nat (i - VM_LOCAL_VIRQ_NR).
Proof.
  intros Hi. unfold look, get_virq_desc, VM_VIRQ_NR, VIRQ_SPI_OFFSET. unfold vm_irq_count in Hi.
  change VM_LOCAL_VIRQ_NR with 32 in *. by case_bools.
Qed.

Lemma look_local v c i : 0 <= i < VM_LOCAL_VIRQ_NR -> look v c i = s ← vcpus v !! c; local_desc s !! Z.to_nat i.
Proof. intros Hi. unfold look, get_virq_desc. change VM_LOCAL_VIRQ_NR with 32 in *. by case_bools. Qed.

Lemma look_none v c i : i < 0 \/ vm_irq_count v <= i -> 0 <= vspi_nr v -> look v c i = None.
Proof.
  unfold vm_irq_count, look, get_virq_desc, VM_VIRQ_NR. change VM_LOCAL_VIRQ_NR with 32. intros Hi Hn. by case_bools.
Qed.

Lemma look_ref v c i r d : 0 <= i -> get_virq_desc v i = Some r -> look v c i = Some d -> desc_at v c r = Ret d.
Proof.
  intros Hi Er Hd. unfold look in Hd. destruct (Z.leb_spec 0 i); [|lia]. rewrite Er in Hd. unfold desc_at, get_vs. destruct r as [k|k].
  - destruct (vcpus v !! c) as [s|]; [|done]. cbn in Hd |- *. by rewrite Hd.
  - by rewrite Hd.
Qed.

Lemma vcpu_ok v c s : vm_ok v -> vcpus v !! c = Some s -> vs_ok (vm_irq_count v) s.
Proof. intros Hv Hs. exact (Forall_lookup_1 _ _ _ _ (vo_vcpus _ Hv) Hs). Qed.

Lemma look_exists v c s i : vm_ok v -> vcpus v !! c = Some s -> 0 <= i < vm_irq_count v -> exists d, look v c i = Some d.
Proof.
  intros Hv Hs Hi. pose proof (vcpu_ok v c s Hv Hs) as Hso. pose proof (vo_nr _ Hv).
  destruct (Z.ltb_spec i VM_LOCAL_VIRQ_NR).
  - rewrite look_local, Hs by lia. cbn. apply lookup_lt_is_Some_2. rewrite (so_local _ _ Hso).
    change VM_LOCAL_VIRQ_NR with 32 in *. lia.
  - rewrite look_spi by lia. apply lookup_lt_is_Some_2. rewrite (vo_spi _ Hv). unfold vm_irq_count in Hi. lia.
Qed.

(** Two states of a vcpu that differ in their local descriptors at most. *)
Definition like (s s' : virq_struct) : Prop :=
  nr_lrs s' = nr_lrs s /\ last_fail_virq s' = last_fail_virq s /\ pending_virq s' = pending_virq s /\
  active_virq s' = active_virq s /\ pending_bitmap s' = pending_bitmap s /\ active_bitmap s' = active_bitmap s /\
  lrs_bitmap s' = lrs_bitmap s /\ length (local_desc s') = length (local_desc s).

Definition keeps_static (f : virq_desc -> virq_desc) : Prop :=
  forall d, vno (f d) = vno d /\ vcpu_id (f d) = vcpu_id d /\ vd_flags (f d) = vd_flags d.

(** The descriptors after one was changed. *)
Lemma upd_desc_look v c s i r d f :
  vm_ok v -> vcpus v !! c = Some s -> 0 <= i < vm_irq_count v -> get_virq_desc v i = Some r -> look v c i = Some d ->
  forall c' j, look (upd_desc v c r f) c' j =
    if decide (j = i /\ (c' = c \/ VM_LOCAL_VIRQ_NR <= i)) then Some (f d) else look v c' j.
Proof.
  intros Hv Hs Hi Er Hd c' j. pose proof (vo_nr _ Hv) as [Hnr _].
  destruct (irq_ref v i Hi) as (r' & Er' & Hr). assert (r' = r) as -> by congruence. clear Er' Er.
  assert (Hj : (j < 0 \/ vm_irq_count v <= j) \/ 0 <= j < VM_LOCAL_VIRQ_NR \/ VM_LOCAL_VIRQ_NR <= j < vm_irq_count v)
    by (unfold vm_irq_count in *; change VM_LOCAL_VIRQ_NR with 32 in *; lia).
  destruct (Z.ltb_spec i VM_LOCAL_VIRQ_NR) as [Hlt|Hge]; subst r; cbn [upd_desc]; destruct Hj as [Hj|[Hj|Hj]].
  - rewrite decide_False by lia. by rewrite !look_none.
  - rewrite (look_local v c i) in Hd by lia. rewrite Hs in Hd. cbn in Hd. rewrite !look_local by done. cbn [set_vcpus vcpus].
    destruct (decide (c' = c)) as [->|Hc]; [|rewrite decide_False by lia; by rewrite list_lookup_alter_ne].
    rewrite list_lookup_alter_eq, Hs. cbn. destruct (decide (j = i)) as [->|Hne].
    + rewrite decide_True by tauto. by rewrite list_lookup_alter_eq, Hd.
    + rewrite decide_False by tauto. rewrite list_lookup_alter_ne by lia. done.
  - rewrite decide_False by lia. by rewrite !look_spi.
  - rewrite decide_False by lia. by rewrite !look_none.
  - rewrite decide_False by lia. by rewrite !look_local.
  - rewrite (look_spi v c i) in Hd by lia. rewrite !look_spi by done. cbn [set_spis vspi_desc].
    destruct (decide (j = i)) as [->|Hne].
    + rewrite decide_True by tauto. by rewrite list_lookup_alter_eq, Hd.
    + rewrite decide_False by tauto. rewrite list_lookup_alter_ne by lia. done.
Qed.

Lemma upd_desc_spec v c s i r d f :
  vm_ok v -> vcpus v !! c = Some s -> 0 <= i < vm_irq_count v -> get_virq_desc v i = Some r -> look v c i = Some d ->
  keeps_static f ->
  exists s', vcpus (upd_desc v c r f) !! c = Some s' /\ like s s' /\ frame v (upd_desc v c r f) c (eq i) /\
    look (upd_desc v c r f) c i = Some (f d).
Proof.
  intros Hv Hs Hi Er Hd Hf. pose proof (upd_desc_look v c s i r d f Hv Hs Hi Er Hd) as Hl.
  assert (Hs' : exists s', vcpus (upd_desc v c r f) !! c = Some s' /\ like s s').
  { destruct r as [k|k]; cbn [upd_desc set_vcpus set_spis vcpus].
    - rewrite list_lookup_alter_eq, Hs. eexists. split; [done|]. unfold like. cbn. by rewrite length_alter.
    - exists s. by split. }
  destruct Hs' as (s' & Hs' & Hlike). exists s'. split_and!; [done|done| |rewrite Hl, decide_True; tauto].
  split; try by destruct r.
  - destruct r; [by apply length_alter|done].
  - destruct r; [done|by apply length_alter].
  - intros c' Hc. destruct r; [|done]. by apply list_lookup_alter_ne.
  - intros c' j Hj. rewrite Hl, decide_False; [done|]. intros [-> [->|?]]; destruct Hj as [Hj|[? ?]]; done || lia.
  - intros c' j d' Hd'. rewrite Hl in Hd'. destruct (decide _) as [[-> Hor]|_]; [|by exists d'].
    injection Hd' as <-. exists d. split; [|apply Hf]. destruct Hor as [->|?]; [done|].
    by rewrite look_spi in Hd |- * by lia.
Qed.

Lemma put_vs_spec v c s s' T :
  vcpus v !! c = Some s -> local_desc s' = local_desc s ->
  vcpus (put_vs v c s') !! c = Some s' /\ frame v (put_vs v c s') c T /\ forall c' j, look (put_vs v c s') c' j = look v c' j.
Proof.
  intros Hs El.
  assert (Hl : forall c' j, look (put_vs v c s') c' j = look v c' j).
  { intros c' j. unfold look, put_vs, get_virq_desc, set_vcpus. cbn [vspi_nr vcpus vspi_desc].
    destruct (0 <=? j); [|done]. destruct (j <? _); [|by destruct (_ <=? j)]. destruct (decide (c' = c)) as [->|Hc].
    - rewrite list_lookup_insert_eq, Hs by (by eapply lookup_lt_Some). cbn. by rewrite El.
    - by rewrite list_lookup_insert_ne by congruence. }
  split_and!; [apply list_lookup_insert_eq; by eapply lookup_lt_Some| |done].
  split; try done.
  - by apply length_insert.
  - intros c' Hc. apply list_lookup_insert_ne. congruence.
  - intros c' j d' Hd'. rewrite Hl in Hd'. by exists d'.
Qed.

Lemma log_hw_spec v c h T : frame v (log_hw v h) c T /\ forall c' j, look (log_hw v h) c' j = look v c' j.
Proof. split; [|done]. split; try done. intros c' i d Hd. by exists d. Qed.

Lemma vm_ok_frame v v' c T s' :
  vm_ok v -> frame v v' c T -> vcpus v' !! c = Some s' -> vs_ok (vm_irq_count v) s' -> vm_ok v'.
Proof.
  intros [H1 H2 H3] F Hs' Hso. assert (Ec : vm_irq_count v' = vm_irq_count v) by (unfold vm_irq_count; by rewrite (f_nr _ _ _ _ F)).
  split.
  - by rewrite Ec, (f_nr _ _ _ _ F).
  - by rewrite (f_spi _ _ _ _ F), (f_nr _ _ _ _ F).
  - rewrite Ec. apply Forall_lookup. intros c' x Hx. destruct (decide (c' = c)) as [->|Hc]; [congruence|].
    rewrite (f_other _ _ _ _ F) in Hx by done. by apply (Forall_lookup_1 _ _ _ _ H3 Hx).
Qed.

Lemma get_vs_Ret v c s : vcpus v !! c = Some s -> get_vs v c = Ret s.
Proof. intros Hs. unfold get_vs. by rewrite Hs. Qed.

(** The bits of [m'] are those of [m] with bit [i] set to [b]. *)
Lemma updated_at b m m' i : updated b m m' i (i + 1) -> 0 <= i -> bit_at m' i = b.
Proof. intros (_ & _ & H) Hi. rewrite H by done. by case_bools. Qed.

Lemma updated_other b m m' i j : updated b m m' i (i + 1) -> 0 <= j -> j <> i -> bit_at m' j = bit_at m j.
Proof. intros (_ & _ & H) Hj Hne. rewrite H by done. by case_bools. Qed.

Lemma vs_ok_like total s s' : vs_ok total s -> like s s' -> vs_ok total s'.
Proof.
  intros [] (E1 & _ & E3 & _ & E5 & E6 & E7 & E8). split; rewrite ?E1, ?E3, ?E5, ?E6, ?E7, ?E8; done.
Qed.

(** ** Injecting and retiring one interrupt *)

Record moved (v v' : vm) (c : nat) (s s' : virq_struct) (i : Z) : Prop := {
  mv_vs : vcpus v' !! c = Some s';
  mv_frame : frame v v' c (eq i);
  mv_ok : vm_ok v';
  mv_nr : nr_lrs s' = nr_lrs s;
  mv_fail : last_fail_virq s' = last_fail_virq s;
}.

Lemma count_clear m m' i n :
  updated false m m' i (i + 1) -> bit_at m i = true -> 0 <= i < Z.of_nat n ->
  count_from m' 0 n = count_from m 0 n - 1.
Proof.
  intros Hu Hb Hi. rewrite (count_updated false m m' i (i + 1) n Hu); [cbn; lia|lia|lia|].
  intros j Hj. replace j with i by lia. exact Hb.
Qed.

Lemma count_set m m' i n :
  updated true m m' i (i + 1) -> bit_at m i = false -> 0 <= i < Z.of_nat n ->
  count_from m' 0 n = count_from m 0 n + 1.
Proof.
  intros Hu Hb Hi. rewrite (count_updated true m m' i (i + 1) n Hu); [cbn; lia|lia|lia|].
  intros j Hj. replace j with i by lia. exact Hb.
Qed.

Lemma inject_spec v c s i r d id :
  vm_ok v -> vcpus v !! c = Some s -> 0 <= i < vm_irq_count v -> get_virq_desc v i = Some r -> look v c i = Some d ->
  pend s i = true -> 0 <= id < nr_lrs s ->
  exists v' s', inject v c r i id = Ret v' /\ moved v v' c s s' i /\
    updated false (pending_bitmap s) (pending_bitmap s') i (i + 1) /\
    updated true (active_bitmap s) (active_bitmap s') i (i + 1) /\
    updated true (lrs_bitmap s) (lrs_bitmap s') id (id + 1) /\
    look v' c i = Some (set_state VIRQ_STATE_PENDING (set_id id d)).
Proof.
  intros Hv Hs Hi Er Hd Hp Hid. pose proof (vcpu_ok v c s Hv Hs) as Hso. pose proof (vo_nr _ Hv) as [Hn0 Hn1].
  unfold inject. rewrite (look_ref v c i r d) by (done || lia). cbn [obind].
  destruct (upd_desc_spec v c s i r d (set_id id) Hv Hs Hi Er Hd ltac:(done)) as (s1 & Hs1 & L1 & F1 & Hd1).
  set (v1 := upd_desc v c r (set_id id)) in *. rewrite (get_vs_Ret v1 c s1 Hs1). cbn [obind].
  pose proof (vs_ok_like _ _ _ Hso L1) as Hso1. pose proof (vm_ok_frame v v1 c _ s1 Hv F1 Hs1 Hso1) as Hv1.
  destruct L1 as (E11 & E12 & E13 & E14 & E15 & E16 & E17 & E18).
  destruct (set_bit_spec (lrs_bitmap s1) id (so_lrs _ _ Hso1)) as (l & El & Ul).
  { pose proof (so_nr _ _ Hso1). lia. }
  rewrite El. cbn [obind].
  destruct (put_vs_spec v1 c s1 (set_lrs s1 l) (eq i) Hs1 eq_refl) as (Hs2 & F2 & Lk2).
  set (v2 := log_hw (put_vs v1 c (set_lrs s1 l)) (ChipSend c (vno d) id)).
  assert (Hs2' : vcpus v2 !! c = Some (set_lrs s1 l)) by exact Hs2.
  assert (F2' : frame v1 v2 c (eq i)) by (eapply frame_trans; [exact F2|apply log_hw_spec]).
  assert (Hso2 : vs_ok (vm_irq_count v1) (set_lrs s1 l)).
  { destruct Ul as (Ull & Ulo & _). unfold vm_irq_count. rewrite (f_nr _ _ _ _ F1). destruct Hso1. split; cbn; try done. by rewrite Ull. }
  pose proof (vm_ok_frame v1 v2 c _ _ Hv1 F2' Hs2' Hso2) as Hv2.
  assert (Ec2 : vm_irq_count v2 = vm_irq_count v) by (unfold vm_irq_count; by rewrite (f_nr _ _ _ _ F2'), (f_nr _ _ _ _ F1)).
  assert (Er2 : get_virq_desc v2 i = Some r) by (unfold get_virq_desc in *; by rewrite (f_nr _ _ _ _ F2'), (f_nr _ _ _ _ F1)).
  assert (Hd2 : look v2 c i = Some (set_id id d)) by (unfold v2; rewrite (proj2 (log_hw_spec _ c _ (eq i))), Lk2; exact Hd1).
  destruct (upd_desc_spec v2 c _ i r _ (set_state VIRQ_STATE_PENDING) Hv2 Hs2' ltac:(lia) Er2 Hd2 ltac:(done))
    as (s3 & Hs3 & L3 & F3 & Hd3).
  set (v3 := upd_desc v2 c r (set_state VIRQ_STATE_PENDING)) in *. rewrite (get_vs_Ret v3 c s3 Hs3). cbn [obind].
  destruct L3 as (E31 & E32 & E33 & E34 & E35 & E36 & E37 & E38). cbn in E31, E32, E33, E34, E35, E36, E37, E38.
  rewrite E36, E16.
  destruct (set_bit_spec (active_bitmap s) i (so_active _ _ Hso)) as (a & Ea & Ua); [pose proof (so_alen _ _ Hso); lia|].
  rewrite Ea. cbn [obind set_active pending_bitmap pending_virq].
  destruct (clear_bit_spec (pending_bitmap s) i (so_pending _ _ Hso)) as (m & Em & Um); [pose proof (so_plen _ _ Hso); lia|].
  rewrite E35, E15, Em. cbn [obind].
  set (s4 := set_pending (set_active s3 (u32 (active_virq s3 + 1)) a) (s32 (pending_virq s3 - 1)) m).
  destruct (put_vs_spec v3 c s3 s4 (eq i) Hs3 eq_refl) as (Hs4 & F4 & Lk4).
  assert (F : frame v (put_vs v3 c s4) c (eq i)).
  { eapply frame_trans; [exact F1|]. eapply frame_trans; [exact F2'|]. by eapply frame_trans. }
  exists (put_vs v3 c s4), s4. split; [done|].
  assert (Hcnt : s32 (pending_virq s3 - 1) = count_from m 0 (Z.to_nat (vm_irq_count v))).
  { rewrite E33, E13, (so_count _ _ Hso), (count_clear _ _ _ _ Um Hp) by lia.
    pose proof (count_from_bound (pending_bitmap s) 0 (Z.to_nat (vm_irq_count v))).
    pose proof (count_from_bound m 0 (Z.to_nat (vm_irq_count v))) as Hb. rewrite (count_clear _ _ _ _ Um Hp) in Hb by lia.
    apply s32_small. lia. }
  assert (Hso4 : vs_ok (vm_irq_count v) s4).
  { destruct Um as (Uml & Umo & _), Ua as (Ual & Uao & _), Hso. split; cbn; rewrite ?E31, ?E11, ?E37, ?E38, ?E18; try done.
    - apply Ul.
    - by rewrite Uml.
    - by rewrite Ual.
    - destruct Ul as (-> & _). by rewrite E17. }
  split_and!; cbn; try done.
  - split; cbn; try done; [|congruence|congruence]. exact (vm_ok_frame v _ c _ s4 Hv F Hs4 Hso4).
  - by rewrite E37, <- E17.
  - by rewrite Lk4.
Qed.

(** What the operations read is the same in a framed state. *)
Lemma frame_count v v' c T : frame v v' c T -> vm_irq_count v' = vm_irq_count v.
Proof. intros F. unfold vm_irq_count. by rewrite (f_nr _ _ _ _ F). Qed.

Lemma frame_ref v v' c T i : frame v v' c T -> get_virq_desc v' i = get_virq_desc v i.
Proof. intros F. unfold get_virq_desc. by rewrite (f_nr _ _ _ _ F). Qed.

Lemma retire_spec v c s i r d :
  vm_ok v -> vcpus v !! c = Some s -> 0 <= i < vm_irq_count v -> get_virq_desc v i = Some r -> look v c i = Some d ->
  0 <= vd_id d < nr_lrs s ->
  exists v' s', retire v c r i = Ret v' /\ moved v v' c s s' i /\ pending_bitmap s' = pending_bitmap s /\
    updated false (active_bitmap s) (active_bitmap s') i (i + 1) /\
    updated false (lrs_bitmap s) (lrs_bitmap s') (vd_id d) (vd_id d + 1) /\
    look v' c i = Some (set_id VIRQ_INVALID_ID d).
Proof.
  intros Hv Hs Hi Er Hd Hid. pose proof (vcpu_ok v c s Hv Hs) as Hso.
  unfold retire. rewrite (look_ref v c i r d) by (done || lia). cbn [obind].
  set (v0 := log_hw v _). destruct (log_hw_spec v c (ChipUpdate c (vno d) VIRQ_ACTION_CLEAR) (eq i)) as [F0 Lk0]. fold v0 in F0, Lk0.
  assert (Hs0 : vcpus v0 !! c = Some s) by exact Hs. rewrite (get_vs_Ret v0 c s Hs0). cbn [obind].
  destruct (clear_bit_spec (lrs_bitmap s) (vd_id d) (so_lrs _ _ Hso)) as (l & El & Ul); [pose proof (so_nr _ _ Hso); lia|].
  rewrite El. cbn [obind].
  destruct (put_vs_spec v0 c s (set_lrs s l) (eq i) Hs0 eq_refl) as (Hs1 & F1 & Lk1). set (v1 := put_vs v0 c (set_lrs s l)) in *.
  assert (F01 : frame v v1 c (eq i)) by (by eapply frame_trans).
  assert (Hso1 : vs_ok (vm_irq_count v) (set_lrs s l)).
  { destruct Ul as (Ull & Ulo & _), Hso. split; cbn; try done. by rewrite Ull. }
  pose proof (vm_ok_frame v v1 c _ _ Hv F01 Hs1 Hso1) as Hv1.
  assert (Hd1 : look v1 c i = Some d) by (by rewrite Lk1, Lk0).
  destruct (upd_desc_spec v1 c _ i r d (set_id VIRQ_INVALID_ID) Hv1 Hs1) as (s2 & Hs2 & L2 & F2 & Hd2).
  { by rewrite (frame_count _ _ _ _ F01). }
  { by rewrite (frame_ref _ _ _ _ _ F01). }
  { done. }
  { done. }
  set (v2 := upd_desc v1 c r (set_id VIRQ_INVALID_ID)) in *. rewrite (get_vs_Ret v2 c s2 Hs2). cbn [obind].
  pose proof (vs_ok_like _ _ _ Hso1 L2) as Hso2. destruct L2 as (E1 & E2 & E3 & E4 & E5 & E6 & E7 & E8). cbn in E1, E2, E5, E6, E7.
  destruct (clear_bit_spec (active_bitmap s2) i (so_active _ _ Hso2)) as (a & Ea & Ua); [pose proof (so_alen _ _ Hso2); lia|].
  rewrite Ea. cbn [obind]. set (s3 := set_active s2 _ a).
  destruct (put_vs_spec v2 c s2 s3 (eq i) Hs2 eq_refl) as (Hs3 & F3 & Lk3).
  assert (F : frame v (put_vs v2 c s3) c (eq i)) by (eapply frame_trans; [exact F01|by eapply frame_trans]).
  assert (Hso3 : vs_ok (vm_irq_count v) s3).
  { destruct Ua as (Ual & Uao & _), Hso2. split; cbn; try done. by rewrite Ual. }
  exists (put_vs v2 c s3), s3. split; [done|]. rewrite E6 in Ua. cbn. split_and!; try done.
  - split; try done. exact (vm_ok_frame v _ c _ s3 Hv F Hs3 Hso3).
  - by rewrite E7.
  - by rewrite Lk3.
Qed.

(** ** List registers belong to active interrupts *)

Record lr_ok (v : vm) (c : nat) (s : virq_struct) : Prop := {
  lr_own : forall i d, 0 <= i < vm_irq_count v -> act s i = true -> look v c i = Some d ->
    0 <= vd_id d < nr_lrs s /\ bit_at (lrs_bitmap s) (vd_id d) = true;
  lr_inj : forall i j di dj, 0 <= i < vm_irq_count v -> 0 <= j < vm_irq_count v ->
    act s i = true -> act s j = true -> look v c i = Some di -> look v c j = Some dj -> vd_id di = vd_id dj -> i = j;
  lr_used : forall k, 0 <= k < nr_lrs s -> bit_at (lrs_bitmap s) k = true ->
    exists i d, 0 <= i < vm_irq_count v /\ act s i = true /\ look v c i = Some d /\ vd_id d = k;
}.

Lemma inject_lr_ok v v' c s s' i d id :
  lr_ok v c s -> vm_ok v -> moved v v' c s s' i -> 0 <= i < vm_irq_count v -> 0 <= id < nr_lrs s ->
  bit_at (lrs_bitmap s) id = false -> act s i = false ->
  updated true (active_bitmap s) (active_bitmap s') i (i + 1) ->
  updated true (lrs_bitmap s) (lrs_bitmap s') id (id + 1) ->
  look v' c i = Some (set_state VIRQ_STATE_PENDING (set_id id d)) -> nr_lrs s <= 128 ->
  lr_ok v' c s'.
Proof.
  intros [Hown Hinj Hused] Hv [Hs' F Hv' Enr _] Hi Hid Hfree Hact Ua Ul Hd Hn.
  pose proof (frame_count _ _ _ _ F) as Ec.
  assert (Hlk : forall j, j <> i -> look v' c j = look v c j) by (intros j Hj; apply F; left; congruence).
  assert (Hai : act s' i = true) by (apply (updated_at _ _ _ _ Ua); lia).
  assert (Haj : forall j, 0 <= j -> j <> i -> act s' j = act s j) by (intros; by apply (updated_other _ _ _ _ _ Ua)).
  assert (Hli : bit_at (lrs_bitmap s') id = true) by (apply (updated_at _ _ _ _ Ul); lia).
  assert (Hlj : forall k, 0 <= k -> k <> id -> bit_at (lrs_bitmap s') k = bit_at (lrs_bitmap s) k)
    by (intros; by apply (updated_other _ _ _ _ _ Ul)).
  assert (Hnew : vd_id (set_state VIRQ_STATE_PENDING (set_id id d)) = id) by (cbn; apply wrap_small; lia).
  assert (Hold : forall j dj, 0 <= j < vm_irq_count v -> j <> i -> act s' j = true -> look v' c j = Some dj ->
            act s j = true /\ look v c j = Some dj /\ 0 <= vd_id dj < nr_lrs s /\ vd_id dj <> id /\ bit_at (lrs_bitmap s) (vd_id dj) = true).
  { intros j dj Hj Hne Ha Hdj. rewrite Haj in Ha by lia. rewrite Hlk in Hdj by done.
    destruct (Hown j dj Hj Ha Hdj) as [Hr Hb]. split_and!; try done; try lia. intros E. congruence. }
  split; rewrite ?Ec, ?Enr.
  - intros j dj Hj Ha Hdj. destruct (decide (j = i)) as [->|Hne].
    + rewrite Hd in Hdj. injection Hdj as <-. rewrite Hnew. by split.
    + destruct (Hold j dj Hj Hne Ha Hdj) as (_ & _ & Hr & Hne' & Hb). split; [done|]. by rewrite Hlj by (done || lia).
  - intros j k dj dk Hj Hk Haj' Hak Hdj Hdk E. destruct (decide (j = i)) as [->|Hji], (decide (k = i)) as [->|Hki]; [done| | |].
    + exfalso. rewrite Hd in Hdj. injection Hdj as <-. rewrite Hnew in E. destruct (Hold k dk Hk Hki Hak Hdk) as (_ & _ & _ & ? & _). congruence.
    + exfalso. rewrite Hd in Hdk. injection Hdk as <-. rewrite Hnew in E. destruct (Hold j dj Hj Hji Haj' Hdj) as (_ & _ & _ & ? & _). congruence.
    + destruct (Hold j dj Hj Hji Haj' Hdj) as (? & ? & _), (Hold k dk Hk Hki Hak Hdk) as (? & ? & _). by apply (Hinj j k dj dk).
  - intros k Hk Hb. destruct (decide (k = id)) as [->|Hne].
    + exists i, (set_state VIRQ_STATE_PENDING (set_id id d)). by split_and!; try lia.
    + rewrite Hlj in Hb by lia. destruct (Hused k Hk Hb) as (j & dj & Hj & Ha & Hdj & E).
      assert (j <> i) by (intros ->; congruence). exists j, dj. rewrite Haj, Hlk by (done || lia). done.
Qed.

Lemma retire_lr_ok v v' c s s' i d :
  lr_ok v c s -> moved v v' c s s' i -> 0 <= i < vm_irq_count v -> act s i = true -> look v c i = Some d ->
  updated false (active_bitmap s) (active_bitmap s') i (i + 1) ->
  updated false (lrs_bitmap s) (lrs_bitmap s') (vd_id d) (vd_id d + 1) ->
  lr_ok v' c s'.
Proof.
  intros [Hown Hinj Hused] [Hs' F Hv' Enr _] Hi Hact Hd Ua Ul.
  pose proof (frame_count _ _ _ _ F) as Ec. destruct (Hown i d Hi Hact Hd) as [Hid _].
  assert (Hlk : forall j, j <> i -> look v' c j = look v c j) by (intros j Hj; apply F; left; congruence).
  assert (Hai : act s' i = false) by (apply (updated_at _ _ _ _ Ua); lia).
  assert (Haj : forall j, 0 <= j -> j <> i -> act s' j = act s j) by (intros; by apply (updated_other _ _ _ _ _ Ua)).
  assert (Hli : bit_at (lrs_bitmap s') (vd_id d) = false) by (apply (updated_at _ _ _ _ Ul); lia).
  assert (Hlj : forall k, 0 <= k -> k <> vd_id d -> bit_at (lrs_bitmap s') k = bit_at (lrs_bitmap s) k)
    by (intros; by apply (updated_other _ _ _ _ _ Ul)).
  assert (Hold : forall j dj, 0 <= j < vm_irq_count v -> act s' j = true -> look v' c j = Some dj ->
            j <> i /\ act s j = true /\ look v c j = Some dj).
  { intros j dj Hj Ha Hdj. assert (Hne : j <> i) by congruence. rewrite Haj in Ha by lia. rewrite Hlk in Hdj by done. done. }
  split; rewrite ?Ec, ?Enr.
  - intros j dj Hj Ha Hdj. destruct (Hold j dj Hj Ha Hdj) as (Hne & Ha' & Hdj'). destruct (Hown j dj Hj Ha' Hdj') as [Hr Hb].
    split; [done|]. rewrite Hlj; [done|lia|]. intros E. apply Hne. by apply (Hinj j i dj d).
  - intros j k dj dk Hj Hk Hja Hka Hdj Hdk E. destruct (Hold j dj Hj Hja Hdj) as (_ & ? & ?), (Hold k dk Hk Hka Hdk) as (_ & ? & ?).
    by apply (Hinj j k dj dk).
  - intros k Hk Hb. assert (Hne : k <> vd_id d) by congruence. rewrite Hlj in Hb by lia.
    destruct (Hused k Hk Hb) as (j & dj & Hj & Ha & Hdj & E). assert (j <> i) by (intros ->; congruence).
    exists j, dj. rewrite Haj, Hlk by (done || lia). done.
Qed.

Lemma test_bit_spec m i : 0 <= i < 64 * Z.of_nat (length m) -> test_bit i m = Ret (bit_at m i).
Proof.
  intros Hi. destruct (word_in_range m (i / 64)) as (w & Hl & E); [Z.div_mod_to_equations; lia|].
  unfold test_bit. rewrite E. cbn [obind]. by rewrite (test_bit_mask _ _ _ (proj1 Hi) Hl).
Qed.

Lemma next_bit m n s :
  bitmap_ok m -> 0 <= s <= n -> n <= 64 * Z.of_nat (length m) ->
  exists r, find_next_bit m n s = Ret r /\ is_next (bit_at m) n s r.
Proof.
  intros Hm Hs Hn. destruct (decide (s = n)) as [->|Hne]; [|apply find_next_bit_spec; [done|lia|done]].
  exists n. split; [apply _find_next_bit_past; lia|]. split; [lia|]. split; intros; lia.
Qed.

(** ** Entering the guest *)

(** Interrupt [j] of vcpu [c] went from pending to active between [s] and [s']. *)
Definition injected (s s' : virq_struct) (j : Z) : Prop :=
  pend s j = true /\ act s j = false /\ pend s' j = false /\ act s' j = true.

(** Part of an entry: some pending interrupts of [lo, hi) got a list register and were sent to the
    chip, nothing else changed. *)
Record carried (v v' : vm) (c : nat) (s s' : virq_struct) (lo hi : Z) : Prop := {
  cr_vs : vcpus v' !! c = Some s';
  cr_frame : frame v v' c (fun i => lo <= i < hi);
  cr_ok : vm_ok v';
  cr_lr : lr_ok v' c s';
  cr_nr : nr_lrs s' = nr_lrs s;
  cr_bits : forall j, 0 <= j < vm_irq_count v ->
    (pend s' j = pend s j /\ act s' j = act s j /\ look v' c j = look v c j) \/
    (lo <= j < hi /\ injected s s' j);
  cr_sent : exists l, hw_calls v' = hw_calls v ++ l /\ forall h, h ∈ l <->
    exists j d, 0 <= j < vm_irq_count v /\ injected s s' j /\ look v' c j = Some d /\ h = ChipSend c (vno d) (vd_id d);
}.

Lemma carried_refl v c s lo hi : vm_ok v -> vcpus v !! c = Some s -> lr_ok v c s -> carried v v c s s lo hi.
Proof.
  intros Hv Hs Hl. split; try done.
  - apply frame_refl.
  - intros j _. by left.
  - exists []. split; [by rewrite app_nil_r|]. intros h. split; [intros Hh; inversion Hh|].
    intros (j & d & _ & (_ & Ha & _ & Ha') & _). congruence.
Qed.

Lemma carried_weaken v v' c s s' lo hi lo' hi' :
  carried v v' c s s' lo hi -> lo' <= lo -> hi <= hi' -> carried v v' c s s' lo' hi'.
Proof.
  intros [] H1 H2. split; try done.
  - eapply frame_weaken; [done|]. cbn. intros; lia.
  - intros j Hj. destruct (cr_bits0 j Hj) as [?|[? ?]]; [by left|right; split; [lia|done]].
Qed.

Lemma carried_trans v v1 v2 c s s1 s2 lo hi :
  carried v v1 c s s1 lo hi -> carried v1 v2 c s1 s2 lo hi -> carried v v2 c s s2 lo hi.
Proof.
  intros [A1 A2 A3 A4 A5 A6 (l1 & A7 & A8)] [B1 B2 B3 B4 B5 B6 (l2 & B7 & B8)].
  pose proof (frame_count _ _ _ _ A2) as Ec. rewrite Ec in B6, B8.
  split; try done; [by eapply frame_trans|congruence| |].
  - intros j Hj. destruct (A6 j Hj) as [(P1 & Q1 & R1)|(Hr & Hp & Hq & Hp' & Hq')], (B6 j Hj) as [(P2 & Q2 & R2)|(Hr2 & Hp2 & Hq2 & Hp2' & Hq2')].
    + left. split_and!; congruence.
    + right. unfold injected. split_and!; try lia; congruence.
    + right. unfold injected. split_and!; try lia; congruence.
    + congruence.
  - exists (l1 ++ l2). split; [by rewrite B7, A7, app_assoc|]. intros h. rewrite elem_of_app, A8, B8. split.
    + intros [(j & d & Hj & (Hp & Hq & Hp' & Hq') & Hd & E)|(j & d & Hj & (Hp & Hq & Hp' & Hq') & Hd & E)]; exists j, d.
      * destruct (B6 j Hj) as [(P2 & Q2 & R2)|(_ & X & _)]; [|congruence]. unfold injected. split_and!; try (lia || congruence).
      * destruct (A6 j Hj) as [(P2 & Q2 & R2)|(_ & _ & _ & X & _)]; [|congruence]. unfold injected. split_and!; try (lia || congruence).
    + intros (j & d & Hj & (Hp & Hq & Hp' & Hq') & Hd & E).
      destruct (B6 j Hj) as [(P2 & Q2 & R2)|(_ & X)].
      * left. exists j, d. unfold injected. split_and!; try (lia || congruence).
      * right. exists j, d. done.
Qed.

Lemma upd_desc_calls v c r f : hw_calls (upd_desc v c r f) = hw_calls v.
Proof. by destruct r. Qed.

Lemma inject_calls v c r i id d v' : desc_at v c r = Ret d -> inject v c r i id = Ret v' ->
  hw_calls v' = hw_calls v ++ [ChipSend c (vno d) id].
Proof.
  intros Hd. unfold inject. rewrite Hd. cbn [obind]. intros E. outcome_inv. cbn.
  rewrite upd_desc_calls. cbn. by rewrite upd_desc_calls.
Qed.

(** One injection is a part of an entry. *)
Lemma inject_carried v c s i r d id :
  vm_ok v -> vcpus v !! c = Some s -> lr_ok v c s -> 0 <= i < vm_irq_count v -> get_virq_desc v i = Some r ->
  look v c i = Some d -> pend s i = true -> act s i = false -> 0 <= id < nr_lrs s -> bit_at (lrs_bitmap s) id = false ->
  exists v' s', inject v c r i id = Ret v' /\ carried v v' c s s' i (i + 1) /\ injected s s' i /\ last_fail_virq s' = last_fail_virq s.
Proof.
  intros Hv Hs Hl Hi Er Hd Hp Ha Hid Hfree. pose proof (so_nr _ _ (vcpu_ok v c s Hv Hs)) as Hnr.
  destruct (inject_spec v c s i r d id Hv Hs Hi Er Hd Hp Hid) as (v' & s' & E & M & Up & Ua & Ul & Hd').
  exists v', s'. split; [done|].
  assert (Hpi : pend s' i = false) by (apply (updated_at _ _ _ _ Up); lia).
  assert (Hai : act s' i = true) by (apply (updated_at _ _ _ _ Ua); lia).
  assert (Hin : forall j, 0 <= j -> injected s s' j <-> j = i).
  { intros j Hj. split; [|intros ->; done]. intros (_ & H1 & _ & H2). destruct (decide (j = i)); [done|].
    unfold act in H1, H2. rewrite (updated_other _ _ _ _ _ Ua) in H2 by done. congruence. }
  split; [|split; [by apply Hin; [lia|]|exact (mv_fail _ _ _ _ _ _ M)]]. split; try apply M.
  - eapply frame_weaken; [apply M|]. cbn. intros; lia.
  - by apply (inject_lr_ok v v' c s s' i d id); try done; lia.
  - intros j Hj. destruct (decide (j = i)) as [->|Hne]; [right; split; [lia|done]|left].
    split_and!; [apply (updated_other _ _ _ _ _ Up); [lia|done]|apply (updated_other _ _ _ _ _ Ua); [lia|done]|].
    apply M. left. congruence.
  - exists [ChipSend c (vno d) id]. split; [apply (inject_calls v c r i id d); [apply (look_ref v c i); [lia|done|done]|done]|].
    assert (Hw : u8 id = id) by (apply wrap_small; lia).
    intros h. rewrite list_elem_of_singleton. split.
    + intros ->. exists i, (set_state VIRQ_STATE_PENDING (set_id id d)). cbn. rewrite Hw. by rewrite Hin by lia.
    + intros (j & dj & Hj & Hij & Hdj & ->). apply Hin in Hij as ->; [|lia]. rewrite Hd' in Hdj. injection Hdj as <-. cbn. by rewrite Hw.
Qed.

(** A pass over [lo, hi) leaves behind only interrupts whose earlier occurrence the guest has not
    finished, or stops, with every list register in use, at the interrupt it remembers. *)
Definition swept (s s' : virq_struct) (lo hi : Z) : Prop :=
  (last_fail_virq s' = last_fail_virq s /\ forall j, lo <= j < hi -> pend s' j = true -> act s' j = true) \/
  (exists b, last_fail_virq s' = b /\ lo <= b < hi /\ pend s' b = true /\ act s' b = false /\
    (forall j, lo <= j < b -> pend s' j = true -> act s' j = true) /\
    forall k, 0 <= k < nr_lrs s' -> bit_at (lrs_bitmap s') k = true).

Lemma swept_back v v' c s s' lo b hi :
  carried v v' c s s' b hi -> 0 <= lo <= b -> b <= hi <= vm_irq_count v ->
  (forall j, lo <= j < b -> pend s j = true -> act s j = true) -> swept s s' b hi -> swept s s' lo hi.
Proof.
  intros C Hb Hhi Hgap Hsw.
  assert (Hfront : forall j, lo <= j < b -> pend s' j = true -> act s' j = true).
  { intros j Hj Hp. destruct (cr_bits _ _ _ _ _ _ _ C j) as [(E1 & E2 & _)|(? & _)]; [lia| |lia].
    rewrite E1 in Hp. rewrite E2. by apply Hgap. }
  destruct Hsw as [[Hf Hall]|(b0 & Hf & Hr & Hp & Ha & Hall & Hfull)]; [left|right].
  - split; [done|]. intros j Hj. destruct (decide (j < b)); [apply Hfront; lia|apply Hall; lia].
  - exists b0. split_and!; try done; try lia. intros j Hj. destruct (decide (j < b)); [apply Hfront; lia|apply Hall; lia].
Qed.

Lemma next_gap s lo b hi : is_next (bit_at (pending_bitmap s)) hi (lo + 1) b -> (pend s lo = true -> act s lo = true) ->
  forall j, lo <= j < b -> pend s j = true -> act s j = true.
Proof.
  intros (_ & Hgap & _) Hlo j Hj Hp. destruct (decide (j = lo)) as [->|Hne]; [by apply Hlo|].
  unfold pend in Hp. rewrite Hgap in Hp by lia. done.
Qed.

Lemma set_fail_carried v c s b lo hi : vm_ok v -> vcpus v !! c = Some s -> lr_ok v c s ->
  carried v (put_vs v c (set_fail s b)) c s (set_fail s b) lo hi.
Proof.
  intros Hv Hs Hl. destruct (put_vs_spec v c s (set_fail s b) (fun i => lo <= i < hi) Hs eq_refl) as (Hs' & F & Lk).
  assert (Hso : vs_ok (vm_irq_count v) (set_fail s b)) by (by destruct (vcpu_ok v c s Hv Hs); split).
  split; try done.
  - exact (vm_ok_frame v _ c _ _ Hv F Hs' Hso).
  - destruct Hl as [H1 H2 H3]. split.
    + intros i d Hi Ha. rewrite Lk. by apply H1.
    + intros i j di dj Hi Hj Hai Haj. rewrite !Lk. by apply H2.
    + intros k Hk Hb. destruct (H3 k Hk Hb) as (i & d & Hi & Ha & Hd & E). exists i, d. by rewrite Lk.
  - intros j _. left. by rewrite Lk.
  - exists []. split; [by rewrite app_nil_r|]. intros h. split; [intros Hh; inversion Hh|].
    intros (j & d & _ & (_ & Ha & _ & Ha') & _). cbn in Ha'. unfold act in *. cbn in Ha'. congruence.
Qed.

Lemma enter_loop_spec n c hi :
  forall v s bit flags, vm_ok v -> vcpus v !! c = Some s -> lr_ok v c s -> 0 <= bit <= hi -> hi <= vm_irq_count v ->
  (bit < hi -> pend s bit = true) -> (Z.to_nat (hi - bit) < n)%nat ->
  exists f v' s', enter_loop n v c bit hi flags = Ret (f, v') /\ carried v v' c s s' bit hi /\ swept s s' bit hi.
Proof.
  induction n as [|n IH]; intros v s bit flags Hv Hs Hl Hb Hhi Hp Hn; [lia|]. cbn [enter_loop].
  rewrite (get_vs_Ret v c s Hs). cbn [obind]. destruct (Z.ltb_spec bit hi) as [Hlt|Hge].
  2: { exists flags, v, s. split; [done|]. split; [by apply carried_refl|]. left. split; [done|]. intros; lia. }
  pose proof (vcpu_ok v c s Hv Hs) as Hso. destruct (irq_ref v bit) as (r & Er & _); [lia|].
  destruct (look_exists v c s bit Hv Hs) as (d & Hd); [lia|].
  rewrite Er, (look_ref v c bit r d) by (done || lia). cbn [obind].
  rewrite test_bit_spec by (pose proof (so_alen _ _ Hso); lia). cbn [obind]. fold (act s bit).
  destruct (act s bit) eqn:Ea.
  - destruct (next_bit (pending_bitmap s) hi (bit + 1) (so_pending _ _ Hso)) as (b & Eb & Hnext); [lia|pose proof (so_plen _ _ Hso); lia|].
    rewrite Eb. cbn [obind]. pose proof Hnext as (Hr & _ & Hnp).
    destruct (IH v s b flags Hv Hs Hl) as (f & v' & s' & E & C & W); [lia|lia|done|lia|].
    exists f, v', s'. split; [done|]. split; [apply (carried_weaken _ _ _ _ _ b hi); [done|lia|lia]|].
    apply (swept_back v v' c s s' bit b hi); try done; try lia. by apply next_gap with (hi := hi).
  - destruct (find_first_zero_bit_spec (lrs_bitmap s) (nr_lrs s) (so_lrs _ _ Hso)) as (id & Eid & Hid & Hused & Hfree);
      [pose proof (so_nr _ _ Hso); lia|]. rewrite Eid. cbn [obind]. destruct (Z.leb_spec (nr_lrs s) id) as [Hfull|Hroom].
    + exists flags, (put_vs v c (set_fail s bit)), (set_fail s bit). split; [done|]. split; [by apply set_fail_carried|].
      right. exists bit. split_and!; try done; try lia; [by apply Hp|]. intros k Hk. apply negb_false_iff, Hused. cbn in Hk. lia.
    + destruct (inject_carried v c s bit r d id Hv Hs Hl ltac:(lia) Er Hd (Hp Hlt) Ea ltac:(lia)) as (v1 & s1 & E1 & C1 & J1 & F1).
      { apply negb_true_iff, Hfree. lia. }
      rewrite E1. cbn [obind]. pose proof (cr_vs _ _ _ _ _ _ _ C1) as Hs1. rewrite (get_vs_Ret v1 c s1 Hs1). cbn [obind].
      pose proof (frame_count _ _ _ _ (cr_frame _ _ _ _ _ _ _ C1)) as Ec. pose proof (cr_ok _ _ _ _ _ _ _ C1) as Hv1.
      pose proof (vcpu_ok v1 c s1 Hv1 Hs1) as Hso1. rewrite Ec in Hso1.
      destruct (next_bit (pending_bitmap s1) hi (bit + 1) (so_pending _ _ Hso1)) as (b & Eb & Hnext); [lia|pose proof (so_plen _ _ Hso1); lia|].
      rewrite Eb. cbn [obind]. pose proof Hnext as (Hr & _ & Hnp). set (fl := u32 _).
      destruct (IH v1 s1 b fl Hv1 Hs1 (cr_lr _ _ _ _ _ _ _ C1)) as (f & v' & s' & E & C & W); [lia|lia|done|lia|].
      exists f, v', s'. split; [done|]. split.
      { apply (carried_trans v v1 v' c s s1 s'); [apply (carried_weaken _ _ _ _ _ bit (bit + 1)); [done|lia|lia]|].
        apply (carried_weaken _ _ _ _ _ b hi); [done|lia|lia]. }
      assert (W' : swept s1 s' bit hi).
      { apply (swept_back v1 v' c s1 s' bit b hi); try done; try lia. apply next_gap with (hi := hi); [done|]. intros _. by apply J1. }
      destruct W' as [[Hf Hall]|Hstuck]; [left; split; [congruence|done]|by right].
Qed.

(** A pass of an entry: the search for its first interrupt and the loop. *)
Lemma pass_spec n v c s lo hi flags :
  vm_ok v -> vcpus v !! c = Some s -> lr_ok v c s -> 0 <= lo -> 0 <= hi <= vm_irq_count v -> (Z.to_nat hi < n)%nat ->
  exists bit f v' s', find_next_bit (pending_bitmap s) hi lo = Ret bit /\ enter_loop n v c bit hi flags = Ret (f, v') /\
    carried v v' c s s' 0 hi /\ swept s s' lo hi.
Proof.
  intros Hv Hs Hl Hlo Hhi Hn. pose proof (vcpu_ok v c s Hv Hs) as Hso.
  destruct (decide (lo <= hi)) as [Hle|Hgt].
  - destruct (next_bit (pending_bitmap s) hi lo (so_pending _ _ Hso)) as (bit & Eb & Hr & Hgap & Hp); [lia|pose proof (so_plen _ _ Hso); lia|].
    destruct (enter_loop_spec n c hi v s bit flags Hv Hs Hl) as (f & v' & s' & E & C & W); [lia|lia|done|lia|].
    exists bit, f, v', s'. split_and!; [done|done|apply (carried_weaken _ _ _ _ _ bit hi); [done|lia|lia]|].
    apply (swept_back v v' c s s' lo bit hi); try done; try lia. intros j Hj Hpj. unfold pend in Hpj. rewrite Hgap in Hpj; done.
  - exists hi. unfold find_next_bit. rewrite _find_next_bit_past by lia.
    destruct (enter_loop_spec n c hi v s hi flags Hv Hs Hl) as (f & v' & s' & E & C & W); [lia|lia|lia|lia|].
    exists f, v', s'. split_and!; [done|done|apply (carried_weaken _ _ _ _ _ hi hi); [done|lia|lia]|].
    destruct W as [[Hf _]|(b & _ & ? & _)]; [left|lia]. split; [done|]. intros; lia.
Qed.

(** What entering the guest achieves: the interrupts below [scanned] that are still pending wait for
    the end of an earlier occurrence, or no list register is left. *)
Definition drained (s' : virq_struct) (scanned : Z) : Prop :=
  (forall j, 0 <= j < scanned -> pend s' j = true -> act s' j = true) \/
  (pend s' (last_fail_virq s') = true /\ act s' (last_fail_virq s') = false /\
   forall k, 0 <= k < nr_lrs s' -> bit_at (lrs_bitmap s') k = true).

Lemma enter_spec v c s :
  vm_ok v -> vcpus v !! c = Some s -> lr_ok v c s -> 0 <= last_fail_virq s < vm_irq_count v ->
  exists f v' s', vgic_irq_enter_to_guest v c = Ret (f, v') /\ carried v v' c s s' 0 (vm_irq_count v) /\
    0 <= last_fail_virq s' < vm_irq_count v /\
    drained s' (Z.max (last_fail_virq s) (vm_irq_count v - last_fail_virq s)).
Proof.
  intros Hv Hs Hl Hold. unfold vgic_irq_enter_to_guest. rewrite (get_vs_Ret v c s Hs). cbn [obind].
  set (old := last_fail_virq s) in *. set (size := vm_irq_count v - old) in *.
  pose proof (set_fail_carried v c s 0 0 (vm_irq_count v) Hv Hs Hl) as C0. set (s0 := set_fail s 0) in *. set (v0 := put_vs v c s0) in *.
  change (pending_bitmap s) with (pending_bitmap s0). change (vm_irq_count v0) with (vm_irq_count v).
  set (n := S (Z.to_nat (vm_irq_count v))).
  destruct (pass_spec n v0 c s0 old size 0) as (bit & f1 & v1 & s1 & Eb & E1 & C1 & W1); try apply C0; [lia|change (vm_irq_count v0) with (vm_irq_count v); lia|lia|].
  rewrite Eb. cbn [obind]. rewrite E1. cbn [obind]. rewrite (get_vs_Ret v1 c s1) by apply C1. cbn [obind].
  assert (C01 : carried v v1 c s s1 0 (vm_irq_count v)).
  { apply (carried_trans v v0 v1 c s s0 s1); [done|]. apply (carried_weaken _ _ _ _ _ 0 size); [done|lia|lia]. }
  assert (Ec1 : vm_irq_count v1 = vm_irq_count v) by (apply (frame_count _ _ _ _ (cr_frame _ _ _ _ _ _ _ C01))).
  destruct (negb (old =? 0) && (last_fail_virq s1 =? 0)) eqn:Eg.
  - apply andb_true_iff in Eg as [Eo Ef]. apply negb_true_iff, Z.eqb_neq in Eo. apply Z.eqb_eq in Ef.
    destruct (pass_spec n v1 c s1 0 old f1) as (bit2 & f2 & v2 & s2 & Eb2 & E2 & C2 & W2); try apply C01; [lia|lia|lia|].
    rewrite Eb2. cbn [obind]. exists f2, v2, s2. split; [done|].
    split; [apply (carried_trans v v1 v2 c s s1 s2); [done|]; apply (carried_weaken _ _ _ _ _ 0 old); [done|lia|lia]|].
    destruct W2 as [[Hf2 Hall2]|(b & Hf2 & Hr & Hp & Ha & _ & Hfull)]; [|split; [lia|right; rewrite Hf2; done]].
    split; [lia|left]. intros j Hj Hp. destruct (decide (j < old)); [apply Hall2; [lia|done]|].
    destruct W1 as [[_ Hall1]|(b & Hf1 & ? & _)]; [|lia].
    destruct (cr_bits _ _ _ _ _ _ _ C2 j) as [(X & Y & _)|(? & _)]; [lia| |lia]. rewrite X in Hp. rewrite Y. apply Hall1; [lia|done].
  - exists f1, v1, s1. split; [done|]. split; [done|]. apply andb_false_iff in Eg.
    destruct W1 as [[Hf1 Hall1]|(b & Hf1 & Hr & Hp & Ha & _ & Hfull)]; [|split; [lia|right; rewrite Hf1; done]].
    cbn in Hf1. split; [lia|left]. intros j Hj. apply Hall1. destruct Eg as [Eg|Eg]; [apply negb_false_iff, Z.eqb_eq in Eg; lia|].
    apply Z.eqb_neq in Eg. lia.
Qed.

(** ** Leaving the guest *)

Lemma lr_ok_like v v1 c s s1 :
  lr_ok v c s -> nr_lrs s1 = nr_lrs s -> active_bitmap s1 = active_bitmap s -> lrs_bitmap s1 = lrs_bitmap s ->
  vm_irq_count v1 = vm_irq_count v -> (forall j, vd_id <$> look v1 c j = vd_id <$> look v c j) -> lr_ok v1 c s1.
Proof.
  intros [H1 H2 H3] E1 E6 E7 Ec Hlk. unfold act in *.
  assert (Hback : forall j d1, look v1 c j = Some d1 -> exists d, look v c j = Some d /\ vd_id d = vd_id d1).
  { intros j d1 Hd. specialize (Hlk j). rewrite Hd in Hlk. destruct (look v c j); simplify_eq/=. eauto. }
  split; rewrite ?Ec, ?E1, ?E7; unfold act; rewrite ?E6.
  - intros i d Hi Ha Hd. destruct (Hback i d Hd) as (d0 & Hd0 & <-). by apply (H1 i).
  - intros i j di dj Hi Hj Hai Haj Hdi Hdj E. destruct (Hback i di Hdi) as (? & ? & ?), (Hback j dj Hdj) as (? & ? & ?).
    eapply (H2 i j); try done. congruence.
  - intros k Hk Hb. destruct (H3 k Hk Hb) as (i & d & Hi & Ha & Hd & E). specialize (Hlk i). rewrite Hd in Hlk.
    destruct (look v1 c i) as [d1|] eqn:Hd1; simplify_eq/=. exists i, d1. by split_and!; try lia; try congruence.
Qed.

(** What the guest left of an active interrupt with descriptor [d]; [st] reads a list register. *)
Definition left_by (st : Z -> Z) (d : virq_desc) (a : bool) (d' : virq_desc) : Prop :=
  if u8 (st (vd_id d)) =? VIRQ_STATE_INACTIVE
  then a = false /\ d' = set_id VIRQ_INVALID_ID (set_state (st (vd_id d)) d)
  else a = true /\ d' = set_state (st (vd_id d)) d.

(** Part of an exit: the active interrupts in [T] were brought up to date. *)
Record exited (st : Z -> Z) (v v' : vm) (c : nat) (s s' : virq_struct) (T : Z -> Prop) : Prop := {
  ex_vs : vcpus v' !! c = Some s';
  ex_frame : frame v v' c T;
  ex_ok : vm_ok v';
  ex_lr : lr_ok v' c s';
  ex_nr : nr_lrs s' = nr_lrs s /\ last_fail_virq s' = last_fail_virq s /\ pending_bitmap s' = pending_bitmap s;
  ex_same : forall j, 0 <= j < vm_irq_count v -> ~ T j \/ act s j = false -> act s' j = act s j /\ look v' c j = look v c j;
  ex_bits : forall j d, 0 <= j < vm_irq_count v -> T j -> act s j = true -> look v c j = Some d ->
    exists d', look v' c j = Some d' /\ left_by st d (act s' j) d';
}.

(** The body of the loop for one active interrupt. *)
Lemma exit_one st v c s i r d :
  vm_ok v -> vcpus v !! c = Some s -> lr_ok v c s -> 0 <= i < vm_irq_count v -> get_virq_desc v i = Some r ->
  look v c i = Some d -> act s i = true ->
  exists v' s', (let v := upd_desc v c r (set_state (st (vd_id d))) in
      if u8 (st (vd_id d)) =? VIRQ_STATE_INACTIVE then retire v c r i else Ret v) = Ret v' /\ exited st v v' c s s' (eq i).
Proof.
  intros Hv Hs Hl Hi Er Hd Ha. set (f := set_state (st (vd_id d))).
  destruct (upd_desc_spec v c s i r d f Hv Hs Hi Er Hd) as (s1 & Hs1 & L1 & F1 & Hd1); [done|].
  set (v1 := upd_desc v c r f) in *. pose proof (frame_count _ _ _ _ F1) as Ec.
  pose proof (vs_ok_like _ _ _ (vcpu_ok v c s Hv Hs) L1) as Hso1. pose proof (vm_ok_frame v v1 c _ s1 Hv F1 Hs1 Hso1) as Hv1.
  assert (Hl1 : lr_ok v1 c s1).
  { apply (lr_ok_like v v1 c s s1 Hl); try apply L1; [done|]. intros j. destruct (decide (j = i)) as [->|Hne]; [by rewrite Hd1, Hd|].
    rewrite (f_desc _ _ _ _ F1); [done|]. left. congruence. }
  destruct (lr_own _ _ _ Hl i d Hi Ha Hd) as [Hid _].
  pose proof L1 as (E1 & E2 & E3 & E4 & E5 & E6 & E7 & E8).
  assert (Ha1 : forall j, act s1 j = act s j) by (intros j; unfold act; by rewrite E6). cbn zeta.
  destruct (u8 (st (vd_id d)) =? VIRQ_STATE_INACTIVE) eqn:Est.
  - destruct (retire_spec v1 c s1 i r (f d) Hv1 Hs1) as (v2 & s2 & E & M & Ep & Ua & Ul & Hd2); try done.
    { by rewrite Ec. }
    { by rewrite (frame_ref _ _ _ _ _ F1). }
    { cbn. by rewrite E1. }
    exists v2, s2. split; [done|]. pose proof (mv_frame _ _ _ _ _ _ M) as F2. split; try apply M.
    + by eapply frame_trans.
    + apply (retire_lr_ok v1 v2 c s1 s2 i (f d)); try done; by rewrite ?Ec, ?Ha1.
    + rewrite (mv_nr _ _ _ _ _ _ M), (mv_fail _ _ _ _ _ _ M), Ep. done.
    + intros j Hj Hor. assert (Hne : j <> i) by (intros ->; destruct Hor; congruence). rewrite <- Ha1. split.
      * apply (updated_other _ _ _ _ _ Ua); [lia|done].
      * rewrite (f_desc _ _ _ _ F2), (f_desc _ _ _ _ F1); [done| |]; left; congruence.
    + intros j d' Hj <- _ Hd'. rewrite Hd in Hd'. injection Hd' as <-. eexists. split; [done|]. unfold left_by. rewrite Est.
      split; [|done]. apply (updated_at _ _ _ _ Ua). lia.
  - exists v1, s1. split; [done|]. split; try done.
    + intros j Hj Hor. assert (Hne : j <> i) by (intros ->; destruct Hor; congruence). split; [done|].
      apply (f_desc _ _ _ _ F1). left. congruence.
    + intros j d' Hj <- _ Hd'. rewrite Hd in Hd'. injection Hd' as <-. eexists. split; [done|]. unfold left_by. rewrite Est.
      by rewrite Ha1.
Qed.

Lemma exited_step st v v1 v2 c s s1 s2 i b :
  exited st v v1 c s s1 (eq i) -> exited st v1 v2 c s1 s2 (fun j => b <= j) -> 0 <= i < b ->
  (forall j, i < j < b -> act s1 j = false) -> exited st v v2 c s s2 (fun j => i <= j).
Proof.
  intros [A1 A2 A3 A4 (A5 & A5' & A5'') A6 A7] [B1 B2 B3 B4 (B5 & B5' & B5'') B6 B7] Hib Hgap.
  pose proof (frame_count _ _ _ _ A2) as Ec. rewrite Ec in B6, B7. split; try done.
  - apply (frame_trans v v1 v2); [apply (frame_weaken _ _ _ _ _ A2); intros; subst; lia|apply (frame_weaken _ _ _ _ _ B2); intros; lia].
  - split_and!; congruence.
  - intros j Hj Hor. assert (Hne : i <> j \/ act s j = false) by (destruct Hor; [left; lia|by right]).
    destruct (A6 j Hj) as [P1 Q1]; [by destruct Hne; [left|right]|].
    destruct (B6 j Hj) as [P2 Q2]; [destruct Hor; [left; lia|right; congruence]|]. split; congruence.
  - intros j d Hj Hi Ha Hd. destruct (decide (j = i)) as [->|Hne].
    + destruct (A7 i d Hj eq_refl Ha Hd) as (d' & Hd' & Hleft). destruct (B6 i Hj) as [P2 Q2]; [left; lia|].
      exists d'. split; [congruence|]. by rewrite P2.
    + destruct (A6 j Hj) as [P1 Q1]; [left; congruence|]. apply B7; [done| |congruence|congruence].
      destruct (decide (b <= j)); [done|]. rewrite Hgap in P1 by lia. congruence.
Qed.

Lemma exit_loop_spec st c n :
  forall v s bit, vm_ok v -> vcpus v !! c = Some s -> lr_ok v c s -> 0 <= bit <= vm_irq_count v ->
  (bit < vm_irq_count v -> act s bit = true) -> (Z.to_nat (vm_irq_count v - bit) < n)%nat ->
  exists v' s', exit_loop n v c bit st = Ret v' /\ exited st v v' c s s' (fun j => bit <= j).
Proof.
  induction n as [|n IH]; intros v s bit Hv Hs Hl Hb Ha Hn; [lia|]. cbn [exit_loop].
  rewrite (get_vs_Ret v c s Hs). cbn [obind]. destruct (Z.ltb_spec bit (vm_irq_count v)) as [Hlt|Hge].
  2: { exists v, s. split; [done|]. split; try done; [apply frame_refl|]. intros; lia. }
  destruct (irq_ref v bit) as (r & Er & _); [lia|]. destruct (look_exists v c s bit Hv Hs) as (d & Hd); [lia|].
  rewrite Er, (look_ref v c bit r d) by (done || lia). cbn [obind].
  destruct (exit_one st v c s bit r d Hv Hs Hl) as (v1 & s1 & E1 & X1); [lia|done|done|by apply Ha|].
  cbn zeta in E1 |- *. rewrite E1. cbn [obind]. pose proof (ex_vs _ _ _ _ _ _ _ X1) as Hs1. pose proof (ex_ok _ _ _ _ _ _ _ X1) as Hv1.
  rewrite (get_vs_Ret v1 c s1 Hs1). cbn [obind]. pose proof (frame_count _ _ _ _ (ex_frame _ _ _ _ _ _ _ X1)) as Ec.
  pose proof (vcpu_ok v1 c s1 Hv1 Hs1) as Hso1. rewrite Ec in *.
  destruct (next_bit (active_bitmap s1) (vm_irq_count v) (bit + 1) (so_active _ _ Hso1)) as (b & Eb & Hr & Hgap & Hnb); [lia|pose proof (so_alen _ _ Hso1); lia|].
  rewrite Eb. cbn [obind].
  destruct (IH v1 s1 b Hv1 Hs1 (ex_lr _ _ _ _ _ _ _ X1)) as (v2 & s2 & E2 & X2); [lia|by rewrite Ec|lia|].
  exists v2, s2. split; [done|]. apply (exited_step st v v1 v2 c s s1 s2 bit b X1 X2); [lia|]. intros j Hj. apply Hgap. lia.
Qed.

Lemma exit_spec st v c s :
  vm_ok v -> vcpus v !! c = Some s -> lr_ok v c s ->
  exists v' s', vgic_irq_exit_from_guest v c st = Ret v' /\ exited st v v' c s s' (fun j => 0 <= j).
Proof.
  intros Hv Hs Hl. unfold vgic_irq_exit_from_guest. rewrite (get_vs_Ret v c s Hs). cbn [obind].
  pose proof (vcpu_ok v c s Hv Hs) as Hso. pose proof (vo_nr _ Hv) as [Hn _].
  assert (0 <= vm_irq_count v) by (unfold vm_irq_count; change VM_LOCAL_VIRQ_NR with 32; lia).
  destruct (find_first_bit_spec (active_bitmap s) (vm_irq_count v) (so_active _ _ Hso)) as (b & Eb & Hr & Hgap & Hb); [pose proof (so_alen _ _ Hso); lia|].
  rewrite Eb. cbn [obind].
  destruct (exit_loop_spec st c (S (Z.to_nat (vm_irq_count v))) v s b Hv Hs Hl) as (v' & s' & E & X); [lia|done|lia|].
  exists v', s'. split; [done|]. destruct X as [X1 X2 X3 X4 X5 X6 X7]. split; try done.
  - apply (frame_weaken _ _ _ _ _ X2). intros; lia.
  - intros j Hj [?|Ha]; [lia|]. by apply X6; [|right].
  - intros j d Hj _ Ha Hd. apply X7; try done. destruct (decide (b <= j)); [done|]. unfold act in Ha. rewrite Hgap in Ha by lia. done.
Qed.

(** A list register is busy after the exit iff it was busy and does not show an inactive interrupt. *)
Lemma exited_registers st v v' c s s' :
  vm_ok v -> vcpus v !! c = Some s -> lr_ok v c s -> exited st v v' c s s' (fun j => 0 <= j) -> forall k, 0 <= k < nr_lrs s ->
  bit_at (lrs_bitmap s') k = bit_at (lrs_bitmap s) k && negb (u8 (st k) =? VIRQ_STATE_INACTIVE).
Proof.
  intros Hv Hs Hl [X1 X2 X3 X4 (X5 & _) X6 X7] k Hk. pose proof (frame_count _ _ _ _ X2) as Ec. apply eq_true_iff_eq. rewrite andb_true_iff, negb_true_iff. split.
  - intros Hb. destruct (lr_used _ _ _ X4 k ltac:(lia) Hb) as (j & d' & Hj & Ha' & Hd' & Ed'). rewrite Ec in Hj.
    destruct (look_exists v c s j Hv Hs Hj) as (d & Hd). destruct (act s j) eqn:Ha.
    2: { destruct (X6 j Hj) as [? _]; [by right|congruence]. }
    destruct (X7 j d Hj ltac:(lia) Ha Hd) as (d2 & Hd2 & Hleft). rewrite Hd' in Hd2. injection Hd2 as <-. unfold left_by in Hleft.
    destruct (u8 (st (vd_id d)) =? _) eqn:Est; [destruct Hleft; congruence|]. destruct Hleft as [_ ->]. cbn in Ed'. subst k.
    split; [|done]. by apply (lr_own _ _ _ Hl j d).
  - intros [Hb Est]. destruct (lr_used _ _ _ Hl k Hk Hb) as (j & d & Hj & Ha & Hd & <-).
    destruct (X7 j d Hj ltac:(lia) Ha Hd) as (d2 & Hd2 & Hleft). unfold left_by in Hleft. rewrite Est in Hleft. destruct Hleft as [Ha2 ->].
    rewrite <- Ec in Hj. by apply (lr_own _ _ _ X4 j _ Hj Ha2 Hd2).
Qed.

(** ** The invariant of delivery *)

(** SPI [j] is routed to vcpu [c]. *)
Definition owns (v : vm) (c : nat) (j : Z) : Prop := exists d, look v c j = Some d /\ vcpu_id d = Z.of_nat c.

(** ... and [j] is the number it was requested with. *)
Definition homed (v : vm) (c : nat) (j : Z) : Prop := exists d, look v c j = Some d /\ vcpu_id d = Z.of_nat c /\ vno d = j.

Lemma homed_owns v c j : homed v c j -> owns v c j.
Proof. intros (d & Hd & E & _). by exists d. Qed.

Record vgic_ok (v : vm) : Prop := {
  vg_ok : vm_ok v;
  vg_desc : forall c j d, look v c j = Some d ->
    0 <= vno d < vm_irq_count v /\ (VM_LOCAL_VIRQ_NR <= vno d -> vno d = j) /\ 0 <= vcpu_id d /\
    (VM_LOCAL_VIRQ_NR <= j -> vcpu_id d < Z.of_nat (length (vcpus v))) /\
    (VM_LOCAL_VIRQ_NR <= vno d -> virq_is_requested d = true) /\
    (VM_LOCAL_VIRQ_NR <= j -> virq_is_requested d = true -> vno d = j);
  vg_lr : forall c s, vcpus v !! c = Some s -> lr_ok v c s;
  vg_fail : forall c s, vcpus v !! c = Some s -> 0 <= last_fail_virq s < vm_irq_count v;
  vg_home : forall c s j, vcpus v !! c = Some s -> VM_LOCAL_VIRQ_NR <= j < vm_irq_count v ->
    pend s j = true \/ act s j = true -> homed v c j;
  vg_map : bitmap_ok (vspi_map v) /\ vspi_nr v <= 64 * Z.of_nat (length (vspi_map v));
  vg_reserved : forall c j d, VM_LOCAL_VIRQ_NR <= j -> look v c j = Some d ->
    bit_at (vspi_map v) (j - VM_LOCAL_VIRQ_NR) = virq_is_requested d;
}.

Lemma lr_ok_ext v v' c s :
  lr_ok v c s -> vm_irq_count v' = vm_irq_count v ->
  (forall j, 0 <= j < vm_irq_count v -> act s j = true -> look v' c j = look v c j) -> lr_ok v' c s.
Proof.
  intros [H1 H2 H3] Ec Hlk. split; rewrite ?Ec.
  - intros i d Hi Ha Hd. rewrite Hlk in Hd by done. by apply (H1 i d).
  - intros i j di dj Hi Hj Hai Haj Hdi Hdj. rewrite Hlk in Hdi, Hdj by done. by apply (H2 i j di dj).
  - intros k Hk Hb. destruct (H3 k Hk Hb) as (i & d & Hi & Ha & Hd & E). exists i, d. by rewrite Hlk.
Qed.

Lemma look_any v c c' i : VM_LOCAL_VIRQ_NR <= i < vm_irq_count v -> look v c i = look v c' i.
Proof. intros Hi. by rewrite !look_spi. Qed.

(** An operation of vcpu [c] that touches only SPIs routed to [c] keeps the invariant, if it keeps
    the state of [c] in order. *)
Lemma vgic_step v v' c T s s' :
  vgic_ok v -> vcpus v !! c = Some s -> vcpus v' !! c = Some s' -> frame v v' c T -> vm_ok v' -> lr_ok v' c s' ->
  0 <= last_fail_virq s' < vm_irq_count v ->
  (forall j, VM_LOCAL_VIRQ_NR <= j < vm_irq_count v -> pend s' j = true \/ act s' j = true ->
     (pend s j = true \/ act s j = true) \/ homed v c j) ->
  (forall j, VM_LOCAL_VIRQ_NR <= j < vm_irq_count v -> look v' c j = look v c j \/ owns v c j) ->
  vgic_ok v'.
Proof.
  intros [G1 G2 G3 G4 G5 G6 G7] Hs Hs' F Hv' Hl Hf Hbits Htouch. pose proof (frame_count _ _ _ _ F) as Ec.
  assert (Hold : forall c' s0, c' <> c -> vcpus v' !! c' = Some s0 -> vcpus v !! c' = Some s0)
    by (intros c' s0 Hc H; by rewrite (f_other _ _ _ _ F) in H).
  assert (Hown : forall c' j, VM_LOCAL_VIRQ_NR <= j < vm_irq_count v -> homed v c' j -> homed v' c' j).
  { intros c' j Hj (d & Hd & E & En). destruct (look_exists v' c s' j Hv' Hs') as (d' & Hd').
    { rewrite Ec. change VM_LOCAL_VIRQ_NR with 32 in Hj. lia. }
    rewrite (look_any v' c c') in Hd' by lia. destruct (f_static _ _ _ _ F c' j d' Hd') as (d0 & Hd0 & En' & E' & _).
    exists d'. split; [done|]. split; congruence. }
  split; rewrite ?Ec; try done.
  - rewrite (f_len _ _ _ _ F). intros c' j d' Hd'. destruct (f_static _ _ _ _ F c' j d' Hd') as (d & Hd & -> & -> & Ef).
    unfold virq_is_requested, has_flag. rewrite Ef. by apply (G2 c' j).
  - intros c' s0 H0. destruct (decide (c' = c)) as [->|Hc]; [by simplify_eq|]. pose proof (Hold c' s0 Hc H0) as H1.
    apply (lr_ok_ext v); [by apply G3|done|]. intros j Hj Ha. destruct (decide (j < VM_LOCAL_VIRQ_NR)); [by apply F; right|].
    assert (Hj' : VM_LOCAL_VIRQ_NR <= j < vm_irq_count v) by lia.
    destruct (Htouch j Hj') as [E|(d & Hd & E)]; [rewrite (look_any v' c' c), (look_any v c' c); [done|done|by rewrite Ec]|].
    destruct (G5 c' s0 j H1 Hj' (or_intror Ha)) as (d' & Hd' & E' & _). rewrite (look_any v c' c) in Hd' by done. simplify_eq. lia.
  - intros c' s0 H0. destruct (decide (c' = c)) as [->|Hc]; [by simplify_eq|]. by apply (G4 c' s0), Hold.
  - intros c' s0 j H0 Hj Hb. apply Hown; [done|]. destruct (decide (c' = c)) as [->|Hc].
    + simplify_eq. destruct (Hbits j Hj Hb); [by apply (G5 c s)|done].
    + by apply (G5 c' s0); [apply Hold| |].
  - rewrite (f_nr _ _ _ _ F). destruct (f_host _ _ _ _ F) as (_ & _ & ->). done.
  - destruct (f_host _ _ _ _ F) as (_ & _ & ->). intros c' j d' Hj Hd'. destruct (f_static _ _ _ _ F c' j d' Hd') as (d & Hd & _ & _ & Ef).
    unfold virq_is_requested, has_flag. rewrite Ef. by apply (G7 c').
Qed.

Lemma enter_vgic v c s :
  vgic_ok v -> vcpus v !! c = Some s -> exists f v', vgic_irq_enter_to_guest v c = Ret (f, v') /\ vgic_ok v' /\ vspi_nr v' = vspi_nr v /\ length (vcpus v') = length (vcpus v).
Proof.
  intros G Hs. destruct (enter_spec v c s) as (f & v' & s' & E & C & Hf & _);
    [apply G|done|by apply G|by apply (vg_fail v G c)|]. exists f, v'. split; [done|].
  pose proof (cr_frame _ _ _ _ _ _ _ C) as F. split; [|split; apply F].
  apply (vgic_step v v' c _ s s' G Hs (cr_vs _ _ _ _ _ _ _ C) F (cr_ok _ _ _ _ _ _ _ C) (cr_lr _ _ _ _ _ _ _ C)); [done| |].
  - intros j Hj Hb. left. change VM_LOCAL_VIRQ_NR with 32 in Hj. destruct (cr_bits _ _ _ _ _ _ _ C j) as [(P & Q & _)|(_ & P & _)]; [lia| |by left].
    by rewrite P, Q in Hb.
  - intros j Hj. destruct (cr_bits _ _ _ _ _ _ _ C j) as [(_ & _ & E')|(_ & P & _)].
    + change VM_LOCAL_VIRQ_NR with 32 in Hj. lia.
    + by left.
    + right. apply homed_owns, (vg_home v G c s); [done|done|by left].
Qed.

Lemma exit_vgic v c s st :
  vgic_ok v -> vcpus v !! c = Some s -> exists v', vgic_irq_exit_from_guest v c st = Ret v' /\ vgic_ok v' /\ vspi_nr v' = vspi_nr v /\ length (vcpus v') = length (vcpus v).
Proof.
  intros G Hs. destruct (exit_spec st v c s) as (v' & s' & E & X); [apply G|done|by apply G|]. exists v'. split; [done|].
  destruct X as [X1 X2 X3 X4 (X5 & X5' & X5'') X6 X7]. split; [|split; apply X2].
  apply (vgic_step v v' c _ s s' G Hs X1 X2 X3 X4); [rewrite X5'; by apply (vg_fail v G c)| |].
  - intros j Hj Hb. left. unfold pend in *. rewrite X5'' in Hb. destruct Hb as [Hb|Hb]; [by left|right].
    destruct (act s j) eqn:Ha; [done|]. change VM_LOCAL_VIRQ_NR with 32 in Hj. destruct (X6 j) as [P _]; [lia|by right|congruence].
  - intros j Hj. destruct (act s j) eqn:Ha; [right; apply homed_owns, (vg_home v G c s); [done|done|by right]|left].
    change VM_LOCAL_VIRQ_NR with 32 in Hj. apply X6; [lia|by right].
Qed.

(** ** Sending *)

(** The interrupt with descriptor [d] became pending on vcpu [c]. *)
Record posted (v v' : vm) (c : nat) (s s' : virq_struct) (i : Z) (d : virq_desc) : Prop := {
  po_vs : vcpus v' !! c = Some s';
  po_frame : frame v v' c (eq i);
  po_ok : vm_ok v';
  po_pending : updated true (pending_bitmap s) (pending_bitmap s') (vno d) (vno d + 1);
  po_same : nr_lrs s' = nr_lrs s /\ last_fail_virq s' = last_fail_virq s /\ active_bitmap s' = active_bitmap s /\ lrs_bitmap s' = lrs_bitmap s;
  po_id : forall j, vd_id <$> look v' c j = vd_id <$> look v c j;
  po_src : VM_SGI_VIRQ_NR <= vno d -> forall j, look v' c j = look v c j;
}.

Lemma count_reset m m' i n :
  updated true m m' i (i + 1) -> bit_at m i = true -> count_from m' 0 n = count_from m 0 n.
Proof.
  intros Hu Hb. apply count_from_ext. intros j Hj. destruct (decide (j = i)) as [->|Hne].
  - rewrite Hb. apply (updated_at _ _ _ _ Hu). lia.
  - apply (updated_other _ _ _ _ _ Hu); [lia|done].
Qed.

Lemma post_vs_ok total s m n :
  vs_ok total s -> bitmap_ok m -> length m = length (pending_bitmap s) -> n = count_from m 0 (Z.to_nat total) ->
  vs_ok total (set_pending s n m).
Proof. intros [] Hm Hl ->. split; cbn; try done. by rewrite Hl. Qed.

Lemma put_vs_twice v c s1 s2 : put_vs (put_vs v c s1) c s2 = put_vs v c s2.
Proof. unfold put_vs, set_vcpus. cbn. by rewrite list_insert_insert_eq. Qed.

Lemma __send_virq_spec v c s i r d cur :
  vm_ok v -> vcpus v !! c = Some s -> 0 <= i < vm_irq_count v -> get_virq_desc v i = Some r -> look v c i = Some d ->
  0 <= vno d < vm_irq_count v ->
  exists v' s', __send_virq v c r cur = Ret (0, v') /\ posted v v' c s s' i d /\ hw_calls v' = hw_calls v.
Proof.
  intros Hv Hs Hi Er Hd Hk. pose proof (vcpu_ok v c s Hv Hs) as Hso. pose proof (vo_nr _ Hv) as [_ Hmax]. unfold __send_virq.
  rewrite (look_ref v c i r d), (get_vs_Ret v c s Hs) by (done || lia). cbn [obind].
  destruct (test_and_set_bit_spec (pending_bitmap s) (vno d) (so_pending _ _ Hso)) as (m & Em & Um); [pose proof (so_plen _ _ Hso); lia|].
  rewrite Em. cbn [obind]. pose proof Um as (Uml & Umo & _). set (n := pending_virq s).
  pose proof (count_from_bound (pending_bitmap s) 0 (Z.to_nat (vm_irq_count v))) as Hbound. rewrite <- (so_count _ _ Hso) in Hbound.
  set (n' := if bit_at (pending_bitmap s) (vno d) then n else s32 (n + 1)). set (s1 := set_pending s n' m).
  assert (Hso1 : vs_ok (vm_irq_count v) s1).
  { apply post_vs_ok; try done. subst n' n. destruct (bit_at (pending_bitmap s) (vno d)) eqn:Eold.
    - rewrite (count_reset _ _ _ _ Um Eold). apply Hso.
    - rewrite (count_set _ _ _ _ Um Eold) by lia. rewrite <- (so_count _ _ Hso). apply s32_small. lia. }
  destruct (put_vs_spec v c s s1 (eq i) Hs eq_refl) as (Hs1 & F1 & Lk1). set (v1 := put_vs v c s1) in *.
  pose proof (vm_ok_frame v v1 c _ s1 Hv F1 Hs1 Hso1) as Hv1.
  assert (Hplain : posted v v1 c s s1 i d) by (split; try done; intros; by rewrite Lk1).
  destruct (bit_at (pending_bitmap s) (vno d)) eqn:Eold.
  { exists v1, s1. by split. }
  fold n n' s1. rewrite put_vs_twice. fold v1.
  destruct (Z.ltb_spec (vno d) VM_SGI_VIRQ_NR) as [Hsgi|Hge]; [|exists v1, s1; by split].
  assert (Hd1 : look v1 c i = Some d) by (by rewrite Lk1).
  destruct (upd_desc_spec v1 c s1 i r d (set_src (Z.of_nat cur)) Hv1 Hs1) as (s2 & Hs2 & L2 & F2 & Hd2); try done.
  exists (upd_desc v1 c r (set_src (Z.of_nat cur))), s2. split; [done|]. split; [|by rewrite upd_desc_calls].
  pose proof L2 as (E1 & E2 & _ & _ & E5 & E6 & E7 & _). split; try done.
  - by eapply frame_trans.
  - exact (vm_ok_frame v1 _ c _ s2 Hv1 F2 Hs2 (vs_ok_like _ _ _ Hso1 L2)).
  - by rewrite E5.
  - intros j. destruct (decide (j = i)) as [->|Hne]; [by rewrite Hd2, Hd|].
    rewrite (f_desc _ _ _ _ F2), Lk1; [done|]. left. congruence.
  - intros; lia.
Qed.

Lemma vm_ok_log v h : vm_ok v -> vm_ok (log_hw v h).
Proof. by intros []. Qed.

Lemma posted_log v v' c s s' i d h : posted v v' c s s' i d -> posted v (log_hw v' h) c s s' i d.
Proof.
  intros [P1 P2 P3 P4 P5 P6 P7]. destruct (log_hw_spec v' c h (eq i)) as [F Lk]. split; try done.
  - by eapply frame_trans.
  - by apply vm_ok_log.
Qed.

(** Whether the state of the VM lets the interrupt through, and the status if not. *)
Definition accepts (v : vm) (d : virq_desc) : bool :=
  (vm_state v =? VM_STATE_ONLINE) || ((vm_state v =? VM_STATE_SUSPEND) && virq_can_wakeup d).

Definition refusal (v : vm) : Z := if vm_state v =? VM_STATE_SUSPEND then - EAGAIN else - EPERM.

Lemma send_virq_spec v c s i r d cur :
  vm_ok v -> vcpus v !! c = Some s -> 0 <= i < vm_irq_count v -> get_virq_desc v i = Some r -> look v c i = Some d ->
  0 <= vno d < vm_irq_count v ->
  if accepts v d then
    exists v' s', send_virq v (Some c) (Some r) cur = Ret (0, v') /\ posted v v' c s s' i d /\
      hw_calls v' = hw_calls v ++ [KickVcpu c (virq_is_hw d)]
  else send_virq v (Some c) (Some r) cur = Ret (refusal v, v).
Proof.
  intros Hv Hs Hi Er Hd Hk. cbn [send_virq]. rewrite (look_ref v c i r d) by (done || lia). unfold accepts, refusal.
  destruct (__send_virq_spec v c s i r d cur Hv Hs Hi Er Hd Hk) as (v1 & s1 & E & P & Ec). cbn [obind].
  assert (Hgo : exists v' s', (let* (ret, v0) := __send_virq v c r cur in
            if negb (ret =? 0) then Ret (ret, v0) else let* d0 := desc_at v0 c r in Ret (0, log_hw v0 (KickVcpu c (virq_is_hw d0)))) = Ret (0, v')
            /\ posted v v' c s s' i d /\ hw_calls v' = hw_calls v ++ [KickVcpu c (virq_is_hw d)]).
  { rewrite E. cbn [obind negb]. change (negb (0 =? 0)) with false. cbn match.
    pose proof (po_frame _ _ _ _ _ _ _ P) as F. pose proof (frame_count _ _ _ _ F) as Ecn.
    destruct (look_exists v1 c s1 i (po_ok _ _ _ _ _ _ _ P) (po_vs _ _ _ _ _ _ _ P)) as (d1 & Hd1); [lia|].
    destruct (f_static _ _ _ _ F c i d1 Hd1) as (d0 & Hd0 & _ & _ & Ef). assert (d0 = d) as -> by congruence.
    rewrite (look_ref v1 c i r d1); [|lia|by rewrite (frame_ref _ _ _ _ _ F)|done]. cbn [obind].
    exists (log_hw v1 (KickVcpu c (virq_is_hw d1))), s1. split; [done|]. split; [by apply posted_log|]. cbn. rewrite Ec.
    unfold virq_is_hw, has_flag. by rewrite Ef. }
  destruct (Z.eqb_spec (vm_state v) VM_STATE_ONLINE) as [Eo|No].
  - rewrite Eo. exact Hgo.
  - destruct (Z.eqb_spec (vm_state v) VM_STATE_SUSPEND) as [Es|Ns]; [|done].
    cbn [negb andb orb]. destruct (virq_can_wakeup d); [exact Hgo|done].
Qed.

(** A posted interrupt keeps the invariant, if it is local or routed to the vcpu. *)
Lemma posted_vgic v v' c s s' i d :
  vgic_ok v -> vcpus v !! c = Some s -> look v c i = Some d -> posted v v' c s s' i d ->
  (i < VM_LOCAL_VIRQ_NR \/ vcpu_id d = Z.of_nat c) -> vgic_ok v'.
Proof.
  intros G Hs Hd [P1 P2 P3 P4 (P5 & P5' & P5'' & P5''') P6 P7] Hor. destruct (vg_desc v G c i d Hd) as (Hk & Hki & _).
  pose proof (frame_count _ _ _ _ P2) as Ec.
  apply (vgic_step v v' c _ s s' G Hs P1 P2 P3).
  - apply (lr_ok_like v v' c s s'); try done. by apply (vg_lr v G).
  - rewrite P5'. by apply (vg_fail v G c).
  - intros j Hj Hb. destruct (decide (j = vno d)) as [->|Hne].
    + right. rewrite (Hki (proj1 Hj)) in *. destruct Hor; [lia|]. exists d. rewrite (Hki (proj1 Hj)). done.
    + left. destruct Hb as [Hb|Hb]; [left|right].
      * unfold pend in *. change VM_LOCAL_VIRQ_NR with 32 in Hj. by rewrite (updated_other _ _ _ _ _ P4) in Hb by (done || lia).
      * unfold act in *. by rewrite P5'' in Hb.
  - intros j Hj. destruct (decide (i = j)) as [->|Hne]; [|left; apply P2; by left].
    right. destruct Hor; [lia|]. by exists d.
Qed.

(** ** Attributes *)

(** The part of a descriptor that delivery depends on. *)
Definition route (d : virq_desc) : Z * Z * Z * bool := (vno d, vcpu_id d, vd_id d, virq_is_requested d).

Lemma requested_bit d : virq_is_requested d = Z.testbit (vd_flags d) 6.
Proof.
  unfold virq_is_requested, has_flag. change VIRQS_REQUESTED with (2 ^ 6). apply eq_true_iff_eq. rewrite negb_true_iff, Z.eqb_neq. split.
  - intros H. destruct (Z.testbit (vd_flags d) 6) eqn:E; [done|]. destruct H. apply Z.bits_inj'. intros k Hk.
    rewrite Z.land_spec, Z.bits_0, Z.pow2_bits_eqb by lia. destruct (Z.eqb_spec 6 k) as [<-|]; [by rewrite E|by rewrite andb_false_r].
  - intros E H. assert (Hb : Z.testbit (Z.land (vd_flags d) (2 ^ 6)) 6 = true) by (by rewrite Z.land_spec, E). by rewrite H in Hb.
Qed.

Lemma requested_on b d : virq_is_requested (flag_on b d) = virq_is_requested d || Z.testbit b 6.
Proof. rewrite !requested_bit. unfold flag_on, set_flags. cbn [vd_flags]. by rewrite Z.lor_spec. Qed.

Lemma requested_off b d : virq_is_requested (flag_off b d) = virq_is_requested d && negb (Z.testbit b 6).
Proof. rewrite !requested_bit. unfold flag_off, set_flags. cbn [vd_flags]. by rewrite Z.land_spec, Z.lnot_spec by lia. Qed.

Lemma route_on b d : Z.testbit b 6 = false -> route (flag_on b d) = route d.
Proof. intros Hb. unfold route. by rewrite requested_on, Hb, orb_false_r. Qed.

Lemma route_off b d : Z.testbit b 6 = false -> route (flag_off b d) = route d.
Proof. intros Hb. unfold route. by rewrite requested_off, Hb, andb_true_r. Qed.

Lemma vgic_view v v' :
  vgic_ok v -> vspi_nr v' = vspi_nr v -> length (vspi_desc v') = length (vspi_desc v) -> length (vcpus v') = length (vcpus v) ->
  vspi_map v' = vspi_map v -> (forall c s', vcpus v' !! c = Some s' -> exists s, vcpus v !! c = Some s /\ like s s') ->
  (forall c j, route <$> look v' c j = route <$> look v c j) -> vgic_ok v'.
Proof.
  intros [G1 G2 G3 G4 G5 G6 G7] En El Elc Em Hvs Hlk. assert (Ec : vm_irq_count v' = vm_irq_count v) by (unfold vm_irq_count; by rewrite En).
  assert (Hback : forall c j d', look v' c j = Some d' -> exists d, look v c j = Some d /\ route d = route d').
  { intros c j d' Hd. specialize (Hlk c j). rewrite Hd in Hlk. destruct (look v c j) as [d|]; [|done].
    exists d. split; [done|]. cbn in Hlk. congruence. }
  split; rewrite ?Ec.
  - destruct G1 as [H1 H2 H3]. split; rewrite ?Ec, ?En, ?El; try done. apply Forall_lookup. intros c s' Hs'.
    destruct (Hvs c s' Hs') as (s & Hs & L). exact (vs_ok_like _ _ _ (Forall_lookup_1 _ _ _ _ H3 Hs) L).
  - rewrite Elc. intros c j d' Hd'. destruct (Hback c j d' Hd') as (d & Hd & E). injection E as <- <- _ <-. by apply (G2 c j).
  - intros c s' Hs'. destruct (Hvs c s' Hs') as (s & Hs & L). apply (lr_ok_like v v' c s s'); try apply L; [by apply G3|done|].
    intros j. specialize (Hlk c j). destruct (look v' c j), (look v c j); simplify_eq/=; congruence.
  - intros c s' Hs'. destruct (Hvs c s' Hs') as (s & Hs & (_ & -> & _)). by apply (G4 c s).
  - intros c s' j Hs' Hj Hb. destruct (Hvs c s' Hs') as (s & Hs & (_ & _ & _ & _ & Ep & Ea & _)). unfold pend, act in Hb. rewrite Ep, Ea in Hb.
    destruct (G5 c s j Hs Hj Hb) as (d & Hd & E & Ej). specialize (Hlk c j). rewrite Hd in Hlk.
    destruct (look v' c j) as [d'|] eqn:Hd'; simplify_eq/=. exists d'. split; [done|]. split; congruence.
  - by rewrite En, Em.
  - rewrite Em. intros c j d' Hj Hd'. destruct (Hback c j d' Hd') as (d & Hd & E). injection E as _ _ _ <-. by apply (G7 c).
Qed.

Lemma attr_vgic v c s i r d f :
  vgic_ok v -> vcpus v !! c = Some s -> 0 <= i < vm_irq_count v -> get_virq_desc v i = Some r -> look v c i = Some d ->
  route (f d) = route d -> vgic_ok (upd_desc v c r f).
Proof.
  intros G Hs Hi Er Hd Hf. pose proof (upd_desc_look v c s i r d f (vg_ok v G) Hs Hi Er Hd) as Hl.
  apply (vgic_view v); [done|by destruct r|destruct r; [done|apply length_alter]|destruct r; [apply length_alter|done]|by destruct r| |].
  - intros c' s' Hs'. destruct r as [k|k]; [|exists s'; by repeat split]. cbn in Hs'.
    destruct (decide (c' = c)) as [->|Hc].
    + rewrite list_lookup_alter_eq, Hs in Hs'. injection Hs' as <-. exists s. split; [done|]. unfold like. cbn. by rewrite length_alter.
    + rewrite list_lookup_alter_ne in Hs' by done. exists s'. by repeat split.
  - intros c' j. rewrite Hl. destruct (decide _) as [[-> Hor]|_]; [|done]. cbn. rewrite Hf.
    destruct Hor as [->|Hi']; [by rewrite Hd|]. rewrite (look_any v c' c), Hd by lia. done.
Qed.

Lemma log_vgic v h : vgic_ok v -> vgic_ok (log_hw v h).
Proof. intros G. apply (vgic_view v); try done. intros c s Hs. exists s. by repeat split. Qed.

Lemma past_none v i : 0 <= i -> ~ i < vm_irq_count v -> 0 <= vspi_nr v -> get_virq_desc v i = None.
Proof.
  intros H0 Hi Hn. unfold get_virq_desc, vm_irq_count, VM_VIRQ_NR in *. change VM_LOCAL_VIRQ_NR with 32 in *.
  by destruct (Z.ltb_spec i 32), (Z.leb_spec (vspi_nr v + 32) i); try lia.
Qed.

Lemma vm_irqs v : vm_ok v -> VM_LOCAL_VIRQ_NR <= vm_irq_count v /\ 0 <= vspi_nr v.
Proof. intros Hv. pose proof (vo_nr v Hv) as [Hn _]. unfold vm_irq_count. lia. Qed.

(** ** Requests *)

(** [v'] is [v] with another descriptor for its [k]-th SPI. *)
Record respi (v v' : vm) (k : nat) (d : virq_desc) : Prop := {
  rs_nr : vspi_nr v' = vspi_nr v;
  rs_vcpus : vcpus v' = vcpus v;
  rs_desc : vspi_desc v' = <[k := d]> (vspi_desc v);
}.

Lemma respi_upd v v' k d c f : respi v v' k d -> (k < length (vspi_desc v))%nat -> respi v (upd_desc v' c (Spi k) f) k (f d).
Proof.
  intros [] Hk. split; try done. cbn. rewrite rs_desc0. apply list_eq. intros j. destruct (decide (j = k)) as [->|Hne].
  - by rewrite list_lookup_alter_eq, !list_lookup_insert_eq.
  - by rewrite list_lookup_alter_ne, !list_lookup_insert_ne.
Qed.

Lemma respi_log v v' k d h : respi v v' k d -> respi v (log_hw v' h) k d.
Proof. by intros []. Qed.

Lemma respi_at v v' k d c : respi v v' k d -> (k < length (vspi_desc v))%nat -> desc_at v' c (Spi k) = Ret d.
Proof. intros [] Hk. cbn. by rewrite rs_desc0, list_lookup_insert_eq. Qed.

Lemma respi_look v v' k d : respi v v' k d -> (k < length (vspi_desc v))%nat -> vm_ok v -> forall c j,
  look v' c j = if decide (j = Z.of_nat k + VM_LOCAL_VIRQ_NR) then Some d else look v c j.
Proof.
  intros [En Ev Ed] Hk Hv c j. pose proof (vm_irqs v Hv) as [Hl Hn]. pose proof (vo_spi v Hv) as Hlen.
  assert (E32 : VM_LOCAL_VIRQ_NR = 32) by done.
  assert (Ec : vm_irq_count v' = vm_irq_count v) by (unfold vm_irq_count; by rewrite En).
  assert (Hk' : Z.of_nat k + VM_LOCAL_VIRQ_NR < vm_irq_count v) by (unfold vm_irq_count; lia).
  destruct (decide (0 <= j < vm_irq_count v)); [|rewrite !look_none by (rewrite ?Ec, ?En; lia); by rewrite decide_False by lia].
  destruct (decide (j < VM_LOCAL_VIRQ_NR)).
  - rewrite decide_False by lia. rewrite !look_local by lia. by rewrite Ev.
  - rewrite !look_spi by (rewrite ?Ec; lia). rewrite Ed. case_decide as Hj.
    + subst j. replace (Z.to_nat (Z.of_nat k + VM_LOCAL_VIRQ_NR - VM_LOCAL_VIRQ_NR)) with k by lia. by rewrite list_lookup_insert_eq.
    + rewrite list_lookup_insert_ne by lia. done.
Qed.

(** A request for an SPI that is not in flight keeps the invariant. *)
Lemma respi_vgic v v' k d d' :
  vgic_ok v -> respi v v' k d' -> vspi_desc v !! k = Some d -> virq_is_requested d = false ->
  vno d' = Z.of_nat k + VM_LOCAL_VIRQ_NR -> 0 <= vcpu_id d' < Z.of_nat (length (vcpus v)) -> virq_is_requested d' = true ->
  updated true (vspi_map v) (vspi_map v') (Z.of_nat k) (Z.of_nat k + 1) -> vgic_ok v'.
Proof.
  intros [G1 G2 G3 G4 G5 G6 G7] R Hd Hnr Hno Hcpu Hreq Hmap. pose proof (lookup_lt_Some _ _ _ Hd) as Hk.
  pose proof (respi_look v v' k d' R Hk G1) as Hlk. destruct R as [En Ev Ed]. set (i := Z.of_nat k + VM_LOCAL_VIRQ_NR) in *.
  assert (Ec : vm_irq_count v' = vm_irq_count v) by (unfold vm_irq_count; by rewrite En).
  pose proof (vo_spi v G1) as Hlen. assert (Hi : VM_LOCAL_VIRQ_NR <= i < vm_irq_count v) by (unfold vm_irq_count; lia).
  assert (Hfree : forall c s, vcpus v !! c = Some s -> pend s i = true \/ act s i = true -> False).
  { intros c s Hs Hb. destruct (G5 c s i Hs Hi Hb) as (d0 & Hd0 & _ & E0). destruct (G2 c i d0 Hd0) as (_ & _ & _ & _ & Hq & _).
    rewrite look_spi in Hd0 by done. replace (Z.to_nat (i - VM_LOCAL_VIRQ_NR)) with k in Hd0 by lia. rewrite E0 in Hq. specialize (Hq (proj1 Hi)). congruence. }
  assert (E32 : VM_LOCAL_VIRQ_NR = 32) by done. split; rewrite ?Ec, ?Ev, ?En.
  - destruct G1 as [H1 H2 H3]. split; rewrite ?Ec, ?Ev, ?En; try done. by rewrite Ed, length_insert.
  - intros c j d0. rewrite Hlk. case_decide as Hj; [|by apply G2]. intros [= <-]. subst j. split_and!; try lia; done.
  - intros c s Hs. apply (lr_ok_ext v); [by apply G3|done|]. intros j Hj Ha. rewrite Hlk, decide_False; [done|].
    intros ->. apply (Hfree c s Hs). by right.
  - done.
  - intros c s j Hs Hj Hb. destruct (G5 c s j Hs Hj Hb) as (d0 & Hd0 & E). exists d0. rewrite Hlk, decide_False; [done|].
    intros ->. by apply (Hfree c s Hs).
  - destruct Hmap as (-> & Hok & _). by split; [|apply G6].
  - intros c j d0 Hj. rewrite Hlk. case_decide as Ej.
    + intros [= <-]. subst j. rewrite Hreq. replace (i - VM_LOCAL_VIRQ_NR) with (Z.of_nat k) by lia. apply (updated_at _ _ _ _ Hmap). lia.
    + intros Hd0. rewrite (updated_other _ _ _ _ _ Hmap) by lia. by apply (G7 c).
Qed.

(** Requesting an SPI: refused if it is taken, else it is routed to the vcpu and marked in the map. *)
Record requested_spi (v v' : vm) (c : nat) (k : nat) : Prop := {
  rq_spi : exists d', respi v v' k d' /\ vno d' = Z.of_nat k + VM_LOCAL_VIRQ_NR /\ vcpu_id d' = Z.of_nat c /\ virq_is_requested d' = true;
  rq_map : updated true (vspi_map v) (vspi_map v') (Z.of_nat k) (Z.of_nat k + 1);
}.

Lemma __request_virq_spi v c k d hwirq flags :
  vgic_ok v -> vspi_desc v !! k = Some d -> (c < 256)%nat -> 0 <= hwirq ->
  if virq_is_requested d then __request_virq v c (Spi k) (Z.of_nat k + VM_LOCAL_VIRQ_NR) hwirq flags = Ret (- EBUSY, v)
  else exists v', __request_virq v c (Spi k) (Z.of_nat k + VM_LOCAL_VIRQ_NR) hwirq flags = Ret (0, v') /\ requested_spi v v' c k.
Proof.
  intros G Hd Hc Hhw. unfold __request_virq. assert (Ed : desc_at v c (Spi k) = Ret d) by (cbn; by rewrite Hd). rewrite Ed. cbn [obind].
  destruct (virq_is_requested d); [done|]. pose proof (lookup_lt_Some _ _ _ Hd) as Hk. pose proof (vg_ok v G) as Hv.
  pose proof (vo_spi v Hv) as Hlen. pose proof (vo_nr v Hv) as [Hn Hmax]. unfold vm_irq_count in Hmax. assert (E32 : VM_LOCAL_VIRQ_NR = 32) by done.
  set (i := Z.of_nat k + VM_LOCAL_VIRQ_NR). set (d1 := mk_vd _ (u16 i) _ _ _ _ _ _ _ _).
  assert (R1 : respi v (upd_desc v c (Spi k) (fun _ => d1)) k d1).
  { split; try done. cbn. apply list_eq. intros j. destruct (decide (j = k)) as [->|Hne].
    - by rewrite list_lookup_alter_eq, list_lookup_insert_eq, Hd.
    - by rewrite list_lookup_alter_ne, list_lookup_insert_ne. }
  set (v1 := upd_desc v c (Spi k) (fun _ => d1)) in *.
  destruct (Z.leb_spec VM_LOCAL_VIRQ_NR i); [|lia]. replace (VIRQ_SPI_OFFSET i) with (Z.of_nat k) by (unfold VIRQ_SPI_OFFSET; lia).
  change (vspi_map v1) with (vspi_map v). destruct (vg_map v G) as [Hm1 Hm2].
  destruct (set_bit_spec (vspi_map v) (Z.of_nat k) Hm1) as (m & Em & Um); [lia|]. rewrite Em. cbn [obind].
  set (v2 := set_map v1 m). assert (R2 : respi v v2 k d1) by (by destruct R1).
  set (v3 := if negb (hwirq =? 0) then _ else _).
  assert (R3 : exists d3, respi v v3 k d3 /\ vspi_map v3 = m /\ vno d3 = vno d1 /\ vcpu_id d3 = vcpu_id d1 /\ virq_is_requested d3 = true).
  { assert (Hr1 : virq_is_requested d1 = true) by (rewrite requested_bit; subst d1; cbn [vd_flags]; by rewrite Z.lor_spec, orb_true_r).
    subst v3. destruct (negb (hwirq =? 0)).
    - exists (virq_set_hw d1). split; [do 2 apply respi_log; apply respi_upd; [by apply respi_log|done]|].
      split_and!; try done. unfold virq_set_hw. by rewrite requested_on, Hr1.
    - exists (virq_clear_hw d1). split; [by apply respi_upd|]. split_and!; try done. unfold virq_clear_hw. by rewrite requested_off, Hr1. }
  destruct R3 as (d3 & R3 & Em3 & En3 & Ec3 & Er3). clearbody v3. unfold update_virq_cap.
  pose proof (respi_upd v v3 k d3 c (flag_on flags) R3 Hk) as R4. rewrite (respi_at v _ k _ c R4 Hk). cbn [obind].
  set (v5 := if _ && _ then _ else _). assert (R5 : respi v v5 k (flag_on flags d3) /\ vspi_map v5 = m)
    by (subst v5; destruct (_ && _); [split; [by apply respi_log|done]|done]). destruct R5 as [R5 Em5]. clearbody v5.
  eexists. split; [done|].
  assert (Hno : u16 i = i) by (apply wrap_small; lia). assert (Hcc : u8 (Z.of_nat c) = Z.of_nat c) by (apply wrap_small; lia).
  destruct (negb (Z.land flags VIRQS_FIQ =? 0)); split.
  - exists (__virq_set_fiq (flag_on flags d3)). split; [by apply respi_upd|]. unfold __virq_set_fiq. rewrite !requested_on, Er3.
    split_and!; [change (vno d3 = i); by rewrite En3|change (vcpu_id d3 = Z.of_nat c); by rewrite Ec3|done].
  - cbn. by rewrite Em5.
  - exists (flag_on flags d3). rewrite requested_on, Er3.
    split_and!; [done|change (vno d3 = i); by rewrite En3|change (vcpu_id d3 = Z.of_nat c); by rewrite Ec3|done].
  - by rewrite Em5.
Qed.

Lemma spi_ref v i : VM_LOCAL_VIRQ_NR <= i < vm_irq_count v -> get_virq_desc v i = Some (Spi (Z.to_nat (i - VM_LOCAL_VIRQ_NR))).
Proof.
  intros Hi. assert (E32 : VM_LOCAL_VIRQ_NR = 32) by done. destruct (irq_ref v i) as (r & Er & Hr); [lia|].
  rewrite Er, Hr. destruct (Z.ltb_spec i VM_LOCAL_VIRQ_NR); [lia|done].
Qed.

(** What [request_hw_virq] does with an SPI number. *)
Lemma request_hw_virq_spec v virq hwirq flags :
  vgic_ok v -> (0 < length (vcpus v))%nat -> VM_LOCAL_VIRQ_NR <= virq -> 0 <= hwirq ->
  exists z v', request_hw_virq v virq hwirq flags = Ret (z, v') /\ vgic_ok v' /\ length (vcpus v') = length (vcpus v) /\
    ((z <> 0 /\ v' = v) \/ (z = 0 /\ requested_spi v v' 0 (Z.to_nat (virq - VM_LOCAL_VIRQ_NR)))) /\
    (virq < vm_max_virq_line v -> virq < vm_irq_count v -> bit_at (vspi_map v) (virq - VM_LOCAL_VIRQ_NR) = false -> z = 0).
Proof.
  intros G Hlen Hv Hhw. unfold request_hw_virq. destruct (Z.leb_spec (vm_max_virq_line v) virq) as [Hge|Hlt].
  { exists (- EINVAL), v. split_and!; try done; [by left|lia]. }
  unfold request_virq_affinity, get_vcpu_in_vm. destruct (Z.leb_spec (Z.of_nat (length (vcpus v))) 0); [lia|].
  change (Z.to_nat 0) with 0%nat. pose proof (vm_irqs v (vg_ok v G)) as [Hl Hn].
  destruct (decide (virq < vm_irq_count v)) as [Hin|Hout].
  2: { rewrite past_none by (done || (change VM_LOCAL_VIRQ_NR with 32 in Hv; lia)). exists (- ENOENT), v. split_and!; try done. by left. }
  rewrite spi_ref by done. set (k := Z.to_nat (virq - VM_LOCAL_VIRQ_NR)). replace virq with (Z.of_nat k + VM_LOCAL_VIRQ_NR) by lia.
  assert (Hk : (k < length (vspi_desc v))%nat) by (rewrite (vo_spi v (vg_ok v G)); unfold vm_irq_count in Hin; lia).
  destruct (lookup_lt_is_Some_2 _ _ Hk) as (d & Hd).
  assert (Hbit : bit_at (vspi_map v) (virq - VM_LOCAL_VIRQ_NR) = virq_is_requested d).
  { apply (vg_reserved v G 0%nat); [done|]. rewrite look_spi by done. exact Hd. }
  pose proof (__request_virq_spi v 0 k d hwirq flags G Hd ltac:(lia) Hhw) as Hreq. destruct (virq_is_requested d) eqn:Er.
  - exists (- EBUSY), v. rewrite Hreq. split_and!; try done; [by left|]. intros _ _. replace (Z.of_nat k + VM_LOCAL_VIRQ_NR) with virq by lia. congruence.
  - destruct Hreq as (v' & E & RQ). exists 0, v'. split; [done|]. destruct RQ as [(d' & R & E1 & E2 & E3) Um].
    split; [apply (respi_vgic v v' k d d'); try done; rewrite E2; lia|]. split; [by rewrite (rs_vcpus _ _ _ _ R)|].
    split; [|done]. right. split; [done|]. replace (Z.to_nat (Z.of_nat k + VM_LOCAL_VIRQ_NR - VM_LOCAL_VIRQ_NR)) with k by lia. split; [by exists d'|done].
Qed.

Lemma first_free m n : bitmap_ok m -> 0 <= n <= 64 * Z.of_nat (length m) ->
  exists k, find_next_zero_bit_loop m n 0 = Ret k /\ is_next (fun i => negb (bit_at m i)) n 0 k.
Proof.
  intros Hm Hn.
  assert (E : find_next_zero_bit_loop m n 0 = find_next_zero_bit m n 0).
  { unfold find_next_zero_bit_loop, _find_next_bit_loop, find_next_zero_bit. destruct (_find_next_bit m n 0 ULONG_MAX); try done.
    cbn [obind]. change (negb (0 =? 0)) with false. by rewrite andb_false_r. }
  rewrite E. destruct (decide (n = 0)) as [->|Hne]; [|apply find_next_zero_bit_spec; [done|lia|lia]].
  exists 0. split; [by apply _find_next_bit_past|]. split; [lia|]. split; intros; lia.
Qed.

(** [alloc_vm_virq] returns the lowest interrupt that is free in the map, and reserves it if it is
    below the limit of [request_virq]. *)
Lemma alloc_vm_virq_spec v :
  vgic_ok v -> (0 < length (vcpus v))%nat ->
  exists z v', alloc_vm_virq v = Ret (z, v') /\ vgic_ok v' /\ length (vcpus v') = length (vcpus v) /\
    ((z = -1 /\ v' = v /\ forall k, 0 <= k < vspi_nr v -> bit_at (vspi_map v) k = true) \/
     (exists k, z = Z.of_nat k + VM_LOCAL_VIRQ_NR /\ Z.of_nat k < vspi_nr v /\ bit_at (vspi_map v) (Z.of_nat k) = false /\
       (forall j, 0 <= j < Z.of_nat k -> bit_at (vspi_map v) j = true) /\
       if z <? vm_max_virq_line v then requested_spi v v' 0 k else v' = v)).
Proof.
  intros G Hlen. unfold alloc_vm_virq. destruct (vg_map v G) as [Hm1 Hm2]. pose proof (vm_irqs v (vg_ok v G)) as [_ Hn].
  destruct (first_free (vspi_map v) (vspi_nr v) Hm1) as (k & Ek & Hk & Hused & Hfree); [lia|]. rewrite Ek. cbn [obind].
  destruct (Z.ltb_spec k (vspi_nr v)) as [Hlt|Hge].
  - destruct (request_hw_virq_spec v (k + VM_LOCAL_VIRQ_NR) 0 VIRQS_NEED_EXPORT G Hlen) as (z & v' & E & G' & El & Hcase & Hok); [lia|lia|].
    unfold request_virq. rewrite E. cbn [obind]. exists (k + VM_LOCAL_VIRQ_NR), v'. split_and!; try done. right. exists (Z.to_nat k).
    rewrite Z2Nat.id by lia. split_and!; [done|done|by apply negb_true_iff, Hfree|intros j Hj; by apply negb_false_iff, Hused|].
    replace (k + VM_LOCAL_VIRQ_NR - VM_LOCAL_VIRQ_NR) with k in * by lia.
    destruct (Z.ltb_spec (k + VM_LOCAL_VIRQ_NR) (vm_max_virq_line v)) as [Hm|Hm].
    + assert (z = 0) by (apply Hok; [done|unfold vm_irq_count; lia|by apply negb_true_iff, Hfree]). destruct Hcase as [[? _]|[_ ?]]; done.
    + unfold request_hw_virq in E. destruct (Z.leb_spec (vm_max_virq_line v) (k + VM_LOCAL_VIRQ_NR)); [|lia]. by injection E as <- <-.
  - exists (-1), v. split_and!; try done. left. split_and!; try done. intros j Hj. apply negb_false_iff, Hused. lia.
Qed.

(** ** Runs *)

(** The operations on the interrupts of a VM; [cur] is the vcpu that executes one. *)
Inductive vop : Type :=
| Request (virq hwirq flags : Z)
| Alloc
| SendVm (virq : Z)
| SendLocal (c : nat) (virq : Z)
| HwIrq (virq : Z)
| Enter (c : nat)
| Leave (c : nat) (lr_state : Z -> Z)
| SetEnable (c : nat) (virq : Z)
| SetDisable (c : nat) (virq : Z)
| SetType (c : nat) (virq value : Z)
| SetPriority (c : nat) (virq pr : Z)
| SetFiq (c : nat) (virq : Z).

Definition vexec (cur : nat) (v : vm) (op : vop) : outcome vm :=
  match op with
  | Request virq hwirq flags => let* (_, v) := request_hw_virq v virq hwirq flags in Ret v
  | Alloc => let* (_, v) := alloc_vm_virq v in Ret v
  | SendVm virq => let* (_, v) := send_virq_to_vm v virq cur in Ret v
  | SendLocal c virq => let* (_, v) := send_virq_to_vcpu v c virq cur in Ret v
  | HwIrq virq =>
      match get_virq_desc v virq with
      | Some r => let* (_, v) := guest_irq_handler v 0 r cur in Ret v
      | None => Ret v
      end
  | Enter c => let* (_, v) := vgic_irq_enter_to_guest v c in Ret v
  | Leave c st => vgic_irq_exit_from_guest v c st
  | SetEnable c virq => let* (_, v) := virq_enable v c virq in Ret v
  | SetDisable c virq => let* (_, v) := virq_disable v c virq in Ret v
  | SetType c virq value => let* (_, v) := virq_set_type v c virq value in Ret v
  | SetPriority c virq pr => let* (_, v) := virq_set_priority v c virq pr in Ret v
  | SetFiq c virq => let* (_, v) := virq_set_fiq v c virq in Ret v
  end.

Fixpoint vrun (v : vm) (ops : list (nat * vop)) : outcome vm :=
  match ops with
  | [] => Ret v
  | (cur, op) :: ops => let* v := vexec cur v op in vrun v ops
  end.

(** The vcpu exists and the number is unsigned; SPIs are requested, SGIs and PPIs are sent to a given vcpu,
    SPIs to the one they are routed to, and the hardware raises SPIs. *)
Definition op_valid (n : nat) (op : vop) : Prop :=
  match op with
  | Request virq hwirq _ => VM_LOCAL_VIRQ_NR <= virq /\ 0 <= hwirq /\ (0 < n)%nat
  | Alloc => (0 < n)%nat
  | SendVm virq => 0 <= virq /\ (0 < n)%nat
  | SendLocal c virq => (c < n)%nat /\ 0 <= virq < VM_LOCAL_VIRQ_NR
  | HwIrq virq => VM_LOCAL_VIRQ_NR <= virq /\ (0 < n <= 255)%nat
  | Enter c | Leave c _ => (c < n)%nat
  | SetEnable c virq | SetDisable c virq | SetType c virq _ | SetPriority c virq _ | SetFiq c virq => (c < n)%nat /\ 0 <= virq
  end.

Lemma upd_desc_len v c r f : length (vcpus (upd_desc v c r f)) = length (vcpus v).
Proof. destruct r; [apply length_alter|done]. Qed.

(** An attribute operation: nothing without the interrupt, else an update that keeps its route. *)
Lemma attr_op v c virq (k : dref -> outcome (Z * vm)) :
  vgic_ok v -> (c < length (vcpus v))%nat -> 0 <= virq ->
  (forall r d, desc_at v c r = Ret d -> exists z f v', k r = Ret (z, v') /\ route (f d) = route d /\
     (v' = v \/ v' = upd_desc v c r f \/ exists h, v' = log_hw (upd_desc v c r f) h)) ->
  exists z v', match get_virq_desc v virq with None => Ret (- ENOENT, v) | Some r => k r end = Ret (z, v') /\
    vgic_ok v' /\ length (vcpus v') = length (vcpus v).
Proof.
  intros G Hc Hi Hk. destruct (lookup_lt_is_Some_2 (vcpus v) c Hc) as (s & Hs). pose proof (vm_irqs v (vg_ok v G)) as [_ Hn].
  destruct (decide (virq < vm_irq_count v)) as [Hlt|Hge]; [|rewrite past_none by done; by exists (- ENOENT), v].
  destruct (irq_ref v virq) as (r & Er & _); [lia|]. destruct (look_exists v c s virq (vg_ok v G) Hs) as (d & Hd); [lia|].
  rewrite Er. destruct (Hk r d) as (z & f & v' & E & Hf & Hv'); [by apply (look_ref v c virq)|].
  exists z, v'. split; [done|]. assert (G' : vgic_ok (upd_desc v c r f)) by (by apply (attr_vgic v c s virq r d f)).
  destruct Hv' as [->|[->|(h & ->)]]; [done| |]; (split; [by try apply log_vgic|apply upd_desc_len]).
Qed.

(** Sending a local interrupt, or an SPI to the vcpu it is routed to, succeeds or is refused. *)
Lemma send_vgic v c i r d cur :
  vgic_ok v -> (c < length (vcpus v))%nat -> 0 <= i < vm_irq_count v -> get_virq_desc v i = Some r -> look v c i = Some d ->
  (i < VM_LOCAL_VIRQ_NR \/ vcpu_id d = Z.of_nat c) ->
  exists z v', send_virq v (Some c) (Some r) cur = Ret (z, v') /\ vgic_ok v' /\ length (vcpus v') = length (vcpus v).
Proof.
  intros G Hc Hi Er Hd Hor. destruct (lookup_lt_is_Some_2 (vcpus v) c Hc) as (s & Hs).
  pose proof (send_virq_spec v c s i r d cur (vg_ok v G) Hs Hi Er Hd (proj1 (vg_desc v G c i d Hd))) as Hsend.
  destruct (accepts v d); [|by exists (refusal v), v]. destruct Hsend as (v' & s' & E & P & _). exists 0, v'. split; [done|].
  split; [by apply (posted_vgic v v' c s s' i d)|apply P].
Qed.

(** An SPI goes to the vcpu its descriptor names. *)
Lemma send_spi v i r d cur :
  vgic_ok v -> VM_LOCAL_VIRQ_NR <= i < vm_irq_count v -> get_virq_desc v i = Some r -> look v 0 i = Some d ->
  exists z v', send_virq v (get_vcpu_in_vm v (vcpu_id d)) (Some r) cur = Ret (z, v') /\ vgic_ok v' /\ length (vcpus v') = length (vcpus v).
Proof.
  intros G Hi Er Hd. destruct (vg_desc v G 0%nat i d Hd) as (_ & _ & H0 & Hlt & _). specialize (Hlt (proj1 Hi)). unfold get_vcpu_in_vm.
  destruct (Z.leb_spec (Z.of_nat (length (vcpus v))) (vcpu_id d)); [lia|].
  change VM_LOCAL_VIRQ_NR with 32 in Hi. apply (send_vgic v _ i r d); [done|lia|lia|done| |right; lia].
  by rewrite (look_any v _ 0%nat).
Qed.

Ltac attr_op v c i :=
  let r := fresh "r" in let d := fresh "d" in let Hd := fresh "Hd" in
  apply (attr_op v c i); [assumption|assumption|assumption|]; intros r d Hd; rewrite Hd; cbn [obind].

Lemma vexec_ok cur v op :
  vgic_ok v -> op_valid (length (vcpus v)) op -> exists v', vexec cur v op = Ret v' /\ vgic_ok v' /\ length (vcpus v') = length (vcpus v).
Proof.
  intros G Hop.
  assert (Hret : forall m : outcome (Z * vm), (exists z v', m = Ret (z, v') /\ vgic_ok v' /\ length (vcpus v') = length (vcpus v)) ->
            exists v', (let* (_, v0) := m in Ret v0) = Ret v' /\ vgic_ok v' /\ length (vcpus v') = length (vcpus v))
    by (intros m (z & v' & -> & ?); by exists v').
  assert (Hvs : forall c, (c < length (vcpus v))%nat -> exists s, vcpus v !! c = Some s) by (intros; by apply lookup_lt_is_Some_2).
  pose proof (vm_irqs v (vg_ok v G)) as [Hl Hn]. assert (E32 : VM_LOCAL_VIRQ_NR = 32) by done.
  destruct op as [i h f| |i|c i|i|c|c st|c i|c i|c i x|c i x|c i]; cbn [vexec op_valid] in *.
  - apply Hret. destruct Hop as (Hi & Hh & Hlen). destruct (request_hw_virq_spec v i h f G Hlen Hi Hh) as (z & v' & E & G' & El & _). by exists z, v'.
  - apply Hret. destruct (alloc_vm_virq_spec v G Hop) as (z & v' & E & G' & El & _). by exists z, v'.
  - apply Hret. destruct Hop as [Hi Hlen]. unfold send_virq_to_vm. destruct (Z.ltb_spec i VM_LOCAL_VIRQ_NR); [by eexists _, v|].
    destruct (decide (i < vm_irq_count v)); [|rewrite past_none by done; by eexists _, v].
    destruct (irq_ref v i) as (r & Er & _); [lia|]. destruct (Hvs 0%nat Hlen) as (s & Hs).
    destruct (look_exists v 0 s i (vg_ok v G) Hs) as (d & Hd); [lia|]. rewrite Er, (look_ref v 0 i r d) by (done || lia). cbn [obind].
    destruct (virq_is_enabled d); [|by eexists _, v]. destruct (virq_is_hw d); [by eexists _, v|]. by apply (send_spi v i r d).
  - apply Hret. destruct Hop as [Hc Hi]. unfold send_virq_to_vcpu. destruct (irq_ref v i) as (r & Er & _); [lia|]. destruct (Hvs c Hc) as (s & Hs).
    destruct (look_exists v c s i (vg_ok v G) Hs) as (d & Hd); [lia|]. rewrite Er. apply (send_vgic v c i r d); [done|done|lia|done|done|left; lia].
  - destruct Hop as [Hi [Hlen Hmax]]. destruct (decide (i < vm_irq_count v)); [|rewrite past_none by (done || lia); by exists v].
    destruct (irq_ref v i) as (r & Er & _); [lia|]. rewrite Er. apply Hret. destruct (Hvs 0%nat Hlen) as (s & Hs).
    destruct (look_exists v 0 s i (vg_ok v G) Hs) as (d & Hd); [lia|]. unfold guest_irq_handler. rewrite (look_ref v 0 i r d) by (done || lia). cbn [obind].
    destruct (virq_is_hw d); [|by eexists _, v]. cbn [negb]. destruct (vg_desc v G 0%nat i d Hd) as (_ & _ & H0 & Hlt & _). specialize (Hlt Hi).
    destruct (Z.eqb_spec (vcpu_id d) VIRQ_AFFINITY_VCPU_ANY) as [E|_]; [unfold VIRQ_AFFINITY_VCPU_ANY in E; lia|].
    rewrite andb_false_r. by apply (send_spi v i r d).
  - apply Hret. destruct (Hvs c Hop) as (s & Hs). destruct (enter_vgic v c s G Hs) as (f & v' & E & G' & _ & El). by exists f, v'.
  - destruct (Hvs c Hop) as (s & Hs). destruct (exit_vgic v c s st G Hs) as (v' & E & G' & _ & El). by exists v'.
  - apply Hret. destruct Hop. unfold virq_enable. attr_op v c i. eexists _, virq_set_enable, _. split; [done|]. split; [by apply route_on|]. right. case_match; eauto.
  - apply Hret. destruct Hop. unfold virq_disable. attr_op v c i. eexists _, virq_clear_enable, _. split; [done|]. split; [by apply route_off|]. right. case_match; eauto.
  - apply Hret. destruct Hop. unfold virq_set_type. attr_op v c i. destruct (vd_type d =? x); [exists 0, id, v; by auto|].
    eexists _, (set_type x), _. split; [done|]. split; [done|]. right. case_match; eauto.
  - apply Hret. destruct Hop. unfold virq_set_priority. attr_op v c i. eexists _, (set_pr x), _. split; [done|]. split; [done|]. by right; left.
  - apply Hret. destruct Hop. unfold virq_set_fiq. attr_op v c i. eexists _, __virq_set_fiq, _. split; [done|]. split; [by apply route_on|]. by right; left.
Qed.

Lemma vrun_ok ops :
  forall v, vgic_ok v -> Forall (fun p => op_valid (length (vcpus v)) p.2) ops -> exists v', vrun v ops = Ret v' /\ vgic_ok v'.
Proof.
  induction ops as [|[cur op] ops IH]; intros v G Hops; [by exists v|]. apply Forall_cons in Hops as [Hop Hops]. cbn [vrun].
  destruct (vexec_ok cur v op G Hop) as (v1 & E & G1 & El). rewrite E. cbn [obind]. apply IH; [done|]. by rewrite El.
Qed.

(** ** Set-up *)

Definition spi_check (v : vm) (d : virq_desc) : bool :=
  (0 <=? vno d) && (vno d <? vm_irq_count v) && (vno d <? VM_LOCAL_VIRQ_NR) && negb (virq_is_requested d) &&
  (0 <=? vcpu_id d) && (vcpu_id d <? Z.of_nat (length (vcpus v))).

Definition zero_bitmap (m : list Z) : bool := forallb (Z.eqb 0) m && (64 * Z.of_nat (length m) <? 2 ^ 64).

Definition vs_idle (total : Z) (s : virq_struct) : bool :=
  zero_bitmap (pending_bitmap s) && zero_bitmap (active_bitmap s) && zero_bitmap (lrs_bitmap s) &&
  (total <=? 64 * Z.of_nat (length (pending_bitmap s))) && (total <=? 64 * Z.of_nat (length (active_bitmap s))) &&
  (0 <=? nr_lrs s) && (nr_lrs s <=? 128) && (nr_lrs s <=? 64 * Z.of_nat (length (lrs_bitmap s))) &&
  (length (local_desc s) =? Z.to_nat VM_LOCAL_VIRQ_NR)%nat && (pending_virq s =? 0) && (last_fail_virq s =? 0) &&
  forallb id (imap (fun i d => (vno d =? Z.of_nat i) && (0 <=? vcpu_id d)) (local_desc s)).

(** A VM without any interrupt requested or in flight. *)
Definition idle (v : vm) : bool :=
  (0 <=? vspi_nr v) && (vm_irq_count v <=? 1020) && (length (vspi_desc v) =? Z.to_nat (vspi_nr v))%nat &&
  forallb (vs_idle (vm_irq_count v)) (vcpus v) && forallb (spi_check v) (vspi_desc v) &&
  zero_bitmap (vspi_map v) && (vspi_nr v <=? 64 * Z.of_nat (length (vspi_map v))).

Lemma zero_map m : zero_bitmap m = true -> bitmap_ok m /\ forall i, bit_at m i = false.
Proof.
  unfold zero_bitmap. rewrite andb_true_iff, Z.ltb_lt. intros [H Hlen]. rewrite forallb_forall in H.
  assert (Hz : forall k w, m !! k = Some w -> w = 0) by (intros k w Hk; symmetry; apply Z.eqb_eq, H, list_elem_of_In; by eapply list_elem_of_lookup_2).
  split.
  - split; [|done]. apply Forall_lookup. intros k w Hk. by rewrite (Hz k w Hk).
  - intros i. unfold bit_at. destruct (m !! _) eqn:E; [|done]. rewrite (Hz _ _ E), Z.bits_0. by rewrite andb_false_r.
Qed.

Lemma imap_check {A} (f : nat -> A -> bool) l : forallb id (imap f l) = true -> forall i x, l !! i = Some x -> f i x = true.
Proof.
  rewrite forallb_forall. intros H i x Hx. apply (H (f i x)). apply list_elem_of_In. apply (list_elem_of_lookup_2 _ i).
  by rewrite list_lookup_imap, Hx.
Qed.

Lemma vs_idle_ok total s : vs_idle total s = true ->
  vs_ok total s /\ last_fail_virq s = 0 /\ (forall i, pend s i = false /\ act s i = false /\ bit_at (lrs_bitmap s) i = false) /\
  forall i d, local_desc s !! i = Some d -> vno d = Z.of_nat i /\ 0 <= vcpu_id d.
Proof.
  unfold vs_idle. rewrite !andb_true_iff. intros (((((((((((HP & HA) & HL) & Hp) & Ha) & H0) & H128) & Hl) & Hloc) & Hn) & Hf) & Hd).
  apply Z.leb_le in Hp, Ha, H0, H128, Hl. apply Z.eqb_eq in Hn, Hf. apply Nat.eqb_eq in Hloc.
  destruct (zero_map _ HP) as [P1 P2], (zero_map _ HA) as [A1 A2], (zero_map _ HL) as [L1 L2]. split_and!.
  - split; try done. rewrite Hn. symmetry. rewrite (count_from_const _ _ _ false); [done|]. intros; apply P2.
  - done.
  - intros i. split_and!; [apply P2|apply A2|apply L2].
  - intros i d Hi. pose proof (imap_check _ _ Hd i d Hi) as E. apply andb_true_iff in E as [E1 E2]. apply Z.eqb_eq in E1. apply Z.leb_le in E2. done.
Qed.

Lemma idle_vgic_ok v : idle v = true -> vgic_ok v.
Proof.
  unfold idle. rewrite !andb_true_iff. intros ((((((H0 & Hmax) & Hlen) & Hvs) & Hspi) & Hmap) & Hml). apply Z.leb_le in H0, Hmax, Hml. apply Nat.eqb_eq in Hlen.
  rewrite forallb_forall in Hvs, Hspi.
  assert (Hs : forall c s, vcpus v !! c = Some s -> vs_idle (vm_irq_count v) s = true).
  { intros c s Hc. apply Hvs, list_elem_of_In. by eapply list_elem_of_lookup_2. }
  split.
  - split; [done|done|]. apply Forall_lookup. intros c s Hc. by apply vs_idle_ok, (Hs c).
  - intros c j d Hd. assert (E32 : VM_LOCAL_VIRQ_NR = 32) by done.
    destruct (decide (0 <= j < vm_irq_count v)); [|rewrite look_none in Hd by lia; done].
    destruct (decide (j < VM_LOCAL_VIRQ_NR)).
    + rewrite look_local in Hd by lia. destruct (vcpus v !! c) as [s|] eqn:Ec; [|done]. cbn in Hd.
      destruct (vs_idle_ok _ _ (Hs c s Ec)) as (_ & _ & _ & Hl). destruct (Hl _ _ Hd) as [E1 E2]. split_and!; try lia. all: intros; lia.
    + rewrite look_spi in Hd by lia. assert (E : spi_check v d = true) by (apply Hspi, list_elem_of_In; by eapply list_elem_of_lookup_2).
      unfold spi_check in E. rewrite !andb_true_iff, negb_true_iff, !Z.leb_le, !Z.ltb_lt in E. split_and!; try lia. intros _ ?. destruct E as (((_ & E) & _) & _). congruence.
  - intros c s Hc. destruct (vs_idle_ok _ _ (Hs c s Hc)) as (_ & _ & Hz & _). split.
    + intros i d _ Ha. destruct (Hz i) as (_ & E & _). congruence.
    + intros i j di dj _ _ Ha. destruct (Hz i) as (_ & E & _). congruence.
    + intros k _ Hb. destruct (Hz k) as (_ & _ & E). congruence.
  - intros c s Hc. destruct (vs_idle_ok _ _ (Hs c s Hc)) as (_ & -> & _). unfold vm_irq_count. change VM_LOCAL_VIRQ_NR with 32. lia.
  - intros c s j Hc _ Hb. destruct (vs_idle_ok _ _ (Hs c s Hc)) as (_ & _ & Hz & _). destruct (Hz j) as (E1 & E2 & _). destruct Hb; congruence.
  - split; [by apply zero_map|done].
  - intros c j d Hj Hd. destruct (zero_map _ Hmap) as [_ ->]. assert (E32 : VM_LOCAL_VIRQ_NR = 32) by done.
    destruct (decide (j < vm_irq_count v)); [|rewrite look_none in Hd by lia; done]. rewrite look_spi in Hd by lia.
    assert (E : spi_check v d = true) by (apply Hspi, list_elem_of_In; by eapply list_elem_of_lookup_2).
    unfold spi_check in E. rewrite !andb_true_iff, negb_true_iff in E. symmetry. apply E.
Qed.

(** A vcpu structure from [zalloc], with the number of list registers of the chip. *)
Definition zalloc_vs (nr : Z) : virq_struct := mk_vs nr 0 0 0 [] [] [] [0; 0].

Fixpoint init_vcpus (cs : list nat) (v : vm) : outcome vm :=
  match cs with
  | [] => Ret v
  | c :: cs => let* v := vcpu_virq_struct_init v c in init_vcpus cs v
  end.

(** A VM with [n] vcpus: the structures are initialised as the vcpus are created, then the hook of
    this module allocates the descriptors. *)
Definition vm_setup (id : Z) (host : bool) (n : nat) (nr : Z) : outcome vm :=
  let* v := init_vcpus (seq 0 n) (mk_vm id VM_STATE_ONLINE host 0 [] [] (replicate n (zalloc_vs nr)) []) in
  Ret (virq_create_vm v true).2.

Definition inited_vs (nr : Z) : virq_struct :=
  mk_vs nr 0 0 0 (map fresh_local (seq 0 (Z.to_nat VM_LOCAL_VIRQ_NR))) [] [] [0; 0].

Lemma init_vcpus_spec nr m :
  forall k v, vcpus v = replicate k (inited_vs nr) ++ replicate m (zalloc_vs nr) ->
  init_vcpus (seq k m) v = Ret (set_vcpus v (replicate (k + m) (inited_vs nr))).
Proof.
  induction m as [|m IH]; intros k v Hv; cbn [seq init_vcpus].
  - rewrite Nat.add_0_r. rewrite app_nil_r in Hv. rewrite <- Hv. by destruct v.
  - unfold vcpu_virq_struct_init at 1.
    assert (Hk : vcpus v !! k = Some (zalloc_vs nr)).
    { rewrite Hv, lookup_app_r by (by rewrite length_replicate). by rewrite length_replicate, Nat.sub_diag. }
    rewrite (get_vs_Ret v k _ Hk). cbn [obind]. rewrite IH.
    + replace (k + S m)%nat with (S k + m)%nat by lia. done.
    + unfold put_vs, set_vcpus. cbn [vcpus]. rewrite Hv, insert_app_r_alt by (by rewrite length_replicate).
      by rewrite length_replicate, Nat.sub_diag, (replicate_S_end k), <- app_assoc.
Qed.

Lemma forallb_replicate {A} (f : A -> bool) n x : f x = true -> forallb f (replicate n x) = true.
Proof. intros Hx. induction n; cbn; [done|]. by rewrite Hx. Qed.

Lemma setup_idle id host n nr :
  (0 < n)%nat -> 0 <= nr <= 128 -> exists v, vm_setup id host n nr = Ret v /\ idle v = true /\ length (vcpus v) = n.
Proof.
  intros Hn Hnr. unfold vm_setup. rewrite (init_vcpus_spec nr n 0) by done. cbn [obind Nat.add].
  eexists. split; [done|]. set (v := (virq_create_vm _ true).2).
  assert (Hvs : vcpus v = replicate n (mk_vs nr 0 0 0 (map fresh_local (seq 0 (Z.to_nat VM_LOCAL_VIRQ_NR)))
            (replicate (Z.to_nat (BITS_TO_LONGS (vspi_nr v + VM_LOCAL_VIRQ_NR))) 0) (replicate (Z.to_nat (BITS_TO_LONGS (vspi_nr v + VM_LOCAL_VIRQ_NR))) 0) [0; 0])).
  { subst v. unfold virq_create_vm. cbn [snd vcpus set_vcpus]. by rewrite fmap_replicate. }
  assert (Hspi : vspi_desc v = replicate (Z.to_nat (vspi_nr v)) zero_desc) by done.
  assert (Hm : vspi_map v = replicate (Z.to_nat (BITS_TO_LONGS (vspi_nr v))) 0) by done.
  assert (Hcase : vspi_nr v = MAX_HVM_VIRQ \/ vspi_nr v = MAX_GVM_VIRQ) by (destruct host; [by left|by right]).
  assert (Hl : length (vcpus v) = n) by (by rewrite Hvs, length_replicate). split; [|done].
  clearbody v. unfold idle. rewrite Hspi, Hvs, length_replicate, Nat.eqb_refl. rewrite !andb_true_iff. split_and!.
  - destruct Hcase as [-> | ->]; done.
  - unfold vm_irq_count. destruct Hcase as [-> | ->]; done.
  - done.
  - apply forallb_replicate. unfold vs_idle, vm_irq_count. cbn [nr_lrs pending_bitmap active_bitmap lrs_bitmap local_desc pending_virq last_fail_virq].
    destruct (Z.leb_spec 0 nr), (Z.leb_spec nr 128); try lia. cbn [length]. destruct (Z.leb_spec nr (64 * Z.of_nat 2)); [|lia].
    destruct Hcase as [-> | ->]; vm_compute; done.
  - apply forallb_replicate. unfold spi_check. rewrite Hl. cbn. unfold vm_irq_count. destruct (Z.ltb_spec 0 (vspi_nr v + VM_LOCAL_VIRQ_NR)).
    + destruct (Z.ltb_spec 0 (Z.of_nat n)); [done|lia].
    + destruct Hcase as [E|E]; rewrite E in *; done.
  - rewrite Hm. destruct Hcase as [-> | ->]; done.
  - rewrite Hm. destruct Hcase as [-> | ->]; done.
Qed.

(** ** Without list registers *)

(** Interrupt [i] was taken: it is active instead of pending. *)
Record taken (v v' : vm) (c : nat) (s s' : virq_struct) (i : Z) : Prop := {
  tk_moved : moved v v' c s s' i;
  tk_pending : updated false (pending_bitmap s) (pending_bitmap s') i (i + 1);
  tk_active : updated true (active_bitmap s) (active_bitmap s') i (i + 1);
  tk_lrs : lrs_bitmap s' = lrs_bitmap s;
  tk_state : vd_state <$> look v' c i = Some VIRQ_STATE_ACTIVE;
}.

Lemma take_spec v c s i r d :
  vm_ok v -> vcpus v !! c = Some s -> 0 <= i < vm_irq_count v -> get_virq_desc v i = Some r -> look v c i = Some d -> pend s i = true ->
  exists v' s', (let v := upd_desc v c r (set_state VIRQ_STATE_ACTIVE) in
    let* s := get_vs v c in
    let* m := clear_bit i (pending_bitmap s) in
    let s := set_pending s (s32 (pending_virq s - 1)) m in
    let* a := set_bit i (active_bitmap s) in
    Ret (i, put_vs v c (set_active s (u32 (active_virq s + 1)) a))) = Ret (i, v') /\ taken v v' c s s' i.
Proof.
  intros Hv Hs Hi Er Hd Hp. pose proof (vcpu_ok v c s Hv Hs) as Hso. pose proof (vo_nr _ Hv) as [_ Hmax].
  destruct (upd_desc_spec v c s i r d (set_state VIRQ_STATE_ACTIVE) Hv Hs Hi Er Hd) as (s1 & Hs1 & L1 & F1 & Hd1); [done|].
  cbn zeta. set (v1 := upd_desc v c r _) in *. rewrite (get_vs_Ret v1 c s1 Hs1). cbn [obind].
  pose proof (vs_ok_like _ _ _ Hso L1) as Hso1. destruct L1 as (E1 & E2 & E3 & E4 & E5 & E6 & E7 & E8).
  destruct (clear_bit_spec (pending_bitmap s1) i (so_pending _ _ Hso1)) as (m & Em & Um); [pose proof (so_plen _ _ Hso1); lia|].
  rewrite Em. cbn [obind]. cbn [active_bitmap set_pending].
  destruct (set_bit_spec (active_bitmap s1) i (so_active _ _ Hso1)) as (a & Ea & Ua); [pose proof (so_alen _ _ Hso1); lia|].
  rewrite Ea. cbn [obind]. set (s2 := set_active _ _ a).
  assert (Hso2 : vs_ok (vm_irq_count v) s2).
  { pose proof Um as (Uml & Umo & _). pose proof Ua as (Ual & Uao & _).
    assert (Hn : s32 (pending_virq s1 - 1) = count_from m 0 (Z.to_nat (vm_irq_count v))).
    { rewrite (count_clear _ _ _ (Z.to_nat (vm_irq_count v)) Um) by (unfold pend in Hp; rewrite ?E5; (done || lia)).
      pose proof (count_from_bound m 0 (Z.to_nat (vm_irq_count v))) as Hb.
      rewrite (count_clear _ _ _ (Z.to_nat (vm_irq_count v)) Um) in Hb by (unfold pend in Hp; rewrite ?E5; (done || lia)).
      rewrite (so_count _ _ Hso1). apply s32_small. lia. }
    destruct Hso1. split; cbn; try done; by rewrite ?Uml, ?Ual. }
  destruct (put_vs_spec v1 c s1 s2 (eq i) Hs1 eq_refl) as (Hs2 & F2 & Lk2).
  assert (F : frame v (put_vs v1 c s2) c (eq i)) by (by eapply frame_trans).
  exists (put_vs v1 c s2), s2. split; [done|]. rewrite E5 in Um. rewrite E6 in Ua. split; try done.
  - split; try done. exact (vm_ok_frame v _ c _ s2 Hv F Hs2 Hso2).
  - by rewrite Lk2, Hd1.
Qed.

(** Nothing that could be taken lies below [b]. *)
Definition waiting (s : virq_struct) (b : Z) : Prop := forall j, 0 <= j < b -> pend s j = true -> act s j = true.

Lemma get_pending_loop_spec c s v n :
  vm_ok v -> vcpus v !! c = Some s ->
  forall bit, 0 <= bit <= vm_irq_count v -> (bit < vm_irq_count v -> pend s bit = true) -> waiting s bit ->
  (Z.to_nat (vm_irq_count v - bit) < n)%nat ->
  (get_pending_loop n v c bit = Ret (BAD_IRQ, v) /\ waiting s (vm_irq_count v)) \/
  exists i v' s', get_pending_loop n v c bit = Ret (i, v') /\ 0 <= i < vm_irq_count v /\ pend s i = true /\ act s i = false /\
    waiting s i /\ taken v v' c s s' i.
Proof.
  intros Hv Hs. induction n as [|n IH]; intros bit Hb Hp Hw Hn; [lia|]. cbn [get_pending_loop].
  destruct (Z.ltb_spec bit (vm_irq_count v)) as [Hlt|Hge]; [|left; split; [done|]; intros j Hj; apply Hw; lia].
  pose proof (vcpu_ok v c s Hv Hs) as Hso. rewrite (get_vs_Ret v c s Hs). cbn [obind].
  rewrite test_bit_spec by (pose proof (so_alen _ _ Hso); lia). cbn [obind]. fold (act s bit). destruct (act s bit) eqn:Ea.
  - destruct (next_bit (pending_bitmap s) (vm_irq_count v) (bit + 1) (so_pending _ _ Hso)) as (b & Eb & Hnext); [lia|pose proof (so_plen _ _ Hso); lia|].
    rewrite Eb. cbn [obind]. pose proof Hnext as (Hr & _ & Hnp). apply IH; [lia|done| |lia].
    intros j Hj. destruct (decide (j < bit)); [apply Hw; lia|]. apply (next_gap s bit b (vm_irq_count v)); [done|done|lia].
  - right. destruct (irq_ref v bit) as (r & Er & _); [lia|]. destruct (look_exists v c s bit Hv Hs) as (d & Hd); [lia|].
    destruct (take_spec v c s bit r d Hv Hs ltac:(lia) Er Hd (Hp Hlt)) as (v' & s' & E & T). exists bit, v', s'.
    rewrite Er, (look_ref v c bit r d) by (done || lia). cbn [obind]. split; [exact E|]. by split_and!; try lia; try apply Hp.
Qed.

(** ** Sending to the VM *)

(** Why [send_virq_to_vm] refuses interrupt [i] with status [z]. *)
Inductive send_refused (v : vm) (i : Z) : Z -> Prop :=
| refused_local : i < VM_LOCAL_VIRQ_NR -> send_refused v i (- EINVAL)
| refused_past : vm_irq_count v <= i -> send_refused v i (- ENOENT)
| refused_disabled d : look v 0 i = Some d -> virq_is_enabled d = false -> send_refused v i (- EAGAIN)
| refused_hw d : look v 0 i = Some d -> virq_is_hw d = true -> send_refused v i (- EPERM)
| refused_state d : look v 0 i = Some d -> accepts v d = false -> send_refused v i (refusal v).

Lemma send_virq_to_vm_spec v i cur :
  vgic_ok v -> 0 <= i -> (0 < length (vcpus v))%nat ->
  (exists z, send_virq_to_vm v i cur = Ret (z, v) /\ z <> 0 /\ send_refused v i z) \/
  (exists v' c s s' d, send_virq_to_vm v i cur = Ret (0, v') /\ VM_LOCAL_VIRQ_NR <= i < vm_irq_count v /\
     vcpus v !! c = Some s /\ look v c i = Some d /\ vcpu_id d = Z.of_nat c /\ accepts v d = true /\
     virq_is_enabled d = true /\ virq_is_hw d = false /\
     posted v v' c s s' i d /\ hw_calls v' = hw_calls v ++ [KickVcpu c false]).
Proof.
  intros G Hi Hlen. assert (E32 : VM_LOCAL_VIRQ_NR = 32) by done. pose proof (vm_irqs v (vg_ok v G)) as [Hl Hn].
  unfold send_virq_to_vm. destruct (Z.ltb_spec i VM_LOCAL_VIRQ_NR) as [Hlt|Hge].
  { left. eexists. by split; [done|split; [|apply refused_local]]. }
  destruct (decide (i < vm_irq_count v)) as [Hin|Hout].
  2: { left. rewrite past_none by done. eexists. split; [done|split; [done|apply refused_past; lia]]. }
  destruct (irq_ref v i) as (r & Er & _); [lia|]. destruct (lookup_lt_is_Some_2 _ _ Hlen) as (s0 & Hs0).
  destruct (look_exists v 0 s0 i (vg_ok v G) Hs0) as (d & Hd); [lia|]. rewrite Er, (look_ref v 0 i r d) by (done || lia). cbn [obind].
  destruct (virq_is_enabled d) eqn:Een; [|left; eexists; split; [done|split; [done|by apply (refused_disabled v i d)]]]. cbn [negb].
  destruct (virq_is_hw d) eqn:Ehw; [left; eexists; split; [done|split; [done|by apply (refused_hw v i d)]]|].
  destruct (vg_desc v G 0%nat i d Hd) as (Hk & _ & H0 & Hlt & _). specialize (Hlt Hge). unfold get_vcpu_in_vm.
  destruct (Z.leb_spec (Z.of_nat (length (vcpus v))) (vcpu_id d)); [lia|]. set (c := Z.to_nat (vcpu_id d)).
  destruct (lookup_lt_is_Some_2 (vcpus v) c ltac:(lia)) as (s & Hs).
  assert (Hdc : look v c i = Some d) by (by rewrite (look_any v c 0%nat) by lia).
  pose proof (send_virq_spec v c s i r d cur (vg_ok v G) Hs ltac:(lia) Er Hdc Hk) as Hsend. destruct (accepts v d) eqn:Eacc.
  - destruct Hsend as (v' & s' & E & P & Ecalls). rewrite Ehw in Ecalls. right. exists v', c, s, s', d. split_and!; try done; lia.
  - left. exists (refusal v). split; [done|]. split; [unfold refusal; by destruct (_ =? _)|by apply (refused_state v i d)].
Qed.

(** ** Delivery *)

(** C26: From the moment a VM is set up, whatever sequence of SPI requests and allocations, sends
    of SPIs to the VM and of SGIs and PPIs to a vcpu, hardware SPIs, entries to and exits from the
    guest and attribute changes runs on its vcpus, every operation returns and the delivery invariant
    holds: the pending counter of each vcpu is the number of its pending bits, an interrupt in flight
    owns exactly one list register, no two share one, every busy register belongs to an interrupt in
    flight, and an SPI is pending or active only on the vcpu it is routed to.  The counter of active
    interrupts is not part of the invariant.  Requests of local interrupts and releases are left
    out of the runs: [local_request_in_flight_faults] shows what such a request can do. *)
Theorem virq_delivery_invariant id host n nr ops :
  (0 < n)%nat -> 0 <= nr <= 128 -> Forall (fun p => op_valid n p.2) ops ->
  exists v v', vm_setup id host n nr = Ret v /\ vrun v ops = Ret v' /\ vgic_ok v'.
Proof.
  intros Hn Hnr Hops. destruct (setup_idle id host n nr Hn Hnr) as (v & E & Hidle & Hl).
  destruct (vrun_ok ops v (idle_vgic_ok v Hidle)) as (v' & E' & G); [by rewrite Hl|]. by exists v, v'.
Qed.

(** SPI 40 and a local timer interrupt are requested, sent and delivered through one list register. *)
Definition demo_ops : list (nat * vop) :=
  [(0%nat, Request 40 0 VIRQS_ENABLED); (0%nat, Alloc); (1%nat, SendVm 40); (0%nat, SendLocal 0 27);
   (0%nat, Enter 0); (0%nat, Leave 0 (fun _ => VIRQ_STATE_INACTIVE)); (0%nat, Enter 0); (1%nat, HwIrq 40)].

Lemma virq_delivery_invariant_witness :
  exists v v', vm_setup 1 false 2 1 = Ret v /\ vrun v demo_ops = Ret v' /\ vgic_ok v'.
Proof.
  apply virq_delivery_invariant; [lia|lia|].
  repeat (apply List.Forall_cons; [cbn [op_valid snd]; change VM_LOCAL_VIRQ_NR with 32; lia|]). apply List.Forall_nil.
Defined.

(** [request_hw_virq] also takes the number of a local interrupt.  While that interrupt is in
    flight the request takes its list register from it, and the next exit from the guest clears a bit
    outside the bitmap of list registers. *)
Example local_request_in_flight_faults :
  (let* v := vm_setup 1 false 2 1 in
   vrun v [(0%nat, SendLocal 0 27); (0%nat, Enter 0); (0%nat, Request 27 0 VIRQS_ENABLED);
           (0%nat, Leave 0 (fun _ => VIRQ_STATE_INACTIVE))]) = Fault.
Proof. vm_compute. reflexivity. Qed.


(** The state of the demonstration VM after its set-up. *)
Definition ret_vm (o : outcome vm) : vm := match o with Ret v => v | _ => mk_vm 0 0 false 0 [] [] [] [] end.

Definition vdemo : vm := ret_vm (let* v := vm_setup 1 false 2 1 in vrun v [(0%nat, Request 40 0 VIRQS_ENABLED)]).

Lemma vdemo_ok : vgic_ok vdemo.
Proof.
  destruct (setup_idle 1 false 2 1) as (v & E & Hidle & Hl); [lia|lia|].
  destruct (vrun_ok [(0%nat, Request 40 0 VIRQS_ENABLED)] v (idle_vgic_ok v Hidle)) as (v' & E' & G).
  { rewrite Hl. apply List.Forall_cons; [cbn [op_valid snd]; change VM_LOCAL_VIRQ_NR with 32; lia|apply List.Forall_nil]. }
  unfold vdemo. rewrite E. cbn [obind]. rewrite E'. exact G.
Qed.


(** Leaving the guest brings every interrupt in flight up to date with its list register: it stays
    in flight exactly if its register does not show it inactive, a finished one gives its register
    back, a register is busy afterwards exactly if it was busy and not finished, and neither the
    pending interrupts nor the interrupts of other vcpus change. *)
Theorem exit_guest_exact v c s st :
  vgic_ok v -> vcpus v !! c = Some s ->
  exists v' s', vgic_irq_exit_from_guest v c st = Ret v' /\ vcpus v' !! c = Some s' /\
    pending_bitmap s' = pending_bitmap s /\
    (forall i d, 0 <= i < vm_irq_count v -> look v c i = Some d ->
       act s' i = act s i && negb (u8 (st (vd_id d)) =? VIRQ_STATE_INACTIVE)) /\
    (forall k, 0 <= k < nr_lrs s -> bit_at (lrs_bitmap s') k = bit_at (lrs_bitmap s) k && negb (u8 (st k) =? VIRQ_STATE_INACTIVE)) /\
    (forall c', c' <> c -> vcpus v' !! c' = vcpus v !! c').
Proof.
  intros G Hs. pose proof (vg_lr v G c s Hs) as Hl. destruct (exit_spec st v c s (vg_ok v G) Hs Hl) as (v' & s' & E & X).
  pose proof (exited_registers st v v' c s s' (vg_ok v G) Hs Hl X) as Hregs.
  destruct X as [X1 X2 X3 X4 (X5 & _ & X5') X6 X7]. exists v', s'. split_and!; try done; [|apply X2].
  intros i d Hi Hd. destruct (act s i) eqn:Ha; [|destruct (X6 i Hi) as [-> _]; [by right|done]].
  destruct (X7 i d Hi ltac:(lia) Ha Hd) as (d' & _ & Hleft). unfold left_by in Hleft. by destruct (u8 _ =? _); destruct Hleft as [-> _].
Qed.

Lemma exit_guest_exact_witness :
  exists v s v' s', vrun vdemo [(0%nat, SendVm 40); (0%nat, SendLocal 0 27); (0%nat, Enter 0)] = Ret v /\ vcpus v !! 0%nat = Some s /\
    vgic_irq_exit_from_guest v 0 (fun _ => VIRQ_STATE_INACTIVE) = Ret v' /\ vcpus v' !! 0%nat = Some s' /\
    act s 27 = true /\ act s' 27 = false /\ pend s' 40 = true.
Proof.
  destruct (vrun_ok [(0%nat, SendVm 40); (0%nat, SendLocal 0 27); (0%nat, Enter 0)] vdemo vdemo_ok) as (v & E & G).
  { repeat (apply List.Forall_cons; [vm_compute; intuition congruence || lia|]). apply List.Forall_nil. }
  assert (Ev : v = ret_vm (vrun vdemo [(0%nat, SendVm 40); (0%nat, SendLocal 0 27); (0%nat, Enter 0)])) by (by rewrite E).
  destruct (vcpus v !! 0%nat) as [s|] eqn:Hs; [|subst v; vm_compute in Hs; discriminate].
  destruct (exit_guest_exact v 0 s (fun _ => VIRQ_STATE_INACTIVE) G Hs) as (v' & s' & E' & Hs' & Hpend & Hact & _).
  exists v, s, v', s'. split; [exact E|]. split; [exact Hs|]. split; [exact E'|]. split; [exact Hs'|]. split; [|split].
  - subst v. vm_compute in Hs. injection Hs as <-. vm_compute. reflexivity.
  - destruct (look v 0 27) as [d|] eqn:Hd; [|subst v; vm_compute in Hd; discriminate].
    rewrite (Hact 27 d); [by rewrite andb_false_r| |done]. subst v. vm_compute. intuition congruence.
  - unfold pend. rewrite Hpend. subst v. vm_compute in Hs. injection Hs as <-. vm_compute. reflexivity.
Defined.

(** [send_virq_to_vm] on every path: a refused interrupt leaves the VM as it was and reports why
    (a local number, a number past the last interrupt, a disabled one, a hardware one, or a VM that
    is off line, or suspended without the right to be woken), and an accepted one becomes pending on
    the vcpu it is routed to, which is kicked once. *)
Theorem send_virq_to_vm_outcomes v i cur :
  vgic_ok v -> 0 <= i -> (0 < length (vcpus v))%nat ->
  (exists z, send_virq_to_vm v i cur = Ret (z, v) /\ z <> 0 /\ send_refused v i z) \/
  (exists v' c s s' d, send_virq_to_vm v i cur = Ret (0, v') /\ VM_LOCAL_VIRQ_NR <= i < vm_irq_count v /\
     vcpus v !! c = Some s /\ look v c i = Some d /\ vcpu_id d = Z.of_nat c /\ accepts v d = true /\
     virq_is_enabled d = true /\ virq_is_hw d = false /\
     posted v v' c s s' i d /\ hw_calls v' = hw_calls v ++ [KickVcpu c false]).
Proof. apply send_virq_to_vm_spec. Qed.

Lemma send_virq_to_vm_outcomes_witness :
  exists z, send_virq_to_vm vdemo 41 0 = Ret (z, vdemo) /\ z <> 0 /\ send_refused vdemo 41 z.
Proof.
  destruct (send_virq_to_vm_outcomes vdemo 41 0 vdemo_ok) as [H|(v' & c & s & s' & d & E & _)]; [lia|vm_compute; lia|exact H|].
  exfalso. vm_compute in E. discriminate E.
Defined.

(** Without list registers, [get_pending_virq] takes the lowest pending interrupt that is not
    active already, moves it from pending to active and marks it active, and reports 1023 without
    any change exactly if there is none. *)
Theorem get_pending_takes_first v c s :
  vm_ok v -> vcpus v !! c = Some s ->
  (get_pending_virq v c = Ret (BAD_IRQ, v) /\ waiting s (vm_irq_count v)) \/
  exists i v' s', get_pending_virq v c = Ret (i, v') /\ 0 <= i < vm_irq_count v /\ pend s i = true /\ act s i = false /\
    waiting s i /\ taken v v' c s s' i.
Proof.
  intros Hv Hs. pose proof (vcpu_ok v c s Hv Hs) as Hso. pose proof (vm_irqs v Hv) as [Hl _]. assert (E32 : VM_LOCAL_VIRQ_NR = 32) by done.
  unfold get_pending_virq. rewrite (get_vs_Ret v c s Hs). cbn [obind].
  destruct (find_first_bit_spec (pending_bitmap s) (vm_irq_count v) (so_pending _ _ Hso)) as (b & Eb & Hr & Hgap & Hb); [pose proof (so_plen _ _ Hso); lia|].
  rewrite Eb. cbn [obind]. apply get_pending_loop_spec; try done; [|lia]. intros j Hj Hp. unfold pend in Hp. rewrite Hgap in Hp; done.
Qed.

Lemma get_pending_takes_first_witness :
  exists v s i v' s', vrun vdemo [(0%nat, SendVm 40); (0%nat, SendLocal 0 27)] = Ret v /\ vcpus v !! 0%nat = Some s /\
    get_pending_virq v 0 = Ret (i, v') /\ i = 27 /\ taken v v' 0 s s' i.
Proof.
  destruct (vrun_ok [(0%nat, SendVm 40); (0%nat, SendLocal 0 27)] vdemo vdemo_ok) as (v & E & G).
  { repeat (apply List.Forall_cons; [vm_compute; intuition congruence || lia|]). apply List.Forall_nil. }
  assert (Ev : v = ret_vm (vrun vdemo [(0%nat, SendVm 40); (0%nat, SendLocal 0 27)])) by (by rewrite E).
  destruct (vcpus v !! 0%nat) as [s|] eqn:Hs; [|subst v; vm_compute in Hs; discriminate].
  destruct (get_pending_takes_first v 0 s (vg_ok v G) Hs) as [[E' _]|(i & v' & s' & E' & _ & _ & _ & _ & T)].
  - exfalso. subst v. vm_compute in E'. discriminate E'.
  - exists v, s, i, v', s'. split; [exact E|]. split; [exact Hs|]. split; [exact E'|]. split; [|exact T].
    subst v. vm_compute in E'. congruence.
Defined.

(** ** What the code does besides *)

(** A VM with one vcpu and one list register whose SPI 94 is requested. *)
Definition vdemo94 : vm := ret_vm (let* v := vm_setup 1 false 1 1 in vrun v [(0%nat, Request 94 0 VIRQS_ENABLED)]).

(** An interrupt of the upper half that found no list register is skipped by the next entry, although
    the register is free by then: the pass starts at the interrupt but ends at the total minus it. *)
Example failed_virq_skipped :
  let v := ret_vm (vrun vdemo94 [(0%nat, SendLocal 0 27); (0%nat, SendVm 94); (0%nat, Enter 0);
                                 (0%nat, Leave 0 (fun _ => VIRQ_STATE_INACTIVE)); (0%nat, Enter 0)]) in
  (fun s => (pend s 94, lrs_bitmap s)) <$> vcpus v !! 0%nat = Some (true, [0; 0]).
Proof. vm_compute. reflexivity. Qed.

(** Allocation of interrupts, [n] times. *)
Fixpoint alloc_many (n : nat) (v : vm) : outcome (list Z) :=
  match n with
  | O => Ret []
  | S n => let* (z, v) := alloc_vm_virq v in let* l := alloc_many n v in Ret (z :: l)
  end.

(** The map has room for 96 interrupts, the request accepts 64 of them, and its status is ignored: the
    number 96 is handed out again and again. *)
Example alloc_repeats :
  (let* v := vm_setup 1 false 1 4 in let* l := alloc_many 67 v in Ret (drop 63 l)) = Ret [95; 96; 96; 96].
Proof. vm_compute. reflexivity. Qed.

(** Disabling an interrupt that is not a hardware one masks hardware interrupt 0. *)
Example disable_masks_irq0 : hw_calls (ret_vm (vexec 0 vdemo (SetDisable 0 40))) = [IrqMask 0].
Proof. vm_compute. reflexivity. Qed.
