(* ===== verification/MemRegion.v ===== *)
(** * Boot memory regions

    [core/mem.c]: the table of physical memory regions the boot code builds from
    the device tree, splits for reserved and guest memory, and cuts to block
    alignment before the page allocator takes it over.

    [mem_list] is the list in link order; a region's slot in the static array is
    never reused, so [current_region_id] only counts.  The theorems are about the
    physical addresses: regions never overlap, a split moves exactly the given
    range to its new type, and the alignment pass loses nothing but partial
    pages. *)

From S2P Require Import Prelude Types.

Definition MEMORY_REGION_TYPE_NORMAL : Z := 0.
Definition MEMORY_REGION_TYPE_RSV : Z := 1.
Definition MEMORY_REGION_TYPE_VM : Z := 2.
Definition MEMORY_REGION_TYPE_DTB : Z := 3.
Definition MEMORY_REGION_TYPE_KERNEL : Z := 4.
Definition MEMORY_REGION_TYPE_RAMDISK : Z := 5.
Definition MEMORY_REGION_TYPE_MAX : Z := 6.
Definition MAX_MEMORY_REGION : Z := 16.

Record memory_region := mk_region {
  r_type : Z;
  r_vmid : Z;
  r_base : Z;
  r_size : Z;
}.

Record mem_state := mk_mem {
  mem_list : list memory_region;
  current_region_id : Z;
}.

(** ** Operations *)

(** [alloc_memory_region] followed by the field assignments and [list_add_tail]. *)
Definition alloc_memory_region (st : mem_state) : outcome mem_state :=
  check current_region_id st <? MAX_MEMORY_REGION in
  Ret (mk_mem (mem_list st) (current_region_id st + 1)).

Definition append_region (st : mem_state) (r : memory_region) : outcome mem_state :=
  let* st := alloc_memory_region st in
  Ret (mk_mem (mem_list st ++ [r]) (current_region_id st)).

Definition region_conflict (base end_ : Z) (r : memory_region) : bool :=
  negb ((u64 (r_base r + r_size r - 1) <? base) || (end_ <? r_base r)).

Definition add_memory_region (st : mem_state) (base size type vmid : Z)
    : outcome (Z * mem_state) :=
  let end_ := u64 (base + size - 1) in
  if (size =? 0) || (MEMORY_REGION_TYPE_MAX <=? type) then Ret (- EINVAL, st) else
  if existsb (region_conflict base end_) (mem_list st) then Ret (- EINVAL, st) else
  let* st := append_region st (mk_region type vmid base size) in
  Ret (0, st).

(** The first region the loop does not [continue] over. *)
Definition split_skip (base new_end : Z) (r : memory_region) : bool :=
  let start := r_base r in
  let end_ := u64 (start + r_size r) in
  (end_ <? base) || (base <? start) || (end_ <? new_end).

Fixpoint find_region (p : memory_region -> bool) (l : list memory_region) (i : nat)
    : option (nat * memory_region) :=
  match l with
  | [] => None
  | r :: l => if p r then Some (i, r) else find_region p l (S i)
  end.

Definition set_region (st : mem_state) (i : nat) (r : memory_region) : mem_state :=
  mk_mem (<[i := r]> (mem_list st)) (current_region_id st).

Definition split_memory_region (st : mem_state) (base size type vmid : Z)
    : outcome (Z * mem_state) :=
  let new_end := u64 (base + size) in
  if (size =? 0) || (MEMORY_REGION_TYPE_MAX <=? type) then Ret (- EINVAL, st) else
  match find_region (fun r => negb (split_skip base new_end r)) (mem_list st) 0 with
  | None => Panic
  | Some (i, region) =>
      let start := r_base region in
      let end_ := u64 (start + r_size region) in
      let tmp := mk_region type vmid base size in
      if (base =? start) && (new_end =? end_) then
        Ret (0, set_region st i (mk_region type (r_vmid region) start (r_size region)))
      else if (base =? start) && (new_end <? end_) then
        let st := set_region st i
          (mk_region (r_type region) (r_vmid region) new_end (u64 (r_size region - size))) in
        let* st := append_region st tmp in Ret (0, st)
      else if (start <? base) && (new_end <? end_) then
        let* st := append_region st
          (mk_region (r_type region) (r_vmid region) new_end (u64 (end_ - new_end))) in
        let st := set_region st i
          (mk_region (r_type region) (r_vmid region) start (u64 (base - start))) in
        let* st := append_region st tmp in Ret (0, st)
      else if (start <? base) && (end_ =? new_end) then
        let st := set_region st i
          (mk_region (r_type region) (r_vmid region) start (u64 (r_size region - size))) in
        let* st := append_region st tmp in Ret (0, st)
      else Ret (- EINVAL, st)
  end.

(** [prepare_memory_region] on the region at position [i] of the list. *)
Definition prepare_memory_region (st : mem_state) (i : nat) (re : memory_region)
    : outcome mem_state :=
  let tmp := PAGE_ALIGN (u64 (r_base re + r_size re)) in
  let phy_base := PAGE_BALIGN (r_base re) in
  let size := u64 (tmp - phy_base) in
  let st := set_region st i (mk_region (r_type re) (r_vmid re) phy_base size) in
  if size =? 0 then Ret st else
  if IS_BLOCK_ALIGN phy_base && IS_BLOCK_ALIGN size then Ret st else
  let start := phy_base in
  let end_ := u64 (phy_base + size) in
  let tmp := BLOCK_ALIGN end_ in
  let phy_base := BLOCK_BALIGN phy_base in
  let size := u64 (tmp - phy_base) in
  let st := set_region st i (mk_region (r_type re) (r_vmid re) phy_base size) in
  let left_size := u64 (phy_base - start) in
  let right_size := u64 (end_ - u64 (phy_base + size)) in
  let* st := if negb (left_size =? 0)
             then let* (_, st) := add_memory_region st start left_size MEMORY_REGION_TYPE_NORMAL 0 in
                  Ret st
             else Ret st in
  if negb (right_size =? 0)
  then let* (_, st) := add_memory_region st (u64 (phy_base + size)) right_size
                         MEMORY_REGION_TYPE_NORMAL 0 in
       Ret st
  else Ret st.

(** The two [list_for_each_entry_safe] passes of [mm_init].  The safe iterator
    reads the successor before the body runs: entries appended by the body are
    visited, except after the last one. *)
Fixpoint prepare_regions (fuel : nat) (st : mem_state) (i : nat) : outcome mem_state :=
  match mem_list st !! i with
  | None => Ret st
  | Some re =>
      match fuel with
      | O => OutOfFuel
      | S fuel =>
          let last := Nat.eqb (S i) (length (mem_list st)) in
          let* st := if r_type re =? MEMORY_REGION_TYPE_NORMAL
                     then prepare_memory_region st i re else Ret st in
          if last then Ret st else prepare_regions fuel st (S i)
      end
  end.

Definition delete_empty_regions (st : mem_state) : mem_state :=
  mk_mem (filter (fun r => r_size r <> 0) (mem_list st)) (current_region_id st).

(** Every visit either stops or leaves fewer than [MAX_MEMORY_REGION] slots. *)
Definition align_regions (st : mem_state) : outcome mem_state :=
  let* st := prepare_regions (length (mem_list st) + Z.to_nat MAX_MEMORY_REGION) st 0 in
  Ret (delete_empty_regions st).

(** ** Invariant *)

Definition region_end (r : memory_region) : Z := r_base r + r_size r.
Definition in_region (r : memory_region) (a : Z) : Prop := r_base r <= a < region_end r.

Definition region_ok (r : memory_region) : Prop :=
  0 <= r_base r /\ 0 < r_size r /\ region_end r < 2 ^ 64 /\ r_type r < MEMORY_REGION_TYPE_MAX.

Definition disjoint_regions (r1 r2 : memory_region) : Prop :=
  forall a, in_region r1 a -> in_region r2 a -> False.

Definition pairwise_disjoint (l : list memory_region) : Prop :=
  forall i j ri rj, l !! i = Some ri -> l !! j = Some rj -> i <> j -> disjoint_regions ri rj.

Definition regions_ok (st : mem_state) : Prop :=
  Forall region_ok (mem_list st) /\ pairwise_disjoint (mem_list st) /\
  Z.of_nat (length (mem_list st)) = current_region_id st /\
  current_region_id st <= MAX_MEMORY_REGION.

(** The region that owns an address. *)
Definition owns (l : list memory_region) (a : Z) (r : memory_region) : Prop :=
  r ∈ l /\ in_region r a.

Lemma pairwise_insert l i r r' :
  pairwise_disjoint l -> l !! i = Some r -> (forall a, in_region r' a -> in_region r a) ->
  pairwise_disjoint (<[i := r']> l).
Proof.
  intros Hp Hi Hsub j k rj rk Hj Hk Hne a Ha Hb.
  apply list_lookup_insert_Some in Hj as [(-> & -> & _)|[? Hj]];
    apply list_lookup_insert_Some in Hk as [(-> & -> & _)|[? Hk]]; try done.
  - by apply (Hp j k r rk Hi Hk Hne a); [apply Hsub|].
  - by apply (Hp j k rj r Hj Hi Hne a); [|apply Hsub].
  - by apply (Hp j k rj rk Hj Hk Hne a).
Qed.

Lemma pairwise_snoc l r :
  pairwise_disjoint l -> (forall x a, x ∈ l -> in_region x a -> in_region r a -> False) ->
  pairwise_disjoint (l ++ [r]).
Proof.
  intros Hp Hr j k rj rk Hj Hk Hne a Ha Hb.
  apply lookup_app_Some in Hj as [Hj|[Hlj Hj]]; apply lookup_app_Some in Hk as [Hk|[Hlk Hk]].
  - by apply (Hp j k rj rk Hj Hk Hne a).
  - apply list_lookup_singleton_Some in Hk as [_ <-].
    apply (Hr rj a); [by eapply list_elem_of_lookup_2|done..].
  - apply list_lookup_singleton_Some in Hj as [_ <-].
    apply (Hr rk a); [by eapply list_elem_of_lookup_2|done..].
  - apply list_lookup_singleton_Some in Hj as [? _], Hk as [? _]. lia.
Qed.

Lemma elem_of_insert_region (l : list memory_region) i r' x :
  (i < length l)%nat ->
  x ∈ <[i := r']> l <-> x = r' \/ exists j, j <> i /\ l !! j = Some x.
Proof.
  intros Hi. rewrite list_elem_of_lookup. split.
  - intros [j Hj]. apply list_lookup_insert_Some in Hj as [(-> & -> & _)|[? Hj]]; eauto.
  - intros [->|(j & Hj & Hl)].
    + exists i. by apply list_lookup_insert_eq.
    + exists j. by rewrite list_lookup_insert_ne.
Qed.

Lemma region_conflict_spec base end_ r :
  region_ok r -> base <= end_ ->
  region_conflict base end_ r = true <-> exists a, base <= a <= end_ /\ in_region r a.
Proof.
  intros (H1 & H2 & H3 & _) Hle. unfold region_conflict, in_region, region_end in *.
  rewrite wrap_small by lia. split.
  - intros H. bool_hyps. exists (Z.max base (r_base r)). lia.
  - intros (a & ? & ?). apply negb_true_iff, orb_false_iff. split; apply Z.ltb_ge; lia.
Qed.

(** ** Adding a region *)

Lemma existsb_conflict st base size :
  regions_ok st -> 0 <= base -> 0 < size -> base + size < 2 ^ 64 ->
  existsb (region_conflict base (u64 (base + size - 1))) (mem_list st) = true <->
  exists r a, owns (mem_list st) a r /\ base <= a < base + size.
Proof.
  intros (Hf & _) Hb Hs Hm. rewrite existsb_exists, wrap_small by lia. split.
  - intros (r & Hr & Hc). apply list_elem_of_In in Hr.
    apply region_conflict_spec in Hc as (a & ? & ?); [|by eapply Forall_forall|lia].
    exists r, a. split; [done|lia].
  - intros (r & a & [Hr Ha] & Hab). exists r. split; [by apply list_elem_of_In|].
    apply region_conflict_spec; [by eapply Forall_forall|lia|]. exists a. split; [lia|done].
Qed.

Lemma append_region_ok st r :
  regions_ok st -> region_ok r -> (forall x a, owns (mem_list st) a x -> in_region r a -> False) ->
  current_region_id st < MAX_MEMORY_REGION ->
  exists st', append_region st r = Ret st' /\ mem_list st' = mem_list st ++ [r] /\
    current_region_id st' = current_region_id st + 1 /\ regions_ok st'.
Proof.
  intros (Hf & Hp & Hl & Hid) Hr Hd Hlt. unfold append_region, alloc_memory_region.
  rewrite (proj2 (Z.ltb_lt _ _) Hlt). eexists. split; [done|]. split; [done|]. split; [done|].
  split; [by apply Forall_app; split; [|apply Forall_singleton]|].
  split; [apply pairwise_snoc; [done|]; intros x a Hx; intros; by eapply Hd|].
  cbn. rewrite length_app. cbn. lia.
Qed.

Lemma add_memory_region_spec st base size type vmid :
  regions_ok st -> 0 <= base -> 0 <= size -> base + size < 2 ^ 64 ->
  let bad := size = 0 \/ MEMORY_REGION_TYPE_MAX <= type \/
             exists r a, owns (mem_list st) a r /\ base <= a < base + size in
  (bad /\ add_memory_region st base size type vmid = Ret (- EINVAL, st)) \/
  (~ bad /\ current_region_id st = MAX_MEMORY_REGION /\
   add_memory_region st base size type vmid = Panic) \/
  (~ bad /\ exists st', add_memory_region st base size type vmid = Ret (0, st') /\
     mem_list st' = mem_list st ++ [mk_region type vmid base size] /\ regions_ok st').
Proof.
  intros Hok Hb Hs Hm bad. unfold add_memory_region.
  destruct (Z.eqb_spec size 0); [left; split; [by left|done]|].
  destruct (Z.leb_spec MEMORY_REGION_TYPE_MAX type); [left; split; [by right; left|done]|].
  cbn [orb]. pose proof (existsb_conflict st base size Hok Hb ltac:(lia) Hm) as Hc.
  destruct (existsb _ _); [left; split; [right; right; by apply Hc|done]|].
  assert (Hnb : ~ bad).
  { intros [|[|Hex]]; [lia..|]. by apply Hc in Hex. }
  right. destruct (decide (current_region_id st < MAX_MEMORY_REGION)) as [Hlt|Hge].
  - right. split; [done|].
    destruct (append_region_ok st (mk_region type vmid base size)) as (st' & -> & Hl & _ & Hok');
      [done| |..|done|].
    + split; [done|]. split; [cbn; lia|]. split; [done|cbn; lia].
    + intros x a Hx Ha. apply Hnb. right. right. by exists x, a.
    + exists st'. done.
  - left. split; [done|]. destruct Hok as (_ & _ & _ & Hid). split; [lia|].
    unfold append_region, alloc_memory_region. by rewrite (proj2 (Z.ltb_ge _ _)) by lia.
Qed.

(** ** Splitting a region *)

Lemma find_region_spec p l i :
  match find_region p l i with
  | Some (k, r) => exists j, k = (i + j)%nat /\ l !! j = Some r /\ p r = true
  | None => forall r, r ∈ l -> p r = false
  end.
Proof.
  revert i. induction l as [|r l IH]; intros i; cbn [find_region]; [intros r Hr; by apply not_elem_of_nil in Hr|].
  destruct (p r) eqn:E; [exists 0%nat; split; [lia|done]|].
  specialize (IH (S i)). destruct (find_region p l (S i)) as [[k x]|].
  - destruct IH as (j & -> & ? & ?). exists (S j). split; [lia|done].
  - intros x [->|Hx]%elem_of_cons; [done|by apply IH].
Qed.

Definition contains (r : memory_region) (base size : Z) : Prop :=
  r_base r <= base /\ base + size <= region_end r.

Lemma split_skip_spec base size r :
  region_ok r -> 0 <= base -> 0 < size -> base + size < 2 ^ 64 ->
  negb (split_skip base (base + size) r) = true <-> contains r base size.
Proof.
  intros (? & ? & ? & _) Hb Hs Hm. unfold split_skip, contains, region_end in *.
  rewrite wrap_small by lia. split.
  - intros H'. bool_hyps. lia.
  - intros H'. apply negb_true_iff. rewrite !orb_false_iff, !Z.ltb_ge. lia.
Qed.

(** The address map after moving [[base, base + size)] to [tmp]: addresses of the
    range belong to a region of [tmp]'s type, all others keep type and owner. *)
Definition split_map (l l' : list memory_region) (base size type : Z) : Prop :=
  forall a t v,
    (exists r, owns l' a r /\ r_type r = t /\ r_vmid r = v) ->
    (base <= a < base + size -> t = type) /\
    (~ base <= a < base + size -> exists r, owns l a r /\ r_type r = t /\ r_vmid r = v).

Definition covers (l l' : list memory_region) : Prop :=
  forall a, (exists r, owns l a r) <-> (exists r, owns l' a r).

Lemma pairwise_app l1 l2 :
  pairwise_disjoint l1 -> pairwise_disjoint l2 ->
  (forall x y a, x ∈ l1 -> y ∈ l2 -> in_region x a -> in_region y a -> False) ->
  pairwise_disjoint (l1 ++ l2).
Proof.
  intros H1 H2 Hx j k rj rk Hj Hk Hne a Ha Hb.
  apply lookup_app_Some in Hj as [Hj|[Hlj Hj]]; apply lookup_app_Some in Hk as [Hk|[Hlk Hk]].
  - by apply (H1 j k rj rk Hj Hk Hne a).
  - apply (Hx rj rk a); [by eapply list_elem_of_lookup_2..|done|done].
  - apply (Hx rk rj a); [by eapply list_elem_of_lookup_2..|done|done].
  - eapply (H2 _ _ rj rk Hj Hk); [lia|done|done].
Qed.

Section refine_region.
Context (l : list memory_region) (i : nat) (r r1 : memory_region) (extra : list memory_region).
Hypothesis Hl : Forall region_ok l.
Hypothesis Hp : pairwise_disjoint l.
Hypothesis Hi : l !! i = Some r.
Hypothesis Hpieces : Forall region_ok (r1 :: extra).
Hypothesis Hdisj : pairwise_disjoint (r1 :: extra).
Hypothesis Hcover : forall a, in_region r a <-> exists x, x ∈ r1 :: extra /\ in_region x a.

Let l' := <[i := r1]> l ++ extra.

Lemma refine_elem x :
  x ∈ l' <-> x ∈ r1 :: extra \/ exists j, j <> i /\ l !! j = Some x.
Proof.
  unfold l'. rewrite elem_of_app, elem_of_insert_region, elem_of_cons by (by eapply lookup_lt_Some).
  tauto.
Qed.

Lemma refine_ok : Forall region_ok l'.
Proof.
  apply Forall_forall. intros x [Hx|(j & _ & Hj)]%refine_elem.
  - exact (proj1 (Forall_forall _ _) Hpieces x Hx).
  - exact (Forall_lookup_1 _ _ _ _ Hl Hj).
Qed.

Lemma refine_disjoint : pairwise_disjoint l'.
Proof.
  assert (Hsub : forall x a, x ∈ r1 :: extra -> in_region x a -> in_region r a)
    by (intros x a Hx Ha; apply Hcover; eauto).
  apply pairwise_app.
  - eapply pairwise_insert; [done..|]. intros a. apply Hsub. by left.
  - intros j k rj rk Hj Hk Hne. apply (Hdisj (S j) (S k)); [done|done|lia].
  - intros x y a Hx Hy Ha Hb. apply elem_of_insert_region in Hx as [->|(j & Hj & Hx)];
      [|..|by eapply lookup_lt_Some].
    + apply list_elem_of_lookup in Hy as [k Hk].
      by apply (Hdisj 0%nat (S k) r1 y eq_refl Hk ltac:(lia) a).
    + apply (Hp j i x r Hx Hi Hj a); [done|]. apply (Hsub y); [by right|done].
Qed.

Lemma refine_covers : covers l l'.
Proof.
  intros a. split.
  - intros (x & Hx & Ha). apply list_elem_of_lookup in Hx as [j Hj].
    destruct (decide (j = i)) as [->|Hne].
    + assert (x = r) as -> by congruence. apply Hcover in Ha as (y & Hy & Ha).
      exists y. split; [apply refine_elem; by left|done].
    + exists x. split; [apply refine_elem; right; eauto|done].
  - intros (x & [Hx|(j & _ & Hj)]%refine_elem & Ha).
    + exists r. split; [by eapply list_elem_of_lookup_2|]. apply Hcover; eauto.
    + exists x. split; [by eapply list_elem_of_lookup_2|done].
Qed.

Lemma refine_split_map base size type :
  (forall a, base <= a < base + size -> in_region r a) ->
  (forall x a, x ∈ r1 :: extra -> in_region x a ->
     (base <= a < base + size -> r_type x = type) /\
     (~ base <= a < base + size -> r_type x = r_type r /\ r_vmid x = r_vmid r)) ->
  split_map l l' base size type.
Proof.
  intros Hin Hty a t v (x & [Hx Ha] & <- & <-). apply refine_elem in Hx as [Hx|(j & Hne & Hj)].
  - destruct (Hty x a Hx Ha) as [H1 H2]. split; [done|]. intros Hout.
    destruct (H2 Hout) as [-> ->]. exists r. split; [|done].
    split; [by eapply list_elem_of_lookup_2|]. apply Hcover; eauto.
  - split.
    + intros Hr. destruct (Hp j i x r Hj Hi Hne a Ha (Hin a Hr)).
    + intros _. exists x. split; [|done]. split; [by eapply list_elem_of_lookup_2|done].
Qed.
End refine_region.

(** Intervals: the facts about pieces are linear arithmetic. *)
Ltac pieces :=
  repeat match goal with
  | H : _ ∈ _ :: _ |- _ => apply elem_of_cons in H as [->|H]
  | H : _ ∈ [] |- _ => by apply not_elem_of_nil in H
  end; unfold in_region, region_end, contains in *; cbn in *.

Lemma pairwise_cons r l :
  pairwise_disjoint l -> (forall x a, x ∈ l -> in_region r a -> in_region x a -> False) ->
  pairwise_disjoint (r :: l).
Proof.
  intros Hp Hr. apply (pairwise_app [r] l); [|done|].
  - intros [|j] [|k] ? ? ? ? ?; done.
  - intros x y a [->|[]%not_elem_of_nil]%elem_of_cons Hy Ha Hb. by apply (Hr y a).
Qed.

Lemma pairwise_nil : pairwise_disjoint [].
Proof. intros ? ? ? ? H. done. Qed.

Lemma append_region_run l id r :
  id < MAX_MEMORY_REGION -> append_region (mk_mem l id) r = Ret (mk_mem (l ++ [r]) (id + 1)).
Proof.
  intros H. unfold append_region, alloc_memory_region. cbn [current_region_id].
  by rewrite (proj2 (Z.ltb_lt _ _) H).
Qed.

(** What a split promises about the list it produces. *)
Definition split_result (st st' : mem_state) (base size type : Z) : Prop :=
  regions_ok st' /\ covers (mem_list st) (mem_list st') /\
  split_map (mem_list st) (mem_list st') base size type.

Lemma split_pieces st st' i r r1 extra base size type :
  regions_ok st -> mem_list st !! i = Some r -> contains r base size -> 0 < size ->
  Forall region_ok (r1 :: extra) -> pairwise_disjoint (r1 :: extra) ->
  (forall a, in_region r a <-> exists x, x ∈ r1 :: extra /\ in_region x a) ->
  (forall x a, x ∈ r1 :: extra -> in_region x a ->
     (base <= a < base + size -> r_type x = type) /\
     (~ base <= a < base + size -> r_type x = r_type r /\ r_vmid x = r_vmid r)) ->
  mem_list st' = <[i := r1]> (mem_list st) ++ extra ->
  current_region_id st' = current_region_id st + Z.of_nat (length extra) ->
  current_region_id st' <= MAX_MEMORY_REGION ->
  split_result st st' base size type.
Proof.
  intros (Hl & Hp & Hlen & Hid) Hi Hc Hs Hpieces Hdisj Hcover Hty El Eid Hmax.
  pose proof (refine_ok (mem_list st) i r r1 extra Hl Hi Hpieces) as H1.
  pose proof (refine_disjoint (mem_list st) i r r1 extra Hp Hi Hdisj Hcover) as H2.
  unfold split_result, regions_ok. rewrite El. split; [|split].
  - split; [done|]. split; [done|]. rewrite length_app, length_insert. lia.
  - by eapply refine_covers.
  - eapply refine_split_map; [done..| |done].
    intros a Ha. unfold contains, in_region in *. lia.
Qed.

Lemma ex_elem_cons (P : memory_region -> Prop) r l :
  (exists x, x ∈ r :: l /\ P x) <-> P r \/ exists x, x ∈ l /\ P x.
Proof.
  split.
  - intros (x & [->|Hx]%elem_of_cons & HP); [by left|right; eauto].
  - intros [HP|(x & Hx & HP)]; [exists r|exists x]; rewrite elem_of_cons; auto.
Qed.

Lemma ex_elem_nil (P : memory_region -> Prop) : (exists x, x ∈ [] /\ P x) <-> False.
Proof. split; [|done]. intros (x & Hx & _). by apply not_elem_of_nil in Hx. Qed.

(** Discharge the side conditions of [split_pieces] for explicit pieces. *)
Ltac split_side :=
  rewrite ?app_nil_r;
  first
  [ done
  | repeat apply Forall_cons_2; try apply Forall_nil_2; unfold region_ok, region_end; cbn; lia
  | repeat (apply pairwise_cons; [|intros ? ? ? ? ?; pieces; lia]); apply pairwise_nil
  | intros a; rewrite !ex_elem_cons, ex_elem_nil; unfold in_region, region_end; cbn; lia
  | intros y a Hy Ha; pieces; (split; intros; (done || lia))
  | cbn; lia ].

Lemma split_memory_region_ok st base size type vmid r :
  regions_ok st -> 0 <= base -> 0 < size -> base + size < 2 ^ 64 ->
  type < MEMORY_REGION_TYPE_MAX -> current_region_id st + 2 <= MAX_MEMORY_REGION ->
  r ∈ mem_list st -> contains r base size ->
  exists st', split_memory_region st base size type vmid = Ret (0, st') /\
    split_result st st' base size type.
Proof.
  intros Hok Hb Hs Hm Ht Hid Hr Hc. unfold split_memory_region.
  rewrite (wrap_small 64 (base + size)) by lia.
  destruct (Z.eqb_spec size 0); [lia|]. destruct (Z.leb_spec MEMORY_REGION_TYPE_MAX type); [lia|].
  cbn [orb]. pose proof (find_region_spec (fun r => negb (split_skip base (base + size) r))
    (mem_list st) 0) as Hf. cbv beta in Hf.
  assert (Hall : forall x, x ∈ mem_list st -> region_ok x).
  { destruct Hok as [Hl _]. by apply Forall_forall. }
  destruct (find_region _ _ _) as [[i x]|].
  2: { specialize (Hf r Hr). apply split_skip_spec in Hc; [|by auto|lia..]. congruence. }
  destruct Hf as (j & -> & Hi & Hsk). cbn [Nat.add].
  pose proof (Hall x (list_elem_of_lookup_2 _ _ _ Hi)) as Hx.
  apply split_skip_spec in Hsk as Hsk'; [|done..]. clear Hr Hc r Hall Hsk. pose proof Hsk' as Hsk.
  destruct Hx as (Hx1 & Hx2 & Hx3 & Hx4). unfold contains, region_end in Hsk, Hx3.
  assert (Hlt : (j < length (mem_list st))%nat) by (by eapply lookup_lt_Some).
  rewrite !wrap_small by lia. destruct st as [l id]; cbn [mem_list current_region_id] in *.
  destruct (Z.eqb_spec base (r_base x)), (Z.eqb_spec (base + size) (r_base x + r_size x));
    case_bools; unfold set_region; cbn [mem_list current_region_id obind];
    rewrite ?append_region_run by lia; cbn [obind mem_list current_region_id];
    rewrite ?append_region_run by lia; cbn [obind mem_list current_region_id].
  - eexists; split; [reflexivity|].
    eapply (split_pieces _ _ j x (mk_region type (r_vmid x) (r_base x) (r_size x)) []); split_side.
  - eexists; split; [reflexivity|].
    eapply (split_pieces _ _ j x (mk_region (r_type x) (r_vmid x) (base + size) (r_size x - size))
      [mk_region type vmid base size]); split_side.
  - eexists; split; [reflexivity|].
    eapply (split_pieces _ _ j x (mk_region (r_type x) (r_vmid x) (r_base x) (r_size x - size))
      [mk_region type vmid base size]); split_side.
  - rewrite insert_app_l by done. rewrite <- app_assoc. eexists; split; [reflexivity|].
    eapply (split_pieces _ _ j x (mk_region (r_type x) (r_vmid x) (r_base x) (base - r_base x))
      [mk_region (r_type x) (r_vmid x) (base + size) (r_base x + r_size x - (base + size));
       mk_region type vmid base size]); split_side.
Qed.

Lemma split_memory_region_panic st base size type vmid :
  regions_ok st -> 0 <= base -> 0 < size -> base + size < 2 ^ 64 ->
  type < MEMORY_REGION_TYPE_MAX -> (forall r, r ∈ mem_list st -> ~ contains r base size) ->
  split_memory_region st base size type vmid = Panic.
Proof.
  intros (Hl & _) Hb Hs Hm Ht Hno. unfold split_memory_region. rewrite wrap_small by lia. case_bools.
  pose proof (find_region_spec (fun r => negb (split_skip base (base + size) r))
    (mem_list st) 0) as Hf. cbv beta in Hf.
  destruct (find_region _ _ _) as [[i x]|]; [|done].
  destruct Hf as (j & -> & Hi & Hsk). apply split_skip_spec in Hsk; [|by eapply Forall_lookup_1|done..].
  by apply Hno in Hsk; [|by eapply list_elem_of_lookup_2].
Qed.

(** ** The alignment pass *)

(** [[base, base + size)] lies before or after the (possibly empty) region. *)
Definition apart (base size : Z) (r : memory_region) : Prop :=
  0 <= r_base r /\ 0 < region_end r < 2 ^ 64 /\
  (region_end r <= base \/ base + size <= r_base r).

Lemma add_region_fits l id base size type vmid :
  0 <= base -> 0 < size -> base + size < 2 ^ 64 -> type < MEMORY_REGION_TYPE_MAX ->
  id < MAX_MEMORY_REGION -> Forall (apart base size) l ->
  add_memory_region (mk_mem l id) base size type vmid =
  Ret (0, mk_mem (l ++ [mk_region type vmid base size]) (id + 1)).
Proof.
  intros Hb Hs Hm Ht Hid Hl. unfold add_memory_region. case_bools.
  replace (existsb _ _) with false; [by rewrite append_region_run|].
  symmetry. apply not_true_iff_false. rewrite existsb_exists. intros (r & Hr & Hc).
  apply list_elem_of_In in Hr. destruct (proj1 (Forall_forall _ _) Hl r Hr) as (? & ? & Hap).
  revert Hc. cbn [mem_list]. unfold region_conflict, region_end in *. rewrite !wrap_small by lia.
  case_bools; done.
Qed.

Lemma disjoint_apart re r base size :
  region_ok r -> disjoint_regions re r -> 0 < size -> r_base re <= base ->
  base + size <= region_end re -> apart base size r.
Proof.
  intros (H1 & H2 & H3 & _) Hd Hs Hlo Hhi. unfold apart. split; [done|]. split; [unfold region_end in *; lia|].
  destruct (decide (region_end r <= base \/ base + size <= r_base r)) as [|Hn]; [done|].
  destruct (Hd (Z.max base (r_base r))); unfold in_region, region_end in *; lia.
Qed.

Lemma others_apart l i re mid base size :
  Forall region_ok l -> pairwise_disjoint l -> l !! i = Some re -> 0 < size ->
  r_base re <= base -> base + size <= region_end re -> apart base size mid ->
  Forall (apart base size) (<[i := mid]> l).
Proof.
  intros Hl Hp Hi Hs Hlo Hhi Hmid. apply Forall_forall.
  intros x [->|(j & Hne & Hj)]%elem_of_insert_region; [done| |by eapply lookup_lt_Some].
  apply (disjoint_apart re); [by eapply Forall_lookup_1|apply (Hp i j); [done|done|congruence]|done..].
Qed.

(** The list after the pass: the block-aligned middle in place of [re], the
    remainders on both sides at the tail. *)
Definition cut (type vmid lo blo bhi hi : Z) : memory_region * list memory_region :=
  (mk_region type vmid blo (bhi - blo),
   (if lo =? blo then [] else [mk_region MEMORY_REGION_TYPE_NORMAL 0 lo (blo - lo)]) ++
   (if bhi =? hi then [] else [mk_region MEMORY_REGION_TYPE_NORMAL 0 bhi (hi - bhi)])).

(** The early return is taken exactly when there is nothing to cut. *)
Lemma block_aligned_cut lo hi blo bhi :
  blo mod BLOCK_SIZE = 0 -> lo <= blo < lo + BLOCK_SIZE ->
  bhi mod BLOCK_SIZE = 0 -> hi - BLOCK_SIZE < bhi <= hi ->
  IS_BLOCK_ALIGN lo && IS_BLOCK_ALIGN (hi - lo) = (lo =? blo) && (bhi =? hi).
Proof.
  change BLOCK_SIZE with 2097152. intros H1 H2 H3 H4. rewrite !IS_BLOCK_ALIGN_spec.
  change BLOCK_SIZE with 2097152. apply eq_iff_eq_true.
  rewrite !andb_true_iff, !Z.eqb_eq. Z.div_mod_to_equations. lia.
Qed.

(** The two [add_memory_region] calls at the end. *)
Lemma prepare_tail l id i re mid lo blo bhi hi :
  Forall region_ok l -> pairwise_disjoint l -> l !! i = Some re -> id + 2 <= MAX_MEMORY_REGION ->
  r_base re <= lo -> hi <= region_end re -> region_end re < 2 ^ 64 ->
  lo <= blo -> blo <= bhi -> bhi <= hi -> 0 <= lo -> 0 < blo ->
  r_base mid = blo -> region_end mid = bhi ->
  let extra :=
    (if lo =? blo then [] else [mk_region MEMORY_REGION_TYPE_NORMAL 0 lo (blo - lo)]) ++
    (if bhi =? hi then [] else [mk_region MEMORY_REGION_TYPE_NORMAL 0 bhi (hi - bhi)]) in
  (let* st := if negb (blo - lo =? 0)
              then let* (_, st) := add_memory_region (mk_mem (<[i := mid]> l) id) lo (blo - lo)
                                     MEMORY_REGION_TYPE_NORMAL 0 in Ret st
              else Ret (mk_mem (<[i := mid]> l) id) in
   if negb (hi - bhi =? 0)
   then let* (_, st) := add_memory_region st bhi (hi - bhi) MEMORY_REGION_TYPE_NORMAL 0 in Ret st
   else Ret st) = Ret (mk_mem (<[i := mid]> l ++ extra) (id + Z.of_nat (length extra))).
Proof.
  intros Hl Hp Hi Hid Hlo Hhi Hm H1 H2 H3 H4 H5 Eb Ee. cbv zeta.
  assert (HL : lo < blo -> Forall (apart lo (blo - lo)) (<[i := mid]> l)).
  { intros. apply (others_apart l i re); try done; try lia. unfold apart. lia. }
  assert (HR : bhi < hi -> Forall (apart bhi (hi - bhi)) (<[i := mid]> l)).
  { intros. apply (others_apart l i re); try done; try lia. unfold apart. lia. }
  destruct (Z.eqb_spec lo blo), (Z.eqb_spec bhi hi); case_bools; cbn [obind app length];
    repeat (rewrite add_region_fits; [cbn [obind]|lia..|done|lia|]);
    rewrite ?app_nil_r, ?Z.add_0_r, <- ?app_assoc; try done; try (apply HL; lia); try (apply HR; lia).
  - do 2 f_equal. lia.
  - apply Forall_app. split; [apply HR; lia|]. apply Forall_singleton.
    unfold apart, region_end in *; cbn; lia.
Qed.

Lemma prepare_cut l id i re :
  Forall region_ok l -> pairwise_disjoint l -> l !! i = Some re -> id + 2 <= MAX_MEMORY_REGION ->
  let lo := PAGE_BALIGN (r_base re) in let hi := PAGE_ALIGN (region_end re) in
  let blo := BLOCK_BALIGN lo in let bhi := BLOCK_ALIGN hi in
  region_end re + BLOCK_SIZE < 2 ^ 64 -> lo < hi -> 0 < blo -> blo <= bhi ->
  let '(mid, extra) := cut (r_type re) (r_vmid re) lo blo bhi hi in
  prepare_memory_region (mk_mem l id) i re =
  Ret (mk_mem (<[i := mid]> l ++ extra) (id + Z.of_nat (length extra))).
Proof.
  intros Hl Hp Hi Hid lo hi blo bhi Hmax Hlt Hblo Hle.
  destruct (Forall_lookup_1 _ _ _ _ Hl Hi) as (H1 & H2 & H3 & H4).
  assert (Hb : BLOCK_SIZE = 2097152) by done.
  destruct (PAGE_BALIGN_spec (r_base re)) as [_ Hl1]; [unfold region_end in *; lia|].
  destruct (PAGE_ALIGN_spec (region_end re)) as (_ & Hh1 & _); [unfold region_end in *; lia|].
  fold lo in Hl1. fold hi in Hh1.
  destruct (BLOCK_BALIGN_spec lo) as [Mbl Hbl]; [lia|].
  destruct (BLOCK_ALIGN_spec hi) as (Mbh & Hbh & _); [lia|]. fold blo in Mbl, Hbl. fold bhi in Mbh, Hbh.
  unfold cut. set (mid := mk_region (r_type re) (r_vmid re) blo (bhi - blo)).
  rewrite <- (prepare_tail l id i re mid lo blo bhi hi); try done; try lia; [|unfold region_end; cbn; lia].
  unfold prepare_memory_region. rewrite (wrap_small 64 (r_base re + r_size re)) by (unfold region_end in *; lia).
  fold lo. change (PAGE_ALIGN (r_base re + r_size re)) with hi.
  rewrite (wrap_small 64 (hi - lo)) by lia. replace (lo + (hi - lo)) with hi by lia.
  rewrite (wrap_small 64 hi) by lia. fold blo bhi.
  rewrite (wrap_small 64 (bhi - blo)), (wrap_small 64 (blo - lo)) by lia.
  replace (blo + (bhi - blo)) with bhi by lia.
  rewrite (wrap_small 64 bhi), (wrap_small 64 (hi - bhi)) by lia.
  unfold set_region. cbn [mem_list current_region_id]. rewrite list_insert_insert_eq.
  destruct (Z.eqb_spec (hi - lo) 0); [lia|].
  rewrite (block_aligned_cut lo hi blo bhi) by done.
  destruct (Z.eqb_spec lo blo) as [El|El], (Z.eqb_spec bhi hi) as [Eh|Eh]; cbn [andb]; try done.
  case_bools. cbn [obind]. unfold mid. by rewrite <- El, Eh.
Qed.

(** The cut pieces partition the page-aligned part of the region. *)
Lemma cut_pieces type vmid lo blo bhi hi :
  lo <= blo -> blo <= bhi -> bhi <= hi ->
  let '(mid, extra) := cut type vmid lo blo bhi hi in
  pairwise_disjoint (mid :: extra) /\
  forall a, in_region (mk_region type vmid lo (hi - lo)) a <->
    exists x, x ∈ mid :: extra /\ in_region x a.
Proof.
  intros H1 H2 H3. unfold cut.
  destruct (Z.eqb_spec lo blo), (Z.eqb_spec bhi hi); cbn [app]; cbv iota beta; (split;
    [ repeat (apply pairwise_cons; [|intros ? ? ? ? ?; pieces; lia]); apply pairwise_nil
    | intros a; rewrite !ex_elem_cons, ex_elem_nil; unfold in_region, region_end; cbn; lia ]).
Qed.

Lemma covers_trim l i re lo hi a :
  pairwise_disjoint l -> l !! i = Some re -> r_base re <= lo -> hi <= region_end re ->
  (exists r, owns (<[i := mk_region (r_type re) (r_vmid re) lo (hi - lo)]> l) a r) <->
  (exists r, owns l a r) /\ (in_region re a -> lo <= a < hi).
Proof.
  intros Hp Hi Hlo Hhi. assert (Hlt : (i < length l)%nat) by (by eapply lookup_lt_Some). split.
  - intros (x & [->|(j & Hne & Hj)]%elem_of_insert_region & Ha); [| |done].
    + unfold in_region, region_end in Ha; cbn in Ha. split; [|lia]. exists re.
      split; [by eapply list_elem_of_lookup_2|]. unfold in_region; lia.
    + split; [exists x; split; [by eapply list_elem_of_lookup_2|done]|].
      intros Hre. by destruct (Hp j i x re Hj Hi Hne a).
  - intros [(x & Hx & Ha) Htrim]. apply list_elem_of_lookup in Hx as [j Hj].
    destruct (decide (j = i)) as [->|Hne].
    + assert (x = re) as -> by congruence. specialize (Htrim Ha). eexists.
      split; [apply elem_of_insert_region; [done|by left]|]. unfold in_region, region_end; cbn. lia.
    + exists x. split; [apply elem_of_insert_region; [done|right; eauto]|done].
Qed.

(** A step of the pass appends as many entries as it allocates, or panics. *)
Definition grows (st : mem_state) (o : outcome mem_state) : Prop :=
  match o with
  | Ret st' => current_region_id st <= current_region_id st' <= MAX_MEMORY_REGION /\
      Z.of_nat (length (mem_list st')) - current_region_id st' =
      Z.of_nat (length (mem_list st)) - current_region_id st
  | Panic => True
  | _ => False
  end.

Lemma grows_bind st o k :
  grows st o -> (forall st', current_region_id st' <= MAX_MEMORY_REGION -> grows st' (k st')) ->
  grows st (obind k o).
Proof.
  intros Ho Hk. destruct o as [st'| | |]; cbn [obind]; try done. destruct Ho as [H1 H2].
  specialize (Hk st' (proj2 H1)). destruct (k st') as [st2| | |]; try done.
  unfold grows in *. lia.
Qed.

Lemma grows_add st b s t v :
  current_region_id st <= MAX_MEMORY_REGION ->
  grows st (let* (_, st') := add_memory_region st b s t v in Ret st').
Proof.
  intros Hid. unfold add_memory_region, append_region, alloc_memory_region.
  destruct (_ || _); [cbn; lia|]. destruct (existsb _ _); [cbn; lia|].
  destruct (Z.ltb_spec (current_region_id st) MAX_MEMORY_REGION); [|done].
  cbn. rewrite length_app. cbn. lia.
Qed.

Lemma grows_refl st : current_region_id st <= MAX_MEMORY_REGION -> grows st (Ret st).
Proof. cbn. lia. Qed.

Lemma grows_if (b : bool) st o1 o2 : grows st o1 -> grows st o2 -> grows st (if b then o1 else o2).
Proof. by destruct b. Qed.

Lemma grows_set st i r o : grows (set_region st i r) o -> grows st o.
Proof. unfold grows. cbn. by rewrite length_insert. Qed.

Lemma prepare_shape st i re :
  current_region_id st <= MAX_MEMORY_REGION -> grows st (prepare_memory_region st i re).
Proof.
  intros Hid. unfold prepare_memory_region. set (st1 := set_region st i _).
  apply (grows_set _ i (mk_region (r_type re) (r_vmid re) (PAGE_BALIGN (r_base re))
    (u64 (PAGE_ALIGN (u64 (r_base re + r_size re)) - PAGE_BALIGN (r_base re))))). fold st1.
  apply grows_if; [by apply grows_refl|]. apply grows_if; [by apply grows_refl|].
  eapply grows_set. apply grows_bind.
  - apply grows_if; [by apply grows_add|by apply grows_refl].
  - intros st2 H2. apply grows_if; [by apply grows_add|by apply grows_refl].
Qed.

Lemma prepare_regions_total fuel st i :
  current_region_id st <= MAX_MEMORY_REGION ->
  Z.of_nat (length (mem_list st)) - current_region_id st + MAX_MEMORY_REGION
    <= Z.of_nat i + Z.of_nat fuel ->
  (exists st', prepare_regions fuel st i = Ret st') \/ prepare_regions fuel st i = Panic.
Proof.
  revert st i. induction fuel as [|fuel IH]; intros st i Hid Hf; cbn [prepare_regions];
    destruct (mem_list st !! i) as [re|] eqn:Hi; eauto.
  - apply lookup_lt_Some in Hi. lia.
  - destruct (_ =? MEMORY_REGION_TYPE_NORMAL); cbn [obind].
    + pose proof (prepare_shape st i re Hid) as Hs.
      destruct (prepare_memory_region st i re) as [st'| | |]; cbn [obind]; try done; eauto.
      destruct (Nat.eqb _ _); [eauto|]. unfold grows in Hs. apply IH; lia.
    + destruct (Nat.eqb _ _); [eauto|]. apply IH; lia.
Qed.

(** ** Properties *)

(** C40: [add_memory_region] accepts a range that ends below 2^64 exactly when it is
    non-empty, has a valid type and overlaps no registered region; it then appends the
    range and keeps the table free of overlaps.  A rejected call changes nothing, and a
    range that would need a 17th entry stops the kernel. *)
Theorem add_memory_region_disjoint st base size type vmid :
  regions_ok st -> 0 <= base -> 0 <= size -> base + size < 2 ^ 64 ->
  let bad := size = 0 \/ MEMORY_REGION_TYPE_MAX <= type \/
             exists r a, owns (mem_list st) a r /\ base <= a < base + size in
  (bad /\ add_memory_region st base size type vmid = Ret (- EINVAL, st)) \/
  (~ bad /\ current_region_id st = MAX_MEMORY_REGION /\
   add_memory_region st base size type vmid = Panic) \/
  (~ bad /\ exists st', add_memory_region st base size type vmid = Ret (0, st') /\
     mem_list st' = mem_list st ++ [mk_region type vmid base size] /\ regions_ok st').
Proof. apply add_memory_region_spec. Qed.

Definition boot_regions : mem_state :=
  mk_mem [mk_region 0 0 0x40000000 0x4000000; mk_region 4 0 0x48000000 0x4000000] 2.

Lemma boot_regions_ok : regions_ok boot_regions.
Proof.
  split; [repeat constructor; unfold region_end; cbn; lia|]. split; [|by vm_compute].
  repeat (apply pairwise_cons; [|intros ? ? ? ? ?; pieces; lia]). apply pairwise_nil.
Qed.

Lemma add_memory_region_disjoint_witness :
  add_memory_region boot_regions 0x43000000 0x2000000 0 0 = Ret (- EINVAL, boot_regions).
Proof.
  destruct (add_memory_region_disjoint boot_regions 0x43000000 0x2000000 0 0 boot_regions_ok
    ltac:(lia) ltac:(lia) ltac:(lia)) as [[_ H]|[(_ & H & _)|[H _]]].
  - exact H.
  - discriminate H.
  - exfalso. apply H. right. right. exists (mk_region 0 0 0x40000000 0x4000000), 0x43000000.
    split; [|lia]. split; [left|]. unfold in_region, region_end; cbn; lia.
Defined.

(** When some region contains [[base, base + size)], [split_memory_region]
    succeeds, the regions stay disjoint and cover the same addresses; the range
    has the new type and every other address keeps its type and owner. *)
Theorem split_memory_region_exact st base size type vmid r :
  regions_ok st -> 0 <= base -> 0 < size -> base + size < 2 ^ 64 ->
  type < MEMORY_REGION_TYPE_MAX -> current_region_id st + 2 <= MAX_MEMORY_REGION ->
  r ∈ mem_list st -> contains r base size ->
  exists st', split_memory_region st base size type vmid = Ret (0, st') /\
    split_result st st' base size type.
Proof. apply split_memory_region_ok. Qed.

Lemma split_memory_region_exact_witness :
  exists st', split_memory_region boot_regions 0x41000000 0x1000000 2 1 = Ret (0, st') /\
    split_result boot_regions st' 0x41000000 0x1000000 2.
Proof.
  apply (split_memory_region_exact boot_regions 0x41000000 0x1000000 2 1
    (mk_region 0 0 0x40000000 0x4000000) boot_regions_ok); try lia.
  - done.
  - done.
  - left.
  - unfold contains, region_end; cbn; lia.
Defined.

(** A range that no single region contains stops the kernel instead of being
    split. *)
Theorem split_memory_region_uncontained st base size type vmid :
  regions_ok st -> 0 <= base -> 0 < size -> base + size < 2 ^ 64 ->
  type < MEMORY_REGION_TYPE_MAX -> (forall r, r ∈ mem_list st -> ~ contains r base size) ->
  split_memory_region st base size type vmid = Panic.
Proof. apply split_memory_region_panic. Qed.

Lemma split_memory_region_uncontained_witness :
  split_memory_region boot_regions 0x43000000 0x2000000 2 1 = Panic.
Proof.
  apply (split_memory_region_uncontained boot_regions 0x43000000 0x2000000 2 1 boot_regions_ok);
    try lia; [done|].
  intros r Hr [H1 H2]. unfold boot_regions in Hr; cbn [mem_list] in Hr; pieces; lia.
Defined.

(** The exact-match branch of [split_memory_region] sets the type and leaves
    the owner: the region given to guest 1 is still recorded as the host's,
    while a split of any smaller range records guest 1. *)
Theorem split_whole_region_keeps_vmid :
  split_memory_region boot_regions 0x40000000 0x4000000 2 1 =
    Ret (0, mk_mem [mk_region 2 0 0x40000000 0x4000000; mk_region 4 0 0x48000000 0x4000000] 2) /\
  split_memory_region boot_regions 0x40000000 0x2000000 2 1 =
    Ret (0, mk_mem [mk_region 0 0 0x42000000 0x2000000; mk_region 4 0 0x48000000 0x4000000;
                    mk_region 2 1 0x40000000 0x2000000] 3).
Proof. split; vm_compute; reflexivity. Qed.

(** For a normal region that contains a block boundary, the alignment pass
    ends, leaves a block-aligned region in place and keeps every whole page of
    the region in the table, without overlaps. *)
Theorem prepare_memory_region_keeps_pages st i re :
  regions_ok st -> mem_list st !! i = Some re -> current_region_id st + 2 <= MAX_MEMORY_REGION ->
  let lo := PAGE_BALIGN (r_base re) in let hi := PAGE_ALIGN (region_end re) in
  region_end re + BLOCK_SIZE < 2 ^ 64 -> lo < hi -> 0 < BLOCK_BALIGN lo ->
  BLOCK_BALIGN lo <= BLOCK_ALIGN hi ->
  exists st' mid, prepare_memory_region st i re = Ret st' /\
    pairwise_disjoint (mem_list st') /\ mem_list st' !! i = Some mid /\
    r_base mid mod BLOCK_SIZE = 0 /\ region_end mid mod BLOCK_SIZE = 0 /\
    forall a, (exists r, owns (mem_list st') a r) <->
      (exists r, owns (mem_list st) a r) /\ (in_region re a -> lo <= a < hi).
Proof.
  intros (Hl & Hp & _ & _) Hi Hid lo hi Hmax Hlt Hpos Hle. destruct st as [l id]; cbn in *.
  destruct (Forall_lookup_1 _ _ _ _ Hl Hi) as (H1 & H2 & H3 & H4).
  assert (Hb : BLOCK_SIZE = 2097152) by done. unfold region_end in H3, Hmax.
  destruct (PAGE_BALIGN_spec (r_base re)) as [_ Hlo]; [lia|]. fold lo in Hlo.
  destruct (PAGE_ALIGN_spec (region_end re)) as (_ & Hhi & _); [unfold region_end; lia|]. fold hi in Hhi.
  unfold region_end in Hhi. destruct (BLOCK_BALIGN_spec lo) as [Mb Hblo]; [lia|].
  destruct (BLOCK_ALIGN_spec hi) as (Mh & Hbhi & _); [lia|].
  pose proof (prepare_cut l id i re Hl Hp Hi Hid Hmax Hlt Hpos Hle) as E.
  destruct (cut_pieces (r_type re) (r_vmid re) lo (BLOCK_BALIGN lo) (BLOCK_ALIGN hi) hi) as [Hd Hc]; [lia..|].
  fold lo hi in E. unfold cut in E, Hd, Hc. cbv iota beta in E, Hd, Hc.
  set (extra := (if lo =? _ then _ else _) ++ _) in *. set (mid := mk_region _ _ (BLOCK_BALIGN lo) _) in *.
  set (trim := mk_region (r_type re) (r_vmid re) lo (hi - lo)) in *.
  assert (Hlt' : (i < length l)%nat) by (by eapply lookup_lt_Some).
  assert (Hpt : pairwise_disjoint (<[i := trim]> l)).
  { eapply pairwise_insert; [done..|]. unfold in_region, region_end; cbn. lia. }
  assert (Hit : <[i := trim]> l !! i = Some trim) by (by apply list_lookup_insert_eq).
  exists (mk_mem (<[i := mid]> l ++ extra) (id + Z.of_nat (length extra))), mid.
  split; [done|]. cbn [mem_list].
  replace (<[i := mid]> l) with (<[i := mid]> (<[i := trim]> l)) by apply list_insert_insert_eq.
  split; [by apply (refine_disjoint _ i trim)|].
  split; [rewrite lookup_app_l by (by rewrite !length_insert); apply list_lookup_insert_eq; by rewrite length_insert|].
  split; [done|]. split; [unfold region_end, mid; cbn; by replace (_ + _) with (BLOCK_ALIGN hi) by lia|].
  intros a. rewrite <- (refine_covers _ i trim mid extra Hit Hc a).
  apply covers_trim; [done|done|lia|unfold region_end; lia].
Qed.

Definition unaligned_regions : mem_state :=
  mk_mem [mk_region 0 0 0x40100800 0x4000000; mk_region 4 0 0x48000000 0x4000000] 2.

Lemma unaligned_regions_ok : regions_ok unaligned_regions.
Proof.
  split; [repeat constructor; unfold region_end; cbn; lia|]. split; [|by vm_compute].
  repeat (apply pairwise_cons; [|intros ? ? ? ? ?; pieces; lia]). apply pairwise_nil.
Qed.

Lemma prepare_memory_region_keeps_pages_witness :
  exists st' mid, prepare_memory_region unaligned_regions 0
      (mk_region 0 0 0x40100800 0x4000000) = Ret st' /\
    pairwise_disjoint (mem_list st') /\ mem_list st' !! 0%nat = Some mid /\
    r_base mid mod BLOCK_SIZE = 0 /\ region_end mid mod BLOCK_SIZE = 0 /\
    forall a, (exists r, owns (mem_list st') a r) <->
      (exists r, owns (mem_list unaligned_regions) a r) /\
      (in_region (mk_region 0 0 0x40100800 0x4000000) a -> 0x40101000 <= a < 0x44100000).
Proof.
  exact (prepare_memory_region_keeps_pages unaligned_regions 0
    (mk_region 0 0 0x40100800 0x4000000) unaligned_regions_ok eq_refl ltac:(by vm_compute)
    ltac:(by vm_compute) ltac:(by vm_compute) ltac:(by vm_compute) ltac:(by vm_compute)).
Defined.

(** The alignment pass over the region list always ends, although it appends
    to the list it walks: it returns or stops on a full table. *)
Theorem align_regions_terminates st :
  Z.of_nat (length (mem_list st)) = current_region_id st ->
  current_region_id st <= MAX_MEMORY_REGION ->
  (exists st', align_regions st = Ret st') \/ align_regions st = Panic.
Proof.
  intros Hl Hid. unfold align_regions.
  destruct (prepare_regions_total (length (mem_list st) + Z.to_nat MAX_MEMORY_REGION) st 0)
    as [[st' ->]| ->]; [done| |eauto|by right].
  change (Z.to_nat MAX_MEMORY_REGION) with 16%nat. unfold MAX_MEMORY_REGION in *. lia.
Qed.

Lemma align_regions_terminates_witness :
  (exists st', align_regions unaligned_regions = Ret st') \/ align_regions unaligned_regions = Panic.
Proof. exact (align_regions_terminates unaligned_regions eq_refl ltac:(by vm_compute)). Defined.

(** A normal region with a remainder on both sides, followed by any other
    region, makes the pass cut the remainders it has just appended again and
    again, until the 16-entry table is full and [alloc_memory_region] stops the
    kernel; the same regions in the other order are aligned. *)
Theorem align_regions_two_remainders_panic :
  align_regions (mk_mem [mk_region 0 0 0x44100000 0x1000000; mk_region 4 0 0x40000000 0x4000000] 2)
    = Panic /\
  exists st, align_regions
    (mk_mem [mk_region 4 0 0x40000000 0x4000000; mk_region 0 0 0x44100000 0x1000000] 2) = Ret st.
Proof.
  split; [vm_compute; reflexivity|].
  exists (mk_mem [mk_region 4 0 0x40000000 0x4000000; mk_region 0 0 0x44200000 0xe00000;
    mk_region 0 0 0x44100000 0x100000; mk_region 0 0 0x45000000 0x100000] 4).
  vm_compute. reflexivity.
Qed.

(** A normal region that lies inside one block ends up with a size that has
    wrapped around below zero, and the appended remainder claims the addresses
    up to the next block boundary, which never belonged to the region. *)
Theorem prepare_small_region_underflows :
  prepare_memory_region (mk_mem [mk_region 0 0 0x40010000 0x10000] 1) 0
    (mk_region 0 0 0x40010000 0x10000) =
  Ret (mk_mem [mk_region 0 0 0x40200000 (2 ^ 64 - 0x200000);
               mk_region 0 0 0x40010000 0x1f0000] 2).
Proof. vm_compute. reflexivity. Qed.
