(* ===== verification/Vmm.v ===== *)
(** * Memory of virtual machines: areas and blocks

    The parts of [virt/vmm.c] that do not touch translation tables.  Each virtual machine has an
    address space that is divided into areas, kept on a list of free and a list of used ones; areas
    are split off and merged back.  The memory behind them comes in blocks of 2 MB from sections,
    each with a bitmap.

    An area is named by the address of its record.  Results of [zalloc] are arguments. *)

From S2P Require Import Prelude Types Bits Bitmap MemRegion.

Definition BAD_ADDRESS : Z := ULONG_MAX.
Definition MEM_BLOCK_SHIFT : Z := 21.
Definition MEM_BLOCK_SIZE : Z := 0x200000.
Definition PAGE_MASK : Z := 0xfff.
Definition BLOCK_MASK : Z := Z.shiftl 1 MEM_BLOCK_SHIFT - 1.
Definition VM_NORMAL : Z := 0x2.
Definition VM_SHARED : Z := 0x1000.
Definition VM_SHMEM : Z := 0x8000.
Definition VM_MAP_BK : Z := 0x01000000.
Definition VM_MAP_PT : Z := 0x02000000.
Definition VM_MAP_TYPE_MASK : Z := 0x0f000000.

(** ** Areas *)

Record vmm_area := mk_va {
  va_id : Z;
  va_start : Z;
  va_end : Z;
  va_pstart : Z;
  va_flags : Z;
  va_vmid : Z;
  b_head : list Z;
}.

Record mm_struct := mk_mm { vmm_area_free : list vmm_area; vmm_area_used : list vmm_area }.

Definition VMA_SIZE (va : vmm_area) : Z := u64 (va_end va - va_start va).

Definition __alloc_vmm_area_entry (mem base size : Z) : option vmm_area :=
  if mem =? 0 then None else Some (mk_va mem base (u64 (base + size)) BAD_ADDRESS 0 0 []).

(** One pass over the free list: a neighbour is merged and leaves the list, or the area is put before
    the first one that is not smaller, or the end is reached. *)
Inductive scan :=
| Merged (va : vmm_area) (l : list vmm_area)
| Inserted (l : list vmm_area)
| Passed.

Fixpoint free_scan (va : vmm_area) (size : Z) (l : list vmm_area) : scan :=
  match l with
  | [] => Passed
  | tmp :: l =>
      if va_start va =? va_end tmp then
        Merged (mk_va (va_id va) (va_start tmp) (va_end va) (va_pstart va) (va_flags va) (va_vmid va) (b_head va)) l
      else if va_end va =? va_start tmp then
        Merged (mk_va (va_id va) (va_start va) (va_end tmp) (va_pstart va) (va_flags va) (va_vmid va) (b_head va)) l
      else if size <=? VMA_SIZE tmp then Inserted (va :: tmp :: l)
      else match free_scan va size l with
           | Merged va l => Merged va (tmp :: l)
           | Inserted l => Inserted (tmp :: l)
           | Passed => Passed
           end
  end.

Fixpoint add_free_loop (fuel : nat) (va : vmm_area) (size : Z) (l : list vmm_area) : outcome (list vmm_area) :=
  match fuel with
  | O => OutOfFuel
  | S fuel =>
      match free_scan va size l with
      | Merged va l => add_free_loop fuel va size l
      | Inserted l => Ret l
      | Passed => Ret (l ++ [va])
      end
  end.

(** Each round but the last takes an area off the list. *)
Definition __add_free_vmm_area (mm : mm_struct) (area : vmm_area) : outcome mm_struct :=
  let va := mk_va (va_id area) (va_start area) (va_end area) 0 0 0 (b_head area) in
  let* l := add_free_loop (S (length (vmm_area_free mm))) va (VMA_SIZE va) (vmm_area_free mm) in
  Ret (mk_mm l (vmm_area_used mm)).

Definition list_del (id : Z) (l : list vmm_area) : list vmm_area := filter (fun a => va_id a <> id) l.

(** [ml] and [mr] are the records that [zalloc] returns for the parts to the left and to the right. *)
Definition __split_vmm_area (mm : mm_struct) (vma : vmm_area) (base end_ flags ml mr : Z) : option vmm_area * mm_struct :=
  let left_size := u64 (base - va_start vma) in
  let right_size := u64 (va_end vma - end_) in
  let out free :=
    let vma := mk_va (va_id vma) base end_ (va_pstart vma) flags (va_vmid vma) (b_head vma) in
    (Some vma, mk_mm (list_del (va_id vma) free) (vmm_area_used mm ++ [vma])) in
  if (left_size =? 0) && (right_size =? 0) then out (vmm_area_free mm) else
  let add_right free :=
    if 0 <? right_size then
      match __alloc_vmm_area_entry mr end_ right_size with
      | None => (None, mm)
      | Some r => out (r :: free)
      end
    else out free in
  if 0 <? left_size then
    match __alloc_vmm_area_entry ml (va_start vma) left_size with
    | None => (None, mm)
    | Some l => add_right (l :: vmm_area_free mm)
    end
  else add_right (vmm_area_free mm).

Definition __alloc_free_vmm_area (mm : mm_struct) (vma : vmm_area) (size mask flags ml mr : Z) : option vmm_area * mm_struct :=
  let base := Z.land (u64 (va_start vma + mask)) (not64 mask) in
  let end_ := u64 (base + size) in
  if negb ((va_start vma <=? base) && (end_ <=? va_end vma)) then (None, mm)
  else __split_vmm_area mm vma base end_ flags ml mr.

(** The [k]-th area that is tried gets the records [mem k]. *)
Fixpoint alloc_free_loop (mm : mm_struct) (l : list vmm_area) (size mask flags : Z) (mem : nat -> Z * Z) (k : nat) : option vmm_area * mm_struct :=
  match l with
  | [] => (None, mm)
  | va :: l =>
      if VMA_SIZE va <? size then alloc_free_loop mm l size mask flags mem k else
      match __alloc_free_vmm_area mm va size mask flags (fst (mem k)) (snd (mem k)) with
      | (Some new, mm) => (Some new, mm)
      | (None, mm) => alloc_free_loop mm l size mask flags mem (S k)
      end
  end.

Definition alloc_free_vmm_area (mm : mm_struct) (size mask flags : Z) (mem : nat -> Z * Z) : option vmm_area * mm_struct :=
  let mask := if mask =? BLOCK_MASK then BLOCK_MASK else PAGE_MASK in
  let size := BALIGN size PAGE_SIZE in
  alloc_free_loop mm (vmm_area_free mm) size mask flags mem 0.

Definition find_area (base end_ : Z) (l : list vmm_area) : option vmm_area :=
  List.find (fun va => (va_start va <=? base) && (end_ <=? va_end va)) l.

Definition split_vmm_area (mm : mm_struct) (base size flags ml mr : Z) : option vmm_area * mm_struct :=
  let end_ := u64 (base + size) in
  if negb (Z.land flags VM_NORMAL =? 0) && (negb (IS_PAGE_ALIGN base) || negb (IS_PAGE_ALIGN size)) then (None, mm) else
  match find_area base end_ (vmm_area_free mm) with
  | None => (None, mm)
  | Some out => __split_vmm_area mm out base end_ flags ml mr
  end.

Definition set_pstart (p : Z) (va : vmm_area) : vmm_area :=
  mk_va (va_id va) (va_start va) (va_end va) p (va_flags va) (va_vmid va) (b_head va).

Definition upd_used (mm : mm_struct) (id : Z) (f : vmm_area -> vmm_area) : mm_struct :=
  mk_mm (vmm_area_free mm) (map (fun a => if va_id a =? id then f a else a) (vmm_area_used mm)).

Definition request_vmm_area (mm : mm_struct) (base pbase size flags ml mr : Z) : option vmm_area * mm_struct :=
  match split_vmm_area mm base size flags ml mr with
  | (None, mm) => (None, mm)
  | (Some va, mm) => (Some (set_pstart pbase va), upd_used mm (va_id va) (set_pstart pbase))
  end.

(** The whole address space of a virtual machine is one free area. *)
Definition vmm_area_init (bit64 : bool) (mem : Z) : mm_struct :=
  match __alloc_vmm_area_entry mem 0 (if bit64 then Z.shiftl 1 40 else 0x100000000) with
  | None => mk_mm [] []
  | Some va => mk_mm [va] []
  end.

(** [vm_mm_init] trims the free areas to whole pages. *)
Definition trim_area (va : vmm_area) : option vmm_area :=
  let base := BALIGN (va_start va) PAGE_SIZE in
  let end_ := ALIGN (va_end va) PAGE_SIZE in
  let size := u64 (end_ - base) in
  if size <? PAGE_SIZE then None
  else if size =? VMA_SIZE va then Some va
  else Some (mk_va (va_id va) base end_ (va_pstart va) (va_flags va) (va_vmid va) (b_head va)).

Definition trim_free (mm : mm_struct) : mm_struct := mk_mm (omap trim_area (vmm_area_free mm)) (vmm_area_used mm).

Definition check_vm_address (mm : mm_struct) (addr : Z) : Z :=
  if existsb (fun va => (va_start va <=? addr) && (addr <? va_end va)) (vmm_area_used mm) then 0 else 1.

(** ** Blocks *)

Record block_section := mk_bs {
  bs_start : Z;
  bs_size : Z;
  bs_end : Z;
  bs_free : Z;
  bs_total : Z;
  bs_index : Z;
  bs_bitmap : list Z;
}.

Record vmm := mk_vmm { bs_list : list block_section; free_blocks : Z }.

Definition vmm_has_enough_memory (st : vmm) (size : Z) : bool := Z.shiftr size MEM_BLOCK_SHIFT <=? free_blocks st.

Fixpoint free_in (l : list block_section) (base : Z) : outcome (option (list block_section)) :=
  match l with
  | [] => Ret None
  | bs :: l =>
      if (bs_start bs <=? base) && (base <? bs_end bs) then
        let bfn := u32 (Z.shiftr (u64 (base - bs_start bs)) MEM_BLOCK_SHIFT) in
        let* b := clear_bit bfn (bs_bitmap bs) in
        Ret (Some (mk_bs (bs_start bs) (bs_size bs) (bs_end bs) (u64 (bs_free bs + 1)) (bs_total bs) (bs_index bs) b :: l))
      else let* r := free_in l base in Ret (option_map (cons bs) r)
  end.

(** The number of the block is a 32-bit integer, and so is the address made of it. *)
Definition __vmm_free_memblock (st : vmm) (bfn : Z) : outcome (Z * vmm) :=
  let base := u32 (Z.shiftl bfn MEM_BLOCK_SHIFT) in
  let* r := free_in (bs_list st) base in
  match r with
  | Some l => Ret (0, mk_vmm l (u64 (free_blocks st + 1)))
  | None => Ret (- EINVAL, st)
  end.

Definition vmm_free_memblock (st : vmm) (bfn : Z) : outcome (Z * vmm) := __vmm_free_memblock st bfn.

Definition get_memblock_from_section (bs : block_section) : outcome (Z + Z * block_section) :=
  let* r := find_next_zero_bit_loop (bs_bitmap bs) (bs_total bs) (bs_index bs) in
  let id := u32 r in
  if bs_total bs <=? id then Ret (inl (- ENOSPC)) else
  let* b := set_bit id (bs_bitmap bs) in
  Ret (inr (u32 (Z.shiftr (bs_start bs) MEM_BLOCK_SHIFT + id),
            mk_bs (bs_start bs) (bs_size bs) (bs_end bs) (u64 (bs_free bs - 1)) (bs_total bs) (u32 (id + 1)) b)).

Fixpoint alloc_in (l : list block_section) : outcome (option (Z * list block_section)) :=
  match l with
  | [] => Ret None
  | bs :: l =>
      let next := let* r := alloc_in l in Ret (option_map (fun x => (fst x, bs :: snd x)) r) in
      if bs_free bs =? 0 then next else
      let* r := get_memblock_from_section bs in
      match r with
      | inl _ => next
      | inr (bfn, bs) => Ret (Some (bfn, bs :: l))
      end
  end.

(** [mem] says whether the record of the block can be allocated. *)
Definition vmm_alloc_memblock (st : vmm) (mem : bool) : outcome (option Z * vmm) :=
  let* r := alloc_in (bs_list st) in
  match r with
  | None => Ret (None, st)
  | Some (bfn, l) =>
      let st := mk_vmm l (u64 (free_blocks st - 1)) in
      if mem then Ret (Some bfn, st)
      else let* (_, st) := __vmm_free_memblock st bfn in Ret (None, st)
  end.

(** The sections are made of the regions of normal memory, the last one first. *)
Definition section_of (r : memory_region) : option block_section :=
  if negb (r_type r =? MEMORY_REGION_TYPE_NORMAL) then None else
  let start := BALIGN (r_base r) BLOCK_SIZE in
  let end_ := ALIGN (u64 (r_base r + r_size r)) BLOCK_SIZE in
  if u64 (end_ - start) <=? 0 then None else
  let size := u64 (end_ - start) in
  let total := Z.shiftr size BLOCK_SHIFT in
  Some (mk_bs start size end_ total total 0 (replicate (Z.to_nat (s32 (BITS_TO_LONGS total * 8) / 8)) 0)).

Definition vmm_init (l : list memory_region) : outcome vmm :=
  check negb (bool_decide (l = [])) in
  let bs := omap section_of l in
  Ret (mk_vmm (rev bs) (u64 (foldr Z.add 0 (map bs_total bs)))).

(** ** Areas with blocks *)

(** [n] blocks are put in front of [l]; [mem k] says whether the [k]-th record can be allocated. *)
Fixpoint alloc_blocks (n : nat) (st : vmm) (l : list Z) (mem : nat -> bool) (k : nat) : outcome (Z * list Z * vmm) :=
  match n with
  | O => Ret (0, l, st)
  | S n =>
      let* (block, st) := vmm_alloc_memblock st (mem k) in
      match block with
      | None => Ret (- ENOMEM, l, st)
      | Some b => alloc_blocks n st (b :: l) mem (S k)
      end
  end.

Definition set_blocks (l : list Z) (va : vmm_area) : vmm_area :=
  mk_va (va_id va) (va_start va) (va_end va) (va_pstart va) (va_flags va) (va_vmid va) l.
Definition set_flags (f : Z) (va : vmm_area) : vmm_area :=
  mk_va (va_id va) (va_start va) (va_end va) (va_pstart va) f (va_vmid va) (b_head va).

Definition __alloc_vm_memory (st : vmm) (va : vmm_area) (mem : nat -> bool) : outcome (Z * vmm_area * vmm) :=
  if negb (ALIGN (va_start va) MEM_BLOCK_SIZE =? va_start va) then Ret (- EINVAL, va, st) else
  let va := set_flags (Z.lor (va_flags va) VM_MAP_BK) (set_blocks [] va) in
  let count := s32 (Z.shiftr (VMA_SIZE va) MEM_BLOCK_SHIFT) in
  let* (r, st) := alloc_blocks (Z.to_nat count) st [] mem 0 in
  Ret (fst r, set_blocks (snd r) va, st).

Fixpoint release_blocks (l : list Z) (st : vmm) : outcome vmm :=
  match l with
  | [] => Ret st
  | b :: l => let* (_, st) := vmm_free_memblock st b in release_blocks l st
  end.

(** Memory that goes back to the page allocator or to the pool of shared memory. *)
Inductive freed := FreePages (a : Z) | FreeShmem (a : Z).

Definition release_vmm_area_memory (st : vmm) (va : vmm_area) : outcome (option freed * vmm_area * vmm) :=
  let type := Z.land (va_flags va) VM_MAP_TYPE_MASK in
  if negb (Z.land (va_flags va) VM_SHARED =? 0) then Ret (None, va, st)
  else if type =? VM_MAP_PT then Ret (None, va, st)
  else if type =? VM_MAP_BK then let* st := release_blocks (b_head va) st in Ret (None, set_blocks [] va, st)
  else if va_pstart va =? BAD_ADDRESS then Ret (None, va, st)
  else let what := if negb (Z.land (va_flags va) VM_SHMEM =? 0) then FreeShmem (va_pstart va) else FreePages (va_pstart va) in
       Ret (Some what, set_pstart BAD_ADDRESS va, st).

Definition release_vmm_area (mm : mm_struct) (st : vmm) (va : vmm_area) : outcome (option freed * mm_struct * vmm) :=
  let* (r, st) := release_vmm_area_memory st va in
  let* mm := __add_free_vmm_area (mk_mm (vmm_area_free mm) (list_del (va_id va) (vmm_area_used mm))) (snd r) in
  Ret (fst r, mm, st).

(** ** Which area an address belongs to *)

Definition inside (a : vmm_area) (x : Z) : bool := (va_start a <=? x) && (x <? va_end a).

(** The number of areas of a list that hold an address. *)
Definition cover (l : list vmm_area) (x : Z) : Z := foldr (fun a n => Z.b2z (inside a x) + n) 0 l.

Lemma cover_app l1 l2 x : cover (l1 ++ l2) x = cover l1 x + cover l2 x.
Proof. unfold cover. induction l1 as [|a l1 IH]; [done|]. cbn [app foldr]. rewrite IH. lia. Qed.

Lemma cover_cons a l x : cover (a :: l) x = Z.b2z (inside a x) + cover l x.
Proof. done. Qed.

Lemma cover_nonneg l x : 0 <= cover l x.
Proof. induction l as [|a l IH]; [done|]. rewrite cover_cons. destruct (inside a x); cbn; lia. Qed.

Lemma cover_elem l a x : a ∈ l -> inside a x = true -> 1 <= cover l x.
Proof.
  intros (l1 & l2 & ->)%list_elem_of_split Hi. rewrite cover_app, cover_cons, Hi. pose proof (cover_nonneg l1 x). pose proof (cover_nonneg l2 x). cbn. lia.
Qed.

Lemma cover_inv l x : 1 <= cover l x -> exists a, a ∈ l /\ inside a x = true.
Proof.
  induction l as [|a l IH]; [done|]. rewrite cover_cons. destruct (inside a x) eqn:E; [intros _; exists a; split; [by left|done]|]. cbn. intros (b & Hb & Hi)%IH.
  exists b. split; [by right|done].
Qed.

Lemma cover_unique l x i j a b : cover l x <= 1 -> l !! i = Some a -> l !! j = Some b -> inside a x = true -> inside b x = true -> i = j.
Proof.
  revert i j. induction l as [|c l IH]; intros i j Hc Hi Hj Ha Hb; [done|]. rewrite cover_cons in Hc. pose proof (cover_nonneg l x) as Hn.
  assert (Hrest : forall k d, l !! k = Some d -> inside d x = true -> inside c x = false /\ cover l x <= 1).
  { intros k d Hk Hd. pose proof (cover_elem l d x (list_elem_of_lookup_2 _ _ _ Hk) Hd). destruct (inside c x); cbn in Hc; [lia|]. split; [done|lia]. }
  destruct i as [|i], j as [|j]; cbn in Hi, Hj; simplify_eq; [done| | |].
  - by destruct (Hrest j b Hj Hb); congruence.
  - by destruct (Hrest i a Hi Ha); congruence.
  - f_equal. apply IH; try done. by destruct (Hrest i a Hi Ha).
Qed.

Definition area_ok (a : vmm_area) : Prop := 0 <= va_start a <= va_end a /\ va_end a <= 2 ^ 40 /\ va_id a <> 0.

Definition areas (mm : mm_struct) : list vmm_area := vmm_area_free mm ++ vmm_area_used mm.

(** No address belongs to two areas. *)
Record mm_ok (mm : mm_struct) : Prop := {
  mo_areas : Forall area_ok (areas mm);
  mo_once : forall x, cover (areas mm) x <= 1;
  mo_ids : NoDup (map va_id (areas mm));
}.

(** A record that [zalloc] returns is not in use. *)
Definition fresh (mm : mm_struct) (id : Z) : Prop := id = 0 \/ id ∉ map va_id (areas mm).

Lemma VMA_SIZE_ok a : area_ok a -> VMA_SIZE a = va_end a - va_start a.
Proof. intros (H1 & H2 & _). unfold VMA_SIZE. apply wrap_small. lia. Qed.

Lemma list_del_none id l : id ∉ map va_id l -> list_del id l = l.
Proof.
  induction l as [|a l IH]; [done|]. intros [Hn Hl]%not_elem_of_cons. unfold list_del. rewrite filter_cons, decide_True by congruence. f_equal. by apply IH.
Qed.

Lemma list_del_split id l1 a l2 : va_id a = id -> id ∉ map va_id l1 -> id ∉ map va_id l2 -> list_del id (l1 ++ a :: l2) = l1 ++ l2.
Proof.
  intros E H1 H2. unfold list_del. rewrite filter_app, filter_cons, decide_False by (by intros []).
  fold (list_del id l1) (list_del id l2). by rewrite !list_del_none.
Qed.

Lemma ids_split (l1 l2 : list vmm_area) a : NoDup (map va_id (l1 ++ a :: l2)) -> (va_id a ∉ map va_id l1) /\ (va_id a ∉ map va_id l2) /\ NoDup (map va_id (l1 ++ l2)).
Proof.
  rewrite !map_app. cbn. rewrite <- Permutation_middle. intros [Hn Hd]%NoDup_cons. rewrite elem_of_app in Hn. split_and!; [intros H; apply Hn; by left|intros H; apply Hn; by right|done].
Qed.

(** ** Splitting *)

(** Taking [va] out of the free area [vma], with the rest as new free areas [extra]. *)
Lemma split_out mm vma va extra : mm_ok mm -> vma ∈ vmm_area_free mm -> va_id va = va_id vma -> Forall area_ok (va :: extra) ->
  NoDup (map va_id extra) -> (forall e, e ∈ extra -> va_id e ∉ map va_id (areas mm)) ->
  (forall x, Z.b2z (inside va x) + cover extra x = Z.b2z (inside vma x)) ->
  let mm' := mk_mm (list_del (va_id va) (extra ++ vmm_area_free mm)) (vmm_area_used mm ++ [va]) in
  mm_ok mm' /\ (forall x, cover (areas mm') x = cover (areas mm) x) /\ (forall x, cover (vmm_area_free mm') x = cover (vmm_area_free mm) x - Z.b2z (inside va x)).
Proof.
  intros [Ha Ho Hd] (l1 & l2 & Ef)%list_elem_of_split Eid Hok Hnd Hfr Hcov mm'. subst mm'. unfold areas in *. cbn in *. rewrite Ef in *.
  assert (Hex : va_id vma ∉ map va_id extra).
  { intros (e & Ee & He)%list_elem_of_fmap. apply (Hfr e He). rewrite <- Ee. rewrite !map_app, !elem_of_app. left. right. by left. }
  rewrite <- app_assoc in Hd. cbn in Hd. destruct (ids_split _ _ _ Hd) as (N1 & N2 & Hd'). rewrite map_app, elem_of_app in N2.
  rewrite Eid, app_assoc, (list_del_split (va_id vma) (extra ++ l1) vma l2) by (try done; rewrite ?map_app, ?elem_of_app; tauto).
  assert (C : forall x, cover ((extra ++ l1) ++ l2) x = cover (l1 ++ vma :: l2) x - Z.b2z (inside va x)).
  { intros x. specialize (Hcov x). rewrite !cover_app, cover_cons. lia. }
  assert (C2 : forall x, cover (((extra ++ l1) ++ l2) ++ vmm_area_used mm ++ [va]) x = cover ((l1 ++ vma :: l2) ++ vmm_area_used mm) x).
  { intros x. rewrite !(cover_app _ (vmm_area_used mm)), cover_app, (cover_app (vmm_area_used mm)), C, cover_cons. cbn. lia. }
  split; [|split; [exact C2|exact C]]. split; unfold areas; cbn [vmm_area_free vmm_area_used].
  - apply Forall_cons in Hok as [Hv He]. rewrite !Forall_app in *. rewrite Forall_cons in Ha. repeat split; try tauto. by apply Forall_cons.
  - intros x. rewrite C2. apply Ho.
  - assert (Hp : map va_id (((extra ++ l1) ++ l2) ++ vmm_area_used mm ++ [va]) ≡ₚ map va_id extra ++ va_id vma :: map va_id (l1 ++ l2 ++ vmm_area_used mm)).
    { rewrite !map_app. cbn. rewrite Eid, <- !app_assoc. apply Permutation_app_head. by rewrite !(app_assoc (map va_id l1)), app_assoc, Permutation_app_comm, <- !app_assoc. }
    rewrite Hp.
    apply NoDup_app. split; [done|]. split.
    + intros i (e & -> & He)%list_elem_of_fmap Hi. apply (Hfr e He). rewrite !map_app in *. cbn in *. revert Hi. rewrite elem_of_cons, !elem_of_app, elem_of_cons. tauto.
    + apply NoDup_cons. split; [|exact Hd']. rewrite !map_app, !elem_of_app. tauto.
Qed.

(** [va] was free and is the last of the used areas now; nothing else changed hands. *)
Record took (mm mm' : mm_struct) (va : vmm_area) : Prop := {
  tk_used : vmm_area_used mm' = vmm_area_used mm ++ [va];
  tk_ok : mm_ok mm';
  tk_cover : forall x, cover (areas mm') x = cover (areas mm) x;
  tk_free : forall x, cover (vmm_area_free mm') x = cover (vmm_area_free mm) x - Z.b2z (inside va x);
}.

Definition taken_from (vma : vmm_area) (base end_ flags : Z) : vmm_area :=
  mk_va (va_id vma) base end_ (va_pstart vma) flags (va_vmid vma) (b_head vma).

Lemma split_took mm vma base end_ flags extra : mm_ok mm -> vma ∈ vmm_area_free mm -> va_start vma <= base <= end_ -> end_ <= va_end vma ->
  Forall area_ok extra -> NoDup (map va_id extra) -> (forall e, e ∈ extra -> va_id e ∉ map va_id (areas mm)) ->
  (forall x, cover extra x = Z.b2z ((va_start vma <=? x) && (x <? base)) + Z.b2z ((end_ <=? x) && (x <? va_end vma))) ->
  let va := taken_from vma base end_ flags in
  took mm (mk_mm (list_del (va_id va) (extra ++ vmm_area_free mm)) (vmm_area_used mm ++ [va])) va.
Proof.
  intros Hok Hin Hb He Hex Hnd Hfr Hcov va. assert (Hva : area_ok vma) by (apply (Forall_forall area_ok (areas mm)); [apply Hok|apply elem_of_app; by left]).
  destruct (split_out mm vma va extra) as (H1 & H2 & H3); try done.
  - apply Forall_cons. split; [|done]. destruct Hva as (? & ? & ?). split; cbn; [lia|]. split; [lia|done].
  - intros x. rewrite Hcov. unfold inside. cbn. case_bools; done.
Qed.

Lemma split_ok mm vma base end_ flags ml mr : mm_ok mm -> vma ∈ vmm_area_free mm -> va_start vma <= base <= end_ -> end_ <= va_end vma ->
  fresh mm ml -> fresh mm mr -> (ml = mr -> ml = 0) ->
  match __split_vmm_area mm vma base end_ flags ml mr with
  | (Some va, mm') => va = taken_from vma base end_ flags /\ took mm mm' va
  | (None, mm') => mm' = mm /\ (va_start vma < base /\ ml = 0 \/ end_ < va_end vma /\ mr = 0)
  end.
Proof.
  intros Hok Hin Hb He Hl Hr Hne. assert (Hva : area_ok vma) by (apply (Forall_forall area_ok (areas mm)); [apply Hok|apply elem_of_app; by left]).
  destruct Hva as (V1 & V2 & V3). unfold __split_vmm_area. rewrite (wrap_small 64 (base - _)), (wrap_small 64 (va_end vma - _)) by lia.
  pose proof (split_took mm vma base end_ flags) as T. unfold __alloc_vmm_area_entry.
  replace (u64 (va_start vma + (base - va_start vma))) with base by (rewrite wrap_small; lia).
  replace (u64 (end_ + (va_end vma - end_))) with (va_end vma) by (rewrite wrap_small; lia).
  assert (Fl : forall z, fresh mm z -> z <> 0 -> z ∉ map va_id (areas mm)) by (intros z [Hz|Hz]; done).
  destruct (Z.eqb_spec (base - va_start vma) 0), (Z.eqb_spec (va_end vma - end_) 0); cbn [andb].
  - split; [done|]. apply (T []); try done; [by apply NoDup_nil|intros a Hx; inversion Hx|]. intros x. cbn. case_bools; done.
  - destruct (Z.ltb_spec 0 (base - va_start vma)); [lia|]. destruct (Z.ltb_spec 0 (va_end vma - end_)); [|lia]. destruct (Z.eqb_spec mr 0); [split; [done|right; lia]|].
    split; [done|]. apply (T [_]); try done.
    + apply Forall_singleton. split; cbn; [lia|split; [lia|done]].
    + apply NoDup_singleton.
    + intros a ->%list_elem_of_singleton. by apply Fl.
    + intros x. rewrite cover_cons. unfold inside. cbn. case_bools; done.
  - destruct (Z.ltb_spec 0 (base - va_start vma)); [|lia]. destruct (Z.ltb_spec 0 (va_end vma - end_)); [lia|]. destruct (Z.eqb_spec ml 0); [split; [done|left; lia]|].
    split; [done|]. apply (T [_]); try done.
    + apply Forall_singleton. split; cbn; [lia|split; [lia|done]].
    + apply NoDup_singleton.
    + intros a ->%list_elem_of_singleton. by apply Fl.
    + intros x. rewrite cover_cons. unfold inside. cbn. case_bools; done.
  - destruct (Z.ltb_spec 0 (base - va_start vma)); [|lia]. destruct (Z.ltb_spec 0 (va_end vma - end_)); [|lia]. destruct (Z.eqb_spec ml 0); [split; [done|left; lia]|].
    destruct (Z.eqb_spec mr 0); [split; [done|right; lia]|]. split; [done|]. apply (T [_; _]); try done.
    + repeat constructor; cbn; try lia; done.
    + apply NoDup_cons. split; [|apply NoDup_singleton]. cbn. intros ->%list_elem_of_singleton. by auto.
    + intros a [->|Ha]%elem_of_cons; [by apply Fl|]. apply list_elem_of_singleton in Ha as ->. by apply Fl.
    + intros x. rewrite !cover_cons. unfold inside. cbn. case_bools; done.
Qed.

Definition mem_fresh (mm : mm_struct) (mem : nat -> Z * Z) : Prop :=
  forall j, fresh mm (fst (mem j)) /\ fresh mm (snd (mem j)) /\ (fst (mem j) = snd (mem j) -> fst (mem j) = 0).
Definition mem_enough (mem : nat -> Z * Z) : Prop := forall j, fst (mem j) <> 0 /\ snd (mem j) <> 0.

(** The range of [size] bytes at [b] lies in the area. *)
Definition fits (vma : vmm_area) (k size b : Z) : Prop := b mod 2 ^ k = 0 /\ va_start vma <= b /\ b + size <= va_end vma.

Lemma alloc_in_area_ok mm vma k size flags ml mr : mm_ok mm -> vma ∈ vmm_area_free mm -> 0 <= k <= 21 -> 0 <= size < 2 ^ 62 ->
  fresh mm ml -> fresh mm mr -> (ml = mr -> ml = 0) ->
  match __alloc_free_vmm_area mm vma size (2 ^ k - 1) flags ml mr with
  | (Some va, mm') => exists b, fits vma k size b /\ va = taken_from vma b (b + size) flags /\ took mm mm' va
  | (None, mm') => mm' = mm /\ ((forall b, ~ fits vma k size b) \/ ml = 0 \/ mr = 0)
  end.
Proof.
  intros Hok Hin Hk Hs Hl Hr Hne. assert (Hva : area_ok vma) by (apply (Forall_forall area_ok (areas mm)); [apply Hok|apply elem_of_app; by left]).
  destruct Hva as (V1 & V2 & V3). assert (Hp : 0 < 2 ^ k <= 2 ^ 21) by (split; [lia|apply Z.pow_le_mono_r; lia]). unfold __alloc_free_vmm_area.
  rewrite (wrap_small 64 (va_start vma + _)), land_not64_pow2 by lia. set (b := 2 ^ k * ((va_start vma + (2 ^ k - 1)) / 2 ^ k)).
  assert (Hb : va_start vma <= b < va_start vma + 2 ^ k) by (subst b; Z.div_mod_to_equations; nia).
  assert (Hbm : b mod 2 ^ k = 0) by (subst b; rewrite Z.mul_comm; apply Z.mod_mul; lia). rewrite (wrap_small 64 (b + size)) by lia.
  destruct (Z.leb_spec (va_start vma) b); [|lia]. cbn [andb]. destruct (Z.leb_spec (b + size) (va_end vma)); cbn [negb].
  - pose proof (split_ok mm vma b (b + size) flags ml mr Hok Hin ltac:(lia) ltac:(lia) Hl Hr Hne) as S. destruct (__split_vmm_area _ _ _ _ _ _ _) as [[va|] mm'].
    + exists b. destruct S as [-> S]. split; [split; [done|lia]|done].
    + destruct S as [-> S]. split; [done|]. right. tauto.
  - split; [done|]. left. intros b' (Hm & H1 & H2). apply Z.div_exact in Hm; [|lia].
    assert ((va_start vma + (2 ^ k - 1)) / 2 ^ k < b' / 2 ^ k + 1) by (apply Z.div_lt_upper_bound; lia). assert (b <= b') by (subst b; nia). lia.
Qed.

Lemma alloc_free_loop_ok mm k size flags mem l : mm_ok mm -> (forall a, a ∈ l -> a ∈ vmm_area_free mm) -> 0 <= k <= 21 -> 0 <= size < 2 ^ 62 -> mem_fresh mm mem ->
  forall j, match alloc_free_loop mm l size (2 ^ k - 1) flags mem j with
  | (Some va, mm') => exists vma b, vma ∈ l /\ fits vma k size b /\ va = taken_from vma b (b + size) flags /\ took mm mm' va
  | (None, mm') => mm' = mm /\ (mem_enough mem -> forall vma b, vma ∈ l -> ~ fits vma k size b)
  end.
Proof.
  intros Hok Hl Hk Hs Hm. induction l as [|a l IH]; intros j; cbn [alloc_free_loop]; [split; [done|]; intros _ vma b Hx; inversion Hx|].
  assert (IH' := IH (fun x Hx => Hl x (list_elem_of_further x a l Hx))). clear IH.
  assert (Ha : area_ok a) by (apply (Forall_forall area_ok (areas mm)); [apply Hok|apply elem_of_app; left; apply Hl; by left]). rewrite VMA_SIZE_ok by done.
  assert (Hrest : forall j', (mem_enough mem -> forall b, ~ fits a k size b) -> match alloc_free_loop mm l size (2 ^ k - 1) flags mem j' with
    | (Some va, mm') => exists vma b, vma ∈ a :: l /\ fits vma k size b /\ va = taken_from vma b (b + size) flags /\ took mm mm' va
    | (None, mm') => mm' = mm /\ (mem_enough mem -> forall vma b, vma ∈ a :: l -> ~ fits vma k size b)
    end).
  { intros j' Hno. specialize (IH' j'). destruct (alloc_free_loop mm l _ _ _ _ j') as [[va|] mm'].
    - destruct IH' as (vma & b & Hv & Hr). exists vma, b. split; [by right|done].
    - destruct IH' as [-> Hn]. split; [done|]. intros He vma b [->|Hv]%elem_of_cons; [by apply Hno|by apply Hn]. }
  destruct (Z.ltb_spec (va_end a - va_start a) size); [apply Hrest; intros _ b (_ & ? & ?); lia|].
  destruct (Hm j) as (F1 & F2 & F3). pose proof (alloc_in_area_ok mm a k size flags _ _ Hok (Hl a (list_elem_of_here a l)) Hk Hs F1 F2 F3) as A.
  destruct (__alloc_free_vmm_area _ _ _ _ _ _ _) as [[va|] mm'].
  - destruct A as (b & Hr). exists a, b. split; [by left|done].
  - destruct A as [-> A]. apply Hrest. intros He b Hb. destruct (He j). destruct A as [A|A]; [by apply (A b)|tauto].
Qed.

(** ** Merging *)

Lemma Forall_part {A} (P : A -> Prop) (l k : list A) : l ⊆+ k -> Forall P k -> Forall P l.
Proof. intros (m & ->)%submseteq_Permutation. by intros [? _]%Forall_app. Qed.

Lemma NoDup_part {A} (l k : list A) : l ⊆+ k -> NoDup k -> NoDup l.
Proof. intros (m & ->)%submseteq_Permutation. by intros [? _]%NoDup_app. Qed.

Definition blank (va : vmm_area) : vmm_area := mk_va (va_id va) (va_start va) (va_end va) 0 0 0 (b_head va).

Lemma free_scan_ok va size l : area_ok va -> Forall area_ok l ->
  match free_scan va size l with
  | Merged va' l' => length l = S (length l') /\ va_id va' = va_id va /\ area_ok va' /\ l' ⊆+ l /\ (forall x, Z.b2z (inside va' x) + cover l' x = Z.b2z (inside va x) + cover l x)
  | Inserted l' => l' ≡ₚ va :: l
  | Passed => True
  end.
Proof.
  intros Hva Hl. induction Hl as [|tmp l Ht Hl IH]; cbn [free_scan]; [done|]. destruct Hva as (V1 & V2 & V3), Ht as (T1 & T2 & T3).
  assert (Hm : forall s e, s <= e -> (va_start va = va_end tmp /\ s = va_start tmp /\ e = va_end va \/ va_end va = va_start tmp /\ s = va_start va /\ e = va_end tmp) ->
    forall x, Z.b2z ((s <=? x) && (x <? e)) + cover l x = Z.b2z (inside va x) + (Z.b2z (inside tmp x) + cover l x)).
  { intros s e Hse H x. unfold inside. case_bools; cbn; lia. }
  destruct (Z.eqb_spec (va_start va) (va_end tmp)).
  { split; [done|]. split; [done|]. split; [split; cbn; [lia|split; [lia|done]]|]. split; [by apply submseteq_cons|]. apply Hm; [cbn; lia|tauto]. }
  destruct (Z.eqb_spec (va_end va) (va_start tmp)).
  { split; [done|]. split; [done|]. split; [split; cbn; [lia|split; [lia|done]]|]. split; [by apply submseteq_cons|]. apply Hm; [cbn; lia|tauto]. }
  destruct (size <=? VMA_SIZE tmp); [done|]. destruct (free_scan va size l) as [va' l'|l'|]; [|by rewrite IH, Permutation_swap|done].
  destruct IH as (E1 & E2 & E3 & E4 & E5). split; [cbn; congruence|]. split; [done|]. split; [done|]. split; [by apply submseteq_skip|].
  intros x. rewrite !cover_cons. specialize (E5 x). lia.
Qed.

Lemma cover_perm l l' x : l ≡ₚ l' -> cover l x = cover l' x.
Proof. induction 1 as [|a l l' _ IH|a b l|l1 l2 l3 _ IH1 _ IH2]; rewrite ?cover_cons; lia. Qed.

Lemma add_free_loop_ok fuel : forall va size l, area_ok va -> Forall area_ok l -> (length l < fuel)%nat ->
  exists l' va' rest, add_free_loop fuel va size l = Ret l' /\ l' ≡ₚ va' :: rest /\ rest ⊆+ l /\ va_id va' = va_id va /\ area_ok va' /\
    (forall x, cover l' x = Z.b2z (inside va x) + cover l x).
Proof.
  induction fuel as [|fuel IH]; intros va size l Hva Hl Hf; [lia|]. cbn [add_free_loop]. pose proof (free_scan_ok va size l Hva Hl) as S.
  destruct (free_scan va size l) as [va' l'|l'|].
  - destruct S as (E1 & E2 & E3 & E4 & E5). destruct (IH va' size l' E3) as (l2 & va2 & rest & -> & Hp & Hs & Ei & Ho & Hc); [by eapply Forall_part|lia|].
    exists l2, va2, rest. split; [done|]. split; [done|]. split; [by transitivity l'|]. split; [congruence|]. split; [done|]. intros x. rewrite Hc. apply E5.
  - exists l', va, l. split; [done|]. split; [done|]. split; [done|]. split; [done|]. split; [done|]. intros x. by rewrite (cover_perm _ _ x S).
  - exists (l ++ [va]), va, l. split; [done|]. split; [by rewrite Permutation_app_comm|]. split; [done|]. split; [done|]. split; [done|].
    intros x. rewrite cover_app, cover_cons. cbn. lia.
Qed.

(** [va] was used and its range is free now. *)
Record gave (mm mm' : mm_struct) (va : vmm_area) : Prop := {
  gv_used : vmm_area_used mm' = list_del (va_id va) (vmm_area_used mm);
  gv_ok : mm_ok mm';
  gv_cover : forall x, cover (areas mm') x = cover (areas mm) x;
  gv_free : forall x, cover (vmm_area_free mm') x = cover (vmm_area_free mm) x + Z.b2z (inside va x);
}.

Lemma add_free_ok mm va va0 : mm_ok mm -> va ∈ vmm_area_used mm -> va_id va0 = va_id va -> va_start va0 = va_start va -> va_end va0 = va_end va ->
  exists mm', __add_free_vmm_area (mk_mm (vmm_area_free mm) (list_del (va_id va) (vmm_area_used mm))) va0 = Ret mm' /\ gave mm mm' va.
Proof.
  intros [Ha Ho Hd] (l1 & l2 & Eu)%list_elem_of_split E1 E2 E3. unfold areas in *. rewrite Eu in *. unfold __add_free_vmm_area. cbn [vmm_area_free vmm_area_used].
  pose proof Ha as Ha'. rewrite !Forall_app, Forall_cons in Ha'. destruct Ha' as (Hf & H1 & Hva & H2).
  assert (Hb : area_ok (blank va0)) by (unfold area_ok; cbn; by rewrite E1, E2, E3).
  destruct (add_free_loop_ok (S (length (vmm_area_free mm))) (blank va0) (VMA_SIZE (blank va0)) (vmm_area_free mm) Hb Hf ltac:(lia))
    as (l' & va' & rest & El & Hp & Hs & Ei & Hok & Hc). unfold blank in El. rewrite El. cbn [obind]. eexists. split; [done|].
  rewrite app_assoc in Hd. destruct (ids_split _ _ _ Hd) as (N1 & N2 & Hd'). rewrite map_app, elem_of_app in N1.
  assert (Ed : list_del (va_id va) (l1 ++ va :: l2) = l1 ++ l2) by (apply list_del_split; tauto). rewrite Ed.
  assert (Hin : forall x, inside (blank va0) x = inside va x) by (intros x; unfold inside; cbn; by rewrite E2, E3).
  assert (C : forall x, cover (l' ++ l1 ++ l2) x = cover (vmm_area_free mm ++ l1 ++ va :: l2) x).
  { intros x. rewrite !cover_app, cover_cons, Hc, Hin. lia. }
  split; unfold areas; cbn [vmm_area_free vmm_area_used]; rewrite ?Eu, ?Ed; [done| |exact C|intros x; rewrite Hc, Hin; lia]. split; unfold areas; cbn [vmm_area_free vmm_area_used].
  - rewrite !Forall_app. split; [|done]. rewrite Hp, Forall_cons. split; [done|]. by eapply Forall_part.
  - intros x. rewrite C. apply Ho.
  - cbn in Ei. rewrite Hp. cbn. rewrite Ei, E1. apply NoDup_cons. split.
    + rewrite !map_app, !elem_of_app. intros [Hr|[Hr|Hr]]; [|tauto|tauto]. apply N1. left.
      apply list_elem_of_fmap in Hr as (e & -> & He). apply list_elem_of_fmap_2. by eapply elem_of_submseteq.
    + eapply NoDup_part; [|exact Hd']. rewrite !map_app, <- app_assoc. apply submseteq_app; [|done]. by apply fmap_submseteq.
Qed.

Lemma find_area_spec base end_ l : match find_area base end_ l with
  | Some va => va ∈ l /\ va_start va <= base /\ end_ <= va_end va
  | None => forall va, va ∈ l -> ~ (va_start va <= base /\ end_ <= va_end va)
  end.
Proof.
  unfold find_area. destruct (List.find _ l) as [va|] eqn:E.
  - apply List.find_some in E as [Hin Hb]. bool_hyps. split; [by apply list_elem_of_In|lia].
  - intros va Hva%list_elem_of_In [? ?]. apply (List.find_none _ _ E) in Hva. apply andb_false_iff in Hva as [?%Z.leb_gt|?%Z.leb_gt]; lia.
Qed.

Lemma split_vmm_area_ok mm base size flags ml mr : mm_ok mm -> 0 <= base -> 0 <= size -> base + size < 2 ^ 64 -> fresh mm ml -> fresh mm mr -> (ml = mr -> ml = 0) ->
  match split_vmm_area mm base size flags ml mr with
  | (Some va, mm') => va_start va = base /\ va_end va = base + size /\ va_flags va = flags /\ took mm mm' va
  | (None, mm') => mm' = mm
  end.
Proof.
  intros Hok Hb Hs He Hl Hr Hne. unfold split_vmm_area. destruct (_ && _); [done|]. rewrite wrap_small by lia.
  pose proof (find_area_spec base (base + size) (vmm_area_free mm)) as F. destruct (find_area _ _ _) as [vma|]; [|done]. destruct F as (Hin & H1 & H2).
  pose proof (split_ok mm vma base (base + size) flags ml mr Hok Hin ltac:(lia) H2 Hl Hr Hne) as S. destruct (__split_vmm_area _ _ _ _ _ _ _) as [[va|] mm'].
  - destruct S as [-> S]. done.
  - apply S.
Qed.

(** ** Sections of blocks *)

Definition low_end : Z := 2 ^ 32.

Record bs_ok (bs : block_section) : Prop := {
  bo_start : 0 <= bs_start bs /\ bs_start bs mod MEM_BLOCK_SIZE = 0;
  bo_end : bs_end bs = bs_start bs + bs_total bs * MEM_BLOCK_SIZE /\ bs_end bs < 2 ^ 52;
  bo_total : 0 < bs_total bs <= 64 * Z.of_nat (length (bs_bitmap bs));
  bo_map : bitmap_ok (bs_bitmap bs);
  bo_index : 0 <= bs_index bs;
  bo_free : bs_free bs = bs_total bs - count_from (bs_bitmap bs) 0 (Z.to_nat (bs_total bs));
}.

Definition first_block (bs : block_section) : Z := bs_start bs / MEM_BLOCK_SIZE.
Definition has_block (bs : block_section) (b : Z) : bool := (first_block bs <=? b) && (b <? first_block bs + bs_total bs).
Definition busy_in (l : list block_section) (b : Z) : bool := existsb (fun bs => has_block bs b && bit_at (bs_bitmap bs) (b - first_block bs)) l.
Definition sum_free (l : list block_section) : Z := foldr (fun bs n => bs_free bs + n) 0 l.
Definition sum_total (l : list block_section) : Z := foldr (fun bs n => bs_total bs + n) 0 l.

Fixpoint apart (l : list block_section) : Prop :=
  match l with
  | [] => True
  | bs :: l => (forall b, has_block bs b = true -> existsb (fun bs => has_block bs b) l = false) /\ apart l
  end.

(** The blocks that are in use are those with their bit set. *)
Record vmm_ok (st : vmm) : Prop := {
  vo_sections : Forall bs_ok (bs_list st);
  vo_apart : apart (bs_list st);
  vo_free : free_blocks st = sum_free (bs_list st) /\ sum_total (bs_list st) < 2 ^ 64;
}.

Lemma first_block_start bs : bs_ok bs -> bs_start bs = first_block bs * MEM_BLOCK_SIZE /\ 0 <= first_block bs /\ first_block bs + bs_total bs < 2 ^ 31.
Proof. intros [[H1 H2] [H3 H4] H5 _ _ _]. unfold first_block, MEM_BLOCK_SIZE in *. Z.div_mod_to_equations. lia. Qed.

(** A section with one bit changed. *)
Record changed (v : bool) (bs bs' : block_section) (id : Z) : Prop := {
  ch_ok : bs_ok bs';
  ch_shape : bs_start bs' = bs_start bs /\ bs_total bs' = bs_total bs;
  ch_bits : forall i, 0 <= i -> bit_at (bs_bitmap bs') i = if i =? id then v else bit_at (bs_bitmap bs) i;
  ch_free : bs_free bs' = bs_free bs - (if v then 1 else - 1);
}.

Lemma change_section v bs id b' index free' : bs_ok bs -> 0 <= id < bs_total bs -> bit_at (bs_bitmap bs) id = negb v -> updated v (bs_bitmap bs) b' id (id + 1) -> 0 <= index ->
  free' = bs_free bs - (if v then 1 else - 1) ->
  changed v bs (mk_bs (bs_start bs) (bs_size bs) (bs_end bs) free' (bs_total bs) index b') id.
Proof.
  intros [H1 H2 H3 H4 H5 H6] Hid Hb Hu Hi ->. pose proof Hu as (Hlen & Hok & Hbits).
  assert (Hc := count_updated v _ b' id (id + 1) (Z.to_nat (bs_total bs)) Hu ltac:(lia) ltac:(lia) ltac:(intros j Hj; replace j with id by lia; done)).
  split; [split; cbn; try done; [by rewrite Hlen|rewrite Hc, H6; destruct v; cbn; lia]|done| |done].
  intros i Hi'. cbn. rewrite Hbits by done. case_bools; try done.
Qed.

Lemma free_bound bs : bs_ok bs -> 0 <= bs_free bs <= bs_total bs.
Proof. intros H. rewrite (bo_free _ H). pose proof (count_from_bound (bs_bitmap bs) 0 (Z.to_nat (bs_total bs))). destruct (bo_total _ H). lia. Qed.

Lemma get_block_ok bs : bs_ok bs -> bs_free bs <> 0 ->
  exists id bs', get_memblock_from_section bs = Ret (inr (first_block bs + id, bs')) /\ 0 <= id < bs_total bs /\ bit_at (bs_bitmap bs) id = false /\ changed true bs bs' id.
Proof.
  intros Hok Hf. destruct (first_block_start bs Hok) as (Es & F1 & F2). pose proof (free_bound bs Hok) as Hfb. destruct (bo_total _ Hok) as [T1 T2].
  destruct (_find_next_bit_loop_spec (bs_bitmap bs) (bs_total bs) (bs_index bs) true (bo_map _ Hok) T1 (bo_index _ Hok) T2) as (r & Er & Hr).
  assert (Hlt : 0 <= r < bs_total bs /\ bit_at (bs_bitmap bs) r = false).
  { pose proof (bo_index _ Hok). unfold is_next_wrap, is_next, wanted in Hr. destruct Hr as [(? & Hw & _)|[Hn (Hle & Hz & Hw)]]; [split; [lia|by destruct (bit_at _ _)]|].
    destruct (decide (r < bs_total bs)) as [Hlt|]; [split; [lia|specialize (Hw Hlt); by destruct (bit_at _ _)]|]. exfalso. apply Hf. rewrite (bo_free _ Hok).
    rewrite (count_from_const _ _ _ true); [cbn; lia|]. intros j Hj. specialize (Hz j ltac:(lia)). by destruct (bit_at _ _). }
  destruct Hlt as [Hlt Hbit]. unfold get_memblock_from_section, find_next_zero_bit_loop. unfold invert_mask in Er. rewrite Er. cbn [obind]. rewrite (wrap_small 32 r) by lia.
  destruct (Z.leb_spec (bs_total bs) r); [lia|]. destruct (set_bit_spec (bs_bitmap bs) r (bo_map _ Hok) ltac:(lia)) as (b' & -> & Hu). cbn [obind].
  replace (Z.shiftr (bs_start bs) MEM_BLOCK_SHIFT) with (first_block bs) by (unfold first_block; by rewrite Z.shiftr_div_pow2).
  rewrite (wrap_small 32 (_ + r)), (wrap_small 32 (r + 1)), (wrap_small 64) by lia. eexists r, _. split; [done|]. split; [done|]. split; [done|].
  by apply change_section; [| | | |lia|].
Qed.

Lemma has_block_changed v bs bs' id b : changed v bs bs' id -> has_block bs' b = has_block bs b /\ first_block bs' = first_block bs.
Proof. intros [_ [E1 E2] _ _]. unfold has_block, first_block. by rewrite E1, E2. Qed.

Lemma busy_cons bs l b : busy_in (bs :: l) b = (has_block bs b && bit_at (bs_bitmap bs) (b - first_block bs)) || busy_in l b.
Proof. done. Qed.

Lemma busy_has l b : busy_in l b = true -> existsb (fun bs => has_block bs b) l = true.
Proof. unfold busy_in. rewrite !existsb_exists. intros (bs & Hin & Hb). exists bs. bool_hyps. done. Qed.

Definition has_in (l : list block_section) (b : Z) : bool := existsb (fun bs => has_block bs b) l.

(** The state of one block changed. *)
Record block_set (v : bool) (l l' : list block_section) (b0 : Z) : Prop := {
  bt_ok : Forall bs_ok l';
  bt_apart : apart l';
  bt_has : forall b, has_in l' b = has_in l b;
  bt_in : has_in l b0 = true;
  bt_was : busy_in l b0 = negb v;
  bt_busy : forall b, busy_in l' b = if b =? b0 then v else busy_in l b;
  bt_free : sum_free l' = sum_free l - (if v then 1 else - 1);
  bt_total : sum_total l' = sum_total l;
}.

Lemma not_has_not_busy l b : has_in l b = false -> busy_in l b = false.
Proof. intros H. destruct (busy_in l b) eqn:E; [|done]. apply busy_has in E. unfold has_in in H. congruence. Qed.

Lemma set_here v bs bs' l id : Forall bs_ok l -> apart (bs :: l) -> 0 <= id < bs_total bs -> bit_at (bs_bitmap bs) id = negb v -> changed v bs bs' id ->
  block_set v (bs :: l) (bs' :: l) (first_block bs + id).
Proof.
  intros Hl [Hap Hap'] Hid Hb C. assert (Hh : forall b, has_block bs' b = has_block bs b) by (intros b; by destruct (has_block_changed v bs bs' id b C)).
  assert (Hf : first_block bs' = first_block bs) by (by destruct (has_block_changed v bs bs' id 0 C)).
  assert (H0 : has_block bs (first_block bs + id) = true) by (unfold has_block; case_bools; done).
  pose proof (not_has_not_busy l _ (Hap _ H0)) as Hno. split.
  - constructor; [apply C|done].
  - split; [|done]. intros b. rewrite Hh. apply Hap.
  - intros b. unfold has_in. cbn. by rewrite Hh.
  - unfold has_in. cbn. by rewrite H0.
  - rewrite busy_cons, H0, Hno, orb_false_r. replace (first_block bs + id - first_block bs) with id by lia. done.
  - intros b. rewrite !busy_cons, Hh, Hf. destruct (has_block bs b) eqn:Eb; cbn [andb].
    + rewrite (not_has_not_busy l b (Hap b Eb)), !orb_false_r. unfold has_block in Eb. bool_hyps. rewrite (ch_bits _ _ _ _ C) by lia. case_bools; done.
    + destruct (Z.eqb_spec b (first_block bs + id)); [subst b; congruence|done].
  - cbn. rewrite (ch_free _ _ _ _ C). lia.
  - cbn. by destruct (ch_shape _ _ _ _ C) as [_ ->].
Qed.

Lemma set_there v bs l l' b0 : bs_ok bs -> apart (bs :: l) -> block_set v l l' b0 -> block_set v (bs :: l) (bs :: l') b0.
Proof.
  intros Hbs [Hap Hap'] [H1 H2 H3 H4 H5 H6 H7 H8]. assert (Hn : has_block bs b0 = false) by (destruct (has_block bs b0) eqn:E; [|done]; apply Hap in E; unfold has_in in H4; congruence). split.
  - by constructor.
  - split; [|done]. intros b Hb. apply Hap in Hb. fold (has_in l' b). by rewrite H3.
  - intros b. unfold has_in in *. cbn. by rewrite H3.
  - unfold has_in in *. cbn. by rewrite H4, orb_true_r.
  - by rewrite busy_cons, Hn, H5.
  - intros b. rewrite !busy_cons, H6. destruct (Z.eqb_spec b b0) as [->|]; [by rewrite Hn|done].
  - unfold sum_free in *. cbn. lia.
  - unfold sum_total in *. cbn. lia.
Qed.

Lemma alloc_in_ok l : Forall bs_ok l -> apart l ->
  exists r, alloc_in l = Ret r /\ match r with Some (b, l') => block_set true l l' b /\ 0 <= b < 2 ^ 31 | None => sum_free l = 0 end.
Proof.
  induction 1 as [|bs l Hbs Hl IH]; intros Hap; cbn [alloc_in]; [by exists None|]. pose proof Hap as [Hap1 Hap2]. destruct (IH Hap2) as (r & Er & Hr). rewrite Er. cbn [obind].
  destruct (Z.eqb_spec (bs_free bs) 0) as [E0|N0].
  - eexists. split; [done|]. destruct r as [[b l']|]; cbn [option_map fst snd]; [destruct Hr; split; [by apply set_there|done]|]. unfold sum_free in *. cbn. lia.
  - destruct (get_block_ok bs Hbs N0) as (id & bs' & -> & Hid & Hb & C). cbn [obind]. eexists. split; [done|]. destruct (first_block_start bs Hbs) as (_ & ? & ?).
    split; [by apply set_here|lia].
Qed.

Lemma free_block_ok bs id : bs_ok bs -> 0 <= id < bs_total bs -> bit_at (bs_bitmap bs) id = true ->
  exists b', clear_bit id (bs_bitmap bs) = Ret b' /\ changed false bs (mk_bs (bs_start bs) (bs_size bs) (bs_end bs) (u64 (bs_free bs + 1)) (bs_total bs) (bs_index bs) b') id.
Proof.
  intros Hok Hid Hb. destruct (bo_total _ Hok) as [T1 T2]. destruct (clear_bit_spec (bs_bitmap bs) id (bo_map _ Hok) ltac:(lia)) as (b' & E & Hu). exists b'. split; [done|].
  pose proof (free_bound bs Hok). destruct (first_block_start bs Hok) as (_ & ? & ?). apply change_section; try done; [apply Hok|]. rewrite wrap_small by lia. lia.
Qed.

Lemma free_in_ok l b : Forall bs_ok l -> apart l -> busy_in l b = true -> exists l', free_in l (b * MEM_BLOCK_SIZE) = Ret (Some l') /\ block_set false l l' b.
Proof.
  induction 1 as [|bs l Hbs Hl IH]; intros Hap Hb; [done|]. pose proof Hap as [Hap1 Hap2]. cbn [free_in]. destruct (first_block_start bs Hbs) as (Es & F1 & F2).
  destruct (bo_end _ Hbs) as [Ee _]. rewrite busy_cons in Hb.
  assert (Hh : (bs_start bs <=? b * MEM_BLOCK_SIZE) && (b * MEM_BLOCK_SIZE <? bs_end bs) = has_block bs b).
  { unfold has_block. rewrite Es, Ee, Es. unfold MEM_BLOCK_SIZE. case_bools; done. }
  rewrite Hh. destruct (has_block bs b) eqn:Eb; cbn [andb orb] in Hb.
  - rewrite (not_has_not_busy l b (Hap1 b Eb)), orb_false_r in Hb. unfold has_block in Eb. bool_hyps.
    assert (Eid : u32 (Z.shiftr (u64 (b * MEM_BLOCK_SIZE - bs_start bs)) MEM_BLOCK_SHIFT) = b - first_block bs).
    { rewrite Es, (wrap_small 64), Z.shiftr_div_pow2 by (unfold MEM_BLOCK_SIZE, MEM_BLOCK_SHIFT; lia). rewrite <- Z.mul_sub_distr_r. unfold MEM_BLOCK_SIZE, MEM_BLOCK_SHIFT.
      change (2 ^ 21) with 2097152. rewrite Z.div_mul by lia. apply wrap_small. lia. }
    rewrite Eid. destruct (free_block_ok bs (b - first_block bs) Hbs ltac:(lia) Hb) as (b' & -> & C). cbn [obind]. eexists. split; [done|].
    pose proof (set_here false bs _ l (b - first_block bs) Hl Hap ltac:(lia) Hb C) as S. by replace (first_block bs + (b - first_block bs)) with b in S by lia.
  - destruct (IH Hap2 Hb) as (l' & -> & Hs). cbn [obind option_map]. eexists. split; [done|]. by apply set_there.
Qed.

Lemma sum_free_bound l : Forall bs_ok l -> 0 <= sum_free l <= sum_total l.
Proof. induction 1 as [|bs l Hbs _ IH]; [done|]. pose proof (free_bound bs Hbs). unfold sum_free, sum_total in *. cbn. lia. Qed.

(** The blocks are below 4 GB. *)
Definition low (st : vmm) : Prop := forall b, has_in (bs_list st) b = true -> b < 2048.

Definition busy (st : vmm) (b : Z) : bool := busy_in (bs_list st) b.

Lemma has_nonneg l b : Forall bs_ok l -> has_in l b = true -> 0 <= b.
Proof.
  intros Hl (bs & Hin%list_elem_of_In & Hb)%existsb_exists. apply (proj1 (Forall_forall bs_ok l) Hl) in Hin. destruct (first_block_start bs Hin) as (_ & ? & _).
  unfold has_block in Hb. bool_hyps. lia.
Qed.

Lemma block_set_ok v st l' b n : vmm_ok st -> block_set v (bs_list st) l' b -> n = u64 (free_blocks st - (if v then 1 else - 1)) -> vmm_ok (mk_vmm l' n) /\ (low st -> low (mk_vmm l' n)).
Proof.
  intros [H1 H2 [H3 H4]] B ->. pose proof (sum_free_bound l' (bt_ok _ _ _ _ B)) as Hb. rewrite (bt_free _ _ _ _ B), (bt_total _ _ _ _ B) in Hb. split.
  - split; cbn [bs_list free_blocks]; [apply B|apply B|]. rewrite (bt_total _ _ _ _ B), (bt_free _ _ _ _ B), H3. split; [|done]. apply wrap_small. lia.
  - intros Hlow b' Hb'. apply Hlow. cbn in Hb'. by rewrite <- (bt_has _ _ _ _ B).
Qed.

Lemma free_memblock_ok st b : vmm_ok st -> low st -> busy st b = true ->
  exists st', vmm_free_memblock st b = Ret (0, st') /\ vmm_ok st' /\ low st' /\ block_set false (bs_list st) (bs_list st') b.
Proof.
  intros Hok Hlow Hb. pose proof (busy_has _ _ Hb) as Hh. pose proof (Hlow b Hh). pose proof (has_nonneg _ b (vo_sections _ Hok) Hh).
  unfold vmm_free_memblock, __vmm_free_memblock. replace (u32 (Z.shiftl b MEM_BLOCK_SHIFT)) with (b * MEM_BLOCK_SIZE).
  2:{ rewrite Z.shiftl_mul_pow2 by (unfold MEM_BLOCK_SHIFT; lia). symmetry. apply wrap_small. unfold MEM_BLOCK_SHIFT, MEM_BLOCK_SIZE. change (2 ^ 21) with 2097152. change (2 ^ 32) with 4294967296. lia. }
  destruct (free_in_ok (bs_list st) b (vo_sections _ Hok) (vo_apart _ Hok) Hb) as (l' & -> & B). cbn [obind]. eexists. split; [done|].
  destruct (block_set_ok false st l' b _ Hok B eq_refl) as [H1 H2]. cbn in H1, H2. split; [exact H1|]. split; [by apply H2|done].
Qed.

(** [st'] is [st] with the blocks of [l] taken. *)
Record blocks_taken (st st' : vmm) (l : list Z) : Prop := {
  bk_ok : vmm_ok st';
  bk_low : low st';
  bk_has : forall b, has_in (bs_list st') b = has_in (bs_list st) b;
  bk_nodup : NoDup l;
  bk_new : forall b, b ∈ l -> busy st b = false /\ has_in (bs_list st) b = true;
  bk_busy : forall b, busy st' b = busy st b || bool_decide (b ∈ l);
  bk_free : free_blocks st' = free_blocks st - Z.of_nat (length l);
}.

Lemma block_set_free v st st' b : vmm_ok st -> vmm_ok st' -> block_set v (bs_list st) (bs_list st') b -> free_blocks st' = free_blocks st - (if v then 1 else - 1).
Proof. intros H1 H2 B. rewrite (proj1 (vo_free _ H1)), (proj1 (vo_free _ H2)). apply B. Qed.

Lemma taken_none st : vmm_ok st -> low st -> blocks_taken st st [].
Proof. intros H1 H2. split; try done; [by apply NoDup_nil|intros b Hb; inversion Hb| |cbn; lia]. intros b. by rewrite bool_decide_eq_false_2, orb_false_r by apply not_elem_of_nil. Qed.

Lemma alloc_memblock_ok st mem : vmm_ok st -> low st ->
  exists r st', vmm_alloc_memblock st mem = Ret (r, st') /\
    match r with
    | Some b => blocks_taken st st' [b]
    | None => blocks_taken st st' [] /\ (mem = true -> free_blocks st = 0)
    end.
Proof.
  intros Hok Hlow. unfold vmm_alloc_memblock. destruct (alloc_in_ok (bs_list st) (vo_sections _ Hok) (vo_apart _ Hok)) as (r & -> & Hr). cbn [obind].
  destruct r as [[b l']|]; [|exists None, st; split; [done|]; split; [by apply taken_none|]; intros _; destruct (vo_free _ Hok); congruence]. destruct Hr as [B Hb].
  destruct (block_set_ok true st l' b _ Hok B eq_refl) as [H1 H2]. cbn in H1, H2. specialize (H2 Hlow). destruct mem.
  - eexists (Some b), _. split; [done|]. split; cbn [bs_list]; try done; [apply B|apply NoDup_singleton| | |by apply (block_set_free true st _ b)].
    + intros b' ->%list_elem_of_singleton. split; apply B.
    + intros b'. unfold busy. cbn [bs_list]. rewrite (bt_busy _ _ _ _ B). destruct (Z.eqb_spec b' b) as [->|].
      * by rewrite bool_decide_eq_true_2, orb_true_r by (by left).
      * rewrite bool_decide_eq_false_2, orb_false_r; [done|]. by intros ?%list_elem_of_singleton.
  - set (st1 := mk_vmm _ _) in *. assert (Hbs : busy st1 b = true) by (unfold busy; cbn [bs_list]; by rewrite (bt_busy _ _ _ _ B), Z.eqb_refl).
    destruct (free_memblock_ok st1 b H1 H2 Hbs) as (st' & E & H3 & H4 & B'). unfold vmm_free_memblock in E. rewrite E. cbn [obind]. exists None, st'. split; [done|]. split; [|done].
    split; try done; [intros b'; rewrite (bt_has _ _ _ _ B'); apply B|by apply NoDup_nil|intros b' Hx; inversion Hx| |].
    2:{ rewrite (block_set_free false st1 st' b), (block_set_free true st st1 b) by done. cbn. lia. }
    intros b'. rewrite bool_decide_eq_false_2, orb_false_r by apply not_elem_of_nil. unfold busy. rewrite (bt_busy _ _ _ _ B'). cbn [bs_list st1]. rewrite (bt_busy _ _ _ _ B).
    destruct (Z.eqb_spec b' b) as [->|]; [|done]. by rewrite (bt_was _ _ _ _ B).
Qed.

Lemma taken_trans st st1 st2 l1 l2 : blocks_taken st st1 l1 -> blocks_taken st1 st2 l2 -> blocks_taken st st2 (l2 ++ l1).
Proof.
  intros T1 T2. assert (Hd : forall b, b ∈ l2 -> b ∉ l1).
  { intros b Hb Hb1. apply (bk_new _ _ _ T2) in Hb as [Hb _]. rewrite (bk_busy _ _ _ T1), bool_decide_eq_true_2, orb_true_r in Hb; done. }
  split; [apply T2|apply T2|intros b; by rewrite (bk_has _ _ _ T2), (bk_has _ _ _ T1)| | | |rewrite (bk_free _ _ _ T2), (bk_free _ _ _ T1), length_app; lia].
  - apply NoDup_app. split; [apply T2|]. split; [done|apply T1].
  - intros b [Hb|Hb]%elem_of_app; [|by apply T1]. apply (bk_new _ _ _ T2) in Hb as [Hb Hh]. rewrite (bk_has _ _ _ T1) in Hh. split; [|done].
    rewrite (bk_busy _ _ _ T1) in Hb. by apply orb_false_iff in Hb as [? _].
  - intros b. rewrite (bk_busy _ _ _ T2), (bk_busy _ _ _ T1), <- orb_assoc. f_equal. rewrite <- bool_decide_or. apply bool_decide_ext. rewrite elem_of_app. tauto.
Qed.

Lemma alloc_blocks_ok n : forall st l mem k, vmm_ok st -> low st ->
  exists ret new st', alloc_blocks n st l mem k = Ret (ret, new ++ l, st') /\ blocks_taken st st' new /\
    (ret = 0 /\ length new = n \/ ret = - ENOMEM /\ ~ ((forall i, mem i = true) /\ Z.of_nat n <= free_blocks st)).
Proof.
  induction n as [|n IH]; intros st l mem k Hok Hlow; cbn [alloc_blocks].
  - exists 0, [], st. split; [done|]. split; [by apply taken_none|by left].
  - destruct (alloc_memblock_ok st (mem k) Hok Hlow) as (r & st1 & -> & Hr). cbn [obind]. destruct r as [b|].
    + destruct (IH st1 (b :: l) mem (S k) (bk_ok _ _ _ Hr) (bk_low _ _ _ Hr)) as (ret & new & st' & -> & T & Hret). exists ret, (new ++ [b]), st'.
      split; [by rewrite <- app_assoc|]. split; [by apply (taken_trans st st1)|]. destruct Hret as [[-> <-]|[-> Hno]]; [left|right].
      * split; [done|]. rewrite length_app. cbn. lia.
      * split; [done|]. intros [Hm Hn]. apply Hno. split; [done|]. rewrite (bk_free _ _ _ Hr). cbn. lia.
    + exists (- ENOMEM), [], st1. split; [done|]. destruct Hr as [T H0]. split; [done|]. right. split; [done|]. intros [Hm Hn]. rewrite (H0 (Hm k)) in Hn. lia.
Qed.

(** [st'] is [st] with the blocks of [l] given back. *)
Record blocks_back (st st' : vmm) (l : list Z) : Prop := {
  bb_ok : vmm_ok st';
  bb_low : low st';
  bb_has : forall b, has_in (bs_list st') b = has_in (bs_list st) b;
  bb_busy : forall b, busy st' b = busy st b && bool_decide (b ∉ l);
  bb_free : free_blocks st' = free_blocks st + Z.of_nat (length l);
}.

Lemma release_blocks_ok l : forall st, vmm_ok st -> low st -> NoDup l -> (forall b, b ∈ l -> busy st b = true) ->
  exists st', release_blocks l st = Ret st' /\ blocks_back st st' l.
Proof.
  induction l as [|b l IH]; intros st Hok Hlow Hnd Hb; cbn [release_blocks].
  - exists st. split; [done|]. split; try done; [|cbn; lia]. intros b. by rewrite bool_decide_eq_true_2, andb_true_r by apply not_elem_of_nil.
  - apply NoDup_cons in Hnd as [Hn Hnd]. destruct (free_memblock_ok st b Hok Hlow (Hb b (list_elem_of_here b l))) as (st1 & -> & Hok1 & Hlow1 & B). cbn [obind].
    assert (Hb1 : forall c, busy st1 c = if c =? b then false else busy st c) by (intros c; apply B).
    destruct (IH st1 Hok1 Hlow1 Hnd) as (st' & -> & T).
    { intros c Hc. rewrite Hb1. destruct (Z.eqb_spec c b) as [->|]; [done|]. apply Hb. by right. }
    exists st'. split; [done|]. split; [apply T|apply T|intros c; rewrite (bb_has _ _ _ T); apply B| |rewrite (bb_free _ _ _ T), (block_set_free false st st1 b) by done; cbn; lia]. intros c. rewrite (bb_busy _ _ _ T), Hb1.
    destruct (Z.eqb_spec c b) as [->|Hne]; [by rewrite (bool_decide_eq_false_2 (b ∉ b :: l)), andb_false_r by (intros H; apply H; by left)|].
    f_equal. apply bool_decide_ext. rewrite not_elem_of_cons. tauto.
Qed.

Lemma taken_back st st' st2 l : blocks_taken st st' l -> blocks_back st' st2 l -> (forall b, busy st2 b = busy st b) /\ free_blocks st2 = free_blocks st.
Proof.
  intros T B. split; [|rewrite (bb_free _ _ _ B), (bk_free _ _ _ T); lia]. intros b. rewrite (bb_busy _ _ _ B), (bk_busy _ _ _ T). destruct (decide (b ∈ l)) as [Hb|Hb].
  - rewrite (bool_decide_eq_false_2 (b ∉ l)), andb_false_r by tauto. symmetry. by apply (bk_new _ _ _ T).
  - by rewrite (bool_decide_eq_false_2 (b ∈ l)), orb_false_r, bool_decide_eq_true_2, andb_true_r.
Qed.

Lemma release_taken st st' new : blocks_taken st st' new -> exists st2, release_blocks new st' = Ret st2 /\ forall b, busy st2 b = busy st b.
Proof.
  intros T. destruct (release_blocks_ok new st' (bk_ok _ _ _ T) (bk_low _ _ _ T) (bk_nodup _ _ _ T)) as (st2 & E2 & B).
  { intros b Hb. by rewrite (bk_busy _ _ _ T), bool_decide_eq_true_2, orb_true_r. }
  exists st2. split; [done|]. by apply (taken_back st st' st2 new).
Qed.

(** ** The sections of the boot regions *)

Definition owners (l : list block_section) (b : Z) : Z := foldr (fun bs n => Z.b2z (has_block bs b) + n) 0 l.

Lemma owners_perm l l' b : l ≡ₚ l' -> owners l b = owners l' b.
Proof. unfold owners. induction 1; cbn; lia. Qed.

Lemma owners_has l b : 0 <= owners l b /\ (has_in l b = true -> 1 <= owners l b).
Proof.
  induction l as [|bs l [I1 I2]]; [done|]. change (owners (bs :: l) b) with (Z.b2z (has_block bs b) + owners l b). change (has_in (bs :: l) b) with (has_block bs b || has_in l b).
  destruct (has_block bs b); cbn [Z.b2z orb]; split; [lia|intros _; lia|lia|intros H; specialize (I2 H); lia].
Qed.

Lemma owners_apart l : (forall b, owners l b <= 1) -> apart l.
Proof.
  induction l as [|bs l IH]; intros H; [done|]. split.
  - intros b Hb. specialize (H b). cbn in H. rewrite Hb in H. fold (owners l b) in H. destruct (owners_has l b) as [_ Hh]. fold (has_in l b).
    destruct (has_in l b); [|done]. specialize (Hh eq_refl). cbn in H. lia.
  - apply IH. intros b. specialize (H b). cbn in H. fold (owners l b) in H. destruct (has_block bs b); cbn in H; lia.
Qed.

(** A region of normal memory reaches from one block to another. *)
Definition holds_block (r : memory_region) : Prop :=
  r_type r = MEMORY_REGION_TYPE_NORMAL -> BLOCK_BALIGN (r_base r) <= BLOCK_ALIGN (region_end r) /\ region_end r < 2 ^ 51.

Lemma section_of_ok r bs : region_ok r -> holds_block r -> section_of r = Some bs ->
  bs_ok bs /\ bs_free bs = bs_total bs /\ (forall b, has_block bs b = true -> in_region r (b * MEM_BLOCK_SIZE)) /\ (forall b, bit_at (bs_bitmap bs) b = false).
Proof.
  intros (R1 & R2 & R3 & _) Hb. unfold section_of. destruct (Z.eqb_spec (r_type r) MEMORY_REGION_TYPE_NORMAL) as [E|]; [|done]. cbn [negb]. destruct (Hb E) as [Hle Hend].
  unfold region_end in *. rewrite (wrap_small 64 (r_base r + _)) by lia. fold (BLOCK_BALIGN (r_base r)) (BLOCK_ALIGN (r_base r + r_size r)).
  change (2 ^ 51) with 2251799813685248 in Hend. destruct (BLOCK_BALIGN_spec (r_base r)) as [L1 L2]; [unfold BLOCK_SIZE; lia|]. destruct (BLOCK_ALIGN_spec (r_base r + r_size r)) as (M1 & M2 & M3); [lia|].
  set (lo := BLOCK_BALIGN _) in *. set (hi := BLOCK_ALIGN _) in *. rewrite (wrap_small 64) by lia. destruct (Z.leb_spec (hi - lo) 0); [done|]. intros Es%(inj Some). subst bs.
  unfold BLOCK_SIZE in *. rewrite Z.shiftr_div_pow2 by (unfold BLOCK_SHIFT; lia). change (2 ^ BLOCK_SHIFT) with 2097152. set (total := (hi - lo) / 2097152).
  assert (Ht : hi = lo + total * 2097152 /\ 0 < total < 2 ^ 30) by (subst total; Z.div_mod_to_equations; lia). destruct Ht as [Ht1 Ht2].
  assert (Hw : s32 (BITS_TO_LONGS total * 8) / 8 = BITS_TO_LONGS total) by (unfold BITS_TO_LONGS; rewrite s32_small by (Z.div_mod_to_equations; lia); apply Z.div_mul; lia).
  assert (Hbt : total <= 64 * BITS_TO_LONGS total < total + 64) by (unfold BITS_TO_LONGS; Z.div_mod_to_equations; lia).
  rewrite Hw. split; [|split; [done|split]].
  - split; cbn; unfold MEM_BLOCK_SIZE; try lia.
    + rewrite length_replicate. lia.
    + split; [apply Forall_replicate; unfold is_word; lia|]. rewrite length_replicate. lia.
    + rewrite (count_from_const _ _ _ false); [cbn; lia|]. intros j _. apply bit_at_zeros.
  - intros b. unfold has_block, first_block, in_region, region_end, MEM_BLOCK_SIZE. cbn. intros Hx. bool_hyps. Z.div_mod_to_equations. lia.
  - intros b. apply bit_at_zeros.
Qed.

Lemma owners_regions l b : Forall region_ok l -> Forall holds_block l -> pairwise_disjoint l ->
  owners (omap section_of l) b <= 1 /\ (owners (omap section_of l) b = 1 -> exists r, r ∈ l /\ in_region r (b * MEM_BLOCK_SIZE)).
Proof.
  induction 1 as [|r l Hr Hl IH]; intros Hh Hp; [done|]. apply Forall_cons in Hh as [Hhr Hhl].
  assert (Hp' : pairwise_disjoint l) by (intros i j ri rj Hi Hj Hne; apply (Hp (S i) (S j)); [done|done|congruence]). destruct (IH Hhl Hp') as [H1 H2].
  assert (Hrest : owners (omap section_of l) b = 1 -> exists x, x ∈ r :: l /\ in_region x (b * MEM_BLOCK_SIZE)) by (intros E; destruct (H2 E) as (x & Hx & Hi); exists x; split; [by right|done]).
  cbn [omap list_omap]. destruct (section_of r) as [bs|] eqn:Es; [|done]. destruct (section_of_ok r bs Hr Hhr Es) as (_ & _ & Hin & _). cbn [owners foldr]. fold (owners (omap section_of l) b).
  destruct (has_block bs b) eqn:Eb; cbn [Z.b2z]; [|done]. apply Hin in Eb. assert (E0 : owners (omap section_of l) b <> 1).
  { intros (x & Hx & Hi)%H2. apply list_elem_of_lookup in Hx as [j Hj]. by apply (Hp 0%nat (S j) r x eq_refl Hj ltac:(lia) (b * MEM_BLOCK_SIZE)). }
  destruct (owners_has (omap section_of l) b) as [? _]. split; [lia|]. intros _. exists r. split; [by left|done].
Qed.

Lemma vmm_init_ok l : l <> [] -> Forall region_ok l -> Forall holds_block l -> pairwise_disjoint l -> sum_total (omap section_of l) < 2 ^ 64 ->
  exists st, vmm_init l = Ret st /\ vmm_ok st /\ (forall b, busy st b = false) /\ (forall b, has_in (bs_list st) b = true -> exists r, r ∈ l /\ in_region r (b * MEM_BLOCK_SIZE)).
Proof.
  intros Hne Hr Hh Hp Hs. unfold vmm_init. rewrite bool_decide_eq_false_2 by done. cbn [negb assert obind]. eexists. split; [done|].
  assert (Hsec : forall bs, bs ∈ omap section_of l -> bs_ok bs /\ bs_free bs = bs_total bs /\ (forall b, bit_at (bs_bitmap bs) b = false)).
  { intros bs (r & Hin & Es)%list_elem_of_omap. rewrite Forall_forall in Hr, Hh. destruct (section_of_ok r bs (Hr r Hin) (Hh r Hin) Es) as (? & ? & _ & ?). done. }
  assert (Hfr : forall k, (forall bs, bs ∈ k -> bs_free bs = bs_total bs) -> sum_free k = sum_total k /\ foldr Z.add 0 (map bs_total k) = sum_total k).
  { intros k Hk. induction k as [|bs k IH]; [done|]. destruct IH as [I1 I2]; [intros x Hx; apply Hk; by right|]. unfold sum_free, sum_total in *. cbn.
    rewrite (Hk bs (list_elem_of_here bs k)). lia. }
  assert (Hperm : forall k k', k ≡ₚ k' -> sum_total k = sum_total k') by (unfold sum_total; induction 1; cbn; lia).
  assert (Hin : forall bs, bs ∈ rev (omap section_of l) -> bs ∈ omap section_of l) by (intros bs; by rewrite <- Permutation_rev).
  split; [split; cbn [bs_list free_blocks]|split].
  - apply Forall_forall. intros bs Hb. by apply Hsec, Hin.
  - apply owners_apart. intros b. rewrite <- (owners_perm _ _ b (Permutation_rev _)). by apply owners_regions.
  - rewrite <- (Hperm _ _ (Permutation_rev _)). split; [|done]. destruct (Hfr (omap section_of l)) as [_ ->]; [intros bs Hb; by apply Hsec|].
    destruct (Hfr (rev (omap section_of l))) as [-> _]; [intros bs Hb; by apply Hsec, Hin|]. rewrite <- (Hperm _ _ (Permutation_rev _)). apply wrap_small. split; [|done].
    clear - Hsec. assert (Hs : Forall bs_ok (omap section_of l)) by (apply Forall_forall; intros bs Hb; by apply Hsec). apply sum_free_bound in Hs. lia.
  - intros b. apply not_true_iff_false. unfold busy. cbn [bs_list]. intros (bs & Hb%list_elem_of_In & Hx)%existsb_exists. bool_hyps.
    destruct (Hsec bs (Hin bs Hb)) as (_ & _ & Hz). by rewrite Hz in *.
  - intros b (bs & Hb%list_elem_of_In & Hx)%existsb_exists. apply Hin in Hb. apply list_elem_of_omap in Hb as (r & Hr' & Es). rewrite Forall_forall in Hr, Hh.
    exists r. split; [done|]. by apply (section_of_ok r bs (Hr r Hr') (Hh r Hr') Es).
Qed.

(** ** Trimming *)

(** The area reaches from one page boundary to another. *)
Definition holds_page (va : vmm_area) : Prop := PAGE_BALIGN (va_start va) <= PAGE_ALIGN (va_end va).

Lemma trim_area_ok va va' : area_ok va -> holds_page va -> trim_area va = Some va' ->
  area_ok va' /\ va_id va' = va_id va /\ va_start va <= va_start va' /\ va_end va' <= va_end va /\ va_start va' mod 4096 = 0 /\ va_end va' mod 4096 = 0.
Proof.
  intros (V1 & V2 & V3) Hle. unfold trim_area. fold (PAGE_BALIGN (va_start va)) (PAGE_ALIGN (va_end va)). unfold holds_page in Hle.
  destruct (PAGE_BALIGN_spec (va_start va) ltac:(lia)) as [B1 B2]. destruct (PAGE_ALIGN_spec (va_end va) ltac:(lia)) as (A1 & A2 & A3).
  rewrite VMA_SIZE_ok by done. set (base := PAGE_BALIGN _) in *. set (end_ := PAGE_ALIGN _) in *. rewrite wrap_small by lia.
  destruct (Z.ltb_spec (end_ - base) PAGE_SIZE); [done|]. destruct (Z.eqb_spec (end_ - base) (va_end va - va_start va)).
  - intros [= <-]. assert (va_start va = base /\ va_end va = end_) as [-> ->] by lia. split; [done|]. split_and!; done || lia.
  - intros [= <-]. unfold PAGE_SIZE in *. split; [split; cbn; [lia|split; [lia|done]]|]. cbn. split_and!; done || lia.
Qed.

Lemma trim_list l : Forall area_ok l -> Forall holds_page l ->
  Forall area_ok (omap trim_area l) /\ map va_id (omap trim_area l) ⊆+ map va_id l /\ (forall x, cover (omap trim_area l) x <= cover l x) /\
  (forall va, va ∈ omap trim_area l -> va_start va mod 4096 = 0 /\ va_end va mod 4096 = 0).
Proof.
  induction 1 as [|a l Ha Hl IH]; intros Hp; [split_and!; try done; intros va Hx; inversion Hx|]. apply Forall_cons in Hp as [Hpa Hpl]. destruct (IH Hpl) as (I1 & I2 & I3 & I4).
  cbn [omap list_omap]. destruct (trim_area a) as [a'|] eqn:Ea.
  - destruct (trim_area_ok a a' Ha Hpa Ea) as (T1 & T2 & T3 & T4 & T5). split; [by constructor|]. split; [cbn; rewrite T2; by apply submseteq_skip|]. split.
    + intros x. rewrite !cover_cons. specialize (I3 x). unfold inside. case_bools; cbn; lia.
    + intros va [->|Hv]%elem_of_cons; [done|by apply I4].
  - split; [done|]. split; [cbn; by apply submseteq_cons|]. split; [|done]. intros x. rewrite cover_cons. specialize (I3 x). destruct (inside a x); cbn; lia.
Qed.

Lemma trim_free_ok mm : mm_ok mm -> Forall holds_page (vmm_area_free mm) ->
  mm_ok (trim_free mm) /\ vmm_area_used (trim_free mm) = vmm_area_used mm /\ (forall x, cover (vmm_area_free (trim_free mm)) x <= cover (vmm_area_free mm) x) /\
  (forall va, va ∈ vmm_area_free (trim_free mm) -> va_start va mod 4096 = 0 /\ va_end va mod 4096 = 0).
Proof.
  intros [H1 H2 H3] Hp. unfold areas in *. apply Forall_app in H1 as [Hf Hu]. destruct (trim_list _ Hf Hp) as (T1 & T2 & T3 & T4).
  split; [|done]. split; unfold areas; cbn [trim_free vmm_area_free vmm_area_used].
  - by apply Forall_app.
  - intros x. specialize (H2 x). specialize (T3 x). rewrite cover_app in *. lia.
  - rewrite map_app in *. eapply NoDup_part; [|exact H3]. by apply submseteq_app.
Qed.

(** ** Theorems *)

(** The operations on the areas of one virtual machine. *)
Inductive mm_reach (top : Z) : mm_struct -> Prop :=
| mr_init (bit64 : bool) (mem : Z) : mem <> 0 -> top = (if bit64 then 2 ^ 40 else 2 ^ 32) -> mm_reach top (vmm_area_init bit64 mem)
| mr_alloc mm size mask flags mem r mm' : mm_reach top mm -> 0 <= size < 2 ^ 61 -> mem_fresh mm mem ->
    alloc_free_vmm_area mm size mask flags mem = (r, mm') -> mm_reach top mm'
| mr_request mm base pbase size flags ml mr r mm' : mm_reach top mm -> 0 <= base -> 0 <= size -> base + size < 2 ^ 64 ->
    fresh mm ml -> fresh mm mr -> (ml = mr -> ml = 0) -> request_vmm_area mm base pbase size flags ml mr = (r, mm') -> mm_reach top mm'
| mr_release mm st va r mm' st' : mm_reach top mm -> va ∈ vmm_area_used mm -> release_vmm_area mm st va = Ret (r, mm', st') -> mm_reach top mm'.

Definition in_space (top x : Z) : Z := Z.b2z ((0 <=? x) && (x <? top)).

Lemma alloc_free_ok mm size mask flags mem : mm_ok mm -> 0 <= size < 2 ^ 61 -> mem_fresh mm mem ->
  let k := if mask =? BLOCK_MASK then 21 else 12 in
  match alloc_free_vmm_area mm size mask flags mem with
  | (Some va, mm') => exists vma b, vma ∈ vmm_area_free mm /\ fits vma k (BALIGN size PAGE_SIZE) b /\ va = taken_from vma b (b + BALIGN size PAGE_SIZE) flags /\ took mm mm' va
  | (None, mm') => mm' = mm /\ (mem_enough mem -> forall vma b, vma ∈ vmm_area_free mm -> ~ fits vma k (BALIGN size PAGE_SIZE) b)
  end.
Proof.
  intros Hok Hs Hm k. unfold alloc_free_vmm_area. fold (PAGE_BALIGN size). destruct (PAGE_BALIGN_spec size ltac:(lia)) as [_ Hb].
  replace (if mask =? BLOCK_MASK then BLOCK_MASK else PAGE_MASK) with (2 ^ k - 1) by (subst k; by destruct (mask =? BLOCK_MASK)).
  apply alloc_free_loop_ok; try done; [subst k; destruct (mask =? BLOCK_MASK); lia|lia].
Qed.

Lemma cover_map (f : vmm_area -> vmm_area) l x : (forall a, va_start (f a) = va_start a /\ va_end (f a) = va_end a) -> cover (map f l) x = cover l x.
Proof. intros Hf. induction l as [|a l IH]; [done|]. cbn [map]. rewrite !cover_cons, IH. unfold inside. by destruct (Hf a) as [-> ->]. Qed.

Lemma upd_used_ok mm id f : mm_ok mm -> (forall a, va_start (f a) = va_start a /\ va_end (f a) = va_end a /\ va_id (f a) = va_id a) ->
  mm_ok (upd_used mm id f) /\ forall x, cover (areas (upd_used mm id f)) x = cover (areas mm) x.
Proof.
  intros [H1 H2 H3] Hf. set (g := fun a : vmm_area => if va_id a =? id then f a else a).
  assert (Hg : forall a, va_start (g a) = va_start a /\ va_end (g a) = va_end a /\ va_id (g a) = va_id a) by (intros a; subst g; cbn; destruct (_ =? _); [apply Hf|done]).
  assert (C : forall x, cover (areas (upd_used mm id f)) x = cover (areas mm) x).
  { intros x. unfold areas. cbn [upd_used vmm_area_free vmm_area_used]. rewrite !cover_app. f_equal. apply (cover_map g). intros a. by destruct (Hg a) as (? & ? & _). }
  split; [|done]. split; [|intros x; rewrite C; apply H2|].
  - unfold areas in *. cbn. rewrite Forall_app in *. split; [tauto|]. apply Forall_map. eapply Forall_impl; [apply H1|]. intros a Ha. unfold area_ok. fold (g a).
    destruct (Hg a) as (-> & -> & ->). done.
  - unfold areas in *. cbn. rewrite map_app in *. fold g.
    assert (E : map va_id (map g (vmm_area_used mm)) = map va_id (vmm_area_used mm)) by (rewrite map_map; apply map_ext; intros a; apply (Hg a)). by rewrite E.
Qed.

Lemma request_ok mm base pbase size flags ml mr r mm' : mm_ok mm -> 0 <= base -> 0 <= size -> base + size < 2 ^ 64 ->
  fresh mm ml -> fresh mm mr -> (ml = mr -> ml = 0) -> request_vmm_area mm base pbase size flags ml mr = (r, mm') ->
  mm_ok mm' /\ forall x, cover (areas mm') x = cover (areas mm) x.
Proof.
  intros Hok Hb Hs He Hl Hr Hne. unfold request_vmm_area. pose proof (split_vmm_area_ok mm base size flags ml mr Hok Hb Hs He Hl Hr Hne) as S.
  destruct (split_vmm_area _ _ _ _ _ _) as [[va|] mm1]; intros [= <- <-]; [|by subst mm1]. destruct S as (_ & _ & _ & T).
  destruct (upd_used_ok mm1 (va_id va) (set_pstart pbase) (tk_ok _ _ _ T)) as [U1 U2]; [done|]. split; [done|]. intros x. rewrite U2. apply T.
Qed.

(** Giving memory back leaves the name and the range of the area. *)
Lemma release_memory_shape st va r va' st' : release_vmm_area_memory st va = Ret (r, va', st') -> va_id va' = va_id va /\ va_start va' = va_start va /\ va_end va' = va_end va.
Proof.
  unfold release_vmm_area_memory. intros E. destruct (negb _); [by simplify_eq|]. destruct (_ =? VM_MAP_PT); [by simplify_eq|]. destruct (_ =? VM_MAP_BK).
  - apply obind_Ret_inv in E as (st1 & _ & E). by simplify_eq.
  - destruct (_ =? BAD_ADDRESS); by simplify_eq.
Qed.

Lemma release_area_ok mm st va r mm' st' : mm_ok mm -> va ∈ vmm_area_used mm -> release_vmm_area mm st va = Ret (r, mm', st') -> gave mm mm' va.
Proof.
  intros Hok Hin. unfold release_vmm_area. intros ([[r0 va'] st1] & E1 & E)%obind_Ret_inv. apply release_memory_shape in E1 as (H1 & H2 & H3). cbn [fst snd] in E.
  destruct (add_free_ok mm va va' Hok Hin H1 H2 H3) as (mm1 & E2 & G). rewrite E2 in E. cbn [obind] in E. by simplify_eq.
Qed.

Lemma mm_reach_ok top mm : mm_reach top mm -> mm_ok mm /\ forall x, cover (areas mm) x = in_space top x.
Proof.
  induction 1 as [bit64 mem Hm ->|mm size mask flags mem r mm' _ [Hok C] Hs Hf E|mm base pbase size flags ml mr r mm' _ [Hok C] Hb Hs He Hl Hr Hne E|mm st va r mm' st' _ [Hok C] Hin E].
  - unfold vmm_area_init, __alloc_vmm_area_entry. destruct (Z.eqb_spec mem 0); [done|]. assert (E : u64 (0 + (if bit64 then Z.shiftl 1 40 else 0x100000000)) = if bit64 then 2 ^ 40 else 2 ^ 32) by (by destruct bit64).
    rewrite E. set (top := if bit64 then _ else _). assert (Ht : 0 <= top <= 2 ^ 40) by (subst top; destruct bit64; lia).
    assert (C : forall x, cover (areas (mk_mm [mk_va mem 0 top BAD_ADDRESS 0 0 []] [])) x = in_space top x) by (intros x; unfold cover, areas, inside, in_space; cbn; lia).
    split; [|exact C]. split; [|intros x; rewrite C; unfold in_space; destruct (_ && _); cbn; lia|apply NoDup_singleton]. apply Forall_singleton. split; cbn; [lia|]. split; [lia|done].
  - pose proof (alloc_free_ok mm size mask flags mem Hok Hs Hf) as A. cbn zeta in A. rewrite E in A. destruct r as [va|]; [|by destruct A as [-> _]].
    destruct A as (vma & b & _ & _ & _ & T). split; [apply T|]. intros x. by rewrite (tk_cover _ _ _ T).
  - destruct (request_ok _ _ _ _ _ _ _ _ _ Hok Hb Hs He Hl Hr Hne E) as [H1 H2]. split; [done|]. intros x. by rewrite H2.
  - pose proof (release_area_ok mm st va r mm' st' Hok Hin E) as G. split; [apply G|]. intros x. by rewrite (gv_cover _ _ _ G).
Qed.

(** C21: Whatever areas are allocated, requested at fixed addresses and released, with sizes below 2^61
    and requests that do not wrap around 2^64 ([split_accepts_wrapped_range] shows one that does), each
    address of a virtual machine's space belongs to exactly one area, free or used, and no area reaches
    beyond the space: nothing is handed out twice and nothing is lost. *)
Theorem vmm_areas_partition top mm : mm_reach top mm ->
  (forall x, 0 <= x < top -> exists a, a ∈ areas mm /\ va_start a <= x < va_end a) /\
  (forall i j a b x, areas mm !! i = Some a -> areas mm !! j = Some b -> va_start a <= x < va_end a -> va_start b <= x < va_end b -> i = j) /\
  (forall a x, a ∈ areas mm -> va_start a <= x < va_end a -> 0 <= x < top).
Proof.
  intros [Hok C]%mm_reach_ok. split_and!.
  - intros x Hx. destruct (cover_inv (areas mm) x) as (a & Ha & Hi); [rewrite C; unfold in_space; case_bools; cbn; lia|]. exists a. split; [done|]. unfold inside in Hi. bool_hyps. lia.
  - intros i j a b x Hi Hj Ha Hb. apply (cover_unique (areas mm) x i j a b); try done; [apply Hok|unfold inside; case_bools; done|unfold inside; case_bools; done].
  - intros a x Ha Hx. assert (H1 : 1 <= cover (areas mm) x) by (apply (cover_elem _ a); [done|unfold inside; case_bools; done]). rewrite C in H1. unfold in_space in H1.
    destruct (Z.leb_spec 0 x), (Z.ltb_spec x top); cbn in H1; lia.
Qed.

(** [alloc_free_vmm_area] takes an aligned range of the requested size, rounded up to pages, out
    of one free area, which becomes the last of the used areas; all other addresses keep their state.
    It fails only if no free area can hold such a range or a record cannot be allocated, and then it
    changes nothing. *)
Theorem alloc_area_exact mm size mask flags mem : mm_ok mm -> 0 <= size < 2 ^ 61 -> mem_fresh mm mem ->
  let k := if mask =? BLOCK_MASK then 21 else 12 in
  let n := BALIGN size PAGE_SIZE in
  match alloc_free_vmm_area mm size mask flags mem with
  | (Some va, mm') =>
      va_start va mod 2 ^ k = 0 /\ va_end va = va_start va + n /\ va_flags va = flags /\ vmm_area_used mm' = vmm_area_used mm ++ [va] /\ mm_ok mm' /\
      (forall x, cover (vmm_area_free mm') x = cover (vmm_area_free mm) x - Z.b2z (inside va x))
  | (None, mm') => mm' = mm /\ (mem_enough mem -> forall vma b, vma ∈ vmm_area_free mm -> b mod 2 ^ k = 0 -> va_start vma <= b -> ~ b + n <= va_end vma)
  end.
Proof.
  intros Hok Hs Hm k n. pose proof (alloc_free_ok mm size mask flags mem Hok Hs Hm) as A. cbn zeta in A. fold k n in A.
  destruct (alloc_free_vmm_area _ _ _ _ _) as [[va|] mm'].
  - destruct A as (vma & b & _ & (Hb & _) & -> & T). by split_and!; [| | |apply T|apply T|apply T].
  - destruct A as [-> A]. split; [done|]. intros He vma b Hv H1 H2 H3. by apply (A He vma b Hv).
Qed.

(** Blocks are handed out one owner at a time: the blocks that [alloc_blocks] takes were free, are
    all different and lie in a section, no other block changes its state, and giving them back
    restores the state of every block (memory below 4 GB).  It gets what it asks for when that many
    blocks are free and their records can be allocated. *)
Theorem blocks_alloc_free n st mem ret new st' : vmm_ok st -> low st -> alloc_blocks n st [] mem 0 = Ret (ret, new, st') ->
  NoDup new /\ (forall b, b ∈ new -> busy st b = false /\ has_in (bs_list st) b = true) /\ (forall b, busy st' b = busy st b || bool_decide (b ∈ new)) /\
  (ret = 0 -> length new = n) /\ ((forall i, mem i = true) -> Z.of_nat n <= free_blocks st -> ret = 0) /\ exists st2, release_blocks new st' = Ret st2 /\ forall b, busy st2 b = busy st b.
Proof.
  intros Hok Hlow E. destruct (alloc_blocks_ok n st [] mem 0 Hok Hlow) as (ret' & new' & st1 & E1 & T & Hret). rewrite E, app_nil_r in E1. simplify_eq.
  split; [apply T|]. split; [apply T|]. split; [apply T|]. split; [intros ->; by destruct Hret as [[_ ?]|[? _]]|]. split; [intros Hm Hn; destruct Hret as [[? _]|[_ Hno]]; [done|by destruct Hno]|].
  by apply (release_taken st).
Qed.

(** ** Behaviour that is not intended *)

(** An area beside a free one is not merged with it when a larger free area comes first. *)
Lemma release_misses_neighbour :
  let big := mk_va 1 0x10000 0x20000 0 0 0 [] in
  let next := mk_va 2 0x3000 0x4000 0 0 0 [] in
  let va := mk_va 3 0x2000 0x3000 0 0 0 [] in
  __add_free_vmm_area (mk_mm [big; next] []) va = Ret (mk_mm [va; big; next] []).
Proof. reflexivity. Qed.

(** The end of the range wraps around and the check accepts it. *)
Lemma split_accepts_wrapped_range :
  let free := mk_va 1 0 (2 ^ 40) BAD_ADDRESS 0 0 [] in
  option_map (fun va => (va_start va, va_end va)) (fst (split_vmm_area (mk_mm [free] []) (2 ^ 64 - 0x1000) 0x2000 0x4000 2 3)) = Some (2 ^ 64 - 0x1000, 0x1000).
Proof. reflexivity. Qed.

(** An area that was used before and gets no memory of its own gives page 0 back. *)
Lemma recycled_area_frees_page_zero st : forall free,
  __add_free_vmm_area (mk_mm [] []) (mk_va 1 0 0x1000 BAD_ADDRESS 0 0 []) = Ret (mk_mm free []) ->
  exists va mm, split_vmm_area (mk_mm free []) 0 0x1000 0x4000 2 3 = (Some va, mm) /\ release_vmm_area_memory st va = Ret (Some (FreePages 0), set_pstart BAD_ADDRESS va, st).
Proof. intros free E. apply Ret_inj in E. injection E as <-. by eexists _, _. Qed.

(** A free area inside of one page becomes one that ends before it starts. *)
Lemma trim_inverts_small_area : trim_area (mk_va 1 0x1100 0x1200 0 0 0 []) = Some (mk_va 1 0x2000 0x1000 0 0 0 []).
Proof. reflexivity. Qed.

(** Giving back a block above 4 GB frees the block with the same low address bits, which belongs to
    somebody else, and leaves the block itself in use. *)
Lemma high_block_frees_another :
  let l := [mk_bs 0 0x8000000 0x8000000 63 64 1 [1]; mk_bs 0x100000000 0x8000000 0x108000000 63 64 1 [1]] in
  exists st', vmm_free_memblock (mk_vmm l 126) 2048 = Ret (0, st') /\ busy st' 0 = false /\ busy st' 2048 = true.
Proof. intros l. eexists. split; [vm_compute; reflexivity|]. split; vm_compute; reflexivity. Qed.

(** ** Examples *)

Definition demo_mm : mm_struct := mk_mm [mk_va 1 0 (2 ^ 40) BAD_ADDRESS 0 0 []] [].
Definition demo_vmm : vmm := mk_vmm [mk_bs 0x40000000 0x8000000 0x48000000 64 64 0 [0]] 64.

Lemma demo_mm_reach : mm_reach (2 ^ 40) demo_mm.
Proof. exact (mr_init (2 ^ 40) true 1 ltac:(done) eq_refl). Qed.

Lemma demo_mem_fresh : mem_fresh demo_mm (fun _ => (2, 3)).
Proof. intros j. split; [right|split; [right|done]]; cbn; by intros ?%list_elem_of_singleton. Qed.

(** One area is allocated, one is requested further up, and the first one is released. *)
Definition demo_mm1 : mm_struct := snd (alloc_free_vmm_area demo_mm 0x1234 BLOCK_MASK 2 (fun _ => (2, 3))).
Definition demo_mm2 : mm_struct := snd (request_vmm_area demo_mm1 0x80000000 0x9000000 0x200000 0x4000 4 5).
Definition demo_first : vmm_area := mk_va 1 0 0x2000 BAD_ADDRESS 2 0 [].
Definition demo_mm3 : mm_struct := match release_vmm_area demo_mm2 demo_vmm demo_first with Ret (_, m, _) => m | _ => demo_mm2 end.

Lemma demo_mm3_reach : mm_reach (2 ^ 40) demo_mm3.
Proof.
  assert (R1 : mm_reach (2 ^ 40) demo_mm1).
  { destruct (alloc_free_vmm_area demo_mm 0x1234 BLOCK_MASK 2 (fun _ => (2, 3))) as [r m] eqn:E. unfold demo_mm1. rewrite E.
    eapply mr_alloc; [exact demo_mm_reach| |exact demo_mem_fresh|exact E]. lia. }
  assert (R2 : mm_reach (2 ^ 40) demo_mm2).
  { destruct (request_vmm_area demo_mm1 0x80000000 0x9000000 0x200000 0x4000 4 5) as [r m] eqn:E. unfold demo_mm2. rewrite E.
    eapply (mr_request (2 ^ 40) demo_mm1 0x80000000 0x9000000 0x200000 0x4000 4 5 r m R1); try lia; try exact E; right; by vm_compute; intros Hin; repeat (apply elem_of_cons in Hin as [?|Hin]; [done|]); apply not_elem_of_nil in Hin. }
  destruct (release_vmm_area demo_mm2 demo_vmm demo_first) as [[[r m] st']| | |] eqn:E; [|by vm_compute in E..].
  unfold demo_mm3. rewrite E. eapply mr_release; [exact R2| |exact E]. vm_compute. by left.
Qed.

Lemma vmm_areas_partition_witness : length (areas demo_mm3) = 4%nat /\ exists a, a ∈ areas demo_mm3 /\ va_start a <= 0x80001000 < va_end a.
Proof. split; [vm_compute; reflexivity|]. destruct (vmm_areas_partition (2 ^ 40) demo_mm3 demo_mm3_reach) as (H & _ & _). apply H. lia. Defined.

Lemma alloc_area_exact_witness : exists mm', alloc_free_vmm_area demo_mm 0x1234 BLOCK_MASK 2 (fun _ => (2, 3)) = (Some (mk_va 1 0 0x2000 BAD_ADDRESS 2 0 []), mm') /\ mm_ok mm'.
Proof.
  destruct (mm_reach_ok _ _ demo_mm_reach) as [Hok _].
  pose proof (alloc_area_exact demo_mm 0x1234 BLOCK_MASK 2 (fun _ => (2, 3)) Hok ltac:(lia) demo_mem_fresh) as H. cbn zeta in H.
  destruct (alloc_free_vmm_area _ _ _ _ _) as [r mm'] eqn:E. exists mm'. assert (Er : r = Some (mk_va 1 0 0x2000 BAD_ADDRESS 2 0 [])) by (change r with (fst (r, mm')); rewrite <- E; vm_compute; reflexivity).
  subst r. split; [reflexivity|]. exact (proj1 (proj2 (proj2 (proj2 (proj2 H))))).
Defined.

Lemma demo_vmm_ok : vmm_ok demo_vmm /\ low demo_vmm.
Proof.
  split; [split; cbn; [apply Forall_singleton|split; [done|done]|done]|].
  - split.
    + split; [done|reflexivity].
    + split; [reflexivity|done].
    + split; [done|cbn; lia].
    + split; [apply Forall_singleton; unfold is_word; lia|cbn; lia].
    + done.
    + reflexivity.
  - intros b. unfold has_in, has_block, first_block. cbn. intros H. change (0x40000000 / MEM_BLOCK_SIZE) with 512 in H. apply orb_true_iff in H as [H|?]; [|done]. bool_hyps. lia.
Qed.

Lemma blocks_alloc_free_witness : exists st', alloc_blocks 2 demo_vmm [] (fun _ => true) 0 = Ret (0, [513; 512], st') /\ exists st2, release_blocks [513; 512] st' = Ret st2.
Proof.
  destruct demo_vmm_ok as [Hok Hlow]. destruct (alloc_blocks 2 demo_vmm [] (fun _ => true) 0) as [[[ret new] st']| | |] eqn:E; [|by vm_compute in E..].
  destruct (blocks_alloc_free 2 demo_vmm (fun _ => true) ret new st' Hok Hlow E) as (_ & _ & _ & _ & _ & st2 & E2 & _). vm_compute in E. injection E as <- <- <-.
  eexists. split; [reflexivity|]. exists st2. exact E2.
Defined.
