(* ===== verification/Shmem.v ===== *)
(** * Shared memory between virtual machines

    [virt/shmem.c]: runs of pages that the hypervisor shares with guests ([vmbox], virtual consoles,
    virtio queues).  They are cut from blocks of 2 MB that are taken from the blocks for guests
    ([Vmm]) and never given back; each block has a bitmap of its 512 pages.

    [pool] has the table [shmem_blocks], of which the first [sbid] entries are used, and the list
    behind [shmem_head].  The conversions between page numbers and addresses, [pfn2phy] and
    [phy2pfn], are declared nowhere in the sources; [PageNumbers] is what this code relies on.  The
    results of [malloc] and [zalloc] and the status of [create_host_mapping] are arguments.  Fields of
    a record that has just been freed read as they were before. *)

From S2P Require Import Prelude Types Bits Bitmap MemRegion Vmm.

Class PageNumbers := {
  pfn2phy : Z -> Z;
  phy2pfn : Z -> Z;
  pfn2phy_shift : forall pfn, 0 <= pfn < 2 ^ 32 -> pfn2phy pfn = 4096 * pfn;
  phy2pfn_shift : forall phy, 0 <= phy < 2 ^ 44 -> phy2pfn phy = phy / 4096;
}.

Definition PAGES_IN_BLOCK : Z := Z.shiftr MEM_BLOCK_SIZE 12.
Definition MAX_SHMEM_ID : Z := 32.
Definition BFN2PHY (bfn : Z) : Z := u64 (Z.shiftl bfn MEM_BLOCK_SHIFT).

Record shmem_block := mk_sb { sb_mb : Z; sb_phy_base : Z; sb_id : Z; sb_free_pages : Z; sb_bitmap : list Z }.

Record shmem := mk_shmem { sh_pages : Z; sh_flags : Z; sh_id : Z; sh_pfn : Z }.

Record pool := mk_pool { shmem_blocks : list shmem_block; shmem_head : list shmem }.

Definition sbid (p : pool) : Z := Z.of_nat (length (shmem_blocks p)).

Definition put_block (sb : shmem_block) (p : pool) : pool := mk_pool (<[Z.to_nat (sb_id sb) := sb]> (shmem_blocks p)) (shmem_head p).

(** A block that was just taken is given back. *)
Lemma release_taken1 hv hv1 b : blocks_taken hv hv1 [b] -> exists r hv2, vmm_free_memblock hv1 b = Ret (r, hv2) /\ blocks_taken hv hv2 [].
Proof.
  intros T. destruct (free_memblock_ok hv1 b (bk_ok _ _ _ T) (bk_low _ _ _ T)) as (hv2 & E & Hok & Hlow & B); [by rewrite (bk_busy _ _ _ T), bool_decide_eq_true_2, orb_true_r by (by left)|].
  exists 0, hv2. split; [done|]. split; try done.
  - intros c. by rewrite (bt_has _ _ _ _ B), (bk_has _ _ _ T).
  - by apply NoDup_nil.
  - intros c Hc. inversion Hc.
  - intros c. unfold busy. rewrite (bt_busy _ _ _ _ B). fold (busy hv1 c). rewrite (bk_busy _ _ _ T). destruct (Z.eqb_spec c b) as [->|Hne].
    + rewrite (bool_decide_eq_false_2 (b ∈ [])), orb_false_r by apply not_elem_of_nil. symmetry. by apply (bk_new _ _ _ T b); left.
    + f_equal. apply bool_decide_ext. rewrite list_elem_of_singleton. split; [done|]. intros Hx. inversion Hx.
  - rewrite (block_set_free false hv1 hv2 b (bk_ok _ _ _ T) Hok B), (bk_free _ _ _ T). cbn. lia.
Qed.

Section shmem.
Context `{PageNumbers}.

(** ** Operations *)

Definition alloc_shmem_block (hv : vmm) (p : pool) (zmem bmem : bool) (create_host_mapping : Z -> Z) : outcome (option shmem_block * vmm * pool) :=
  if negb zmem then Ret (None, hv, p) else
  let* (mb, hv) := vmm_alloc_memblock hv bmem in
  match mb with
  | None => Ret (None, hv, p)
  | Some bfn =>
      let phy_base := BFN2PHY bfn in
      if negb (create_host_mapping (ptov phy_base) =? 0) then
        let* (_, hv) := vmm_free_memblock hv bfn in Ret (None, hv, p)
      else if MAX_SHMEM_ID <=? sbid p then Fault
      else
        let sb := mk_sb bfn phy_base (u16 (sbid p)) PAGES_IN_BLOCK (replicate 8 0) in
        Ret (Some sb, hv, mk_pool (shmem_blocks p ++ [sb]) (shmem_head p))
  end.

Definition __alloc_shmem (p : pool) (sb : shmem_block) (pages flags : Z) (mem : bool) : outcome (Z * pool) :=
  let* r := bitmap_find_next_zero_area_align (sb_bitmap sb) PAGES_IN_BLOCK 0 (u32 pages) 1 in
  let bits := s32 r in
  if PAGES_IN_BLOCK <=? bits then Ret (0, p) else
  if negb mem then Ret (0, p) else
  let addr := u64 (sb_phy_base sb + pfn2phy bits) in
  let sh := mk_shmem pages flags (sb_id sb) (u32 (phy2pfn addr)) in
  let* b := bitmap_set (sb_bitmap sb) (u32 bits) pages in
  Ret (ptov addr, put_block (mk_sb (sb_mb sb) (sb_phy_base sb) (sb_id sb) (sb_free_pages sb) b) (mk_pool (shmem_blocks p) (sh :: shmem_head p))).

(** The blocks from the [i]-th one on. *)
Fixpoint try_blocks (n i : nat) (p : pool) (pages : Z) (mem : nat -> bool) : outcome (Z * pool) :=
  match n with
  | O => Ret (0, p)
  | S n =>
      match shmem_blocks p !! i with
      | None => Fault
      | Some sb =>
          if pages <=? sb_free_pages sb then
            let* (addr, p) := __alloc_shmem p sb pages 0 (mem i) in
            if addr =? 0 then try_blocks n (S i) p pages mem else Ret (addr, p)
          else try_blocks n (S i) p pages mem
      end
  end.

Definition alloc_shmem (hv : vmm) (p : pool) (pages : Z) (zmem bmem : bool) (create_host_mapping : Z -> Z) (mem : nat -> bool) : outcome (Z * vmm * pool) :=
  if PAGES_IN_BLOCK <? pages then Ret (0, hv, p) else
  let* (addr, p) := try_blocks (length (shmem_blocks p)) 0 p pages mem in
  if negb (addr =? 0) then Ret (addr, hv, p) else
  if MAX_SHMEM_ID <=? sbid p then Ret (0, hv, p) else
  let* (r, hv, p) := alloc_shmem_block hv p zmem bmem create_host_mapping in
  match r with
  | None => Ret (0, hv, p)
  | Some sb => let* (addr, p) := __alloc_shmem p sb pages 0 (mem (Z.to_nat (sb_id sb))) in Ret (addr, hv, p)
  end.

Definition free_shmem_in_block (p : pool) (sh : shmem) : outcome pool :=
  if negb (sh_id sh <? MAX_SHMEM_ID) then Panic else
  match shmem_blocks p !! Z.to_nat (sh_id sh) with
  | None => Fault
  | Some sb =>
      let pfn := u32 (phy2pfn (u64 (pfn2phy (sh_pfn sh) - sb_phy_base sb))) in
      let* b := bitmap_clear (sb_bitmap sb) pfn (sh_pages sh) in
      Ret (put_block (mk_sb (sb_mb sb) (sb_phy_base sb) (sb_id sb) (u16 (sb_free_pages sb + sh_pages sh)) b) p)
  end.

(** [pre] has been passed, [l] is to come. *)
Fixpoint free_loop (p : pool) (pre l : list shmem) (pfn : Z) : outcome pool :=
  match l with
  | [] => Ret p
  | sh :: l =>
      if sh_pfn sh =? pfn then
        let* p := free_shmem_in_block p sh in Ret (mk_pool (shmem_blocks p) (pre ++ l))
      else free_loop p (pre ++ [sh]) l pfn
  end.

Definition free_shmem (p : pool) (addr : Z) : outcome pool :=
  if negb (IS_PAGE_ALIGN addr) then Panic
  else free_loop p [] (shmem_head p) (phy2pfn (vtop addr)).

(** ** The pool

    Pages are named by their number; [runs l f] is how many runs of [l] have page [f]. *)

Definition covers (sh : shmem) (f : Z) : bool := (sh_pfn sh <=? f) && (f <? sh_pfn sh + sh_pages sh).
Definition runs (l : list shmem) (f : Z) : Z := foldr (fun sh n => Z.b2z (covers sh f) + n) 0 l.
Definition pool_blocks (p : pool) : list Z := map sb_mb (shmem_blocks p).

Record sb_ok (i : nat) (sb : shmem_block) : Prop := {
  sk_id : sb_id sb = Z.of_nat i;
  sk_mb : 0 <= sb_mb sb < 2048;
  sk_base : sb_phy_base sb = sb_mb sb * MEM_BLOCK_SIZE;
  sk_len : length (sb_bitmap sb) = 8%nat;
  sk_bits : bitmap_ok (sb_bitmap sb);
}.

Definition run_in (sb : shmem_block) (sh : shmem) : Prop := 0 < sh_pages sh /\ 512 * sb_mb sb <= sh_pfn sh /\ sh_pfn sh + sh_pages sh <= 512 * sb_mb sb + 512.

Record pool_ok (p : pool) : Prop := {
  po_max : (length (shmem_blocks p) <= 32)%nat;
  po_blocks : forall i sb, shmem_blocks p !! i = Some sb -> sb_ok i sb;
  po_once : NoDup (pool_blocks p);
  po_in : forall sh, sh ∈ shmem_head p -> 0 <= sh_id sh /\ exists sb, shmem_blocks p !! Z.to_nat (sh_id sh) = Some sb /\ run_in sb sh;
  po_bits : forall i sb k, shmem_blocks p !! i = Some sb -> 0 <= k < 512 -> runs (shmem_head p) (512 * sb_mb sb + k) = Z.b2z (bit_at (sb_bitmap sb) k);
}.

Lemma runs_app l1 l2 f : runs (l1 ++ l2) f = runs l1 f + runs l2 f.
Proof. induction l1; cbn [app runs foldr]; [done|]. fold (runs (l1 ++ l2) f) (runs l1 f). lia. Qed.

Lemma runs_cons sh l f : runs (sh :: l) f = Z.b2z (covers sh f) + runs l f.
Proof. done. Qed.

Lemma runs_nonneg l f : 0 <= runs l f.
Proof. induction l as [|sh l IH]; [done|]. rewrite runs_cons. destruct (covers sh f); cbn; lia. Qed.

Lemma runs_elem l sh f : sh ∈ l -> covers sh f = true -> 1 <= runs l f.
Proof.
  intros Hin Hc. apply list_elem_of_split in Hin as (l1 & l2 & ->). rewrite runs_app, runs_cons, Hc. pose proof (runs_nonneg l1 f). pose proof (runs_nonneg l2 f). cbn. lia.
Qed.

Lemma runs_positive l f : 1 <= runs l f -> exists sh, sh ∈ l /\ covers sh f = true.
Proof.
  induction l as [|sh l IH]; [done|]. rewrite runs_cons. destruct (covers sh f) eqn:E; [exists sh; split; [left|done]|]. cbn. intros (sh' & Hin & Hc)%IH. exists sh'. split; [by right|done].
Qed.

Lemma covers_spec sh f : covers sh f = true <-> sh_pfn sh <= f < sh_pfn sh + sh_pages sh.
Proof. unfold covers. lia. Qed.

Lemma blocks_apart p i j a b : pool_ok p -> shmem_blocks p !! i = Some a -> shmem_blocks p !! j = Some b -> sb_mb a = sb_mb b -> i = j.
Proof. intros Hp Hi Hj E. apply (NoDup_lookup _ i j (sb_mb a) (po_once _ Hp)); unfold pool_blocks; rewrite list_lookup_fmap; [by rewrite Hi|by rewrite Hj, E]. Qed.

Lemma covers_foreign sb sh mb k : run_in sb sh -> mb <> sb_mb sb -> 0 <= k < 512 -> covers sh (512 * mb + k) = false.
Proof. intros (H1 & H2 & H3) Hne Hk. apply not_true_is_false. rewrite covers_spec. lia. Qed.

(** A run is added to or taken from one block. *)
Lemma change_run v p i sb sh b fp head' :
  pool_ok p -> shmem_blocks p !! i = Some sb -> run_in sb sh -> sh_id sh = Z.of_nat i ->
  updated v (sb_bitmap sb) b (sh_pfn sh - 512 * sb_mb sb) (sh_pfn sh - 512 * sb_mb sb + sh_pages sh) ->
  (forall k, covers sh (512 * sb_mb sb + k) = true -> bit_at (sb_bitmap sb) k = negb v) ->
  (forall f, runs head' f = runs (shmem_head p) f + (if v then 1 else - 1) * Z.b2z (covers sh f)) ->
  (forall s, s ∈ head' -> s = sh \/ s ∈ shmem_head p) ->
  let sb' := mk_sb (sb_mb sb) (sb_phy_base sb) (sb_id sb) fp b in
  let p' := mk_pool (<[i := sb']> (shmem_blocks p)) head' in
  pool_ok p' /\ pool_blocks p' = pool_blocks p.
Proof.
  intros Hp Hi Hr Hid (U1 & U2 & U3) Hbit Hruns Hsub sb' p'. pose proof (po_blocks _ Hp i sb Hi) as Hsb. pose proof (lookup_lt_Some _ _ _ Hi) as Hlt.
  assert (Hget : forall j c, <[i := sb']> (shmem_blocks p) !! j = Some c -> exists c0, shmem_blocks p !! j = Some c0 /\ sb_mb c = sb_mb c0 /\ (j = i /\ c = sb' \/ j <> i /\ c = c0)).
  { intros j c [(<- & <- & _)|[Hne Hj]]%list_lookup_insert_Some; [exists sb; auto|exists c; auto]. }
  assert (Hset : forall j c0, shmem_blocks p !! j = Some c0 -> exists c, <[i := sb']> (shmem_blocks p) !! j = Some c /\ sb_mb c = sb_mb c0).
  { intros j c0 Hj. destruct (decide (j = i)) as [->|]; [exists sb'; rewrite list_lookup_insert_eq by done|exists c0; rewrite list_lookup_insert_ne by done; done]. split; [done|]. by simplify_eq. }
  assert (Hmbs : pool_blocks p' = pool_blocks p).
  { unfold pool_blocks, p'. cbn [shmem_blocks]. rewrite list_fmap_insert. apply list_insert_id. rewrite list_lookup_fmap, Hi. done. }
  split; [|done]. split; cbn [p' shmem_blocks shmem_head].
  - rewrite length_insert. apply Hp.
  - intros j c (c0 & Hj & _ & [[-> ->]|[_ ->]])%Hget; [|by apply (po_blocks _ Hp)]. destruct Hsb. split; cbn; try done. congruence.
  - change (NoDup (pool_blocks p')). rewrite Hmbs. apply Hp.
  - intros s [->|Hs]%Hsub.
    + split; [lia|]. rewrite Hid, Nat2Z.id. destruct (Hset i sb Hi) as (c & Hc & Em). exists c. split; [done|]. unfold run_in. by rewrite Em.
    + destruct (po_in _ Hp s Hs) as (H0 & c0 & Hc0 & Hin). split; [done|]. destruct (Hset _ c0 Hc0) as (c & Hc & Em). exists c. split; [done|]. unfold run_in. by rewrite Em.
  - intros j c k (c0 & Hj & Em & Hc)%Hget Hk. rewrite Hruns, Em, (po_bits _ Hp j c0 k Hj Hk). destruct Hc as [[-> ->]|[Hne ->]].
    + assert (c0 = sb) as -> by congruence. cbn [sb_bitmap sb']. rewrite U3 by lia. destruct (covers sh (512 * sb_mb sb + k)) eqn:Ec.
      * rewrite (Hbit k Ec). apply covers_spec in Ec. replace (_ && _) with true by lia. by destruct v.
      * replace (_ && _) with false by (unfold covers in Ec; lia). destruct v; cbn; lia.
    + rewrite (covers_foreign sb sh) by (done || (intros E; apply Hne; by eapply blocks_apart)). destruct v; cbn; lia.
Qed.

(** A run of [pages] pages at [addr] has been added. *)
Record took_run (p p' : pool) (addr pages : Z) : Prop := {
  tr_head : exists sh, shmem_head p' = sh :: shmem_head p /\ sh_pages sh = pages /\ addr = 4096 * sh_pfn sh;
  tr_fresh : forall f, addr / 4096 <= f < addr / 4096 + pages -> runs (shmem_head p) f = 0;
  tr_inside : exists b, b ∈ pool_blocks p' /\ b * MEM_BLOCK_SIZE <= addr /\ addr + 4096 * pages <= (b + 1) * MEM_BLOCK_SIZE;
}.

Definition has_room (sb : shmem_block) (pages : Z) : Prop := exists r, 0 <= r /\ r + pages <= 512 /\ zero_area (sb_bitmap sb) pages r.

Lemma alloc_in_block_ok p i sb pages mem : pool_ok p -> shmem_blocks p !! i = Some sb -> 0 < pages <= 512 ->
  exists addr p', __alloc_shmem p sb pages 0 mem = Ret (addr, p') /\ pool_ok p' /\ pool_blocks p' = pool_blocks p /\
    (p' = p /\ addr = 0 /\ (mem = true -> ~ has_room sb pages) \/ took_run p p' addr pages /\ 0 < pages).
Proof.
  intros Hp Hi Hpg. pose proof (po_blocks _ Hp i sb Hi) as [S1 S2 S3 S4 S5]. unfold __alloc_shmem, bitmap_find_next_zero_area_align. rewrite (wrap_small 32 pages) by lia. change PAGES_IN_BLOCK with 512.
  destruct (find_area_align_spec (sb_bitmap sb) 512 pages S5 ltac:(rewrite S4; lia) ltac:(lia) (S (S (Z.to_nat 512))) 0 1) as (r & E & Hr); [lia..|]. rewrite E. cbn [obind].
  apply find_area_align_bound in E; [|done|rewrite S4; lia|lia..]. assert (Hr0 : 0 <= r) by (destruct Hr as [Hr|Hr]; lia).
  replace (s32 r) with r by (unfold s32; rewrite wrap_small by lia; destruct (Z.ltb_spec r (2 ^ 31)); lia).
  destruct (Z.leb_spec 512 r) as [Hbig|Hsmall].
  { exists 0, p. split; [done|]. split; [done|]. split; [done|]. left. split; [done|]. split; [done|]. intros _ (r' & A1 & A2 & A3). destruct Hr as [Hr|[_ Hr]]; [lia|]. apply (Hr r'); try done. by rewrite Z.land_0_r. }
  destruct mem; cbn [negb]; [|exists 0, p; split; [done|]; split; [done|]; split; [done|]; by left].
  destruct Hr as [(_ & H2 & _ & H4 & _)|Hr]; [|lia]. rewrite S3, pfn2phy_shift, (wrap_small 32 r) by lia. unfold MEM_BLOCK_SIZE. rewrite wrap_small by lia.
  rewrite phy2pfn_shift by lia. replace ((sb_mb sb * 0x200000 + 4096 * r) / 4096) with (512 * sb_mb sb + r) by (Z.div_mod_to_equations; lia). rewrite wrap_small by lia.
  destruct (bitmap_set_spec (sb_bitmap sb) r pages S5) as (b & -> & U); [lia..|rewrite S4; lia|lia|]. cbn [obind]. unfold put_block. cbn [sb_id shmem_blocks shmem_head]. rewrite S1, Nat2Z.id.
  set (sh := mk_shmem _ _ _ _). assert (Hrun : run_in sb sh) by (unfold run_in; cbn; lia).
  destruct (change_run true p i sb sh b (sb_free_pages sb) (sh :: shmem_head p) Hp Hi Hrun) as [Hp' Hmb]; [cbn; lia| | |by intros f; rewrite runs_cons; cbn; lia|by intros s [->|?]%elem_of_cons; auto|].
  { cbn [sh sh_pfn sh_pages]. replace (512 * sb_mb sb + r - 512 * sb_mb sb) with r by lia. done. }
  { intros k Hk%covers_spec. cbn in Hk. apply H4. lia. }
  rewrite S1, S3 in Hp', Hmb. eexists _, _. split; [done|]. split; [exact Hp'|]. split; [exact Hmb|]. right. split; [|lia]. unfold ptov. split.
  - exists sh. split; [done|]. split; [done|]. cbn. lia.
  - intros f Hf. replace f with (512 * sb_mb sb + (f - 512 * sb_mb sb)) by lia. rewrite (po_bits _ Hp i) by (done || Z.div_mod_to_equations; lia). rewrite H4; [done|]. Z.div_mod_to_equations; lia.
  - exists (sb_mb sb). split; [|unfold MEM_BLOCK_SIZE; lia]. unfold MEM_BLOCK_SIZE in Hmb. rewrite Hmb. apply list_elem_of_fmap. exists sb. split; [done|]. by eapply list_elem_of_lookup_2.
Qed.

Lemma pool_sbid p p' : pool_blocks p' = pool_blocks p -> length (shmem_blocks p') = length (shmem_blocks p).
Proof. intros E. pose proof (f_equal length E) as El. unfold pool_blocks in El. by rewrite !length_map in El. Qed.

Lemma try_blocks_ok pages mem n : forall i p, pool_ok p -> (i + n = length (shmem_blocks p))%nat -> 0 < pages <= 512 ->
  exists addr p', try_blocks n i p pages mem = Ret (addr, p') /\ pool_ok p' /\ pool_blocks p' = pool_blocks p /\
    ((forall b, b ∈ pool_blocks p -> 0 < b) ->
     p' = p /\ addr = 0 /\ ((forall k, mem k = true) -> forall j sb, (i <= j)%nat -> shmem_blocks p !! j = Some sb -> pages <= sb_free_pages sb -> ~ has_room sb pages) \/
     addr <> 0 /\ took_run p p' addr pages).
Proof.
  induction n as [|n IH]; intros i p Hp Hn Hpg; cbn [try_blocks].
  { exists 0, p. split; [done|]. split; [done|]. split; [done|]. intros _. left. split; [done|]. split; [done|]. intros _ j sb Hj Hl%lookup_lt_Some. lia. }
  destruct (lookup_lt_is_Some_2 (shmem_blocks p) i ltac:(lia)) as (sb & Hi). rewrite Hi. destruct (Z.leb_spec pages (sb_free_pages sb)) as [Hle|Hgt].
  - destruct (alloc_in_block_ok p i sb pages (mem i) Hp Hi Hpg) as (addr & p1 & -> & Hp1 & Hm1 & Hc). cbn [obind]. destruct (Z.eqb_spec addr 0) as [->|Hne].
    + destruct (IH (S i) p1 Hp1 ltac:(rewrite (pool_sbid p p1) by done; lia) Hpg) as (addr & p' & -> & Hp' & Hm' & H'). exists addr, p'. split; [done|]. split; [done|]. split; [congruence|]. intros Hpos.
      destruct Hc as [(-> & _ & Hno)|[[_ _ (b & Hb & H1 & H2)] _]].
      * destruct (H' Hpos) as [(-> & -> & Hall)|?]; [left|by right]. split; [done|]. split; [done|]. intros Hmem j sb' Hj Hl Hf. destruct (decide (j = i)) as [->|]; [simplify_eq; by apply Hno|]. apply (Hall Hmem j); [lia|done|done].
      * exfalso. rewrite Hm1 in Hb. apply Hpos in Hb. unfold MEM_BLOCK_SIZE in *. lia.
    + exists addr, p1. split; [done|]. split; [done|]. split; [done|]. intros _. right. destruct Hc as [(_ & -> & _)|[? _]]; done.
  - destruct (IH (S i) p Hp ltac:(lia) Hpg) as (addr & p' & -> & Hp' & Hm' & H'). exists addr, p'. split; [done|]. split; [done|]. split; [done|]. intros Hpos.
    destruct (H' Hpos) as [(-> & -> & Hall)|?]; [left|by right]. split; [done|]. split; [done|]. intros Hmem j sb' Hj Hl Hf. destruct (decide (j = i)) as [->|]; [simplify_eq; lia|]. apply (Hall Hmem j); [lia|done|done].
Qed.

(** The blocks of the pool are in use. *)
Definition held (hv : vmm) (p : pool) : Prop := forall b, b ∈ pool_blocks p -> busy hv b = true.

Lemma new_block_ok hv p b : pool_ok p -> held hv p -> 0 <= b < 2048 -> busy hv b = false -> (length (shmem_blocks p) < 32)%nat ->
  let sb := mk_sb b (BFN2PHY b) (u16 (sbid p)) PAGES_IN_BLOCK (replicate 8 0) in
  let p' := mk_pool (shmem_blocks p ++ [sb]) (shmem_head p) in
  pool_ok p' /\ pool_blocks p' = pool_blocks p ++ [b] /\ shmem_blocks p' !! length (shmem_blocks p) = Some sb /\ has_room sb 512.
Proof.
  intros Hp Hh Hb Hbusy Hlen sb p'. assert (Hnew : b ∉ pool_blocks p) by (intros Hin; apply Hh in Hin; congruence).
  assert (Hmb : pool_blocks p' = pool_blocks p ++ [b]) by (unfold pool_blocks, p'; cbn [shmem_blocks]; by rewrite map_app).
  assert (Hsb : sb_ok (length (shmem_blocks p)) sb).
  { split; cbn; [unfold sbid; by rewrite wrap_small by lia|done| |done|split; [|done]; by repeat constructor].
    unfold BFN2PHY, MEM_BLOCK_SHIFT, MEM_BLOCK_SIZE. rewrite Z.shiftl_mul_pow2, wrap_small by lia. lia. }
  split; [|split; [done|split; [by apply list_lookup_middle|]]].
  - split; cbn [p' shmem_blocks shmem_head].
    + rewrite length_app. cbn. lia.
    + intros i c [Hi|[Hge Hi]]%lookup_app_Some; [by apply (po_blocks _ Hp)|]. apply list_lookup_singleton_Some in Hi as [Hi <-]. by replace i with (length (shmem_blocks p)) by lia.
    + change (NoDup (pool_blocks p')). rewrite Hmb. apply NoDup_app. split; [apply Hp|]. split; [by intros c Hc ->%list_elem_of_singleton|apply NoDup_singleton].
    + intros sh Hs. destruct (po_in _ Hp sh Hs) as (H0 & c & Hc & Hin). split; [done|]. exists c. split; [by apply lookup_app_l_Some|done].
    + intros i c k [Hi|[Hge Hi]]%lookup_app_Some Hk; [by apply (po_bits _ Hp i)|]. apply list_lookup_singleton_Some in Hi as [_ <-]. cbn [sb sb_bitmap sb_mb]. rewrite bit_at_zeros.
      destruct (Z.eq_dec (runs (shmem_head p) (512 * b + k)) 0) as [->|Hne]; [done|]. exfalso. pose proof (runs_nonneg (shmem_head p) (512 * b + k)).
      destruct (runs_positive (shmem_head p) (512 * b + k) ltac:(lia)) as (sh & Hs & Hc). destruct (po_in _ Hp sh Hs) as (_ & c & Hcl & Hin). rewrite (covers_foreign c) in Hc; [done|done| |done].
      intros ->. apply Hnew, list_elem_of_fmap. exists c. split; [done|]. by eapply list_elem_of_lookup_2.
  - exists 0. split; [lia|]. split; [lia|]. intros k _. apply bit_at_zeros.
Qed.

Lemma room_less sb m n : has_room sb m -> n <= m -> has_room sb n.
Proof. intros (r & H1 & H2 & H3) Hle. exists r. split; [done|]. split; [lia|]. intros k Hk. apply H3. lia. Qed.

Lemma alloc_block_ok hv p zmem bmem chm : vmm_ok hv -> low hv -> pool_ok p -> held hv p -> (length (shmem_blocks p) < 32)%nat ->
  exists r hv' p', alloc_shmem_block hv p zmem bmem chm = Ret (r, hv', p') /\ pool_ok p' /\ shmem_head p' = shmem_head p /\
    match r with
    | Some sb => exists b, blocks_taken hv hv' [b] /\ pool_blocks p' = pool_blocks p ++ [b] /\ shmem_blocks p' !! length (shmem_blocks p) = Some sb /\ has_room sb 512
    | None => p' = p /\ blocks_taken hv hv' [] /\ ~ (zmem = true /\ bmem = true /\ (forall a, chm a = 0) /\ 0 < free_blocks hv)
    end.
Proof.
  intros Hok Hlow Hp Hh Hlen. unfold alloc_shmem_block. destruct zmem; cbn [negb]; [|exists None, hv, p; split; [done|]; split; [done|]; split; [done|]; split; [done|]; split; [by apply taken_none|]; by intros [? _]].
  destruct (alloc_memblock_ok hv bmem Hok Hlow) as (r & hv1 & -> & Hr). cbn [obind]. destruct r as [b|].
  2:{ destruct Hr as [T Hz]. exists None, hv1, p. split; [done|]. split; [done|]. split; [done|]. split; [done|]. split; [done|]. intros (_ & Hb & _ & Hf). rewrite (Hz Hb) in Hf. lia. }
  cbv zeta. destruct (negb _) eqn:Em.
  - destruct (release_taken1 hv hv1 b Hr) as (? & hv2 & -> & T). cbn [obind]. exists None, hv2, p. split; [done|]. split; [done|]. split; [done|]. split; [done|]. split; [done|]. intros (_ & _ & Hc & _). by rewrite Hc in Em.
  - unfold MAX_SHMEM_ID, sbid. destruct (Z.leb_spec 32 (Z.of_nat (length (shmem_blocks p)))) as [?|_]; [lia|]. destruct (bk_new _ _ _ Hr b ltac:(by left)) as [Hbz Hbh].
    pose proof (has_nonneg _ _ (vo_sections _ Hok) Hbh). pose proof (Hlow b Hbh). destruct (new_block_ok hv p b Hp Hh ltac:(lia) Hbz Hlen) as (Hp' & Hmb & Hl & Hroom).
    eexists (Some _), hv1, _. split; [done|]. split; [exact Hp'|]. split; [done|]. exists b. split; [done|]. split; [exact Hmb|]. split; [exact Hl|exact Hroom].
Qed.

Lemma took_from p p1 p' addr pages : shmem_head p1 = shmem_head p -> took_run p1 p' addr pages -> took_run p p' addr pages.
Proof. intros E [H1 H2 H3]. rewrite E in *. by split. Qed.

(** Everything that [alloc_shmem] asks for is there. *)
Definition all_granted (zmem bmem : bool) (chm : Z -> Z) (mem : nat -> bool) : Prop := zmem = true /\ bmem = true /\ (forall a, chm a = 0) /\ forall k, mem k = true.

Lemma alloc_ok hv p pages zmem bmem chm mem : vmm_ok hv -> low hv -> pool_ok p -> held hv p -> 0 < pages <= 512 ->
  exists addr hv' p' new, alloc_shmem hv p pages zmem bmem chm mem = Ret (addr, hv', p') /\ pool_ok p' /\ blocks_taken hv hv' new /\ pool_blocks p' = pool_blocks p ++ new /\
    ((forall b, has_in (bs_list hv) b = true -> 0 < b) ->
     addr = 0 /\ shmem_head p' = shmem_head p /\
       (all_granted zmem bmem chm mem -> (sbid p = 32 \/ free_blocks hv <= 0) /\ forall sb, sb ∈ shmem_blocks p -> pages <= sb_free_pages sb -> ~ has_room sb pages) \/
     addr <> 0 /\ took_run p p' addr pages).
Proof.
  intros Hok Hlow Hp Hh Hpg. unfold alloc_shmem. change PAGES_IN_BLOCK with 512. destruct (Z.ltb_spec 512 pages); [lia|].
  destruct (try_blocks_ok pages mem (length (shmem_blocks p)) 0 p Hp eq_refl Hpg) as (addr & p1 & -> & Hp1 & Hm1 & H1). cbn [obind].
  assert (Hin : (forall b, has_in (bs_list hv) b = true -> 0 < b) -> forall b, b ∈ pool_blocks p -> 0 < b) by (intros Hpos b Hb; by apply Hpos, busy_has, Hh).
  assert (Hall : ((forall k, mem k = true) -> forall j sb, (0 <= j)%nat -> shmem_blocks p !! j = Some sb -> pages <= sb_free_pages sb -> ~ has_room sb pages) ->
    (forall k, mem k = true) -> forall sb, sb ∈ shmem_blocks p -> pages <= sb_free_pages sb -> ~ has_room sb pages).
  { intros Ha Hm sb (j & Hj)%list_elem_of_lookup. by apply (Ha Hm j sb (Nat.le_0_l j)). }
  destruct (Z.eqb_spec addr 0) as [->|Hne]; cbn [negb].
  2:{ exists addr, hv, p1, []. split; [done|]. split; [done|]. split; [by apply taken_none|]. split; [by rewrite app_nil_r|]. intros Hpos. right. destruct (H1 (Hin Hpos)) as [(_ & ? & _)|?]; done. }
  pose proof (pool_sbid p p1 Hm1) as El. pose proof (po_max _ Hp) as Hmax. unfold MAX_SHMEM_ID. assert (Esb : sbid p1 = sbid p) by (unfold sbid; congruence). rewrite Esb. destruct (Z.leb_spec 32 (sbid p)) as [Hfull|Hfew].
  { exists 0, hv, p1, []. split; [done|]. split; [done|]. split; [by apply taken_none|]. split; [by rewrite app_nil_r|]. intros Hpos. left. destruct (H1 (Hin Hpos)) as [(-> & _ & Hno)|[? _]]; [|done].
    split; [done|]. split; [done|]. intros (_ & _ & _ & Hmem). split; [left; unfold sbid in *; lia|]. by apply Hall. }
  assert (Hh1 : held hv p1) by (intros b; rewrite Hm1; apply Hh).
  destruct (alloc_block_ok hv p1 zmem bmem chm Hok Hlow Hp1 Hh1 ltac:(unfold sbid in *; lia)) as (r & hv' & p2 & -> & Hp2 & Ehd & Hr). cbn [obind]. destruct r as [sb|].
  - destruct Hr as (b & T & Hmb & Hl & Hroom). destruct (alloc_in_block_ok p2 _ sb pages (mem (Z.to_nat (sb_id sb))) Hp2 Hl Hpg) as (addr & p' & -> & Hp' & Hm' & Hc). cbn [obind].
    exists addr, hv', p', [b]. split; [done|]. split; [done|]. split; [done|]. split; [congruence|]. intros Hpos. destruct (H1 (Hin Hpos)) as [(-> & _ & Hno)|[? _]]; [|done].
    destruct Hc as [(-> & -> & Hn)|[Tr _]].
    + left. split; [done|]. split; [done|]. intros (_ & _ & _ & Hmem). destruct (Hn (Hmem _)). apply (room_less sb 512); [done|lia].
    + right. split; [|by apply (took_from p p2)]. destruct Tr as [_ _ (c & Hc & H2 & _)]. assert (0 < c) as Hcp; [|unfold MEM_BLOCK_SIZE in *; lia].
      rewrite Hm', Hmb in Hc. apply elem_of_app in Hc as [Hc|Hc%list_elem_of_singleton]; [by apply Hin|]. subst c. apply Hpos. by apply (bk_new _ _ _ T b); left.
  - destruct Hr as (-> & T & Hno2). exists 0, hv', p1, []. split; [done|]. split; [done|]. split; [done|]. split; [by rewrite app_nil_r|]. intros Hpos. left. destruct (H1 (Hin Hpos)) as [(-> & _ & Hno)|[? _]]; [|done].
    split; [done|]. split; [done|]. intros (Hz & Hb & Hc & Hmem). split; [right|by apply Hall]. destruct (Z.le_gt_cases (free_blocks hv) 0) as [?|?]; [done|]. destruct Hno2. auto.
Qed.

Lemma free_in_block_ok p l1 sh l2 : pool_ok p -> shmem_head p = l1 ++ sh :: l2 ->
  exists p1, free_shmem_in_block p sh = Ret p1 /\ let p' := mk_pool (shmem_blocks p1) (l1 ++ l2) in pool_ok p' /\ pool_blocks p' = pool_blocks p.
Proof.
  intros Hp Eh. assert (Hs : sh ∈ shmem_head p) by (rewrite Eh; apply elem_of_app; right; left). destruct (po_in _ Hp sh Hs) as (H0 & sb & Hl & Hrun). pose proof (po_blocks _ Hp _ _ Hl) as [S1 S2 S3 S4 S5].
  pose proof (lookup_lt_Some _ _ _ Hl) as Hlt. pose proof (po_max _ Hp). unfold free_shmem_in_block, MAX_SHMEM_ID. destruct (Z.ltb_spec (sh_id sh) 32) as [_|?]; [|lia]. cbn [negb]. rewrite Hl.
  destruct Hrun as (R1 & R2 & R3). rewrite S3, pfn2phy_shift by lia. unfold MEM_BLOCK_SIZE. rewrite (wrap_small 64), phy2pfn_shift by lia.
  replace ((4096 * sh_pfn sh - sb_mb sb * 0x200000) / 4096) with (sh_pfn sh - 512 * sb_mb sb) by (Z.div_mod_to_equations; lia). rewrite (wrap_small 32) by lia.
  destruct (bitmap_clear_spec (sb_bitmap sb) (sh_pfn sh - 512 * sb_mb sb) (sh_pages sh) S5) as (b & -> & U); [lia..|rewrite S4; lia|lia|]. cbn [obind]. eexists. split; [done|].
  unfold put_block. cbn [shmem_blocks shmem_head sb_id]. rewrite S1, Nat2Z.id. pose proof (change_run false p (Z.to_nat (sh_id sh)) sb sh b (u16 (sb_free_pages sb + sh_pages sh)) (l1 ++ l2) Hp Hl ltac:(done) ltac:(lia) U) as HC.
  rewrite S1, S3 in HC. apply HC.
  - intros k Hk. assert (Hk' : 0 <= k < 512) by (apply covers_spec in Hk; lia). pose proof (po_bits _ Hp _ sb k Hl Hk') as Hb. pose proof (runs_elem _ _ _ Hs Hk). destruct (bit_at (sb_bitmap sb) k); [done|]. cbn in Hb. lia.
  - intros f. rewrite Eh, !runs_app, runs_cons. lia.
  - intros s Hin. right. rewrite Eh. apply elem_of_app. apply elem_of_app in Hin as [?|?]; [by left|right; by right].
Qed.

(** Two runs with the same first page are the same. *)
Lemma runs_apart p : pool_ok p -> forall f, runs (shmem_head p) f <= 1.
Proof.
  intros Hp f. destruct (Z.le_gt_cases (runs (shmem_head p) f) 0); [lia|]. destruct (runs_positive (shmem_head p) f ltac:(lia)) as (sh & Hs & Hc). destruct (po_in _ Hp sh Hs) as (_ & sb & Hl & R1 & R2 & R3).
  apply covers_spec in Hc. pose proof (po_bits _ Hp _ sb (f - 512 * sb_mb sb) Hl ltac:(lia)) as Hb. replace (512 * sb_mb sb + (f - 512 * sb_mb sb)) with f in Hb by lia. rewrite Hb. destruct (bit_at _ _); cbn; lia.
Qed.

Lemma free_loop_ok p pfn : pool_ok p -> forall l pre, shmem_head p = pre ++ l ->
  exists p', free_loop p pre l pfn = Ret p' /\ pool_ok p' /\ pool_blocks p' = pool_blocks p /\
    ((exists l1 sh l2, l = l1 ++ sh :: l2 /\ sh_pfn sh = pfn /\ shmem_head p' = pre ++ l1 ++ l2) \/ p' = p /\ Forall (fun sh => sh_pfn sh <> pfn) l).
Proof.
  intros Hp l. induction l as [|sh l IH]; intros pre Eh; cbn [free_loop].
  { exists p. split; [done|]. split; [done|]. split; [done|]. by right. }
  destruct (Z.eqb_spec (sh_pfn sh) pfn) as [Ep|Hne].
  - destruct (free_in_block_ok p pre sh l Hp Eh) as (p1 & -> & Hp' & Hm). cbn [obind]. eexists. split; [done|]. split; [exact Hp'|]. split; [exact Hm|]. left. by exists [], sh, l.
  - destruct (IH (pre ++ [sh])) as (p' & -> & Hp' & Hm & H'); [by rewrite Eh, <- app_assoc|]. exists p'. split; [done|]. split; [done|]. split; [done|].
    destruct H' as [(l1 & s & l2 & -> & Es & Eh')|[-> Hf]]; [left; exists (sh :: l1), s, l2; split; [done|]; split; [done|]; by rewrite Eh', <- app_assoc|right; auto].
Qed.

Lemma free_ok p addr : pool_ok p -> addr mod 4096 = 0 -> 0 <= addr < 2 ^ 44 ->
  exists p', free_shmem p addr = Ret p' /\ pool_ok p' /\ pool_blocks p' = pool_blocks p /\
    ((exists l1 sh l2, shmem_head p = l1 ++ sh :: l2 /\ 4096 * sh_pfn sh = addr /\ shmem_head p' = l1 ++ l2) \/ p' = p /\ Forall (fun sh => 4096 * sh_pfn sh <> addr) (shmem_head p)).
Proof.
  intros Hp Ha Hr. unfold free_shmem. rewrite IS_PAGE_ALIGN_spec. rewrite (proj2 (Z.eqb_eq _ _) Ha). cbn [negb]. unfold vtop. rewrite phy2pfn_shift by done.
  destruct (free_loop_ok p (addr / 4096) Hp (shmem_head p) [] eq_refl) as (p' & -> & Hp' & Hm & H'). exists p'. split; [done|]. split; [done|]. split; [done|].
  destruct H' as [(l1 & sh & l2 & E & Es & E')|[-> Hf]]; [left|right].
  - exists l1, sh, l2. split; [done|]. split; [|done]. rewrite Es. Z.div_mod_to_equations; lia.
  - split; [done|]. eapply Forall_impl; [done|]. intros sh Hne. cbn in *. contradict Hne. subst addr. Z.div_mod_to_equations; lia.
Qed.

(** ** Correctness *)

Inductive pool_step : vmm * pool -> vmm * pool -> Prop :=
| ps_alloc hv p pages zmem bmem chm mem addr hv' p' : 0 < pages -> alloc_shmem hv p pages zmem bmem chm mem = Ret (addr, hv', p') -> pool_step (hv, p) (hv', p')
| ps_free hv p addr p' : free_shmem p addr = Ret p' -> pool_step (hv, p) (hv, p').

(** What the pool has taken of [hv0]. *)
Record pool_inv (hv0 hv : vmm) (p : pool) : Prop := {
  pi_pool : pool_ok p;
  pi_taken : exists l, blocks_taken hv0 hv l /\ l ≡ₚ pool_blocks p;
}.

Lemma inv_held hv0 hv p : pool_inv hv0 hv p -> held hv p.
Proof. intros [_ (l & T & P)] b Hb. rewrite (bk_busy _ _ _ T), bool_decide_eq_true_2, orb_true_r; [done|]. by rewrite P. Qed.

Lemma free_returned p addr p' : pool_ok p -> free_shmem p addr = Ret p' -> pool_ok p' /\ pool_blocks p' = pool_blocks p.
Proof.
  intros Hp. unfold free_shmem. destruct (negb _); [done|]. destruct (free_loop_ok p (phy2pfn (vtop addr)) Hp (shmem_head p) [] eq_refl) as (p1 & -> & H1 & H2 & _). by intros [= <-].
Qed.

Lemma alloc_returned hv p pages zmem bmem chm mem addr hv' p' : vmm_ok hv -> low hv -> pool_ok p -> held hv p -> 0 < pages ->
  alloc_shmem hv p pages zmem bmem chm mem = Ret (addr, hv', p') -> pool_ok p' /\ exists new, blocks_taken hv hv' new /\ pool_blocks p' = pool_blocks p ++ new.
Proof.
  intros Hok Hlow Hp Hh Hpg E. destruct (Z.le_gt_cases pages 512) as [Hle|Hgt].
  - destruct (alloc_ok hv p pages zmem bmem chm mem Hok Hlow Hp Hh ltac:(lia)) as (a & h & q & new & E1 & H1 & H2 & H3 & _). rewrite E in E1. simplify_eq. split; [done|]. by exists new.
  - unfold alloc_shmem in E. change PAGES_IN_BLOCK with 512 in E. rewrite (proj2 (Z.ltb_lt _ _)) in E by lia. simplify_eq. split; [done|]. exists []. split; [by apply taken_none|by rewrite app_nil_r].
Qed.

Lemma pool_step_inv hv0 w w' : pool_step w w' -> pool_inv hv0 (fst w) (snd w) -> pool_inv hv0 (fst w') (snd w').
Proof.
  intros Hs Hi. pose proof (inv_held _ _ _ Hi) as Hh. destruct Hi as [Hp (l & T & P)]. destruct Hs as [hv p pages zmem bmem chm mem addr hv' p' Hpg E|hv p addr p' E]; cbn in *.
  - destruct (alloc_returned _ _ _ _ _ _ _ _ _ _ (bk_ok _ _ _ T) (bk_low _ _ _ T) Hp Hh Hpg E) as (Hp' & new & T' & Em). split; [done|]. exists (new ++ l). split; [by eapply taken_trans|]. by rewrite Em, P, Permutation_app_comm.
  - destruct (free_returned p addr p' Hp E) as [Hp' Hm]. split; [done|]. exists l. by rewrite Hm.
Qed.

(** C20: However shared memory is allocated, at least one page at a time, and freed on a machine whose
    guest memory is below 4 GB ([low]), live runs never overlap, each lies inside one block that the pool
    has taken from the blocks for guests (and that nobody else has), and a page of such a block is marked
    in its bitmap exactly if a live run has it. *)
Theorem shmem_pool_exact hv0 hv p : vmm_ok hv0 -> low hv0 -> rtc pool_step (hv0, mk_pool [] []) (hv, p) ->
  (forall i j a b f, shmem_head p !! i = Some a -> shmem_head p !! j = Some b -> covers a f = true -> covers b f = true -> i = j) /\
  (forall a, a ∈ shmem_head p -> exists b, b ∈ pool_blocks p /\ b * MEM_BLOCK_SIZE <= 4096 * sh_pfn a /\ 4096 * (sh_pfn a + sh_pages a) <= (b + 1) * MEM_BLOCK_SIZE) /\
  NoDup (pool_blocks p) /\ (forall b, b ∈ pool_blocks p -> busy hv0 b = false /\ busy hv b = true) /\
  (forall sb k, sb ∈ shmem_blocks p -> 0 <= k < 512 -> bit_at (sb_bitmap sb) k = true <-> exists a, a ∈ shmem_head p /\ covers a (512 * sb_mb sb + k) = true).
Proof.
  intros Hok Hlow Hr. assert (Hi : pool_inv hv0 hv p).
  { assert (H0 : pool_inv hv0 (fst (hv0, mk_pool [] [])) (snd (hv0, mk_pool [] []))).
    { split; cbn; [split; cbn; [lia|done|by apply NoDup_nil|intros sh Hs; inversion Hs|done]|]. exists []. split; [by apply taken_none|done]. }
    change (pool_inv hv0 (fst (hv, p)) (snd (hv, p))). revert H0. induction Hr as [|w1 w2 w3 Hs _ IH]; [done|]. intros H0. apply IH. by eapply pool_step_inv. }
  pose proof (inv_held _ _ _ Hi) as Hh. destruct Hi as [Hp (l & T & P)]. split; [|split; [|split; [apply Hp|split]]].
  - intros i j a b f Hi Hj Ha Hb. pose proof (runs_apart p Hp f) as Hle. clear -Hi Hj Ha Hb Hle. revert i j Hi Hj Hle. induction (shmem_head p) as [|s l IH]; intros i j Hi Hj Hle; [done|]. rewrite runs_cons in Hle.
    destruct i as [|i], j as [|j]; cbn in Hi, Hj; simplify_eq; [done| | |].
    + pose proof (runs_elem l b f (list_elem_of_lookup_2 _ _ _ Hj) Hb). rewrite Ha in Hle. cbn in Hle. lia.
    + pose proof (runs_elem l a f (list_elem_of_lookup_2 _ _ _ Hi) Ha). rewrite Hb in Hle. cbn in Hle. lia.
    + f_equal. apply IH; [done|done|]. destruct (covers s f); cbn in Hle; lia.
  - intros a Ha. destruct (po_in _ Hp a Ha) as (_ & sb & Hl & R1 & R2 & R3). exists (sb_mb sb). split; [|unfold MEM_BLOCK_SIZE; lia]. apply list_elem_of_fmap. exists sb. split; [done|]. by eapply list_elem_of_lookup_2.
  - intros b Hb. split; [|by apply Hh]. apply (bk_new _ _ _ T). by rewrite P.
  - intros sb k (i & Hl)%list_elem_of_lookup Hk. pose proof (po_bits _ Hp i sb k Hl Hk) as Hb. split.
    + intros E. rewrite E in Hb. apply runs_positive. cbn in Hb. lia.
    + intros (a & Ha & Hc). pose proof (runs_elem _ _ _ Ha Hc). destruct (bit_at _ _); [done|]. cbn in Hb. lia.
Qed.

(** An allocation returns a run of pages of the pool that no live run has, and freeing it leaves
    exactly the runs that were live before. *)
Theorem shmem_alloc_free hv p pages zmem bmem chm mem addr hv' p' : vmm_ok hv -> low hv -> pool_ok p -> held hv p -> (forall b, has_in (bs_list hv) b = true -> 0 < b) -> 0 < pages <= 512 ->
  alloc_shmem hv p pages zmem bmem chm mem = Ret (addr, hv', p') -> addr <> 0 ->
  took_run p p' addr pages /\ exists p2, free_shmem p' addr = Ret p2 /\ shmem_head p2 = shmem_head p /\ pool_blocks p2 = pool_blocks p'.
Proof.
  intros Hok Hlow Hp Hh Hpos Hpg E Hne. destruct (alloc_ok hv p pages zmem bmem chm mem Hok Hlow Hp Hh Hpg) as (a & h & q & new & E1 & Hp' & _ & _ & H1). rewrite E in E1. simplify_eq.
  destruct (H1 Hpos) as [(? & _)|[_ Tr]]; [done|]. split; [done|]. destruct (tr_head _ _ _ _ Tr) as (sh & Eh & Es & Ea). destruct (po_in _ Hp' sh) as (_ & sb & Hl & R1 & R2 & R3); [rewrite Eh; left|].
  pose proof (sk_mb _ _ (po_blocks _ Hp' _ _ Hl)). unfold free_shmem. rewrite IS_PAGE_ALIGN_spec, Ea. rewrite (Z.mul_comm 4096), Z.mod_mul, Z.eqb_refl by lia. cbn [negb]. unfold vtop. rewrite phy2pfn_shift, Z.div_mul by lia.
  rewrite Eh. cbn [free_loop]. rewrite Z.eqb_refl. destruct (free_in_block_ok q [] sh (shmem_head p) Hp' Eh) as (p1 & -> & _ & Hm). cbn [obind]. eexists. split; [done|]. split; [done|exact Hm].
Qed.
End shmem.

(** ** Examples *)

#[local] Instance shift_numbers : PageNumbers.
Proof. refine {| pfn2phy := fun pfn => 4096 * pfn; phy2pfn := fun phy => phy / 4096 |}; done. Defined.

Definition demo_alloc (hp : vmm * pool) (pages : Z) : outcome (Z * (vmm * pool)) :=
  let* (addr, hv, p) := alloc_shmem (fst hp) (snd hp) pages true true (fun _ => 0) (fun _ => true) in Ret (addr, (hv, p)).

Definition demo_used : vmm * pool := match demo_alloc (demo_vmm, mk_pool [] []) 3 with Ret (_, hp) => hp | _ => (demo_vmm, mk_pool [] []) end.

Lemma demo_used_reach : rtc pool_step (demo_vmm, mk_pool [] []) demo_used.
Proof. apply rtc_once. eapply (ps_alloc demo_vmm _ 3 true true (fun _ => 0) (fun _ => true) 0x40000000); [lia|]. vm_compute. reflexivity. Qed.

Lemma shmem_pool_exact_witness : exists b, b ∈ pool_blocks (snd demo_used) /\ b * MEM_BLOCK_SIZE <= 0x40000000.
Proof.
  destruct demo_vmm_ok as [Hok Hlow].
  destruct (shmem_pool_exact demo_vmm (fst demo_used) (snd demo_used) Hok Hlow demo_used_reach) as (_ & H & _). destruct (H (mk_shmem 3 0 0 0x40000)) as (b & Hb & Hle & _); [vm_compute; left|]. exists b. split; [exact Hb|exact Hle].
Defined.

Lemma demo_positive b : has_in (bs_list demo_vmm) b = true -> 0 < b.
Proof. change (has_in (bs_list demo_vmm) b) with ((512 <=? b) && (b <? 576) || false). lia. Qed.

Lemma shmem_alloc_free_witness : exists p2, free_shmem (snd demo_used) 0x40000000 = Ret p2 /\ shmem_head p2 = [].
Proof.
  destruct demo_vmm_ok as [Hok Hlow].
  destruct (shmem_alloc_free demo_vmm (mk_pool [] []) 3 true true (fun _ => 0) (fun _ => true) 0x40000000 (fst demo_used) (snd demo_used) Hok Hlow) as (_ & p2 & E & Hh & _).
  - split; cbn; [lia|done|by apply NoDup_nil|intros sh Hs; inversion Hs|done].
  - intros b Hb. inversion Hb.
  - exact demo_positive.
  - lia.
  - vm_compute. reflexivity.
  - done.
  - exists p2. split; [exact E|exact Hh].
Defined.

(** [sb->free_pages] grows when a run is freed and does not shrink when one is allocated. *)
Lemma free_pages_not_taken : exists p2, sb_free_pages <$> shmem_blocks (snd demo_used) = [512] /\ free_shmem (snd demo_used) 0x40000000 = Ret p2 /\ sb_free_pages <$> shmem_blocks p2 = [515].
Proof. eexists. split; [vm_compute; reflexivity|]. split; vm_compute; reflexivity. Qed.

(** A block allocated and freed as a whole, [n] times. *)
Fixpoint rounds (n : nat) (hp : vmm * pool) : outcome (vmm * pool) :=
  match n with
  | O => Ret hp
  | S n => let* (addr, hp) := demo_alloc hp 512 in let* p := free_shmem (snd hp) addr in rounds n (fst hp, p)
  end.

Definition demo_wrapped : vmm * pool := match rounds 127 (demo_vmm, mk_pool [] []) with Ret hp => hp | _ => (demo_vmm, mk_pool [] []) end.

(** After 127 rounds the count of 16 bits is zero: the block is empty, and yet it is passed over and
    another one is taken for a single page. *)
Lemma free_pages_wraps : shmem_head (snd demo_wrapped) = [] /\ sb_free_pages <$> shmem_blocks (snd demo_wrapped) = [0] /\ sb_bitmap <$> shmem_blocks (snd demo_wrapped) = [replicate 8 0] /\
  match demo_alloc demo_wrapped 1 with Ret (addr, hp) => addr = 0x40200000 /\ pool_blocks (snd hp) = [512; 513] | _ => False end.
Proof. vm_compute. by repeat split. Qed.

(** Nothing keeps a caller from asking for no page: the run gets the address of the next one. *)
Lemma empty_run_shares_address :
  match demo_alloc (demo_vmm, mk_pool [] []) 0 with
  | Ret (addr, hp) => addr = 0x40000000 /\ match demo_alloc hp 1 with Ret (addr, _) => addr = 0x40000000 | _ => False end
  | _ => False
  end.
Proof. vm_compute. done. Qed.
