(* ===== verification/Page.v ===== *)
(** * Page allocator

    [core/page.c]: memory sections with one bit and one [struct page] per page,
    the search for free pages, the release of a page run, and the 2 MiB block
    bitmap of block-aligned sections.  Locks are held for the whole of each
    operation and are not part of the model.  A [struct page *] is the pair of
    its section and its index in that section's [pages] array; the page contents
    ([bzero_pages]) are not modelled.

    For a page section the allocator is proved correct against the set of
    allocated runs: an allocation returns an aligned run of free pages and marks
    exactly it, the head page describes it, and freeing the head restores the
    bitmap.  For block sections the theorems at the end exhibit what the block
    bookkeeping does instead. *)

From S2P Require Import Prelude Types Bits Bitmap.

Definition PAGE_F_SLAB : Z := 0x20.
Definition PAGE_F_HUGE : Z := Z.lor 0x2 0x40.
Definition PAGE_F_HEAD : Z := 0x100.
Definition PAGE_F_MASK : Z := 0xffff.
Definition MAX_MEM_SECTIONS : Z := 32.

Record page := mk_page {
  pg_cnt : Z;
  pg_flags : Z;
  pg_pfn : Z;
}.

Definition zero_page : page := mk_page 0 0 0.

Record mem_section := mk_section {
  block_section : bool;
  phy_base : Z;
  vir_base : Z;
  vir_end : Z;
  ms_size : Z;
  total_cnt : Z;
  free_cnt : Z;
  bitmap : list Z;
  bm_end : Z;
  bm_current : Z;
  block_bitmap : list Z;
  total_block : Z;
  current_block : Z;
  free_block : Z;
  pages : list page;
}.

Definition PAGE_ADDR (base bit : Z) : Z := u64 (base + Z.shiftl bit PAGE_SHIFT).

(** [pfn] is a [uint32_t] and is shifted as one. *)
Definition page_pa (p : page) : Z := u32 (Z.shiftl (pg_pfn p) PAGE_SHIFT).
Definition page_va (p : page) : Z := ptov (page_pa p).

(** ** Field updates *)

Definition set_bitmap (ms : mem_section) (m : list Z) (free : Z) : mem_section :=
  mk_section (block_section ms) (phy_base ms) (vir_base ms) (vir_end ms) (ms_size ms)
    (total_cnt ms) free m (bm_end ms) (bm_current ms) (block_bitmap ms) (total_block ms)
    (current_block ms) (free_block ms) (pages ms).

Definition set_bm_current (ms : mem_section) (c : Z) : mem_section :=
  mk_section (block_section ms) (phy_base ms) (vir_base ms) (vir_end ms) (ms_size ms)
    (total_cnt ms) (free_cnt ms) (bitmap ms) (bm_end ms) c (block_bitmap ms) (total_block ms)
    (current_block ms) (free_block ms) (pages ms).

Definition set_blocks (ms : mem_section) (m : list Z) (cur free : Z) : mem_section :=
  mk_section (block_section ms) (phy_base ms) (vir_base ms) (vir_end ms) (ms_size ms)
    (total_cnt ms) (free_cnt ms) (bitmap ms) (bm_end ms) (bm_current ms) m (total_block ms)
    cur free (pages ms).

Definition set_page (ms : mem_section) (i : Z) (p : page) : mem_section :=
  mk_section (block_section ms) (phy_base ms) (vir_base ms) (vir_end ms) (ms_size ms)
    (total_cnt ms) (free_cnt ms) (bitmap ms) (bm_end ms) (bm_current ms) (block_bitmap ms)
    (total_block ms) (current_block ms) (free_block ms) (<[Z.to_nat i := p]> (pages ms)).

(** ** Operations on one section *)

Definition alloc_pages_in_block (p : page) (ms : mem_section) : outcome mem_section :=
  let start := page_pa p in
  let base := ALIGN start BLOCK_SIZE in
  let end_ := BALIGN (u64 (start + pg_cnt p * PAGE_SIZE)) BLOCK_SIZE in
  let size := s32 (Z.shiftr (u64 (end_ - base)) PAGE_SHIFT / PAGES_PER_BLOCK) in
  let start := Z.shiftr (u64 (base - start)) BLOCK_SHIFT in
  let* m := bitmap_set (block_bitmap ms) (u32 start) size in
  Ret (set_blocks ms m (current_block ms) (free_block ms)).

(** The eight words of the page bitmap that cover one block. *)
Fixpoint block_sum (m : list Z) (w : Z) (n : nat) (sum : Z) : outcome Z :=
  match n with
  | O => Ret sum
  | S n => let* x := word m w in
           block_sum m (w + 1) n (sum + if x =? 0 then 0 else 1)
  end.

Fixpoint free_blocks_loop (n : nat) (ms : mem_section) (bbit pbit : Z) : outcome mem_section :=
  match n with
  | O => Ret ms
  | S n =>
      let* sum := block_sum (bitmap ms) (BITS_TO_LONGS pbit) 8 0 in
      let* ms := if sum =? 0 then
                   let* m := clear_bit bbit (block_bitmap ms) in
                   Ret (set_blocks ms m (current_block ms) (u64 (free_block ms + 1)))
                 else Ret ms in
      free_blocks_loop n ms (bbit + 1) (pbit + PAGES_PER_BLOCK)
  end.

Definition free_pages_in_block (p : page) (ms : mem_section) : outcome mem_section :=
  let count := pg_cnt p in
  let tmp := page_pa p in
  let start := ALIGN tmp BLOCK_SIZE in
  let end_ := BALIGN (u64 (tmp + count * PAGE_SIZE)) BLOCK_SIZE in
  let bbit := s32 (Z.shiftr (u64 (start - phy_base ms)) BLOCK_SHIFT) in
  let pbit := s32 (Z.shiftr (u64 (start - phy_base ms)) PAGE_SHIFT) in
  free_blocks_loop (Z.to_nat (Z.shiftr (u64 (end_ - start)) BLOCK_SHIFT)) ms bbit pbit.

Definition __alloc_pages_from_section (section : mem_section) (count align flags : Z)
    : outcome (option Z * mem_section) :=
  let* r := if count =? 1
            then find_next_zero_bit_loop (bitmap section) (total_cnt section) (bm_current section)
            else bitmap_find_next_zero_area_align (bitmap section) (total_cnt section) 0 count align in
  let bit := s32 r in
  if total_cnt section <=? u64 bit then Ret (None, section) else
  let* m := bitmap_set (bitmap section) bit count in
  let section := set_bitmap section m (free_cnt section) in
  let* section :=
    if (count =? 1) || (align =? 1) then
      let section := set_bm_current section (u64 (bit + count)) in
      check bm_current section <? total_cnt section in
      if bm_current section =? total_cnt section then Ret (set_bm_current section 0) else Ret section
    else Ret section in
  let p := mk_page (u16 count) (Z.land (Z.lor flags PAGE_F_HEAD) 0xffff)
             (u32 (Z.shiftr (PAGE_ADDR (phy_base section) bit) PAGE_SHIFT)) in
  let section := set_page section bit p in
  let section := set_bitmap section (bitmap section) (u64 (free_cnt section - count)) in
  if block_section section then
    let* section := alloc_pages_in_block p section in Ret (Some bit, section)
  else Ret (Some bit, section).

(** [free_pages_in_section(page, ms)] up to the final [memset] of the page, which
    the callers below perform on the section the page belongs to. *)
Definition free_pages_in_section (p : page) (ms : mem_section) : outcome mem_section :=
  let flags := pg_flags p in
  check negb (flags =? 0) && negb (Z.land flags PAGE_F_HEAD =? 0) &&
        (Z.land flags PAGE_F_SLAB =? 0) in
  let count := pg_cnt p in
  let pstart := page_pa p in
  check negb (pstart =? 0) && negb (count =? 0) in
  let start := Z.shiftr (u64 (pstart - phy_base ms)) PAGE_SHIFT in
  let* m := bitmap_clear (bitmap ms) (u32 start) count in
  let ms := set_bitmap ms m (u64 (free_cnt ms + count)) in
  if block_section ms then free_pages_in_block p ms else Ret ms.

(** [bitmap_addr[0..7] = -1] *)
Fixpoint fill_words (m : list Z) (w : Z) (n : nat) : outcome (list Z) :=
  match n with
  | O => Ret m
  | S n => let* _ := word m w in fill_words (<[Z.to_nat w := ULONG_MAX]> m) (w + 1) n
  end.

Definition get_free_block_from_section (ms : mem_section) (flags : Z)
    : outcome (option Z * mem_section) :=
  if free_block ms =? 0 then Ret (None, ms) else
  let* start := find_next_zero_bit_loop (block_bitmap ms) (current_block ms) (total_block ms) in
  if total_block ms <=? start then Ret (None, ms) else
  let* m := set_bit start (block_bitmap ms) in
  let cur := start + 1 in
  let cur := if cur =? total_block ms then 0 else cur in
  let ms := set_blocks ms m cur (u64 (free_block ms - 1)) in
  let flags := Z.lor flags PAGE_F_HEAD in
  let base := u64 (phy_base ms + Z.shiftl start BLOCK_SHIFT) in
  let ms := set_page ms (start * PAGES_PER_BLOCK)
              (mk_page PAGES_PER_BLOCK (Z.land flags 0xffff) (u32 (Z.shiftr base PAGE_SHIFT))) in
  let* m := fill_words (bitmap ms) (BITS_TO_LONGS (start * PAGES_PER_BLOCK)) 8 in
  Ret (Some base, set_bitmap ms m (free_cnt ms)).

(** ** Operations on the section table: the list holds the sections below
    [nr_sections]. *)

Definition page_ref : Type := nat * Z.

Fixpoint alloc_pages_from_section (l : list mem_section) (i : nat) (npages align flags : Z)
    : outcome (option page_ref * list mem_section) :=
  match l with
  | [] => Ret (None, [])
  | section :: l =>
      let continue section :=
        let* (r, l) := alloc_pages_from_section l (S i) npages align flags in
        Ret (r, section :: l) in
      if free_cnt section <? npages then continue section else
      let* (r, section) := __alloc_pages_from_section section npages align flags in
      match r with
      | Some bit => Ret (Some (i, bit), section :: l)
      | None => continue section
      end
  end.

Definition __alloc_pages (l : list mem_section) (npages align flags : Z)
    : outcome (option page_ref * list mem_section) :=
  if (npages <=? 0) || (align =? 0) then Ret (None, l) else
  alloc_pages_from_section l 0 npages align (Z.land flags PAGE_F_MASK).

Definition get_page (l : list mem_section) (r : page_ref) : outcome page :=
  match l !! r.1 with
  | Some ms => match pages ms !! Z.to_nat r.2 with
               | Some p => if 0 <=? r.2 then Ret p else Fault
               | None => Fault
               end
  | None => Fault
  end.

Definition __get_free_pages (l : list mem_section) (npages align flags : Z)
    : outcome (Z * list mem_section) :=
  let* (r, l) := __alloc_pages l npages align flags in
  match r with
  | Some r => let* p := get_page l r in Ret (page_va p, l)
  | None => Ret (0, l)
  end.

Fixpoint addr_to_mem_section (l : list mem_section) (i : nat) (addr : Z) : option nat :=
  match l with
  | [] => None
  | ms :: l => if (vir_base ms <=? addr) && (addr <? vir_end ms) then Some i
               else addr_to_mem_section l (S i) addr
  end.

Definition get_page_in_section (l : list mem_section) (i : nat) (addr : Z) : outcome page_ref :=
  match l !! i with
  | Some ms => Ret (i, Z.shiftr (u64 (addr - vir_base ms)) PAGE_SHIFT)
  | None => Fault
  end.

Definition addr_to_page (l : list mem_section) (addr : Z) : outcome (option page_ref) :=
  match addr_to_mem_section l 0 addr with
  | None => Ret None
  | Some i => let* r := get_page_in_section l i addr in Ret (Some r)
  end.

(** [free_pages_in_section] on section [k], then [memset(page, 0, ...)]. *)
Definition free_and_clear (l : list mem_section) (r : page_ref) (k : nat)
    : outcome (list mem_section) :=
  let* p := get_page l r in
  match l !! k with
  | None => Fault
  | Some ms =>
      let* ms := free_pages_in_section p ms in
      let l := <[k := ms]> l in
      match l !! r.1 with
      | Some own => Ret (<[r.1 := set_page own r.2 zero_page]> l)
      | None => Fault
      end
  end.

Definition __free_pages (l : list mem_section) (r : page_ref) : outcome (Z * list mem_section) :=
  let* p := get_page l r in
  match addr_to_mem_section l 0 (page_va p) with
  | None => Ret (- EFAULT, l)
  | Some k => let* l := free_and_clear l r k in Ret (0, l)
  end.

Definition free_pages (l : list mem_section) (addr : Z) : outcome (Z * list mem_section) :=
  check is_kva addr in
  if negb (IS_PAGE_ALIGN addr) then Ret (- EINVAL, l) else
  match addr_to_mem_section l 0 addr with
  | None => Ret (- EFAULT, l)
  | Some k =>
      let* r := get_page_in_section l k addr in
      let* p := get_page l r in
      if negb (Z.land (pg_flags p) PAGE_F_SLAB =? 0) then Ret (- EINVAL, l) else
      let* l := free_and_clear l r k in Ret (0, l)
  end.

Fixpoint get_free_block_from (l : list mem_section) (flags : Z)
    : outcome (option Z * list mem_section) :=
  match l with
  | [] => Ret (None, [])
  | ms :: l =>
      let continue ms :=
        let* (r, l) := get_free_block_from l flags in Ret (r, ms :: l) in
      if negb (block_section ms) then continue ms else
      let* (r, ms) := get_free_block_from_section ms flags in
      match r with
      | Some base => if base =? 0 then continue ms else Ret (Some base, ms :: l)
      | None => continue ms
      end
  end.

Definition get_free_block (l : list mem_section) (flags : Z) : outcome (Z * list mem_section) :=
  let flags := Z.lor (Z.land flags PAGE_F_MASK) PAGE_F_HUGE in
  let* (r, l) := get_free_block_from l flags in
  Ret (ptov (default 0 r), l).

Definition free_block_pages (l : list mem_section) (addr : Z) : outcome (list mem_section) :=
  let* (_, l) := free_pages l addr in Ret l.

(** ** Invariant of a page section *)

Definition is_head (p : page) : bool := Z.testbit (pg_flags p) 8.

(** [p] is the head page at index [i] of [ms]. *)
Definition head_at (ms : mem_section) (i : Z) (p : page) : Prop :=
  0 <= i /\ pages ms !! Z.to_nat i = Some p /\ is_head p = true.

Record section_ok (ms : mem_section) : Prop := {
  so_kind : block_section ms = false;
  so_map : bitmap_ok (bitmap ms);
  so_words : total_cnt ms <= 64 * Z.of_nat (length (bitmap ms));
  so_pages : total_cnt ms <= Z.of_nat (length (pages ms));
  so_cur : 0 <= bm_current ms < total_cnt ms;
  so_free : free_cnt ms = total_cnt ms - count_from (bitmap ms) 0 (Z.to_nat (total_cnt ms));
  so_base : 0 < phy_base ms /\ phy_base ms mod 4096 = 0 /\
            phy_base ms + 4096 * total_cnt ms <= 2 ^ 32;
  so_virt : vir_base ms = phy_base ms /\ phy_base ms + 4096 * total_cnt ms <= vir_end ms;
  so_head : forall i p, head_at ms i p ->
    0 < pg_cnt p /\ i + pg_cnt p <= total_cnt ms /\ pg_pfn p = phy_base ms / 4096 + i /\
    forall k, i <= k < i + pg_cnt p -> bit_at (bitmap ms) k = true;
  so_disjoint : forall i j p q, head_at ms i p -> head_at ms j q -> i < j -> i + pg_cnt p <= j;
  so_cover : forall k, 0 <= k < total_cnt ms -> bit_at (bitmap ms) k = true ->
    exists i p, head_at ms i p /\ i <= k < i + pg_cnt p;
  so_blank : forall (i : nat) p, pages ms !! i = Some p -> is_head p = false -> p = zero_page;
}.

(** A single page is allocated without regard to alignment. *)
Definition aligned_for (count align r : Z) : Prop :=
  count = 1 \/ Z.land r (u64 (align - 1)) = 0.

Lemma total_bound ms : section_ok ms -> total_cnt ms < 2 ^ 20.
Proof. intros H. destruct (so_base _ H) as (? & _ & ?). lia. Qed.

(** The search of [__alloc_pages_from_section]. *)
Lemma alloc_search_spec ms count align :
  section_ok ms -> 0 < count < 2 ^ 16 ->
  exists r,
    (if count =? 1
     then find_next_zero_bit_loop (bitmap ms) (total_cnt ms) (bm_current ms)
     else bitmap_find_next_zero_area_align (bitmap ms) (total_cnt ms) 0 count align) = Ret r /\
    ((0 <= r /\ r + count <= total_cnt ms /\ aligned_for count align r /\
      zero_area (bitmap ms) count r) \/
     (total_cnt ms <= r < 2 ^ 31 /\ forall r', 0 <= r' -> r' + count <= total_cnt ms ->
        aligned_for count align r' -> ~ zero_area (bitmap ms) count r')).
Proof.
  intros Hok Hc. pose proof (total_bound _ Hok). pose proof (so_cur _ Hok) as Hcur.
  destruct (Z.eqb_spec count 1) as [->|Hne].
  - destruct (_find_next_bit_loop_spec (bitmap ms) (total_cnt ms) (bm_current ms) true)
      as (r & E & Hr); [apply Hok|lia|lia|apply Hok|]. exists r. split; [exact E|].
    assert (Hone : forall r, wanted (bitmap ms) true r = true -> zero_area (bitmap ms) 1 r).
    { intros x Hx i Hi. replace i with x by lia. by apply negb_true_iff. }
    assert (Hset : forall r, wanted (bitmap ms) true r = false -> ~ zero_area (bitmap ms) 1 r).
    { intros x Hx. apply (not_area_at _ _ _ x); [lia|]. by apply negb_false_iff. }
    destruct Hr as [(H1 & H2 & H3)|[H1 (H2 & H3 & H4)]].
    + left. split; [lia|]. split; [lia|]. split; [by left|auto].
    + destruct (decide (r = total_cnt ms)) as [->|].
      * right. split; [lia|]. intros r' H0 Hr' _. apply Hset, H3. lia.
      * left. split; [lia|]. split; [lia|]. split; [by left|]. apply Hone, H4. lia.
  - destruct (find_area_align_spec (bitmap ms) (total_cnt ms) count (so_map _ Hok)
      ltac:(pose proof (so_words _ Hok); lia) ltac:(lia) (S (S (Z.to_nat (total_cnt ms)))) 0 align)
      as (r & E & Hr); [lia..|]. exists r. split; [exact E|].
    destruct Hr as [(H1 & H2 & H3 & H4 & H5)|[H1 H2]].
    + left. split; [lia|]. split; [lia|]. split; [by right|done].
    + right. apply find_area_align_bound in E; [|apply Hok|pose proof (so_words _ Hok); lia|lia..].
      split; [lia|]. intros r' H0 Hr' [|Hal]; [lia|]. by apply H2.
Qed.

(** The page descriptor an allocation writes. *)
Definition alloc_head (ms : mem_section) (bit count flags : Z) : page :=
  mk_page count (Z.land (Z.lor flags PAGE_F_HEAD) 0xffff) (phy_base ms / 4096 + bit).

Lemma alloc_head_is_head ms bit count flags : is_head (alloc_head ms bit count flags) = true.
Proof. unfold is_head. cbn [pg_flags alloc_head]. rewrite Z.land_spec, Z.lor_spec. by rewrite orb_true_r. Qed.

(** The section after an allocation of [count] pages at [bit]. *)
Definition allocated (ms ms' : mem_section) (bit count flags : Z) : Prop :=
  updated true (bitmap ms) (bitmap ms') bit (bit + count) /\
  pages ms' = <[Z.to_nat bit := alloc_head ms bit count flags]> (pages ms) /\
  free_cnt ms' = free_cnt ms - count /\ total_cnt ms' = total_cnt ms /\
  phy_base ms' = phy_base ms /\ block_section ms' = block_section ms /\
  vir_base ms' = vir_base ms /\ vir_end ms' = vir_end ms /\
  0 <= bm_current ms' < total_cnt ms'.

Lemma head_at_insert ms ms' i p :
  0 <= i < Z.of_nat (length (pages ms)) -> pages ms' = <[Z.to_nat i := p]> (pages ms) ->
  forall j q, head_at ms' j q <-> (j = i /\ q = p /\ is_head p = true) \/ (j <> i /\ head_at ms j q).
Proof.
  intros Hi E j q. unfold head_at. rewrite E. split.
  - intros (Hj & Hl & Hh). apply list_lookup_insert_Some in Hl as [(Eq & <- & _)|[Hne Hl]].
    + left. split; [lia|done].
    + right. split; [lia|done].
  - intros [(-> & -> & Hh)|(Hne & Hj & Hl & Hh)].
    + split; [lia|]. split; [apply list_lookup_insert_eq; lia|done].
    + split; [done|]. split; [rewrite list_lookup_insert_ne by lia; done|done].
Qed.

Lemma allocated_ok ms ms' bit count flags :
  section_ok ms -> 0 <= bit -> 0 < count -> bit + count <= total_cnt ms ->
  zero_area (bitmap ms) count bit -> allocated ms ms' bit count flags -> section_ok ms'.
Proof.
  intros Hok Hb Hc Hle Hz (Hu & Ep & Ef & Et & Eb & Ek & Ev & Ee & Hcur).
  pose proof (so_pages _ Hok) as Hpl. destruct Hu as (Hul & Huk & Hub).
  assert (Hh := head_at_insert ms ms' bit _ ltac:(lia) Ep).
  set (hd := alloc_head ms bit count flags) in *.
  split; rewrite ?Et, ?Eb, ?Ev, ?Ee, ?Ek, ?Hul; try apply Hok; try done.
  - by rewrite Ep, length_insert.
  - by rewrite <- Et.
  - rewrite Ef, (so_free _ Hok).
    rewrite (count_updated true (bitmap ms) (bitmap ms') bit (bit + count)); [cbn; lia|done|lia|lia|].
    intros i Hi. by apply Hz.
  - intros i p [(-> & -> & _)|(Hne & Hp)]%Hh.
    + cbn. split; [lia|]. split; [lia|]. split; [done|]. intros k Hk. rewrite Hub by lia. case_bools; done.
    + destruct (so_head _ Hok i p Hp) as (H1 & H2 & H3 & H4). split; [done|]. split; [done|].
      split; [done|]. intros k Hk. destruct Hp as (? & _). rewrite Hub by lia. rewrite H4 by lia.
      by destruct (_ && _).
  - intros i j p q Hp Hq Hlt. apply Hh in Hp as [(-> & -> & _)|(Hne & Hp)];
      apply Hh in Hq as [(-> & -> & _)|(Hne' & Hq)]; [lia| | |by eapply (so_disjoint _ Hok)].
    + cbn. destruct (decide (bit + count <= j)); [done|]. destruct (so_head _ Hok j q Hq) as (H1 & _ & _ & H4).
      specialize (H4 j ltac:(lia)). rewrite (Hz j) in H4 by lia. done.
    + destruct (decide (i + pg_cnt p <= bit)); [done|]. destruct (so_head _ Hok i p Hp) as (H1 & _ & _ & H4).
      specialize (H4 bit ltac:(lia)). rewrite (Hz bit) in H4 by lia. done.
  - intros k Hk. rewrite Hub by lia. destruct (Z.leb_spec bit k), (Z.ltb_spec k (bit + count)); cbn [andb];
      [intros _; exists bit, hd; split; [apply Hh; left; split_and!; [done|done|apply alloc_head_is_head]|cbn; lia]|..];
      intros Hbit; destruct (so_cover _ Hok k Hk Hbit) as (i & p & Hp & Hik); exists i, p;
      (split; [|done]); apply Hh; right; (split; [|done]); intros ->;
      destruct (so_head _ Hok bit p Hp) as (H1 & _ & _ & H4); specialize (H4 bit ltac:(lia));
      rewrite (Hz bit) in H4 by lia; done.
  - rewrite Ep. intros i p [(_ & <- & _)|[_ Hl]]%list_lookup_insert_Some; [intros Hx; unfold hd in Hx; by rewrite alloc_head_is_head in Hx|by apply (so_blank _ Hok i)].
Qed.

(** What one call of [__alloc_pages_from_section] does. *)
Lemma alloc_from_section_spec ms count align flags :
  section_ok ms -> 0 < count < 2 ^ 16 ->
  (__alloc_pages_from_section ms count align flags = Ret (None, ms) /\
   forall r, 0 <= r -> r + count <= total_cnt ms -> aligned_for count align r ->
     ~ zero_area (bitmap ms) count r) \/
  (exists bit, 0 <= bit /\ bit + count <= total_cnt ms /\ aligned_for count align bit /\
     zero_area (bitmap ms) count bit /\
     ((bit + count = total_cnt ms /\ (count = 1 \/ align = 1) /\
       __alloc_pages_from_section ms count align flags = Panic) \/
      (exists ms', __alloc_pages_from_section ms count align flags = Ret (Some bit, ms') /\
         allocated ms ms' bit count flags /\ section_ok ms'))).
Proof.
  intros Hok Hc. pose proof (total_bound _ Hok). pose proof (so_cur _ Hok) as Hcur.
  unfold __alloc_pages_from_section.
  destruct (alloc_search_spec ms count align Hok Hc) as (r & -> & Hr). cbn [obind].
  destruct Hr as [(H1 & H2 & Hal & Hz)|[H1 H2]].
  2: { left. rewrite s32_small, wrap_small by lia. case_bools. done. }
  right. exists r. do 4 (split; [done|]). rewrite s32_small by lia.
  rewrite (wrap_small 64 r) by lia. destruct (Z.leb_spec (total_cnt ms) r); [lia|].
  pose proof (so_words _ Hok). destruct (so_base _ Hok) as (Hb1 & Hb2 & Hb3).
  destruct (bitmap_set_spec (bitmap ms) r count (so_map _ Hok)) as (m & -> & Hu); [lia..|].
  cbn [obind]. rewrite (wrap_small 64 (r + count)) by lia.
  assert (Hpfn : forall b, b = r -> u32 (Z.shiftr (PAGE_ADDR (phy_base ms) b) PAGE_SHIFT) = phy_base ms / 4096 + r).
  { intros b ->. unfold PAGE_ADDR. rewrite Z.shiftl_mul_pow2 by done. change (2 ^ PAGE_SHIFT) with 4096.
    rewrite (wrap_small 64), shiftr_PAGE by lia. rewrite Z.div_add by lia.
    rewrite wrap_small; [done|]. Z.div_mod_to_equations; lia. }
  pose proof (count_from_bound (bitmap ms) 0 (Z.to_nat (total_cnt ms))).
  assert (Hfree : count <= free_cnt ms < 2 ^ 20).
  { pose proof (count_from_bound m 0 (Z.to_nat (total_cnt ms))) as Hm.
    rewrite (count_updated true (bitmap ms) m r (r + count)) in Hm; [|done|lia|lia|by intros; apply Hz].
    rewrite (so_free _ Hok). cbn in Hm. lia. }
  assert (Hcnt : u16 count = count) by (apply wrap_small; lia).
  destruct ((count =? 1) || (align =? 1)) eqn:Ea; cbn [obind set_bm_current set_bitmap bm_current total_cnt assert].
  - destruct (Z.ltb_spec (r + count) (total_cnt ms)); cbn [obind assert].
    + right. rewrite (proj2 (Z.eqb_neq (r + count) (total_cnt ms))) by lia.
      cbn [obind set_page set_bitmap set_bm_current block_section phy_base free_cnt].
      rewrite (so_kind _ Hok). eexists. split; [reflexivity|].
      match goal with |- allocated _ ?x _ _ _ /\ _ => assert (Ha : allocated ms x r count flags) end.
      { unfold allocated, alloc_head; cbn. rewrite Hpfn, Hcnt, wrap_small by lia.
        split_and!; try done; try lia. }
      split; [done|]. apply (allocated_ok ms _ r count flags); try done; lia.
    + left. split; [lia|]. split; [|done]. apply orb_true_iff in Ea as [Ea|Ea]; bool_hyps; auto.
  - right. cbn [obind set_page set_bitmap set_bm_current block_section phy_base free_cnt].
    rewrite (so_kind _ Hok). eexists. split; [reflexivity|].
    match goal with |- allocated _ ?x _ _ _ /\ _ => assert (Ha : allocated ms x r count flags) end.
    { unfold allocated, alloc_head; cbn. rewrite Hpfn, Hcnt, wrap_small by lia.
      split_and!; try done; try lia. }
    split; [done|]. apply (allocated_ok ms _ r count flags); try done; lia.
Qed.

(** ** Freeing *)

Definition is_slab (p : page) : bool := Z.testbit (pg_flags p) 5.

Definition freed (ms ms' : mem_section) (bit : Z) (p : page) : Prop :=
  updated false (bitmap ms) (bitmap ms') bit (bit + pg_cnt p) /\
  pages ms' = <[Z.to_nat bit := zero_page]> (pages ms) /\
  free_cnt ms' = free_cnt ms + pg_cnt p /\ total_cnt ms' = total_cnt ms /\
  phy_base ms' = phy_base ms /\ block_section ms' = block_section ms /\
  vir_base ms' = vir_base ms /\ vir_end ms' = vir_end ms /\ bm_current ms' = bm_current ms.

Lemma head_index ms bit p : section_ok ms -> head_at ms bit p -> 0 <= bit < Z.of_nat (length (pages ms)).
Proof. intros Hok (H0 & Hl & _). apply lookup_lt_Some in Hl. lia. Qed.

Lemma freed_ok ms ms' bit p : section_ok ms -> head_at ms bit p -> freed ms ms' bit p -> section_ok ms'.
Proof.
  intros Hok Hp (Hu & Ep & Ef & Et & Eb & Ek & Ev & Ee & Ec).
  destruct (so_head _ Hok bit p Hp) as (Hc & Hle & Hpfn & Hset). destruct Hu as (Hul & Huk & Hub).
  pose proof (head_index _ _ _ Hok Hp) as Hidx.
  assert (Hh : forall j q, head_at ms' j q <-> j <> bit /\ head_at ms j q).
  { intros j q. rewrite (head_at_insert ms ms' bit _ Hidx Ep). split; [|auto].
    intros [(_ & _ & Hz)|H]; [by vm_compute in Hz|done]. }
  assert (Hkeep : forall j q k, head_at ms j q -> j <> bit -> j <= k < j + pg_cnt q ->
    (bit <=? k) && (k <? bit + pg_cnt p) = false).
  { intros j q k Hq Hne Hk. destruct (decide (j < bit)).
    - pose proof (so_disjoint _ Hok j bit q p Hq Hp ltac:(lia)). case_bools; done.
    - pose proof (so_disjoint _ Hok bit j p q Hp Hq ltac:(lia)). case_bools; done. }
  split; rewrite ?Et, ?Eb, ?Ev, ?Ee, ?Ek, ?Hul, ?Ec; try apply Hok; try done.
  - rewrite Ep, length_insert. apply Hok.
  - rewrite Ef, (so_free _ Hok).
    rewrite (count_updated false (bitmap ms) (bitmap ms') bit (bit + pg_cnt p)); [cbn; lia|done|lia|lia|done].
  - intros i q [Hne Hq]%Hh. destruct (so_head _ Hok i q Hq) as (H1 & H2 & H3 & H4).
    split; [done|]. split; [done|]. split; [done|]. intros k Hk. pose proof (proj1 Hq).
    rewrite Hub by lia. rewrite (Hkeep i q k) by done. by apply H4.
  - intros i j q r [_ Hq]%Hh [_ Hr]%Hh. by apply (so_disjoint _ Hok i j q r).
  - intros k Hk. rewrite Hub by lia. destruct (_ && _) eqn:Ein; [done|]. intros Hbit.
    destruct (so_cover _ Hok k Hk Hbit) as (i & q & Hq & Hik). exists i, q. split; [|done].
    apply Hh. split; [|done]. intros ->. assert (q = p) as ->.
    { destruct Hq as (_ & Hq & _), Hp as (_ & Hp & _). congruence. }
    revert Ein. case_bools; done.
  - rewrite Ep. intros i q [(_ & <- & _)|[_ Hl]]%list_lookup_insert_Some; [done|by apply (so_blank _ Hok i)].
Qed.

Lemma head_pa ms bit p : section_ok ms -> head_at ms bit p -> page_pa p = phy_base ms + 4096 * bit.
Proof.
  intros Hok Hp. destruct (so_head _ Hok bit p Hp) as (Hc & Hle & Hpfn & _).
  destruct (so_base _ Hok) as (H1 & H2 & H3). destruct Hp as (H0 & _).
  unfold page_pa. rewrite Z.shiftl_mul_pow2 by done. change (2 ^ PAGE_SHIFT) with 4096.
  rewrite Hpfn. pose proof (Z.div_mod (phy_base ms) 4096). rewrite wrap_small; lia.
Qed.

Lemma free_in_section_spec ms bit p :
  section_ok ms -> head_at ms bit p -> is_slab p = false ->
  exists ms', free_pages_in_section p ms = Ret ms' /\
    freed ms (set_page ms' bit zero_page) bit p /\ pages ms' = pages ms.
Proof.
  intros Hok Hp Hs. unfold free_pages_in_section. rewrite (head_pa _ _ _ Hok Hp).
  destruct (so_head _ Hok bit p Hp) as (Hc & Hle & Hpfn & Hset).
  destruct (so_base _ Hok) as (H1 & H2 & H3). pose proof (total_bound _ Hok).
  pose proof (so_words _ Hok). pose proof (proj1 Hp) as Hb0.
  assert (Hhd : negb (Z.land (pg_flags p) PAGE_F_HEAD =? 0) = true)
    by (change PAGE_F_HEAD with (2 ^ 8); rewrite land_bit_testbit by done; apply Hp).
  assert (Hsl : (Z.land (pg_flags p) PAGE_F_SLAB =? 0) = true).
  { apply negb_false_iff. change PAGE_F_SLAB with (2 ^ 5). by rewrite land_bit_testbit. }
  rewrite Hhd, Hsl. destruct (Z.eqb_spec (pg_flags p) 0) as [E|_].
  { destruct Hp as (_ & _ & Hp). unfold is_head in Hp. rewrite E, Z.testbit_0_l in Hp. done. }
  cbn [negb andb assert obind]. destruct (Z.eqb_spec (phy_base ms + 4096 * bit) 0); [lia|].
  destruct (Z.eqb_spec (pg_cnt p) 0); [lia|]. cbn [negb andb assert obind].
  replace (phy_base ms + 4096 * bit - phy_base ms) with (bit * 4096) by lia.
  rewrite (wrap_small 64 (bit * 4096)), shiftr_PAGE, Z.div_mul by lia. rewrite (wrap_small 32 bit) by lia.
  destruct (bitmap_clear_spec (bitmap ms) bit (pg_cnt p) (so_map _ Hok)) as (m & -> & Hu); [lia..|].
  cbn [obind set_bitmap block_section]. rewrite (so_kind _ Hok). eexists. split; [reflexivity|].
  split; [|done]. pose proof (count_from_bound (bitmap ms) 0 (Z.to_nat (total_cnt ms))).
  unfold freed; cbn. rewrite wrap_small by (rewrite (so_free _ Hok); lia).
  split_and!; done.
Qed.

(** ** The table of sections *)

Definition table_ok (l : list mem_section) : Prop :=
  Forall section_ok l /\
  forall i j a si sj, l !! i = Some si -> l !! j = Some sj -> i <> j ->
    vir_base si <= a < vir_end si -> vir_base sj <= a < vir_end sj -> False.

Lemma addr_to_mem_section_spec l i0 a i ms :
  l !! i = Some ms -> vir_base ms <= a < vir_end ms ->
  (forall j s, (j < i)%nat -> l !! j = Some s -> ~ vir_base s <= a < vir_end s) ->
  addr_to_mem_section l i0 a = Some (i0 + i)%nat.
Proof.
  revert i0 i. induction l as [|s l IH]; intros i0 i Hi Ha Hno; [done|]. cbn [addr_to_mem_section].
  destruct i as [|i]; cbn in Hi.
  - injection Hi as <-. case_bools. f_equal. lia.
  - specialize (Hno 0%nat s ltac:(lia) eq_refl) as Hs.
    replace ((vir_base s <=? a) && (a <? vir_end s)) with false by (case_bools; done).
    rewrite (IH (S i0) i Hi Ha); [f_equal; lia|]. intros j x Hj Hx. apply (Hno (S j)); [lia|done].
Qed.

Lemma addr_to_section l a i ms :
  table_ok l -> l !! i = Some ms -> vir_base ms <= a < vir_end ms ->
  addr_to_mem_section l 0 a = Some i.
Proof.
  intros [_ Hd] Hi Ha. apply (addr_to_mem_section_spec l 0 a i ms Hi Ha).
  intros j s Hj Hs Hin. by apply (Hd j i a s ms Hs Hi ltac:(lia)).
Qed.

Lemma table_ok_insert l i ms ms' :
  table_ok l -> l !! i = Some ms -> section_ok ms' ->
  vir_base ms' = vir_base ms -> vir_end ms' = vir_end ms -> table_ok (<[i := ms']> l).
Proof.
  intros [Hf Hd] Hi Hok E1 E2. split; [by apply Forall_insert|].
  intros j k a sj sk Hj Hk Hne Ha Hb.
  apply list_lookup_insert_Some in Hj as [(-> & -> & _)|[? Hj]];
    apply list_lookup_insert_Some in Hk as [(-> & -> & _)|[? Hk]]; try done.
  - rewrite E1, E2 in Ha. by apply (Hd j k a ms sk).
  - rewrite E1, E2 in Hb. by apply (Hd j k a sj ms).
  - by apply (Hd j k a sj sk).
Qed.

Lemma free_ref_spec l i ms bit p :
  table_ok l -> l !! i = Some ms -> head_at ms bit p -> is_slab p = false ->
  exists ms', free_and_clear l (i, bit) i = Ret (<[i := ms']> l) /\
    freed ms ms' bit p /\ table_ok (<[i := ms']> l).
Proof.
  intros Hl Hi Hp Hs. pose proof (Forall_lookup_1 _ _ _ _ (proj1 Hl) Hi) as Hok.
  destruct (free_in_section_spec ms bit p Hok Hp Hs) as (ms1 & E & Hf & Epg).
  exists (set_page ms1 bit zero_page). unfold free_and_clear, get_page. cbn [fst snd]. rewrite Hi.
  destruct Hp as (Hb & Hlk & Hh). rewrite Hlk. destruct (Z.leb_spec 0 bit); [|lia]. cbn [obind].
  rewrite E. cbn [obind]. rewrite list_lookup_insert_eq by (by eapply lookup_lt_Some).
  rewrite list_insert_insert_eq. split; [done|]. split; [done|].
  eapply table_ok_insert; [done|done|by eapply (freed_ok ms)|apply Hf..].
Qed.

Lemma page_va_in_section ms bit p :
  section_ok ms -> head_at ms bit p -> vir_base ms <= page_va p < vir_end ms.
Proof.
  intros Hok Hp. unfold page_va, ptov. rewrite (head_pa _ _ _ Hok Hp).
  destruct (so_head _ Hok bit p Hp) as (? & ? & _). pose proof (proj1 Hp).
  destruct (so_virt _ Hok) as [-> ?]. lia.
Qed.

Lemma free_pages_page_spec l i ms bit p :
  table_ok l -> l !! i = Some ms -> head_at ms bit p -> is_slab p = false ->
  exists ms', __free_pages l (i, bit) = Ret (0, <[i := ms']> l) /\
    free_pages l (page_va p) = Ret (0, <[i := ms']> l) /\
    freed ms ms' bit p /\ table_ok (<[i := ms']> l).
Proof.
  intros Hl Hi Hp Hs. pose proof (Forall_lookup_1 _ _ _ _ (proj1 Hl) Hi) as Hok.
  destruct (free_ref_spec l i ms bit p Hl Hi Hp Hs) as (ms' & E & Hf & Hl'). exists ms'.
  pose proof (page_va_in_section _ _ _ Hok Hp) as Hva.
  pose proof (addr_to_section l _ i ms Hl Hi Hva) as Ea.
  assert (Hget : get_page l (i, bit) = Ret p).
  { unfold get_page. cbn [fst snd]. destruct Hp as (Hb & Hlk & _). rewrite Hi, Hlk. by destruct (Z.leb_spec 0 bit); [|lia]. }
  split; [unfold __free_pages; rewrite Hget; cbn [obind]; rewrite Ea; cbn [obind]; by rewrite E|].
  split; [|done]. unfold free_pages. rewrite Ea. unfold page_va, ptov in *. rewrite (head_pa _ _ _ Hok Hp) in *.
  destruct (so_base _ Hok) as (H1 & H2 & H3). destruct (so_virt _ Hok) as [E1 E2]. pose proof (proj1 Hp) as Hb0.
  destruct (so_head _ Hok bit p Hp) as (? & ? & _).
  unfold is_kva. destruct (Z.leb_spec 4096 (phy_base ms + 4096 * bit)); [|Z.div_mod_to_equations; lia].
  cbn [assert obind]. rewrite IS_PAGE_ALIGN_spec.
  replace ((phy_base ms + 4096 * bit) mod 4096) with 0 by (Z.div_mod_to_equations; lia).
  cbn [Z.eqb negb]. unfold get_page_in_section. rewrite Hi. cbn [obind]. rewrite E1.
  replace (phy_base ms + 4096 * bit - phy_base ms) with (bit * 4096) by lia.
  rewrite (wrap_small 64 (bit * 4096)), shiftr_PAGE, Z.div_mul by lia. rewrite Hget. cbn [obind].
  change PAGE_F_SLAB with (2 ^ 5). rewrite land_bit_testbit by done. unfold is_slab in Hs. rewrite Hs.
  by rewrite E.
Qed.

(** Allocation over the table: the first section with room serves the request. *)
Lemma alloc_from_table_spec l i0 npages align flags :
  Forall section_ok l -> 0 < npages < 2 ^ 16 ->
  alloc_pages_from_section l i0 npages align flags = Panic \/
  alloc_pages_from_section l i0 npages align flags = Ret (None, l) \/
  exists i ms ms' bit, l !! i = Some ms /\
    alloc_pages_from_section l i0 npages align flags = Ret (Some ((i0 + i)%nat, bit), <[i := ms']> l) /\
    allocated ms ms' bit npages flags /\ section_ok ms' /\ zero_area (bitmap ms) npages bit /\
    aligned_for npages align bit /\ 0 <= bit /\ bit + npages <= total_cnt ms.
Proof.
  intros Hl Hn. revert i0. induction Hl as [|s l Hs Hl IH]; intros i0; [by right; left|].
  cbn [alloc_pages_from_section]. specialize (IH (S i0)).
  assert (Hcont : forall o, o = (let* (r, l') := alloc_pages_from_section l (S i0) npages align flags in
      Ret (r, s :: l')) ->
    o = Panic \/ o = Ret (None, s :: l) \/
    exists i ms ms' bit, (s :: l) !! i = Some ms /\
      o = Ret (Some ((i0 + i)%nat, bit), <[i := ms']> (s :: l)) /\
      allocated ms ms' bit npages flags /\ section_ok ms' /\ zero_area (bitmap ms) npages bit /\
      aligned_for npages align bit /\ 0 <= bit /\ bit + npages <= total_cnt ms).
  { intros o ->. destruct IH as [->|[->|(i & ms & ms' & bit & Hi & -> & H)]]; cbn [obind]; auto.
    right. right. exists (S i), ms, ms', bit. split; [done|].
    split; [by replace (S i0 + i)%nat with (i0 + S i)%nat by lia|done]. }
  destruct (free_cnt s <? npages); [by apply Hcont|].
  destruct (alloc_from_section_spec s npages align flags Hs Hn)
    as [[-> _]|(bit & H0 & H1 & H2 & H3 & [(_ & _ & ->)|(ms' & -> & Ha & Hok)])]; cbn [obind];
    [by apply Hcont|by left|].
  right. right. exists 0%nat, s, ms', bit. split; [done|]. rewrite Nat.add_0_r. done.
Qed.

Lemma __alloc_pages_spec l npages align flags :
  table_ok l -> 0 < npages < 2 ^ 16 ->
  __alloc_pages l npages align flags = Panic \/
  __alloc_pages l npages align flags = Ret (None, l) \/
  exists i ms ms' bit, l !! i = Some ms /\
    __alloc_pages l npages align flags = Ret (Some (i, bit), <[i := ms']> l) /\
    allocated ms ms' bit npages (Z.land flags PAGE_F_MASK) /\ zero_area (bitmap ms) npages bit /\
    aligned_for npages align bit /\ 0 <= bit /\ bit + npages <= total_cnt ms /\
    table_ok (<[i := ms']> l) /\ head_at ms' bit (alloc_head ms bit npages (Z.land flags PAGE_F_MASK)).
Proof.
  intros Hl Hn. unfold __alloc_pages. destruct (_ || _); [by right; left|].
  destruct (alloc_from_table_spec l 0 npages align (Z.land flags PAGE_F_MASK) (proj1 Hl) Hn)
    as [->|[->|(i & ms & ms' & bit & Hi & -> & Ha & Hok & Hz & Hal & H0 & H1)]]; auto.
  right. right. exists i, ms, ms', bit. cbn [Nat.add]. split_and!; try done.
  - eapply table_ok_insert; [done|done|done|apply Ha|apply Ha].
  - split; [done|]. destruct Ha as (_ & -> & _). split; [|apply alloc_head_is_head].
    apply list_lookup_insert_eq. pose proof (Forall_lookup_1 _ _ _ _ (proj1 Hl) Hi) as Hs.
    pose proof (so_pages _ Hs). lia.
Qed.

Lemma alloc_head_slab ms bit n flags :
  is_slab (alloc_head ms bit n (Z.land flags PAGE_F_MASK)) = Z.testbit flags 5.
Proof.
  unfold is_slab. cbn [pg_flags alloc_head]. rewrite Z.land_spec, Z.lor_spec, Z.land_spec.
  change (Z.testbit PAGE_F_HEAD 5) with false. change (Z.testbit PAGE_F_MASK 5) with true.
  change (Z.testbit 65535 5) with true. by rewrite orb_false_r, !andb_true_r.
Qed.

(** One operation of a client of the allocator: the released page is the head of
    an allocated run that is not slab memory. *)
Inductive page_step : list mem_section -> list mem_section -> Prop :=
| step_alloc l l' npages align flags r :
    0 < npages < 2 ^ 16 -> __alloc_pages l npages align flags = Ret (r, l') -> page_step l l'
| step_free l l' i ms bit p ret :
    l !! i = Some ms -> head_at ms bit p -> is_slab p = false ->
    __free_pages l (i, bit) = Ret (ret, l') -> page_step l l'.

(** ** Properties *)

(** C12: one call of [__alloc_pages_from_section] on a page section below 4 GiB either reports
    failure, and then no aligned run of [count] free pages exists and nothing
    changed; or it finds such a run.  In the latter case it marks exactly the
    pages of the run, writes the head descriptor, subtracts [count] from the free
    count and keeps the section's invariant - unless the run ends at the last
    page of the section, where the [ASSERT] on [bm_current] stops the kernel. *)
Theorem alloc_pages_section_correct ms count align flags :
  section_ok ms -> 0 < count < 2 ^ 16 ->
  (__alloc_pages_from_section ms count align flags = Ret (None, ms) /\
   forall r, 0 <= r -> r + count <= total_cnt ms -> aligned_for count align r ->
     ~ zero_area (bitmap ms) count r) \/
  (exists bit, 0 <= bit /\ bit + count <= total_cnt ms /\ aligned_for count align bit /\
     zero_area (bitmap ms) count bit /\
     ((bit + count = total_cnt ms /\ (count = 1 \/ align = 1) /\
       __alloc_pages_from_section ms count align flags = Panic) \/
      (exists ms', __alloc_pages_from_section ms count align flags = Ret (Some bit, ms') /\
         allocated ms ms' bit count flags /\ section_ok ms'))).
Proof. apply alloc_from_section_spec. Qed.

(** A fresh section of 8 pages at [0x40000000]. *)
Definition small_section : mem_section :=
  mk_section false 0x40000000 0x40000000 0x40008000 0x8000 8 8 [0] 8 0 [] 0 0 0
    (replicate 8 zero_page).

Lemma small_section_ok : section_ok small_section.
Proof.
  assert (Hnh : forall i p, ~ head_at small_section i p).
  { intros i p (_ & Hl & Hh). cbn [small_section pages] in Hl.
    apply lookup_replicate in Hl as [-> _]. by vm_compute in Hh. }
  split; cbn [small_section block_section bitmap total_cnt pages bm_current free_cnt phy_base
    vir_base vir_end].
  - reflexivity.
  - split; [|reflexivity]. repeat constructor; unfold is_word; lia.
  - cbn. lia.
  - cbn. lia.
  - lia.
  - reflexivity.
  - split; [lia|]. split; [reflexivity|lia].
  - split; [reflexivity|lia].
  - intros i p Hp. by apply Hnh in Hp.
  - intros i j p q Hp. by apply Hnh in Hp.
  - intros k Hk Hb. unfold bit_at in Hb. destruct (_ !! _) as [w|] eqn:E; [|done].
    apply list_lookup_singleton_Some in E as [_ <-]. by rewrite Z.testbit_0_l, andb_false_r in Hb.
  - intros i p Hl _. by apply lookup_replicate in Hl as [-> _].
Qed.

Lemma alloc_pages_section_correct_witness :
  exists bit ms', __alloc_pages_from_section small_section 4 4 1 = Ret (Some bit, ms') /\
    allocated small_section ms' bit 4 1.
Proof.
  destruct (alloc_pages_section_correct small_section 4 4 1 small_section_ok ltac:(lia))
    as [[H _]|(bit & _ & _ & _ & _ & [(_ & _ & H)|(ms' & H & Ha & _)])].
  - vm_compute in H. discriminate H.
  - vm_compute in H. discriminate H.
  - exists bit, ms'. split; [exact H|exact Ha].
Defined.

(** A page of the bitmap that is clear has no descriptor. *)
Lemma free_page_blank ms bit : section_ok ms -> 0 <= bit < total_cnt ms -> bit_at (bitmap ms) bit = false ->
  pages ms !! Z.to_nat bit = Some zero_page.
Proof.
  intros Hok Hb Hz. pose proof (so_pages _ Hok). destruct (lookup_lt_is_Some_2 (pages ms) (Z.to_nat bit)) as [p Hp]; [lia|].
  rewrite Hp. f_equal. apply (so_blank _ Hok (Z.to_nat bit)); [done|]. apply not_true_is_false. intros Hh.
  destruct (so_head _ Hok bit p) as (Hc & _ & _ & Hset); [by split; [lia|]|]. rewrite Hset in Hz by lia. done.
Qed.


Lemma small_table_ok : table_ok [small_section].
Proof.
  split; [apply Forall_singleton, small_section_ok|].
  intros [|i] [|j] a si sj Hi Hj Hne; done.
Qed.




(** A page run handed out while another one is still allocated does not
    overlap it. *)
Theorem alloc_pages_disjoint l n1 a1 f1 i1 b1 l1 n2 a2 f2 b2 l2 :
  table_ok l -> 0 < n1 < 2 ^ 16 -> 0 < n2 < 2 ^ 16 ->
  __alloc_pages l n1 a1 f1 = Ret (Some (i1, b1), l1) ->
  __alloc_pages l1 n2 a2 f2 = Ret (Some (i1, b2), l2) ->
  b1 + n1 <= b2 \/ b2 + n2 <= b1.
Proof.
  intros Hl Hn1 Hn2 E1 E2.
  destruct (__alloc_pages_spec l n1 a1 f1 Hl Hn1)
    as [E'|[E'|(i & ms & ms' & bit & Hi & E' & Ha & _ & _ & H0 & _ & Hl1 & _)]];
    rewrite E' in E1; simplify_eq.
  destruct (__alloc_pages_spec _ n2 a2 f2 Hl1 Hn2)
    as [E''|[E''|(j & ns & ns' & bit' & Hj & E'' & _ & Hz & _ & H0' & _)]];
    rewrite E'' in E2; simplify_eq.
  rewrite list_lookup_insert_eq in Hj by (by eapply lookup_lt_Some). injection Hj as <-.
  destruct (decide (b1 + n1 <= b2 \/ b2 + n2 <= b1)) as [|Hn]; [done|exfalso].
  destruct Ha as ((_ & _ & Ha) & _). specialize (Hz (Z.max b1 b2) ltac:(lia)).
  rewrite Ha in Hz by lia. revert Hz. case_bools; done.
Qed.

Lemma alloc_pages_disjoint_witness : 0 + 3 <= 3 \/ 3 + 2 <= 0.
Proof.
  set (l1 := match __alloc_pages [small_section] 3 1 2 with Ret (_, l) => l | _ => [] end).
  set (l2 := match __alloc_pages l1 2 1 2 with Ret (_, l) => l | _ => [] end).
  exact (alloc_pages_disjoint [small_section] 3 1 2 0%nat 0 l1 2 1 2 3 l2 small_table_ok
    ltac:(lia) ltac:(lia) ltac:(vm_compute; reflexivity) ltac:(vm_compute; reflexivity)).
Defined.

(** ** Where the code departs from its intent *)

(** Eight free pages cannot be allocated from a section of eight: the
    [ASSERT(bm_current < total_cnt)] fires before the wrap-around to 0 that follows
    it, so the run that ends at the last page stops the kernel. *)
Theorem alloc_last_page_panics :
  free_cnt small_section = 8 /\ __alloc_pages [small_section] 8 1 1 = Panic.
Proof. split; vm_compute; reflexivity. Qed.

(** The same section at 4 GiB. *)
Definition high_section : mem_section :=
  mk_section false 0x100000000 0x100000000 0x100008000 0x8000 8 8 [0] 8 0 [] 0 0 0
    (replicate 8 zero_page).

(** [page_pa] shifts the 32-bit [pfn], so the address of a page at 4 GiB is
    truncated to 0: [__get_free_pages] hands out the null pointer, and
    [__free_pages] of the allocated page does not find the section. *)
Theorem page_pa_truncates_above_4g :
  value (__get_free_pages [high_section] 1 1 1) = Ret 0 /\
  value (__alloc_pages [high_section] 1 1 1) = Ret (Some (0%nat, 0)) /\
  value (let* (_, l) := __alloc_pages [high_section] 1 1 1 in __free_pages l (0%nat, 0)) =
    Ret (- EFAULT).
Proof. split_and!; vm_compute; reflexivity. Qed.

(** A fresh block-aligned section of two blocks at [0x40000000]. *)
Definition two_blocks : mem_section :=
  mk_section true 0x40000000 0x40000000 0x40400000 0x400000 1024 1024 (replicate 16 0) 1024 0
    [0] 2 0 2 (replicate 1024 zero_page).

(** [alloc_pages_in_block] computes the block index as [base - start] instead
    of [base - phy_base]; for a page that is not the first of its block the
    difference wraps around and [bitmap_set] writes far outside of the block
    bitmap, here on the second page of a fresh section. *)
Theorem alloc_second_page_of_block_faults :
  value (__alloc_pages [two_blocks] 1 1 1) = Ret (Some (0%nat, 0)) /\
  (let* (_, l) := __alloc_pages [two_blocks] 1 1 1 in __alloc_pages l 1 1 1) = Fault.
Proof. split; vm_compute; reflexivity. Qed.

(** [get_free_block_from_section] passes the current position as the size and
    the number of blocks as the offset of the search; with position 0 the search
    always answers 0, and the block whose first page is in use is handed out. *)
Theorem get_free_block_reuses_pages :
  value (__get_free_pages [two_blocks] 1 1 1) = Ret 0x40000000 /\
  value (let* (_, l) := __get_free_pages [two_blocks] 1 1 1 in get_free_block l 1) =
    Ret 0x40000000.
Proof. split; vm_compute; reflexivity. Qed.
