(* ===== verification/KPages.v ===== *)
(** * Pages for kernel structures

    The interface through which the rest of the kernel obtains single pages
    ([get_free_page] of [include/minos/page.h]) and finds the descriptor of a page
    ([addr_to_page]), and the proof that the page allocator of [core/page.c]
    implements it. *)

From S2P Require Import Prelude Types Bits Bitmap Page.

Definition GFP_KERNEL : Z := 0x1.
Definition GFP_USER : Z := 0x2.

(** What the users of single pages rely on: a page is new, aligned and in the
    memory the kernel can address; the only other outcomes are [NULL] and a kernel
    that stops.  [kp_live a v] says that the page at [v] is handed out. *)
Class KPages (A : Type) := {
  get_free_page : A -> Z -> outcome (Z * A);
  has_page : A -> Z -> bool;
  kp_ok : A -> Prop;
  kp_live : A -> Z -> Prop;
  get_free_page_ends a f : kp_ok a ->
    get_free_page a f = Panic \/ exists r, get_free_page a f = Ret r;
  get_free_page_new a f v a' : kp_ok a -> get_free_page a f = Ret (v, a') ->
    (v = 0 /\ a' = a) \/
    (4096 <= v /\ v + 4096 <= 2 ^ 40 /\ v mod 4096 = 0 /\ ~ kp_live a v /\ kp_ok a' /\
     forall w, kp_live a' w <-> w = v \/ kp_live a w);
  has_page_live a v : kp_ok a -> kp_live a v -> has_page a v = true;
}.

(** ** The page allocator *)

(** The page at [v] has its bit set in the section that holds it. *)
Definition section_live (l : list mem_section) (v : Z) : Prop :=
  exists i ms bit, l !! i = Some ms /\ 0 <= bit < total_cnt ms /\
    bit_at (bitmap ms) bit = true /\ v = phy_base ms + 4096 * bit.

Definition section_has_page (l : list mem_section) (v : Z) : bool :=
  bool_decide (is_Some (addr_to_mem_section l 0 v)).

Lemma section_live_unique l v i j ms ms' b b' :
  table_ok l -> l !! i = Some ms -> l !! j = Some ms' ->
  0 <= b < total_cnt ms -> 0 <= b' < total_cnt ms' ->
  v = phy_base ms + 4096 * b -> v = phy_base ms' + 4096 * b' -> i = j.
Proof.
  intros [Hf Hd] Hi Hj Hb Hb' E E'.
  destruct (so_virt _ (Forall_lookup_1 _ _ _ _ Hf Hi)) as [Ev ?].
  destruct (so_virt _ (Forall_lookup_1 _ _ _ _ Hf Hj)) as [Ev' ?].
  destruct (decide (i = j)) as [|Hne]; [done|]. exfalso.
  apply (Hd i j v ms ms' Hi Hj Hne); rewrite ?Ev, ?Ev'; lia.
Qed.

Lemma section_has_live l v : table_ok l -> section_live l v -> section_has_page l v = true.
Proof.
  intros Hl (i & ms & b & Hi & Hb & _ & ->). apply bool_decide_eq_true.
  destruct (so_virt _ (Forall_lookup_1 _ _ _ _ (proj1 Hl) Hi)) as [Ev ?].
  rewrite (addr_to_section l _ i ms Hl Hi); [by eexists|lia].
Qed.

(** Marking the page [bit] of section [i] makes exactly that page live. *)
Lemma section_live_allocated l i ms ms' bit flags w :
  table_ok l -> l !! i = Some ms -> allocated ms ms' bit 1 flags -> 0 <= bit < total_cnt ms ->
  section_live (<[i := ms']> l) w <-> w = phy_base ms + 4096 * bit \/ section_live l w.
Proof.
  intros Hl Hi ((_ & _ & Hbits) & _ & _ & Et & Ep & _) Hbit.
  assert (Hi' : <[i := ms']> l !! i = Some ms').
  { apply list_lookup_insert_eq. by eapply lookup_lt_Some. }
  split.
  - intros (j & s & b & Hj & Hb & Hset & ->). destruct (decide (i = j)) as [<-|Hne].
    + rewrite Hi' in Hj. injection Hj as <-. rewrite Ep. rewrite Hbits in Hset by lia.
      destruct ((bit <=? b) && (b <? bit + 1)) eqn:E; bool_hyps; [left; lia|].
      right. exists i, ms, b. by rewrite <- Et.
    + rewrite list_lookup_insert_ne in Hj by done. right. by exists j, s, b.
  - intros [->|(j & s & b & Hj & Hb & Hset & ->)].
    + exists i, ms', bit. rewrite Et, Ep, Hbits by lia. split_and!; try done; try lia. by case_bools.
    + destruct (decide (i = j)) as [<-|Hne].
      * rewrite Hi in Hj. injection Hj as <-. exists i, ms', b. rewrite Et, Ep, Hbits, Hset by lia.
        split_and!; try done; try lia. by destruct (_ && _).
      * exists j, s, b. by rewrite list_lookup_insert_ne by done.
Qed.

Lemma section_get_free_page_spec l f :
  table_ok l ->
  __get_free_pages l 1 1 f = Panic \/ __get_free_pages l 1 1 f = Ret (0, l) \/
  exists i ms ms' bit, l !! i = Some ms /\
    allocated ms ms' bit 1 (Z.land f PAGE_F_MASK) /\ 0 <= bit < total_cnt ms /\
    bit_at (bitmap ms) bit = false /\ table_ok (<[i := ms']> l) /\
    __get_free_pages l 1 1 f = Ret (phy_base ms + 4096 * bit, <[i := ms']> l).
Proof.
  intros Hl. unfold __get_free_pages.
  destruct (__alloc_pages_spec l 1 1 f Hl ltac:(lia))
    as [->|[->|(i & ms & ms' & bit & Hi & -> & Ha & Hz & _ & H0 & H1 & Hl' & Hh)]]; cbn [obind]; auto.
  right. right. exists i, ms, ms', bit. split_and!; try done; try lia; [apply Hz; lia|].
  assert (Hi' : <[i := ms']> l !! i = Some ms').
  { apply list_lookup_insert_eq. by eapply lookup_lt_Some. }
  pose proof (Forall_lookup_1 _ _ _ _ (proj1 Hl') Hi') as Hok'.
  unfold get_page. cbn [fst snd]. destruct (id Hh) as (_ & Hp & _). rewrite Hi', Hp.
  destruct (Z.leb_spec 0 bit); [|lia]. cbn [obind]. unfold page_va, ptov.
  rewrite (head_pa _ _ _ Hok' Hh). by destruct Ha as (_ & _ & _ & _ & -> & _).
Qed.

#[export] Program Instance section_pages : KPages (list mem_section) := {
  get_free_page l f := __get_free_pages l 1 1 f;
  has_page := section_has_page;
  kp_ok := table_ok;
  kp_live := section_live;
}.
Next Obligation.
  intros l f Hl. destruct (section_get_free_page_spec l f Hl)
    as [->|[->|(i & ms & ms' & bit & _ & _ & _ & _ & _ & ->)]]; eauto.
Qed.
Next Obligation.
  intros l f v l' Hl E. destruct (section_get_free_page_spec l f Hl)
    as [E'|[E'|(i & ms & ms' & bit & Hi & Ha & Hb & Hfree & Hl' & E')]];
    rewrite E in E'; [done|injection E' as -> ->; by left|injection E' as -> ->].
  right. pose proof (Forall_lookup_1 _ _ _ _ (proj1 Hl) Hi) as Hok.
  destruct (so_base _ Hok) as (? & ? & ?). split_and!; try (Z.div_mod_to_equations; lia); try done.
  - intros (j & s & b & Hj & Hbj & Hset & Ev).
    pose proof (section_live_unique l _ i j ms s bit b Hl Hi Hj Hb Hbj eq_refl Ev) as ->.
    rewrite Hi in Hj. injection Hj as <-. replace b with bit in Hset by lia. congruence.
  - intros w. by apply (section_live_allocated l i ms ms' bit (Z.land f PAGE_F_MASK)).
Qed.
Next Obligation. intros l v. apply section_has_live. Qed.
