(* ===== verification/Stage1.v ===== *)
(** * Stage-1 translation tables

    The host page tables of [arch/aarch64/core/stage1.c]: three levels of 512
    descriptors (PUD, PMD, PTE) for a 39-bit address space.  The table pages are a
    finite map from kernel addresses to their 512 descriptors; a pointer into a
    table is the address of the table and an index, and running past the last
    entry is a fault.  Table pages come from [KPages].  TLB and cache maintenance
    and barriers have no effect on the tables and are left out.

    The specification is the walk that the hardware does ([walk]): mapping a range
    changes the walk on exactly that range. *)

From S2P Require Import Prelude Types Bits Bitmap Page KPages.

(** ** Descriptors *)

Definition S1_PUD_SHIFT : Z := 30.
Definition S1_PUD_SIZE : Z := Z.shiftl 1 S1_PUD_SHIFT.
Definition S1_PMD_SHIFT : Z := 21.
Definition S1_PMD_SIZE : Z := Z.shiftl 1 S1_PMD_SHIFT.
Definition S1_PMD_MASK : Z := not64 (S1_PMD_SIZE - 1).
Definition S1_PTE_SHIFT : Z := 12.
Definition S1_PTE_SIZE : Z := Z.shiftl 1 S1_PTE_SHIFT.
Definition S1_PTE_MASK : Z := not64 (S1_PTE_SIZE - 1).
Definition S1_PHYSICAL_MASK : Z := 0x0000fffffffff000.
Definition S1_PHYSICAL_MAX : Z := Z.shiftl 1 40.
Definition S1_VIRT_MAX : Z := Z.shiftl 1 39.

Definition S1_DES_BLOCK : Z := 1.
Definition S1_DES_TABLE : Z := 3.
Definition S1_DES_PAGE : Z := 3.
Definition S1_TABLE_UAP : Z := Z.shiftl 1 61.
Definition S1_TABLE_UXN : Z := Z.shiftl 1 60.
Definition S1_PXN : Z := Z.shiftl 1 53.
Definition S1_XN : Z := Z.shiftl 1 54.
Definition S1_PFNMAP : Z := Z.shiftl 1 55.
Definition S1_DEVMAP : Z := Z.shiftl 1 56.
Definition S1_SHARED : Z := Z.shiftl 1 57.
Definition S1_NS : Z := Z.shiftl 1 5.
Definition S1_AP_RW : Z := Z.shiftl 0 6.
Definition S1_AP_RW_URW : Z := Z.shiftl 1 6.
Definition S1_AP_RO : Z := Z.shiftl 2 6.
Definition S1_AP_RO_URO : Z := Z.shiftl 3 6.
Definition S1_SH_INNER : Z := Z.shiftl 3 8.
Definition S1_AF : Z := Z.shiftl 1 10.
Definition S1_nG : Z := Z.shiftl 1 11.
Definition S1_ATTR_IDX (n : Z) : Z := Z.shiftl (Z.land n 0xf) 2.
Definition MT_DEVICE_nGnRnE : Z := 0.
Definition MT_NORMAL_NC : Z := 3.
Definition MT_NORMAL : Z := 4.
Definition MT_NORMAL_WT : Z := 5.

(** [S1_PAGE_*] and [S1_BLOCK_*] are this with the descriptor type and the memory type. *)
Definition s1_leaf (des mt : Z) : Z :=
  Z.lor (Z.lor (Z.lor (Z.lor des S1_AF) S1_NS) S1_SH_INNER) (S1_ATTR_IDX mt).
Definition S1_PAGE_NORMAL : Z := s1_leaf S1_DES_PAGE MT_NORMAL.
Definition S1_PAGE_DEVICE : Z := s1_leaf S1_DES_PAGE MT_DEVICE_nGnRnE.
Definition S1_PAGE_NORMAL_NC : Z := s1_leaf S1_DES_PAGE MT_NORMAL_NC.
Definition S1_PAGE_WT : Z := s1_leaf S1_DES_PAGE MT_NORMAL_WT.
Definition S1_BLOCK_NORMAL : Z := s1_leaf S1_DES_BLOCK MT_NORMAL.
Definition S1_BLOCK_DEVICE : Z := s1_leaf S1_DES_BLOCK MT_DEVICE_nGnRnE.
Definition S1_BLOCK_NORMAL_NC : Z := s1_leaf S1_DES_BLOCK MT_NORMAL_NC.
Definition S1_BLOCK_WT : Z := s1_leaf S1_DES_BLOCK MT_NORMAL_WT.

(** Memory attributes of [include/minos/memattr.h]. *)
Definition __VM_IO : Z := 0x00000001.
Definition __VM_NORMAL : Z := 0x00000002.
Definition __VM_NORMAL_NC : Z := 0x00000004.
Definition __VM_WT : Z := 0x00000008.
Definition __VM_PFNMAP : Z := 0x00000100.
Definition __VM_HUGE_2M : Z := 0x00000200.
Definition __VM_DEVMAP : Z := 0x00000800.
Definition __VM_SHARED : Z := 0x00001000.
Definition __VM_HOST : Z := 0x00002000.
Definition __VM_PMA : Z := 0x00010000.
Definition __VM_READ : Z := 0x00100000.
Definition __VM_WRITE : Z := 0x00200000.
Definition __VM_EXEC : Z := 0x00400000.
Definition __VM_RO : Z := __VM_READ.
Definition VM_TYPE_MASK : Z := Z.lor (Z.lor (Z.lor __VM_IO __VM_NORMAL) __VM_NORMAL_NC) __VM_WT.
Definition VM_RW_MASK : Z := Z.lor __VM_READ __VM_WRITE.

(** [flags & bit], as a condition. *)
Definition has_flag (flags bit : Z) : bool := negb (Z.land flags bit =? 0).

Definition stage1_pud_index (addr : Z) : Z := Z.land (Z.shiftr addr S1_PUD_SHIFT) (512 - 1).
Definition stage1_pmd_index (addr : Z) : Z := Z.land (Z.shiftr addr S1_PMD_SHIFT) (512 - 1).
Definition stage1_pte_index (addr : Z) : Z := Z.land (Z.shiftr addr S1_PTE_SHIFT) (512 - 1).
Definition stage1_pmd_huge (pmd : Z) : bool := negb (pmd =? 0) && (Z.land pmd 0x03 =? S1_DES_BLOCK).
Definition stage1_pmd_table_addr (pud : Z) : Z := Z.land pud S1_PHYSICAL_MASK.
Definition stage1_pte_table_addr (pmd : Z) : Z := Z.land pmd S1_PHYSICAL_MASK.
Definition stage1_phy_pte (pte : Z) : Z := Z.land pte S1_PHYSICAL_MASK.

Definition stage1_xxx_addr_end (start end_ map_size : Z) : Z :=
  let boundary := Z.land (u64 (start + map_size)) (not64 (map_size - 1)) in
  if u64 (boundary - 1) <? u64 (end_ - 1) then boundary else end_.

(** The attribute bits that [stage1_pmd_attr] and [stage1_pte_attr] have in common. *)
Definition stage1_attr (desc flags : Z) : Z :=
  let desc :=
    if has_flag flags __VM_HOST then
      if Z.land flags VM_RW_MASK =? __VM_RO then Z.lor desc S1_AP_RO else Z.lor desc S1_AP_RW
    else
      let desc := Z.lor desc S1_nG in
      if Z.land flags VM_RW_MASK =? __VM_RO then Z.lor desc S1_AP_RO_URO
      else Z.lor desc S1_AP_RW_URW in
  let desc := if has_flag flags __VM_EXEC then desc else Z.lor desc (Z.lor S1_XN S1_PXN) in
  let desc := if has_flag flags __VM_PFNMAP then Z.lor desc S1_PFNMAP else desc in
  let desc := if has_flag flags __VM_DEVMAP then Z.lor desc S1_DEVMAP else desc in
  if has_flag flags (Z.lor __VM_SHARED __VM_PMA) then Z.lor desc S1_SHARED else desc.

Definition stage1_pmd_attr (phy flags : Z) : Z :=
  let pmd := Z.land phy S1_PMD_MASK in
  let type := Z.land flags VM_TYPE_MASK in
  let pmd := Z.lor pmd
    (if type =? __VM_NORMAL_NC then S1_BLOCK_NORMAL_NC
     else if type =? __VM_IO then S1_BLOCK_DEVICE
     else if type =? __VM_WT then S1_BLOCK_WT
     else S1_BLOCK_NORMAL) in
  stage1_attr pmd flags.

Definition stage1_pte_attr (phy flags : Z) : Z :=
  let pte := Z.land phy S1_PTE_MASK in
  let type := Z.land flags VM_TYPE_MASK in
  let pte := Z.lor pte
    (if type =? __VM_NORMAL_NC then S1_PAGE_NORMAL_NC
     else if type =? __VM_IO then S1_PAGE_DEVICE
     else if type =? __VM_WT then S1_PAGE_WT
     else S1_PAGE_NORMAL) in
  stage1_attr pte flags.

(** ** Tables *)

(** The tables of one address space ([pgdp] is the root), the pages its unmapped
    ranges give back ([release_pages], last one first) and the page allocator. *)
Record vspace (A : Type) := mk_vspace {
  tables : gmap Z (list Z);
  pgdp : Z;
  release_pages : list Z;
  vs_pages : A;
}.
Arguments mk_vspace {A}.
Arguments tables {A}.
Arguments pgdp {A}.
Arguments release_pages {A}.
Arguments vs_pages {A}.

Section stage1.
Context {A : Type} `{KPages A}.

Definition set_tables (vs : vspace A) (t : gmap Z (list Z)) : vspace A :=
  mk_vspace t (pgdp vs) (release_pages vs) (vs_pages vs).

(** [table[idx]]. *)
Definition read_entry (vs : vspace A) (table idx : Z) : outcome Z :=
  match tables vs !! table with
  | Some t => match t !! Z.to_nat idx with Some e => Ret e | None => Fault end
  | None => Fault
  end.

(** [stage1_set_pud], [stage1_set_pmd], [stage1_set_pte] and [stage1_pmd_clear]. *)
Definition set_entry (vs : vspace A) (table idx e : Z) : outcome (vspace A) :=
  match tables vs !! table with
  | Some t =>
      if (Z.to_nat idx <? length t)%nat
      then Ret (set_tables vs (<[table := <[Z.to_nat idx := e]> t]> (tables vs)))
      else Fault
  | None => Fault
  end.

(** [stage1_pud_populate] and [stage1_pmd_populate]. *)
Definition stage1_populate (vs : vspace A) (table idx addr flags : Z) : outcome (vspace A) :=
  let attrs := if has_flag flags __VM_HOST
               then Z.lor S1_DES_TABLE (Z.lor S1_TABLE_UAP S1_TABLE_UXN) else S1_DES_TABLE in
  set_entry vs table idx (Z.lor (vtop addr) attrs).

(** [stage1_get_free_page] and the [memset] of the new table. *)
Definition new_table (vs : vspace A) : outcome (Z * vspace A) :=
  let* (v, a) := get_free_page (vs_pages vs) GFP_KERNEL in
  if v =? 0 then Ret (0, mk_vspace (tables vs) (pgdp vs) (release_pages vs) a)
  else Ret (v, mk_vspace (<[v := replicate 512 0]> (tables vs)) (pgdp vs) (release_pages vs) a).

Definition add_release_page (vs : vspace A) (addr : Z) : outcome (vspace A) :=
  check has_page (vs_pages vs) addr in
  Ret (mk_vspace (tables vs) (pgdp vs) (addr :: release_pages vs) (vs_pages vs)).

(** ** Mapping *)

Fixpoint map_pte_loop (n : nat) (vs : vspace A) (ptep idx start end_ physical pte_attr : Z)
    : outcome (Z * vspace A) :=
  match n with
  | O => OutOfFuel
  | S n =>
      let* old_pte := read_entry vs ptep idx in
      let* vs := set_entry vs ptep idx (Z.lor pte_attr physical) in
      let start := u64 (start + PAGE_SIZE) in
      let physical := u64 (physical + PAGE_SIZE) in
      if start =? end_ then Ret (0, vs)
      else map_pte_loop n vs ptep (idx + 1) start end_ physical pte_attr
  end.

(** A table has 512 entries, so 513 rounds suffice for every loop over a table. *)
Definition stage1_map_pte_range (vs : vspace A) (ptep start end_ physical flags : Z)
    : outcome (Z * vspace A) :=
  map_pte_loop 513 vs ptep (stage1_pte_index start) start end_ physical (stage1_pte_attr 0 flags).

Definition stage1_pmd_huge_page (old_pmd start phy size flags : Z) : bool :=
  if negb (has_flag flags __VM_HUGE_2M) || negb (old_pmd =? 0) then false else
  if negb (IS_BLOCK_ALIGN start) || negb (IS_BLOCK_ALIGN phy) || negb (IS_BLOCK_ALIGN size)
  then false else true.

(** One round of [stage1_map_pmd_range]. *)
Definition map_pmd_entry (vs : vspace A) (pmdp idx start next physical flags : Z)
    : outcome (Z * vspace A) :=
  let size := u64 (next - start) in
  let* old_pmd := read_entry vs pmdp idx in
  if stage1_pmd_huge_page old_pmd start physical size flags then
    let* vs := set_entry vs pmdp idx (stage1_pmd_attr physical flags) in Ret (0, vs)
  else if old_pmd =? 0 then
    let* (ptep, vs) := new_table vs in
    if ptep =? 0 then Ret (- ENOMEM, vs) else
    let* vs := stage1_populate vs pmdp idx ptep flags in
    stage1_map_pte_range vs ptep start next physical flags
  else stage1_map_pte_range vs (ptov (stage1_pte_table_addr old_pmd)) start next physical flags.

Fixpoint map_pmd_loop (n : nat) (vs : vspace A) (pmdp idx start end_ physical flags : Z)
    : outcome (Z * vspace A) :=
  match n with
  | O => OutOfFuel
  | S n =>
      let next := stage1_xxx_addr_end start end_ S1_PMD_SIZE in
      let* (ret, vs) := map_pmd_entry vs pmdp idx start next physical flags in
      if negb (ret =? 0) then Ret (ret, vs) else
      let physical := u64 (physical + u64 (next - start)) in
      if next =? end_ then Ret (0, vs)
      else map_pmd_loop n vs pmdp (idx + 1) next end_ physical flags
  end.

Definition stage1_map_pmd_range (vs : vspace A) (pmdp start end_ physical flags : Z)
    : outcome (Z * vspace A) :=
  map_pmd_loop 513 vs pmdp (stage1_pmd_index start) start end_ physical flags.

(** One round of [stage1_map_pud_range]. *)
Definition map_pud_entry (vs : vspace A) (idx start next physical flags : Z)
    : outcome (Z * vspace A) :=
  let* pud := read_entry vs (pgdp vs) idx in
  if pud =? 0 then
    let* (pmdp, vs) := new_table vs in
    if pmdp =? 0 then Ret (- ENOMEM, vs) else
    let* vs := stage1_populate vs (pgdp vs) idx pmdp flags in
    stage1_map_pmd_range vs pmdp start next physical flags
  else stage1_map_pmd_range vs (ptov (stage1_pmd_table_addr pud)) start next physical flags.

Fixpoint map_pud_loop (n : nat) (vs : vspace A) (idx start end_ physical flags : Z)
    : outcome (Z * vspace A) :=
  match n with
  | O => OutOfFuel
  | S n =>
      let next := stage1_xxx_addr_end start end_ S1_PUD_SIZE in
      let* (ret, vs) := map_pud_entry vs idx start next physical flags in
      if negb (ret =? 0) then Ret (ret, vs) else
      let physical := u64 (physical + u64 (next - start)) in
      if next =? end_ then Ret (0, vs)
      else map_pud_loop n vs (idx + 1) next end_ physical flags
  end.

Definition stage1_map_pud_range (vs : vspace A) (start end_ physical flags : Z)
    : outcome (Z * vspace A) :=
  map_pud_loop 513 vs (stage1_pud_index start) start end_ physical flags.

Definition arch_host_map (vs : vspace A) (start end_ physical flags : Z) : outcome (Z * vspace A) :=
  if end_ =? start then Ret (- EINVAL, vs) else
  check (start <? S1_VIRT_MAX) && (end_ <=? S1_VIRT_MAX) in
  check physical <? S1_PHYSICAL_MAX in
  check IS_PAGE_ALIGN start && IS_PAGE_ALIGN end_ && IS_PAGE_ALIGN physical in
  stage1_map_pud_range vs start end_ physical flags.

(** ** Unmapping *)

(** The frame of a leaf descriptor is given back unless it is shared or foreign memory. *)
Definition release_leaf (vs : vspace A) (old : Z) : outcome (vspace A) :=
  if (Z.land old S1_PFNMAP =? 0) && (Z.land old S1_SHARED =? 0)
  then add_release_page vs (ptov (stage1_phy_pte old)) else Ret vs.

Fixpoint unmap_pte_loop (n : nat) (vs : vspace A) (ptep idx addr end_ : Z) : outcome (vspace A) :=
  match n with
  | O => OutOfFuel
  | S n =>
      let* pte := read_entry vs ptep idx in
      let* vs := if negb (pte =? 0) then
                   let* vs := set_entry vs ptep idx 0 in release_leaf vs pte
                 else Ret vs in
      let addr := u64 (addr + PAGE_SIZE) in
      if addr =? end_ then Ret vs else unmap_pte_loop n vs ptep (idx + 1) addr end_
  end.

Definition stage1_unmap_pte_range (vs : vspace A) (ptep addr end_ : Z) : outcome (vspace A) :=
  unmap_pte_loop 513 vs ptep (stage1_pte_index addr) addr end_.

(** One round of [stage1_unmap_pmd_range]. *)
Definition unmap_pmd_entry (vs : vspace A) (pmdp idx addr next : Z) : outcome (vspace A) :=
  let* pmd := read_entry vs pmdp idx in
  if pmd =? 0 then Ret vs else
  if stage1_pmd_huge pmd then
    let* vs := set_entry vs pmdp idx 0 in release_leaf vs pmd
  else
    let ptep := ptov (stage1_pte_table_addr pmd) in
    let* vs := stage1_unmap_pte_range vs ptep addr next in
    if u64 (next - addr) =? S1_PMD_SIZE then add_release_page vs ptep else Ret vs.

Fixpoint unmap_pmd_loop (n : nat) (vs : vspace A) (pmdp idx addr end_ : Z) : outcome (vspace A) :=
  match n with
  | O => OutOfFuel
  | S n =>
      let next := stage1_xxx_addr_end addr end_ S1_PMD_SIZE in
      let* vs := unmap_pmd_entry vs pmdp idx addr next in
      if next =? end_ then Ret vs else unmap_pmd_loop n vs pmdp (idx + 1) next end_
  end.

Definition stage1_unmap_pmd_range (vs : vspace A) (pmdp addr end_ : Z) : outcome (vspace A) :=
  unmap_pmd_loop 513 vs pmdp (stage1_pmd_index addr) addr end_.

(** One round of [stage1_unmap_pud_range]. *)
Definition unmap_pud_entry (vs : vspace A) (idx addr next : Z) : outcome (vspace A) :=
  let* pud := read_entry vs (pgdp vs) idx in
  if pud =? 0 then Ret vs else
  let pmdp := ptov (stage1_pmd_table_addr pud) in
  let* vs := stage1_unmap_pmd_range vs pmdp addr next in
  if u64 (next - addr) =? S1_PUD_SIZE then add_release_page vs pmdp else Ret vs.

Fixpoint unmap_pud_loop (n : nat) (vs : vspace A) (idx addr end_ : Z) : outcome (vspace A) :=
  match n with
  | O => OutOfFuel
  | S n =>
      let next := stage1_xxx_addr_end addr end_ S1_PUD_SIZE in
      let* vs := unmap_pud_entry vs idx addr next in
      if next =? end_ then Ret vs else unmap_pud_loop n vs (idx + 1) next end_
  end.

(** The walk starts at the PUD entry of [end], as in the source. *)
Definition stage1_unmap_pud_range (vs : vspace A) (addr end_ : Z) : outcome (Z * vspace A) :=
  let* vs := unmap_pud_loop 513 vs (stage1_pud_index end_) addr end_ in
  Ret (0, vs).

Definition arch_host_unmap (vs : vspace A) (start end_ : Z) : outcome (Z * vspace A) :=
  check (start <? S1_VIRT_MAX) && (end_ <=? S1_VIRT_MAX) in
  stage1_unmap_pud_range vs start end_.

(** ** Looking up and changing a mapping *)

(** The entry that maps an address: a PMD or a PTE of a table. *)
Inductive leaf_entry : Type :=
| PmdEntry (table idx : Z)
| PteEntry (table idx : Z).

Definition stage1_get_leaf_entry (vs : vspace A) (va : Z) : outcome (Z + leaf_entry) :=
  let* pud := read_entry vs (pgdp vs) (stage1_pud_index va) in
  if pud =? 0 then Ret (inl (- ENOMEM)) else
  let pmdp := stage1_pmd_table_addr pud in
  let* pmd := read_entry vs pmdp (stage1_pmd_index va) in
  if pmd =? 0 then Ret (inl (- ENOMEM)) else
  if stage1_pmd_huge pmd then Ret (inr (PmdEntry pmdp (stage1_pmd_index va))) else
  Ret (inr (PteEntry (stage1_pte_table_addr pmd) (stage1_pte_index va))).

Definition arch_host_change_map (vs : vspace A) (vir phy flags : Z) : outcome (Z * vspace A) :=
  let* r := stage1_get_leaf_entry vs vir in
  match r with
  | inl ret => Ret (ret, vs)
  | inr (PmdEntry pmdp i) =>
      let* vs := set_entry vs pmdp i 0 in
      let* vs := set_entry vs pmdp i (stage1_pmd_attr phy flags) in Ret (0, vs)
  | inr (PteEntry ptep i) =>
      let* vs := set_entry vs ptep i 0 in
      let* vs := set_entry vs ptep i (stage1_pte_attr phy flags) in Ret (0, vs)
  end.

Definition stage1_va_to_pa (vs : vspace A) (va : Z) : outcome Z :=
  let pte_offset := Z.land va (not64 S1_PTE_MASK) in
  let* pud := read_entry vs (pgdp vs) (stage1_pud_index va) in
  if pud =? 0 then Ret 0 else
  let* pmd := read_entry vs (ptov (stage1_pmd_table_addr pud)) (stage1_pmd_index va) in
  if pmd =? 0 then Ret 0 else
  if stage1_pmd_huge pmd then Ret 0 else
  let* pte := read_entry vs (ptov (stage1_pte_table_addr pmd)) (stage1_pte_index va) in
  let phy := Z.land pte S1_PHYSICAL_MASK in
  if phy =? 0 then Ret 0 else Ret (u64 (phy + pte_offset)).

Definition arch_translate_va_to_pa (vs : vspace A) (va : Z) : outcome Z := stage1_va_to_pa vs va.

(** ** The hardware's walk *)

(** A leaf descriptor: a page of level 3 or a block of level 2. *)
Inductive leaf : Type :=
| LPage (d : Z)
| LBlock (d : Z).

Definition entry (vs : vspace A) (table idx : Z) : option Z :=
  tables vs !! table ≫= fun t => t !! Z.to_nat idx.

Definition is_table (e : Z) : bool := Z.land e 3 =? 3.

(** The table of the next level that a descriptor points to. *)
Definition next_table (e : option Z) : option Z :=
  e ≫= fun e => if is_table e then Some (Z.land e S1_PHYSICAL_MASK) else None.

Definition pmd_table (vs : vspace A) (va : Z) : option Z :=
  next_table (entry vs (pgdp vs) (stage1_pud_index va)).

Definition pmd_of (vs : vspace A) (va : Z) : option Z :=
  pmd_table vs va ≫= fun p => entry vs p (stage1_pmd_index va).

Definition pte_table (vs : vspace A) (va : Z) : option Z := next_table (pmd_of vs va).

Definition pte_of (vs : vspace A) (va : Z) : option Z :=
  pte_table vs va ≫= fun p => entry vs p (stage1_pte_index va).

Definition block_leaf (e : Z) : option leaf := if stage1_pmd_huge e then Some (LBlock e) else None.
Definition page_leaf (e : Z) : option leaf := if is_table e then Some (LPage e) else None.

Definition walk (vs : vspace A) (va : Z) : option leaf :=
  match pmd_of vs va with
  | None => None
  | Some e => if is_table e then pte_of vs va ≫= page_leaf else block_leaf e
  end.

(** The physical address a leaf gives for [va]. *)
Definition leaf_pa (l : leaf) (va : Z) : Z :=
  match l with
  | LPage d => Z.land d S1_PHYSICAL_MASK + va mod 4096
  | LBlock d => Z.land d S1_PHYSICAL_MASK + va mod S1_PMD_SIZE
  end.

(** ** Well-formed tables

    Every table page has one place in the tree: a descriptor leads only to the
    table of its own index, so no table is reached on two paths. *)

Inductive place : Type :=
| PRoot
| PPmd (i : Z)
| PPte (i j : Z).

(** A descriptor [e] that may stand at index [i] of a table at place [pl]. *)
Definition desc_ok (pos : gmap Z place) (pl : place) (i e : Z) : Prop :=
  match pl with
  | PRoot => Z.land e 3 = 3 /\ pos !! Z.land e S1_PHYSICAL_MASK = Some (PPmd i)
  | PPmd k => Z.land e 3 = 1 \/ Z.land e 3 = 3 /\ pos !! Z.land e S1_PHYSICAL_MASK = Some (PPte k i)
  | PPte _ _ => Z.land e 3 = 3
  end.

Record pt_ok (vs : vspace A) (pos : gmap Z place) : Prop := {
  pt_root : pos !! pgdp vs = Some PRoot;
  pt_page : forall a pl, pos !! a = Some pl ->
    4096 <= a < 2 ^ 48 /\ a mod 4096 = 0 /\ kp_live (vs_pages vs) a;
  pt_size : forall a pl, pos !! a = Some pl ->
    exists t, tables vs !! a = Some t /\ length t = 512%nat;
  pt_entry : forall a pl i e, pos !! a = Some pl -> 0 <= i < 512 -> entry vs a i = Some e ->
    e = 0 \/ desc_ok pos pl i e;
  pt_alloc : kp_ok (vs_pages vs);
}.

(** The abstraction: page tables are well-formed for some placement of their pages. *)
Definition tables_ok (vs : vspace A) : Prop := exists pos, pt_ok vs pos.

(** ** Indices and descriptors *)

Lemma pud_index_div va : 0 <= va < 2 ^ 39 -> stage1_pud_index va = va / 2 ^ 30.
Proof.
  intros Hv. unfold stage1_pud_index, S1_PUD_SHIFT. change (512 - 1) with (2 ^ 9 - 1).
  rewrite land_pow2_mod, Z.shiftr_div_pow2 by lia. apply Z.mod_small. Z.div_mod_to_equations; lia.
Qed.

Lemma pmd_index_div va : stage1_pmd_index va = (va / 2 ^ 21) mod 512.
Proof.
  unfold stage1_pmd_index, S1_PMD_SHIFT. change (512 - 1) with (2 ^ 9 - 1).
  by rewrite land_pow2_mod, Z.shiftr_div_pow2 by lia.
Qed.

Lemma pte_index_div va : stage1_pte_index va = (va / 4096) mod 512.
Proof.
  unfold stage1_pte_index, S1_PTE_SHIFT. change (512 - 1) with (2 ^ 9 - 1).
  by rewrite land_pow2_mod, Z.shiftr_div_pow2 by lia.
Qed.

Lemma pud_index_range va : 0 <= stage1_pud_index va < 512.
Proof.
  unfold stage1_pud_index. change (512 - 1) with (2 ^ 9 - 1). rewrite land_pow2_mod by lia.
  by apply Z.mod_pos_bound.
Qed.

Lemma pmd_index_range va : 0 <= stage1_pmd_index va < 512.
Proof. rewrite pmd_index_div. by apply Z.mod_pos_bound. Qed.

Lemma pte_index_range va : 0 <= stage1_pte_index va < 512.
Proof. rewrite pte_index_div. by apply Z.mod_pos_bound. Qed.

(** The indices determine the block and the page of an address. *)
Lemma same_pmd va wa :
  0 <= va < 2 ^ 39 -> 0 <= wa < 2 ^ 39 ->
  stage1_pud_index va = stage1_pud_index wa -> stage1_pmd_index va = stage1_pmd_index wa ->
  va / 2 ^ 21 = wa / 2 ^ 21.
Proof.
  intros Hv Hw. rewrite !pud_index_div, !pmd_index_div by done. Z.div_mod_to_equations; lia.
Qed.

Lemma same_pte va wa :
  0 <= va < 2 ^ 39 -> 0 <= wa < 2 ^ 39 ->
  stage1_pud_index va = stage1_pud_index wa -> stage1_pmd_index va = stage1_pmd_index wa ->
  stage1_pte_index va = stage1_pte_index wa -> va / 4096 = wa / 4096.
Proof.
  intros Hv Hw H1 H2. pose proof (same_pmd va wa Hv Hw H1 H2). rewrite !pte_index_div.
  Z.div_mod_to_equations; lia.
Qed.

Lemma addr_end_spec start end_ k :
  0 <= start < end_ -> end_ <= 2 ^ 39 -> 0 <= k <= 39 ->
  stage1_xxx_addr_end start end_ (2 ^ k) = Z.min (2 ^ k * (start / 2 ^ k + 1)) end_.
Proof.
  intros Hs He Hk. unfold stage1_xxx_addr_end.
  assert (0 < 2 ^ k <= 2 ^ 39) by (split; [lia|apply Z.pow_le_mono_r; lia]).
  rewrite land_not64_pow2 by (try apply (wrap_range 64); lia).
  rewrite (wrap_small 64 (start + 2 ^ k)) by lia.
  replace ((start + 2 ^ k) / 2 ^ k) with (start / 2 ^ k + 1)
    by (rewrite <- (Z.div_add start 1 (2 ^ k)) by lia; f_equal; lia).
  pose proof (Z.mul_succ_div_gt start (2 ^ k) ltac:(lia)).
  pose proof (Z.mul_div_le start (2 ^ k) ltac:(lia)).
  rewrite !wrap_small by lia. case_bools.
Qed.

Lemma attr_low desc flags : Z.land (stage1_attr desc flags) 3 = Z.land desc 3.
Proof.
  unfold stage1_attr.
  repeat case_match; rewrite !Z.land_lor_distr_l; cbn; by rewrite ?Z.lor_0_r.
Qed.

Lemma attr_phys desc flags :
  Z.land (stage1_attr desc flags) S1_PHYSICAL_MASK = Z.land desc S1_PHYSICAL_MASK.
Proof.
  unfold stage1_attr.
  repeat case_match; rewrite !Z.land_lor_distr_l; cbn; by rewrite ?Z.lor_0_r.
Qed.

Lemma testbit_phys i : 0 <= i -> Z.testbit S1_PHYSICAL_MASK i = (12 <=? i) && (i <? 48).
Proof.
  intros Hi. change S1_PHYSICAL_MASK with (Z.ldiff (Z.ones 48) (Z.ones 12)).
  rewrite Z.ldiff_spec, !Z.testbit_ones_nonneg by lia. case_bools; done.
Qed.

Lemma phys_aligned a : 0 <= a < 2 ^ 48 -> a mod 4096 = 0 -> Z.land a S1_PHYSICAL_MASK = a.
Proof.
  intros Ha Hm. apply Z.bits_inj'. intros i Hi. rewrite Z.land_spec, testbit_phys by done.
  destruct (Z.leb_spec 12 i), (Z.ltb_spec i 48); cbn; rewrite ?andb_true_r, ?andb_false_r; try done.
  - symmetry. apply (testbit_above 48); lia.
  - symmetry. change 4096 with (2 ^ 12) in Hm.
    rewrite <- (Z.mod_pow2_bits_low a 12 i), Hm by lia. apply Z.testbit_0_l.
  - lia.
Qed.

Lemma aligned_low a : a mod 4096 = 0 -> Z.land a 3 = 0.
Proof.
  intros Hm. change 3 with (2 ^ 2 - 1). rewrite land_pow2_mod by lia. Z.div_mod_to_equations; lia.
Qed.

(** What the descriptors written by the code decode to. *)
Lemma table_desc a flags :
  4096 <= a < 2 ^ 48 -> a mod 4096 = 0 ->
  let e := Z.lor (vtop a) (if has_flag flags __VM_HOST
             then Z.lor S1_DES_TABLE (Z.lor S1_TABLE_UAP S1_TABLE_UXN) else S1_DES_TABLE) in
  Z.land e 3 = 3 /\ Z.land e S1_PHYSICAL_MASK = a.
Proof.
  intros Ha Hm. cbn zeta. unfold vtop. rewrite !Z.land_lor_distr_l, (aligned_low a), (phys_aligned a) by lia.
  destruct (has_flag _ _); cbn; by rewrite Z.lor_0_r.
Qed.

Lemma page_desc pa flags :
  0 <= pa < 2 ^ 48 -> pa mod 4096 = 0 ->
  let e := Z.lor (stage1_pte_attr 0 flags) pa in
  Z.land e 3 = 3 /\ Z.land e S1_PHYSICAL_MASK = pa.
Proof.
  intros Ha Hm. cbn zeta. unfold stage1_pte_attr.
  rewrite !Z.land_lor_distr_l, attr_low, attr_phys, !Z.land_lor_distr_l, (aligned_low pa), (phys_aligned pa) by lia.
  by repeat case_match.
Qed.

Lemma block_desc pa flags :
  0 <= pa < 2 ^ 48 -> pa mod 2 ^ 21 = 0 ->
  let e := stage1_pmd_attr pa flags in
  Z.land e 3 = 1 /\ Z.land e S1_PHYSICAL_MASK = pa.
Proof.
  intros Ha Hm. cbn zeta. unfold stage1_pmd_attr. rewrite attr_low, attr_phys.
  assert (E : Z.land pa S1_PMD_MASK = pa).
  { unfold S1_PMD_MASK. change S1_PMD_SIZE with (2 ^ 21). rewrite land_not64_pow2 by lia.
    pose proof (Z.div_mod pa (2 ^ 21) ltac:(lia)). lia. }
  assert (pa mod 4096 = 0) by (Z.div_mod_to_equations; lia).
  rewrite E, !Z.land_lor_distr_l, (aligned_low pa), (phys_aligned pa) by lia.
  repeat case_match; cbn; by rewrite ?Z.lor_0_r.
Qed.

Lemma land3_nonzero e k : Z.land e 3 = k -> k <> 0 -> e <> 0.
Proof. intros <- Hk ->. by rewrite Z.land_0_l in Hk. Qed.

(** ** Writing one entry *)

Lemma entry_read vs a i e : entry vs a i = Some e -> read_entry vs a i = Ret e.
Proof.
  unfold entry, read_entry. destruct (tables vs !! a) as [t|]; [|done]. cbn. by intros ->.
Qed.

Lemma entry_exists vs pos a p i :
  pt_ok vs pos -> pos !! a = Some p -> 0 <= i < 512 -> exists e, entry vs a i = Some e.
Proof.
  intros Hok Hp Hi. destruct (pt_size _ _ Hok a p Hp) as (t & Et & Hl). unfold entry.
  rewrite Et. cbn. apply lookup_lt_is_Some. lia.
Qed.

Lemma set_entry_spec vs a i e e0 :
  entry vs a i = Some e0 -> 0 <= i ->
  exists vs', set_entry vs a i e = Ret vs' /\ pgdp vs' = pgdp vs /\
    release_pages vs' = release_pages vs /\ vs_pages vs' = vs_pages vs /\
    (forall b t, tables vs !! b = Some t -> exists t', tables vs' !! b = Some t' /\ length t' = length t) /\
    forall b j, 0 <= j ->
      entry vs' b j = if bool_decide (b = a /\ j = i) then Some e else entry vs b j.
Proof.
  intros He Hi. unfold entry in He. unfold set_entry. destruct (tables vs !! a) as [t|] eqn:Et; [|done].
  cbn in He. pose proof (lookup_lt_Some _ _ _ He) as Hlt. destruct (Nat.ltb_spec (Z.to_nat i) (length t)); [|lia].
  eexists. split_and!; try done; cbn [tables set_tables].
  - intros b u Hb. destruct (decide (b = a)) as [->|Hne].
    + rewrite lookup_insert_eq. exists (<[Z.to_nat i:=e]> t). rewrite length_insert. split; [done|congruence].
    + rewrite lookup_insert_ne by done. eauto.
  - intros b j Hj. unfold entry. cbn [tables set_tables].
    destruct (decide (b = a)) as [->|Hne].
    + rewrite lookup_insert_eq, Et. cbn. destruct (decide (j = i)) as [->|Hji].
      * rewrite bool_decide_true by done. by apply list_lookup_insert_eq.
      * rewrite bool_decide_false by tauto. apply list_lookup_insert_ne. lia.
    + rewrite lookup_insert_ne by done. by rewrite bool_decide_false by tauto.
Qed.

(** The tables of the two lower levels are where the placement says. *)
Lemma pmd_table_place vs pos va p :
  pt_ok vs pos -> pmd_table vs va = Some p -> pos !! p = Some (PPmd (stage1_pud_index va)).
Proof.
  intros Hok. unfold pmd_table, next_table. destruct (entry _ _ _) as [e|] eqn:He; [|done].
  cbn. unfold is_table. destruct (Z.eqb_spec (Z.land e 3) 3) as [E|]; [|done]. intros [= <-].
  destruct (pt_entry _ _ Hok _ _ _ _ (pt_root _ _ Hok) (pud_index_range va) He) as [->|[_ Hd]]; [done|exact Hd].
Qed.

Lemma pte_table_place vs pos va p :
  pt_ok vs pos -> pte_table vs va = Some p ->
  pos !! p = Some (PPte (stage1_pud_index va) (stage1_pmd_index va)).
Proof.
  intros Hok. unfold pte_table, pmd_of. destruct (pmd_table vs va) as [q|] eqn:Hq; [|done].
  apply (pmd_table_place vs pos) in Hq; [|done]. cbn. unfold next_table.
  destruct (entry _ _ _) as [e|] eqn:He; [|done]. cbn. unfold is_table.
  destruct (Z.eqb_spec (Z.land e 3) 3) as [E|]; [|done]. intros [= <-].
  destruct (pt_entry _ _ Hok _ _ _ _ Hq (pmd_index_range va) He) as [->|[E'|[_ Hd]]]; [done|congruence|exact Hd].
Qed.

(** A write that respects the place of its table keeps the tables well-formed. *)
Lemma set_entry_ok vs pos a pl i e :
  pt_ok vs pos -> pos !! a = Some pl -> 0 <= i < 512 -> e = 0 \/ desc_ok pos pl i e ->
  exists vs', set_entry vs a i e = Ret vs' /\ pt_ok vs' pos /\ pgdp vs' = pgdp vs /\
    release_pages vs' = release_pages vs /\ vs_pages vs' = vs_pages vs /\
    forall b j, 0 <= j ->
      entry vs' b j = if bool_decide (b = a /\ j = i) then Some e else entry vs b j.
Proof.
  intros Hok Hpl Hi He. destruct (entry_exists vs pos a pl i Hok Hpl Hi) as [e0 He0].
  destruct (set_entry_spec vs a i e e0 He0 ltac:(lia)) as (vs' & E & Eg & Er & Ep & Ht & Hn).
  exists vs'. split_and!; try done. destruct Hok as [H1 H2 H3 H4 H5]. split; rewrite ?Eg, ?Ep; try done.
  - intros b pb Hb. destruct (H3 b pb Hb) as (t & Et & Hl). destruct (Ht b t Et) as (t' & ? & ?).
    exists t'. split; [done|congruence].
  - intros b pb j d Hb Hj Hd. rewrite Hn in Hd by lia. case_bool_decide as Hc; [|by apply (H4 b)].
    destruct Hc as [-> ->]. simplify_eq. done.
Qed.

(** Addresses of the same page, or block, take the same path. *)
Lemma same_page_path va wa :
  va / 4096 = wa / 4096 ->
  stage1_pud_index va = stage1_pud_index wa /\ stage1_pmd_index va = stage1_pmd_index wa /\
  stage1_pte_index va = stage1_pte_index wa.
Proof.
  intros E. rewrite !pmd_index_div, !pte_index_div. unfold stage1_pud_index, S1_PUD_SHIFT.
  rewrite !Z.shiftr_div_pow2 by lia.
  replace (va / 2 ^ 30) with (va / 4096 / 2 ^ 18) by (rewrite Z.div_div by lia; f_equal; lia).
  replace (wa / 2 ^ 30) with (wa / 4096 / 2 ^ 18) by (rewrite Z.div_div by lia; f_equal; lia).
  replace (va / 2 ^ 21) with (va / 4096 / 2 ^ 9) by (rewrite Z.div_div by lia; f_equal; lia).
  replace (wa / 2 ^ 21) with (wa / 4096 / 2 ^ 9) by (rewrite Z.div_div by lia; f_equal; lia).
  by rewrite E.
Qed.

Lemma same_block_path va wa :
  va / 2 ^ 21 = wa / 2 ^ 21 ->
  stage1_pud_index va = stage1_pud_index wa /\ stage1_pmd_index va = stage1_pmd_index wa.
Proof.
  intros E. rewrite !pmd_index_div. unfold stage1_pud_index, S1_PUD_SHIFT.
  rewrite !Z.shiftr_div_pow2 by lia.
  replace (va / 2 ^ 30) with (va / 2 ^ 21 / 2 ^ 9) by (rewrite Z.div_div by lia; f_equal; lia).
  replace (wa / 2 ^ 30) with (wa / 2 ^ 21 / 2 ^ 9) by (rewrite Z.div_div by lia; f_equal; lia).
  by rewrite E.
Qed.

(** What an operation leaves alone besides the walk. *)
Record kept (vs vs' : vspace A) : Prop := {
  k_root : pgdp vs' = pgdp vs;
  k_released : release_pages vs' = release_pages vs;
  k_pmd_table : forall va p, pmd_table vs va = Some p -> pmd_table vs' va = Some p;
}.

Lemma kept_refl vs : kept vs vs.
Proof. by split. Qed.

Lemma kept_trans vs1 vs2 vs3 : kept vs1 vs2 -> kept vs2 vs3 -> kept vs1 vs3.
Proof. intros [? ? ?] [? ? ?]. split; [congruence|congruence|eauto]. Qed.

(** Writing a PTE changes the walk of its page only. *)
Lemma set_pte_spec vs pos va p e :
  pt_ok vs pos -> 0 <= va < 2 ^ 39 -> pte_table vs va = Some p -> e = 0 \/ Z.land e 3 = 3 ->
  exists vs', set_entry vs p (stage1_pte_index va) e = Ret vs' /\ pt_ok vs' pos /\ kept vs vs' /\
    vs_pages vs' = vs_pages vs /\ (forall wa, pmd_table vs' wa = pmd_table vs wa) /\
    (forall wa, pte_table vs' wa = pte_table vs wa) /\
    forall wa, 0 <= wa < 2 ^ 39 ->
      walk vs' wa = if wa / 4096 =? va / 4096 then page_leaf e else walk vs wa.
Proof.
  intros Hok Hva Hp He. pose proof (pte_table_place vs pos va p Hok Hp) as Hpl.
  destruct (set_entry_ok vs pos p _ _ e Hok Hpl (pte_index_range va) He) as (vs' & E & Hok' & Eg & Er & Ep & Hn).
  assert (Ho : forall b j, 0 <= j -> b <> p -> entry vs' b j = entry vs b j).
  { intros b j Hj Hb. by rewrite Hn, bool_decide_false by (done || tauto). }
  assert (Hpmt : forall wa, pmd_table vs' wa = pmd_table vs wa).
  { intros wa. unfold pmd_table. rewrite Eg, Ho; [done|apply pud_index_range|].
    intros <-. pose proof (pt_root _ _ Hok). congruence. }
  assert (Hpm : forall wa, pmd_of vs' wa = pmd_of vs wa).
  { intros wa. unfold pmd_of. rewrite Hpmt. destruct (pmd_table vs wa) as [q|] eqn:Hq; [|done]. cbn.
    apply Ho; [apply pmd_index_range|]. intros ->.
    pose proof (pmd_table_place vs pos wa p Hok Hq). congruence. }
  assert (Hpt : forall wa, pte_table vs' wa = pte_table vs wa) by (intros wa; unfold pte_table; by rewrite Hpm).
  exists vs'. split_and!; try done.
  { split; [done|done|]. intros wa q Hq. by rewrite Hpmt. }
  intros wa Hwa. unfold walk, pte_of. rewrite Hpm, Hpt.
  destruct (Z.eqb_spec (wa / 4096) (va / 4096)) as [Es|Hne].
  - destruct (same_page_path wa va Es) as (E1 & E2 & E3).
    assert (Ed : pmd_of vs wa = pmd_of vs va) by (unfold pmd_of, pmd_table; by rewrite E1, E2).
    rewrite E3. unfold pte_table in *. rewrite Ed in *. destruct (pmd_of vs va) as [d|]; [|done].
    cbn in Hp |- *. destruct (is_table d); [|done]. injection Hp as ->. cbn.
    rewrite Hn, bool_decide_true by (done || apply pte_index_range). done.
  - destruct (pmd_of vs wa) as [d|]; [|done]. destruct (is_table d); [|done].
    destruct (pte_table vs wa) as [q|] eqn:Hq; [|done]. cbn.
    rewrite Hn by apply pte_index_range. rewrite bool_decide_false; [done|]. intros [-> E3].
    pose proof (pte_table_place vs pos wa p Hok Hq) as Hpl'. rewrite Hpl in Hpl'. injection Hpl' as E1 E2.
    by apply Hne, same_pte.
Qed.

(** Writing a PMD entry changes the PMD of its block only. *)
Lemma set_pmd_entry vs pos va p e :
  pt_ok vs pos -> 0 <= va < 2 ^ 39 -> pmd_table vs va = Some p ->
  e = 0 \/ desc_ok pos (PPmd (stage1_pud_index va)) (stage1_pmd_index va) e ->
  exists vs', set_entry vs p (stage1_pmd_index va) e = Ret vs' /\ pt_ok vs' pos /\ kept vs vs' /\
    vs_pages vs' = vs_pages vs /\ (forall wa, pmd_table vs' wa = pmd_table vs wa) /\
    (forall wa, 0 <= wa < 2 ^ 39 ->
      pmd_of vs' wa = if wa / 2 ^ 21 =? va / 2 ^ 21 then Some e else pmd_of vs wa) /\
    (forall q j, 0 <= j -> q <> p -> entry vs' q j = entry vs q j).
Proof.
  intros Hok Hva Hp He. pose proof (pmd_table_place vs pos va p Hok Hp) as Hpl.
  destruct (set_entry_ok vs pos p _ _ e Hok Hpl (pmd_index_range va) He)
    as (vs' & E & Hok' & Eg & Er & Ep & Hn).
  assert (Ho : forall b j, 0 <= j -> b <> p -> entry vs' b j = entry vs b j).
  { intros b j Hj Hb. by rewrite Hn, bool_decide_false by (done || tauto). }
  assert (Hpmt : forall wa, pmd_table vs' wa = pmd_table vs wa).
  { intros wa. unfold pmd_table. rewrite Eg, Ho; [done|apply pud_index_range|].
    intros <-. pose proof (pt_root _ _ Hok). congruence. }
  exists vs'. split_and!; try done.
  { split; [done|done|]. intros wa q Hq. by rewrite Hpmt. }
  intros wa Hwa. unfold pmd_of. rewrite Hpmt.
  destruct (Z.eqb_spec (wa / 2 ^ 21) (va / 2 ^ 21)) as [Es|Hne].
  - destruct (same_block_path wa va Es) as (E1 & E2).
    replace (pmd_table vs wa) with (Some p) by (rewrite <- Hp; unfold pmd_table; by rewrite E1).
    cbn. rewrite E2, Hn, bool_decide_true by (done || apply pmd_index_range). done.
  - destruct (pmd_table vs wa) as [q|] eqn:Hq; [|done]. cbn.
    rewrite Hn by apply pmd_index_range. rewrite bool_decide_false; [done|]. intros [-> E2].
    pose proof (pmd_table_place vs pos wa p Hok Hq) as Hpl'. rewrite Hpl in Hpl'. injection Hpl' as E1.
    by apply Hne, same_pmd.
Qed.

(** A state with the same PMD entry and the same lower tables for [wa] walks the same way. *)
Lemma walk_same vs vs' pos wa :
  pt_ok vs pos -> pmd_of vs' wa = pmd_of vs wa ->
  (forall q i j k, pos !! q = Some (PPte i j) -> 0 <= k -> entry vs' q k = entry vs q k) ->
  walk vs' wa = walk vs wa.
Proof.
  intros Hok Hpm Hpt. unfold walk, pte_of. unfold pte_table at 1. rewrite Hpm. fold (pte_table vs wa).
  destruct (pmd_of vs wa) as [d|]; [|done]. destruct (is_table d); [|done].
  destruct (pte_table vs wa) as [q|] eqn:Hq; [|done]. cbn.
  by rewrite (Hpt _ _ _ _ (pte_table_place vs pos wa q Hok Hq)) by apply pte_index_range.
Qed.

(** A block entry, or none. *)
Lemma set_pmd_spec vs pos va p e :
  pt_ok vs pos -> 0 <= va < 2 ^ 39 -> pmd_table vs va = Some p -> e = 0 \/ Z.land e 3 = 1 ->
  exists vs', set_entry vs p (stage1_pmd_index va) e = Ret vs' /\ pt_ok vs' pos /\ kept vs vs' /\
    vs_pages vs' = vs_pages vs /\ (forall wa, pmd_table vs' wa = pmd_table vs wa) /\
    (forall wa, 0 <= wa < 2 ^ 39 ->
      pmd_of vs' wa = if wa / 2 ^ 21 =? va / 2 ^ 21 then Some e else pmd_of vs wa) /\
    forall wa, 0 <= wa < 2 ^ 39 ->
      walk vs' wa = if wa / 2 ^ 21 =? va / 2 ^ 21 then block_leaf e else walk vs wa.
Proof.
  intros Hok Hva Hp He. pose proof (pmd_table_place vs pos va p Hok Hp) as Hpl.
  destruct (set_pmd_entry vs pos va p e Hok Hva Hp ltac:(cbn; tauto))
    as (vs' & E & Hok' & Hk & Ep & Hpmt & Hpm & Ho).
  exists vs'. split_and!; try done. intros wa Hwa. specialize (Hpm wa Hwa).
  destruct (wa / 2 ^ 21 =? va / 2 ^ 21).
  - unfold walk. rewrite Hpm. unfold is_table. by destruct He as [->| ->].
  - apply (walk_same vs vs' pos wa Hok Hpm). intros q i j k Hq Hk'. apply Ho; [done|]. congruence.
Qed.

(** ** New tables *)

Definition page_panic : Prop := exists a, kp_ok a /\ get_free_page a GFP_KERNEL = Panic.

Lemma desc_ok_mono pos v pv pl i e :
  pos !! v = None -> desc_ok pos pl i e -> desc_ok (<[v := pv]> pos) pl i e.
Proof.
  intros Hv. destruct pl; cbn; intros Hd;
    repeat match goal with
    | H : _ \/ _ |- _ => destruct H as [H|H]
    | H : _ /\ _ |- _ => destruct H
    end; try tauto; [split|right; split]; try done; rewrite lookup_insert_ne; congruence.
Qed.

Lemma new_table_spec vs pos pl :
  pt_ok vs pos ->
  match new_table vs with
  | Ret (v, vs1) =>
      (v = 0 /\ vs1 = vs) \/
      (v <> 0 /\ 4096 <= v < 2 ^ 48 /\ v mod 4096 = 0 /\ pos !! v = None /\
       pt_ok vs1 (<[v := pl]> pos) /\ pgdp vs1 = pgdp vs /\ release_pages vs1 = release_pages vs /\
       (forall i, 0 <= i < 512 -> entry vs1 v i = Some 0) /\
       forall b j, b <> v -> entry vs1 b j = entry vs b j)
  | Panic => page_panic
  | _ => False
  end.
Proof.
  intros Hok. unfold new_table. destruct Hok as [H1 H2 H3 H4 H5].
  destruct (get_free_page_ends (vs_pages vs) GFP_KERNEL H5) as [E|([v a] & E)]; rewrite E; cbn [obind].
  { exists (vs_pages vs). done. }
  destruct (get_free_page_new _ _ _ _ H5 E) as [[-> ->]|(Hv & Hv' & Hm & Hl & Ha & Hlive)].
  { left. by destruct vs. }
  destruct (Z.eqb_spec v 0) as [|Hv0]; [lia|]. right.
  assert (Hno : pos !! v = None).
  { destruct (pos !! v) eqn:Hp; [|done]. destruct (H2 v _ Hp) as (_ & _ & ?). tauto. }
  assert (Hz : forall i, 0 <= i < 512 -> replicate 512 0 !! Z.to_nat i = Some 0).
  { intros i Hi. apply lookup_replicate_2. lia. }
  assert (Hne : forall b pb, pos !! b = Some pb -> b <> v) by congruence.
  split_and!; try done; try lia.
  - split; cbn [pgdp tables vs_pages]; unfold entry; cbn [tables]; [| | | |done].
    + rewrite lookup_insert_ne; [done|]. congruence.
    + intros b pb [(<- & _)|(_ & Hb)]%lookup_insert_Some.
      * split_and!; try done; try lia. apply Hlive. by left.
      * destruct (H2 b pb Hb) as (? & ? & ?). split_and!; try done; try lia. apply Hlive. by right.
    + intros b pb [(<- & _)|(Hbv & Hb)]%lookup_insert_Some.
      * rewrite lookup_insert_eq. by eexists.
      * rewrite lookup_insert_ne by done. by apply (H3 b pb).
    + intros b pb i e [(<- & _)|(Hbv & Hb)]%lookup_insert_Some Hi.
      * rewrite lookup_insert_eq. cbn. rewrite Hz by done. intros [= <-]. by left.
      * rewrite lookup_insert_ne by done. intros He.
        destruct (H4 b pb i e Hb Hi He) as [|Hd]; [by left|]. right. by apply desc_ok_mono.
  - intros i Hi. unfold entry. cbn. rewrite lookup_insert_eq. by apply Hz.
  - intros b j Hb. unfold entry. cbn. by rewrite lookup_insert_ne.
Qed.


(** A fresh table that nothing points to yet changes no walk. *)
Lemma fresh_table_walk vs vs1 pos v :
  pt_ok vs pos -> pos !! v = None -> pgdp vs1 = pgdp vs ->
  (forall b j, b <> v -> entry vs1 b j = entry vs b j) ->
  forall wa, pmd_table vs1 wa = pmd_table vs wa /\ pmd_of vs1 wa = pmd_of vs wa /\ walk vs1 wa = walk vs wa.
Proof.
  intros Hok Hv Eg Ho wa.
  assert (Hpmt : pmd_table vs1 wa = pmd_table vs wa).
  { unfold pmd_table. rewrite Eg, Ho; [done|]. pose proof (pt_root _ _ Hok). congruence. }
  assert (Hpm : pmd_of vs1 wa = pmd_of vs wa).
  { unfold pmd_of. rewrite Hpmt. destruct (pmd_table vs wa) as [q|] eqn:Hq; [|done]. cbn.
    apply Ho. pose proof (pmd_table_place vs pos wa q Hok Hq). congruence. }
  split_and!; try done. apply (walk_same vs vs1 pos wa Hok Hpm).
  intros q i j k Hq _. apply Ho. congruence.
Qed.

(** Hanging a new PTE table below an empty PMD entry. *)
Lemma populate_pmd vs pos va p flags :
  pt_ok vs pos -> 0 <= va < 2 ^ 39 -> pmd_table vs va = Some p -> pmd_of vs va = Some 0 ->
  match new_table vs with
  | Ret (v, vs1) =>
      (v = 0 /\ vs1 = vs) \/
      (v <> 0 /\ exists vs2 pos2, stage1_populate vs1 p (stage1_pmd_index va) v flags = Ret vs2 /\
        pt_ok vs2 pos2 /\ kept vs vs2 /\ pte_table vs2 va = Some v /\
        forall wa, 0 <= wa < 2 ^ 39 -> walk vs2 wa = walk vs wa)
  | Panic => page_panic
  | _ => False
  end.
Proof.
  intros Hok Hva Hp Hz. set (pl := PPte (stage1_pud_index va) (stage1_pmd_index va)).
  pose proof (new_table_spec vs pos pl Hok) as Hn. destruct (new_table vs) as [[v vs1]| | |]; try done.
  destruct Hn as [?|(Hv0 & Hv & Hm & Hno & Hok1 & Eg & Er & Hfresh & Ho)]; [by left|]. right. split; [done|].
  pose proof (fresh_table_walk vs vs1 pos v Hok Hno Eg Ho) as Hw.
  destruct (table_desc v flags Hv Hm) as [El Ea]. unfold stage1_populate.
  set (e := Z.lor (vtop v) _) in *.
  destruct (set_pmd_entry vs1 (<[v:=pl]> pos) va p e Hok1 Hva) as (vs2 & E & Hok2 & Hk2 & Ep & _ & Hpm & Hother).
  { by rewrite (proj1 (Hw va)). }
  { right. right. rewrite Ea, lookup_insert_eq. done. }
  assert (Hvp : v <> p).
  { pose proof (pmd_table_place vs pos va p Hok Hp). congruence. }
  assert (Hnext : next_table (Some e) = Some v) by (cbn; unfold is_table; by rewrite El, Ea).
  exists vs2, (<[v:=pl]> pos). split_and!; try done.
  - split; [by rewrite (k_root _ _ Hk2)|by rewrite (k_released _ _ Hk2)|].
    intros wa q Hq. apply (k_pmd_table _ _ Hk2). by rewrite (proj1 (Hw wa)).
  - unfold pte_table. rewrite Hpm by done. by rewrite Z.eqb_refl.
  - intros wa Hwa. rewrite <- (proj2 (proj2 (Hw wa))). specialize (Hpm wa Hwa).
    destruct (Z.eqb_spec (wa / 2 ^ 21) (va / 2 ^ 21)) as [Es|Hne].
    + destruct (same_block_path wa va Es) as (E1 & E2).
      assert (Hz' : pmd_of vs1 wa = Some 0).
      { rewrite (proj1 (proj2 (Hw wa))), <- Hz. unfold pmd_of, pmd_table. by rewrite E1, E2. }
      unfold walk, pte_of, pte_table. rewrite Hpm, Hz', Hnext. unfold is_table at 1. rewrite El. cbn.
      rewrite Hother by (done || apply pte_index_range). by rewrite Hfresh by apply pte_index_range.
    + apply (walk_same vs1 vs2 _ wa Hok1 Hpm). intros q i j k Hq Hk'. apply Hother; [done|].
      intros ->. rewrite lookup_insert_ne in Hq by done.
      pose proof (pmd_table_place vs pos va p Hok Hp). congruence.
Qed.

(** Hanging a new PMD table below an empty PUD entry. *)
Lemma populate_pud vs pos va flags :
  pt_ok vs pos -> 0 <= va < 2 ^ 39 -> entry vs (pgdp vs) (stage1_pud_index va) = Some 0 ->
  match new_table vs with
  | Ret (v, vs1) =>
      (v = 0 /\ vs1 = vs) \/
      (v <> 0 /\ pgdp vs1 = pgdp vs /\ exists vs2 pos2,
        stage1_populate vs1 (pgdp vs1) (stage1_pud_index va) v flags = Ret vs2 /\
        pt_ok vs2 pos2 /\ kept vs vs2 /\ pmd_table vs2 va = Some v /\
        forall wa, 0 <= wa < 2 ^ 39 -> walk vs2 wa = walk vs wa)
  | Panic => page_panic
  | _ => False
  end.
Proof.
  intros Hok Hva Hz. set (pl := PPmd (stage1_pud_index va)).
  pose proof (new_table_spec vs pos pl Hok) as Hn. destruct (new_table vs) as [[v vs1]| | |]; try done.
  destruct Hn as [?|(Hv0 & Hv & Hm & Hno & Hok1 & Eg & Er & Hfresh & Ho)]; [by left|]. right.
  split; [done|]. split; [done|].
  pose proof (fresh_table_walk vs vs1 pos v Hok Hno Eg Ho) as Hw.
  destruct (table_desc v flags Hv Hm) as [El Ea]. unfold stage1_populate.
  set (e := Z.lor (vtop v) _) in *.
  destruct (set_entry_ok vs1 (<[v:=pl]> pos) (pgdp vs1) PRoot (stage1_pud_index va) e Hok1
              (pt_root _ _ Hok1) (pud_index_range va)) as (vs2 & E & Hok2 & Eg2 & Er2 & Ep2 & Hn2).
  { right. split; [done|]. by rewrite Ea, lookup_insert_eq. }
  assert (Hroot : v <> pgdp vs1) by (rewrite Eg; pose proof (pt_root _ _ Hok); congruence).
  assert (Hpmt : forall wa, pmd_table vs2 wa =
            if stage1_pud_index wa =? stage1_pud_index va then Some v else pmd_table vs wa).
  { intros wa. rewrite <- (proj1 (Hw wa)). unfold pmd_table. rewrite Eg2, Hn2 by apply pud_index_range.
    destruct (Z.eqb_spec (stage1_pud_index wa) (stage1_pud_index va)) as [->|Hne].
    - rewrite bool_decide_true by done. cbn. unfold is_table. by rewrite El, Ea.
    - by rewrite bool_decide_false by tauto. }
  assert (Ho2 : forall b j, 0 <= j -> b <> pgdp vs1 -> entry vs2 b j = entry vs1 b j).
  { intros b j Hj Hb. by rewrite Hn2, bool_decide_false by (done || tauto). }
  exists vs2, (<[v:=pl]> pos). split_and!; try done.
  - split; [congruence|congruence|]. intros wa q Hq. rewrite Hpmt.
    destruct (Z.eqb_spec (stage1_pud_index wa) (stage1_pud_index va)) as [Es|]; [|done].
    unfold pmd_table in Hq. rewrite Es, Hz in Hq. done.
  - by rewrite Hpmt, Z.eqb_refl.
  - intros wa Hwa. rewrite <- (proj2 (proj2 (Hw wa))).
    destruct (Z.eqb_spec (stage1_pud_index wa) (stage1_pud_index va)) as [Es|Hne].
    + assert (pmd_of vs1 wa = None) as Hnone.
      { rewrite (proj1 (proj2 (Hw wa))). unfold pmd_of, pmd_table. by rewrite Es, Hz. }
      assert (pmd_of vs2 wa = Some 0) as Hzero.
      { unfold pmd_of. rewrite Hpmt, Es, Z.eqb_refl. cbn.
        rewrite Ho2 by (done || apply pmd_index_range). apply Hfresh, pmd_index_range. }
      unfold walk. by rewrite Hnone, Hzero.
    + apply (walk_same vs1 vs2 _ wa Hok1).
      * unfold pmd_of. rewrite Hpmt, (proj1 (Hw wa)).
        destruct (Z.eqb_spec (stage1_pud_index wa) (stage1_pud_index va)); [done|].
        destruct (pmd_table vs wa) as [q|] eqn:Hq; [|done]. cbn. apply Ho2; [apply pmd_index_range|].
        pose proof (pmd_table_place vs pos wa q Hok Hq). pose proof (pt_root _ _ Hok). congruence.
      * intros q i j k Hq Hk'. apply Ho2; [done|]. pose proof (pt_root _ _ Hok1). congruence.
Qed.


(** ** Mapping a range *)

(** [l] maps [va] to [pa] with the attributes of [flags], by a page or by a block. *)
Definition maps_to (flags va pa : Z) (l : option leaf) : Prop :=
  l = Some (LPage (Z.lor (stage1_pte_attr 0 flags) (pa - va mod 4096))) \/
  has_flag flags __VM_HUGE_2M = true /\
  l = Some (LBlock (stage1_pmd_attr (pa - va mod 2 ^ 21) flags)) /\ (pa - va mod 2 ^ 21) mod 2 ^ 21 = 0.

(** The walk changes on [[lo, hi)] only, where [Q] holds of the result. *)
Definition remap (Q : Z -> option leaf -> Prop) (lo hi : Z) (vs vs' : vspace A) : Prop :=
  (forall va, lo <= va < hi -> Q va (walk vs' va)) /\
  (forall va, 0 <= va < 2 ^ 39 -> ~ lo <= va < hi -> walk vs' va = walk vs va).

Lemma remap_empty Q lo vs : remap Q lo lo vs vs.
Proof. split; [lia|done]. Qed.

Lemma remap_trans Q lo mid hi vs1 vs2 vs3 :
  0 <= lo <= mid -> mid <= hi -> hi <= 2 ^ 39 ->
  remap Q lo mid vs1 vs2 -> remap Q mid hi vs2 vs3 -> remap Q lo hi vs1 vs3.
Proof.
  intros ? ? ? [Q1 R1] [Q2 R2]. split.
  - intros va Hva. destruct (decide (va < mid)); [|apply Q2; lia]. rewrite R2 by lia. apply Q1. lia.
  - intros va Hva Hno. rewrite R2, R1 by lia. done.
Qed.

(** The walk is all that a following step sees of a state. *)
Lemma remap_walk_l Q lo hi vs1 vs2 vs3 :
  (forall va, 0 <= va < 2 ^ 39 -> walk vs2 va = walk vs1 va) -> remap Q lo hi vs2 vs3 -> remap Q lo hi vs1 vs3.
Proof. intros Hw [Q2 R2]. split; [done|]. intros va Hva Hno. by rewrite R2, Hw. Qed.

Lemma pte_table_block vs va wa : va / 2 ^ 21 = wa / 2 ^ 21 -> pte_table vs va = pte_table vs wa.
Proof.
  intros E. destruct (same_block_path va wa E) as (E1 & E2).
  unfold pte_table, pmd_of, pmd_table. by rewrite E1, E2.
Qed.

(** [va + delta] is where [va] goes. *)
Abbreviation goes delta flags := (fun va => maps_to flags va (va + delta)).

Lemma map_pte_loop_spec n vs pos ptep start end_ delta flags :
  pt_ok vs pos -> 0 <= start < end_ -> end_ <= 2 ^ 39 ->
  start mod 4096 = 0 -> end_ mod 4096 = 0 -> start / 2 ^ 21 = (end_ - 1) / 2 ^ 21 ->
  0 <= start + delta -> end_ + delta <= 2 ^ 48 -> delta mod 4096 = 0 ->
  pte_table vs start = Some ptep -> 512 - stage1_pte_index start < Z.of_nat n ->
  exists vs', map_pte_loop n vs ptep (stage1_pte_index start) start end_ (start + delta)
                (stage1_pte_attr 0 flags) = Ret (0, vs') /\
    pt_ok vs' pos /\ kept vs vs' /\ remap (goes delta flags) start end_ vs vs'.
Proof.
  revert vs start. induction n as [|n IH]; intros vs start Hok Hs He Ms Me Hb Hd Hd' Md Hp Hn.
  { pose proof (pte_index_range start). lia. }
  cbn [map_pte_loop]. pose proof (pte_table_place vs pos start ptep Hok Hp) as Hpl.
  destruct (entry_exists vs pos ptep _ _ Hok Hpl (pte_index_range start)) as [old Hold].
  rewrite (entry_read _ _ _ _ Hold). cbn [obind].
  assert (Mp : (start + delta) mod 4096 = 0) by (Z.div_mod_to_equations; lia).
  destruct (page_desc (start + delta) flags ltac:(lia) Mp) as [El _].
  destruct (set_pte_spec vs pos start ptep _ Hok ltac:(lia) Hp (or_intror El))
    as (vs1 & -> & Hok1 & Hk1 & _ & _ & Ht1 & Hw1). cbn [obind].
  change PAGE_SIZE with 4096. rewrite !wrap_small by lia.
  assert (Hr1 : remap (goes delta flags) start (start + 4096) vs vs1).
  { split.
    - intros va Hva. assert (Ev : va / 4096 = start / 4096) by (Z.div_mod_to_equations; lia).
      assert (va < 2 ^ 39) by (Z.div_mod_to_equations; lia).
      rewrite Hw1, Ev, Z.eqb_refl by lia. left. unfold page_leaf, is_table. rewrite El. cbn. do 3 f_equal.
      Z.div_mod_to_equations; lia.
    - intros va Hva Hno. rewrite Hw1 by done.
      destruct (Z.eqb_spec (va / 4096) (start / 4096)); [Z.div_mod_to_equations; lia|done]. }
  destruct (Z.eqb_spec (start + 4096) end_) as [<-|Hne]; [by exists vs1|].
  assert (Hlt : start + 4096 < end_) by (Z.div_mod_to_equations; lia).
  assert (Hblk : (start + 4096) / 2 ^ 21 = start / 2 ^ 21) by (Z.div_mod_to_equations; lia).
  assert (Hidx : stage1_pte_index (start + 4096) = stage1_pte_index start + 1).
  { rewrite !pte_index_div. Z.div_mod_to_equations; lia. }
  destruct (IH vs1 (start + 4096)) as (vs' & E & Hok' & Hk' & Hr'); try done; try lia.
  { Z.div_mod_to_equations; lia. }
  { by rewrite Ht1, (pte_table_block vs _ start). }
  rewrite Hidx in E. replace (start + 4096 + delta) with (start + delta + 4096) in E by lia.
  exists vs'. split_and!; try done; [by eapply kept_trans|].
  apply (remap_trans _ start (start + 4096) end_ vs vs1 vs'); try done; lia.
Qed.


(** What mapping [[lo, hi)] may do: map all of it, or run out of table pages after a
    part [[lo, mid)]; the kernel stops only when the page allocator stops it. *)
Definition map_post (Q : Z -> option leaf -> Prop) (vs : vspace A) (lo hi : Z)
    (o : outcome (Z * vspace A)) : Prop :=
  match o with
  | Ret (ret, vs') => exists mid pos', lo <= mid <= hi /\ (ret = 0 /\ mid = hi \/ ret = - ENOMEM) /\
      pt_ok vs' pos' /\ kept vs vs' /\ remap Q lo mid vs vs'
  | Panic => page_panic
  | _ => False
  end.

Lemma map_post_all Q vs lo hi vs' pos' :
  lo <= hi -> pt_ok vs' pos' -> kept vs vs' -> remap Q lo hi vs vs' -> map_post Q vs lo hi (Ret (0, vs')).
Proof. intros. exists hi, pos'. split_and!; try done; try lia. Qed.

Lemma map_post_none Q vs lo hi pos :
  lo <= hi -> pt_ok vs pos -> map_post Q vs lo hi (Ret (- ENOMEM, vs)).
Proof.
  intros. exists lo, pos. split_and!; try done; try lia; apply remap_empty.
Qed.

(** One round and then the rest. *)
Lemma map_post_step Q vs lo mid hi o (k : vspace A -> outcome (Z * vspace A)) :
  0 <= lo <= mid -> mid <= hi -> hi <= 2 ^ 39 -> map_post Q vs lo mid o ->
  (forall vs1 pos1, pt_ok vs1 pos1 -> kept vs vs1 -> remap Q lo mid vs vs1 -> map_post Q vs1 mid hi (k vs1)) ->
  map_post Q vs lo hi (let* (ret, vs1) := o in if negb (ret =? 0) then Ret (ret, vs1) else k vs1).
Proof.
  intros Hlo Hmid Hhi Ho Hk. destruct o as [[ret vs1]| | |]; try done. cbn [obind].
  destruct Ho as (m & pos1 & Hm & Hret & Hok1 & Hk1 & Hr1). destruct (Z.eqb_spec ret 0) as [->|Hne].
  - destruct Hret as [[_ ->]|]; [|done]. cbn [negb]. specialize (Hk vs1 pos1 Hok1 Hk1 Hr1).
    destruct (k vs1) as [[ret vs2]| | |]; try done.
    destruct Hk as (m & pos2 & Hm2 & Hret & Hok2 & Hk2 & Hr2). exists m, pos2. split_and!; try done; try lia.
    + by eapply kept_trans.
    + eapply (remap_trans Q lo mid m); try done; lia.
  - destruct Hret as [[? _]|Hret]; [done|]. cbn [negb]. exists m, pos1. split_and!; try done; try lia.
Qed.

Lemma map_pte_range_post vs0 vs pos ptep start end_ delta flags :
  pt_ok vs pos -> 0 <= start < end_ -> end_ <= 2 ^ 39 ->
  start mod 4096 = 0 -> end_ mod 4096 = 0 -> start / 2 ^ 21 = (end_ - 1) / 2 ^ 21 ->
  0 <= start + delta -> end_ + delta <= 2 ^ 48 -> delta mod 4096 = 0 ->
  pte_table vs start = Some ptep -> kept vs0 vs ->
  (forall va, 0 <= va < 2 ^ 39 -> walk vs va = walk vs0 va) ->
  map_post (goes delta flags) vs0 start end_ (stage1_map_pte_range vs ptep start end_ (start + delta) flags).
Proof.
  intros. unfold stage1_map_pte_range. pose proof (pte_index_range start).
  destruct (map_pte_loop_spec 513 vs pos ptep start end_ delta flags) as (vs' & -> & Hok & Hk & Hr);
    try done; try lia.
  apply (map_post_all _ _ _ _ _ pos); [lia|done|by eapply kept_trans|by eapply remap_walk_l].
Qed.

Definition no_block (vs : vspace A) (lo hi : Z) : Prop :=
  forall va d, lo <= va < hi -> walk vs va <> Some (LBlock d).

Lemma map_pmd_entry_post vs pos pmdp start next delta flags :
  pt_ok vs pos -> 0 <= start < next -> next <= 2 ^ 39 ->
  start mod 4096 = 0 -> next mod 4096 = 0 -> start / 2 ^ 21 = (next - 1) / 2 ^ 21 ->
  0 <= start + delta -> next + delta <= 2 ^ 48 -> delta mod 4096 = 0 ->
  pmd_table vs start = Some pmdp -> no_block vs start next ->
  map_post (goes delta flags) vs start next
    (map_pmd_entry vs pmdp (stage1_pmd_index start) start next (start + delta) flags).
Proof.
  intros Hok Hs He Ms Me Hb Hd Hd' Md Hp Hnb. unfold map_pmd_entry. rewrite (wrap_small 64) by lia.
  pose proof (pmd_table_place vs pos start pmdp Hok Hp) as Hpl.
  destruct (entry_exists vs pos pmdp _ _ Hok Hpl (pmd_index_range start)) as [old Hold].
  rewrite (entry_read _ _ _ _ Hold). cbn [obind].
  assert (Hpm : pmd_of vs start = Some old) by (unfold pmd_of; by rewrite Hp).
  destruct (stage1_pmd_huge_page _ _ _ _ _) eqn:Hhuge.
  - unfold stage1_pmd_huge_page in Hhuge.
    destruct (negb _ || negb _) eqn:H1 in Hhuge; [done|].
    destruct (negb _ || negb _ || negb _) eqn:H2 in Hhuge; [done|]. bool_hyps.
    rewrite IS_BLOCK_ALIGN_spec in *. bool_hyps. change BLOCK_SIZE with (2 ^ 21) in *.
    assert (En : next = start + 2 ^ 21) by (Z.div_mod_to_equations; lia).
    destruct (block_desc (start + delta) flags ltac:(lia) ltac:(done)) as [El _].
    destruct (set_pmd_spec vs pos start pmdp _ Hok ltac:(lia) Hp (or_intror El))
      as (vs1 & -> & Hok1 & Hk1 & _ & _ & _ & Hw1). cbn [obind].
    apply (map_post_all _ _ _ _ _ pos); try done; [lia|]. split.
    + intros va Hva. assert (Ev : va / 2 ^ 21 = start / 2 ^ 21) by (Z.div_mod_to_equations; lia).
      rewrite Hw1, Ev, Z.eqb_refl by lia. right.
      replace (va + delta - va mod 2 ^ 21) with (start + delta) by (Z.div_mod_to_equations; lia).
      split; [done|]. split; [|done]. unfold block_leaf, stage1_pmd_huge, S1_DES_BLOCK. rewrite El.
      destruct (Z.eqb_spec (stage1_pmd_attr (start + delta) flags) 0) as [E0|]; [|done].
      rewrite E0 in El. done.
    + intros va Hva Hno. rewrite Hw1 by done.
      destruct (Z.eqb_spec (va / 2 ^ 21) (start / 2 ^ 21)); [Z.div_mod_to_equations; lia|done].
  - destruct (Z.eqb_spec old 0) as [->|Hold0].
    + pose proof (populate_pmd vs pos start pmdp flags Hok ltac:(lia) Hp Hpm) as Hn.
      destruct (new_table vs) as [[v vs1]| | |]; cbn [obind]; try done.
      destruct Hn as [[-> ->]|(Hv0 & vs2 & pos2 & E & Hok2 & Hk2 & Hpt2 & Hw2)].
      { cbn. apply (map_post_none _ _ _ _ pos); [lia|done]. }
      destruct (Z.eqb_spec v 0); [done|]. rewrite E. cbn [obind].
      by apply (map_pte_range_post vs vs2 pos2).
    + assert (Ht : Z.land old 3 = 3).
      { destruct (pt_entry _ _ Hok _ _ _ _ Hpl (pmd_index_range start) Hold) as [|[E1|[E3 _]]]; [done| |done].
        exfalso. apply (Hnb start old ltac:(lia)). unfold walk, is_table. rewrite Hpm, E1. cbn.
        unfold block_leaf, stage1_pmd_huge. rewrite E1. by destruct (Z.eqb_spec old 0). }
      apply (map_pte_range_post vs vs pos); try done.
      unfold pte_table. rewrite Hpm. cbn. unfold is_table. by rewrite Ht.
Qed.


(** A round ends at the next boundary or at the end of the range. *)
Lemma addr_end_pmd start end_ :
  0 <= start < end_ -> end_ <= 2 ^ 39 ->
  stage1_xxx_addr_end start end_ S1_PMD_SIZE = Z.min (2 ^ 21 * (start / 2 ^ 21 + 1)) end_.
Proof. intros. change S1_PMD_SIZE with (2 ^ 21). apply addr_end_spec; lia. Qed.

Lemma addr_end_pud start end_ :
  0 <= start < end_ -> end_ <= 2 ^ 39 ->
  stage1_xxx_addr_end start end_ S1_PUD_SIZE = Z.min (2 ^ 30 * (start / 2 ^ 30 + 1)) end_.
Proof. intros. change S1_PUD_SIZE with (2 ^ 30). apply addr_end_spec; lia. Qed.

Lemma pmd_table_same vs va wa :
  stage1_pud_index va = stage1_pud_index wa -> pmd_table vs va = pmd_table vs wa.
Proof. intros E. unfold pmd_table. by rewrite E. Qed.

Lemma no_block_rest Q vs vs' lo mid hi :
  0 <= mid -> hi <= 2 ^ 39 -> remap Q lo mid vs vs' -> no_block vs lo hi -> lo <= mid -> no_block vs' mid hi.
Proof. intros H0 Hhi [_ R] Hnb Hm va d Hva. rewrite R by lia. apply Hnb. lia. Qed.

Lemma map_pmd_loop_post n vs pos pmdp start end_ delta flags :
  pt_ok vs pos -> 0 <= start < end_ -> end_ <= 2 ^ 39 ->
  start mod 4096 = 0 -> end_ mod 4096 = 0 -> start / 2 ^ 30 = (end_ - 1) / 2 ^ 30 ->
  0 <= start + delta -> end_ + delta <= 2 ^ 48 -> delta mod 4096 = 0 ->
  pmd_table vs start = Some pmdp -> no_block vs start end_ ->
  512 - stage1_pmd_index start < Z.of_nat n ->
  map_post (goes delta flags) vs start end_
    (map_pmd_loop n vs pmdp (stage1_pmd_index start) start end_ (start + delta) flags).
Proof.
  revert vs pos start. induction n as [|n IH]; intros vs pos start Hok Hs He Ms Me Hb Hd Hd' Md Hp Hnb Hn.
  { pose proof (pmd_index_range start). lia. }
  cbn [map_pmd_loop]. rewrite addr_end_pmd by lia.
  set (next := Z.min (2 ^ 21 * (start / 2 ^ 21 + 1)) end_).
  assert (Hnext : start < next <= end_ /\ next mod 4096 = 0 /\ start / 2 ^ 21 = (next - 1) / 2 ^ 21 /\
                  (next <> end_ -> next = 2 ^ 21 * (start / 2 ^ 21 + 1))).
  { subst next. Z.div_mod_to_equations; lia. }
  clearbody next. destruct Hnext as (Hsn & Mn & Hbn & Hcut).
  apply (map_post_step _ vs start next end_); try lia.
  { apply (map_pmd_entry_post vs pos); try done; try lia. intros va d Hva. apply Hnb. lia. }
  intros vs1 pos1 Hok1 Hk1 Hr1. rewrite (wrap_small 64 (next - start)), wrap_small by lia.
  destruct (Z.eqb_spec next end_) as [->|Hne].
  { apply (map_post_all _ _ _ _ _ pos1); [lia|done|apply kept_refl|apply remap_empty]. }
  specialize (Hcut Hne).
  assert (Hidx : stage1_pmd_index next = stage1_pmd_index start + 1).
  { rewrite !pmd_index_div. Z.div_mod_to_equations; lia. }
  assert (Hpud : stage1_pud_index next = stage1_pud_index start).
  { rewrite !pud_index_div by lia. Z.div_mod_to_equations; lia. }
  rewrite <- Hidx. replace (start + delta + (next - start)) with (next + delta) by lia.
  apply (IH vs1 pos1); try done; try lia.
  - Z.div_mod_to_equations; lia.
  - apply (k_pmd_table _ _ Hk1). by rewrite (pmd_table_same vs next start).
  - eapply no_block_rest; [..|exact Hnb|]; try done; lia.
Qed.

Lemma map_pmd_range_post vs0 vs pos pmdp start end_ delta flags :
  pt_ok vs pos -> 0 <= start < end_ -> end_ <= 2 ^ 39 ->
  start mod 4096 = 0 -> end_ mod 4096 = 0 -> start / 2 ^ 30 = (end_ - 1) / 2 ^ 30 ->
  0 <= start + delta -> end_ + delta <= 2 ^ 48 -> delta mod 4096 = 0 ->
  pmd_table vs start = Some pmdp -> no_block vs0 start end_ -> kept vs0 vs ->
  (forall va, 0 <= va < 2 ^ 39 -> walk vs va = walk vs0 va) ->
  map_post (goes delta flags) vs0 start end_ (stage1_map_pmd_range vs pmdp start end_ (start + delta) flags).
Proof.
  intros Hok Hs He Ms Me Hb Hd Hd' Md Hp Hnb Hk Hw. unfold stage1_map_pmd_range.
  pose proof (pmd_index_range start).
  assert (Hl : map_post (goes delta flags) vs start end_
    (map_pmd_loop 513 vs pmdp (stage1_pmd_index start) start end_ (start + delta) flags)).
  { apply (map_pmd_loop_post 513 vs pos); try done; try lia.
    intros va d Hva. rewrite Hw by lia. by apply Hnb. }
  destruct (map_pmd_loop _ _ _ _ _ _ _ _) as [[ret vs']| | |]; try done.
  destruct Hl as (mid & pos' & Hmid & Hret & Hok' & Hk' & Hr). exists mid, pos'.
  split_and!; try done; try lia; [by eapply kept_trans|by eapply remap_walk_l].
Qed.

Lemma map_pud_entry_post vs pos start next delta flags :
  pt_ok vs pos -> 0 <= start < next -> next <= 2 ^ 39 ->
  start mod 4096 = 0 -> next mod 4096 = 0 -> start / 2 ^ 30 = (next - 1) / 2 ^ 30 ->
  0 <= start + delta -> next + delta <= 2 ^ 48 -> delta mod 4096 = 0 -> no_block vs start next ->
  map_post (goes delta flags) vs start next
    (map_pud_entry vs (stage1_pud_index start) start next (start + delta) flags).
Proof.
  intros Hok Hs He Ms Me Hb Hd Hd' Md Hnb. unfold map_pud_entry.
  destruct (entry_exists vs pos _ _ _ Hok (pt_root _ _ Hok) (pud_index_range start)) as [old Hold].
  rewrite (entry_read _ _ _ _ Hold). cbn [obind]. destruct (Z.eqb_spec old 0) as [->|Hold0].
  - pose proof (populate_pud vs pos start flags Hok ltac:(lia) Hold) as Hn.
    destruct (new_table vs) as [[v vs1]| | |]; cbn [obind]; try done.
    destruct Hn as [[-> ->]|(Hv0 & Eg & vs2 & pos2 & E & Hok2 & Hk2 & Hpt2 & Hw2)].
    { cbn. apply (map_post_none _ _ _ _ pos); [lia|done]. }
    destruct (Z.eqb_spec v 0); [done|]. rewrite E. cbn [obind].
    by apply (map_pmd_range_post vs vs2 pos2).
  - apply (map_pmd_range_post vs vs pos); try done. unfold pmd_table. rewrite Hold. cbn. unfold is_table.
    destruct (pt_entry _ _ Hok _ _ _ _ (pt_root _ _ Hok) (pud_index_range start) Hold) as [|[-> _]]; done.
Qed.

Lemma map_pud_loop_post n vs pos start end_ delta flags :
  pt_ok vs pos -> 0 <= start < end_ -> end_ <= 2 ^ 39 ->
  start mod 4096 = 0 -> end_ mod 4096 = 0 ->
  0 <= start + delta -> end_ + delta <= 2 ^ 48 -> delta mod 4096 = 0 -> no_block vs start end_ ->
  512 - stage1_pud_index start < Z.of_nat n ->
  map_post (goes delta flags) vs start end_
    (map_pud_loop n vs (stage1_pud_index start) start end_ (start + delta) flags).
Proof.
  revert vs pos start. induction n as [|n IH]; intros vs pos start Hok Hs He Ms Me Hd Hd' Md Hnb Hn.
  { pose proof (pud_index_range start). lia. }
  cbn [map_pud_loop]. rewrite addr_end_pud by lia.
  set (next := Z.min (2 ^ 30 * (start / 2 ^ 30 + 1)) end_).
  assert (Hnext : start < next <= end_ /\ next mod 4096 = 0 /\ start / 2 ^ 30 = (next - 1) / 2 ^ 30 /\
                  (next <> end_ -> next = 2 ^ 30 * (start / 2 ^ 30 + 1))).
  { subst next. Z.div_mod_to_equations; lia. }
  clearbody next. destruct Hnext as (Hsn & Mn & Hbn & Hcut).
  apply (map_post_step _ vs start next end_); try lia.
  { apply (map_pud_entry_post vs pos); try done; try lia. intros va d Hva. apply Hnb. lia. }
  intros vs1 pos1 Hok1 Hk1 Hr1. rewrite (wrap_small 64 (next - start)), wrap_small by lia.
  destruct (Z.eqb_spec next end_) as [->|Hne].
  { apply (map_post_all _ _ _ _ _ pos1); [lia|done|apply kept_refl|apply remap_empty]. }
  specialize (Hcut Hne).
  assert (Hidx : stage1_pud_index next = stage1_pud_index start + 1).
  { rewrite !pud_index_div by lia. Z.div_mod_to_equations; lia. }
  rewrite <- Hidx. replace (start + delta + (next - start)) with (next + delta) by lia.
  apply (IH vs1 pos1); try done; try lia.
  eapply no_block_rest; [..|exact Hnb|]; try done; lia.
Qed.


(** ** Unmapping a range *)

(** The page a leaf descriptor points to, and whether it belongs to the address space. *)
Definition leaf_desc (l : leaf) : Z := match l with LPage d => d | LBlock d => d end.
Definition leaf_frame (l : leaf) : Z := Z.land (leaf_desc l) S1_PHYSICAL_MASK.
Definition owned (l : leaf) : bool :=
  (Z.land (leaf_desc l) S1_PFNMAP =? 0) && (Z.land (leaf_desc l) S1_SHARED =? 0).

(** The pages that unmapping [[lo, hi)] gives back: the frames it owns, and the PTE
    tables of the blocks that lie inside the range. *)
Definition frames (vs : vspace A) (lo hi x : Z) : Prop :=
  exists va l, lo <= va < hi /\ walk vs va = Some l /\ owned l = true /\ x = leaf_frame l.
Definition full_tables (vs : vspace A) (lo hi x : Z) : Prop :=
  exists va, 0 <= va /\ lo <= 2 ^ 21 * (va / 2 ^ 21) /\ 2 ^ 21 * (va / 2 ^ 21) + 2 ^ 21 <= hi /\
    pte_table vs va = Some x.
Definition given_back (vs : vspace A) (lo hi x : Z) : Prop :=
  frames vs lo hi x \/ full_tables vs lo hi x.

Definition is_unmapped (va : Z) (l : option leaf) : Prop := l = None.

Record unmapped (vs vs' : vspace A) (lo hi : Z) (back : Z -> Prop) : Prop := {
  u_root : pgdp vs' = pgdp vs;
  u_pages : vs_pages vs' = vs_pages vs;
  u_pmd : forall va, pmd_table vs' va = pmd_table vs va;
  u_pte : forall va, 0 <= va < 2 ^ 39 -> pte_table vs' va = pte_table vs va;
  u_walk : remap is_unmapped lo hi vs vs';
  u_back : exists rel, release_pages vs' = rel ++ release_pages vs /\ forall x, x ∈ rel <-> back x;
}.

Lemma unmapped_trans vs1 vs2 vs3 lo mid hi P1 P2 P3 :
  0 <= lo <= mid -> mid <= hi -> hi <= 2 ^ 39 ->
  unmapped vs1 vs2 lo mid P1 -> unmapped vs2 vs3 mid hi P2 ->
  (forall x, P3 x <-> P1 x \/ P2 x) -> unmapped vs1 vs3 lo hi P3.
Proof.
  intros ? ? ? [A1 A2 A3 A4 A5 (r1 & A6 & A7)] [B1 B2 B3 B4 B5 (r2 & B6 & B7)] HP. split.
  - congruence.
  - congruence.
  - intros va. by rewrite B3.
  - intros va Hva. by rewrite B4, A4.
  - by eapply remap_trans.
  - exists (r2 ++ r1). split; [by rewrite B6, A6, app_assoc|].
    intros x. rewrite elem_of_app, A7, B7, HP. tauto.
Qed.

Lemma unmapped_nothing vs lo hi (P : Z -> Prop) :
  (forall va, lo <= va < hi -> walk vs va = None) -> (forall x, ~ P x) -> unmapped vs vs lo hi P.
Proof.
  intros Hw HP. split; [done|done|done|done|split; [exact Hw|done]|].
  exists []. split; [done|]. intros x. split; [by intros ?%not_elem_of_nil|by intros ?%HP].
Qed.

Lemma unmapped_ext vs vs' lo hi (P P' : Z -> Prop) :
  (forall x, P x <-> P' x) -> unmapped vs vs' lo hi P -> unmapped vs vs' lo hi P'.
Proof.
  intros HP [A1 A2 A3 A4 A5 (r & A6 & A7)]. split; try done. exists r. split; [done|].
  intros x. by rewrite A7.
Qed.

(** The tables do not depend on the list of released pages. *)
Lemma pt_ok_release vs pos r :
  pt_ok vs pos -> pt_ok (mk_vspace (tables vs) (pgdp vs) r (vs_pages vs)) pos.
Proof. intros [H1 H2 H3 H4 H5]. by split. Qed.

(** Giving back the frame of a cleared leaf [l]. *)
Lemma release_leaf_spec vs0 vs pos lo hi (l : leaf) :
  pt_ok vs pos -> release_pages vs = release_pages vs0 -> vs_pages vs = vs_pages vs0 ->
  pgdp vs = pgdp vs0 -> (forall va, pmd_table vs va = pmd_table vs0 va) ->
  (forall va, 0 <= va < 2 ^ 39 -> pte_table vs va = pte_table vs0 va) ->
  remap is_unmapped lo hi vs0 vs -> (owned l = true -> has_page (vs_pages vs0) (leaf_frame l) = true) ->
  exists vs', release_leaf vs (leaf_desc l) = Ret vs' /\ pt_ok vs' pos /\
    unmapped vs0 vs' lo hi (fun x => owned l = true /\ x = leaf_frame l).
Proof.
  intros Hok Er Ep Eg Hpm Hpt Hr Hown. unfold release_leaf. fold (owned l). destruct (owned l) eqn:Ho.
  - unfold add_release_page, ptov. fold (leaf_frame l). unfold stage1_phy_pte. fold (leaf_frame l).
    rewrite Ep, Hown by done. cbn [assert obind].
    eexists. split; [done|]. split; [by rewrite <- Ep; apply pt_ok_release|].
    split; try done. exists [leaf_frame l]. split; [cbn; congruence|].
    intros x. rewrite list_elem_of_singleton. split; [by intros ->|by intros [_ ->]].
  - exists vs. split; [done|]. split; [done|]. split; try done. exists []. split; [done|].
    intros x. split; [by intros ?%not_elem_of_nil|by intros [? _]].
Qed.


Lemma walk_page vs va wa : va / 4096 = wa / 4096 -> walk vs va = walk vs wa.
Proof.
  intros E. destruct (same_page_path va wa E) as (E1 & E2 & E3).
  unfold walk, pte_of, pte_table, pmd_of, pmd_table. by rewrite E1, E2, E3.
Qed.

Lemma frames_split vs vs1 lo mid hi x :
  0 <= lo <= mid -> mid <= hi -> hi <= 2 ^ 39 -> remap is_unmapped lo mid vs vs1 ->
  frames vs lo hi x <-> frames vs lo mid x \/ frames vs1 mid hi x.
Proof.
  intros ? ? ? [_ R]. split.
  - intros (va & l & Hva & Hw & Ho & ->). destruct (decide (va < mid)); [left|right]; exists va, l;
      split_and!; try done; try lia. by rewrite R by lia.
  - intros [(va & l & Hva & Hw & Ho & ->)|(va & l & Hva & Hw & Ho & ->)]; exists va, l;
      split_and!; try done; try lia. by rewrite <- R by lia.
Qed.

(** Every frame the range owns has a page descriptor. *)
Definition frames_known (vs : vspace A) (lo hi : Z) : Prop :=
  forall x, frames vs lo hi x -> has_page (vs_pages vs) x = true.

Lemma frames_known_split vs vs1 lo mid hi P :
  0 <= lo <= mid -> mid <= hi -> hi <= 2 ^ 39 -> unmapped vs vs1 lo mid P ->
  frames_known vs lo hi -> frames_known vs lo mid /\ frames_known vs1 mid hi.
Proof.
  intros ? ? ? Hu Hk. split; intros x Hx.
  - apply Hk, (frames_split vs vs1 lo mid hi); [done|done|done|apply Hu|by left].
  - rewrite (u_pages _ _ _ _ _ Hu).
    apply Hk, (frames_split vs vs1 lo mid hi); [done|done|done|apply Hu|by right].
Qed.

(** One round of the PTE loop. *)
Lemma unmap_pte_step vs pos ptep addr :
  pt_ok vs pos -> 0 <= addr -> addr + 4096 <= 2 ^ 39 -> addr mod 4096 = 0 ->
  pte_table vs addr = Some ptep -> frames_known vs addr (addr + 4096) ->
  exists vs', (let* pte := read_entry vs ptep (stage1_pte_index addr) in
               if negb (pte =? 0) then
                 let* vs := set_entry vs ptep (stage1_pte_index addr) 0 in release_leaf vs pte
               else Ret vs) = Ret vs' /\
    pt_ok vs' pos /\ unmapped vs vs' addr (addr + 4096) (frames vs addr (addr + 4096)).
Proof.
  intros Hok Ha Ha' Ma Hp Hkn. pose proof (pte_table_place vs pos addr ptep Hok Hp) as Hpl.
  destruct (entry_exists vs pos ptep _ _ Hok Hpl (pte_index_range addr)) as [e He].
  rewrite (entry_read _ _ _ _ He). cbn [obind].
  assert (Hw : forall va, addr <= va < addr + 4096 -> walk vs va = page_leaf e).
  { intros va Hva. rewrite (walk_page vs va addr) by (Z.div_mod_to_equations; lia).
    unfold walk, pte_of. rewrite Hp. cbn. rewrite He. unfold pte_table, next_table in Hp.
    destruct (pmd_of vs addr) as [d|]; [|done]. cbn in Hp. by destruct (is_table d). }
  destruct (Z.eqb_spec e 0) as [->|He0]; cbn [negb].
  - exists vs. split; [done|]. split; [done|]. apply unmapped_nothing; [exact Hw|].
    intros x (va & l & Hva & Hl & _). rewrite Hw in Hl by done. done.
  - assert (El : page_leaf e = Some (LPage e)).
    { unfold page_leaf, is_table.
      by destruct (pt_entry _ _ Hok _ _ _ _ Hpl (pte_index_range addr) He) as [| ->]. }
    destruct (set_pte_spec vs pos addr ptep 0 Hok ltac:(lia) Hp (or_introl eq_refl))
      as (vs1 & -> & Hok1 & Hk1 & Ep1 & Hpm1 & Ht1 & Hw1). cbn [obind].
    destruct (release_leaf_spec vs vs1 pos addr (addr + 4096) (LPage e) Hok1) as (vs' & E & Hok' & Hu);
      try done; try apply Hk1.
    { split.
      - intros va Hva. rewrite Hw1 by lia.
        destruct (Z.eqb_spec (va / 4096) (addr / 4096)); [done|Z.div_mod_to_equations; lia].
      - intros va Hva Hno. rewrite Hw1 by done.
        destruct (Z.eqb_spec (va / 4096) (addr / 4096)); [Z.div_mod_to_equations; lia|done]. }
    { intros Ho. apply Hkn. exists addr, (LPage e). rewrite Hw, El by lia. split_and!; done || lia. }
    exists vs'. split; [exact E|]. split; [done|]. revert Hu. apply unmapped_ext. intros x. split.
    + intros [Ho ->]. exists addr, (LPage e). rewrite Hw, El by lia. split_and!; done || lia.
    + intros (va & l & Hva & Hl & Ho & ->). rewrite Hw, El in Hl by done. by injection Hl as <-.
Qed.

Lemma unmap_pte_loop_spec n vs pos ptep addr end_ :
  pt_ok vs pos -> 0 <= addr < end_ -> end_ <= 2 ^ 39 ->
  addr mod 4096 = 0 -> end_ mod 4096 = 0 -> addr / 2 ^ 21 = (end_ - 1) / 2 ^ 21 ->
  pte_table vs addr = Some ptep -> frames_known vs addr end_ ->
  512 - stage1_pte_index addr < Z.of_nat n ->
  exists vs', unmap_pte_loop n vs ptep (stage1_pte_index addr) addr end_ = Ret vs' /\
    pt_ok vs' pos /\ unmapped vs vs' addr end_ (frames vs addr end_).
Proof.
  revert vs addr. induction n as [|n IH]; intros vs addr Hok Hs He Ms Me Hb Hp Hkn Hn.
  { pose proof (pte_index_range addr). lia. }
  assert (Hle : addr + 4096 <= end_) by (Z.div_mod_to_equations; lia).
  assert (Hkn1 : frames_known vs addr (addr + 4096)).
  { intros x (va & l & Hva & Hr). apply Hkn. exists va, l. split; [lia|done]. }
  destruct (unmap_pte_step vs pos ptep addr Hok ltac:(lia) ltac:(lia) Ms Hp Hkn1)
    as (vs1 & E1 & Hok1 & Hu1).
  cbn [unmap_pte_loop]. destruct (read_entry vs ptep (stage1_pte_index addr)) as [pte| | |]; try done.
  cbn [obind] in E1 |- *. rewrite E1. cbn [obind]. change PAGE_SIZE with 4096. rewrite wrap_small by lia.
  destruct (Z.eqb_spec (addr + 4096) end_) as [<-|Hne]; [by exists vs1|].
  assert (Hlt : addr + 4096 < end_) by lia.
  assert (Hblk : (addr + 4096) / 2 ^ 21 = addr / 2 ^ 21) by (Z.div_mod_to_equations; lia).
  assert (Hidx : stage1_pte_index (addr + 4096) = stage1_pte_index addr + 1).
  { rewrite !pte_index_div. Z.div_mod_to_equations; lia. }
  destruct (IH vs1 (addr + 4096)) as (vs' & E & Hok' & Hu'); try done; try lia.
  { Z.div_mod_to_equations; lia. }
  { rewrite (u_pte _ _ _ _ _ Hu1) by lia. by rewrite (pte_table_block vs _ addr). }
  { eapply frames_known_split; [..|exact Hu1|exact Hkn]; lia. }
  rewrite <- Hidx, E. exists vs'. split_and!; try done.
  eapply (unmapped_trans vs vs1 vs' addr (addr + 4096) end_); [lia|lia|lia|exact Hu1|exact Hu'|].
  intros x. apply frames_split; [lia|lia|lia|apply Hu1].
Qed.


(** Blocks in the range lie in it as a whole: they can only be cleared as a whole. *)
Definition whole_blocks (vs : vspace A) (lo hi : Z) : Prop :=
  forall va d, lo <= va < hi -> walk vs va = Some (LBlock d) ->
    lo <= 2 ^ 21 * (va / 2 ^ 21) /\ 2 ^ 21 * (va / 2 ^ 21) + 2 ^ 21 <= hi.

Lemma pmd_of_block vs va wa : va / 2 ^ 21 = wa / 2 ^ 21 -> pmd_of vs va = pmd_of vs wa.
Proof.
  intros E. destruct (same_block_path va wa E) as (E1 & E2). unfold pmd_of, pmd_table. by rewrite E1, E2.
Qed.

Lemma full_tables_block vs lo hi x :
  0 <= lo < hi -> lo / 2 ^ 21 = (hi - 1) / 2 ^ 21 ->
  full_tables vs lo hi x <-> hi - lo = 2 ^ 21 /\ pte_table vs lo = Some x.
Proof.
  intros Hr Hb. split.
  - intros (va & H0 & H1 & H2 & Hx).
    assert (Ev : va / 2 ^ 21 = lo / 2 ^ 21) by (Z.div_mod_to_equations; lia).
    rewrite <- (pte_table_block vs va lo) by done. split; [Z.div_mod_to_equations; lia|done].
  - intros [E Hx]. exists lo. split_and!; try done; Z.div_mod_to_equations; lia.
Qed.

Lemma unmap_huge_spec vs pos pmdp addr d :
  pt_ok vs pos -> 0 <= addr -> addr + 2 ^ 21 <= 2 ^ 39 -> addr mod 2 ^ 21 = 0 ->
  pmd_table vs addr = Some pmdp -> pmd_of vs addr = Some d -> Z.land d 3 = 1 ->
  frames_known vs addr (addr + 2 ^ 21) ->
  exists vs', (let* vs := set_entry vs pmdp (stage1_pmd_index addr) 0 in release_leaf vs d) = Ret vs' /\
    pt_ok vs' pos /\ unmapped vs vs' addr (addr + 2 ^ 21) (given_back vs addr (addr + 2 ^ 21)).
Proof.
  intros Hok Ha Ha' Ma Hp Hd Hl Hkn.
  assert (Hblk : forall va, addr <= va < addr + 2 ^ 21 <-> va / 2 ^ 21 = addr / 2 ^ 21).
  { intros va. Z.div_mod_to_equations; lia. }
  assert (Hw : forall va, addr <= va < addr + 2 ^ 21 -> walk vs va = Some (LBlock d)).
  { intros va Hva. unfold walk. rewrite (pmd_of_block vs va addr), Hd by by apply Hblk.
    unfold is_table, block_leaf, stage1_pmd_huge. rewrite Hl. cbn.
    destruct (Z.eqb_spec d 0) as [->|]; done. }
  destruct (set_pmd_spec vs pos addr pmdp 0 Hok ltac:(lia) Hp (or_introl eq_refl))
    as (vs1 & -> & Hok1 & Hk1 & Ep1 & Hpm1 & Hd1 & Hw1). cbn [obind].
  assert (Hpt1 : forall wa, 0 <= wa < 2 ^ 39 -> pte_table vs1 wa = pte_table vs wa).
  { intros wa Hwa. unfold pte_table. rewrite Hd1 by done.
    destruct (Z.eqb_spec (wa / 2 ^ 21) (addr / 2 ^ 21)) as [E|]; [|done].
    rewrite (pmd_of_block vs wa addr E), Hd. cbn. unfold is_table. by rewrite Hl. }
  destruct (release_leaf_spec vs vs1 pos addr (addr + 2 ^ 21) (LBlock d) Hok1) as (vs' & E & Hok' & Hu);
    try done; try apply Hk1.
  { split; intros va; [intros Hva; rewrite Hw1 by lia|intros Hva Hno; rewrite Hw1 by done];
      rewrite Hblk in *; by destruct (Z.eqb_spec (va / 2 ^ 21) (addr / 2 ^ 21)). }
  { intros Ho. apply Hkn. exists addr, (LBlock d). rewrite Hw by lia. split_and!; done || lia. }
  exists vs'. split; [exact E|]. split; [done|]. revert Hu. apply unmapped_ext. intros x. unfold given_back.
  rewrite full_tables_block by (lia || Z.div_mod_to_equations; lia). split.
  - intros [Ho ->]. left. exists addr, (LBlock d). rewrite Hw by lia. split_and!; done || lia.
  - intros [(va & l & Hva & Hl' & Ho & ->)|[_ Hx]].
    + rewrite Hw in Hl' by done. by injection Hl' as <-.
    + unfold pte_table in Hx. rewrite Hd in Hx. cbn in Hx. unfold is_table in Hx. by rewrite Hl in Hx.
Qed.

(** Adding one more page to those given back. *)
Lemma unmapped_add vs vs' pos lo hi P v :
  pt_ok vs' pos -> unmapped vs vs' lo hi P -> has_page (vs_pages vs) v = true ->
  exists vs2, add_release_page vs' v = Ret vs2 /\ pt_ok vs2 pos /\
    unmapped vs vs2 lo hi (fun x => P x \/ x = v).
Proof.
  intros Hok [A1 A2 A3 A4 A5 (r & A6 & A7)] Hv. unfold add_release_page. rewrite A2, Hv. cbn [assert obind].
  eexists. split; [done|]. split; [rewrite <- A2; by apply pt_ok_release|]. split; try done.
  exists (v :: r). cbn. split; [by rewrite A6|]. intros x. rewrite elem_of_cons, A7. tauto.
Qed.

Lemma unmap_pmd_entry_spec vs pos pmdp addr next :
  pt_ok vs pos -> 0 <= addr < next -> next <= 2 ^ 39 ->
  addr mod 4096 = 0 -> next mod 4096 = 0 -> addr / 2 ^ 21 = (next - 1) / 2 ^ 21 ->
  pmd_table vs addr = Some pmdp -> frames_known vs addr next -> whole_blocks vs addr next ->
  exists vs', unmap_pmd_entry vs pmdp (stage1_pmd_index addr) addr next = Ret vs' /\
    pt_ok vs' pos /\ unmapped vs vs' addr next (given_back vs addr next).
Proof.
  intros Hok Hs He Ms Me Hb Hp Hkn Hwb. unfold unmap_pmd_entry.
  pose proof (pmd_table_place vs pos addr pmdp Hok Hp) as Hpl.
  destruct (entry_exists vs pos pmdp _ _ Hok Hpl (pmd_index_range addr)) as [e He'].
  rewrite (entry_read _ _ _ _ He'). cbn [obind].
  assert (Hpm : pmd_of vs addr = Some e) by (unfold pmd_of; by rewrite Hp).
  pose proof (fun x => full_tables_block vs addr next x Hs Hb) as Hft.
  destruct (Z.eqb_spec e 0) as [->|He0].
  { assert (Hw : forall va, addr <= va < next -> walk vs va = None).
    { intros va Hva. unfold walk. rewrite (pmd_of_block vs va addr), Hpm by (Z.div_mod_to_equations; lia). done. }
    exists vs. split; [done|]. split; [done|]. apply unmapped_nothing; [done|]. intros x [Hf|Hf].
    - destruct Hf as (va & l & Hva & Hl & _). by rewrite Hw in Hl.
    - apply Hft in Hf as [_ Hf]. unfold pte_table in Hf. by rewrite Hpm in Hf. }
  destruct (pt_entry _ _ Hok _ _ _ _ Hpl (pmd_index_range addr) He') as [|[El|[El Hpt]]]; [done| |].
  - replace (stage1_pmd_huge e) with true
      by (unfold stage1_pmd_huge; rewrite El; by destruct (Z.eqb_spec e 0)).
    destruct (Hwb addr e) as [H1 H2]; [lia| |].
    { unfold walk. rewrite Hpm. unfold is_table, block_leaf, stage1_pmd_huge. rewrite El.
      by destruct (Z.eqb_spec e 0). }
    assert (next = addr + 2 ^ 21) as -> by (Z.div_mod_to_equations; lia).
    apply unmap_huge_spec; try done; try lia. Z.div_mod_to_equations; lia.
  - replace (stage1_pmd_huge e) with false
      by (unfold stage1_pmd_huge; rewrite El; by destruct (Z.eqb_spec e 0)).
    set (ptep := Z.land e S1_PHYSICAL_MASK) in *. unfold ptov, stage1_pte_table_addr. fold ptep.
    assert (Hpte : pte_table vs addr = Some ptep).
    { unfold pte_table. rewrite Hpm. cbn. unfold is_table. by rewrite El. }
    pose proof (pte_index_range addr). unfold stage1_unmap_pte_range.
    destruct (unmap_pte_loop_spec 513 vs pos ptep addr next) as (vs1 & -> & Hok1 & Hu1); try done; try lia.
    cbn [obind]. rewrite wrap_small by lia. change S1_PMD_SIZE with (2 ^ 21).
    destruct (Z.eqb_spec (next - addr) (2 ^ 21)) as [Ef|Hne].
    + destruct (unmapped_add vs vs1 pos addr next _ ptep Hok1 Hu1) as (vs2 & E2 & Hok2 & Hu2).
      { apply has_page_live; [apply Hok|]. by apply (pt_page _ _ Hok _ _ Hpt). }
      exists vs2. split; [done|]. split; [done|]. revert Hu2. apply unmapped_ext. intros x. unfold given_back.
      rewrite Hft, Hpte. split.
      * intros [?| ->]; [by left|by right].
      * intros [?|[_ [= <-]]]; [by left|by right].
    + exists vs1. split; [done|]. split; [done|]. revert Hu1. apply unmapped_ext. intros x. unfold given_back.
      rewrite Hft. tauto.
Qed.


Lemma given_back_split vs vs1 lo mid hi P x :
  0 <= lo <= mid -> mid <= hi -> hi <= 2 ^ 39 -> mid mod 2 ^ 21 = 0 -> unmapped vs vs1 lo mid P ->
  given_back vs lo hi x <-> given_back vs lo mid x \/ given_back vs1 mid hi x.
Proof.
  intros ? ? ? Hm Hu. unfold given_back. rewrite (frames_split vs vs1 lo mid hi) by (done || apply Hu).
  assert (Hf : full_tables vs lo hi x <-> full_tables vs lo mid x \/ full_tables vs1 mid hi x); [|tauto].
  split.
  - intros (va & Hv0 & Hv1 & Hv2 & Hx). assert (va < hi) by (Z.div_mod_to_equations; lia).
    destruct (decide (va < mid)); [left|right]; exists va; split_and!; try done;
      try (Z.div_mod_to_equations; lia). by rewrite (u_pte _ _ _ _ _ Hu) by lia.
  - intros [(va & Hv0 & Hv1 & Hv2 & Hx)|(va & Hv0 & Hv1 & Hv2 & Hx)]; exists va; split_and!; try done; try lia.
    assert (va < hi) by (Z.div_mod_to_equations; lia). by rewrite <- (u_pte _ _ _ _ _ Hu) by lia.
Qed.

Lemma whole_blocks_split vs vs1 lo mid hi P :
  0 <= lo <= mid -> mid <= hi -> hi <= 2 ^ 39 -> mid mod 2 ^ 21 = 0 -> unmapped vs vs1 lo mid P ->
  whole_blocks vs lo hi -> whole_blocks vs1 mid hi.
Proof.
  intros ? ? ? Hm Hu Hwb va d Hva Hd. rewrite (proj2 (u_walk _ _ _ _ _ Hu)) in Hd by lia.
  pose proof (Hwb va d ltac:(lia) Hd). Z.div_mod_to_equations; lia.
Qed.

Lemma unmap_pmd_loop_spec n vs pos pmdp addr end_ :
  pt_ok vs pos -> 0 <= addr < end_ -> end_ <= 2 ^ 39 ->
  addr mod 4096 = 0 -> end_ mod 4096 = 0 -> addr / 2 ^ 30 = (end_ - 1) / 2 ^ 30 ->
  pmd_table vs addr = Some pmdp -> frames_known vs addr end_ -> whole_blocks vs addr end_ ->
  512 - stage1_pmd_index addr < Z.of_nat n ->
  exists vs', unmap_pmd_loop n vs pmdp (stage1_pmd_index addr) addr end_ = Ret vs' /\
    pt_ok vs' pos /\ unmapped vs vs' addr end_ (given_back vs addr end_).
Proof.
  revert vs addr. induction n as [|n IH]; intros vs addr Hok Hs He Ms Me Hb Hp Hkn Hwb Hn.
  { pose proof (pmd_index_range addr). lia. }
  cbn [unmap_pmd_loop]. rewrite addr_end_pmd by lia.
  set (next := Z.min (2 ^ 21 * (addr / 2 ^ 21 + 1)) end_).
  assert (Hnext : addr < next <= end_ /\ next mod 4096 = 0 /\ addr / 2 ^ 21 = (next - 1) / 2 ^ 21 /\
                  (next <> end_ -> next = 2 ^ 21 * (addr / 2 ^ 21 + 1))).
  { subst next. Z.div_mod_to_equations; lia. }
  clearbody next. destruct Hnext as (Hsn & Mn & Hbn & Hcut).
  destruct (unmap_pmd_entry_spec vs pos pmdp addr next) as (vs1 & -> & Hok1 & Hu1); try done; try lia.
  { intros x (va & l & Hva & Hr). apply Hkn. exists va, l. split; [lia|done]. }
  { intros va d Hva Hd. destruct (Hwb va d ltac:(lia) Hd). destruct (decide (next = end_)) as [->|Hne]; [done|].
    rewrite (Hcut Hne) in Hva |- *. Z.div_mod_to_equations; lia. }
  cbn [obind]. destruct (Z.eqb_spec next end_) as [->|Hne]; [by exists vs1|]. specialize (Hcut Hne).
  assert (Hidx : stage1_pmd_index next = stage1_pmd_index addr + 1).
  { rewrite !pmd_index_div. Z.div_mod_to_equations; lia. }
  assert (Hpud : stage1_pud_index next = stage1_pud_index addr).
  { rewrite !pud_index_div by lia. Z.div_mod_to_equations; lia. }
  assert (Hm : next mod 2 ^ 21 = 0) by (Z.div_mod_to_equations; lia).
  destruct (IH vs1 next) as (vs' & E & Hok' & Hu'); try done; try lia.
  { Z.div_mod_to_equations; lia. }
  { by rewrite (u_pmd _ _ _ _ _ Hu1), (pmd_table_same vs next addr). }
  { eapply frames_known_split; [..|exact Hu1|exact Hkn]; lia. }
  { eapply whole_blocks_split; [..|exact Hm|exact Hu1|exact Hwb]; lia. }
  rewrite <- Hidx, E. exists vs'. split_and!; try done.
  eapply (unmapped_trans vs vs1 vs' addr next end_); [lia|lia|lia|exact Hu1|exact Hu'|].
  intros x. eapply given_back_split; [..|exact Hm|exact Hu1]; lia.
Qed.

(** A range that ends in the same gigabyte takes one round of the outer loop. *)
Lemma unmap_pud_loop_spec n vs pos start end_ :
  pt_ok vs pos -> 0 <= start < end_ -> start mod 4096 = 0 -> end_ mod 4096 = 0 ->
  start / 2 ^ 30 = end_ / 2 ^ 30 -> end_ < 2 ^ 39 ->
  frames_known vs start end_ -> whole_blocks vs start end_ ->
  exists vs', unmap_pud_loop (S n) vs (stage1_pud_index start) start end_ = Ret vs' /\ pt_ok vs' pos /\
    unmapped vs vs' start end_ (given_back vs start end_).
Proof.
  intros Hok Hs Ms Me Hb He Hkn Hwb. cbn [unmap_pud_loop]. rewrite addr_end_pud by lia.
  replace (Z.min (2 ^ 30 * (start / 2 ^ 30 + 1)) end_) with end_ by (Z.div_mod_to_equations; lia).
  rewrite Z.eqb_refl. unfold unmap_pud_entry.
  destruct (entry_exists vs pos _ _ _ Hok (pt_root _ _ Hok) (pud_index_range start)) as [e He'].
  rewrite (entry_read _ _ _ _ He'). cbn [obind]. rewrite wrap_small by lia. change S1_PUD_SIZE with (2 ^ 30).
  destruct (Z.eqb_spec e 0) as [->|He0]; cbn [obind].
  - exists vs. split; [done|]. split; [done|].
    assert (Hnone : forall va, 0 <= va < 2 ^ 39 -> va / 2 ^ 30 = start / 2 ^ 30 -> pmd_of vs va = None).
    { intros va Hva E. unfold pmd_of, pmd_table. rewrite pud_index_div, E, <- pud_index_div, He' by lia. done. }
    apply unmapped_nothing.
    + intros va Hva. unfold walk. by rewrite Hnone by (Z.div_mod_to_equations; lia).
    + intros x [(va & l & Hva & Hl & _)|(va & Hv0 & Hv1 & Hv2 & Hx)].
      * unfold walk in Hl. by rewrite Hnone in Hl by (Z.div_mod_to_equations; lia).
      * unfold pte_table in Hx. by rewrite Hnone in Hx by (Z.div_mod_to_equations; lia).
  - unfold ptov, stage1_pmd_table_addr, stage1_unmap_pmd_range.
    destruct (pt_entry _ _ Hok _ _ _ _ (pt_root _ _ Hok) (pud_index_range start) He') as [|[El _]]; [done|].
    pose proof (pmd_index_range start).
    destruct (unmap_pmd_loop_spec 513 vs pos (Z.land e S1_PHYSICAL_MASK) start end_)
      as (vs' & -> & Hok' & Hu'); try done; try lia.
    { Z.div_mod_to_equations; lia. }
    { unfold pmd_table. rewrite He'. cbn. unfold is_table. by rewrite El. }
    cbn [obind]. destruct (Z.eqb_spec (end_ - start) (2 ^ 30)); [Z.div_mod_to_equations; lia|].
    by exists vs'.
Qed.

Lemma arch_host_unmap_spec vs pos start end_ :
  pt_ok vs pos -> 0 <= start < end_ -> start mod 4096 = 0 -> end_ mod 4096 = 0 ->
  start / 2 ^ 30 = end_ / 2 ^ 30 -> end_ < 2 ^ 39 ->
  frames_known vs start end_ -> whole_blocks vs start end_ ->
  exists vs', arch_host_unmap vs start end_ = Ret (0, vs') /\ pt_ok vs' pos /\
    unmapped vs vs' start end_ (given_back vs start end_).
Proof.
  intros Hok Hs Ms Me Hb He Hkn Hwb. unfold arch_host_unmap. change S1_VIRT_MAX with (2 ^ 39).
  replace ((start <? 2 ^ 39) && (end_ <=? 2 ^ 39)) with true by (case_bools; done). cbn [assert obind].
  unfold stage1_unmap_pud_range.
  assert (Hidx : stage1_pud_index end_ = stage1_pud_index start) by (rewrite !pud_index_div by lia; lia).
  rewrite Hidx. destruct (unmap_pud_loop_spec 512 vs pos start end_) as (vs' & -> & Hok' & Hu'); try done.
  by exists vs'.
Qed.


(** ** Correctness *)

Lemma maps_to_leaf flags va pa l :
  0 <= pa - va mod 2 ^ 21 -> 0 <= pa < 2 ^ 48 -> (pa - va) mod 4096 = 0 -> 0 <= va -> maps_to flags va pa l ->
  exists d, l = Some d /\ leaf_pa d va = pa.
Proof.
  intros Hpa0 Hpa Hm Hva [->|(_ & -> & Ma)]; eexists; (split; [done|]); cbn [leaf_pa].
  - destruct (page_desc (pa - va mod 4096) flags) as [_ ->]; Z.div_mod_to_equations; lia.
  - destruct (block_desc (pa - va mod 2 ^ 21) flags) as [_ ->]; [Z.div_mod_to_equations; lia|done|].
    change S1_PMD_SIZE with (2 ^ 21). lia.
Qed.

Lemma arch_host_map_spec vs pos start end_ physical flags :
  pt_ok vs pos -> 0 <= start < end_ -> end_ <= 2 ^ 39 ->
  start mod 4096 = 0 -> end_ mod 4096 = 0 -> physical mod 4096 = 0 -> 0 <= physical < 2 ^ 40 ->
  no_block vs start end_ ->
  map_post (goes (physical - start) flags) vs start end_ (arch_host_map vs start end_ physical flags).
Proof.
  intros Hok Hs He Ms Me Mp Hp Hnb. unfold arch_host_map. destruct (Z.eqb_spec end_ start); [lia|].
  change S1_VIRT_MAX with (2 ^ 39). change S1_PHYSICAL_MAX with (2 ^ 40).
  rewrite !IS_PAGE_ALIGN_spec, Ms, Me, Mp.
  replace ((start <? 2 ^ 39) && (end_ <=? 2 ^ 39)) with true by (case_bools; done).
  replace (physical <? 2 ^ 40) with true by (case_bools; done). cbn [assert obind Z.eqb andb].
  unfold stage1_map_pud_range. pose proof (pud_index_range start).
  pose proof (map_pud_loop_post 513 vs pos start end_ (physical - start) flags) as Hl.
  replace (start + (physical - start)) with physical in Hl by lia.
  apply Hl; try done; try lia. Z.div_mod_to_equations; lia.
Qed.

(** The part of [vs] that mapping and unmapping leave alone. *)
Definition same_space (vs vs' : vspace A) : Prop :=
  pgdp vs' = pgdp vs /\ release_pages vs' = release_pages vs.

(** C14: [arch_host_map] on a range without block mappings changes the hardware's walk on
    that range only.  On success every address of the range is mapped, by a page or by
    a block, to its place in the physical range with the requested attributes; when
    table pages run out it returns [-ENOMEM] with a prefix of the range mapped.  The
    tables stay a tree, no access leaves a table, and the kernel stops only if the page
    allocator stops it. *)
Theorem arch_host_map_exact vs start end_ physical flags :
  tables_ok vs -> 0 <= start < end_ -> end_ <= 2 ^ 39 ->
  start mod 4096 = 0 -> end_ mod 4096 = 0 -> physical mod 4096 = 0 -> 0 <= physical < 2 ^ 40 ->
  no_block vs start end_ ->
  match arch_host_map vs start end_ physical flags with
  | Ret (ret, vs') => exists mid, start <= mid <= end_ /\ (ret = 0 /\ mid = end_ \/ ret = - ENOMEM) /\
      tables_ok vs' /\ same_space vs vs' /\
      (forall va, start <= va < mid -> maps_to flags va (physical + (va - start)) (walk vs' va)) /\
      (forall va, 0 <= va < 2 ^ 39 -> ~ start <= va < mid -> walk vs' va = walk vs va)
  | Panic => exists a, kp_ok a /\ get_free_page a GFP_KERNEL = Panic
  | _ => False
  end.
Proof.
  intros [pos Hok] Hs He Ms Me Mp Hp Hnb.
  pose proof (arch_host_map_spec vs pos start end_ physical flags Hok Hs He Ms Me Mp Hp Hnb) as Hm.
  destruct (arch_host_map _ _ _ _ _) as [[ret vs']| | |]; try done.
  destruct Hm as (mid & pos' & Hmid & Hret & Hok' & Hk & [HQ HR]). exists mid.
  split; [done|]. split; [done|]. split; [by exists pos'|]. split; [split; apply Hk|]. split; [|done].
  intros va Hva. specialize (HQ va Hva). cbn in HQ.
  by replace (physical + (va - start)) with (va + (physical - start)) by lia.
Qed.


(** How far the path of an address goes. *)
Inductive path (vs : vspace A) (va : Z) : Prop :=
| path_none :
    read_entry vs (pgdp vs) (stage1_pud_index va) = Ret 0 ->
    pmd_of vs va = None -> path vs va
| path_empty e1 :
    read_entry vs (pgdp vs) (stage1_pud_index va) = Ret e1 -> e1 <> 0 ->
    read_entry vs (Z.land e1 S1_PHYSICAL_MASK) (stage1_pmd_index va) = Ret 0 ->
    pmd_of vs va = Some 0 -> path vs va
| path_block e1 d :
    read_entry vs (pgdp vs) (stage1_pud_index va) = Ret e1 -> e1 <> 0 ->
    pmd_table vs va = Some (Z.land e1 S1_PHYSICAL_MASK) ->
    read_entry vs (Z.land e1 S1_PHYSICAL_MASK) (stage1_pmd_index va) = Ret d ->
    pmd_of vs va = Some d -> d <> 0 -> Z.land d 3 = 1 -> path vs va
| path_page e1 e2 e3 :
    read_entry vs (pgdp vs) (stage1_pud_index va) = Ret e1 -> e1 <> 0 ->
    read_entry vs (Z.land e1 S1_PHYSICAL_MASK) (stage1_pmd_index va) = Ret e2 ->
    pmd_of vs va = Some e2 -> e2 <> 0 -> Z.land e2 3 = 3 ->
    pte_table vs va = Some (Z.land e2 S1_PHYSICAL_MASK) ->
    read_entry vs (Z.land e2 S1_PHYSICAL_MASK) (stage1_pte_index va) = Ret e3 ->
    pte_of vs va = Some e3 -> e3 = 0 \/ Z.land e3 3 = 3 -> path vs va.

Lemma walk_path vs pos va : pt_ok vs pos -> path vs va.
Proof.
  intros Hok.
  destruct (entry_exists vs pos _ _ _ Hok (pt_root _ _ Hok) (pud_index_range va)) as [e1 H1].
  pose proof (entry_read _ _ _ _ H1) as R1.
  assert (T1 : pmd_table vs va = if is_table e1 then Some (Z.land e1 S1_PHYSICAL_MASK) else None).
  { unfold pmd_table. by rewrite H1. }
  destruct (pt_entry _ _ Hok _ _ _ _ (pt_root _ _ Hok) (pud_index_range va) H1) as [->|[L1 P1]].
  { apply path_none; [done|]. unfold pmd_of. by rewrite T1. }
  unfold is_table in T1. rewrite L1 in T1. cbn in T1. pose proof (land3_nonzero _ _ L1 ltac:(done)) as N1.
  destruct (entry_exists vs pos _ _ _ Hok P1 (pmd_index_range va)) as [e2 H2].
  pose proof (entry_read _ _ _ _ H2) as R2.
  assert (D : pmd_of vs va = Some e2) by (unfold pmd_of; by rewrite T1).
  destruct (pt_entry _ _ Hok _ _ _ _ P1 (pmd_index_range va) H2) as [->|[L2|[L2 P2]]].
  - by apply (path_empty vs va e1).
  - apply (path_block vs va e1 e2); try done. by apply (land3_nonzero _ _ L2).
  - destruct (entry_exists vs pos _ _ _ Hok P2 (pte_index_range va)) as [e3 H3].
    assert (T2 : pte_table vs va = Some (Z.land e2 S1_PHYSICAL_MASK)).
    { unfold pte_table. rewrite D. cbn. unfold is_table. by rewrite L2. }
    apply (path_page vs va e1 e2 e3); try done.
    + by apply (land3_nonzero _ _ L2).
    + by apply entry_read.
    + unfold pte_of. by rewrite T2.
    + by apply (pt_entry _ _ Hok _ _ _ _ P2 (pte_index_range va) H3).
Qed.

Lemma va_to_pa_spec vs pos va :
  pt_ok vs pos -> 0 <= va < 2 ^ 39 ->
  stage1_va_to_pa vs va =
    Ret (match walk vs va with
         | Some (LPage d) => if Z.land d S1_PHYSICAL_MASK =? 0 then 0 else leaf_pa (LPage d) va
         | _ => 0
         end).
Proof.
  intros Hok Hva. unfold stage1_va_to_pa, ptov, stage1_pmd_table_addr, stage1_pte_table_addr, walk.
  unfold block_leaf, stage1_pmd_huge, S1_DES_BLOCK.
  destruct (walk_path vs pos va Hok)
    as [R1 D|e1 R1 N1 R2 D|e1 d R1 N1 T1 R2 D N2 L2|e1 e2 e3 R1 N1 R2 D N2 L2 T2 R3 T3 C3];
    rewrite R1, D; cbn [obind]; try done; destruct (Z.eqb_spec e1 0); try done; rewrite R2; cbn [obind]; [done| |].
  - destruct (Z.eqb_spec d 0); [done|]. unfold is_table. by rewrite L2.
  - destruct (Z.eqb_spec e2 0); [done|]. unfold is_table. rewrite L2, R3, T3. cbn. unfold page_leaf, is_table.
    destruct C3 as [->|L3]; [done|]. rewrite L3. cbn.
    destruct (Z.eqb_spec (Z.land e3 S1_PHYSICAL_MASK) 0); [done|]. f_equal.
    replace (not64 S1_PTE_MASK) with (2 ^ 12 - 1) by reflexivity. rewrite land_pow2_mod by lia.
    apply wrap_small. assert (0 <= Z.land S1_PHYSICAL_MASK e3 < 2 ^ 48) by (apply land_word; done).
    rewrite (Z.land_comm e3). change (2 ^ 12) with 4096. pose proof (Z.mod_pos_bound va 4096). lia.
Qed.

(** The software translation agrees with the hardware's walk: it gives the physical
    address of every address mapped by a page, and 0 for every address that is not
    mapped - or that a block maps. *)
Theorem translate_agrees_with_walk vs va :
  tables_ok vs -> 0 <= va < 2 ^ 39 ->
  arch_translate_va_to_pa vs va =
    Ret (match walk vs va with
         | Some (LPage d) => if Z.land d S1_PHYSICAL_MASK =? 0 then 0 else leaf_pa (LPage d) va
         | _ => 0
         end).
Proof. intros [pos Hok]. by apply (va_to_pa_spec vs pos). Qed.


(** ** Permissions *)

(** The descriptor grants what [flags] ask for: bit 7 makes it read-only, bit 6 opens it
    to user space, bits 53 and 54 forbid execution, bit 11 binds it to the address
    space, bits 55 and 57 mark memory that is not released with it. *)
Definition permits (flags d : Z) : Prop :=
  Z.testbit d 7 = (Z.land flags VM_RW_MASK =? __VM_RO) /\
  Z.testbit d 6 = negb (has_flag flags __VM_HOST) /\
  Z.testbit d 11 = negb (has_flag flags __VM_HOST) /\
  Z.testbit d 53 = negb (has_flag flags __VM_EXEC) /\
  Z.testbit d 54 = negb (has_flag flags __VM_EXEC) /\
  Z.testbit d 55 = has_flag flags __VM_PFNMAP /\
  Z.testbit d 57 = has_flag flags (Z.lor __VM_SHARED __VM_PMA).

Definition attr_bits : list Z := [6; 7; 11; 53; 54; 55; 57].

Lemma attr_bits_inv (P : Z -> Prop) :
  P 6 -> P 7 -> P 11 -> P 53 -> P 54 -> P 55 -> P 57 -> forall i, i ∈ attr_bits -> P i.
Proof.
  intros H1 H2 H3 H4 H5 H6 H7 i Hi%list_elem_of_In. cbn in Hi.
  repeat destruct Hi as [<-|Hi]; done.
Qed.

Lemma attr_bits_all (P : Z -> Prop) :
  (forall i, i ∈ attr_bits -> P i) -> P 6 /\ P 7 /\ P 11 /\ P 53 /\ P 54 /\ P 55 /\ P 57.
Proof. intros Hp. split_and!; apply Hp, list_elem_of_In; cbn; tauto. Qed.

Lemma attr_permits desc flags :
  (forall i, i ∈ attr_bits -> Z.testbit desc i = false) -> permits flags (stage1_attr desc flags).
Proof.
  intros (H1 & H2 & H3 & H4 & H5 & H6 & H7)%attr_bits_all. unfold permits, stage1_attr.
  destruct (has_flag flags __VM_HOST), (Z.land flags VM_RW_MASK =? __VM_RO), (has_flag flags __VM_EXEC),
    (has_flag flags __VM_PFNMAP), (has_flag flags __VM_DEVMAP),
    (has_flag flags (Z.lor __VM_SHARED __VM_PMA)); cbn zeta;
    rewrite !Z.lor_spec, H1, H2, H3, H4, H5, H6, H7; split_and!; reflexivity.
Qed.

Lemma aligned_attr_bits pa i :
  0 <= pa < 2 ^ 48 -> pa mod 4096 = 0 -> i ∈ attr_bits -> Z.testbit pa i = false.
Proof.
  intros Hp Hm. revert i. rewrite <- (phys_aligned pa Hp Hm).
  apply attr_bits_inv; rewrite Z.land_spec; apply andb_false_r.
Qed.

Lemma leaf_attr_bits des mt i :
  des ∈ [S1_DES_BLOCK; S1_DES_PAGE] -> mt ∈ [MT_DEVICE_nGnRnE; MT_NORMAL_NC; MT_NORMAL; MT_NORMAL_WT] ->
  i ∈ attr_bits -> Z.testbit (s1_leaf des mt) i = false.
Proof.
  intros Hd%list_elem_of_In Hm%list_elem_of_In. revert i. cbn [In] in Hd, Hm.
  repeat destruct Hd as [<-|Hd]; try done; repeat destruct Hm as [<-|Hm]; try done;
    apply attr_bits_inv; reflexivity.
Qed.

Lemma permits_lor flags d pa :
  permits flags d -> (forall i, i ∈ attr_bits -> Z.testbit pa i = false) -> permits flags (Z.lor d pa).
Proof.
  intros Hp (H1 & H2 & H3 & H4 & H5 & H6 & H7)%attr_bits_all. unfold permits in *.
  by rewrite !Z.lor_spec, H1, H2, H3, H4, H5, H6, H7, !orb_false_r.
Qed.

(** A mapping grants exactly the rights it was made with: read-only requests are not
    writable, pages of a process are open to user space and kernel pages are not, and
    memory is executable only on request. *)
Theorem mapping_permissions flags va pa l :
  0 <= pa - va mod 2 ^ 21 -> pa < 2 ^ 48 -> (pa - va) mod 4096 = 0 -> 0 <= va ->
  maps_to flags va pa (Some l) -> permits flags (leaf_desc l).
Proof.
  intros Hpa0 Hpa Hm Hva [[= ->]|(_ & [= ->] & Ma)]; cbn [leaf_desc].
  - apply permits_lor.
    + apply attr_permits. intros i Hi. rewrite Z.lor_spec, Z.land_0_l, Z.testbit_0_l. cbn [orb].
      repeat case_match; apply leaf_attr_bits; done || (apply list_elem_of_In; cbn; tauto).
    + intros i Hi. apply aligned_attr_bits; [Z.div_mod_to_equations; lia..|done].
  - apply attr_permits. intros i Hi. rewrite Z.lor_spec, Z.land_spec, aligned_attr_bits;
      [|Z.div_mod_to_equations; lia..|done]. cbn [andb orb].
    repeat case_match; apply leaf_attr_bits; done || (apply list_elem_of_In; cbn; tauto).
Qed.


(** ** Changing a mapping *)

Lemma pte_attr_low phy flags : Z.land (stage1_pte_attr phy flags) 3 = 3.
Proof.
  unfold stage1_pte_attr. rewrite attr_low, Z.land_lor_distr_l, <- Z.land_assoc.
  change (Z.land S1_PTE_MASK 3) with 0. rewrite Z.land_0_r. by repeat case_match.
Qed.

Lemma pmd_attr_low phy flags : Z.land (stage1_pmd_attr phy flags) 3 = 1.
Proof.
  unfold stage1_pmd_attr. rewrite attr_low, Z.land_lor_distr_l, <- Z.land_assoc.
  change (Z.land S1_PMD_MASK 3) with 0. rewrite Z.land_0_r. by repeat case_match.
Qed.

Lemma change_pmd vs pos vir p e :
  pt_ok vs pos -> 0 <= vir < 2 ^ 39 -> pmd_table vs vir = Some p -> Z.land e 3 = 1 ->
  exists vs', (let* vs := set_entry vs p (stage1_pmd_index vir) 0 in
               let* vs := set_entry vs p (stage1_pmd_index vir) e in Ret (0, vs)) = Ret (0, vs') /\
    tables_ok vs' /\ forall va, 0 <= va < 2 ^ 39 ->
      walk vs' va = if va / 2 ^ 21 =? vir / 2 ^ 21 then Some (LBlock e) else walk vs va.
Proof.
  intros Hok Hva Hp He. destruct (set_pmd_spec vs pos vir p 0 Hok Hva Hp (or_introl eq_refl))
    as (vs1 & -> & Hok1 & _ & _ & Hpm1 & _ & Hw1). cbn [obind].
  destruct (set_pmd_spec vs1 pos vir p e Hok1 Hva ltac:(by rewrite Hpm1) (or_intror He))
    as (vs2 & -> & Hok2 & _ & _ & _ & _ & Hw2). cbn [obind].
  exists vs2. split; [done|]. split; [by exists pos|]. intros va Hv. rewrite Hw2, Hw1 by done.
  destruct (va / 2 ^ 21 =? vir / 2 ^ 21); [|done]. unfold block_leaf, stage1_pmd_huge. rewrite He.
  destruct (Z.eqb_spec e 0) as [->|]; done.
Qed.

Lemma change_pte vs pos vir p e :
  pt_ok vs pos -> 0 <= vir < 2 ^ 39 -> pte_table vs vir = Some p -> Z.land e 3 = 3 ->
  exists vs', (let* vs := set_entry vs p (stage1_pte_index vir) 0 in
               let* vs := set_entry vs p (stage1_pte_index vir) e in Ret (0, vs)) = Ret (0, vs') /\
    tables_ok vs' /\ forall va, 0 <= va < 2 ^ 39 ->
      walk vs' va = if va / 4096 =? vir / 4096 then Some (LPage e) else walk vs va.
Proof.
  intros Hok Hva Hp He. destruct (set_pte_spec vs pos vir p 0 Hok Hva Hp (or_introl eq_refl))
    as (vs1 & -> & Hok1 & _ & _ & _ & Ht1 & Hw1). cbn [obind].
  destruct (set_pte_spec vs1 pos vir p e Hok1 Hva ltac:(by rewrite Ht1) (or_intror He))
    as (vs2 & -> & Hok2 & _ & _ & _ & _ & Hw2). cbn [obind].
  exists vs2. split; [done|]. split; [by exists pos|]. intros va Hv. rewrite Hw2, Hw1 by done.
  destruct (va / 4096 =? vir / 4096); [|done]. unfold page_leaf, is_table. by rewrite He.
Qed.

(** [arch_host_change_map] replaces the descriptor that maps [vir] - its page, or its
    whole block - and no other; without a table on the path it returns [-ENOMEM] and
    changes nothing. *)
Theorem change_map_exact vs vir phy flags :
  tables_ok vs -> 0 <= vir < 2 ^ 39 ->
  (pmd_of vs vir = None \/ pmd_of vs vir = Some 0 ->
    arch_host_change_map vs vir phy flags = Ret (- ENOMEM, vs)) /\
  (is_Some (pte_table vs vir) -> exists vs', arch_host_change_map vs vir phy flags = Ret (0, vs') /\
    tables_ok vs' /\ forall va, 0 <= va < 2 ^ 39 ->
      walk vs' va = if va / 4096 =? vir / 4096 then Some (LPage (stage1_pte_attr phy flags)) else walk vs va) /\
  (forall d, walk vs vir = Some (LBlock d) -> exists vs', arch_host_change_map vs vir phy flags = Ret (0, vs') /\
    tables_ok vs' /\ forall va, 0 <= va < 2 ^ 39 ->
      walk vs' va = if va / 2 ^ 21 =? vir / 2 ^ 21 then Some (LBlock (stage1_pmd_attr phy flags)) else walk vs va).
Proof.
  intros [pos Hok] Hva. unfold arch_host_change_map, stage1_get_leaf_entry, stage1_pmd_table_addr, stage1_pte_table_addr.
  destruct (walk_path vs pos vir Hok)
    as [R1 D|e1 R1 N1 R2 D|e1 d R1 N1 T1 R2 D N2 L2|e1 e2 e3 R1 N1 R2 D N2 L2 T2 R3 T3 C3];
    rewrite R1; cbn [obind].
  - unfold pte_table. rewrite D. split_and!; [done|by intros [? ?]|]. intros d. unfold walk at 1. by rewrite D.
  - destruct (Z.eqb_spec e1 0); [done|]. rewrite R2. unfold pte_table. rewrite D. cbn.
    split_and!; [done|by intros [? ?]|]. intros d. unfold walk at 1. by rewrite D.
  - destruct (Z.eqb_spec e1 0); [done|]. rewrite R2. cbn [obind]. unfold stage1_pmd_huge, S1_DES_BLOCK.
    destruct (Z.eqb_spec d 0); [done|]. rewrite L2. cbn [negb andb Z.eqb Pos.eqb obind].
    rewrite D. split_and!; [by intros [?|[= ?]]| |].
    + unfold pte_table. rewrite D. cbn. unfold is_table. rewrite L2. by intros [? ?].
    + intros ? _. by apply (change_pmd vs pos), pmd_attr_low.
  - destruct (Z.eqb_spec e1 0); [done|]. rewrite R2. cbn [obind]. unfold stage1_pmd_huge, S1_DES_BLOCK.
    destruct (Z.eqb_spec e2 0); [done|]. rewrite L2. cbn [negb andb Z.eqb Pos.eqb obind].
    rewrite D. split_and!; [by intros [?|[= ?]]| |].
    + intros _. by apply (change_pte vs pos), pte_attr_low.
    + intros d. unfold walk at 1. rewrite D. unfold is_table. rewrite L2, T3. cbn. unfold page_leaf.
      by destruct (is_table e3).
Qed.

End stage1.

(** ** A concrete address space *)

(** The pool of [small_section] after one page went to the root table. *)
Definition demo_pool : list mem_section :=
  match get_free_page [small_section] GFP_KERNEL with Ret (_, l) => l | _ => [] end.
Definition demo_root : Z := 0x40000000.
Definition demo_space : vspace (list mem_section) :=
  mk_vspace {[ demo_root := replicate 512 0 ]} demo_root [] demo_pool.

Lemma demo_space_ok : tables_ok demo_space.
Proof.
  assert (E : get_free_page [small_section] GFP_KERNEL = Ret (demo_root, demo_pool)) by reflexivity.
  assert (H0 : kp_ok [small_section]) by exact small_table_ok.
  destruct (get_free_page_new _ _ _ _ H0 E) as [[? _]|(Hv & Hv' & Hm & _ & Hok & Hl)]; [done|].
  exists {[ demo_root := PRoot ]}. split; cbn [pgdp tables vs_pages demo_space].
  - by rewrite lookup_singleton_eq.
  - intros a pl [<- <-]%lookup_singleton_Some. split; [lia|]. split; [exact Hm|]. apply Hl. by left.
  - intros a pl [<- <-]%lookup_singleton_Some. rewrite lookup_singleton_eq.
    exists (replicate 512 0). split; [done|apply length_replicate].
  - intros a pl i e [<- <-]%lookup_singleton_Some Hi. unfold entry. cbn [tables demo_space].
    rewrite lookup_singleton_eq. cbn [mbind option_bind]. intros [-> _]%lookup_replicate. by left.
  - exact Hok.
Qed.

Lemma demo_space_walk va : walk demo_space va = None.
Proof.
  unfold walk, pmd_of, pmd_table, entry. cbn [tables pgdp demo_space].
  rewrite lookup_singleton_eq. cbn [mbind option_bind]. rewrite lookup_replicate_2; [done|]. pose proof (pud_index_range va). lia.
Qed.

Definition demo_flags : Z := Z.lor __VM_NORMAL (Z.lor __VM_RO __VM_PFNMAP).

(** Two pages at [0x1000] mapped to [0x50000000]. *)
Definition demo_mapped : vspace (list mem_section) :=
  match arch_host_map demo_space 0x1000 0x3000 0x50000000 demo_flags with
  | Ret (_, vs) => vs
  | _ => demo_space
  end.

Lemma demo_mapped_run :
  arch_host_map demo_space 0x1000 0x3000 0x50000000 demo_flags = Ret (0, demo_mapped).
Proof. vm_compute. reflexivity. Qed.

Lemma demo_mapped_ok : tables_ok demo_mapped.
Proof.
  destruct demo_space_ok as [pos Hok].
  pose proof (arch_host_map_spec demo_space pos 0x1000 0x3000 0x50000000 demo_flags Hok ltac:(lia) ltac:(lia)
    eq_refl eq_refl eq_refl ltac:(lia)) as Hm. rewrite demo_mapped_run in Hm.
  destruct Hm as (_ & pos' & _ & _ & Hok' & _); [|by exists pos'].
  intros va d _. by rewrite demo_space_walk.
Qed.

Lemma demo_mapped_walk va :
  0x1000 <= va < 0x3000 ->
  walk demo_mapped va = walk demo_mapped 0x1000 \/ walk demo_mapped va = walk demo_mapped 0x2000.
Proof.
  intros Hva. destruct (decide (va < 0x2000)); [left|right]; apply walk_page; Z.div_mod_to_equations; lia.
Qed.

Lemma arch_host_map_exact_witness :
  exists ret vs', arch_host_map demo_space 0x1000 0x3000 0x50000000 demo_flags = Ret (ret, vs') /\
    ret = 0 /\ maps_to demo_flags 0x2008 0x50001008 (walk vs' 0x2008) /\ walk vs' 0x5000 = None.
Proof.
  pose proof (arch_host_map_exact demo_space 0x1000 0x3000 0x50000000 demo_flags demo_space_ok ltac:(lia) ltac:(lia)
    eq_refl eq_refl eq_refl ltac:(lia) (fun va d _ => ltac:(by rewrite demo_space_walk))) as Hm.
  rewrite demo_mapped_run in Hm. destruct Hm as (mid & _ & [[_ ->]|?] & _ & _ & Hin & Hout); [|done].
  exists 0, demo_mapped. split; [exact demo_mapped_run|]. split; [done|]. split.
  - exact (Hin 0x2008 ltac:(lia)).
  - rewrite (Hout 0x5000 ltac:(lia) ltac:(lia)). apply demo_space_walk.
Defined.


Lemma translate_agrees_with_walk_witness : arch_translate_va_to_pa demo_mapped 0x2008 = Ret 0x50001008.
Proof.
  rewrite (translate_agrees_with_walk demo_mapped 0x2008 demo_mapped_ok ltac:(lia)). vm_compute. reflexivity.
Defined.

Lemma mapping_permissions_witness : permits demo_flags (Z.lor (stage1_pte_attr 0 demo_flags) 0x50001000).
Proof.
  exact (mapping_permissions demo_flags 0x2008 0x50001008 (LPage (Z.lor (stage1_pte_attr 0 demo_flags) 0x50001000))
    ltac:(vm_compute; discriminate) ltac:(lia) eq_refl ltac:(lia) (or_introl eq_refl)).
Defined.

Lemma change_map_exact_witness :
  exists vs', arch_host_change_map demo_mapped 0x1000 0x60000000 demo_flags = Ret (0, vs') /\
    walk vs' 0x1008 = Some (LPage (stage1_pte_attr 0x60000000 demo_flags)).
Proof.
  destruct (change_map_exact demo_mapped 0x1000 0x60000000 demo_flags demo_mapped_ok ltac:(lia)) as (_ & Hpte & _).
  destruct Hpte as (vs' & E & _ & Hw); [vm_compute; by eexists|].
  exists vs'. split; [exact E|]. rewrite (Hw 0x1008 ltac:(lia)). reflexivity.
Defined.

(** ** Behaviour outside the theorems *)

(** Unmapping the whole first gigabyte starts at the PUD entry of the second one:
    nothing is unmapped. *)
Lemma unmap_whole_gigabyte_keeps :
  exists vs', arch_host_unmap demo_mapped 0 0x40000000 = Ret (0, vs') /\
    walk vs' 0x1000 = walk demo_mapped 0x1000 /\ is_Some (walk demo_mapped 0x1000).
Proof. exists demo_mapped. vm_compute. split; [reflexivity|]. split; [reflexivity|by eexists]. Qed.

(** Unmapping a whole 2 MiB block queues its PTE table for release and leaves the PMD
    entry that points to it. *)
Lemma unmap_block_keeps_released_table :
  match arch_host_unmap demo_mapped 0 0x200000 with
  | Ret (ret, vs') => ret = 0 /\ release_pages vs' = [0x40002000] /\ pte_table vs' 0x1000 = Some 0x40002000
  | _ => False
  end.
Proof. vm_compute. done. Qed.

(** Mapping a page into a block mapping treats the block's frame as a page table. *)
Lemma map_into_block_faults :
  match arch_host_map demo_space 0 0x200000 0x50000000 (Z.lor __VM_NORMAL __VM_HUGE_2M) with
  | Ret (ret, vs') => ret = 0 /\ arch_host_map vs' 0x1000 0x2000 0x60000000 __VM_NORMAL = Fault
  | _ => False
  end.
Proof. vm_compute. done. Qed.
