(* ===== verification/Stage2.v ===== *)
(** * Stage-2 translation tables

    The tables of [arch/aarch64/virt/stage2.c], through which a virtual machine sees physical memory:
    a root of 1024 descriptors (PUD, two pages) and two levels of 512 (PMD, PTE) for an address space
    of 40 bits.  A table is reached from the one descriptor that points to it, so that an entry is its
    descriptor together with the table behind it; what the descriptor is follows from its bits, as in
    the code.  An index past the end of a table is a fault.  [mem] are the pages that the allocator
    returns, and tables that are freed go on a list.

    The loops over PUD and PMD entries have one shape and are instances of [map_entries] and
    [unmap_entries].  Barriers and invalidation of the translation buffer are left out. *)

From S2P Require Import Prelude Types Bits Stage1.

(** ** Descriptors *)

Definition S2_PUD_SHIFT : Z := 30.
Definition S2_PUD_SIZE : Z := Z.shiftl 1 S2_PUD_SHIFT.
Definition S2_PUD_MASK : Z := not64 (S2_PUD_SIZE - 1).
Definition S2_PMD_SHIFT : Z := 21.
Definition S2_PMD_SIZE : Z := Z.shiftl 1 S2_PMD_SHIFT.
Definition S2_PMD_MASK : Z := not64 (S2_PMD_SIZE - 1).
Definition S2_PTE_SHIFT : Z := 12.
Definition S2_PTE_MASK : Z := not64 (Z.shiftl 1 S2_PTE_SHIFT - 1).
Definition S2_PHYSICAL_MASK : Z := 0x0000fffffffff000.
Definition S2_PHYSICAL_MAX : Z := Z.shiftl 1 40.
Definition VMM_VIRT_MAX : Z := Z.shiftl 1 40.

Definition S2_DES_BLOCK : Z := 1.
Definition S2_DES_TABLE : Z := 3.
Definition S2_DES_PAGE : Z := 3.
Definition S2_XN : Z := Z.shiftl 1 54.
Definition S2_AF : Z := Z.shiftl 1 10.
Definition S2_PFNMAP : Z := Z.shiftl 1 55.
Definition S2_DEVMAP : Z := Z.shiftl 1 56.
Definition S2_SHARED : Z := Z.shiftl 1 57.
Definition S2_SH_OUTER : Z := Z.shiftl 2 8.
Definition S2_SH_INNER : Z := Z.shiftl 3 8.
Definition S2_AP_RO : Z := Z.shiftl 1 6.
Definition S2_AP_WO : Z := Z.shiftl 2 6.
Definition S2_AP_RW : Z := Z.shiftl 3 6.
Definition S2_MEMATTR_DEV_nGnRE : Z := Z.shiftl 1 2.
Definition S2_MEMATTR_NORMAL_NC : Z := Z.shiftl 5 2.
Definition S2_MEMATTR_NORMAL_WT : Z := Z.shiftl 10 2.
Definition S2_MEMATTR_NORMAL_WB : Z := Z.shiftl 15 2.

Definition s2_bits (des sh mt : Z) : Z := Z.lor (Z.lor (Z.lor des S2_AF) sh) mt.
Definition S2_PAGE_NORMAL : Z := s2_bits S2_DES_PAGE S2_SH_INNER S2_MEMATTR_NORMAL_WB.
Definition S2_PAGE_NORMAL_NC : Z := s2_bits S2_DES_PAGE S2_SH_INNER S2_MEMATTR_NORMAL_NC.
Definition S2_PAGE_WT : Z := s2_bits S2_DES_PAGE S2_SH_INNER S2_MEMATTR_NORMAL_WT.
Definition S2_PAGE_DEVICE : Z := Z.lor (s2_bits S2_DES_PAGE S2_SH_OUTER S2_MEMATTR_DEV_nGnRE) S2_XN.
Definition S2_BLOCK_NORMAL : Z := s2_bits S2_DES_BLOCK S2_SH_INNER S2_MEMATTR_NORMAL_WB.
Definition S2_BLOCK_NORMAL_NC : Z := s2_bits S2_DES_BLOCK S2_SH_INNER S2_MEMATTR_NORMAL_NC.
Definition S2_BLOCK_WT : Z := s2_bits S2_DES_BLOCK S2_SH_OUTER S2_MEMATTR_NORMAL_WT.
Definition S2_BLOCK_DEVICE : Z := Z.lor (s2_bits S2_DES_BLOCK S2_SH_OUTER S2_MEMATTR_DEV_nGnRE) S2_XN.

Definition __VM_HUGE_1G : Z := 0x00000400.
Definition __VM_WO : Z := __VM_WRITE.
Definition __VM_RW : Z := Z.lor __VM_READ __VM_WRITE.

Definition stage2_pud_index (addr : Z) : Z := Z.land (Z.shiftr addr S2_PUD_SHIFT) (1024 - 1).
Definition stage2_pmd_index (addr : Z) : Z := Z.land (Z.shiftr addr S2_PMD_SHIFT) (512 - 1).
Definition stage2_pte_index (addr : Z) : Z := Z.land (Z.shiftr addr S2_PTE_SHIFT) (512 - 1).
Definition stage2_huge (d : Z) : bool := negb (d =? 0) && (Z.land d 0x03 =? S2_DES_BLOCK).
Definition IS_PUD_ALIGN (addr : Z) : bool := Z.land addr (S2_PUD_SIZE - 1) =? 0.

Definition stage2_xxx_addr_end (start end_ map_size : Z) : Z :=
  let boundary := Z.land (u64 (start + map_size)) (not64 (map_size - 1)) in
  if u64 (boundary - 1) <? u64 (end_ - 1) then boundary else end_.

(** The part that [stage2_block_attr] and [stage2_page_attr] have in common. *)
Definition stage2_attr (attr flags : Z) : Z :=
  let rw := Z.land flags VM_RW_MASK in
  let attr := Z.lor attr (if rw =? __VM_RO then S2_AP_RO else if rw =? __VM_RW then S2_AP_RW else if rw =? __VM_WO then S2_AP_WO else 0) in
  let attr := if has_flag flags __VM_EXEC then attr else Z.lor attr S2_XN in
  let attr := if has_flag flags __VM_PFNMAP then Z.lor attr S2_PFNMAP else attr in
  let attr := if has_flag flags __VM_DEVMAP then Z.lor attr S2_DEVMAP else attr in
  if has_flag flags __VM_SHARED then Z.lor attr S2_SHARED else attr.

Definition stage2_block_attr (flags : Z) : Z :=
  let type := Z.land flags VM_TYPE_MASK in
  stage2_attr (if type =? __VM_NORMAL_NC then S2_BLOCK_NORMAL_NC else if type =? __VM_IO then S2_BLOCK_DEVICE
               else if type =? __VM_WT then S2_BLOCK_WT else S2_BLOCK_NORMAL) flags.

Definition stage2_page_attr (flags : Z) : Z :=
  let type := Z.land flags VM_TYPE_MASK in
  stage2_attr (if type =? __VM_NORMAL_NC then S2_PAGE_NORMAL_NC else if type =? __VM_IO then S2_PAGE_DEVICE
               else if type =? __VM_WT then S2_PAGE_WT else S2_PAGE_NORMAL) flags.

(** ** Tables *)

Record pmd := mk_pmd { pmd_d : Z; pmd_t : list Z }.
Record pud := mk_pud { pud_d : Z; pud_t : list pmd }.

(** The root of the tables, the pages that the allocator has, and the pages given back. *)
Record s2 := mk_s2 { root : list pud; s2_mem : list Z; s2_freed : list Z }.

Definition empty_tables (mem : list Z) : s2 := mk_s2 (replicate 1024 (mk_pud 0 [])) mem [].

(** [page] is what [__get_free_pages] returns. *)
Definition arch_alloc_guest_pgd (page : Z) (mem : list Z) : option s2 := if page =? 0 then None else Some (empty_tables mem).

Definition stage2_get_free_page (mem : list Z) : Z * list Z :=
  match mem with [] => (0, []) | v :: mem => (v, mem) end.

(** [stage2_pud_populate] and [stage2_pmd_populate] write this descriptor. *)
Definition stage2_populate (addr : Z) : Z := Z.lor (vtop addr) S2_DES_TABLE.

(** ** Mapping *)

(** A loop over the entries of a table: [op] maps the part of the range that lies in one entry. *)
Fixpoint map_entries {E} (size : Z) (op : E -> Z -> Z -> Z -> list Z -> outcome (Z * E * list Z)) (n : nat)
    (t : list E) (idx start end_ physical : Z) (mem : list Z) : outcome (Z * list E * list Z) :=
  match n with
  | O => OutOfFuel
  | S n =>
      let next := stage2_xxx_addr_end start end_ size in
      match t !! Z.to_nat idx with
      | None => Fault
      | Some e =>
          let* (r, mem) := op e start next physical mem in
          let t := <[Z.to_nat idx := snd r]> t in
          if negb (fst r =? 0) then Ret (fst r, t, mem) else
          if next =? end_ then Ret (0, t, mem)
          else map_entries size op n t (idx + 1) next end_ (u64 (physical + u64 (next - start))) mem
      end
  end.

Fixpoint map_pte_loop (n : nat) (t : list Z) (idx start end_ physical pte_attr : Z) : outcome (list Z) :=
  match n with
  | O => OutOfFuel
  | S n =>
      match t !! Z.to_nat idx with
      | None => Fault
      | Some old_pte =>
          let t := <[Z.to_nat idx := Z.lor pte_attr physical]> t in
          let start := u64 (start + PAGE_SIZE) in
          let physical := u64 (physical + PAGE_SIZE) in
          if start =? end_ then Ret t else map_pte_loop n t (idx + 1) start end_ physical pte_attr
      end
  end.

(** A table has 512 entries. *)
Definition stage2_map_pte_range (t : list Z) (start end_ physical flags : Z) : outcome (list Z) :=
  map_pte_loop 513 t (stage2_pte_index start) start end_ physical (stage2_page_attr flags).

Definition stage2_pmd_huge_page (old_pmd start phy size flags : Z) : bool :=
  if negb (has_flag flags (Z.lor __VM_HUGE_2M __VM_HUGE_1G)) || negb (old_pmd =? 0) then false else
  if negb (IS_BLOCK_ALIGN start) || negb (IS_BLOCK_ALIGN phy) || negb (IS_BLOCK_ALIGN size) then false else true.

(** One round of [stage2_map_pmd_range]. *)
Definition map_pmd_entry (flags : Z) (e : pmd) (start next physical : Z) (mem : list Z) : outcome (Z * pmd * list Z) :=
  let size := u64 (next - start) in
  if stage2_pmd_huge_page (pmd_d e) start physical size flags then
    Ret (0, mk_pmd (Z.lor (stage2_block_attr flags) (Z.land physical S2_PMD_MASK)) [], mem)
  else if negb (pmd_d e =? 0) && stage2_huge (pmd_d e) then Ret (- EINVAL, e, mem)
  else if pmd_d e =? 0 then
    let (ptep, mem) := stage2_get_free_page mem in
    if ptep =? 0 then Ret (- ENOMEM, e, mem) else
    let* t := stage2_map_pte_range (replicate 512 0) start next physical flags in
    Ret (0, mk_pmd (stage2_populate ptep) t, mem)
  else
    let* t := stage2_map_pte_range (pmd_t e) start next physical flags in
    Ret (0, mk_pmd (pmd_d e) t, mem).

Definition stage2_map_pmd_range (t : list pmd) (start end_ physical flags : Z) (mem : list Z) : outcome (Z * list pmd * list Z) :=
  map_entries S2_PMD_SIZE (map_pmd_entry flags) 513 t (stage2_pmd_index start) start end_ physical mem.

Definition stage2_pud_huge_page (old_pud start phy size flags : Z) : bool :=
  if negb (has_flag flags __VM_HUGE_1G) || negb (old_pud =? 0) then false else
  if negb (IS_PUD_ALIGN start) || negb (IS_PUD_ALIGN phy) || negb (IS_PUD_ALIGN size) then false else true.

(** One round of [stage2_map_pud_range]. *)
Definition map_pud_entry (flags : Z) (e : pud) (start next physical : Z) (mem : list Z) : outcome (Z * pud * list Z) :=
  let size := u64 (next - start) in
  if stage2_pud_huge_page (pud_d e) start physical size flags then
    Ret (0, mk_pud (Z.lor (stage2_block_attr flags) (Z.land physical S2_PUD_MASK)) [], mem)
  else if negb (pud_d e =? 0) && stage2_huge (pud_d e) then Ret (- EINVAL, e, mem)
  else if pud_d e =? 0 then
    let (pmdp, mem) := stage2_get_free_page mem in
    if pmdp =? 0 then Ret (- ENOMEM, e, mem) else
    let* (r, mem) := stage2_map_pmd_range (replicate 512 (mk_pmd 0 [])) start next physical flags mem in
    Ret (fst r, mk_pud (stage2_populate pmdp) (snd r), mem)
  else
    let* (r, mem) := stage2_map_pmd_range (pud_t e) start next physical flags mem in
    Ret (fst r, mk_pud (pud_d e) (snd r), mem).

Definition stage2_map_pud_range (vs : s2) (start end_ physical flags : Z) : outcome (Z * s2) :=
  let* (r, mem) := map_entries S2_PUD_SIZE (map_pud_entry flags) 1025 (root vs) (stage2_pud_index start) start end_ physical (s2_mem vs) in
  Ret (fst r, mk_s2 (snd r) mem (s2_freed vs)).

Definition arch_guest_map (vs : s2) (start end_ physical flags : Z) : outcome (Z * s2) :=
  if end_ =? start then Ret (- EINVAL, vs) else
  check (start <? VMM_VIRT_MAX) && (end_ <=? VMM_VIRT_MAX) in
  check physical <? S2_PHYSICAL_MAX in
  check IS_PAGE_ALIGN start && IS_PAGE_ALIGN end_ && IS_PAGE_ALIGN physical in
  stage2_map_pud_range vs start end_ physical flags.

(** ** Unmapping *)

Fixpoint unmap_entries {E} (size : Z) (op : E -> Z -> Z -> list Z -> outcome (E * list Z)) (n : nat)
    (t : list E) (idx addr end_ : Z) (freed : list Z) : outcome (list E * list Z) :=
  match n with
  | O => OutOfFuel
  | S n =>
      let next := stage2_xxx_addr_end addr end_ size in
      match t !! Z.to_nat idx with
      | None => Fault
      | Some e =>
          let* (e, freed) := op e addr next freed in
          let t := <[Z.to_nat idx := e]> t in
          if next =? end_ then Ret (t, freed) else unmap_entries size op n t (idx + 1) next end_ freed
      end
  end.

Fixpoint unmap_pte_loop (n : nat) (t : list Z) (idx addr end_ : Z) : outcome (list Z) :=
  match n with
  | O => OutOfFuel
  | S n =>
      match t !! Z.to_nat idx with
      | None => Fault
      | Some pte =>
          let t := if negb (pte =? 0) then <[Z.to_nat idx := 0]> t else t in
          let addr := u64 (addr + PAGE_SIZE) in
          if addr =? end_ then Ret t else unmap_pte_loop n t (idx + 1) addr end_
      end
  end.

Definition stage2_unmap_pte_range (t : list Z) (addr end_ : Z) : outcome (list Z) :=
  unmap_pte_loop 513 t (stage2_pte_index addr) addr end_.

(** [is_pmd_range] and [is_pud_range]. *)
Definition is_range (size start end_ : Z) : bool := (Z.land start (size - 1) =? 0) && (u64 (end_ - start) =? size).

Definition table_addr (d : Z) : Z := ptov (Z.land d S2_PHYSICAL_MASK).

Definition unmap_pmd_entry (e : pmd) (addr next : Z) (freed : list Z) : outcome (pmd * list Z) :=
  if pmd_d e =? 0 then Ret (e, freed) else
  if stage2_huge (pmd_d e) then Ret (mk_pmd 0 [], freed) else
  let* t := stage2_unmap_pte_range (pmd_t e) addr next in
  if is_range S2_PMD_SIZE addr next then Ret (mk_pmd 0 [], table_addr (pmd_d e) :: freed)
  else Ret (mk_pmd (pmd_d e) t, freed).

Definition stage2_unmap_pmd_range (t : list pmd) (addr end_ : Z) (freed : list Z) : outcome (list pmd * list Z) :=
  unmap_entries S2_PMD_SIZE unmap_pmd_entry 513 t (stage2_pmd_index addr) addr end_ freed.

Definition unmap_pud_entry (e : pud) (addr next : Z) (freed : list Z) : outcome (pud * list Z) :=
  if pud_d e =? 0 then Ret (e, freed) else
  let* (t, freed) := stage2_unmap_pmd_range (pud_t e) addr next freed in
  if is_range S2_PUD_SIZE addr next then Ret (mk_pud 0 [], table_addr (pud_d e) :: freed)
  else Ret (mk_pud (pud_d e) t, freed).

(** The walk starts at the PUD entry of [end], as in the source. *)
Definition stage2_unmap_pud_range (vs : s2) (addr end_ : Z) : outcome (Z * s2) :=
  let* (t, freed) := unmap_entries S2_PUD_SIZE unmap_pud_entry 1025 (root vs) (stage2_pud_index end_) addr end_ (s2_freed vs) in
  Ret (0, mk_s2 t (s2_mem vs) freed).

Definition arch_guest_unmap (vs : s2) (start end_ : Z) : outcome (Z * s2) :=
  if end_ =? start then Ret (- EINVAL, vs) else
  check (start <? VMM_VIRT_MAX) && (end_ <=? VMM_VIRT_MAX) in
  stage2_unmap_pud_range vs start end_.

(** ** Translation *)

Definition stage2_ipa_to_pa (vs : s2) (va : Z) : outcome (Z + Z) :=
  let pte_offset := Z.land va (not64 S2_PTE_MASK) in
  let pmd_offset := Z.land va (not64 S2_PMD_MASK) in
  match root vs !! Z.to_nat (stage2_pud_index va) with
  | None => Fault
  | Some e =>
      if pud_d e =? 0 then Ret (inl (- EFAULT)) else
      match pud_t e !! Z.to_nat (stage2_pmd_index va) with
      | None => Fault
      | Some e =>
          if pmd_d e =? 0 then Ret (inl (- EFAULT)) else
          if stage2_huge (pmd_d e) then Ret (inr (u64 (Z.land (pmd_d e) S2_PHYSICAL_MASK + pmd_offset))) else
          match pmd_t e !! Z.to_nat (stage2_pte_index va) with
          | None => Fault
          | Some pte =>
              let phy := Z.land pte S2_PHYSICAL_MASK in
              if phy =? 0 then Ret (inl (- EFAULT)) else Ret (inr (u64 (phy + pte_offset)))
          end
      end
  end.

Definition arch_translate_guest_ipa (vs : s2) (va : Z) : outcome (Z + Z) := stage2_ipa_to_pa vs va.

(** ** The walk of the hardware *)

Inductive s2_leaf :=
| L2Page (d : Z)
| L2Block (d : Z)
| L2Giga (d : Z).

Definition pte_walk (d : Z) : option s2_leaf := if Z.land d 3 =? 3 then Some (L2Page d) else None.

(** Tables of [2 ^ m] entries of [2 ^ k] bytes each. *)
Definition index (k m va : Z) : Z := (va / 2 ^ k) mod 2 ^ m.
Definition table_walk {E} (k m : Z) (W : E -> Z -> option s2_leaf) (t : list E) (va : Z) : option s2_leaf :=
  t !! Z.to_nat (index k m va) ≫= fun e => W e va.

Definition pmd_walk (e : pmd) (va : Z) : option s2_leaf :=
  if Z.land (pmd_d e) 3 =? 1 then Some (L2Block (pmd_d e))
  else if Z.land (pmd_d e) 3 =? 3 then table_walk 12 9 (fun d _ => pte_walk d) (pmd_t e) va
  else None.

Definition pud_walk (e : pud) (va : Z) : option s2_leaf :=
  if Z.land (pud_d e) 3 =? 1 then Some (L2Giga (pud_d e))
  else if Z.land (pud_d e) 3 =? 3 then table_walk 21 9 pmd_walk (pud_t e) va
  else None.

Definition s2_walk (vs : s2) (va : Z) : option s2_leaf := table_walk 30 10 pud_walk (root vs) va.

(** The physical address behind a leaf. *)
Definition leaf_addr (l : s2_leaf) (va : Z) : Z :=
  match l with
  | L2Page d => Z.land d S2_PHYSICAL_MASK + va mod 2 ^ 12
  | L2Block d => Z.land d S2_PHYSICAL_MASK + va mod 2 ^ 21
  | L2Giga d => Z.land d S2_PHYSICAL_MASK + va mod 2 ^ 30
  end.

(** ** Loops over a table *)

Definition page_ok (v : Z) : Prop := 4096 <= v < 2 ^ 48 /\ v mod 4096 = 0.
Definition paged (a : Z) : Prop := a mod 4096 = 0.

Lemma addr_end_min start end_ k : 0 <= start < end_ -> end_ <= 2 ^ 40 -> 0 <= k <= 39 ->
  stage2_xxx_addr_end start end_ (2 ^ k) = Z.min (2 ^ k * (start / 2 ^ k + 1)) end_.
Proof.
  intros Hs He Hk. unfold stage2_xxx_addr_end. assert (0 < 2 ^ k <= 2 ^ 39) by (split; [lia|apply Z.pow_le_mono_r; lia]).
  rewrite (wrap_small 64 (start + 2 ^ k)), land_not64_pow2 by lia.
  replace ((start + 2 ^ k) / 2 ^ k) with (start / 2 ^ k + 1) by (rewrite <- (Z.div_add start 1 (2 ^ k)) by lia; f_equal; lia).
  pose proof (Z.mul_succ_div_gt start (2 ^ k) ltac:(lia)). pose proof (Z.mul_div_le start (2 ^ k) ltac:(lia)). rewrite !wrap_small by lia. case_bools.
Qed.

Section entries.
Context {E : Type} (k m : Z) (okE : E -> Prop) (W : E -> Z -> option s2_leaf) (pagesE : E -> list Z).
Hypothesis Hk : 12 <= k <= 30.
Hypothesis Hm : 0 <= m <= 10.

Definition table_ok (t : list E) : Prop := Z.of_nat (length t) = 2 ^ m /\ Forall okE t.
Definition table_pages (t : list E) : list Z := concat (map pagesE t).

(** What an operation on one entry, or on a table, promises: the part of the range before [mid] is
    done, and only an error stops before its end. *)
Definition map_post {T} (ok : T -> Prop) (walk : T -> Z -> option s2_leaf) (pages : T -> list Z) (Q : Z -> option s2_leaf -> Prop) (near : Z -> Prop)
    (start end_ : Z) (e : T) (mem : list Z) (o : outcome (Z * T * list Z)) : Prop :=
  exists ret e' mem' mid, o = Ret (ret, e', mem') /\ ok e' /\ Forall page_ok mem' /\ pages e' ++ mem' ≡ₚ pages e ++ mem /\
    start <= mid <= end_ /\ (ret = 0 -> mid = end_) /\
    forall va, 0 <= va -> near va -> (start <= va < mid -> Q va (walk e' va)) /\ (~ start <= va < mid -> walk e' va = walk e va).

Lemma table_pages_insert t i e e' : t !! i = Some e -> exists rest, table_pages t ≡ₚ pagesE e ++ rest /\ table_pages (<[i := e']> t) ≡ₚ pagesE e' ++ rest.
Proof.
  intros Hi. assert (Hl := lookup_lt_Some t i e Hi). exists (table_pages (take i t) ++ table_pages (drop (S i) t)). unfold table_pages.
  rewrite <- (take_drop_middle t i e Hi) at 1. rewrite insert_take_drop by done. rewrite !map_app, !concat_app. cbn.
  split; rewrite !app_assoc; f_equiv; apply Permutation_app_comm.
Qed.

Lemma index_bound va : 0 <= index k m va < 2 ^ m.
Proof. apply Z.mod_pos_bound. lia. Qed.

Lemma index_same va wa : 0 <= va -> 0 <= wa -> va / 2 ^ (k + m) = wa / 2 ^ (k + m) -> index k m va = index k m wa -> va / 2 ^ k = wa / 2 ^ k.
Proof using Hk Hm.
  intros Hv Hw. unfold index. rewrite !Z.pow_add_r, <- !Z.div_div by lia. intros H1 H2.
  rewrite (Z.div_mod (va / 2 ^ k) (2 ^ m)), (Z.div_mod (wa / 2 ^ k) (2 ^ m)) by lia. congruence.
Qed.

Lemma walk_insert t e' a va : table_ok t -> 0 <= va -> 0 <= a -> va / 2 ^ (k + m) = a / 2 ^ (k + m) ->
  table_walk k m W (<[Z.to_nat (index k m a) := e']> t) va = if va / 2 ^ k =? a / 2 ^ k then W e' va else table_walk k m W t va.
Proof using Hk Hm.
  intros [Hl _] Hv Ha Hs. unfold table_walk. pose proof (index_bound a). pose proof (index_bound va). destruct (Z.eqb_spec (va / 2 ^ k) (a / 2 ^ k)) as [E0|N0].
  - replace (index k m va) with (index k m a) by (unfold index; congruence). rewrite list_lookup_insert_eq by lia. done.
  - rewrite list_lookup_insert_ne; [done|]. intros Hi. apply N0. apply index_same; try done. lia.
Qed.

(** The entries from [start] on, up to the end of the range or of the table. *)
Lemma next_step start end_ : 0 <= start < end_ -> end_ <= 2 ^ 40 -> paged start -> paged end_ -> start / 2 ^ (k + m) = (end_ - 1) / 2 ^ (k + m) ->
  let next := stage2_xxx_addr_end start end_ (2 ^ k) in
  start < next <= end_ /\ paged next /\ start / 2 ^ k = (next - 1) / 2 ^ k /\
  (next <> end_ -> next / 2 ^ k = start / 2 ^ k + 1 /\ next / 2 ^ (k + m) = start / 2 ^ (k + m) /\ index k m next = index k m start + 1).
Proof using Hk Hm.
  intros Hs He Hps Hpe Hsame next. subst next. rewrite addr_end_min by lia. assert (P : 0 < 2 ^ k) by lia. assert (Pm : 0 < 2 ^ m) by lia.
  pose proof (Z.mul_succ_div_gt start (2 ^ k) P) as H1. pose proof (Z.mul_div_le start (2 ^ k) P) as H2. set (q := start / 2 ^ k) in *.
  set (next := Z.min (2 ^ k * (q + 1)) end_). assert (Hn : start < next <= end_) by (subst next; lia). split; [done|]. split; [|split].
  - subst next. destruct (Z.min_spec (2 ^ k * (q + 1)) end_) as [[_ ->]|[_ ->]]; [|done]. unfold paged. replace k with (12 + (k - 12)) by lia.
    rewrite Z.pow_add_r by lia. change (2 ^ 12) with 4096. rewrite <- Z.mul_assoc, Z.mul_comm. apply Z.mod_mul. lia.
  - assert (next <= 2 ^ k * (q + 1)) by apply Z.le_min_l. apply (Z.div_unique_pos _ _ _ (next - 1 - 2 ^ k * q)); clearbody next; lia.
  - intros Hne. assert (En : next = 2 ^ k * (q + 1)) by (subst next; lia). assert (Eq : next / 2 ^ k = q + 1) by (rewrite En, Z.mul_comm; by apply Z.div_mul; lia).
    assert (Et : next / 2 ^ (k + m) = start / 2 ^ (k + m)).
    { assert (Ppow : 0 < 2 ^ (k + m)) by lia. pose proof (Z.div_le_mono start next (2 ^ (k + m)) Ppow ltac:(lia)). pose proof (Z.div_le_mono next (end_ - 1) (2 ^ (k + m)) Ppow ltac:(lia)). lia. }
    split; [done|]. split; [done|]. unfold index. fold q. rewrite Eq. rewrite !Z.pow_add_r, <- !Z.div_div in Et by lia. fold q in Et. rewrite Eq in Et.
    pose proof (Z.div_mod q (2 ^ m) ltac:(lia)). pose proof (Z.div_mod (q + 1) (2 ^ m) ltac:(lia)). nia.
Qed.

Section mapping.
Context (op : E -> Z -> Z -> Z -> list Z -> outcome (Z * E * list Z)) (Q : Z -> Z -> option s2_leaf -> Prop).
Hypothesis op_ok : forall e start next phys mem, okE e -> Forall page_ok mem -> paged start -> paged next -> paged phys -> 0 <= start < next -> next <= 2 ^ 40 ->
  start / 2 ^ k = (next - 1) / 2 ^ k -> 0 <= phys -> phys + (next - start) <= 2 ^ 48 ->
  map_post okE W pagesE (Q (phys - start)) (fun va => va / 2 ^ k = start / 2 ^ k) start next e mem (op e start next phys mem).

Lemma map_entries_ok n : forall t start end_ phys mem, table_ok t -> Forall page_ok mem -> paged start -> paged end_ -> paged phys -> 0 <= start < end_ -> end_ <= 2 ^ 40 ->
  start / 2 ^ (k + m) = (end_ - 1) / 2 ^ (k + m) -> 0 <= phys -> phys + (end_ - start) <= 2 ^ 48 -> (end_ - 1) / 2 ^ k - start / 2 ^ k < Z.of_nat n ->
  map_post table_ok (table_walk k m W) table_pages (Q (phys - start)) (fun va => va / 2 ^ (k + m) = start / 2 ^ (k + m)) start end_ t mem
    (map_entries (2 ^ k) op n t (index k m start) start end_ phys mem).
Proof using Hk Hm op_ok.
  induction n as [|n IH]; intros t start end_ phys mem Ht Hmem Ps Pe Pp Hs He Hsame Hp Hp2 Hn.
  { pose proof (Z.div_le_mono start (end_ - 1) (2 ^ k) ltac:(lia) ltac:(lia)). lia. }
  cbn [map_entries]. destruct (next_step start end_ Hs He Ps Pe Hsame) as (N1 & N2 & N3 & N4). set (next := stage2_xxx_addr_end _ _ _) in *.
  pose proof (index_bound start) as Hi. pose proof Ht as [Hlen Hok]. destruct (lookup_lt_is_Some_2 t (Z.to_nat (index k m start)) ltac:(lia)) as (e & Ee). rewrite Ee.
  assert (Hoke : okE e) by (by apply (Forall_lookup_1 _ _ _ _ Hok Ee)).
  destruct (op_ok e start next phys mem Hoke Hmem Ps N2 Pp ltac:(lia) ltac:(lia) N3 Hp ltac:(lia)) as (ret & e' & mem' & mid & -> & Ho & Hmem' & Hpg & Hmid & Hret & HW).
  cbn [obind fst snd]. set (t1 := <[_ := e']> t). assert (Ht1 : table_ok t1) by (subst t1; split; [by rewrite length_insert|by apply Forall_insert]).
  destruct (table_pages_insert t _ e e' Ee) as (rest & R1 & R2). fold t1 in R2.
  assert (Hpg1 : table_pages t1 ++ mem' ≡ₚ table_pages t ++ mem).
  { rewrite R1, R2, <- !app_assoc, !(Permutation_app_comm rest), !app_assoc. by rewrite Hpg. }
  assert (HW1 : forall va, 0 <= va -> va / 2 ^ (k + m) = start / 2 ^ (k + m) ->
    (start <= va < mid -> Q (phys - start) va (table_walk k m W t1 va)) /\ (~ start <= va < mid -> table_walk k m W t1 va = table_walk k m W t va)).
  { intros va Hva Hv. subst t1. rewrite (walk_insert t e' start va Ht Hva ltac:(lia) Hv). destruct (Z.eqb_spec (va / 2 ^ k) (start / 2 ^ k)) as [E1|E1].
    - destruct (HW va Hva E1) as [Q1 Q2]. split; [done|]. intros Hnot. rewrite (Q2 Hnot). unfold table_walk.
      replace (index k m va) with (index k m start) by (unfold index; congruence). by rewrite Ee.
    - split; [|done]. intros Hr. exfalso. apply E1. pose proof (Z.div_le_mono start va (2 ^ k) ltac:(lia) ltac:(lia)). pose proof (Z.div_le_mono va (next - 1) (2 ^ k) ltac:(lia) ltac:(lia)). lia. }
  destruct (Z.eqb_spec ret 0) as [->|Nr]; cbn [negb].
  2:{ exists ret, t1, mem', mid. split_and!; try done; lia. }
  rewrite (Hret eq_refl) in *. destruct (Z.eqb_spec next end_) as [En|Nn].
  { exists 0, t1, mem', next. split_and!; try done; lia. }
  destruct (N4 Nn) as (N5 & N6 & N7). rewrite <- N7, (wrap_small 64 (next - start)), (wrap_small 64) by lia.
  destruct (IH t1 next end_ (phys + (next - start)) mem' Ht1 Hmem' N2 Pe) as (ret2 & t2 & mem2 & mid2 & -> & O2 & M2 & P2 & D2 & R3 & W2); try lia.
  { unfold paged in *. rewrite Z.add_mod, Pp, Zminus_mod, N2, Ps by lia. done. }
  replace (phys + (next - start) - next) with (phys - start) in W2 by lia.
  exists ret2, t2, mem2, mid2. split; [done|]. split; [done|]. split; [done|]. split; [by rewrite P2|]. split; [lia|]. split; [done|].
  intros va Hva Hv. destruct (HW1 va Hva Hv) as [A1 A2]. destruct (W2 va Hva ltac:(congruence)) as [B1 B2]. split.
  - intros Hr. destruct (decide (next <= va)); [apply B1; lia|]. rewrite B2 by lia. apply A1. lia.
  - intros Hr. rewrite B2 by lia. apply A2. lia.
Qed.
End mapping.
End entries.

(** ** Indices *)

Lemma pte_index_eq va : stage2_pte_index va = index 12 9 va.
Proof. unfold stage2_pte_index, index, S2_PTE_SHIFT. change (512 - 1) with (2 ^ 9 - 1). by rewrite land_pow2_mod, Z.shiftr_div_pow2 by lia. Qed.

Lemma pmd_index_eq va : stage2_pmd_index va = index 21 9 va.
Proof. unfold stage2_pmd_index, index, S2_PMD_SHIFT. change (512 - 1) with (2 ^ 9 - 1). by rewrite land_pow2_mod, Z.shiftr_div_pow2 by lia. Qed.

Lemma pud_index_eq va : stage2_pud_index va = index 30 10 va.
Proof. unfold stage2_pud_index, index, S2_PUD_SHIFT. change (1024 - 1) with (2 ^ 10 - 1). by rewrite land_pow2_mod, Z.shiftr_div_pow2 by lia. Qed.

(** ** What the descriptors say *)

Lemma s2_attr_bits a flags mask : mask = 3 \/ mask = S2_PHYSICAL_MASK -> Z.land (stage2_attr a flags) mask = Z.land a mask.
Proof. intros [->| ->]; unfold stage2_attr; repeat case_match; rewrite !Z.land_lor_distr_l; cbn; by rewrite ?Z.lor_0_r. Qed.

Lemma page_attr_bits flags : Z.land (stage2_page_attr flags) 3 = 3 /\ Z.land (stage2_page_attr flags) S2_PHYSICAL_MASK = 0.
Proof. unfold stage2_page_attr. rewrite !s2_attr_bits by auto. repeat case_match; done. Qed.

Lemma block_attr_bits flags : Z.land (stage2_block_attr flags) 3 = 1 /\ Z.land (stage2_block_attr flags) S2_PHYSICAL_MASK = 0.
Proof. unfold stage2_block_attr. rewrite !s2_attr_bits by auto. repeat case_match; done. Qed.

Lemma frame_bits pa : 0 <= pa < 2 ^ 48 -> paged pa -> Z.land pa 3 = 0 /\ Z.land pa S2_PHYSICAL_MASK = pa.
Proof. intros Hp Hm. split; [by apply aligned_low|by apply phys_aligned]. Qed.

Lemma page_desc_bits flags pa : 0 <= pa < 2 ^ 48 -> paged pa -> let d := Z.lor (stage2_page_attr flags) pa in Z.land d 3 = 3 /\ Z.land d S2_PHYSICAL_MASK = pa.
Proof.
  intros Hp Hm d. subst d. destruct (page_attr_bits flags) as [A1 A2], (frame_bits pa Hp Hm) as [F1 F2]. by rewrite !Z.land_lor_distr_l, A1, A2, F1, F2.
Qed.

Lemma block_desc_bits flags pa : 0 <= pa < 2 ^ 48 -> paged pa -> let d := Z.lor (stage2_block_attr flags) pa in Z.land d 3 = 1 /\ Z.land d S2_PHYSICAL_MASK = pa.
Proof.
  intros Hp Hm d. subst d. destruct (block_attr_bits flags) as [A1 A2], (frame_bits pa Hp Hm) as [F1 F2]. by rewrite !Z.land_lor_distr_l, A1, A2, F1, F2.
Qed.

Lemma table_desc_bits v : page_ok v -> Z.land (stage2_populate v) 3 = 3 /\ table_addr (stage2_populate v) = v /\ stage2_populate v <> 0.
Proof.
  intros [Hv Hm]. unfold stage2_populate, table_addr, vtop, ptov, S2_DES_TABLE. destruct (frame_bits v ltac:(lia) Hm) as [F1 F2]. rewrite !Z.land_lor_distr_l, F1, F2.
  split; [done|]. split; [cbn; apply Z.lor_0_r|]. intros E. apply Z.lor_eq_0_iff in E. lia.
Qed.

(** ** Well-formed entries *)

Definition pte_ok (d : Z) : Prop := d = 0 \/ Z.land d 3 = 3.
Definition pte_table_ok : list Z -> Prop := table_ok 9 pte_ok.
Definition pmd_ok (e : pmd) : Prop :=
  pmd_d e = 0 /\ pmd_t e = [] \/ Z.land (pmd_d e) 3 = 1 /\ pmd_t e = [] \/ Z.land (pmd_d e) 3 = 3 /\ pte_table_ok (pmd_t e) /\ page_ok (table_addr (pmd_d e)).
Definition pmd_pages (e : pmd) : list Z := if Z.land (pmd_d e) 3 =? 3 then [table_addr (pmd_d e)] else [].
Definition pmd_table_ok : list pmd -> Prop := table_ok 9 pmd_ok.
Definition pud_ok (e : pud) : Prop :=
  pud_d e = 0 /\ pud_t e = [] \/ Z.land (pud_d e) 3 = 1 /\ pud_t e = [] \/ Z.land (pud_d e) 3 = 3 /\ pmd_table_ok (pud_t e) /\ page_ok (table_addr (pud_d e)).
Definition pud_pages (e : pud) : list Z := if Z.land (pud_d e) 3 =? 3 then table_addr (pud_d e) :: table_pages pmd_pages (pud_t e) else [].

(** The pages of all tables below the root. *)
Definition s2_pages (vs : s2) : list Z := table_pages pud_pages (root vs).

Definition s2_ok (vs : s2) : Prop := table_ok 10 pud_ok (root vs) /\ Forall page_ok (s2_mem vs).

(** [l] maps [va] to [pa] with the attributes of [flags]. *)
Definition maps_to (flags va pa : Z) (l : option s2_leaf) : Prop :=
  l = Some (L2Page (Z.lor (stage2_page_attr flags) (pa - va mod 2 ^ 12))) \/
  l = Some (L2Block (Z.lor (stage2_block_attr flags) (pa - va mod 2 ^ 21))) /\ (pa - va mod 2 ^ 21) mod 2 ^ 21 = 0 \/
  l = Some (L2Giga (Z.lor (stage2_block_attr flags) (pa - va mod 2 ^ 30))) /\ (pa - va mod 2 ^ 30) mod 2 ^ 30 = 0.

(** ** Pages of a PTE table *)

Definition write_pte (attr : Z) (d start next phys : Z) (mem : list Z) : outcome (Z * Z * list Z) := Ret (0, Z.lor attr phys, mem).

Lemma addr_end_page start end_ : 0 <= start < end_ -> end_ <= 2 ^ 40 -> paged start -> paged end_ -> stage2_xxx_addr_end start end_ (2 ^ 12) = start + 4096.
Proof. intros Hs He Ps Pe. rewrite addr_end_min by lia. unfold paged in *. change (2 ^ 12) with 4096. Z.div_mod_to_equations. lia. Qed.

Lemma map_pte_loop_entries n : forall t idx start end_ phys attr mem, 0 <= start < end_ -> end_ <= 2 ^ 40 -> paged start -> paged end_ -> 0 <= phys -> phys + (end_ - start) <= 2 ^ 48 ->
  map_pte_loop n t idx start end_ phys attr = let* (r, _) := map_entries (2 ^ 12) (write_pte attr) n t idx start end_ phys mem in Ret (snd r).
Proof.
  induction n as [|n IH]; intros t idx start end_ phys attr mem Hs He Ps Pe Hp Hp2; [done|]. cbn [map_pte_loop map_entries write_pte obind fst snd].
  destruct (t !! Z.to_nat idx) as [d|]; [|done]. cbn [obind fst snd Z.eqb negb]. rewrite addr_end_page by done. unfold PAGE_SIZE.
  rewrite (wrap_small 64 (start + _)), (wrap_small 64 (start + 4096 - start)) by lia. replace (start + 4096 - start) with 4096 by lia. rewrite (wrap_small 64 (phys + _)) by lia.
  destruct (Z.eqb_spec (start + 4096) end_); [done|]. assert (start + 4096 < end_) by (unfold paged in *; Z.div_mod_to_equations; lia). apply IH; try done; try lia.
  unfold paged in *. Z.div_mod_to_equations. lia.
Qed.

Lemma write_ptes_succeed attr n : forall t idx start end_ phys mem ret t' mem', map_entries (2 ^ 12) (write_pte attr) n t idx start end_ phys mem = Ret (ret, t', mem') -> ret = 0.
Proof.
  induction n as [|n IH]; intros t idx start end_ phys mem ret t' mem' E; [done|]. cbn [map_entries] in E. destruct (t !! Z.to_nat idx); [|done].
  cbn [write_pte obind fst snd Z.eqb negb] in E. destruct (_ =? end_); [by simplify_eq|]. by apply IH in E.
Qed.

Definition Q2 (flags delta va : Z) (l : option s2_leaf) : Prop := maps_to flags va (va + delta) l.

Lemma write_pte_ok flags e start next phys mem : Forall page_ok mem -> paged start -> paged next -> paged phys -> 0 <= start < next -> next <= 2 ^ 40 ->
  start / 2 ^ 12 = (next - 1) / 2 ^ 12 -> 0 <= phys -> phys + (next - start) <= 2 ^ 48 ->
  map_post pte_ok (fun d _ => pte_walk d) (fun _ => []) (Q2 flags (phys - start)) (fun va => va / 2 ^ 12 = start / 2 ^ 12) start next e mem
    (write_pte (stage2_page_attr flags) e start next phys mem).
Proof.
  intros Hmem Ps Pn Pp Hs He Hsame Hp Hp2. destruct (page_desc_bits flags phys ltac:(lia) Pp) as [D1 D2].
  eexists 0, _, mem, next. split; [done|]. split; [by right|]. split; [done|]. split; [done|]. split; [lia|]. split; [done|]. unfold paged in *. change (2 ^ 12) with 4096 in *. intros va Hva Hn. split.
  - intros Hr. left. unfold pte_walk. rewrite D1. cbn. do 3 f_equal. change (2 ^ 12) with 4096. Z.div_mod_to_equations. lia.
  - intros Hr. exfalso. apply Hr. Z.div_mod_to_equations. lia.
Qed.

Lemma map_pte_range_ok flags t start end_ phys : pte_table_ok t -> paged start -> paged end_ -> paged phys -> 0 <= start < end_ -> end_ <= 2 ^ 40 ->
  start / 2 ^ 21 = (end_ - 1) / 2 ^ 21 -> 0 <= phys -> phys + (end_ - start) <= 2 ^ 48 ->
  exists t', stage2_map_pte_range t start end_ phys flags = Ret t' /\ pte_table_ok t' /\
    forall va, 0 <= va -> va / 2 ^ 21 = start / 2 ^ 21 ->
      (start <= va < end_ -> Q2 flags (phys - start) va (table_walk 12 9 (fun d _ => pte_walk d) t' va)) /\
      (~ start <= va < end_ -> table_walk 12 9 (fun d _ => pte_walk d) t' va = table_walk 12 9 (fun d _ => pte_walk d) t va).
Proof.
  intros Ht Ps Pe Pp Hs He Hsame Hp Hp2. unfold stage2_map_pte_range. rewrite (map_pte_loop_entries _ _ _ _ _ _ _ []) by done.
  rewrite pte_index_eq.
  destruct (map_entries_ok 12 9 pte_ok (fun d _ => pte_walk d) (fun _ => []) ltac:(lia) ltac:(lia) (write_pte (stage2_page_attr flags)) (Q2 flags)
    ltac:(intros; by apply write_pte_ok) 513 t start end_ phys [] Ht ltac:(constructor) Ps Pe Pp Hs He Hsame Hp Hp2 ltac:(Z.div_mod_to_equations; lia))
    as (ret & t' & mem' & mid & E & Ht' & _ & _ & Hmid & Hret & HW). rewrite E. apply write_ptes_succeed in E as ->. cbn [obind snd].
  exists t'. split; [done|]. split; [done|]. rewrite (Hret eq_refl) in HW. exact HW.
Qed.

(** ** PMD entries *)

Definition near (k start va : Z) : Prop := va / 2 ^ k = start / 2 ^ k.

(** A block of [2 ^ k] bytes in the place of an empty entry. *)
Lemma block_maps k start next phys va : 12 <= k <= 30 -> 0 <= start < next -> next <= 2 ^ 40 -> start mod 2 ^ k = 0 -> phys mod 2 ^ k = 0 -> (next - start) mod 2 ^ k = 0 ->
  start / 2 ^ k = (next - 1) / 2 ^ k -> va / 2 ^ k = start / 2 ^ k -> start <= va < next /\ va + (phys - start) - va mod 2 ^ k = phys.
Proof.
  intros Hk Hs He A1 A2 A3 Hsame Hn. assert (P : 0 < 2 ^ k) by lia.
  pose proof (Z.div_mod start (2 ^ k) ltac:(lia)). pose proof (Z.div_mod va (2 ^ k) ltac:(lia)). pose proof (Z.div_mod (next - 1) (2 ^ k) ltac:(lia)).
  pose proof (Z.mod_pos_bound va (2 ^ k) P). pose proof (Z.mod_pos_bound (next - 1) (2 ^ k) P). pose proof (Z.div_mod (next - start) (2 ^ k) ltac:(lia)).
  rewrite Hn in *. rewrite A1, A3, <- Hsame in *. split; [|lia]. assert ((next - start) / 2 ^ k = 1) as Hone by nia. rewrite Hone in *. lia.
Qed.

Lemma huge_cond e start phys size flags : stage2_pmd_huge_page e start phys size flags = true ->
  e = 0 /\ start mod 2 ^ 21 = 0 /\ phys mod 2 ^ 21 = 0 /\ size mod 2 ^ 21 = 0.
Proof.
  unfold stage2_pmd_huge_page. destruct (_ || _) eqn:E1; [done|]. destruct (negb (IS_BLOCK_ALIGN start) || _ || _) eqn:E2; [done|]. intros _. bool_hyps.
  rewrite !IS_BLOCK_ALIGN_spec in *. unfold BLOCK_SIZE in *. change (2 ^ 21) with 0x200000. repeat match goal with H : (_ =? _) = true |- _ => apply Z.eqb_eq in H end. done.
Qed.

Lemma mask_block phys : 0 <= phys < 2 ^ 64 -> phys mod 2 ^ 21 = 0 -> Z.land phys S2_PMD_MASK = phys.
Proof. intros Hp Hm. unfold S2_PMD_MASK. change S2_PMD_SIZE with (2 ^ 21). rewrite land_not64_pow2 by lia. pose proof (Z.div_mod phys (2 ^ 21) ltac:(lia)). lia. Qed.

Lemma zeros_ok : pte_table_ok (replicate 512 0).
Proof. split; [by rewrite length_replicate|]. apply Forall_replicate. by left. Qed.

Lemma zeros_walk va : table_walk 12 9 (fun d _ => pte_walk d) (replicate 512 0) va = None.
Proof. unfold table_walk. destruct (replicate 512 0 !! _) as [d|] eqn:E; [|done]. by apply lookup_replicate in E as [-> _]. Qed.

Lemma huge_spec d : stage2_huge d = (Z.land d 3 =? 1).
Proof. unfold stage2_huge, S2_DES_BLOCK. destruct (Z.eqb_spec d 0) as [->|]; [done|]. done. Qed.

Lemma map_pmd_entry_ok flags e start next phys mem : pmd_ok e -> Forall page_ok mem -> paged start -> paged next -> paged phys -> 0 <= start < next -> next <= 2 ^ 40 ->
  start / 2 ^ 21 = (next - 1) / 2 ^ 21 -> 0 <= phys -> phys + (next - start) <= 2 ^ 48 ->
  map_post pmd_ok pmd_walk pmd_pages (Q2 flags (phys - start)) (near 21 start) start next e mem (map_pmd_entry flags e start next phys mem).
Proof.
  intros Hok Hmem Ps Pn Pp Hs He Hsame Hp Hp2. unfold map_pmd_entry. rewrite (wrap_small 64 (next - start)), huge_spec by lia.
  destruct (stage2_pmd_huge_page _ _ _ _ _) eqn:Eh.
  { apply huge_cond in Eh as (E0 & A1 & A2 & A3). rewrite mask_block by (try done; lia). destruct (block_desc_bits flags phys ltac:(lia) Pp) as [D1 D2].
    eexists 0, _, mem, next. split; [done|]. split; [right; left; done|]. split; [done|]. unfold pmd_pages. cbn [pmd_d]. rewrite D1, E0. split; [done|]. split; [lia|]. split; [done|].
    intros va Hva Hn. destruct (block_maps 21 start next phys va ltac:(lia) Hs He A1 A2 A3 Hsame Hn) as [B1 B2]. split; [|done]. intros _.
    right. left. unfold pmd_walk. cbn [pmd_d]. rewrite D1, B2. done. }
  destruct Hok as [(E0 & Et)|[(E1 & Et)|(E3 & Ht & Hpg)]].
  - rewrite E0. cbn [Z.eqb negb andb]. destruct mem as [|v mem]; cbn [stage2_get_free_page].
    { exists (- ENOMEM), e, [], start. split; [done|]. split; [by left|]. split; [done|]. split; [done|]. split; [lia|]. split; [done|]. intros va _ _. split; [lia|done]. }
    apply Forall_cons in Hmem as [Hv Hmem]. destruct (Z.eqb_spec v 0) as [->|]; [destruct Hv; lia|].
    destruct (map_pte_range_ok flags (replicate 512 0) start next phys zeros_ok Ps Pn Pp Hs He Hsame Hp Hp2) as (t' & -> & Ht' & HW). cbn [obind].
    destruct (table_desc_bits v Hv) as (T1 & T2 & T3). eexists 0, _, mem, next. split; [done|]. split; [right; right; cbn; by rewrite T1, T2|]. split; [done|].
    split; [unfold pmd_pages; cbn [pmd_d]; rewrite T1, T2, E0; done|]. split; [lia|]. split; [done|].
    intros va Hva Hn. destruct (HW va Hva Hn) as [W1 W2]. unfold pmd_walk. cbn [pmd_d pmd_t]. rewrite T1. cbn [Z.eqb]. split; [done|]. intros Hr. rewrite (W2 Hr), zeros_walk, E0. done.
  - rewrite E1. cbn [Z.eqb]. destruct (Z.eqb_spec (pmd_d e) 0) as [E0|]; [by rewrite E0 in E1|]. cbn [negb andb].
    exists (- EINVAL), e, mem, start. split; [done|]. split; [right; by left|]. split; [done|]. split; [done|]. split; [lia|]. split; [done|]. intros va _ _. split; [lia|done].
  - rewrite E3. cbn [Z.eqb]. destruct (Z.eqb_spec (pmd_d e) 0) as [E0|]; [by rewrite E0 in E3|]. cbn [negb andb].
    destruct (map_pte_range_ok flags (pmd_t e) start next phys Ht Ps Pn Pp Hs He Hsame Hp Hp2) as (t' & -> & Ht' & HW). cbn [obind].
    eexists 0, _, mem, next. split; [done|]. split; [right; right; done|]. split; [done|]. split; [done|]. split; [lia|]. split; [done|].
    intros va Hva Hn. unfold pmd_walk. cbn [pmd_d pmd_t]. rewrite E3. cbn [Z.eqb]. apply (HW va Hva Hn).
Qed.

Lemma map_pmd_range_ok flags t start end_ phys mem : pmd_table_ok t -> Forall page_ok mem -> paged start -> paged end_ -> paged phys -> 0 <= start < end_ -> end_ <= 2 ^ 40 ->
  start / 2 ^ 30 = (end_ - 1) / 2 ^ 30 -> 0 <= phys -> phys + (end_ - start) <= 2 ^ 48 ->
  map_post pmd_table_ok (table_walk 21 9 pmd_walk) (table_pages pmd_pages) (Q2 flags (phys - start)) (near 30 start) start end_ t mem
    (stage2_map_pmd_range t start end_ phys flags mem).
Proof.
  intros. unfold stage2_map_pmd_range. rewrite pmd_index_eq. change S2_PMD_SIZE with (2 ^ 21).
  apply (map_entries_ok 21 9 pmd_ok pmd_walk pmd_pages ltac:(lia) ltac:(lia) (map_pmd_entry flags) (Q2 flags)); try done; [|Z.div_mod_to_equations; lia].
  intros. by apply map_pmd_entry_ok.
Qed.

(** ** PUD entries *)

Lemma giga_cond e start phys size flags : stage2_pud_huge_page e start phys size flags = true ->
  e = 0 /\ start mod 2 ^ 30 = 0 /\ phys mod 2 ^ 30 = 0 /\ size mod 2 ^ 30 = 0.
Proof.
  unfold stage2_pud_huge_page. destruct (_ || _) eqn:E1; [done|]. destruct (negb (IS_PUD_ALIGN start) || _ || _) eqn:E2; [done|]. intros _. bool_hyps.
  unfold IS_PUD_ALIGN in *. change (S2_PUD_SIZE - 1) with (2 ^ 30 - 1) in *. rewrite !land_pow2_mod in * by lia.
  repeat match goal with H : (_ =? _) = true |- _ => apply Z.eqb_eq in H end. done.
Qed.

Lemma mask_giga phys : 0 <= phys < 2 ^ 64 -> phys mod 2 ^ 30 = 0 -> Z.land phys S2_PUD_MASK = phys.
Proof. intros Hp Hm. unfold S2_PUD_MASK. change S2_PUD_SIZE with (2 ^ 30). rewrite land_not64_pow2 by lia. pose proof (Z.div_mod phys (2 ^ 30) ltac:(lia)). lia. Qed.

Definition empty_pmds : list pmd := replicate 512 (mk_pmd 0 []).

Lemma empty_pmds_ok : pmd_table_ok empty_pmds /\ table_pages pmd_pages empty_pmds = [] /\ forall va, table_walk 21 9 pmd_walk empty_pmds va = None.
Proof.
  split; [|split; [done|]].
  - split; [done|]. apply Forall_replicate. by left.
  - intros va. unfold table_walk. destruct (empty_pmds !! _) as [d|] eqn:E; [|done]. by apply lookup_replicate in E as [-> _].
Qed.

Lemma map_pud_entry_ok flags e start next phys mem : pud_ok e -> Forall page_ok mem -> paged start -> paged next -> paged phys -> 0 <= start < next -> next <= 2 ^ 40 ->
  start / 2 ^ 30 = (next - 1) / 2 ^ 30 -> 0 <= phys -> phys + (next - start) <= 2 ^ 48 ->
  map_post pud_ok pud_walk pud_pages (Q2 flags (phys - start)) (near 30 start) start next e mem (map_pud_entry flags e start next phys mem).
Proof.
  intros Hok Hmem Ps Pn Pp Hs He Hsame Hp Hp2. unfold map_pud_entry. rewrite (wrap_small 64 (next - start)), huge_spec by lia.
  destruct (stage2_pud_huge_page _ _ _ _ _) eqn:Eh.
  { apply giga_cond in Eh as (E0 & A1 & A2 & A3). rewrite mask_giga by (try done; lia). destruct (block_desc_bits flags phys ltac:(lia) Pp) as [D1 D2].
    eexists 0, _, mem, next. split; [done|]. split; [right; left; done|]. split; [done|]. unfold pud_pages. cbn [pud_d]. rewrite D1, E0. split; [done|]. split; [lia|]. split; [done|].
    intros va Hva Hn. destruct (block_maps 30 start next phys va ltac:(lia) Hs He A1 A2 A3 Hsame Hn) as [B1 B2]. split; [|done]. intros _.
    right. right. unfold pud_walk. cbn [pud_d]. rewrite D1, B2. done. }
  destruct Hok as [(E0 & Et)|[(E1 & Et)|(E3 & Ht & Hpg)]].
  - rewrite E0. cbn [Z.eqb negb andb]. destruct mem as [|v mem]; cbn [stage2_get_free_page].
    { exists (- ENOMEM), e, [], start. split; [done|]. split; [by left|]. split; [done|]. split; [done|]. split; [lia|]. split; [done|]. intros va _ _. split; [lia|done]. }
    apply Forall_cons in Hmem as [Hv Hmem]. destruct (Z.eqb_spec v 0) as [->|]; [destruct Hv; lia|]. destruct empty_pmds_ok as (Z1 & Z2 & Z3).
    destruct (map_pmd_range_ok flags empty_pmds start next phys mem Z1 Hmem Ps Pn Pp Hs He Hsame Hp Hp2) as (ret & t' & mem' & mid & Er & Ht' & Hm' & Hpp & Hmid & Hret & HW).
    fold empty_pmds. rewrite Er. cbn [obind fst snd].
    destruct (table_desc_bits v Hv) as (T1 & T2 & T3). eexists ret, _, mem', mid. split; [done|]. split; [right; right; cbn; by rewrite T1, T2|]. split; [done|].
    split; [unfold pud_pages; cbn [pud_d pud_t]; rewrite T1, T2, E0; change (Z.land 0 3 =? 3) with false; rewrite Z.eqb_refl; cbn [app]; by rewrite Hpp, Z2|]. split; [done|]. split; [done|].
    intros va Hva Hn. destruct (HW va Hva Hn) as [W1 W2]. unfold pud_walk. cbn [pud_d pud_t]. rewrite T1. cbn [Z.eqb]. split; [done|]. intros Hr. rewrite (W2 Hr), Z3, E0. done.
  - rewrite E1. cbn [Z.eqb]. destruct (Z.eqb_spec (pud_d e) 0) as [E0|]; [by rewrite E0 in E1|]. cbn [negb andb].
    exists (- EINVAL), e, mem, start. split; [done|]. split; [right; by left|]. split; [done|]. split; [done|]. split; [lia|]. split; [done|]. intros va _ _. split; [lia|done].
  - rewrite E3. cbn [Z.eqb]. destruct (Z.eqb_spec (pud_d e) 0) as [E0|]; [by rewrite E0 in E3|]. cbn [negb andb].
    destruct (map_pmd_range_ok flags (pud_t e) start next phys mem Ht Hmem Ps Pn Pp Hs He Hsame Hp Hp2) as (ret & t' & mem' & mid & -> & Ht' & Hm' & Hpp & Hmid & Hret & HW). cbn [obind fst snd].
    eexists ret, _, mem', mid. split; [done|]. split; [right; right; done|]. split; [done|].
    split; [unfold pud_pages; cbn [pud_d pud_t]; rewrite E3, Z.eqb_refl; cbn [app]; by rewrite Hpp|]. split; [done|]. split; [done|].
    intros va Hva Hn. unfold pud_walk. cbn [pud_d pud_t]. rewrite E3. cbn [Z.eqb]. apply (HW va Hva Hn).
Qed.

(** ** Mapping a range *)

Definition s2_translate (vs : s2) (va : Z) : option Z := (fun l => leaf_addr l va) <$> s2_walk vs va.

Lemma maps_to_translate flags va pa vs : 0 <= pa < 2 ^ 48 -> paged (pa - va mod 2 ^ 12) -> maps_to flags va pa (s2_walk vs va) -> s2_translate vs va = Some pa.
Proof.
  intros Hp Hm Hmap. assert (Hk : forall k, 0 <= k -> (pa - va mod 2 ^ k) mod 2 ^ k = 0 -> 0 <= pa - va mod 2 ^ k < 2 ^ 48).
  { intros k Hk E. pose proof (Z.mod_pos_bound va (2 ^ k) ltac:(lia)). pose proof (Z.div_mod (pa - va mod 2 ^ k) (2 ^ k) ltac:(lia)). split; [|lia].
    assert (- 1 < (pa - va mod 2 ^ k) / 2 ^ k) by nia. nia. }
  unfold s2_translate. destruct Hmap as [->|[[-> A]|[-> A]]]; cbn [fmap option_fmap option_map leaf_addr]; f_equal.
  - destruct (page_desc_bits flags _ (Hk 12 ltac:(lia) Hm) Hm) as [_ ->]. lia.
  - destruct (block_desc_bits flags _ (Hk 21 ltac:(lia) A)) as [_ ->]; [|lia]. unfold paged. change (2 ^ 21) with 2097152 in *. Z.div_mod_to_equations. lia.
  - destruct (block_desc_bits flags _ (Hk 30 ltac:(lia) A)) as [_ ->]; [|lia]. unfold paged. change (2 ^ 30) with 1073741824 in *. Z.div_mod_to_equations. lia.
Qed.

(** Tables without blocks of 1 GB. *)
Definition s2_plain (vs : s2) : Prop := Forall (fun e => Z.land (pud_d e) 3 <> 1) (root vs).

Lemma map_pud_plain flags e start next phys mem ret e' mem' : has_flag flags __VM_HUGE_1G = false -> Z.land (pud_d e) 3 <> 1 -> Forall page_ok mem ->
  map_pud_entry flags e start next phys mem = Ret (ret, e', mem') -> Z.land (pud_d e') 3 <> 1.
Proof.
  intros Hf He Hm. unfold map_pud_entry, stage2_pud_huge_page. rewrite Hf. cbn [negb orb]. destruct (negb (pud_d e =? 0) && _); [by intros [= <- <- <-]|].
  destruct (pud_d e =? 0).
  - destruct mem as [|p mem]; cbn [stage2_get_free_page].
    { intros [= <- <- <-]. done. }
    apply Forall_cons in Hm as [Hp Hm]. destruct (p =? 0); [by intros [= <- <- <-]|]. intros ([[r t] mem1] & _ & E)%obind_Ret_inv. simplify_eq/=. destruct (table_desc_bits p Hp) as [-> _]. done.
  - intros ([[r t] mem1] & _ & E)%obind_Ret_inv. by simplify_eq/=.
Qed.

Lemma map_pud_range_ok flags vs start end_ phys : s2_ok vs -> paged start -> paged end_ -> paged phys -> 0 <= start < end_ -> end_ <= 2 ^ 40 -> 0 <= phys -> phys + (end_ - start) <= 2 ^ 48 ->
  exists ret vs' mid, stage2_map_pud_range vs start end_ phys flags = Ret (ret, vs') /\ s2_ok vs' /\ (has_flag flags __VM_HUGE_1G = false -> s2_plain vs -> s2_plain vs') /\
    s2_freed vs' = s2_freed vs /\ s2_pages vs' ++ s2_mem vs' ≡ₚ s2_pages vs ++ s2_mem vs /\ start <= mid <= end_ /\ (ret = 0 -> mid = end_) /\
    forall va, 0 <= va < 2 ^ 40 -> (start <= va < mid -> maps_to flags va (va + (phys - start)) (s2_walk vs' va)) /\ (~ start <= va < mid -> s2_walk vs' va = s2_walk vs va).
Proof.
  intros [[Hl Hr] Hm] Ps Pe Pp Hs He Hp Hp2. unfold stage2_map_pud_range. rewrite pud_index_eq. change S2_PUD_SIZE with (2 ^ 30).
  set (ok := fun e => pud_ok e /\ (has_flag flags __VM_HUGE_1G = false -> s2_plain vs -> Z.land (pud_d e) 3 <> 1)).
  destruct (map_entries_ok 30 10 ok pud_walk pud_pages ltac:(lia) ltac:(lia) (map_pud_entry flags) (Q2 flags)) with (n := 1025%nat) (t := root vs) (start := start) (end_ := end_) (phys := phys) (mem := s2_mem vs)
    as (ret & t & mem & mid & -> & [Ht1 Ht2] & Hm' & Hpg & Hmid & Hret & HW); try done.
  { intros e a next p mem [He1 He2] **. destruct (map_pud_entry_ok flags e a next p mem) as (ret & e' & mem' & mid & E & Ho & Hrest); try done.
    exists ret, e', mem', mid. split; [done|]. split; [|done]. split; [done|]. intros Hf Hpl. eapply (map_pud_plain flags e); [done|by apply He2| |done]. done. }
  { split; [done|]. apply Forall_lookup_2. intros i e Ei. split; [by apply (Forall_lookup_1 _ _ _ _ Hr Ei)|]. intros _ Hpl. by apply (Forall_lookup_1 _ _ _ _ Hpl Ei). }
  { change (2 ^ (30 + 10)) with (2 ^ 40). by rewrite !Z.div_small by lia. }
  { change (2 ^ 30) with 1073741824 in *. Z.div_mod_to_equations. lia. }
  cbn [obind fst snd]. eexists ret, _, mid. split; [done|]. split; [split; [split; [done|]|done]|].
  { eapply Forall_impl; [done|]. by intros e [? _]. }
  split; [intros Hf Hpl; eapply Forall_impl; [done|]; intros e [_ H]; by apply H|]. do 4 (split; [done|]).
  intros va Hva. apply HW; [lia|]. change (2 ^ (30 + 10)) with (2 ^ 40). by rewrite !Z.div_small by lia.
Qed.

Lemma guest_map_ok vs start end_ phys flags : s2_ok vs -> paged start -> paged end_ -> paged phys -> 0 <= start < end_ -> end_ <= 2 ^ 40 -> 0 <= phys < 2 ^ 40 ->
  exists ret vs' mid, arch_guest_map vs start end_ phys flags = Ret (ret, vs') /\ s2_ok vs' /\ (has_flag flags __VM_HUGE_1G = false -> s2_plain vs -> s2_plain vs') /\
    s2_pages vs' ++ s2_mem vs' ≡ₚ s2_pages vs ++ s2_mem vs /\ s2_freed vs' = s2_freed vs /\ start <= mid <= end_ /\ (ret = 0 -> mid = end_) /\
    forall va, 0 <= va < 2 ^ 40 ->
      (start <= va < mid -> s2_translate vs' va = Some (phys + (va - start)) /\ maps_to flags va (phys + (va - start)) (s2_walk vs' va)) /\
      (~ start <= va < mid -> s2_walk vs' va = s2_walk vs va).
Proof.
  intros Hok Ps Pe Pp Hs He Hp. unfold arch_guest_map. destruct (Z.eqb_spec end_ start); [lia|]. rewrite !IS_PAGE_ALIGN_spec, Ps, Pe, Pp.
  change VMM_VIRT_MAX with (2 ^ 40). change S2_PHYSICAL_MAX with (2 ^ 40).
  rewrite (proj2 (Z.ltb_lt start _)), (proj2 (Z.leb_le end_ _)), (proj2 (Z.ltb_lt phys _)) by lia. cbn [andb assert obind Z.eqb].
  destruct (map_pud_range_ok flags vs start end_ phys Hok Ps Pe Pp Hs He ltac:(lia) ltac:(lia)) as (ret & vs' & mid & -> & Hok' & Hpl & Hf & Hpg & Hmid & Hret & HW).
  exists ret, vs', mid. do 7 (split; [done|]). intros va Hva. destruct (HW va Hva) as [W1 W2]. split; [|done]. intros Hr.
  replace (phys + (va - start)) with (va + (phys - start)) by lia. split; [|by apply W1].
  apply (maps_to_translate flags); [lia| |by apply W1]. unfold paged in *. change (2 ^ 12) with 4096. Z.div_mod_to_equations. lia.
Qed.

(** C16: [arch_guest_map] maps exactly the range it is given: when it reports success, every address of
    the range is translated to the corresponding physical address with the attributes of the flags,
    and the translation of every other address is what it was.  When it fails, only a first part of
    the range is mapped.  Table pages are taken from the allocator and belong to the tables: none is
    lost, freed, or used twice. *)
Theorem guest_map_exact vs start end_ phys flags : s2_ok vs -> paged start -> paged end_ -> paged phys -> 0 <= start < end_ -> end_ <= 2 ^ 40 -> 0 <= phys < 2 ^ 40 ->
  exists ret vs' mid, arch_guest_map vs start end_ phys flags = Ret (ret, vs') /\ s2_ok vs' /\
    s2_pages vs' ++ s2_mem vs' ≡ₚ s2_pages vs ++ s2_mem vs /\ s2_freed vs' = s2_freed vs /\ start <= mid <= end_ /\ (ret = 0 -> mid = end_) /\
    forall va, 0 <= va < 2 ^ 40 ->
      (start <= va < mid -> s2_translate vs' va = Some (phys + (va - start)) /\ maps_to flags va (phys + (va - start)) (s2_walk vs' va)) /\
      (~ start <= va < mid -> s2_walk vs' va = s2_walk vs va).
Proof.
  intros. destruct (guest_map_ok vs start end_ phys flags) as (ret & vs' & mid & E & Hok' & _ & Hr); try done. by exists ret, vs', mid.
Qed.

(** ** Unmapping a range *)

(** What remains of a translation when [start, end_) is unmapped: a block of 2 MB goes as a whole. *)
Definition unmapped (start end_ va : Z) (w : option s2_leaf) : option s2_leaf :=
  match w with
  | Some (L2Block _) => if (start / 2 ^ 21 <=? va / 2 ^ 21) && (va / 2 ^ 21 <=? (end_ - 1) / 2 ^ 21) then None else w
  | _ => if (start <=? va) && (va <? end_) then None else w
  end.

Lemma unmapped_none start end_ va : unmapped start end_ va None = None.
Proof. unfold unmapped. by destruct (_ && _). Qed.

Lemma unmapped_full start end_ va w : start <= va < end_ -> unmapped start end_ va w = None.
Proof.
  intros Hr. unfold unmapped. pose proof (Z.div_le_mono start va (2 ^ 21) ltac:(lia) ltac:(lia)). pose proof (Z.div_le_mono va (end_ - 1) (2 ^ 21) ltac:(lia) ltac:(lia)).
  destruct w as [[]|]; case_bools; done || lia.
Qed.

Lemma unmapped_compose start mid end_ va w : start < mid < end_ -> unmapped mid end_ va (unmapped start mid va w) = unmapped start end_ va w.
Proof.
  intros H. assert (start / 2 ^ 21 <= (mid - 1) / 2 ^ 21 /\ mid / 2 ^ 21 <= (end_ - 1) / 2 ^ 21 /\ (mid - 1) / 2 ^ 21 <= mid / 2 ^ 21 <= (mid - 1) / 2 ^ 21 + 1) as (? & ? & ?).
  { change (2 ^ 21) with 2097152. Z.div_mod_to_equations. lia. }
  destruct w as [w|]; [|by rewrite !unmapped_none]. unfold unmapped. destruct w; case_bools; cbn [andb]; case_bools; cbn [andb]; try done; lia.
Qed.

Definition unmap_post {T} (ok : T -> Prop) (walk : T -> Z -> option s2_leaf) (pages : T -> list Z) (k start end_ : Z) (e : T) (freed : list Z) (o : outcome (T * list Z)) : Prop :=
  exists e' freed', o = Ret (e', freed') /\ ok e' /\ pages e' ++ freed' ≡ₚ pages e ++ freed /\
    forall va, 0 <= va -> near k start va -> walk e' va = unmapped start end_ va (walk e va).

Section unmapping.
Context {E : Type} (k m : Z) (okE : E -> Prop) (W : E -> Z -> option s2_leaf) (pagesE : E -> list Z).
Hypothesis Hk : 12 <= k <= 21.
Hypothesis Hm : 0 <= m <= 10.
Hypothesis W_block : forall e va d, W e va = Some (L2Block d) -> 21 <= k.

(** An entry that the range does not touch. *)
Lemma unmapped_outside start next e va : 0 <= start < next -> start / 2 ^ k = (next - 1) / 2 ^ k -> va / 2 ^ k <> start / 2 ^ k -> unmapped start next va (W e va) = W e va.
Proof using Hk W_block.
  intros Hs Hsame Hne. assert (Hout : (start <=? va) && (va <? next) = false).
  { case_bools; try done. exfalso. apply Hne. pose proof (Z.div_le_mono start va (2 ^ k) ltac:(lia) ltac:(lia)). pose proof (Z.div_le_mono va (next - 1) (2 ^ k) ltac:(lia) ltac:(lia)). lia. }
  unfold unmapped. rewrite Hout. destruct (W e va) as [[d|d|d]|] eqn:EW; try done. assert (k = 21) as -> by (apply W_block in EW; lia).
  rewrite <- Hsame. case_bools; done || lia.
Qed.

Context (op : E -> Z -> Z -> list Z -> outcome (E * list Z)).
Hypothesis op_ok : forall e start next freed, okE e -> paged start -> paged next -> 0 <= start < next -> next <= 2 ^ 40 ->
  start / 2 ^ k = (next - 1) / 2 ^ k -> unmap_post okE W pagesE k start next e freed (op e start next freed).

Lemma unmap_entries_ok n : forall t start end_ freed, table_ok m okE t -> paged start -> paged end_ -> 0 <= start < end_ -> end_ <= 2 ^ 40 ->
  start / 2 ^ (k + m) = (end_ - 1) / 2 ^ (k + m) -> (end_ - 1) / 2 ^ k - start / 2 ^ k < Z.of_nat n ->
  unmap_post (table_ok m okE) (table_walk k m W) (table_pages pagesE) (k + m) start end_ t freed (unmap_entries (2 ^ k) op n t (index k m start) start end_ freed).
Proof using Hk Hm op_ok W_block.
  induction n as [|n IH]; intros t start end_ freed Ht Ps Pe Hs He Hsame Hn.
  { pose proof (Z.div_le_mono start (end_ - 1) (2 ^ k) ltac:(lia) ltac:(lia)). lia. }
  cbn [unmap_entries]. destruct (next_step k m ltac:(lia) Hm start end_ Hs He Ps Pe Hsame) as (N1 & N2 & N3 & N4). set (next := stage2_xxx_addr_end _ _ _) in *.
  pose proof (index_bound k m ltac:(lia) start) as Hi. pose proof Ht as [Hlen Hok]. destruct (lookup_lt_is_Some_2 t (Z.to_nat (index k m start)) ltac:(lia)) as (e & Ee). rewrite Ee.
  assert (Hoke : okE e) by (by apply (Forall_lookup_1 _ _ _ _ Hok Ee)).
  destruct (op_ok e start next freed Hoke Ps N2 ltac:(lia) ltac:(lia) N3) as (e' & freed' & -> & Ho & Hpg & HW).
  cbn [obind]. set (t1 := <[_ := e']> t). assert (Ht1 : table_ok m okE t1) by (subst t1; split; [by rewrite length_insert|by apply Forall_insert]).
  destruct (table_pages_insert pagesE t _ e e' Ee) as (rest & R1 & R2). fold t1 in R2.
  assert (Hpg1 : table_pages pagesE t1 ++ freed' ≡ₚ table_pages pagesE t ++ freed).
  { rewrite R1, R2, <- !app_assoc, !(Permutation_app_comm rest), !app_assoc. by rewrite Hpg. }
  assert (HW1 : forall va, 0 <= va -> near (k + m) start va -> table_walk k m W t1 va = unmapped start next va (table_walk k m W t va)).
  { intros va Hva Hv. subst t1. rewrite (walk_insert k m okE W ltac:(lia) Hm t e' start va Ht Hva ltac:(lia) Hv). destruct (Z.eqb_spec (va / 2 ^ k) (start / 2 ^ k)) as [E1|E1].
    - rewrite (HW va Hva E1). unfold table_walk. replace (index k m va) with (index k m start) by (unfold index; congruence). by rewrite Ee.
    - unfold table_walk. destruct (t !! Z.to_nat (index k m va)) as [e0|] eqn:E0; [|symmetry; apply unmapped_none]. cbn [mbind option_bind]. symmetry. apply unmapped_outside; try done. lia. }
  destruct (Z.eqb_spec next end_) as [En|Nn].
  { exists t1, freed'. rewrite <- En. split_and!; done. }
  destruct (N4 Nn) as (N5 & N6 & N7). rewrite <- N7.
  destruct (IH t1 next end_ freed' Ht1 N2 Pe) as (t2 & freed2 & -> & O2 & P2 & W2); try lia.
  exists t2, freed2. split; [done|]. split; [done|]. split; [by rewrite P2|].
  intros va Hva Hv. rewrite (W2 va Hva ltac:(unfold near in *; congruence)), (HW1 va Hva Hv). apply unmapped_compose. lia.
Qed.
End unmapping.

Definition clear_pte (d start next : Z) (freed : list Z) : outcome (Z * list Z) := Ret (0, freed).

Lemma unmap_pte_loop_entries n : forall t idx start end_ freed, 0 <= start < end_ -> end_ <= 2 ^ 40 -> paged start -> paged end_ ->
  unmap_pte_loop n t idx start end_ = let* (t, _) := unmap_entries (2 ^ 12) clear_pte n t idx start end_ freed in Ret t.
Proof.
  induction n as [|n IH]; intros t idx start end_ freed Hs He Ps Pe; [done|]. cbn [unmap_pte_loop unmap_entries clear_pte obind].
  destruct (t !! Z.to_nat idx) as [d|] eqn:Ed; [|done]. cbn [obind]. rewrite addr_end_page by done. unfold PAGE_SIZE. rewrite (wrap_small 64 (start + _)) by lia.
  assert ((if negb (d =? 0) then <[Z.to_nat idx := 0]> t else t) = <[Z.to_nat idx := 0]> t) as ->.
  { destruct (Z.eqb_spec d 0) as [->|]; cbn [negb]; [|done]. by rewrite list_insert_id. }
  destruct (Z.eqb_spec (start + 4096) end_); [done|]. assert (start + 4096 < end_) by (unfold paged in *; Z.div_mod_to_equations; lia). apply IH; try done; try lia.
  unfold paged in *. Z.div_mod_to_equations. lia.
Qed.

Lemma unmap_pte_range_ok t start end_ : pte_table_ok t -> paged start -> paged end_ -> 0 <= start < end_ -> end_ <= 2 ^ 40 -> start / 2 ^ 21 = (end_ - 1) / 2 ^ 21 ->
  exists t', stage2_unmap_pte_range t start end_ = Ret t' /\ pte_table_ok t' /\
    forall va, 0 <= va -> near 21 start va -> table_walk 12 9 (fun d _ => pte_walk d) t' va = unmapped start end_ va (table_walk 12 9 (fun d _ => pte_walk d) t va).
Proof.
  intros Ht Ps Pe Hs He Hsame. unfold stage2_unmap_pte_range. rewrite (unmap_pte_loop_entries _ _ _ _ _ []), pte_index_eq by done.
  destruct (unmap_entries_ok 12 9 pte_ok (fun d _ => pte_walk d) (fun _ => []) ltac:(lia) ltac:(lia)
    ltac:(intros e va d; unfold pte_walk; by destruct (_ =? _)) clear_pte) with (n := 513%nat) (t := t) (start := start) (end_ := end_) (freed := @nil Z)
    as (t' & freed' & -> & Ht' & _ & HW); try done.
  { intros e a next freed _ Pa Pn Ha Hn Hs2. exists 0, freed. split; [done|]. split; [by left|]. split; [done|]. intros va Hva Hnear. unfold near, paged in *.
    rewrite unmapped_full; [done|]. change (2 ^ 12) with 4096 in *. Z.div_mod_to_equations. lia. }
  { change (2 ^ 21) with 2097152 in *. change (2 ^ 12) with 4096 in *. Z.div_mod_to_equations. lia. }
  exists t'. done.
Qed.

Lemma is_range_spec k start end_ : 0 <= k <= 39 -> 0 <= start < end_ -> end_ <= 2 ^ 40 -> is_range (2 ^ k) start end_ = true -> start mod 2 ^ k = 0 /\ end_ - start = 2 ^ k.
Proof. intros Hk Hs He. unfold is_range. rewrite land_pow2_mod, wrap_small by lia. intros [H1 H2]%andb_true_iff. split; by apply Z.eqb_eq. Qed.

Lemma full_range k start end_ va : 0 <= k -> 0 <= start -> start mod 2 ^ k = 0 -> end_ - start = 2 ^ k -> near k start va -> start <= va < end_.
Proof.
  unfold near. intros Hk Hs H1 H2 Hn. pose proof (Z.div_mod start (2 ^ k) ltac:(lia)). pose proof (Z.div_mod va (2 ^ k) ltac:(lia)). pose proof (Z.mod_pos_bound va (2 ^ k) ltac:(lia)).
  rewrite Hn in *. lia.
Qed.

Lemma unmap_pmd_entry_ok e start next freed : pmd_ok e -> paged start -> paged next -> 0 <= start < next -> next <= 2 ^ 40 -> start / 2 ^ 21 = (next - 1) / 2 ^ 21 ->
  unmap_post pmd_ok pmd_walk pmd_pages 21 start next e freed (unmap_pmd_entry e start next freed).
Proof.
  intros Hok Ps Pn Hs He Hsame. unfold unmap_pmd_entry. rewrite huge_spec. destruct Hok as [(E0 & Et)|[(E1 & Et)|(E3 & Ht & Hpg)]].
  - rewrite E0. cbn [Z.eqb]. exists e, freed. split; [done|]. split; [by left|]. split; [done|]. intros va _ _. unfold pmd_walk. rewrite E0. symmetry. apply unmapped_none.
  - destruct (Z.eqb_spec (pmd_d e) 0) as [E0|]; [by rewrite E0 in E1|]. rewrite E1. cbn [Z.eqb Pos.eqb].
    eexists _, freed. split; [done|]. split; [by left|]. split; [unfold pmd_pages; by rewrite E1|]. intros va _ Hn. unfold pmd_walk. rewrite E1. cbn. unfold near in Hn. rewrite Hn, <- Hsame.
    by rewrite Z.leb_refl.
  - destruct (Z.eqb_spec (pmd_d e) 0) as [E0|]; [by rewrite E0 in E3|]. rewrite E3. cbn [Z.eqb Pos.eqb].
    destruct (unmap_pte_range_ok (pmd_t e) start next Ht Ps Pn Hs He Hsame) as (t' & -> & Ht' & HW). cbn [obind]. change S2_PMD_SIZE with (2 ^ 21).
    assert (Hw : forall va, pmd_walk e va = table_walk 12 9 (fun d _ => pte_walk d) (pmd_t e) va) by (intros va; unfold pmd_walk; by rewrite E3).
    destruct (is_range _ _ _) eqn:Er.
    + apply is_range_spec in Er as [R1 R2]; try lia. eexists _, _. split; [done|]. split; [by left|]. split; [unfold pmd_pages; by rewrite E3|].
      intros va Hva Hn. rewrite unmapped_full; [done|]. by apply (full_range 21); try lia.
    + eexists _, _. split; [done|]. split; [by right; right|]. split; [unfold pmd_pages; cbn [pmd_d]; by rewrite E3|].
      intros va Hva Hn. rewrite Hw, <- (HW va Hva Hn). unfold pmd_walk. cbn [pmd_d pmd_t]. by rewrite E3.
Qed.

Lemma unmap_pmd_range_ok t start end_ freed : pmd_table_ok t -> paged start -> paged end_ -> 0 <= start < end_ -> end_ <= 2 ^ 40 -> start / 2 ^ 30 = (end_ - 1) / 2 ^ 30 ->
  unmap_post pmd_table_ok (table_walk 21 9 pmd_walk) (table_pages pmd_pages) 30 start end_ t freed (stage2_unmap_pmd_range t start end_ freed).
Proof.
  intros. unfold stage2_unmap_pmd_range. rewrite pmd_index_eq. change S2_PMD_SIZE with (2 ^ 21).
  apply (unmap_entries_ok 21 9 pmd_ok pmd_walk pmd_pages ltac:(lia) ltac:(lia) ltac:(lia)); try done.
  - intros. by apply unmap_pmd_entry_ok.
  - change (2 ^ 21) with 2097152 in *. change (2 ^ 30) with 1073741824 in *. Z.div_mod_to_equations. lia.
Qed.

(** No block of 1 GB, which the code maps but does not recognise later, covers [va]. *)
Definition no_giga (vs : s2) (va : Z) : Prop := forall d, s2_walk vs va <> Some (L2Giga d).

Lemma plain_no_giga vs va : s2_plain vs -> no_giga vs va.
Proof.
  intros Hf d. unfold s2_walk, table_walk. destruct (_ !! _) as [e|] eqn:Ee; [|done]. apply (Forall_lookup_1 _ _ _ _ Hf) in Ee.
  cbn. unfold pud_walk. destruct (Z.eqb_spec (Z.land (pud_d e) 3) 1); [done|]. destruct (_ =? 3); [|done]. unfold table_walk. destruct (_ !! _) as [p|]; [|done]. cbn. unfold pmd_walk.
  destruct (_ =? 1); [done|]. destruct (_ =? 3); [|done]. unfold table_walk. destruct (_ !! _) as [q|]; [|done]. cbn. unfold pte_walk. by destruct (_ =? 3).
Qed.

Lemma root_entry vs va : s2_ok vs -> exists e, root vs !! Z.to_nat (index 30 10 va) = Some e /\ pud_ok e /\ s2_walk vs va = pud_walk e va.
Proof.
  intros [[Hl Hok] _]. pose proof (index_bound 30 10 ltac:(lia) va). destruct (lookup_lt_is_Some_2 (root vs) (Z.to_nat (index 30 10 va)) ltac:(lia)) as (e & Ee).
  exists e. split; [done|]. split; [by apply (Forall_lookup_1 _ _ _ _ Hok Ee)|]. unfold s2_walk, table_walk. by rewrite Ee.
Qed.

Lemma unmap_pud_entry_ok e start end_ freed : pud_ok e -> (forall d, pud_walk e start <> Some (L2Giga d)) -> paged start -> paged end_ -> 0 <= start < end_ -> end_ <= 2 ^ 40 -> start / 2 ^ 30 = end_ / 2 ^ 30 ->
  unmap_post pud_ok pud_walk pud_pages 30 start end_ e freed (unmap_pud_entry e start end_ freed).
Proof.
  intros Hok Hg Ps Pn Hs He Hgig. assert (Hsame : start / 2 ^ 30 = (end_ - 1) / 2 ^ 30) by (change (2 ^ 30) with 1073741824 in *; Z.div_mod_to_equations; lia).
  unfold unmap_pud_entry. destruct Hok as [(E0 & Et)|[(E1 & Et)|(E3 & Ht & Hpg)]].
  - rewrite E0. cbn [Z.eqb]. exists e, freed. split; [done|]. split; [by left|]. split; [done|]. intros va _ _. unfold pud_walk. rewrite E0. symmetry. apply unmapped_none.
  - exfalso. apply (Hg (pud_d e)). unfold pud_walk. by rewrite E1.
  - destruct (Z.eqb_spec (pud_d e) 0) as [E0|]; [by rewrite E0 in E3|].
    destruct (unmap_pmd_range_ok (pud_t e) start end_ freed Ht Ps Pn Hs He Hsame) as (t' & freed' & -> & Ht' & Hp & HW). cbn [obind]. change S2_PUD_SIZE with (2 ^ 30).
    destruct (is_range _ _ _) eqn:Er.
    { apply is_range_spec in Er as [R1 R2]; try lia. exfalso. change (2 ^ 30) with 1073741824 in *. Z.div_mod_to_equations. lia. }
    eexists _, _. split; [done|]. split; [by right; right|]. split; [unfold pud_pages; cbn [pud_d pud_t]; rewrite E3, Z.eqb_refl; cbn [app]; by rewrite Hp|].
    intros va Hva Hn. unfold pud_walk. cbn [pud_d pud_t]. rewrite E3. apply (HW va Hva Hn).
Qed.

Lemma unmap_entries_step {E} size op n (t : list E) idx start end_ freed e : t !! Z.to_nat idx = Some e ->
  unmap_entries size op (S n) t idx start end_ freed = let next := stage2_xxx_addr_end start end_ size in
    let* (e', freed') := op e start next freed in let t' := <[Z.to_nat idx := e']> t in
    if next =? end_ then Ret (t', freed') else unmap_entries size op n t' (idx + 1) next end_ freed'.
Proof. intros Ee. cbn [unmap_entries]. by rewrite Ee. Qed.

Lemma unmap_entries_more {E} size op n : forall (t : list E) idx start end_ freed r, unmap_entries size op n t idx start end_ freed = Ret r -> unmap_entries size op (S n) t idx start end_ freed = Ret r.
Proof.
  induction n as [|n IH]; intros t idx start end_ freed r E0; [done|]. destruct (t !! Z.to_nat idx) as [e|] eqn:Ee; [|cbn [unmap_entries] in E0; by rewrite Ee in E0].
  rewrite unmap_entries_step with (e := e) in * by done. cbv zeta in *. destruct (op _ _ _ _) as [[e' freed']| | |]; cbn [obind] in *; try done.
  destruct (_ =? end_); [done|]. by apply IH.
Qed.

Lemma unmap_entries_one {E} size op n (t : list E) idx start end_ freed e : t !! Z.to_nat idx = Some e -> stage2_xxx_addr_end start end_ size = end_ ->
  unmap_entries size op (S n) t idx start end_ freed = let* (e', freed') := op e start end_ freed in Ret (<[Z.to_nat idx := e']> t, freed').
Proof. intros Ee En. cbn [unmap_entries]. rewrite Ee, En. by destruct (op e start end_ freed) as [[]| | |]; cbn [obind]; rewrite ?Z.eqb_refl. Qed.

(** *** The tables that an unmapping gives back *)

(** The 2 MB slots that lie in the range as a whole, in order. *)
Definition full_slots (start end_ : Z) : list Z :=
  let first := (start + (2 ^ 21 - 1)) / 2 ^ 21 in Z.mul (2 ^ 21) <$> seqZ first (end_ / 2 ^ 21 - first).

(** The table of pages that serves [va]. *)
Definition pmd_table (t : list pmd) (va : Z) : option Z :=
  t !! Z.to_nat (index 21 9 va) ≫= fun e => if Z.land (pmd_d e) 3 =? 3 then Some (table_addr (pmd_d e)) else None.
Definition pte_table_of (vs : s2) (va : Z) : option Z :=
  root vs !! Z.to_nat (index 30 10 va) ≫= fun e => if Z.land (pud_d e) 3 =? 3 then pmd_table (pud_t e) va else None.

Lemma full_slots_step start next end_ : 0 <= start < next -> next <= end_ -> end_ <= 2 ^ 40 -> start / 2 ^ 21 = (next - 1) / 2 ^ 21 -> (next <> end_ -> next mod 2 ^ 21 = 0) ->
  full_slots start end_ = (if is_range (2 ^ 21) start next then [start] else []) ++ full_slots next end_.
Proof.
  intros Hs Hn He Hq Hb. unfold full_slots, is_range. rewrite land_pow2_mod, wrap_small by lia. change (2 ^ 21) with 2097152 in *.
  destruct (Z.eqb_spec (start mod 2097152) 0) as [E1|E1], (Z.eqb_spec (next - start) 2097152) as [E2|E2]; cbn [andb app].
  - rewrite seqZ_cons by (Z.div_mod_to_equations; lia). cbn. f_equal; [Z.div_mod_to_equations; lia|]. do 2 f_equal; Z.div_mod_to_equations; lia.
  - assert (next = end_) as -> by (destruct (decide (next = end_)); [done|]; specialize (Hb n); Z.div_mod_to_equations; lia).
    rewrite !seqZ_nil by (Z.div_mod_to_equations; lia). done.
  - exfalso. Z.div_mod_to_equations. lia.
  - destruct (decide (next = end_)) as [->|N]; [|specialize (Hb N); do 2 f_equal; Z.div_mod_to_equations; lia].
    destruct (decide (end_ mod 2097152 = 0)); [do 2 f_equal; Z.div_mod_to_equations; lia|].
    rewrite !seqZ_nil by (Z.div_mod_to_equations; lia). done.
Qed.

Lemma full_slots_in start end_ va : 0 <= start -> va ∈ full_slots start end_ -> start <= va /\ va + 2 ^ 21 <= end_ /\ va mod 2 ^ 21 = 0.
Proof.
  intros Hs (i & -> & Hi)%list_elem_of_fmap. apply elem_of_seqZ in Hi. change (2 ^ 21) with 2097152 in *. Z.div_mod_to_equations. lia.
Qed.

Lemma unmap_pmd_entry_freed e start next freed e' freed' : pmd_ok e -> unmap_pmd_entry e start next freed = Ret (e', freed') ->
  freed' = (if is_range (2 ^ 21) start next then pmd_pages e else []) ++ freed.
Proof.
  unfold unmap_pmd_entry, pmd_pages. rewrite huge_spec. change S2_PMD_SIZE with (2 ^ 21). intros [(E0 & _)|[(E1 & _)|(E3 & _)]].
  - rewrite E0. cbn. intros [= <- <-]. by destruct (is_range _ _ _).
  - destruct (Z.eqb_spec (pmd_d e) 0) as [E0|]; [by rewrite E0 in E1|]. rewrite E1. cbn. intros [= <- <-]. by destruct (is_range _ _ _).
  - destruct (Z.eqb_spec (pmd_d e) 0) as [E0|]; [by rewrite E0 in E3|]. rewrite E3. cbn [Z.eqb Pos.eqb]. intros E. apply obind_Ret_inv in E as (t & _ & E).
    by destruct (is_range _ _ _); injection E as <- <-.
Qed.

Lemma pmd_table_insert t e start va : table_ok 9 pmd_ok t -> 0 <= start < va -> start / 2 ^ 30 = va / 2 ^ 30 -> start / 2 ^ 21 <> va / 2 ^ 21 ->
  pmd_table (<[Z.to_nat (index 21 9 start) := e]> t) va = pmd_table t va.
Proof.
  intros Ht Hs H30 H21. unfold pmd_table. rewrite list_lookup_insert_ne; [done|]. intros E. apply H21.
  pose proof (index_bound 21 9 ltac:(lia) start). pose proof (index_bound 21 9 ltac:(lia) va). apply (index_same 21 9); try lia. exact H30.
Qed.

Lemma unmap_pmds_freed n : forall t start end_ freed t' freed', pmd_table_ok t -> paged start -> paged end_ -> 0 <= start < end_ -> end_ <= 2 ^ 40 -> start / 2 ^ 30 = (end_ - 1) / 2 ^ 30 ->
  unmap_entries (2 ^ 21) unmap_pmd_entry n t (index 21 9 start) start end_ freed = Ret (t', freed') ->
  freed' = reverse (omap (pmd_table t) (full_slots start end_)) ++ freed.
Proof.
  induction n as [|n IH]; intros t start end_ freed t' freed' Ht Ps Pe Hs He Hsame E; [done|]. cbn [unmap_entries] in E.
  destruct (next_step 21 9 ltac:(lia) ltac:(lia) start end_ Hs He Ps Pe Hsame) as (N1 & N2 & N3 & N4). set (next := stage2_xxx_addr_end _ _ _) in *.
  destruct (t !! Z.to_nat (index 21 9 start)) as [e|] eqn:Ee; [|done]. assert (Hoke : pmd_ok e) by apply (Forall_lookup_1 _ _ _ _ (proj2 Ht) Ee).
  apply obind_Ret_inv in E as ([e1 freed1] & E1 & E). pose proof (unmap_pmd_entry_freed _ _ _ _ _ _ Hoke E1) as ->.
  destruct (unmap_pmd_entry_ok e start next freed Hoke Ps N2 ltac:(lia) ltac:(lia) N3) as (e2 & f2 & E2 & Hok2 & _). rewrite E1 in E2. injection E2 as -> _.
  rewrite (full_slots_step start next end_) by (try done; try lia; intros Hne; apply N4 in Hne as (Hne & _); unfold next; rewrite addr_end_min in * by lia; change (2 ^ 21) with 2097152 in *; Z.div_mod_to_equations; lia).
  assert (Hone : reverse (omap (pmd_table t) (if is_range (2 ^ 21) start next then [start] else [])) = if is_range (2 ^ 21) start next then pmd_pages e else []).
  { destruct (is_range _ _ _); [|done]. unfold pmd_pages. cbn. unfold pmd_table. rewrite Ee. cbn. by destruct (_ =? 3). }
  rewrite omap_app, reverse_app, Hone, <- app_assoc. destruct (Z.eqb_spec next end_) as [En|Nn].
  - injection E as <- <-. rewrite En. assert (full_slots end_ end_ = []) as ->; [|done].
    unfold full_slots. rewrite seqZ_nil by (change (2 ^ 21) with 2097152; Z.div_mod_to_equations; lia). done.
  - destruct (N4 Nn) as (N5 & N6 & N7). rewrite <- N7 in E. apply IH in E as ->; try lia; try done.
    + f_equal. f_equal. apply list_omap_ext, Forall_Forall2_diag, Forall_forall. intros va Hva. apply full_slots_in in Hva as (H1 & H2 & H3); [|lia].
      apply pmd_table_insert; [done|lia| |]; change (2 ^ 21) with 2097152 in *; change (2 ^ 30) with 1073741824 in *; Z.div_mod_to_equations; lia.
    + split; [rewrite length_insert; apply Ht|apply Forall_insert; [apply Ht|done]].
    + change (21 + 9) with 30 in N6. by rewrite N6.
Qed.

Lemma unmap_pud_entry_freed e start end_ freed e' freed' : pud_ok e -> (forall d, pud_walk e start <> Some (L2Giga d)) -> paged start -> paged end_ -> 0 <= start < end_ -> end_ <= 2 ^ 40 -> start / 2 ^ 30 = end_ / 2 ^ 30 ->
  unmap_pud_entry e start end_ freed = Ret (e', freed') ->
  freed' = reverse (omap (fun va => if Z.land (pud_d e) 3 =? 3 then pmd_table (pud_t e) va else None) (full_slots start end_)) ++ freed.
Proof.
  intros Hok Hg Ps Pn Hs He Hgig. unfold unmap_pud_entry. destruct Hok as [(E0 & Et)|[(E1 & Et)|(E3 & Ht & Hpg)]].
  - rewrite E0. cbn [Z.eqb]. intros [= <- <-]. cbn. induction (full_slots start end_) as [|a l IH]; [done|exact IH].
  - exfalso. apply (Hg (pud_d e)). unfold pud_walk. by rewrite E1.
  - destruct (Z.eqb_spec (pud_d e) 0) as [E0|]; [by rewrite E0 in E3|]. rewrite E3, Z.eqb_refl. intros E. apply obind_Ret_inv in E as ([t f] & E & Er).
    unfold stage2_unmap_pmd_range in E. rewrite pmd_index_eq in E. change S2_PMD_SIZE with (2 ^ 21) in E. apply unmap_pmds_freed in E as ->; try done.
    + destruct (is_range S2_PUD_SIZE start end_) eqn:R; [|by injection Er as <- <-]. change S2_PUD_SIZE with (2 ^ 30) in R.
      apply is_range_spec in R as [R1 R2]; try lia. exfalso. change (2 ^ 30) with 1073741824 in *. Z.div_mod_to_equations. lia.
    + change (2 ^ 30) with 1073741824 in *. Z.div_mod_to_equations. lia.
Qed.

(** C17: within one gigabyte, and not up to its end, where no 1 GB block is mapped, [arch_guest_unmap]
    removes the translation of every address of the range and no other, except that a 2 MB block goes as
    a whole.  It gives back exactly the tables of pages whose 2 MB lie in the range as a whole, each
    once; the other pages of the tables stay. *)
Theorem guest_unmap_exact vs start end_ : s2_ok vs -> no_giga vs start -> paged start -> paged end_ -> 0 <= start < end_ -> end_ <= 2 ^ 40 -> start / 2 ^ 30 = end_ / 2 ^ 30 ->
  exists vs', arch_guest_unmap vs start end_ = Ret (0, vs') /\ s2_ok vs' /\ s2_mem vs' = s2_mem vs /\ s2_pages vs' ++ s2_freed vs' ≡ₚ s2_pages vs ++ s2_freed vs /\
    s2_freed vs' = reverse (omap (pte_table_of vs) (full_slots start end_)) ++ s2_freed vs /\
    forall va, 0 <= va < 2 ^ 40 -> s2_walk vs' va = unmapped start end_ va (s2_walk vs va).
Proof.
  intros Hok Hg Ps Pe Hs He Hgig. unfold arch_guest_unmap. destruct (Z.eqb_spec end_ start); [lia|]. change VMM_VIRT_MAX with (2 ^ 40).
  rewrite (proj2 (Z.ltb_lt start _)), (proj2 (Z.leb_le end_ _)) by lia. cbn [andb assert obind]. unfold stage2_unmap_pud_range. rewrite pud_index_eq.
  replace (index 30 10 end_) with (index 30 10 start) by (unfold index; by rewrite Hgig). destruct (root_entry vs start Hok) as (e & Ee & Hoke & Hw).
  change S2_PUD_SIZE with (2 ^ 30). rewrite (unmap_entries_one _ _ 1024 _ _ _ _ _ e Ee) by (rewrite addr_end_min by lia; change (2 ^ 30) with 1073741824 in *; Z.div_mod_to_equations; lia).
  assert (Hge : forall d, pud_walk e start <> Some (L2Giga d)) by (intros d; rewrite <- Hw; apply Hg).
  destruct (unmap_pud_entry_ok e start end_ (s2_freed vs) Hoke Hge Ps Pe Hs He Hgig) as (e' & freed' & Eq & Ho & Hp & HW).
  pose proof (unmap_pud_entry_freed _ _ _ _ _ _ Hoke Hge Ps Pe Hs He Hgig Eq) as Hf. rewrite Eq. cbn [obind].
  eexists. split; [done|]. destruct Hok as [Hr Hm]. split; [split; [split; [cbn [root]; rewrite length_insert; apply Hr|apply Forall_insert; [apply Hr|done]]|done]|].
  split; [done|]. unfold s2_pages. cbn [root s2_mem s2_freed]. split.
  - destruct (table_pages_insert pud_pages _ _ e e' Ee) as (rest & R1 & R2). rewrite R1, R2, <- !app_assoc, !(Permutation_app_comm rest), !app_assoc. by rewrite Hp.
  - split; [rewrite Hf; do 2 f_equal; apply list_omap_ext, Forall_Forall2_diag, Forall_forall; intros va Hva|].
    { apply full_slots_in in Hva as (H1 & H2 & _); [|lia]. unfold pte_table_of. assert (Eg : va / 2 ^ 30 = start / 2 ^ 30).
      { change (2 ^ 30) with 1073741824 in *. change (2 ^ 21) with 2097152 in *. Z.div_mod_to_equations. lia. }
      unfold index in *. by rewrite Eg, Ee. }
    intros va Hva. unfold s2_walk. cbn [root]. rewrite (walk_insert 30 10 pud_ok) by (try done; try lia; change (2 ^ (30 + 10)) with (2 ^ 40); by rewrite !Z.div_small by lia).
    destruct (Z.eqb_spec (va / 2 ^ 30) (start / 2 ^ 30)) as [E1|E1].
    + rewrite (HW va ltac:(lia) E1). unfold table_walk. replace (index 30 10 va) with (index 30 10 start) by (unfold index; congruence). by rewrite Ee.
    + unfold unmapped. assert ((start <=? va) && (va <? end_) = false) as ->.
      { change (2 ^ 30) with 1073741824 in *. case_bools; try done. exfalso. Z.div_mod_to_equations. lia. }
      assert ((start / 2 ^ 21 <=? va / 2 ^ 21) && (va / 2 ^ 21 <=? (end_ - 1) / 2 ^ 21) = false) as ->; [|by destruct (table_walk _ _ _ _ _) as [[]|]].
      change (2 ^ 30) with 1073741824 in *. change (2 ^ 21) with 2097152. case_bools; try done. exfalso. Z.div_mod_to_equations. lia.
Qed.

Lemma add_frame d va k : 0 <= k <= 30 -> u64 (Z.land d S2_PHYSICAL_MASK + va mod 2 ^ k) = Z.land d S2_PHYSICAL_MASK + va mod 2 ^ k.
Proof.
  intros Hk. pose proof (land_word 48 S2_PHYSICAL_MASK d ltac:(lia) ltac:(done)) as Hl. rewrite Z.land_comm in Hl. pose proof (Z.mod_pos_bound va (2 ^ k) ltac:(lia)).
  assert (2 ^ k <= 2 ^ 30) by (apply Z.pow_le_mono_r; lia). rewrite wrap_small by lia. done.
Qed.

Lemma translate_ok vs va : s2_ok vs -> 0 <= va < 2 ^ 40 -> no_giga vs va -> (forall d, s2_walk vs va = Some (L2Page d) -> Z.land d S2_PHYSICAL_MASK <> 0) ->
  arch_translate_guest_ipa vs va = Ret (match s2_translate vs va with Some pa => inr pa | None => inl (- EFAULT) end).
Proof.
  intros Hok Hva Hg H0. unfold arch_translate_guest_ipa, stage2_ipa_to_pa, s2_translate. destruct (root_entry vs va Hok) as (e & Ee & Hoke & Hw). unfold no_giga in Hg.
  rewrite pud_index_eq, pmd_index_eq, pte_index_eq, Ee. rewrite Hw in *. unfold pud_walk in *. destruct Hoke as [(E0 & _)|[(E1 & _)|(E3 & Ht & _)]].
  { rewrite E0. done. }
  { exfalso. apply (Hg (pud_d e)). by rewrite E1. }
  destruct (Z.eqb_spec (pud_d e) 0) as [E0|]; [by rewrite E0 in E3|]. rewrite E3 in *. cbn [Z.eqb Pos.eqb] in *. destruct Ht as [Hl Ht]. pose proof (index_bound 21 9 ltac:(lia) va).
  destruct (lookup_lt_is_Some_2 (pud_t e) (Z.to_nat (index 21 9 va)) ltac:(lia)) as (p & Ep). unfold table_walk in *. rewrite Ep in *. cbn [mbind option_bind] in *.
  clear Hg Hw. change (not64 S2_PTE_MASK) with (2 ^ 12 - 1). change (not64 S2_PMD_MASK) with (2 ^ 21 - 1). rewrite !land_pow2_mod, huge_spec by lia.
  assert (Hp : pmd_ok p) by (by apply (Forall_lookup_1 _ _ _ _ Ht Ep)). unfold pmd_walk, table_walk in *. destruct Hp as [(E0 & _)|[(E1 & _)|(P3 & Hpt & _)]].
  { rewrite E0. done. }
  { destruct (Z.eqb_spec (pmd_d p) 0) as [E0|]; [by rewrite E0 in E1|]. rewrite E1. cbn [Z.eqb Pos.eqb fmap option_fmap option_map leaf_addr]. by rewrite add_frame. }
  destruct (Z.eqb_spec (pmd_d p) 0) as [E0|]; [by rewrite E0 in P3|]. rewrite P3 in *. cbn [Z.eqb Pos.eqb] in *. destruct Hpt as [Hpl Hpt]. pose proof (index_bound 12 9 ltac:(lia) va).
  destruct (lookup_lt_is_Some_2 (pmd_t p) (Z.to_nat (index 12 9 va)) ltac:(lia)) as (d & Ed). rewrite Ed in *. cbn [mbind option_bind] in *. unfold pte_walk in *.
  destruct (Forall_lookup_1 _ _ _ _ Hpt Ed) as [->|D3]; [done|]. rewrite D3 in *. cbn [Z.eqb Pos.eqb fmap option_fmap option_map leaf_addr] in *.
  destruct (Z.eqb_spec (Z.land d S2_PHYSICAL_MASK) 0); [by destruct (H0 d)|]. by rewrite add_frame.
Qed.

(** C18: [arch_translate_guest_ipa] computes the translation that the hardware makes: for every address
    without a 1 GB block and without a page at physical address 0, which the code takes for absent,
    it returns the physical address, or [-EFAULT] where the hardware would fault. *)
Theorem translate_is_walk vs va : s2_ok vs -> 0 <= va < 2 ^ 40 -> no_giga vs va -> (forall d, s2_walk vs va = Some (L2Page d) -> Z.land d S2_PHYSICAL_MASK <> 0) ->
  arch_translate_guest_ipa vs va = Ret (match s2_translate vs va with Some pa => inr pa | None => inl (- EFAULT) end).
Proof. apply translate_ok. Qed.

(** ** Unmapping everything *)

Section unmap_full.
Context {E : Type} (k m : Z) (okE : E -> Prop) (pagesE : E -> list Z) (empty : E).
Hypothesis Hk : 12 <= k <= 30.
Hypothesis Hm : 0 <= m <= 10.
Context (op : E -> Z -> Z -> list Z -> outcome (E * list Z)).
Hypothesis op_full : forall e start freed, okE e -> 0 <= start -> start + 2 ^ k <= 2 ^ 40 -> start mod 2 ^ k = 0 ->
  exists freed', op e start (start + 2 ^ k) freed = Ret (empty, freed') /\ freed' ≡ₚ pagesE e ++ freed.

(** [n] entries from index [i] up to the end of the table. *)
Lemma unmap_entries_full n : forall pre t start freed, Forall okE t -> (length t = S n)%nat -> 0 <= start -> start mod 2 ^ k = 0 ->
  start + 2 ^ k * Z.of_nat (length t) <= 2 ^ 40 ->
  exists freed', unmap_entries (2 ^ k) op (S n) (pre ++ t) (Z.of_nat (length pre)) start (start + 2 ^ k * Z.of_nat (length t)) freed = Ret (pre ++ replicate (length t) empty, freed') /\
    freed' ≡ₚ table_pages pagesE t ++ freed.
Proof using Hk op_full.
  induction n as [|n IH]; intros pre t start freed Hok Hl Hs Ha He.
  all: destruct t as [|e t]; [done|]; apply Forall_cons in Hok as [Hoke Hok]; cbn [length] in *.
  all: assert (P : 0 < 2 ^ k) by lia; assert (P39 : 2 ^ k <= 2 ^ 30) by (apply Z.pow_le_mono_r; lia).
  all: assert (Hnext : stage2_xxx_addr_end start (start + 2 ^ k * Z.of_nat (S (length t))) (2 ^ k) = start + 2 ^ k).
  1,3: rewrite addr_end_min by nia; pose proof (Z.div_mod start (2 ^ k) ltac:(lia)); nia.
  all: destruct (op_full e start freed Hoke Hs ltac:(nia) Ha) as (freed1 & E1 & P1).
  all: rewrite unmap_entries_step with (e := e); [|by rewrite Nat2Z.id, lookup_app_r, Nat.sub_diag by lia]; cbv zeta; rewrite Hnext, E1; cbn [obind].
  all: rewrite Nat2Z.id, insert_app_r_alt, Nat.sub_diag by lia; cbn [insert list_insert].
  - destruct t; [|done]. cbn [length] in *. rewrite (proj2 (Z.eqb_eq _ _)) by lia. exists freed1. split; [done|]. rewrite P1. unfold table_pages. cbn. by rewrite app_nil_r.
  - destruct (Z.eqb_spec (start + 2 ^ k) (start + 2 ^ k * Z.of_nat (S (length t)))); [nia|].
    destruct (IH (pre ++ [empty]) t (start + 2 ^ k) freed1 Hok ltac:(lia) ltac:(lia)) as (freed2 & E2 & P2).
    { rewrite <- Zplus_mod_idemp_r, Z_mod_same_full, Z.add_0_r. done. }
    { lia. }
    rewrite <- app_assoc, length_app in E2. cbn [length app] in E2. replace (Z.of_nat (length pre + 1)) with (Z.of_nat (length pre) + 1) in E2 by lia.
    replace (start + 2 ^ k + 2 ^ k * Z.of_nat (length t)) with (start + 2 ^ k * Z.of_nat (S (length t))) in E2 by lia. exists freed2. split.
    + rewrite E2, <- app_assoc. done.
    + rewrite P2, P1. unfold table_pages. cbn [map concat]. rewrite !app_assoc. f_equiv. apply Permutation_app_comm.
Qed.
End unmap_full.

Lemma unmap_pmd_full e start freed : pmd_ok e -> 0 <= start -> start + 2 ^ 21 <= 2 ^ 40 -> start mod 2 ^ 21 = 0 ->
  exists freed', unmap_pmd_entry e start (start + 2 ^ 21) freed = Ret (mk_pmd 0 [], freed') /\ freed' ≡ₚ pmd_pages e ++ freed.
Proof.
  intros Hok Hs He Ha. unfold unmap_pmd_entry. rewrite huge_spec. destruct e as [d t]. unfold pmd_pages. cbn [pmd_d pmd_t]. destruct Hok as [(E0 & Et)|[(E1 & Et)|(E3 & Ht & Hpg)]]; cbn [pmd_d pmd_t] in *.
  - subst. by exists freed.
  - destruct (Z.eqb_spec d 0) as [->|]; [done|]. rewrite E1. by exists freed.
  - destruct (Z.eqb_spec d 0) as [->|]; [done|]. rewrite E3. cbn [Z.eqb Pos.eqb].
    destruct (unmap_pte_range_ok t start (start + 2 ^ 21) Ht) as (t' & -> & _); try lia; unfold paged.
    1-3: change (2 ^ 21) with 2097152 in *; Z.div_mod_to_equations; lia.
    cbn [obind]. unfold is_range. change (S2_PMD_SIZE - 1) with (2 ^ 21 - 1). rewrite land_pow2_mod, Ha, wrap_small by lia. replace (start + 2 ^ 21 - start) with S2_PMD_SIZE by (change S2_PMD_SIZE with (2 ^ 21); lia).
    rewrite !Z.eqb_refl. by eexists.
Qed.

Lemma unmap_pud_full e start freed : pud_ok e -> Z.land (pud_d e) 3 <> 1 -> 0 <= start -> start + 2 ^ 30 <= 2 ^ 40 -> start mod 2 ^ 30 = 0 ->
  exists freed', unmap_pud_entry e start (start + 2 ^ 30) freed = Ret (mk_pud 0 [], freed') /\ freed' ≡ₚ pud_pages e ++ freed.
Proof.
  intros Hok Hg Hs He Ha. unfold unmap_pud_entry. destruct e as [d t]. unfold pud_pages. cbn [pud_d pud_t] in *. destruct Hok as [(E0 & Et)|[(E1 & Et)|(E3 & [Hl Ht] & Hpg)]]; cbn [pud_d pud_t] in *.
  - subst. by exists freed.
  - done.
  - destruct (Z.eqb_spec d 0) as [->|]; [done|]. rewrite E3. cbn [Z.eqb Pos.eqb]. unfold stage2_unmap_pmd_range. rewrite pmd_index_eq.
    replace (index 21 9 start) with (Z.of_nat 0) by (unfold index; change (2 ^ 21) with 2097152; change (2 ^ 30) with 1073741824 in *; change (2 ^ 9) with 512; Z.div_mod_to_equations; lia).
    change S2_PMD_SIZE with (2 ^ 21). replace (start + 2 ^ 30) with (start + 2 ^ 21 * Z.of_nat (length t)) by (rewrite Hl; lia).
    destruct (unmap_entries_full 21 pmd_ok pmd_pages (mk_pmd 0 []) ltac:(lia) unmap_pmd_entry ltac:(intros; by apply unmap_pmd_full) 511 [] t start freed Ht ltac:(lia) Hs) as (freed' & E & P).
    { change (2 ^ 21) with 2097152; change (2 ^ 30) with 1073741824 in *. Z.div_mod_to_equations. lia. }
    { rewrite Hl. lia. }
    cbn [app length] in E. rewrite (unmap_entries_more _ _ 512 _ _ _ _ _ _ E). cbn [obind]. rewrite Hl. unfold is_range. change (S2_PUD_SIZE - 1) with (2 ^ 30 - 1).
    rewrite land_pow2_mod, Ha, wrap_small by lia. replace (start + 2 ^ 21 * 2 ^ 9 - start) with S2_PUD_SIZE by (change S2_PUD_SIZE with (2 ^ 30); lia).
    rewrite !Z.eqb_refl. eexists. split; [done|]. cbn [app]. by rewrite P.
Qed.

Lemma empty_tables_ok mem : Forall page_ok mem -> s2_ok (empty_tables mem).
Proof. split; [|done]. split; [done|]. apply Forall_replicate. by left. Qed.

Lemma empty_tables_walk mem freed va : s2_walk (mk_s2 (replicate 1024 (mk_pud 0 [])) mem freed) va = None.
Proof. unfold s2_walk, table_walk. cbn [root]. destruct (_ !! _) as [e|] eqn:Ee; [|done]. by apply lookup_replicate in Ee as [-> _]. Qed.

Lemma unmap_all_ok vs : s2_ok vs -> s2_plain vs ->
  exists vs', arch_guest_unmap vs 0 (2 ^ 40) = Ret (0, vs') /\ s2_ok vs' /\ s2_mem vs' = s2_mem vs /\ s2_pages vs' = [] /\ s2_freed vs' ≡ₚ s2_pages vs ++ s2_freed vs /\
    forall va, s2_walk vs' va = None.
Proof.
  intros [[Hl Hok] Hm] Hpl. unfold arch_guest_unmap. cbn [Z.eqb]. change VMM_VIRT_MAX with (2 ^ 40). rewrite Z.leb_refl. cbn [andb assert obind Z.ltb Z.compare].
  unfold stage2_unmap_pud_range. change (stage2_pud_index (2 ^ 40)) with (Z.of_nat (length (@nil pud))). change S2_PUD_SIZE with (2 ^ 30).
  assert (Hok' : Forall (fun e => pud_ok e /\ Z.land (pud_d e) 3 <> 1) (root vs)).
  { apply Forall_and. by split. }
  destruct (unmap_entries_full 30 (fun e => pud_ok e /\ Z.land (pud_d e) 3 <> 1) pud_pages (mk_pud 0 []) ltac:(lia) unmap_pud_entry
    ltac:(intros e start freed [? ?]; by apply unmap_pud_full) 1023 [] (root vs) 0 (s2_freed vs) Hok' ltac:(lia) ltac:(done) ltac:(done) ltac:(rewrite Hl; lia)) as (freed' & E & P).
  rewrite Hl in E. apply unmap_entries_more in E. change (0 + 2 ^ 30 * 2 ^ 10) with (2 ^ 40) in E. cbn [app] in E. rewrite E. cbn [obind]. replace (length (root vs)) with 1024%nat by lia.
  eexists. split; [done|]. split; [by apply empty_tables_ok|]. split; [done|]. split; [done|]. split; [done|]. intros va. apply empty_tables_walk.
Qed.

(** Unmapping the whole address space, as it is done when a virtual machine is destroyed, leaves no
    translation and no table below the root, and gives back every table page exactly once. *)
Theorem guest_unmap_all vs : s2_ok vs -> s2_plain vs ->
  exists vs', arch_guest_unmap vs 0 (2 ^ 40) = Ret (0, vs') /\ s2_ok vs' /\ s2_mem vs' = s2_mem vs /\ s2_pages vs' = [] /\ s2_freed vs' ≡ₚ s2_pages vs ++ s2_freed vs /\
    forall va, s2_walk vs' va = None.
Proof. apply unmap_all_ok. Qed.

(** ** Mapping a block of 2 MB succeeds *)

Lemma map_entries_one {E} size op n (t : list E) idx start end_ phys mem e : t !! Z.to_nat idx = Some e -> stage2_xxx_addr_end start end_ size = end_ ->
  map_entries size op (S n) t idx start end_ phys mem = let* (r, mem') := op e start end_ phys mem in Ret (fst r, <[Z.to_nat idx := snd r]> t, mem').
Proof.
  intros Ee En. cbn [map_entries]. rewrite Ee, En. destruct (op e start end_ phys mem) as [[[r e'] mem']| | |]; cbn [obind fst snd]; try done. rewrite Z.eqb_refl. by destruct (Z.eqb_spec r 0) as [->|].
Qed.

Lemma block_addr_end k start : 21 <= k <= 30 -> 0 <= start -> start + 2 ^ 21 <= 2 ^ 40 -> start mod 2 ^ 21 = 0 -> stage2_xxx_addr_end start (start + 2 ^ 21) (2 ^ k) = start + 2 ^ 21.
Proof.
  intros Hk Hs He Ha. rewrite addr_end_min by lia. replace k with (21 + (k - 21)) by lia. rewrite Z.pow_add_r by lia. set (n := 2 ^ (k - 21)). assert (0 < n) by (subst n; lia).
  rewrite <- Z.div_div by lia. apply Z.min_r. pose proof (Z.div_mod start (2 ^ 21) ltac:(lia)). pose proof (Z.mul_succ_div_gt (start / 2 ^ 21) n ltac:(lia)). nia.
Qed.

Lemma map_block_pmds t start phys flags mem : pmd_table_ok t -> (forall d, table_walk 21 9 pmd_walk t start <> Some (L2Block d)) -> has_flag flags (Z.lor __VM_HUGE_2M __VM_HUGE_1G) = true ->
  start mod 2 ^ 21 = 0 -> 0 <= start -> start + 2 ^ 21 <= 2 ^ 40 -> phys mod 2 ^ 21 = 0 -> 0 <= phys < 2 ^ 40 ->
  exists t' mem', stage2_map_pmd_range t start (start + 2 ^ 21) phys flags mem = Ret (0, t', mem') /\ mem' = mem.
Proof.
  intros [Hl Ht] Hw Hf Ha Hs He Hp Hp2. unfold stage2_map_pmd_range. rewrite pmd_index_eq. change S2_PMD_SIZE with (2 ^ 21). pose proof (index_bound 21 9 ltac:(lia) start).
  destruct (lookup_lt_is_Some_2 t (Z.to_nat (index 21 9 start)) ltac:(lia)) as (e & Ee). rewrite (map_entries_one _ _ 512 _ _ _ _ _ _ e Ee) by (apply block_addr_end; lia).
  assert (Hb : forall x, x mod 2 ^ 21 = 0 -> IS_BLOCK_ALIGN x = true) by (intros x Hx; rewrite IS_BLOCK_ALIGN_spec; by apply Z.eqb_eq).
  unfold map_pmd_entry, stage2_pmd_huge_page. rewrite Hf, wrap_small by lia. replace (start + 2 ^ 21 - start) with (2 ^ 21) by lia. rewrite !Hb by done. cbn [negb orb]. rewrite huge_spec.
  destruct (Forall_lookup_1 _ _ _ _ Ht Ee) as [(E0 & _)|[(E1 & _)|(E3 & Htt & _)]].
  - rewrite E0. cbn. by eexists _, _.
  - exfalso. apply (Hw (pmd_d e)). unfold table_walk. rewrite Ee. cbn. unfold pmd_walk. by rewrite E1.
  - destruct (Z.eqb_spec (pmd_d e) 0) as [E0|]; [by rewrite E0 in E3|]. rewrite E3. cbn [Z.eqb Pos.eqb negb andb].
    destruct (map_pte_range_ok flags (pmd_t e) start (start + 2 ^ 21) phys Htt) as (t' & -> & _); try lia; unfold paged; [change (2 ^ 21) with 2097152 in *; Z.div_mod_to_equations; lia..|].
    cbn. by eexists _, _.
Qed.

Lemma map_block_succeeds vs start phys flags : s2_ok vs -> s2_plain vs -> (forall d, s2_walk vs start <> Some (L2Block d)) -> has_flag flags (Z.lor __VM_HUGE_2M __VM_HUGE_1G) = true ->
  start mod 2 ^ 21 = 0 -> 0 <= start -> start + 2 ^ 21 <= 2 ^ 40 -> phys mod 2 ^ 21 = 0 -> 0 <= phys < 2 ^ 40 -> s2_mem vs <> [] ->
  exists vs', arch_guest_map vs start (start + 2 ^ 21) phys flags = Ret (0, vs') /\ (length (s2_mem vs) <= S (length (s2_mem vs')))%nat.
Proof.
  intros Hok Hpl Hw Hf Ha Hs He Hp Hp2 Hmem. assert (P : forall x, x mod 2 ^ 21 = 0 -> IS_PAGE_ALIGN x = true).
  { intros x Hx. rewrite IS_PAGE_ALIGN_spec. apply Z.eqb_eq. change (2 ^ 21) with 2097152 in *. Z.div_mod_to_equations. lia. }
  unfold arch_guest_map. destruct (Z.eqb_spec (start + 2 ^ 21) start); [lia|]. rewrite !P by (try done; rewrite <- Zplus_mod_idemp_r, Z_mod_same_full, Z.add_0_r; done).
  change VMM_VIRT_MAX with (2 ^ 40). change S2_PHYSICAL_MAX with (2 ^ 40).
  rewrite (proj2 (Z.ltb_lt start _)), (proj2 (Z.leb_le (start + _) _)), (proj2 (Z.ltb_lt phys _)) by lia. cbn [andb assert obind].
  unfold stage2_map_pud_range. rewrite pud_index_eq. destruct (root_entry vs start Hok) as (e & Ee & Hoke & Ew). change S2_PUD_SIZE with (2 ^ 30).
  rewrite (map_entries_one _ _ 1024 _ _ _ _ _ _ e Ee) by (apply block_addr_end; lia). unfold map_pud_entry. rewrite wrap_small, huge_spec by lia. replace (start + 2 ^ 21 - start) with (2 ^ 21) by lia.
  assert (stage2_pud_huge_page (pud_d e) start phys (2 ^ 21) flags = false) as ->.
  { unfold stage2_pud_huge_page. destruct (_ || _); [done|]. change (IS_PUD_ALIGN (2 ^ 21)) with false. by rewrite !orb_true_r. }
  rewrite Ew in Hw. destruct Hoke as [(E0 & _)|[(E1 & _)|(E3 & Ht & _)]].
  - rewrite E0. cbn [Z.eqb negb andb]. destruct (s2_mem vs) as [|v mem] eqn:Em; [done|]. destruct Hok as [_ Hm]. rewrite Em in Hm. apply Forall_cons in Hm as [Hv Hm]. cbn [stage2_get_free_page].
    destruct (Z.eqb_spec v 0) as [->|]; [destruct Hv; lia|]. destruct empty_pmds_ok as (Z1 & _ & Z3). fold empty_pmds.
    destruct (map_block_pmds empty_pmds start phys flags mem Z1 ltac:(intros d; by rewrite Z3) Hf Ha Hs He Hp Hp2) as (t' & mem' & -> & ->). cbn. by eexists.
  - by destruct (Forall_lookup_1 _ _ _ _ Hpl Ee).
  - destruct (Z.eqb_spec (pud_d e) 0) as [E0|]; [by rewrite E0 in E3|]. rewrite E3. cbn [Z.eqb Pos.eqb negb andb]. unfold pud_walk in Hw. rewrite E3 in Hw.
    destruct (map_block_pmds (pud_t e) start phys flags (s2_mem vs) Ht Hw Hf Ha Hs He Hp Hp2) as (t' & mem' & -> & ->). cbn [obind fst snd]. eexists. split; [done|]. cbn [s2_mem]. lia.
Qed.

(** ** Concrete tables *)

Definition demo_empty : s2 := empty_tables [0x100000; 0x101000; 0x102000; 0x103000; 0x104000].

Definition demo_map (vs : s2) (start end_ physical flags : Z) : s2 :=
  match stage2_map_pud_range vs start end_ physical flags with Ret (_, vs) => vs | _ => vs end.

(** A block of 2 MB and a page in the second gigabyte, and a page at the end of the first. *)
Definition demo_two : s2 := demo_map demo_empty 0x40000000 0x40201000 0x80000000 (Z.lor __VM_RW __VM_HUGE_2M).
Definition demo_tables : s2 := demo_map demo_two 0x3ffff000 0x40000000 0x90000000 __VM_RW.

Lemma demo_empty_ok : s2_ok demo_empty.
Proof. apply empty_tables_ok. by repeat constructor. Qed.

Lemma demo_map_ok vs start end_ phys flags : s2_ok vs -> paged start -> paged end_ -> paged phys -> 0 <= start < end_ -> end_ <= 2 ^ 40 -> 0 <= phys < 2 ^ 40 -> s2_ok (demo_map vs start end_ phys flags).
Proof. intros. unfold demo_map. destruct (map_pud_range_ok flags vs start end_ phys) as (ret & vs' & mid & -> & Hok' & _); try done; lia. Qed.

Lemma demo_tables_ok : s2_ok demo_tables.
Proof. apply demo_map_ok; try done. apply demo_map_ok; try done. apply demo_empty_ok. Qed.

Lemma guest_map_exact_witness : exists vs', arch_guest_map demo_empty 0x40000000 0x40201000 0x80000000 (Z.lor __VM_RW __VM_HUGE_2M) = Ret (0, vs') /\
  s2_translate vs' 0x40200123 = Some 0x80200123 /\ s2_walk vs' 0x40201000 = None.
Proof.
  destruct (guest_map_exact demo_empty 0x40000000 0x40201000 0x80000000 (Z.lor __VM_RW __VM_HUGE_2M) demo_empty_ok) as (ret & vs' & mid & E & _ & _ & _ & Hm & Hr & HW);
    [done | done | done | lia | lia | lia |].
  exists vs'. assert (ret = 0) as ->.
  { assert (Hz : match arch_guest_map demo_empty 0x40000000 0x40201000 0x80000000 (Z.lor __VM_RW __VM_HUGE_2M) with Ret (r, _) => r =? 0 | _ => false end = true) by (vm_compute; reflexivity).
    rewrite E in Hz. by apply Z.eqb_eq in Hz. }
  rewrite (Hr eq_refl) in HW. split; [done|]. split; [apply (HW 0x40200123); lia|]. rewrite (proj2 (HW 0x40201000 ltac:(lia))) by lia. vm_compute. reflexivity.
Defined.

Lemma guest_unmap_exact_witness : exists vs', arch_guest_unmap demo_tables 0x40200000 0x40401000 = Ret (0, vs') /\
  s2_walk vs' 0x40200123 = None /\ s2_translate vs' 0x40000123 = Some 0x80000123 /\ s2_freed vs' = [0x101000].
Proof.
  destruct (guest_unmap_exact demo_tables 0x40200000 0x40401000 demo_tables_ok) as (vs' & E & _ & _ & _ & HF & HW); [|done|done|lia|lia|done|].
  { intros d E. assert (Hz : match s2_walk demo_tables 0x40200000 with Some (L2Page _) => true | _ => false end = true) by (vm_compute; reflexivity). by rewrite E in Hz. }
  exists vs'. split; [done|]. rewrite HF. unfold s2_translate. rewrite !HW by lia. split_and!; vm_compute; reflexivity.
Defined.

Lemma demo_plain : s2_plain demo_tables.
Proof.
  assert (H : forallb (fun e => negb (Z.land (pud_d e) 3 =? 1)) (root demo_tables) = true) by (vm_compute; reflexivity).
  apply Forall_forall. intros e He. rewrite forallb_forall in H. by apply list_elem_of_In, H, negb_true_iff, Z.eqb_neq in He.
Qed.

Lemma demo_pages : s2_pages demo_tables ++ s2_freed demo_tables = [0x102000; 0x103000; 0x100000; 0x101000].
Proof. vm_compute. reflexivity. Qed.

Lemma guest_unmap_all_witness : exists vs', arch_guest_unmap demo_tables 0 (2 ^ 40) = Ret (0, vs') /\ s2_freed vs' ≡ₚ [0x102000; 0x103000; 0x100000; 0x101000] /\ s2_walk vs' 0x40200123 = None.
Proof.
  destruct (guest_unmap_all demo_tables demo_tables_ok demo_plain) as (vs' & E & _ & _ & _ & HP & HW).
  exists vs'. split; [done|]. split; [|done]. rewrite HP, demo_pages. done.
Defined.

Lemma translate_is_walk_witness : arch_translate_guest_ipa demo_tables 0x40000123 = Ret (inr 0x80000123).
Proof.
  rewrite (translate_is_walk demo_tables 0x40000123 demo_tables_ok ltac:(lia)).
  - vm_compute. reflexivity.
  - intros d E. assert (Hz : match s2_walk demo_tables 0x40000123 with Some (L2Block _) => true | _ => false end = true) by (vm_compute; reflexivity). by rewrite E in Hz.
  - intros d E. assert (Hz : match s2_walk demo_tables 0x40000123 with Some (L2Block _) => true | _ => false end = true) by (vm_compute; reflexivity). by rewrite E in Hz.
Defined.

(** ** What the code does otherwise *)

Definition after (o : outcome (Z * s2)) (va : Z) : option (option Z) := match o with Ret (0, vs) => Some (s2_translate vs va) | _ => None end.

(** A range that ends where a gigabyte ends is unmapped in the next gigabyte: the walk starts at the
    entry of the end of the range.  The page at the end of the first gigabyte stays mapped, and the
    one at the end of the second gigabyte goes. *)
Lemma unmap_hits_next_gigabyte : let vs := demo_map demo_tables 0x7ffff000 0x80000000 0xa0000000 __VM_RW in
  s2_translate vs 0x7ffff000 = Some 0xa0000000 /\
  after (arch_guest_unmap vs 0x3ffff000 0x40000000) 0x3ffff000 = Some (Some 0x90000000) /\
  after (arch_guest_unmap vs 0x3ffff000 0x40000000) 0x7ffff000 = Some None.
Proof. vm_compute. done. Qed.

(** Unmapping one page of a 2 MB block unmaps the whole block. *)
Lemma unmap_page_drops_block : s2_translate demo_tables 0x401ff000 = Some 0x801ff000 /\
  after (arch_guest_unmap demo_tables 0x40000000 0x40001000) 0x401ff000 = Some None.
Proof. vm_compute. done. Qed.

(** A block of 1 GB is followed as if it were a table: the memory of the guest is read as descriptors,
    which is a fault of the model. *)
Lemma giga_block_read_as_table : let vs := demo_map demo_empty 0x40000000 0x80000000 0x80000000 (Z.lor __VM_RW __VM_HUGE_1G) in
  s2_translate vs 0x40000123 = Some 0x80000123 /\ arch_translate_guest_ipa vs 0x40000123 = Fault /\ arch_guest_unmap vs 0x40000000 0x40001000 = Fault.
Proof. vm_compute. done. Qed.
