(* ===== verification/Guest.v ===== *)
(** * The memory of guests

    What [virt/vmm.c] and [virt/vm.c] make of areas, blocks and stage-2 tables: mapping and unmapping
    ranges of a virtual machine, giving a guest its memory, sharing it with the host virtual machine
    [vm0], and taking everything back when the guest is destroyed.

    [vm] has the parts of [struct vm] that this takes.  A virtual machine without a root table (none
    was allocated, or it has been freed) faults when its tables are used.  The records that the heap
    returns and the pages for tables are arguments; each virtual machine has its own list of pages. *)

From S2P Require Import Prelude Types Bits Bitmap MemRegion Vmm Shmem Stage1 Stage2.

Definition __VM_GUEST : Z := 0x4000.
Definition VM_HUGE : Z := __VM_HUGE_2M.
Definition VM_RW : Z := Z.lor __VM_READ __VM_WRITE.
Definition VM_RWX : Z := Z.lor VM_RW __VM_EXEC.
Definition VM_GUEST_NORMAL : Z := Z.lor (Z.lor (Z.lor VM_NORMAL VM_RWX) VM_MAP_BK) __VM_GUEST.
Definition VM_GUEST_SHMEM : Z := Z.lor (Z.lor __VM_NORMAL_NC VM_SHMEM) __VM_GUEST.
Definition VM_NATIVE_NORMAL : Z := Z.lor (Z.lor (Z.lor (Z.lor VM_NORMAL VM_RWX) __VM_PFNMAP) VM_HUGE) __VM_GUEST.
Definition VM_IPA_SIZE : Z := Z.shiftl 1 40.

Record vm := mk_vm { vmid : Z; native : bool; mm : mm_struct; pgdp : option s2 }.

Definition set_mm (m : mm_struct) (v : vm) : vm := mk_vm (vmid v) (native v) m (pgdp v).
Definition set_pgdp (p : option s2) (v : vm) : vm := mk_vm (vmid v) (native v) (mm v) p.

(** The record of an area that is used has changed. *)
Definition put_area (va : vmm_area) (v : vm) : vm := set_mm (upd_used (mm v) (va_id va) (fun _ => va)) v.

Section guest.
(** The operation of the driver, if there is one. *)
Context (iotlb_flush_all : option (Z -> Z)).

Definition iommu_iotlb_flush_all (v : vm) : Z := match iotlb_flush_all with None => 0 | Some f => f (vmid v) end.

(** ** Mapping *)

Definition __create_guest_mapping (v : vm) (vir phy size flags : Z) : outcome (Z * vm) :=
  let tmp := BALIGN (u64 (vir + size)) PAGE_SIZE in
  let vir := ALIGN vir PAGE_SIZE in
  let phy := ALIGN phy PAGE_SIZE in
  let size := u64 (tmp - vir) in
  match pgdp v with
  | None => Fault
  | Some s =>
      let* (ret, s) := arch_guest_map s vir (u64 (vir + size)) phy flags in
      let v := set_pgdp (Some s) v in
      Ret (if ret =? 0 then iommu_iotlb_flush_all v else ret, v)
  end.

Definition create_guest_mapping := __create_guest_mapping.

Definition __destroy_guest_mapping (v : vm) (vir size : Z) : outcome (Z * vm) :=
  let '(vir, size) :=
    if negb (IS_PAGE_ALIGN vir) || negb (IS_PAGE_ALIGN size) then
      let end_ := PAGE_BALIGN (u64 (vir + size)) in
      let vir := PAGE_ALIGN vir in (vir, u64 (end_ - vir))
    else (vir, size) in
  match pgdp v with
  | None => Fault
  | Some s =>
      let* (ret, s) := arch_guest_unmap s vir (u64 (vir + size)) in
      let v := set_pgdp (Some s) v in
      Ret (if ret =? 0 then iommu_iotlb_flush_all v else ret, v)
  end.

Definition destroy_guest_mapping := __destroy_guest_mapping.

Definition translate_guest_ipa (v : vm) (offset : Z) : outcome (Z + Z) :=
  match pgdp v with None => Fault | Some s => arch_translate_guest_ipa s offset end.

Definition vmm_area_map_ln (v : vm) (va : vmm_area) : outcome (Z * vm) :=
  __create_guest_mapping v (va_start va) (va_pstart va) (VMA_SIZE va) (va_flags va).

Fixpoint map_blocks (v : vm) (block : list Z) (base size flags : Z) : outcome (Z * vm) :=
  match block with
  | [] => check size =? 0 in Ret (0, v)
  | b :: block =>
      let* (ret, v) := __create_guest_mapping v base (BFN2PHY b) MEM_BLOCK_SIZE (Z.lor (Z.lor flags VM_HUGE) __VM_GUEST) in
      if negb (ret =? 0) then Ret (ret, v)
      else map_blocks v block (u64 (base + MEM_BLOCK_SIZE)) (u64 (size - MEM_BLOCK_SIZE)) flags
  end.

Definition vmm_area_map_bk (v : vm) (va : vmm_area) : outcome (Z * vm) :=
  map_blocks v (b_head va) (va_start va) (VMA_SIZE va) (va_flags va).

Definition map_vmm_area (v : vm) (va : vmm_area) (pbase : Z) : outcome (Z * vm) :=
  let type := Z.land (va_flags va) VM_MAP_TYPE_MASK in
  if type =? VM_MAP_PT then let va := set_pstart (va_start va) va in vmm_area_map_ln (put_area va v) va
  else if type =? VM_MAP_BK then vmm_area_map_bk v va
  else let va := set_pstart pbase va in vmm_area_map_ln (put_area va v) va.

Definition unmap_vmm_area (v : vm) (va : vmm_area) : outcome (Z * vm) := __destroy_guest_mapping v (va_start va) (VMA_SIZE va).

(** ** Releasing the memory of a guest *)

(** The areas of [vm0] that show memory of the virtual machine [id]. *)
Fixpoint release_areas_vm0 (host : vm) (id : Z) (l : list vmm_area) : outcome (list freed * vm) :=
  match l with
  | [] => Ret ([], host)
  | va :: l =>
      if negb (va_vmid va =? id) then release_areas_vm0 host id l else
      let* (_, host) := __destroy_guest_mapping host (va_start va) (VMA_SIZE va) in
      let what := if Z.land (va_flags va) VM_SHARED =? 0 then [FreePages (va_pstart va)] else [] in
      let* m := __add_free_vmm_area (mk_mm (vmm_area_free (mm host)) (list_del (va_id va) (vmm_area_used (mm host)))) va in
      let* (rest, host) := release_areas_vm0 (set_mm m host) id l in
      Ret (what ++ rest, host)
  end.

Definition release_vmm_area_in_vm0 (host v : vm) : outcome (list freed * vm) :=
  release_areas_vm0 host (vmid v) (vmm_area_used (mm host)).

Fixpoint release_areas (hv : vmm) (l : list vmm_area) : outcome (list freed * vmm) :=
  match l with
  | [] => Ret ([], hv)
  | va :: l =>
      let* (r, hv) := release_vmm_area_memory hv va in
      let* (rest, hv) := release_areas hv l in
      Ret (match fst r with Some f => f :: rest | None => rest end, hv)
  end.

(** The result is the memory that was freed, the blocks, [vm0], and the virtual machine without areas
    and tables; the page of the root table, which goes back last, is not part of it. *)
Definition release_vm_memory (hv : vmm) (host v : vm) : outcome (list freed * vmm * vm * vm) :=
  let* (_, v) := destroy_guest_mapping v 0 VM_IPA_SIZE in
  let* (f, hv) := release_areas hv (vmm_area_used (mm v)) in
  let v := set_mm (mk_mm [] []) v in
  let* (f0, host) := release_vmm_area_in_vm0 host v in
  Ret (f ++ f0, hv, host, set_pgdp None v).

(** ** The memory of a guest *)

(** [bmem k i] says whether the record of the [i]-th block of the [k]-th area can be allocated. *)
Fixpoint alloc_areas (hv : vmm) (v : vm) (l : list vmm_area) (bmem : nat -> nat -> bool) (k : nat) : outcome (bool * vmm * vm) :=
  match l with
  | [] => Ret (true, hv, v)
  | va :: l =>
      if Z.land (va_flags va) VM_NORMAL =? 0 then alloc_areas hv v l bmem (S k) else
      let* (r, hv) := __alloc_vm_memory hv va (bmem k) in
      let va := snd r in
      let v := put_area va v in
      if negb (fst r =? 0) then Ret (false, hv, v) else
      let* (ret, v) := map_vmm_area v va 0 in
      if negb (ret =? 0) then Ret (false, hv, v) else alloc_areas hv v l bmem (S k)
  end.

Definition alloc_vm_memory (hv : vmm) (host v : vm) (bmem : nat -> nat -> bool) : outcome (Z * list freed * vmm * vm * vm) :=
  let* (r, v) := alloc_areas hv v (vmm_area_used (mm v)) bmem 0 in
  let '(ok, hv) := r in
  if ok : bool then Ret (0, [], hv, host, v)
  else let* (r, v) := release_vm_memory hv host v in let '(f, hv, host) := r in Ret (- ENOMEM, f, hv, host, v).

Definition guest_mm_init (hv : vmm) (host v : vm) (base size ml mr : Z) (bmem : nat -> nat -> bool) : outcome (Z * list freed * vmm * vm * vm) :=
  match split_vmm_area (mm v) base size VM_GUEST_NORMAL ml mr with
  | (None, m) => Ret (- EINVAL, [], hv, host, set_mm m v)
  | (Some _, m) =>
      let* (r, v) := alloc_vm_memory hv host (set_mm m v) bmem in
      let '(ret, f, hv, host) := r in
      Ret (if ret =? 0 then 0 else - ENOMEM, f, hv, host, v)
  end.

(** Areas for the memory of a native virtual machine; [zmem k] are records for the parts that the
    [k]-th split leaves. *)
Fixpoint native_areas (id : Z) (m : mm_struct) (l : list memory_region) (zmem : nat -> Z * Z) (k : nat) : bool * mm_struct :=
  match l with
  | [] => (true, m)
  | r :: l =>
      if negb (r_vmid r =? id) then native_areas id m l zmem k else
      match split_vmm_area m (r_base r) (r_size r) VM_NATIVE_NORMAL (fst (zmem k)) (snd (zmem k)) with
      | (None, m) => (false, m)
      | (Some _, m) => native_areas id m l zmem (S k)
      end
  end.

Definition vm_memory_init (v : vm) (regions : list memory_region) (zmem : nat -> Z * Z) (load_address entry_point setup_data : Z) : Z * vm :=
  if negb (native v) then (0, v) else
  let (ok, m) := native_areas (vmid v) (mm v) regions zmem 0 in
  if negb ok then (- EINVAL, set_mm m v)
  else (check_vm_address m load_address + check_vm_address m entry_point + check_vm_address m setup_data, set_mm m v).

(** [page] is the root table that the page allocator returns, [pages] those it will return for the
    other tables, and [zmem0] the record of the first free area. *)
Definition vm_mm_struct_init (v : vm) (bit64 : bool) (page : Z) (pages : list Z) (zmem0 : Z) (regions : list memory_region)
    (zmem : nat -> Z * Z) (load_address entry_point setup_data : Z) : Z * vm :=
  let v := mk_vm (vmid v) (native v) (mk_mm [] []) None in
  match arch_alloc_guest_pgd page pages with
  | None => (- ENOMEM, v)
  | Some s => vm_memory_init (mk_vm (vmid v) (native v) (vmm_area_init bit64 zmem0) (Some s)) regions zmem load_address entry_point setup_data
  end.

(** Native virtual machines have the memory of the machine at the same address. *)
Fixpoint map_native (v : vm) (l : list vmm_area) : outcome (Z * vm) :=
  match l with
  | [] => Ret (0, v)
  | va :: l =>
      if Z.land (va_flags va) VM_NORMAL =? 0 then map_native v l else
      let* (ret, v) := map_vmm_area v va (va_start va) in
      if negb (ret =? 0) then Ret (ret, v) else map_native v l
  end.

(** [skip] is what [test_and_set_bit] returns. *)
Definition vm_mm_init (v : vm) (skip : bool) : outcome (Z * vm) :=
  if skip then Ret (0, v) else
  let* (ret, v) := map_native v (vmm_area_used (mm v)) in
  if negb (ret =? 0) then Ret (ret, v) else Ret (0, set_mm (trim_free (mm v)) v).

(** The part of [create_guest_vm] and [create_vm] that is about memory, for a guest that is not
    native; failures end in [destroy_vm]. *)
Definition create_guest_memory (hv : vmm) (host v : vm) (bit64 : bool) (page : Z) (pages : list Z) (zmem0 base size ml mr : Z)
    (bmem : nat -> nat -> bool) : outcome (option vm * list freed * vmm * vm) :=
  let destroy_vm f hv host v :=
    let* (r, _) := release_vm_memory hv host v in let '(f', hv, host) := r in Ret (None, f ++ f', hv, host) in
  let (ret, v) := vm_mm_struct_init v bit64 page pages zmem0 [] (fun _ => (0, 0)) 0 0 0 in
  if negb (ret =? 0) then destroy_vm [] hv host v else
  let* (r, v) := guest_mm_init hv host v base size ml mr bmem in
  let '(ret, f, hv, host) := r in
  if negb (ret =? 0) then destroy_vm f hv host v else Ret (Some v, f, hv, host).

(** ** Sharing with [vm0] *)

Fixpoint mmap_loop (fuel : nat) (v host : vm) (hvm_mmap_base offset size : Z) : outcome (Z * vm) :=
  match fuel with
  | O => OutOfFuel
  | S fuel =>
      if size <=? 0 then Ret (0, host) else
      let* r := translate_guest_ipa v offset in
      match r with
      | inl _ => Ret (- EPERM, host)
      | inr pa =>
          let* (ret, host) := create_guest_mapping host hvm_mmap_base pa MEM_BLOCK_SIZE (Z.lor VM_NORMAL VM_RW) in
          if negb (ret =? 0) then Ret (ret, host)
          else mmap_loop fuel v host (u64 (hvm_mmap_base + MEM_BLOCK_SIZE)) (u64 (offset + MEM_BLOCK_SIZE)) (u64 (size - MEM_BLOCK_SIZE))
      end
  end.

(** One round for each block, and the one that stops. *)
Definition do_vm_mmap (v host : vm) (hvm_mmap_base offset size : Z) : outcome (Z * vm) :=
  if negb (IS_BLOCK_ALIGN offset) || negb (IS_BLOCK_ALIGN hvm_mmap_base) || negb (IS_BLOCK_ALIGN size) then Ret (- EINVAL, host)
  else mmap_loop (S (Z.to_nat (size / MEM_BLOCK_SIZE))) v host hvm_mmap_base offset size.

Definition set_vmid (id : Z) (va : vmm_area) : vmm_area :=
  mk_va (va_id va) (va_start va) (va_end va) (va_pstart va) (va_flags va) id (b_head va).

Definition vm_mmap (hv : vmm) (host v : vm) (offset size : Z) (zmem : nat -> Z * Z) : outcome (option vmm_area * vmm * vm) :=
  match alloc_free_vmm_area (mm host) size BLOCK_MASK (Z.lor (Z.lor VM_GUEST_NORMAL VM_SHARED) VM_RW) zmem with
  | (None, m) => Ret (None, hv, set_mm m host)
  | (Some va, m) =>
      let* (ret, host) := do_vm_mmap v (set_mm m host) (va_start va) offset size in
      if negb (ret =? 0) then
        let* (r, hv) := release_vmm_area (mm host) hv va in Ret (None, hv, set_mm (snd r) host)
      else let va := set_vmid (vmid v) va in Ret (Some va, hv, put_area va host)
  end.

(** [v] is what [get_vm_by_id] returns.  A null pointer has no tables, and no [vmid] to be read. *)
Definition create_vm_mmap (hv : vmm) (host : vm) (v : option vm) (offset size : Z) (zmem : nat -> Z * Z) : outcome (Z * Z * vmm * vm) :=
  let* (r, host) := vm_mmap hv host (default (mk_vm 0 false (mk_mm [] []) None) v) offset size zmem in
  let '(va, hv) := r in
  match va, v with
  | Some _, None => Fault
  | Some va, Some _ => Ret (0, va_start va, hv, host)
  | None, _ => Ret (- EINVAL, 0, hv, host)
  end.

Definition create_hvm_shmem_map (host v : vm) (phy size : Z) (zmem : nat -> Z * Z) : outcome (Z * vm) :=
  match alloc_free_vmm_area (mm host) size PAGE_MASK (Z.lor (Z.lor VM_GUEST_SHMEM VM_SHARED) VM_RW) zmem with
  | (None, m) => Ret (BAD_ADDRESS, set_mm m host)
  | (Some va, m) =>
      let va := set_vmid (vmid v) va in
      let* (_, host) := map_vmm_area (put_area va (set_mm m host)) va phy in
      Ret (va_start va, host)
  end.

(** The memory of a [vmbox] device, in [vmbox_device_attach]. *)
Definition vmbox_map_shmem (v : vm) (shmem shmem_size : Z) (zmem : nat -> Z * Z) : outcome (Z * vm) :=
  match alloc_free_vmm_area (mm v) shmem_size PAGE_MASK (Z.lor VM_SHARED VM_GUEST_SHMEM) zmem with
  | (None, m) => Ret (- ENOMEM, set_mm m v)
  | (Some va, m) => let* (_, v) := map_vmm_area (set_mm m v) va shmem in Ret (0, v)
  end.

End guest.

(** ** Copying from a guest *)

(** [guest_va_to_pa] is the translation of the hardware, [create_host_mapping] the status of mapping a
    page of the guest, and [byte] the memory. *)
Section copy.
Context (guest_va_to_pa : Z -> Z) (create_host_mapping : Z -> Z) (byte : Z -> Z).

Fixpoint copy_loop (fuel : nat) (start left : Z) : outcome (Z * list Z) :=
  match fuel with
  | O => OutOfFuel
  | S fuel =>
      if left <=? 0 then Ret (0, []) else
      let copy_size := u64 (PAGE_BALIGN start - PAGE_ALIGN start) in
      let copy_size := if copy_size =? 0 then PAGE_SIZE else copy_size in
      let copy_size := if left <? copy_size then left else copy_size in
      let pa := guest_va_to_pa start in
      let ret := create_host_mapping (PAGE_ALIGN pa) in
      if negb (ret =? 0) then Ret (ret, []) else
      let* (ret, rest) := copy_loop fuel (u64 (start + copy_size)) (left - copy_size) in
      Ret (ret, map (fun i => byte (pa + i)) (seqZ 0 copy_size) ++ rest)
  end.

(** Every round but the last copies a page. *)
Definition copy_from_guest (src size : Z) : outcome (Z * list Z) := copy_loop (S (S (Z.to_nat (size / PAGE_SIZE)))) src size.

End copy.

(** ** Growing the tables of a virtual machine *)

(** Tables only grew: pages moved from the allocator to them. *)
Record grown (s s' : s2) : Prop := {
  gr_ok : s2_ok s';
  gr_plain : s2_plain s -> s2_plain s';
  gr_pages : s2_pages s' ++ s2_mem s' ≡ₚ s2_pages s ++ s2_mem s;
  gr_freed : s2_freed s' = s2_freed s;
}.

Lemma grown_refl s : s2_ok s -> grown s s.
Proof. by split. Qed.

Lemma grown_trans s1 s2 s3 : grown s1 s2 -> grown s2 s3 -> grown s1 s3.
Proof. intros G1 G2. split; [apply G2|intros H; by apply G2, G1|by rewrite (gr_pages _ _ G2), (gr_pages _ _ G1)|by rewrite (gr_freed _ _ G2), (gr_freed _ _ G1)]. Qed.

(** The range from [start] to [mid] is mapped to [phys]. *)
Definition range_mapped (s s' : s2) (start mid phys : Z) : Prop :=
  forall va, 0 <= va < 2 ^ 40 ->
    (start <= va < mid -> s2_translate s' va = Some (phys + (va - start))) /\ (~ start <= va < mid -> s2_walk s' va = s2_walk s va).

Section proofs.
Context (flush : option (Z -> Z)).

(** On pages the arguments are passed on as they are. *)
Lemma create_mapping_aligned v s vir phy size flags : pgdp v = Some s -> paged vir -> paged phy -> paged size -> 0 <= vir -> 0 < size -> vir + size <= 2 ^ 40 -> 0 <= phy < 2 ^ 40 ->
  __create_guest_mapping flush v vir phy size flags =
    let* (ret, s) := arch_guest_map s vir (vir + size) phy flags in Ret (if ret =? 0 then iommu_iotlb_flush_all flush v else ret, set_pgdp (Some s) v).
Proof.
  intros Es P1 P2 P3 Hv Hs He Hp. unfold __create_guest_mapping. rewrite Es. unfold paged in *. assert (Hend : (vir + size) mod 4096 = 0) by (Z.div_mod_to_equations; lia).
  rewrite (wrap_small 64 (vir + size)) by lia. change PAGE_SIZE with (2 ^ 12). rewrite BALIGN_pow2, !ALIGN_pow2 by lia. change (2 ^ 12) with 4096.
  replace (4096 * ((vir + size + 4096 - 1) / 4096)) with (vir + size) by (Z.div_mod_to_equations; lia).
  replace (4096 * (vir / 4096)) with vir by (Z.div_mod_to_equations; lia). replace (4096 * (phy / 4096)) with phy by (Z.div_mod_to_equations; lia).
  replace (vir + size - vir) with size by lia. by rewrite (wrap_small 64 size), (wrap_small 64 (vir + size)) by lia.
Qed.

Lemma create_mapping_ok v s vir phy size flags : pgdp v = Some s -> s2_ok s -> has_flag flags __VM_HUGE_1G = false -> paged vir -> paged phy -> paged size ->
  0 <= vir -> 0 < size -> vir + size <= 2 ^ 40 -> 0 <= phy < 2 ^ 40 ->
  exists ret s' mid, __create_guest_mapping flush v vir phy size flags = Ret (ret, set_pgdp (Some s') v) /\ grown s s' /\ vir <= mid <= vir + size /\ (ret = 0 -> mid = vir + size) /\
    range_mapped s s' vir mid phy.
Proof.
  intros Es Hok Hf P1 P2 P3 Hv Hs He Hp. rewrite (create_mapping_aligned v s) by done.
  destruct (guest_map_ok s vir (vir + size) phy flags) as (ret & s' & mid & -> & Hok' & Hpl & Hpg & Hfr & Hmid & Hret & HW); try done; try lia.
  { unfold paged in *. Z.div_mod_to_equations. lia. }
  cbn [obind]. eexists _, s', mid. split; [done|]. split; [split; auto|]. split; [done|]. split.
  - destruct (Z.eqb_spec ret 0) as [->|]; auto.
  - intros va Hva. destruct (HW va Hva) as [W1 W2]. split; [|done]. intros Hr. by apply W1.
Qed.

(** Nothing in the way of mapping a block, and enough pages for the tables. *)
Definition room (v : vm) (s : s2) (start : Z) : Prop :=
  s2_plain s /\ s2_mem s <> [] /\ (forall d, s2_walk s start <> Some (L2Block d)) /\ iommu_iotlb_flush_all flush v = 0.

Lemma create_block_ok v s base b flags : pgdp v = Some s -> s2_ok s -> has_flag flags __VM_HUGE_1G = false -> has_flag flags __VM_HUGE_2M = true ->
  base mod MEM_BLOCK_SIZE = 0 -> 0 <= base -> base + MEM_BLOCK_SIZE <= 2 ^ 40 -> 0 <= b < 2048 ->
  exists ret s' mid, __create_guest_mapping flush v base (BFN2PHY b) MEM_BLOCK_SIZE flags = Ret (ret, set_pgdp (Some s') v) /\ grown s s' /\ base <= mid <= base + MEM_BLOCK_SIZE /\
    (ret = 0 -> mid = base + MEM_BLOCK_SIZE) /\ range_mapped s s' base mid (b * MEM_BLOCK_SIZE) /\
    (room v s base -> ret = 0 /\ (length (s2_mem s) <= S (length (s2_mem s')))%nat).
Proof.
  intros Es Hok Hf Hf2 Ha Hb He Hbl. assert (Ep : BFN2PHY b = b * MEM_BLOCK_SIZE).
  { unfold BFN2PHY. rewrite Z.shiftl_mul_pow2 by (unfold MEM_BLOCK_SHIFT; lia). unfold MEM_BLOCK_SHIFT, MEM_BLOCK_SIZE. apply wrap_small. lia. }
  rewrite Ep. unfold MEM_BLOCK_SIZE in *. assert (Pb : paged base) by (unfold paged; Z.div_mod_to_equations; lia). assert (Pp : paged (b * 0x200000)) by (unfold paged; Z.div_mod_to_equations; lia).
  destruct (create_mapping_ok v s base (b * 0x200000) 0x200000 flags Es Hok Hf) as (ret & s' & mid & E & G & Hmid & Hret & HW); try done; try lia.
  exists ret, s', mid. do 5 (split; [done|]). intros (Hpl & Hmem & Hno & Hfl). rewrite (create_mapping_aligned v s) in E by (try done; lia).
  destruct (map_block_succeeds s base (b * 0x200000) flags Hok Hpl Hno) as (s1 & E1 & Hlen); try done; try lia.
  { unfold has_flag in *. rewrite Z.land_lor_distr_r, negb_true_iff, Z.eqb_neq in *. intros H. apply Z.lor_eq_0_iff in H. tauto. }
  { apply Z.mod_mul. lia. }
  change (2 ^ 21) with 0x200000 in E1. rewrite E1 in E. cbn [obind Z.eqb] in E. simplify_eq. done.
Qed.

(** The [i]-th block of the list is behind the [i]-th part of the range. *)
Definition in_block (base : Z) (l : list Z) (va pa : Z) : Prop :=
  exists i b, l !! i = Some b /\ base + MEM_BLOCK_SIZE * Z.of_nat i <= va < base + MEM_BLOCK_SIZE * Z.of_nat i + MEM_BLOCK_SIZE /\ pa = b * MEM_BLOCK_SIZE + va mod MEM_BLOCK_SIZE.

Lemma in_block_here base b l va : base mod MEM_BLOCK_SIZE = 0 -> base <= va < base + MEM_BLOCK_SIZE -> in_block base (b :: l) va (b * MEM_BLOCK_SIZE + (va - base)).
Proof. intros Ha Hr. exists 0%nat, b. split; [done|]. split; [lia|]. unfold MEM_BLOCK_SIZE in *. Z.div_mod_to_equations. lia. Qed.

Lemma in_block_next base b l va pa : in_block (base + MEM_BLOCK_SIZE) l va pa -> in_block base (b :: l) va pa.
Proof. intros (i & c & Hi & Hr & ->). exists (S i), c. split; [done|]. split; [lia|done]. Qed.

Lemma in_block_next_inv base b l va pa : in_block base (b :: l) va pa -> base + MEM_BLOCK_SIZE <= va -> in_block (base + MEM_BLOCK_SIZE) l va pa.
Proof. intros (i & c & Hi & Hr & ->) Hva. destruct i as [|i]; [lia|]. exists i, c. split; [done|]. split; [lia|done]. Qed.

Lemma in_block_range base l va pa : in_block base l va pa -> base <= va < base + MEM_BLOCK_SIZE * Z.of_nat (length l).
Proof. intros (i & b & Hi & Hr & _). apply lookup_lt_Some in Hi. unfold MEM_BLOCK_SIZE in *. lia. Qed.

Lemma translate_walk s s' va : s2_walk s' va = s2_walk s va -> s2_translate s' va = s2_translate s va.
Proof. unfold s2_translate. by intros ->. Qed.

Definition guest_flags (flags : Z) : Z := Z.lor (Z.lor flags VM_HUGE) __VM_GUEST.

(** Every address is as before or shows its block; after success, the whole range shows its blocks. *)
Record blocks_mapped (s s' : s2) (base : Z) (l : list Z) (ret : Z) : Prop := {
  bm_grown : grown s s';
  bm_only : forall va, 0 <= va < 2 ^ 40 -> s2_walk s' va = s2_walk s va \/ exists pa, in_block base l va pa /\ s2_translate s' va = Some pa;
  bm_all : ret = 0 -> forall va pa, in_block base l va pa -> s2_translate s' va = Some pa;
}.

Definition room_for (v : vm) (s : s2) (base : Z) (n : nat) : Prop :=
  s2_plain s /\ (n <= length (s2_mem s))%nat /\ iommu_iotlb_flush_all flush v = 0 /\
  forall i d, (i < n)%nat -> s2_walk s (base + MEM_BLOCK_SIZE * Z.of_nat i) <> Some (L2Block d).

Lemma blocks_nil s base ret : s2_ok s -> blocks_mapped s s base [] ret.
Proof. split; [by apply grown_refl|by left|]. intros _ va pa (i & c & Hi & _). done. Qed.

Lemma blocks_stop s s1 base mid b l ret : base mod MEM_BLOCK_SIZE = 0 -> base <= mid <= base + MEM_BLOCK_SIZE -> grown s s1 -> range_mapped s s1 base mid (b * MEM_BLOCK_SIZE) -> ret <> 0 ->
  blocks_mapped s s1 base (b :: l) ret.
Proof.
  intros Ha Hmid G HW Nr. split; [done| |done]. intros va Hva. destruct (HW va Hva) as [W1 W2]. destruct (decide (base <= va < mid)) as [Hr|Hr]; [right|left; by apply W2].
  eexists. split; [apply in_block_here; [done|lia]|by apply W1].
Qed.

Lemma blocks_cons s s1 s' base b l ret : base mod MEM_BLOCK_SIZE = 0 -> 0 <= base -> base + MEM_BLOCK_SIZE <= 2 ^ 40 -> grown s s1 -> range_mapped s s1 base (base + MEM_BLOCK_SIZE) (b * MEM_BLOCK_SIZE) ->
  blocks_mapped s1 s' (base + MEM_BLOCK_SIZE) l ret -> blocks_mapped s s' base (b :: l) ret.
Proof.
  intros Ha Hb He G1 HW B2. split; [by eapply grown_trans; [|apply B2]| |].
  - intros va Hva. destruct (bm_only _ _ _ _ _ B2 va Hva) as [E2|(pa & H1 & H2)]; [|right; exists pa; split; [by apply in_block_next|done]].
    destruct (HW va Hva) as [W1 W2]. destruct (decide (base <= va < base + MEM_BLOCK_SIZE)) as [Hr|Hr].
    + right. eexists. split; [by apply in_block_here|]. rewrite (translate_walk s1 s') by done. by apply W1.
    + left. rewrite E2. by apply W2.
  - intros Hret va pa Hin. destruct (decide (base + MEM_BLOCK_SIZE <= va)) as [Hn|Hn]; [apply (bm_all _ _ _ _ _ B2 Hret); by eapply in_block_next_inv|].
    pose proof (in_block_range _ _ _ _ Hin) as [Hlo _]. destruct (HW va ltac:(unfold MEM_BLOCK_SIZE in *; lia)) as [W1 _].
    assert (pa = b * MEM_BLOCK_SIZE + (va - base)) as ->.
    { destruct Hin as (i & c & Hi & Hr & ->). destruct i as [|i]; [|unfold MEM_BLOCK_SIZE in *; lia]. simplify_eq/=. unfold MEM_BLOCK_SIZE in *. Z.div_mod_to_equations. lia. }
    destruct (bm_only _ _ _ _ _ B2 va) as [E2|(pa & H1 & _)]; [unfold MEM_BLOCK_SIZE in *; lia| |].
    + rewrite (translate_walk s1 s') by done. apply W1. lia.
    + apply in_block_range in H1. lia.
Qed.

Lemma map_blocks_ok l : forall v s base size flags, pgdp v = Some s -> s2_ok s -> has_flag flags __VM_HUGE_1G = false ->
  base mod MEM_BLOCK_SIZE = 0 -> 0 <= base -> base + MEM_BLOCK_SIZE * Z.of_nat (length l) <= 2 ^ 40 -> Forall (fun b => 0 <= b < 2048) l -> size = MEM_BLOCK_SIZE * Z.of_nat (length l) ->
  exists ret s', map_blocks flush v l base size flags = Ret (ret, set_pgdp (Some s') v) /\ blocks_mapped s s' base l ret /\ (room_for v s base (length l) -> ret = 0).
Proof.
  induction l as [|b l IH]; intros v s base size flags Es Hok Hf Ha Hb He Hl ->; cbn [map_blocks length] in *.
  { exists 0, s. assert (v = set_pgdp (Some s) v) as <- by (destruct v; cbn in *; by subst). split; [done|]. split; [by apply blocks_nil|done]. }
  apply Forall_cons in Hl as [Hb0 Hl]. assert (Hf1 : has_flag (guest_flags flags) __VM_HUGE_1G = false).
  { unfold has_flag, guest_flags in *. rewrite !Z.land_lor_distr_l. change (Z.land VM_HUGE __VM_HUGE_1G) with 0. change (Z.land __VM_GUEST __VM_HUGE_1G) with 0. by rewrite !Z.lor_0_r. }
  assert (Hf2 : has_flag (guest_flags flags) __VM_HUGE_2M = true).
  { unfold has_flag, guest_flags. rewrite !Z.land_lor_distr_l, negb_true_iff, Z.eqb_neq. intros H. apply Z.lor_eq_0_iff in H as [H _]. by apply Z.lor_eq_0_iff in H as [_ H]. }
  destruct (create_block_ok v s base b (guest_flags flags) Es Hok Hf1 Hf2 Ha Hb ltac:(unfold MEM_BLOCK_SIZE in *; lia) Hb0) as (ret & s1 & mid & E1 & G1 & Hmid & Hret & HW & Hroom).
  fold (guest_flags flags). rewrite E1. cbn [obind]. assert (Hroom1 : room_for v s base (S (length l)) -> room v s base).
  { intros (R1 & R2 & R3 & R4). split; [done|]. split; [by destruct (s2_mem s); cbn in *; [lia|]|]. split; [|done]. intros d. specialize (R4 0%nat d ltac:(lia)). by rewrite Z.add_0_r in R4. }
  destruct (Z.eqb_spec ret 0) as [->|Nr]; cbn [negb].
  2:{ exists ret, s1. split; [done|]. split; [by apply (blocks_stop s s1 base mid)|intros R; by destruct (Hroom (Hroom1 R))]. }
  rewrite (Hret eq_refl) in *. clear Hret Hmid.
  destruct (IH (set_pgdp (Some s1) v) s1 (base + MEM_BLOCK_SIZE) (MEM_BLOCK_SIZE * Z.of_nat (length l)) flags) as (ret & s' & E2 & B2 & Hr2); try done; try (unfold MEM_BLOCK_SIZE in *; lia).
  { apply G1. }
  { unfold MEM_BLOCK_SIZE in *. Z.div_mod_to_equations. lia. }
  rewrite (wrap_small 64 (base + _)), wrap_small by (unfold MEM_BLOCK_SIZE in *; lia).
  replace (MEM_BLOCK_SIZE * Z.of_nat (S (length l)) - MEM_BLOCK_SIZE) with (MEM_BLOCK_SIZE * Z.of_nat (length l)) by lia. rewrite E2.
  exists ret, s'. split; [done|]. split; [apply (blocks_cons s s1); try done; unfold MEM_BLOCK_SIZE in *; lia|]. intros R. apply Hr2. destruct (Hroom (Hroom1 R)) as [_ Hlen]. destruct R as (R1 & R2 & R3 & R4).
  split; [by apply G1|]. split; [cbn [s2_mem] in *; lia|]. split; [done|]. intros i d Hi. pose proof (R4 (S i) d ltac:(lia)) as Hn.
  replace (base + MEM_BLOCK_SIZE * Z.of_nat (S i)) with (base + MEM_BLOCK_SIZE + MEM_BLOCK_SIZE * Z.of_nat i) in Hn by lia.
  rewrite (proj2 (HW (base + MEM_BLOCK_SIZE + MEM_BLOCK_SIZE * Z.of_nat i) ltac:(unfold MEM_BLOCK_SIZE in *; lia))); [done|unfold MEM_BLOCK_SIZE in *; lia].
Qed.

(** ** Areas without blocks *)

Definition no_blocks (l : list vmm_area) : Prop := Forall (fun a => b_head a = []) l.

Lemma del_no_blocks id l : no_blocks l -> no_blocks (list_del id l).
Proof. intros H. apply Forall_forall. intros a [_ Ha]%list_elem_of_filter. by apply (proj1 (Forall_forall _ _) H). Qed.

Lemma split_shape m vma base end_ flags ml mr va m' : __split_vmm_area m vma base end_ flags ml mr = (Some va, m') ->
  va = taken_from vma base end_ flags /\ (no_blocks (vmm_area_free m) -> no_blocks (vmm_area_free m')).
Proof.
  unfold __split_vmm_area, __alloc_vmm_area_entry.
  repeat case_match; intros E; simplify_eq; (split; [done|]); intros Hn; cbn [vmm_area_free]; apply del_no_blocks; repeat (apply Forall_cons; split; [done|]); done.
Qed.

Lemma split_area_no_blocks m base size flags ml mr va m' : no_blocks (vmm_area_free m) -> split_vmm_area m base size flags ml mr = (Some va, m') -> b_head va = [] /\ no_blocks (vmm_area_free m').
Proof.
  intros Hn. unfold split_vmm_area. destruct (_ && _); [done|]. pose proof (find_area_spec base (u64 (base + size)) (vmm_area_free m)) as Hf. destruct (find_area _ _ _) as [vma|]; [|done].
  intros [-> H]%split_shape. split; [|by apply H]. cbn. apply (proj1 (Forall_forall _ _) Hn). apply Hf.
Qed.

Lemma alloc_shape m size mask flags mem va m' : alloc_free_vmm_area m size mask flags mem = (Some va, m') ->
  (exists vma b e, vma ∈ vmm_area_free m /\ va = taken_from vma b e flags) /\ (no_blocks (vmm_area_free m) -> no_blocks (vmm_area_free m')).
Proof.
  unfold alloc_free_vmm_area. generalize (if mask =? BLOCK_MASK then BLOCK_MASK else PAGE_MASK), (BALIGN size PAGE_SIZE). intros mk n.
  assert (Hin : forall a, a ∈ vmm_area_free m -> a ∈ vmm_area_free m) by done. revert Hin. generalize (vmm_area_free m) at 1 3. intros l. generalize 0%nat.
  induction l as [|a l IH]; intros k Hin; cbn [alloc_free_loop]; [done|]. destruct (_ <? _); [apply IH; intros b Hb; apply Hin; by right|].
  unfold __alloc_free_vmm_area. destruct (negb _).
  - apply IH. intros b Hb. apply Hin. by right.
  - destruct (__split_vmm_area _ _ _ _ _ _ _) as [[va'|] m1] eqn:E.
    + intros [= <- <-]. apply split_shape in E as [-> H]. split; [|done]. eexists a, _, _. split; [apply Hin; by left|done].
    + assert (m1 = m) as -> by (unfold __split_vmm_area in E; repeat case_match; by simplify_eq). apply IH. intros b Hb. apply Hin. by right.
Qed.

(** ** Giving a guest its memory *)

Lemma map_blocks_size l : forall v base size flags v', 0 <= size < 2 ^ 64 -> map_blocks flush v l base size flags = Ret (0, v') -> size = (MEM_BLOCK_SIZE * Z.of_nat (length l)) mod 2 ^ 64.
Proof.
  induction l as [|b l IH]; intros v base size flags v' Hs; cbn [map_blocks length].
  - destruct (Z.eqb_spec size 0) as [->|]; [done|]. by cbn.
  - intros ([ret v1] & _ & E)%obind_Ret_inv. destruct (Z.eqb_spec ret 0) as [->|]; cbn [negb] in E; [|by simplify_eq]. apply IH in E; [|apply Z.mod_pos_bound; lia].
    unfold wrap, MEM_BLOCK_SIZE in *. Z.div_mod_to_equations. lia.
Qed.

Lemma put_single va va' v : vmm_area_used (mm v) = [va] -> va_id va' = va_id va -> mm (put_area va' v) = mk_mm (vmm_area_free (mm v)) [va'].
Proof. intros E Ei. unfold put_area, upd_used. cbn [mm set_mm]. rewrite E. cbn [map]. by rewrite Ei, Z.eqb_refl. Qed.

(** [va] with the blocks [l] behind it. *)
Definition filled (va : vmm_area) (l : list Z) : vmm_area := set_blocks l (set_flags (Z.lor (va_flags va) VM_MAP_BK) (set_blocks [] va)).

Lemma alloc_vm_memory_ok hv va mem : vmm_ok hv -> low hv -> area_ok va -> va_start va mod MEM_BLOCK_SIZE = 0 ->
  exists ret l hv', __alloc_vm_memory hv va mem = Ret (ret, filled va l, hv') /\ blocks_taken hv hv' l /\
    let n := Z.to_nat ((va_end va - va_start va) / MEM_BLOCK_SIZE) in
    (ret = 0 /\ length l = n \/ ret = - ENOMEM /\ ~ ((forall i, mem i = true) /\ Z.of_nat n <= free_blocks hv)).
Proof.
  intros Hok Hlow Ha Hal. unfold __alloc_vm_memory. assert (Ha' := Ha). destruct Ha' as (A1 & A2 & _). change MEM_BLOCK_SIZE with (2 ^ 21) at 1. rewrite ALIGN_pow2 by lia.
  rewrite (proj2 (Z.eqb_eq _ _)) by (unfold MEM_BLOCK_SIZE in Hal; change (2 ^ 21) with 0x200000; Z.div_mod_to_equations; lia). cbn [negb].
  unfold VMA_SIZE at 1. cbn [set_flags set_blocks va_end va_start]. rewrite (wrap_small 64) by lia. rewrite Z.shiftr_div_pow2 by (unfold MEM_BLOCK_SHIFT; lia).
  change (2 ^ MEM_BLOCK_SHIFT) with MEM_BLOCK_SIZE. rewrite s32_small by (unfold MEM_BLOCK_SIZE; Z.div_mod_to_equations; lia).
  destruct (alloc_blocks_ok (Z.to_nat ((va_end va - va_start va) / MEM_BLOCK_SIZE)) hv [] mem 0 Hok Hlow) as (ret & l & hv' & -> & T & Hret). rewrite app_nil_r. cbn [obind fst snd].
  by exists ret, l, hv'.
Qed.

Lemma blocks_low hv hv' l : vmm_ok hv -> low hv -> blocks_taken hv hv' l -> Forall (fun b => 0 <= b < 2048) l.
Proof. intros Hok Hlow T. apply Forall_forall. intros b Hb. apply (bk_new _ _ _ T) in Hb as [_ Hb]. split; [by apply (has_nonneg (bs_list hv)); [apply Hok|]|by apply Hlow]. Qed.

Definition with_memory (v : vm) (va : vmm_area) (l : list Z) (s : s2) : vm := mk_vm (vmid v) (native v) (mk_mm (vmm_area_free (mm v)) [filled va l]) (Some s).

Lemma put_filled v va l s : vmm_area_used (mm v) = [va] -> pgdp v = Some s -> put_area (filled va l) v = with_memory v va l s.
Proof.
  intros E Es. assert (Em := put_single va (filled va l) v E eq_refl). unfold put_area, set_mm in *. cbn [mm] in Em. rewrite Em. unfold with_memory. by rewrite <- Es.
Qed.

Lemma map_filled v va l : va_flags va = VM_GUEST_NORMAL -> map_vmm_area flush v (filled va l) 0 = map_blocks flush v l (va_start va) (VMA_SIZE va) VM_GUEST_NORMAL.
Proof. intros Ef. unfold map_vmm_area, filled. cbn [va_flags set_blocks set_flags]. rewrite Ef. done. Qed.

Lemma alloc_areas_ok hv v va s bmem n : vmm_ok hv -> low hv -> pgdp v = Some s -> s2_ok s -> vmm_area_used (mm v) = [va] -> area_ok va -> va_flags va = VM_GUEST_NORMAL ->
  va_start va mod MEM_BLOCK_SIZE = 0 -> va_end va - va_start va = MEM_BLOCK_SIZE * Z.of_nat n ->
  exists ok l hv' s', alloc_areas flush hv v [va] bmem 0 = Ret (ok, hv', with_memory v va l s') /\ blocks_taken hv hv' l /\ blocks_mapped s s' (va_start va) l (if ok : bool then 0 else 1) /\
    (ok = true -> length l = n) /\ ((forall i, bmem 0%nat i = true) -> Z.of_nat n <= free_blocks hv -> room_for v s (va_start va) n -> ok = true).
Proof.
  intros Hok Hlow Es Hs Eu Ha Ef Hal Hsz. assert (Ha' := Ha). destruct Ha' as (A1 & A2 & _). cbn [alloc_areas]. rewrite Ef. change (Z.land VM_GUEST_NORMAL VM_NORMAL =? 0) with false. cbn match.
  destruct (alloc_vm_memory_ok hv va (bmem 0%nat) Hok Hlow Ha Hal) as (ret & l & hv' & -> & T & Hret). cbn [obind fst snd]. rewrite Hsz in Hret.
  replace (Z.to_nat (MEM_BLOCK_SIZE * Z.of_nat n / MEM_BLOCK_SIZE)) with n in Hret by (rewrite Z.mul_comm, Z.div_mul by done; lia). rewrite (put_filled v va l s Eu Es).
  destruct Hret as [[-> Hl]|[-> Hno]]; cbn [Z.eqb negb].
  2:{ exists false, l, hv', s. split; [done|]. split; [done|]. split; [split; [by apply grown_refl|by left|done]|]. split; [done|]. intros H1 H2 _. by destruct Hno. }
  rewrite map_filled, VMA_SIZE_ok by done. pose proof (blocks_low hv hv' l Hok Hlow T) as Hbl.
  destruct (map_blocks_ok l (with_memory v va l s) s (va_start va) (va_end va - va_start va) VM_GUEST_NORMAL) as (ret & s' & -> & B & Hroom); try done; try lia.
  cbn [obind]. change (set_pgdp (Some s') (with_memory v va l s)) with (with_memory v va l s'). destruct (Z.eqb_spec ret 0) as [->|Nr]; cbn [negb alloc_areas].
  - exists true, l, hv', s'. do 4 (split; [done|]). done.
  - exists false, l, hv', s'. do 2 (split; [done|]). split; [split; [apply B|apply B|done]|]. split; [done|]. intros H1 H2 H3. destruct Nr. apply Hroom. by rewrite Hl.
Qed.

Lemma alloc_areas_aligned hv v va s bmem hv' v' : vmm_ok hv -> low hv -> pgdp v = Some s -> vmm_area_used (mm v) = [va] -> area_ok va -> va_flags va = VM_GUEST_NORMAL ->
  alloc_areas flush hv v [va] bmem 0 = Ret (true, hv', v') -> va_start va mod MEM_BLOCK_SIZE = 0 /\ exists n, va_end va - va_start va = MEM_BLOCK_SIZE * Z.of_nat n.
Proof.
  intros Hok Hlow Es Eu Ha Ef. assert (Ha' := Ha). destruct Ha' as (A1 & A2 & _). cbn [alloc_areas]. rewrite Ef. change (Z.land VM_GUEST_NORMAL VM_NORMAL =? 0) with false. cbn match.
  destruct (decide (va_start va mod MEM_BLOCK_SIZE = 0)) as [Hal|Hal].
  - destruct (alloc_vm_memory_ok hv va (bmem 0%nat) Hok Hlow Ha Hal) as (ret & l & hv1 & -> & T & Hret). cbn [obind fst snd]. rewrite (put_filled v va l s Eu Es).
    destruct (Z.eqb_spec ret 0) as [->|]; [|done]. cbn [negb]. rewrite map_filled, VMA_SIZE_ok by done. destruct (map_blocks _ _ _ _ _ _) as [[ret v1]| | |] eqn:E; try done. cbn [obind].
    destruct (Z.eqb_spec ret 0) as [->|]; [|done]. intros _. split; [done|]. apply map_blocks_size in E; [|lia]. exists (length l). destruct Hret as [[_ Hl]|[? _]]; [|done].
    rewrite Z.mod_small in E; [done|]. rewrite Hl. unfold MEM_BLOCK_SIZE. Z.div_mod_to_equations. lia.
  - unfold __alloc_vm_memory. change MEM_BLOCK_SIZE with (2 ^ 21) at 1. rewrite ALIGN_pow2 by lia. rewrite (proj2 (Z.eqb_neq _ _)); [done|].
    unfold MEM_BLOCK_SIZE in Hal. change (2 ^ 21) with 0x200000. Z.div_mod_to_equations. lia.
Qed.

(** ** Creating a guest *)

Definition space (bit64 : bool) : Z := if bit64 then 2 ^ 40 else 2 ^ 32.

Definition fresh_vm (id : Z) (bit64 : bool) (z : Z) (pages : list Z) : vm := mk_vm id false (mk_mm [mk_va z 0 (space bit64) BAD_ADDRESS 0 0 []] []) (Some (empty_tables pages)).

Lemma struct_init_ok v bit64 page pages z regions zmem a b c : native v = false -> page <> 0 -> z <> 0 ->
  vm_mm_struct_init v bit64 page pages z regions zmem a b c = (0, fresh_vm (vmid v) bit64 z pages).
Proof.
  intros Hn Hp Hz. unfold vm_mm_struct_init, arch_alloc_guest_pgd, vm_memory_init, vmm_area_init, __alloc_vmm_area_entry, fresh_vm. destruct (Z.eqb_spec page 0); [done|]. destruct (Z.eqb_spec z 0); [done|].
  cbn [native mm vmid]. rewrite Hn. by destruct bit64.
Qed.

Definition records_ok (z ml mr : Z) : Prop := z <> 0 /\ ml <> z /\ mr <> z /\ (ml = mr -> ml = 0).

Lemma fresh_mm_ok id bit64 z pages : z <> 0 -> mm_ok (mm (fresh_vm id bit64 z pages)).
Proof.
  intros Hz. apply (mm_reach_ok (space bit64)). assert (Hr := mr_init (space bit64) bit64 z Hz eq_refl). unfold vmm_area_init, __alloc_vmm_area_entry in Hr.
  rewrite (proj2 (Z.eqb_neq z 0)) in Hr by done. destruct bit64; exact Hr.
Qed.

Lemma fresh_split id bit64 z pages base size ml mr : records_ok z ml mr -> 0 <= base -> 0 <= size -> base + size < 2 ^ 64 ->
  match split_vmm_area (mm (fresh_vm id bit64 z pages)) base size VM_GUEST_NORMAL ml mr with
  | (Some va, m) => va_start va = base /\ va_end va = base + size /\ va_flags va = VM_GUEST_NORMAL /\ b_head va = [] /\ vmm_area_used m = [va] /\ mm_ok m /\ no_blocks (vmm_area_free m)
  | (None, m) => m = mm (fresh_vm id bit64 z pages) /\ ~ (paged base /\ paged size /\ base + size <= space bit64 /\ ml <> 0 /\ mr <> 0)
  end.
Proof.
  intros (Hz & Hml & Hmr & Hne) Hb Hs He. set (m0 := mm (fresh_vm id bit64 z pages)). assert (Hok : mm_ok m0) by (by apply fresh_mm_ok).
  assert (Hfr : forall x, x <> z -> fresh m0 x) by (intros x Hx; right; cbn; by intros ->%list_elem_of_singleton).
  pose proof (split_vmm_area_ok m0 base size VM_GUEST_NORMAL ml mr Hok Hb Hs He (Hfr ml Hml) (Hfr mr Hmr) Hne) as H.
  destruct (split_vmm_area m0 base size VM_GUEST_NORMAL ml mr) as [[va|] m] eqn:E.
  - destruct H as (H1 & H2 & H3 & T). apply split_area_no_blocks in E as [E1 E2]; [|by apply Forall_singleton]. rewrite (tk_used _ _ _ T). by destruct T.
  - split; [done|]. intros (P1 & P2 & Htop & N1 & N2). unfold split_vmm_area in E. change (negb (Z.land VM_GUEST_NORMAL VM_NORMAL =? 0)) with true in E.
    rewrite !IS_PAGE_ALIGN_spec, P1, P2 in E. cbn [Z.eqb negb orb andb] in E. rewrite wrap_small in E by lia. unfold find_area in E. cbn [m0 fresh_vm mm vmm_area_free List.find va_start va_end] in E.
    rewrite (proj2 (Z.leb_le 0 base)), (proj2 (Z.leb_le (base + size) (space bit64))) in E by done. cbn [andb] in E. unfold __split_vmm_area, __alloc_vmm_area_entry in E.
    rewrite (proj2 (Z.eqb_neq ml 0)), (proj2 (Z.eqb_neq mr 0)) in E by done. by repeat case_match.
Qed.

(** What a new guest is: one used area, filled with blocks that were free. *)
Record guest_made (hv hv' : vmm) (v' : vm) (pages : list Z) (base : Z) (l : list Z) : Prop := {
  gm_taken : blocks_taken hv hv' l;
  gm_used : exists va, vmm_area_used (mm v') = [va] /\ va_start va = base /\ va_end va = base + MEM_BLOCK_SIZE * Z.of_nat (length l) /\ b_head va = l /\ va_flags va = VM_GUEST_NORMAL;
  gm_mm : mm_ok (mm v');
  gm_free : no_blocks (vmm_area_free (mm v'));
  gm_tables : exists s, pgdp v' = Some s /\ blocks_mapped (empty_tables pages) s base l 0;
}.

Lemma filled_mm_ok m va l : vmm_area_used m = [va] -> mm_ok m -> mm_ok (mk_mm (vmm_area_free m) [filled va l]).
Proof.
  intros Eu [H1 H2 H3]. unfold areas in *. rewrite Eu in *. split; unfold areas; cbn [vmm_area_free vmm_area_used].
  - rewrite Forall_app, Forall_singleton in *. exact H1.
  - intros x. specialize (H2 x). by rewrite cover_app in *.
  - rewrite map_app in *. exact H3.
Qed.

Lemma destroy_mapping_shape v vir size ret v' : __destroy_guest_mapping flush v vir size = Ret (ret, v') -> exists s', v' = set_pgdp (Some s') v.
Proof.
  unfold __destroy_guest_mapping. destruct (negb _ || _); destruct (pgdp v) as [s|]; try done; intros ([r s'] & _ & E)%obind_Ret_inv; simplify_eq; by exists s'.
Qed.

Lemma release_inv hv host v f hv' host' v' : release_vm_memory flush hv host v = Ret (f, hv', host', v') ->
  (exists f1, release_areas hv (vmm_area_used (mm v)) = Ret (f1, hv')) /\ vmid v' = vmid v /\ pgdp v' = None /\ mm v' = mk_mm [] [].
Proof.
  unfold release_vm_memory. intros ([ret v1] & Ed & E)%obind_Ret_inv. apply destroy_mapping_shape in Ed as (s' & ->). apply obind_Ret_inv in E as ([f1 hv1] & Ea & E).
  apply obind_Ret_inv in E as ([f0 host1] & _ & E). simplify_eq. split; [by exists f1|done].
Qed.

Lemma guest_init_cases hv host id bit64 z pages base size ml mr bmem ret f hv' host' v' : vmm_ok hv -> low hv -> Forall page_ok pages -> records_ok z ml mr -> 0 <= base -> 0 <= size -> base + size < 2 ^ 64 ->
  guest_mm_init flush hv host (fresh_vm id bit64 z pages) base size ml mr bmem = Ret (ret, f, hv', host', v') ->
  ret = - EINVAL /\ hv' = hv /\ v' = fresh_vm id bit64 z pages \/ ret = - ENOMEM /\ pgdp v' = None \/
  ret = 0 /\ f = [] /\ host' = host /\ exists l, guest_made hv hv' v' pages base l /\ size = MEM_BLOCK_SIZE * Z.of_nat (length l) /\ vmid v' = id /\ native v' = false.
Proof.
  intros Hok Hlow Hpg Hrec Hb Hs He. unfold guest_mm_init. set (v0 := fresh_vm id bit64 z pages). pose proof (fresh_split id bit64 z pages base size ml mr Hrec Hb Hs He) as Hsp. fold v0 in Hsp.
  destruct (split_vmm_area (mm v0) base size VM_GUEST_NORMAL ml mr) as [[va|] m].
  2:{ intros [= <- <- <- <- <-]. left. by destruct Hsp as [-> _]. }
  destruct Hsp as (E1 & E2 & E3 & E4 & E5 & Hm & Hn). intros ([r v1] & E & Er)%obind_Ret_inv. destruct r as [[[ret1 f1] hv1] host1]. simplify_eq. unfold alloc_vm_memory in E.
  cbn [mm set_mm] in E. rewrite E5 in E. apply obind_Ret_inv in E as ([[ok hv2] v2] & Ea & E). assert (Hao : area_ok va).
  { apply (proj1 (Forall_forall _ _) (mo_areas _ Hm)). unfold areas. rewrite E5. apply elem_of_app. right. by left. }
  destruct ok.
  - simplify_eq. right. right. cbn [Z.eqb]. do 3 (split; [done|]).
    destruct (alloc_areas_aligned hv (set_mm m v0) va (empty_tables pages) bmem hv' v' Hok Hlow eq_refl E5 Hao E3 Ea) as (Hal & n & Hn').
    destruct (alloc_areas_ok hv (set_mm m v0) va (empty_tables pages) bmem n Hok Hlow eq_refl (empty_tables_ok pages Hpg) E5 Hao E3 Hal Hn') as (ok & l & hv1 & s & Ea' & T & B & Hl & _).
    rewrite Ea in Ea'. simplify_eq. specialize (Hl eq_refl). exists l. split; [|split; [lia|done]]. split; [done| |by apply filled_mm_ok|done|].
    + exists (filled va l). split; [done|]. cbn. split; [done|]. split; [lia|]. split; [done|]. by rewrite E3.
    + by exists s.
  - apply obind_Ret_inv in E as ([r v3] & Erel & E). destruct r as [[f2 hv3] host3]. simplify_eq. right. left. split; [done|]. by apply release_inv in Erel as (_ & _ & ? & _).
Qed.

Lemma release_faults hv host v : pgdp v = None -> release_vm_memory flush hv host v = Fault.
Proof. intros E. unfold release_vm_memory, destroy_guest_mapping, __destroy_guest_mapping. rewrite E. by destruct (negb _ || _). Qed.

Lemma create_cases hv host v bit64 page pages z base size ml mr bmem o f hv' host' : vmm_ok hv -> low hv -> native v = false -> Forall page_ok pages -> records_ok z ml mr ->
  0 <= base -> 0 <= size -> base + size < 2 ^ 64 -> create_guest_memory flush hv host v bit64 page pages z base size ml mr bmem = Ret (o, f, hv', host') ->
  o = None /\ hv' = hv \/
  exists v' l, o = Some v' /\ f = [] /\ host' = host /\ guest_made hv hv' v' pages base l /\ size = MEM_BLOCK_SIZE * Z.of_nat (length l) /\ vmid v' = vmid v /\ native v' = false.
Proof.
  intros Hok Hlow Hn Hpg Hrec Hb Hs He. unfold create_guest_memory. destruct (decide (page = 0)) as [->|Hp].
  { unfold vm_mm_struct_init, arch_alloc_guest_pgd. cbn [Z.eqb]. cbn match. by rewrite release_faults. }
  rewrite struct_init_ok by (try done; apply Hrec). cbn [Z.eqb negb]. intros ([r v1] & E & E2)%obind_Ret_inv. destruct r as [[[ret f1] hv1] host1].
  destruct (guest_init_cases _ _ _ _ _ _ _ _ _ _ _ _ _ _ _ _ Hok Hlow Hpg Hrec Hb Hs He E) as [(-> & -> & ->)|[(-> & Hno)|(-> & -> & -> & l & Hm & Hsz & Hid & Hnat)]].
  - left. destruct (negb (- EINVAL =? 0)) eqn:En; [|done]. apply obind_Ret_inv in E2 as ([r v2] & Er & E2). destruct r as [[f2 hv2] host2].
    apply release_inv in Er as ((f3 & Er) & _). cbn [mm fresh_vm vmm_area_used release_areas] in Er. by simplify_eq.
  - destruct (negb (- ENOMEM =? 0)) eqn:En; [|done]. by rewrite release_faults in E2.
  - destruct (negb (0 =? 0)) eqn:En; [done|]. injection E2 as <- <- <- <-. right. exists v1, l. done.
Qed.

Lemma empty_walk pages va : s2_walk (empty_tables pages) va = None.
Proof. apply empty_tables_walk. Qed.

(** C9: A guest gets the memory it asks for: when its range is made of whole blocks inside the address
    space, enough blocks are free (all below 4 GB) and there are pages for the tables, creation
    succeeds; every address of the range is translated to its place in a block, no other address is
    translated, and the blocks were free before and are all different. *)
Theorem guest_memory_exact hv host v bit64 page pages z base n ml mr bmem : vmm_ok hv -> low hv -> native v = false -> page <> 0 -> Forall page_ok pages ->
  records_ok z ml mr -> ml <> 0 -> mr <> 0 -> base mod MEM_BLOCK_SIZE = 0 -> 0 <= base -> base + MEM_BLOCK_SIZE * Z.of_nat n <= space bit64 ->
  Z.of_nat n <= free_blocks hv -> (forall i, bmem 0%nat i = true) -> (n <= length pages)%nat -> iommu_iotlb_flush_all flush v = 0 ->
  exists v' s l hv', create_guest_memory flush hv host v bit64 page pages z base (MEM_BLOCK_SIZE * Z.of_nat n) ml mr bmem = Ret (Some v', [], hv', host) /\ pgdp v' = Some s /\
    length l = n /\ NoDup l /\ (forall b, b ∈ l -> busy hv b = false) /\ (forall b, busy hv' b = busy hv b || bool_decide (b ∈ l)) /\
    forall ipa, 0 <= ipa < 2 ^ 40 -> s2_translate s ipa =
      if (base <=? ipa) && (ipa <? base + MEM_BLOCK_SIZE * Z.of_nat n)
      then (fun b => b * MEM_BLOCK_SIZE + ipa mod MEM_BLOCK_SIZE) <$> l !! Z.to_nat ((ipa - base) / MEM_BLOCK_SIZE) else None.
Proof.
  intros Hok Hlow Hn Hp Hpg Hrec Hml Hmr Hal Hb Hsp Hfree Hmem Hlen Hfl. assert (Htop : space bit64 <= 2 ^ 40) by (by destruct bit64). unfold create_guest_memory.
  rewrite struct_init_ok by (try done; apply Hrec). cbn [Z.eqb negb]. unfold guest_mm_init. set (v0 := fresh_vm (vmid v) bit64 z pages). set (size := MEM_BLOCK_SIZE * Z.of_nat n) in *.
  assert (Hsz : 0 <= size) by (unfold size, MEM_BLOCK_SIZE; lia). pose proof (fresh_split (vmid v) bit64 z pages base size ml mr Hrec Hb Hsz ltac:(lia)) as H0. fold v0 in H0.
  destruct (split_vmm_area (mm v0) base size VM_GUEST_NORMAL ml mr) as [[va|] m].
  2:{ exfalso. apply H0. unfold paged, size, MEM_BLOCK_SIZE in *. split_and!; try done; Z.div_mod_to_equations; lia. }
  destruct H0 as (E1 & E2 & E3 & E4 & E5 & Hm & _). unfold alloc_vm_memory. cbn [mm set_mm]. rewrite E5.
  assert (Hao : area_ok va) by (apply (proj1 (Forall_forall _ _) (mo_areas _ Hm)); unfold areas; rewrite E5; apply elem_of_app; right; by left).
  destruct (alloc_areas_ok hv (set_mm m v0) va (empty_tables pages) bmem n Hok Hlow eq_refl (empty_tables_ok pages Hpg) E5 Hao E3) as (ok & l & hv' & s & -> & T & B & Hl & Hs); [by rewrite E1|lia|].
  rewrite E1 in *. assert (ok = true) as ->.
  { apply Hs; try done. split; [apply Forall_replicate; done|]. split; [done|]. split; [done|]. intros i d _. by rewrite empty_walk. }
  specialize (Hl eq_refl). cbn [obind Z.eqb negb]. eexists _, s, l, hv'. split; [done|]. do 5 (split; [done || apply T; done|]). intros ipa Hi.
  destruct (decide (base <= ipa < base + size)) as [Hr|Hr].
  - rewrite (proj2 (Z.leb_le base ipa)), (proj2 (Z.ltb_lt ipa _)) by lia. cbn [andb]. set (i := Z.to_nat ((ipa - base) / MEM_BLOCK_SIZE)).
    destruct (lookup_lt_is_Some_2 l i) as (b & Eb); [rewrite Hl; unfold i, size, MEM_BLOCK_SIZE in *; Z.div_mod_to_equations; lia|]. rewrite Eb. cbn [fmap option_fmap option_map].
    apply (bm_all _ _ _ _ _ B eq_refl). exists i, b. split; [done|]. split; [|done]. unfold i, size, MEM_BLOCK_SIZE in *. Z.div_mod_to_equations. lia.
  - replace ((base <=? ipa) && (ipa <? base + size)) with false by (symmetry; case_bools; done || lia).
    destruct (bm_only _ _ _ _ _ B ipa Hi) as [E|(pa & Hin & _)]; [unfold s2_translate; by rewrite E, empty_walk|]. apply in_block_range in Hin. rewrite Hl in Hin. done.
Qed.

(** ** Releasing the areas of a guest *)

Definition owned (v : vm) : list Z := concat (map b_head (vmm_area_used (mm v))).

(** The blocks that [release_vmm_area_memory] gives back. *)
Definition returned (va : vmm_area) : list Z :=
  if (Z.land (va_flags va) VM_SHARED =? 0) && (Z.land (va_flags va) VM_MAP_TYPE_MASK =? VM_MAP_BK) then b_head va else [].

Lemma returned_sub va : returned va ⊆+ b_head va.
Proof. unfold returned. destruct (_ && _); [done|apply submseteq_nil_l]. Qed.

Lemma returned_all l : concat (map returned l) ⊆+ concat (map b_head l).
Proof. induction l as [|a l IH]; [done|]. cbn. apply submseteq_app; [apply returned_sub|done]. Qed.

Lemma release_memory_ok hv va : vmm_ok hv -> low hv -> NoDup (returned va) -> (forall b, b ∈ returned va -> busy hv b = true) ->
  exists r va' hv', release_vmm_area_memory hv va = Ret (r, va', hv') /\ blocks_back hv hv' (returned va).
Proof.
  intros Hok Hlow Hnd Hb. unfold release_vmm_area_memory, returned in *. assert (Hnone : blocks_back hv hv []).
  { split; try done; [|cbn; lia]. intros b. by rewrite bool_decide_eq_true_2, andb_true_r by apply not_elem_of_nil. }
  destruct (Z.eqb_spec (Z.land (va_flags va) VM_SHARED) 0); cbn [negb andb] in *; [|by eexists _, _, hv].
  destruct (Z.eqb_spec (Z.land (va_flags va) VM_MAP_TYPE_MASK) VM_MAP_PT) as [->|]; [by eexists _, _, hv|].
  destruct (Z.eqb_spec (Z.land (va_flags va) VM_MAP_TYPE_MASK) VM_MAP_BK); [|destruct (_ =? BAD_ADDRESS); by eexists _, _, hv].
  destruct (release_blocks_ok (b_head va) hv Hok Hlow Hnd Hb) as (hv' & -> & B). by eexists _, _, hv'.
Qed.

Lemma back_trans hv hv1 hv2 l1 l2 : blocks_back hv hv1 l1 -> blocks_back hv1 hv2 l2 -> blocks_back hv hv2 (l1 ++ l2).
Proof.
  intros B1 B2. split; [apply B2|apply B2|intros b; by rewrite (bb_has _ _ _ B2), (bb_has _ _ _ B1)| |rewrite (bb_free _ _ _ B2), (bb_free _ _ _ B1), length_app; lia].
  intros b. rewrite (bb_busy _ _ _ B2), (bb_busy _ _ _ B1), <- andb_assoc. f_equal. rewrite <- bool_decide_and. apply bool_decide_ext. rewrite not_elem_of_app. done.
Qed.

Lemma release_areas_ok l : forall hv, vmm_ok hv -> low hv -> NoDup (concat (map returned l)) -> (forall b, b ∈ concat (map returned l) -> busy hv b = true) ->
  exists f hv', release_areas hv l = Ret (f, hv') /\ blocks_back hv hv' (concat (map returned l)).
Proof.
  induction l as [|a l IH]; intros hv Hok Hlow Hnd Hb; cbn [release_areas map concat] in *.
  { exists [], hv. split; [done|]. split; try done; [|cbn; lia]. intros b. by rewrite bool_decide_eq_true_2, andb_true_r by apply not_elem_of_nil. }
  apply NoDup_app in Hnd as (N1 & N2 & N3). destruct (release_memory_ok hv a Hok Hlow N1) as (r & va' & hv1 & -> & B1); [intros b H; apply Hb, elem_of_app; by left|]. cbn [obind].
  destruct (IH hv1 (bb_ok _ _ _ B1) (bb_low _ _ _ B1) N3) as (f & hv2 & -> & B2).
  { intros b H. rewrite (bb_busy _ _ _ B1), bool_decide_eq_true_2, andb_true_r by (intros H1; by apply (N2 b)). apply Hb, elem_of_app. by right. }
  cbn [obind]. eexists _, hv2. split; [done|]. by eapply back_trans.
Qed.

Lemma unmap_space_ok v s : pgdp v = Some s -> s2_ok s -> s2_plain s ->
  exists ret s', destroy_guest_mapping flush v 0 VM_IPA_SIZE = Ret (ret, set_pgdp (Some s') v) /\ s2_pages s' = [] /\ s2_freed s' ≡ₚ s2_pages s ++ s2_freed s /\ s2_mem s' = s2_mem s /\
    forall va, s2_walk s' va = None.
Proof.
  intros Es Hok Hpl. unfold destroy_guest_mapping, __destroy_guest_mapping. rewrite Es. change (negb (IS_PAGE_ALIGN 0) || negb (IS_PAGE_ALIGN VM_IPA_SIZE)) with false. cbn match.
  change (u64 (0 + VM_IPA_SIZE)) with (2 ^ 40). destruct (unmap_all_ok s Hok Hpl) as (s' & -> & _ & H1 & H2 & H3 & H4). cbn [obind]. by eexists _, s'.
Qed.

Lemma vm0_untouched host id l : Forall (fun a => va_vmid a <> id) l -> release_areas_vm0 flush host id l = Ret ([], host).
Proof. induction l as [|a l IH]; intros H; cbn [release_areas_vm0]; [done|]. apply Forall_cons in H as [Ha H]. rewrite (proj2 (Z.eqb_neq _ _)) by done. by apply IH. Qed.

(** C10: Destroying a guest of which [vm0] maps nothing undoes its creation, when the memory for guests
    is below 4 GB: the blocks it got are free again and no other block changed, the tables have no
    translation left, and every page that was taken for a table below the root is given back.  The page
    of the root table goes back last and is not tracked.  What [vm0] maps of a guest is the subject of
    [destroyed_guest_stays_mapped]. *)
Theorem guest_release_restores hv host v bit64 page pages z base size ml mr bmem v' f hv' host' : vmm_ok hv -> low hv -> native v = false -> Forall page_ok pages -> records_ok z ml mr ->
  0 <= base -> 0 <= size -> base + size < 2 ^ 64 -> Forall (fun a => va_vmid a <> vmid v) (vmm_area_used (mm host)) ->
  create_guest_memory flush hv host v bit64 page pages z base size ml mr bmem = Ret (Some v', f, hv', host') ->
  exists f' hv2 v2 s ret s', release_vm_memory flush hv' host' v' = Ret (f', hv2, host', v2) /\ (forall b, busy hv2 b = busy hv b) /\ free_blocks hv2 = free_blocks hv /\
    pgdp v' = Some s /\ destroy_guest_mapping flush v' 0 VM_IPA_SIZE = Ret (ret, set_pgdp (Some s') v') /\ (forall va, s2_walk s' va = None) /\ s2_freed s' ++ s2_mem s' ≡ₚ pages.
Proof.
  intros Hok Hlow Hn Hpg Hrec Hb Hs He Hvm0 E.
  destruct (create_cases _ _ _ _ _ _ _ _ _ _ _ _ _ _ _ _ Hok Hlow Hn Hpg Hrec Hb Hs He E) as [[? _]|(v1 & l & E1 & -> & -> & G & Hsz & Hid & _)]; [done|]. simplify_eq.
  destruct (gm_tables _ _ _ _ _ _ G) as (s & Es & B). pose proof (bm_grown _ _ _ _ _ B) as Gr. assert (Hpl : s2_plain s) by (apply Gr, Forall_replicate; done).
  destruct (unmap_space_ok v1 s Es (gr_ok _ _ Gr) Hpl) as (ret & s' & Ed & P1 & P2 & P3 & P4). destruct (gm_used _ _ _ _ _ _ G) as (va & Eu & _ & _ & Ebl & Efl).
  pose proof (gm_taken _ _ _ _ _ _ G) as T. unfold release_vm_memory. rewrite Ed. cbn [obind mm set_pgdp]. rewrite Eu.
  assert (Hret : concat (map returned [va]) = l) by (cbn; unfold returned; rewrite Efl, Ebl, app_nil_r; done).
  destruct (release_areas_ok [va] hv' (bk_ok _ _ _ T) (bk_low _ _ _ T)) as (f' & hv2 & -> & Bk); rewrite Hret in *; [apply T|intros b Hbb; by rewrite (bk_busy _ _ _ T), bool_decide_eq_true_2, orb_true_r|].
  cbn [obind]. unfold release_vmm_area_in_vm0. cbn [vmid set_mm set_pgdp]. rewrite Hid, vm0_untouched by done. cbn [obind]. eexists _, hv2, _, s, ret, s'. split; [done|]. split; [|split; [|split; [done|split; [done|split; [done|]]]]].
  - by apply (taken_back hv hv' hv2 l).
  - by apply (taken_back hv hv' hv2 l).
  - rewrite P2, P3, (gr_freed _ _ Gr). cbn [s2_freed empty_tables]. rewrite app_nil_r, (gr_pages _ _ Gr). done.
Qed.

(** ** Guests side by side *)

Context {PN : PageNumbers}.

Record world := mk_world { blocks : vmm; vm0 : vm; shared : pool; guests : list vm }.

(** Areas with memory of the pool of shared memory that are released ([FreeShmem]). *)
Fixpoint give_shmem (p : pool) (f : list freed) : outcome pool :=
  match f with
  | [] => Ret p
  | FreeShmem a :: f => let* p := free_shmem p a in give_shmem p f
  | FreePages _ :: f => give_shmem p f
  end.

(** A physical range without memory of virtual machines: devices. *)
Definition outside (hv : vmm) (phy size : Z) : Prop := forall pa, phy <= pa < phy + size -> has_in (bs_list hv) (pa / MEM_BLOCK_SIZE) = false.

Inductive world_step : world -> world -> Prop :=
| ws_create hv host p gs v bit64 page pages z base size ml mr bmem v' f hv' host' :
    native v = false -> Forall page_ok pages -> records_ok z ml mr -> 0 <= base -> 0 <= size -> base + size < 2 ^ 64 ->
    create_guest_memory flush hv host v bit64 page pages z base size ml mr bmem = Ret (Some v', f, hv', host') ->
    world_step (mk_world hv host p gs) (mk_world hv' host' p (v' :: gs))
| ws_refuse hv host p gs v bit64 page pages z base size ml mr bmem f hv' host' p' :
    native v = false -> Forall page_ok pages -> records_ok z ml mr -> 0 <= base -> 0 <= size -> base + size < 2 ^ 64 ->
    create_guest_memory flush hv host v bit64 page pages z base size ml mr bmem = Ret (None, f, hv', host') -> give_shmem p f = Ret p' ->
    world_step (mk_world hv host p gs) (mk_world hv' host' p' gs)
| ws_device hv host p l1 l2 v vir phy size flags ret v' :
    has_flag flags __VM_HUGE_1G = false -> paged vir -> paged phy -> paged size -> 0 <= vir -> 0 < size -> vir + size <= 2 ^ 40 -> 0 <= phy < 2 ^ 40 -> outside hv phy size ->
    create_guest_mapping flush v vir phy size flags = Ret (ret, v') ->
    world_step (mk_world hv host p (l1 ++ v :: l2)) (mk_world hv host p (l1 ++ v' :: l2))
| ws_shmem_alloc hv host p gs pages zmem bmem chm mem addr hv' p' :
    0 < pages -> alloc_shmem hv p pages zmem bmem chm mem = Ret (addr, hv', p') ->
    world_step (mk_world hv host p gs) (mk_world hv' host p' gs)
| ws_shmem_free hv host p gs addr p' :
    free_shmem p addr = Ret p' ->
    world_step (mk_world hv host p gs) (mk_world hv host p' gs)
| ws_share hv host p l1 l2 v sh size zmem ret v' :
    sh ∈ shmem_head p -> 0 < size <= 4096 * sh_pages sh -> mem_fresh (mm v) zmem ->
    vmbox_map_shmem flush v (4096 * sh_pfn sh) size zmem = Ret (ret, v') ->
    world_step (mk_world hv host p (l1 ++ v :: l2)) (mk_world hv host p (l1 ++ v' :: l2))
| ws_mmap hv host p gs v offset size zmem r hv' host' :
    v ∈ gs -> vm_mmap flush hv host v offset size zmem = Ret (r, hv', host') ->
    world_step (mk_world hv host p gs) (mk_world hv' host' p gs)
| ws_destroy hv host p l1 l2 v f hv' host' v' p' :
    release_vm_memory flush hv host v = Ret (f, hv', host', v') -> give_shmem p f = Ret p' ->
    world_step (mk_world hv host p (l1 ++ v :: l2)) (mk_world hv' host' p' (l1 ++ l2)).

(** What one guest sees of the memory of virtual machines is its own or shared. *)
Record guest_ok (hv : vmm) (p : pool) (v : vm) : Prop := {
  go_mm : mm_ok (mm v);
  go_free : no_blocks (vmm_area_free (mm v));
  go_tables : exists s, pgdp v = Some s /\ s2_ok s /\
    forall ipa pa, 0 <= ipa < 2 ^ 40 -> s2_translate s ipa = Some pa -> has_in (bs_list hv) (pa / MEM_BLOCK_SIZE) = true -> pa / MEM_BLOCK_SIZE ∈ owned v \/ pa / MEM_BLOCK_SIZE ∈ pool_blocks p;
}.

Record world_ok (w : world) : Prop := {
  wo_blocks : vmm_ok (blocks w) /\ low (blocks w);
  wo_pool : pool_ok (shared w);
  wo_once : NoDup (pool_blocks (shared w) ++ concat (map owned (guests w)));
  wo_busy : forall b, b ∈ pool_blocks (shared w) ++ concat (map owned (guests w)) -> busy (blocks w) b = true;
  wo_guests : Forall (guest_ok (blocks w) (shared w)) (guests w);
}.

Lemma guest_ok_has hv hv' p p' v : (forall b, has_in (bs_list hv') b = has_in (bs_list hv) b) -> (forall b, b ∈ pool_blocks p -> b ∈ pool_blocks p') -> guest_ok hv p v -> guest_ok hv' p' v.
Proof. intros Hh Hs [H1 H2 (s & Es & Hok & H3)]. split; [done|done|]. exists s. split; [done|]. split; [done|]. intros ipa pa Hi Ht Hin. rewrite Hh in Hin. destruct (H3 ipa pa Hi Ht Hin); auto. Qed.

Lemma guests_ok_has hv hv' p p' l : (forall b, has_in (bs_list hv') b = has_in (bs_list hv) b) -> (forall b, b ∈ pool_blocks p -> b ∈ pool_blocks p') -> Forall (guest_ok hv p) l -> Forall (guest_ok hv' p') l.
Proof. intros Hh Hs Hl. eapply Forall_impl; [done|]. intros v. by apply guest_ok_has. Qed.

Lemma owned_split l1 l2 v : concat (map owned (l1 ++ v :: l2)) ≡ₚ owned v ++ concat (map owned (l1 ++ l2)).
Proof. rewrite !map_app, !concat_app. cbn. rewrite !app_assoc. f_equiv. apply Permutation_app_comm. Qed.

Lemma world_replace hv host p l1 l2 v v' : world_ok (mk_world hv host p (l1 ++ v :: l2)) -> owned v' = owned v -> (guest_ok hv p v -> guest_ok hv p v') -> world_ok (mk_world hv host p (l1 ++ v' :: l2)).
Proof.
  intros [H1 H0 H2 H3 H4] Ho Hg. cbn in *. assert (E : concat (map owned (l1 ++ v' :: l2)) = concat (map owned (l1 ++ v :: l2))) by (rewrite !map_app; cbn; by rewrite Ho).
  split; cbn; rewrite ?E; try done. rewrite Forall_app, Forall_cons in *. tauto.
Qed.

Lemma made_owned hv hv' v' pages base l : guest_made hv hv' v' pages base l -> owned v' = l.
Proof. intros G. destruct (gm_used _ _ _ _ _ _ G) as (va & Eu & _ & _ & Eb & _). unfold owned. rewrite Eu. cbn. by rewrite Eb, app_nil_r. Qed.

Lemma made_ok hv hv' p v' pages base l : guest_made hv hv' v' pages base l -> guest_ok hv' p v'.
Proof.
  intros G. split; [apply G|apply G|]. destruct (gm_tables _ _ _ _ _ _ G) as (s & Es & B). exists s. split; [done|]. split; [apply (bm_grown _ _ _ _ _ B)|].
  intros ipa pa Hi Ht _. left. rewrite (made_owned _ _ _ _ _ _ G). destruct (bm_only _ _ _ _ _ B ipa Hi) as [E|(pa' & (i & b & Eb & _ & ->) & Ht')].
  - unfold s2_translate in Ht. by rewrite E, empty_walk in Ht.
  - rewrite Ht in Ht'. simplify_eq. replace ((b * MEM_BLOCK_SIZE + ipa mod MEM_BLOCK_SIZE) / MEM_BLOCK_SIZE) with b by (unfold MEM_BLOCK_SIZE; Z.div_mod_to_equations; lia).
    by eapply list_elem_of_lookup_2.
Qed.

Lemma step_create hv hv' host host' p gs v' pages base l : world_ok (mk_world hv host p gs) -> guest_made hv hv' v' pages base l -> world_ok (mk_world hv' host' p (v' :: gs)).
Proof.
  intros [[H1 H1'] H0 H2 H3 H4] G. pose proof (gm_taken _ _ _ _ _ _ G) as T. cbn in *.
  assert (Hp : pool_blocks p ++ concat (map owned (v' :: gs)) ≡ₚ l ++ (pool_blocks p ++ concat (map owned gs))) by (cbn [map concat]; rewrite (made_owned _ _ _ _ _ _ G); solve_Permutation).
  split; cbn [blocks shared guests]; [split; apply T|done| | |].
  - rewrite Hp. apply NoDup_app. split; [apply T|]. split; [|done]. intros b Hb Hb2. apply (bk_new _ _ _ T) in Hb as [Hb _]. by rewrite H3 in Hb.
  - intros b Hb. rewrite Hp in Hb. rewrite (bk_busy _ _ _ T). apply elem_of_app in Hb as [Hb|Hb]; [by rewrite bool_decide_eq_true_2, orb_true_r|by rewrite (H3 b Hb)].
  - apply Forall_cons. split; [by eapply made_ok|]. eapply guests_ok_has; [apply T|done|done].
Qed.

(** Mapping a range of devices or of shared memory. *)
Definition allowed (hv : vmm) (p : pool) (phy size : Z) : Prop := forall pa, phy <= pa < phy + size -> has_in (bs_list hv) (pa / MEM_BLOCK_SIZE) = true -> pa / MEM_BLOCK_SIZE ∈ pool_blocks p.

Lemma map_allowed hv p v vir phy size flags ret v' : guest_ok hv p v -> has_flag flags __VM_HUGE_1G = false -> paged vir -> paged phy -> paged size -> 0 <= vir -> 0 < size -> vir + size <= 2 ^ 40 -> 0 <= phy < 2 ^ 40 ->
  allowed hv p phy size -> __create_guest_mapping flush v vir phy size flags = Ret (ret, v') -> guest_ok hv p v' /\ mm v' = mm v.
Proof.
  intros [H1 H2 (s & Es & Hs & H3)] Hf P1 P2 P3 Hv Hz He Hp Hout E. destruct (create_mapping_ok v s vir phy size flags) as (ret' & s' & mid & E' & G & Hmid & _ & HW); try done. rewrite E in E'. simplify_eq.
  split; [|done]. split; [done|done|]. exists s'. split; [done|]. split; [apply G|]. intros ipa pa Hi Ht Hin. destruct (HW ipa Hi) as [W1 W2]. destruct (decide (vir <= ipa < mid)) as [Hr|Hr].
  - right. rewrite (W1 Hr) in Ht. simplify_eq. apply Hout; [lia|done].
  - apply (H3 ipa); try done. by rewrite <- (translate_walk s s' ipa (W2 Hr)).
Qed.

Lemma upd_const m va g : mm_ok m -> va ∈ vmm_area_used m -> upd_used m (va_id va) (fun _ => g va) = upd_used m (va_id va) g.
Proof.
  intros Hm Hin. unfold upd_used. f_equal. apply map_ext_in. intros a Ha%list_elem_of_In. destruct (Z.eqb_spec (va_id a) (va_id va)) as [Ei|]; [|done]. f_equal.
  pose proof (mo_ids _ Hm) as Hd. unfold areas in Hd. rewrite map_app in Hd. apply NoDup_app in Hd as (_ & _ & Hd).
  apply list_elem_of_lookup in Ha as (i & Hi), Hin as (j & Hj). assert (i = j) as ->; [|congruence].
  apply (NoDup_lookup _ i j (va_id va) Hd); rewrite list_lookup_fmap; [by rewrite Hi; cbn; rewrite Ei|by rewrite Hj].
Qed.

Lemma set_pstart_ok m va p : mm_ok m -> va ∈ vmm_area_used m -> let m' := upd_used m (va_id va) (fun _ => set_pstart p va) in
  mm_ok m' /\ vmm_area_free m' = vmm_area_free m /\ map b_head (vmm_area_used m') = map b_head (vmm_area_used m).
Proof.
  intros Hm Hin. cbv zeta. rewrite (upd_const m va (set_pstart p)) by done. split; [by apply upd_used_ok|]. split; [done|]. unfold upd_used. cbn [vmm_area_used]. rewrite map_map. apply map_ext.
  intros a. by destruct (_ =? _).
Qed.

Lemma share_ok hv p v shmem size zmem ret v' : guest_ok hv p v -> paged shmem -> 0 < size < 2 ^ 40 -> 0 <= shmem < 2 ^ 40 -> allowed hv p shmem (BALIGN size PAGE_SIZE) -> mem_fresh (mm v) zmem ->
  vmbox_map_shmem flush v shmem size zmem = Ret (ret, v') -> guest_ok hv p v' /\ owned v' = owned v.
Proof.
  intros Hg Pp Hs Hp Hout Hfr. unfold vmbox_map_shmem. pose proof Hg as [H1 H2 (s & Es & Hs2 & H3)].
  pose proof (alloc_free_ok (mm v) size PAGE_MASK (Z.lor VM_SHARED VM_GUEST_SHMEM) zmem H1 ltac:(lia) Hfr) as H. cbv zeta in H.
  destruct (alloc_free_vmm_area (mm v) size PAGE_MASK _ zmem) as [[va|] m] eqn:Ea.
  2:{ intros E. destruct H as [-> _]. simplify_eq. destruct v. done. }
  destruct H as (vma & b & Hvma & (F1 & F2 & F3) & Eva & T). apply alloc_shape in Ea as [_ Hn]. specialize (Hn H2). assert (Eb : b_head va = []) by (rewrite Eva; cbn; by apply (proj1 (Forall_forall _ _) H2)). intros ([r v1] & E & Er)%obind_Ret_inv. simplify_eq.
  assert (Hin : taken_from vma b (b + BALIGN size PAGE_SIZE) (Z.lor VM_SHARED VM_GUEST_SHMEM) ∈ vmm_area_used m) by (rewrite (tk_used _ _ _ T); apply elem_of_app; right; by left).
  set (va := taken_from _ _ _ _) in *. assert (Hm : mm_ok m) by apply T. assert (Hao : area_ok va) by (apply (proj1 (Forall_forall _ _) (mo_areas _ Hm)); unfold areas; apply elem_of_app; by right).
  destruct (set_pstart_ok m va shmem Hm Hin) as (Q1 & Q2 & Q3). unfold map_vmm_area in E. change (Z.land (va_flags va) VM_MAP_TYPE_MASK =? VM_MAP_PT) with false in E.
  change (Z.land (va_flags va) VM_MAP_TYPE_MASK =? VM_MAP_BK) with false in E. cbn match in E. unfold vmm_area_map_ln in E. set (v2 := put_area (set_pstart shmem va) (set_mm m v)) in *.
  change (va_start (set_pstart shmem va)) with b in E. change (va_pstart (set_pstart shmem va)) with shmem in E. change (VMA_SIZE (set_pstart shmem va)) with (VMA_SIZE va) in E.
  rewrite VMA_SIZE_ok in E by done. change (va_end va) with (b + BALIGN size PAGE_SIZE) in E. change (va_start va) with b in E. replace (b + BALIGN size PAGE_SIZE - b) with (BALIGN size PAGE_SIZE) in E by lia.
  assert (Hg2 : guest_ok hv p v2 /\ owned v2 = owned v).
  { assert (Ho : owned v2 = owned v) by (unfold owned, v2, put_area; cbn [mm set_mm va_id set_pstart]; rewrite Q3, (tk_used _ _ _ T), map_app, concat_app; cbn [map concat]; rewrite Eb; cbn [app]; by rewrite app_nil_r).
    split; [|done]. split; [exact Q1|exact Hn|]. exists s. split; [done|]. split; [done|]. rewrite Ho. exact H3. }
  destruct Hg2 as [Hg2 Ho2]. destruct Hao as (A1 & A2 & _). cbn [va taken_from va_start va_end] in A1, A2. destruct (PAGE_BALIGN_spec size ltac:(lia)) as [B1 B2]. unfold PAGE_BALIGN in B1, B2.
  destruct (map_allowed hv p v2 b shmem (BALIGN size PAGE_SIZE) (va_flags (set_pstart shmem va)) r v' Hg2 eq_refl) as [Hg' Em]; try done; try lia. split; [done|]. unfold owned in *. by rewrite Em.
Qed.

Lemma mmap_blocks hv host v offset size zmem r hv' host' : vm_mmap flush hv host v offset size zmem = Ret (r, hv', host') -> hv' = hv.
Proof.
  unfold vm_mmap. destruct (alloc_free_vmm_area _ _ _ _ _) as [[va|] m] eqn:Ea; [|by intros [= <- <- <-]]. apply alloc_shape in Ea as [(vma & b & e & _ & ->) _].
  intros ([ret host1] & _ & E)%obind_Ret_inv. destruct (negb _); [|by simplify_eq]. apply obind_Ret_inv in E as ([[r1 m1] hv1] & E & E2). simplify_eq. unfold release_vmm_area in E.
  change (release_vmm_area_memory hv (taken_from vma b e _)) with (Ret (@None freed, taken_from vma b e (Z.lor (Z.lor VM_GUEST_NORMAL VM_SHARED) VM_RW), hv)) in E. cbn [obind] in E.
  apply obind_Ret_inv in E as (m2 & _ & E). by simplify_eq.
Qed.

Lemma give_shmem_ok f : forall p p', pool_ok p -> give_shmem p f = Ret p' -> pool_ok p' /\ pool_blocks p' = pool_blocks p.
Proof.
  induction f as [|[a|a] f IH]; intros p p' Hp; cbn [give_shmem]; [by intros [= <-]|by apply IH|]. intros (p1 & E1 & E2)%obind_Ret_inv. destruct (free_returned p a p1 Hp E1) as [Hp1 Em].
  destruct (IH p1 p' Hp1 E2) as [Hp' Em']. split; [done|congruence].
Qed.

Lemma world_pool hv host host' p p' gs : world_ok (mk_world hv host p gs) -> pool_ok p' -> pool_blocks p' = pool_blocks p -> world_ok (mk_world hv host' p' gs).
Proof.
  intros [H1 H0 H2 H3 H4] Hp' E. cbn in *. split; cbn; rewrite ?E; try done. by eapply guests_ok_has; [| |exact H4]; [|rewrite E].
Qed.

Lemma step_shmem_alloc hv host p gs new hv' p' : world_ok (mk_world hv host p gs) -> pool_ok p' -> blocks_taken hv hv' new -> pool_blocks p' = pool_blocks p ++ new -> world_ok (mk_world hv' host p' gs).
Proof.
  intros [[H1 H1'] H0 H2 H3 H4] Hp' T E. cbn in *. assert (HP : pool_blocks p' ++ concat (map owned gs) ≡ₚ new ++ (pool_blocks p ++ concat (map owned gs))) by (rewrite E; solve_Permutation).
  split; cbn; [split; apply T|done| | |].
  - rewrite HP. apply NoDup_app. split; [apply T|]. split; [|done]. intros b Hb Hb2. apply (bk_new _ _ _ T) in Hb as [Hb _]. by rewrite H3 in Hb.
  - intros b Hb. rewrite HP in Hb. rewrite (bk_busy _ _ _ T). apply elem_of_app in Hb as [Hb|Hb]; [by rewrite bool_decide_eq_true_2, orb_true_r|by rewrite (H3 b Hb)].
  - eapply guests_ok_has; [apply T| |done]. intros b Hb. rewrite E. apply elem_of_app. by left.
Qed.

Lemma step_destroy hv hv' host host' p l1 l2 v v' f : world_ok (mk_world hv host p (l1 ++ v :: l2)) -> release_vm_memory flush hv host v = Ret (f, hv', host', v') -> world_ok (mk_world hv' host' p (l1 ++ l2)).
Proof.
  intros [[H1 H1'] H0 H2 H3 H4] E. cbn in *. apply release_inv in E as ((f1 & E) & _).
  assert (HP : pool_blocks p ++ concat (map owned (l1 ++ v :: l2)) ≡ₚ owned v ++ (pool_blocks p ++ concat (map owned (l1 ++ l2)))) by (rewrite owned_split; solve_Permutation).
  rewrite HP in H2. apply NoDup_app in H2 as (N1 & N2 & N3). assert (Hsub : concat (map returned (vmm_area_used (mm v))) ⊆+ owned v) by apply returned_all.
  destruct (release_areas_ok (vmm_area_used (mm v)) hv H1 H1') as (f2 & hv2 & E2 & B).
  { by eapply NoDup_part. }
  { intros b Hb. apply H3. rewrite HP, elem_of_app. left. by eapply elem_of_submseteq. }
  rewrite E in E2. simplify_eq. split; cbn; [split; apply B|done|done| |].
  - intros b Hb. rewrite (bb_busy _ _ _ B), H3, bool_decide_eq_true_2; [done| |rewrite HP, elem_of_app; by right]. intros Hr. apply (N2 b); [|done]. by eapply elem_of_submseteq.
  - rewrite Forall_app, Forall_cons in *. destruct H4 as (A1 & _ & A2). split; (eapply guests_ok_has; [apply B|done|done]).
Qed.

(** The range of a run of shared memory. *)
Lemma run_allowed hv p sh size : pool_ok p -> sh ∈ shmem_head p -> 0 < size <= 4096 * sh_pages sh -> allowed hv p (4096 * sh_pfn sh) (BALIGN size PAGE_SIZE) /\ 0 <= 4096 * sh_pfn sh < 2 ^ 40 /\ size < 2 ^ 40.
Proof.
  intros Hp Hs Hz. destruct (po_in _ Hp sh Hs) as (_ & sb & Hl & R1 & R2 & R3). pose proof (sk_mb _ _ (po_blocks _ Hp _ _ Hl)) as Hmb. destruct (PAGE_BALIGN_spec size ltac:(lia)) as [B1 B2]. unfold PAGE_BALIGN in B1, B2.
  split; [|lia]. intros pa Hpa _. replace (pa / MEM_BLOCK_SIZE) with (sb_mb sb); [apply list_elem_of_fmap; exists sb; split; [done|]; by eapply list_elem_of_lookup_2|]. unfold MEM_BLOCK_SIZE. unfold paged in *. Z.div_mod_to_equations; lia.
Qed.

Lemma world_step_ok w w' : world_step w w' -> world_ok w -> world_ok w'.
Proof.
  intros Hstep Hw. pose proof (wo_blocks _ Hw) as [Hok Hlow]. pose proof (wo_pool _ Hw) as Hpl. destruct Hstep; cbn [blocks shared] in *.
  - destruct (create_cases _ _ _ _ _ _ _ _ _ _ _ _ _ _ _ _ Hok Hlow H H0 H1 H2 H3 H4 H5) as [[? _]|(v1 & l & Ev & _ & _ & G & _)]; [done|]. simplify_eq. by eapply step_create.
  - destruct (give_shmem_ok _ _ _ Hpl H6) as [Hp' Em]. destruct (create_cases _ _ _ _ _ _ _ _ _ _ _ _ _ _ _ _ Hok Hlow H H0 H1 H2 H3 H4 H5) as [[_ ->]|(v1 & l & Ev & _)]; [|done]. by eapply world_pool.
  - pose proof (wo_guests _ Hw) as Hg. cbn in Hg. rewrite Forall_app, Forall_cons in Hg. destruct (map_allowed hv p v vir phy size flags ret v') as [Hg' Em]; try done; try tauto.
    { intros pa Hpa Hin. by rewrite H7 in Hin. }
    eapply world_replace; [done| |done]. unfold owned. by rewrite Em.
  - assert (Hh : held hv p) by (intros b Hb; apply (wo_busy _ Hw); cbn; apply elem_of_app; by left). destruct (alloc_returned _ _ _ _ _ _ _ _ _ _ Hok Hlow Hpl Hh H H0) as (Hp' & new & T & Em). by eapply step_shmem_alloc.
  - destruct (free_returned _ _ _ Hpl H) as [Hp' Em]. by eapply world_pool.
  - pose proof (wo_guests _ Hw) as Hg. cbn in Hg. rewrite Forall_app, Forall_cons in Hg. destruct (run_allowed hv p sh size Hpl H H0) as (A1 & A2 & A3). assert (Hpg : paged (4096 * sh_pfn sh)) by (unfold paged; by rewrite (Z.mul_comm 4096), Z.mod_mul).
    destruct (share_ok hv p v (4096 * sh_pfn sh) size zmem ret v' (proj1 (proj2 Hg)) Hpg ltac:(lia) A2 A1) as [Hg' Em]; [done|done|]. by eapply world_replace.
  - apply mmap_blocks in H0 as ->. by eapply world_pool.
  - destruct (give_shmem_ok _ _ _ Hpl H0) as [Hp' Em]. eapply world_pool; [by eapply step_destroy|done|done].
Qed.

Lemma owned_disjoint l i j a b x : NoDup (concat (map owned l)) -> l !! i = Some a -> l !! j = Some b -> x ∈ owned a -> x ∈ owned b -> i = j.
Proof.
  revert i j. induction l as [|v l IH]; intros i j Hd Hi Hj Ha Hb; [done|]. cbn in Hd. apply NoDup_app in Hd as (_ & Hn & Hd).
  assert (Hin : forall k c, l !! k = Some c -> x ∈ owned c -> x ∈ concat (map owned l)).
  { intros k c Hk Hc. apply list_elem_of_In, in_concat. exists (owned c). split; apply list_elem_of_In; [|done]. apply list_elem_of_fmap. exists c. split; [done|]. by eapply list_elem_of_lookup_2. }
  destruct i as [|i], j as [|j]; cbn in Hi, Hj; simplify_eq; [done| | |].
  - destruct (Hn x Ha). by eapply Hin.
  - destruct (Hn x Hb). by eapply Hin.
  - f_equal. by apply IH.
Qed.

Lemma owned_in l i a b : l !! i = Some a -> b ∈ owned a -> b ∈ concat (map owned l).
Proof. intros Hi Hb. apply list_elem_of_In, in_concat. exists (owned a). split; apply list_elem_of_In; [|done]. apply list_elem_of_fmap. exists a. split; [done|]. by eapply list_elem_of_lookup_2. Qed.

Lemma world_reach_ok hv host w : vmm_ok hv -> low hv -> rtc world_step (mk_world hv host (mk_pool [] []) []) w -> world_ok w.
Proof.
  intros Hok Hlow Hr. assert (H0 : world_ok (mk_world hv host (mk_pool [] []) [])).
  { split; cbn; [done|split; cbn; [lia|done|by apply NoDup_nil|intros sh Hs; inversion Hs|done]|by apply NoDup_nil|intros b Hb; inversion Hb|constructor]. }
  clear -Hr H0. induction Hr as [|w1 w2 w3 Hs _ IH]; [done|]. by apply IH, (world_step_ok w1).
Qed.

(** C8: Guests are isolated on a machine whose guest memory is below 4 GB ([low]): whatever guests
    have been created, given devices and shared memory, mapped into [vm0] or destroyed, and whatever
    shared memory has been allocated and freed, the memory of virtual machines that a guest can reach is
    in use; and either it is in a block of the pool of shared memory, which is no guest's own, or it
    belongs to this guest and is out of reach of every other guest.  Blocks above 4 GB break this, see
    [high_block_frees_another]. *)
Theorem guest_isolation hv host w i a sa x pa : vmm_ok hv -> low hv -> rtc world_step (mk_world hv host (mk_pool [] []) []) w ->
  guests w !! i = Some a -> pgdp a = Some sa -> 0 <= x < 2 ^ 40 -> s2_translate sa x = Some pa -> has_in (bs_list (blocks w)) (pa / MEM_BLOCK_SIZE) = true ->
  busy (blocks w) (pa / MEM_BLOCK_SIZE) = true /\
  (pa / MEM_BLOCK_SIZE ∈ pool_blocks (shared w) /\ (forall j b, guests w !! j = Some b -> pa / MEM_BLOCK_SIZE ∉ owned b) \/
   pa / MEM_BLOCK_SIZE ∈ owned a /\
   forall j b sb y pb, guests w !! j = Some b -> j <> i -> pgdp b = Some sb -> 0 <= y < 2 ^ 40 -> s2_translate sb y = Some pb -> pb / MEM_BLOCK_SIZE <> pa / MEM_BLOCK_SIZE).
Proof.
  intros Hok Hlow Hr Hi Es Hx Ht Hin. destruct (world_reach_ok hv host w Hok Hlow Hr) as [_ _ H2 H3 H4]. apply NoDup_app in H2 as (_ & N & H2).
  pose proof (Forall_lookup_1 _ _ _ _ H4 Hi) as [_ _ (s & Es' & _ & Hp)]. simplify_eq. destruct (Hp x pa Hx Ht Hin) as [Ho|Ho]; (split; [apply H3, elem_of_app|]).
  - right. by eapply owned_in.
  - right. split; [done|]. intros j b sb y pb Hj Hne Eb Hy Hty Heq. pose proof (Forall_lookup_1 _ _ _ _ H4 Hj) as [_ _ (s & Es'' & _ & Hpb)]. simplify_eq. apply Hne.
    destruct (Hpb y pb Hy Hty ltac:(by rewrite Heq)) as [Hb|Hb]; rewrite Heq in Hb; [by apply (owned_disjoint _ j i b a (pa / MEM_BLOCK_SIZE) H2 Hj Hi)|]. destruct (N _ Hb). by apply (owned_in _ i a).
  - by left.
  - left. split; [done|]. intros j b Hj Hb. apply (N _ Ho). by eapply owned_in.
Qed.

(** ** [vm0] and the memory of a guest *)

(** The blocks [l] are what the guest sees from [offset] on; none is at physical address 0. *)
Definition backed (s : s2) (offset : Z) (l : list Z) : Prop :=
  Forall (fun b => 0 < b < 2048) l /\ forall va pa, in_block offset l va pa -> s2_translate s va = Some pa.

Lemma backed_next s offset b l : backed s offset (b :: l) -> backed s (offset + MEM_BLOCK_SIZE) l.
Proof. intros [H1 H2]. apply Forall_cons in H1 as [_ H1]. split; [done|]. intros va pa H. by apply H2, in_block_next. Qed.

Lemma backed_translate v s offset b l : pgdp v = Some s -> s2_ok s -> s2_plain s -> backed s offset (b :: l) -> offset mod MEM_BLOCK_SIZE = 0 -> 0 <= offset < 2 ^ 40 ->
  translate_guest_ipa v offset = Ret (inr (b * MEM_BLOCK_SIZE)).
Proof.
  intros Es Hok Hpl [Hb Ht] Ha Ho. apply Forall_cons in Hb as [Hb _]. specialize (Ht offset (b * MEM_BLOCK_SIZE + (offset - offset)) ltac:(apply in_block_here; [done|unfold MEM_BLOCK_SIZE; lia])).
  replace (b * MEM_BLOCK_SIZE + (offset - offset)) with (b * MEM_BLOCK_SIZE) in Ht by lia. unfold translate_guest_ipa. rewrite Es, translate_ok; try done; [by rewrite Ht|by apply plain_no_giga|].
  intros d Ew. unfold s2_translate in Ht. rewrite Ew in Ht. cbn in Ht. intros E0. rewrite E0 in Ht. apply (inj Some) in Ht. change (2 ^ 12) with 4096 in Ht. unfold MEM_BLOCK_SIZE in *. Z.div_mod_to_equations. lia.
Qed.

Lemma mmap_loop_ok v s l : pgdp v = Some s -> s2_ok s -> s2_plain s -> forall host s0 base offset fuel, pgdp host = Some s0 -> s2_ok s0 -> backed s offset l ->
  base mod MEM_BLOCK_SIZE = 0 -> offset mod MEM_BLOCK_SIZE = 0 -> 0 <= base -> 0 <= offset -> base + MEM_BLOCK_SIZE * Z.of_nat (length l) <= 2 ^ 40 -> offset + MEM_BLOCK_SIZE * Z.of_nat (length l) <= 2 ^ 40 ->
  (length l < fuel)%nat ->
  exists ret s1, mmap_loop flush fuel v host base offset (MEM_BLOCK_SIZE * Z.of_nat (length l)) = Ret (ret, set_pgdp (Some s1) host) /\ blocks_mapped s0 s1 base l ret.
Proof.
  intros Es Hok Hpl. induction l as [|b l IH]; intros host s0 base offset [|fuel] E0 Hok0 Hbk A1 A2 Hb Ho He1 He2 Hf; cbn [length mmap_loop] in *; try lia.
  { exists 0, s0. assert (host = set_pgdp (Some s0) host) as <- by (destruct host; cbn in *; by subst). split; [done|]. by apply blocks_nil. }
  rewrite (proj2 (Z.leb_gt _ 0)) by (unfold MEM_BLOCK_SIZE; lia). rewrite (backed_translate v s offset b l) by (try done; unfold MEM_BLOCK_SIZE in *; lia). cbn [obind]. unfold create_guest_mapping.
  pose proof (proj1 Hbk) as Hbb. apply Forall_cons in Hbb as [Hb0 _].
  destruct (create_mapping_ok host s0 base (b * MEM_BLOCK_SIZE) MEM_BLOCK_SIZE (Z.lor VM_NORMAL VM_RW) E0 Hok0) as (ret & s1 & mid & -> & G & Hmid & Hret & HW); try done; try (unfold paged, MEM_BLOCK_SIZE in *; Z.div_mod_to_equations; lia).
  cbn [obind]. destruct (Z.eqb_spec ret 0) as [->|Nr]; cbn [negb].
  2:{ exists ret, s1. split; [done|]. by apply (blocks_stop s0 s1 base mid). }
  rewrite (Hret eq_refl) in *. rewrite (wrap_small 64 (base + _)), (wrap_small 64 (offset + _)), wrap_small by (unfold MEM_BLOCK_SIZE in *; lia).
  replace (MEM_BLOCK_SIZE * Z.of_nat (S (length l)) - MEM_BLOCK_SIZE) with (MEM_BLOCK_SIZE * Z.of_nat (length l)) by lia.
  destruct (IH (set_pgdp (Some s1) host) s1 (base + MEM_BLOCK_SIZE) (offset + MEM_BLOCK_SIZE) fuel) as (ret & s2 & -> & B); try done; try (unfold MEM_BLOCK_SIZE in *; Z.div_mod_to_equations; lia).
  { apply G. }
  { by eapply backed_next. }
  exists ret, s2. split; [done|]. apply (blocks_cons s0 s1); try done. unfold MEM_BLOCK_SIZE in *; lia.
Qed.

(** C19: [vm_mmap] shows [vm0] the memory of a guest and nothing else: when it succeeds on a range of the
    guest that is mapped by whole 2 MB blocks below 4 GB ([backed]), with no 1 GB block in the guest's
    tables, every address of the new area of [vm0] is translated to where the guest's address is
    translated to, the area was free before, and the translation of all other addresses of [vm0] stays as
    it was.  The code maps 2 MB at a time, so memory that the guest has by pages is outside this. *)
Theorem mmap_shows_guest hv host v s s0 offset l zmem va hv' host' : mm_ok (mm host) -> pgdp host = Some s0 -> s2_ok s0 -> pgdp v = Some s -> s2_ok s -> s2_plain s -> backed s offset l ->
  offset mod MEM_BLOCK_SIZE = 0 -> 0 <= offset -> offset + MEM_BLOCK_SIZE * Z.of_nat (length l) <= 2 ^ 40 -> mem_fresh (mm host) zmem ->
  vm_mmap flush hv host v offset (MEM_BLOCK_SIZE * Z.of_nat (length l)) zmem = Ret (Some va, hv', host') ->
  exists s1, pgdp host' = Some s1 /\ hv' = hv /\ va_vmid va = vmid v /\ va_end va = va_start va + MEM_BLOCK_SIZE * Z.of_nat (length l) /\
    (forall x, va_start va <= x < va_end va -> cover (vmm_area_free (mm host)) x = 1 /\ s2_translate s1 x = s2_translate s (offset + (x - va_start va)) /\ is_Some (s2_translate s1 x)) /\
    (forall x, 0 <= x < 2 ^ 40 -> ~ va_start va <= x < va_end va -> s2_walk s1 x = s2_walk s0 x).
Proof.
  intros Hm E0 Hok0 Es Hok Hpl Hbk Ha Ho He Hfr. set (size := MEM_BLOCK_SIZE * Z.of_nat (length l)) in *. assert (Hsz : 0 <= size <= 2 ^ 40) by (unfold size, MEM_BLOCK_SIZE in *; lia). unfold vm_mmap.
  pose proof (alloc_free_ok (mm host) size BLOCK_MASK (Z.lor (Z.lor VM_GUEST_NORMAL VM_SHARED) VM_RW) zmem Hm ltac:(lia) Hfr) as H. cbv zeta in H. rewrite Z.eqb_refl in H.
  destruct (alloc_free_vmm_area (mm host) size BLOCK_MASK _ zmem) as [[va1|] m]; [|done]. destruct H as (vma & b & Hvma & (F1 & F2 & F3) & Eva & T).
  assert (Eb : BALIGN size PAGE_SIZE = size).
  { change PAGE_SIZE with (2 ^ 12). rewrite BALIGN_pow2 by lia. unfold size, MEM_BLOCK_SIZE. change (2 ^ 12) with 4096. Z.div_mod_to_equations. lia. }
  rewrite Eb in *. assert (Hao : area_ok va1).
  { apply (proj1 (Forall_forall _ _) (mo_areas _ (tk_ok _ _ _ T))). unfold areas. rewrite (tk_used _ _ _ T), !elem_of_app. right. right. by left. }
  subst va1. destruct Hao as (A1 & A2 & _). cbn [taken_from va_start va_end] in *. unfold do_vm_mmap. change (2 ^ 21) with MEM_BLOCK_SIZE in F1. rewrite !IS_BLOCK_ALIGN_spec. change BLOCK_SIZE with MEM_BLOCK_SIZE.
  assert (Hsm : size mod MEM_BLOCK_SIZE = 0) by (unfold size; rewrite Z.mul_comm; by apply Z.mod_mul). rewrite Ha, F1, Hsm. cbn [Z.eqb negb orb].
  replace (Z.to_nat (size / MEM_BLOCK_SIZE)) with (length l) by (unfold size; rewrite Z.mul_comm, Z.div_mul by done; lia).
  destruct (mmap_loop_ok v s l Es Hok Hpl (set_mm m host) s0 b offset (S (length l)) E0 Hok0 Hbk) as (ret & s1 & Em & B); try done; try lia. fold size in Em. rewrite Em. cbn [obind].
  destruct (Z.eqb_spec ret 0) as [->|]; cbn [negb]; intros E; [|apply obind_Ret_inv in E as ([? ?] & _ & E); by simplify_eq]. simplify_eq. exists s1. split; [done|]. split; [done|]. split; [done|].
  cbn [set_vmid taken_from va_start va_end]. split; [done|]. split.
  - intros x Hx. pose proof (tk_free _ _ _ T x) as Hc. pose proof (mo_once _ Hm x) as Hc1. unfold areas in Hc1. rewrite cover_app in Hc1. pose proof (cover_nonneg (vmm_area_free m) x).
    pose proof (cover_nonneg (vmm_area_used (mm host)) x). unfold inside in Hc. cbn [taken_from va_start va_end] in Hc. rewrite (proj2 (Z.leb_le b x)), (proj2 (Z.ltb_lt x _)) in Hc by lia. cbn in Hc. split; [lia|].
    set (i := Z.to_nat ((x - b) / MEM_BLOCK_SIZE)). destruct (lookup_lt_is_Some_2 l i) as (c & Ec); [unfold i, size, MEM_BLOCK_SIZE in *; Z.div_mod_to_equations; lia|].
    assert (Hi : in_block b l x (c * MEM_BLOCK_SIZE + x mod MEM_BLOCK_SIZE)) by (exists i, c; split; [done|]; split; [unfold i, MEM_BLOCK_SIZE in *; Z.div_mod_to_equations; lia|done]).
    assert (Hg : in_block offset l (offset + (x - b)) (c * MEM_BLOCK_SIZE + x mod MEM_BLOCK_SIZE)).
    { exists i, c. split; [done|]. split; [unfold i, MEM_BLOCK_SIZE in *; Z.div_mod_to_equations; lia|]. f_equal. unfold MEM_BLOCK_SIZE in *. Z.div_mod_to_equations. lia. }
    rewrite (bm_all _ _ _ _ _ B eq_refl _ _ Hi), (proj2 Hbk _ _ Hg). done.
  - intros x Hx Hn. destruct (bm_only _ _ _ _ _ B x Hx) as [Ew|(pa & Hi & _)]; [done|]. apply in_block_range in Hi. by destruct Hn.
Qed.

(** ** Native virtual machines *)

(** An area that is mapped as a range of pages. *)
Definition linear (va : vmm_area) : Prop :=
  paged (va_start va) /\ paged (va_end va) /\ 0 <= va_start va < va_end va /\ va_end va <= 2 ^ 40 /\ Z.land (va_flags va) VM_MAP_TYPE_MASK <> VM_MAP_BK /\ has_flag (va_flags va) __VM_HUGE_1G = false.

Definition same_or_self (s s' : s2) : Prop := forall x, 0 <= x < 2 ^ 40 -> s2_walk s' x = s2_walk s x \/ s2_translate s' x = Some x.

Lemma map_self_ok v s va : pgdp v = Some s -> s2_ok s -> linear va ->
  exists ret s' m, map_vmm_area flush v va (va_start va) = Ret (ret, mk_vm (vmid v) (native v) m (Some s')) /\ grown s s' /\ same_or_self s s' /\
    (ret = 0 -> forall x, va_start va <= x < va_end va -> s2_translate s' x = Some x) /\ vmm_area_free m = vmm_area_free (mm v).
Proof.
  intros Es Hok (P1 & P2 & Hr & He & Hb & Hg). unfold map_vmm_area. rewrite (proj2 (Z.eqb_neq _ VM_MAP_BK)) by done. set (va' := set_pstart (va_start va) va). set (v1 := put_area va' v).
  assert (E : forall b : bool, (if b then vmm_area_map_ln flush v1 va' else vmm_area_map_ln flush v1 va') = vmm_area_map_ln flush v1 va') by (by intros []). rewrite E. clear E.
  unfold vmm_area_map_ln. change (VMA_SIZE va') with (u64 (va_end va - va_start va)). rewrite wrap_small by lia. change (va_pstart va') with (va_start va). change (va_flags va') with (va_flags va). change (va_start va') with (va_start va).
  destruct (create_mapping_ok v1 s (va_start va) (va_start va) (va_end va - va_start va) (va_flags va)) as (ret & s' & mid & -> & G & Hmid & Hret & HW); try done; try lia.
  { unfold paged in *. Z.div_mod_to_equations. lia. }
  eexists ret, s', _. split; [done|]. split; [done|]. split; [|split; [|done]].
  - intros x Hx. destruct (HW x Hx) as [W1 W2]. destruct (decide (va_start va <= x < mid)) as [Hx1|Hx1]; [right|left; by apply W2]. rewrite (W1 Hx1). f_equal. lia.
  - intros H0 x Hx. rewrite (proj1 (HW x ltac:(lia))); [f_equal; lia|]. rewrite (Hret H0). lia.
Qed.

Lemma map_native_ok l : forall v s, pgdp v = Some s -> s2_ok s -> Forall (fun va => Z.land (va_flags va) VM_NORMAL <> 0 -> linear va) l ->
  exists ret s' m, map_native flush v l = Ret (ret, mk_vm (vmid v) (native v) m (Some s')) /\ grown s s' /\ same_or_self s s' /\
    (ret = 0 -> forall va x, va ∈ l -> Z.land (va_flags va) VM_NORMAL <> 0 -> va_start va <= x < va_end va -> s2_translate s' x = Some x).
Proof.
  induction l as [|va l IH]; intros v s Es Hok Hl; cbn [map_native].
  { exists 0, s, (mm v). split; [destruct v; cbn in *; by subst|]. split; [by apply grown_refl|]. split; [by left|]. intros _ va x Hva. inversion Hva. }
  apply Forall_cons in Hl as [Hva Hl]. destruct (Z.eqb_spec (Z.land (va_flags va) VM_NORMAL) 0) as [E|E].
  { destruct (IH v s Es Hok Hl) as (ret & s' & m & -> & G & HS & HA). exists ret, s', m. do 3 (split; [done|]). intros H0 a x [->|Ha]%elem_of_cons; [done|]. by apply HA. }
  destruct (map_self_ok v s va Es Hok (Hva E)) as (ret & s1 & m1 & -> & G1 & HS1 & HA1 & _). cbn [obind]. destruct (Z.eqb_spec ret 0) as [->|Nr]; cbn [negb].
  2:{ exists ret, s1, m1. by do 3 (split; [done|]). }
  destruct (IH (mk_vm (vmid v) (native v) m1 (Some s1)) s1 eq_refl (gr_ok _ _ G1) Hl) as (ret & s' & m & -> & G & HS & HA). exists ret, s', m. split; [done|]. split; [by eapply grown_trans|]. split.
  - intros x Hx. destruct (HS x Hx) as [E1|]; [|by right]. destruct (HS1 x Hx) as [E2|E2]; [left; congruence|right]. by rewrite (translate_walk s1 s').
  - intros H0 a x [->|Ha]%elem_of_cons Hf Hx; [|by apply (HA H0 a)]. destruct (Hva E) as (_ & _ & ? & ? & _). destruct (HS x ltac:(lia)) as [E1|]; [|done]. rewrite (translate_walk s1 s') by done. by apply HA1.
Qed.

(** [vm_mm_init] gives a native virtual machine the memory of the machine: when it succeeds, every
    address of every area of normal memory is translated to itself, and an address that is not
    translated to itself is as it was before. *)
Theorem native_memory_identity v s v' ret : pgdp v = Some s -> s2_ok s -> Forall (fun va => Z.land (va_flags va) VM_NORMAL <> 0 -> linear va) (vmm_area_used (mm v)) ->
  vm_mm_init flush v false = Ret (ret, v') -> exists s', pgdp v' = Some s' /\ s2_ok s' /\ same_or_self s s' /\
    (ret = 0 -> forall va x, va ∈ vmm_area_used (mm v) -> Z.land (va_flags va) VM_NORMAL <> 0 -> va_start va <= x < va_end va -> s2_translate s' x = Some x).
Proof.
  intros Es Hok Hl. unfold vm_mm_init. destruct (map_native_ok (vmm_area_used (mm v)) v s Es Hok Hl) as (r & s' & m & -> & G & HS & HA). cbn [obind].
  destruct (Z.eqb_spec r 0) as [->|Nr]; cbn [negb]; intros E; simplify_eq; exists s'; (split; [done|]); (split; [apply G|]); split; done.
Qed.
End proofs.

(** ** Copying whole pages *)

Section copying.
Context (guest_va_to_pa : Z -> Z) (byte : Z -> Z).
Hypothesis pages_whole : forall va o, paged va -> 0 <= o < 4096 -> guest_va_to_pa (va + o) = guest_va_to_pa va + o.

Lemma copy_loop_ok fuel : forall start left, paged start -> 0 <= start -> 0 <= left -> start + left <= 2 ^ 48 -> left / 4096 + 1 < Z.of_nat fuel ->
  copy_loop guest_va_to_pa (fun _ => 0) byte fuel start left = Ret (0, map (fun i => byte (guest_va_to_pa (start + i))) (seqZ 0 left)).
Proof using pages_whole.
  induction fuel as [|fuel IH]; intros start left Ps Hs Hl He Hf; [Z.div_mod_to_equations; lia|]. cbn [copy_loop]. destruct (Z.leb_spec left 0) as [H0|H0]; [by replace left with 0 by lia|].
  replace (PAGE_BALIGN start - PAGE_ALIGN start) with 0.
  2:{ unfold PAGE_BALIGN, PAGE_ALIGN. change PAGE_SIZE with (2 ^ 12). rewrite BALIGN_pow2, ALIGN_pow2 by lia. unfold paged in Ps. change (2 ^ 12) with 4096. Z.div_mod_to_equations. lia. }
  cbn [Z.eqb negb]. change (u64 0) with 0. cbn [Z.eqb]. set (c := if left <? PAGE_SIZE then left else PAGE_SIZE). assert (Hc : 0 < c <= 4096 /\ c <= left /\ (c < 4096 -> c = left)) by (unfold c, PAGE_SIZE; case_bools; lia).
  assert (Hd : map (fun i => byte (guest_va_to_pa start + i)) (seqZ 0 c) = map (fun i => byte (guest_va_to_pa (start + i))) (seqZ 0 c)).
  { apply map_ext_in. intros i [H1 H2]%list_elem_of_In%elem_of_seqZ. by rewrite pages_whole by (try done; lia). }
  rewrite (wrap_small 64) by lia. destruct (decide (c = left)) as [E|E].
  - rewrite Hd, E, Z.sub_diag. destruct fuel as [|fuel]; [Z.div_mod_to_equations; lia|]. cbn [copy_loop Z.leb Z.compare obind]. by rewrite app_nil_r.
  - assert (c = 4096) by lia. rewrite IH; [|unfold paged in *; Z.div_mod_to_equations; lia|lia|lia|lia|Z.div_mod_to_equations; lia]. cbn [obind]. rewrite Hd. do 2 f_equal.
    replace left with (c + (left - c)) at 2 by lia. rewrite seqZ_app, map_app by lia. f_equal. rewrite Z.add_0_l.
    replace (seqZ c (left - c)) with (map (Z.add c) (seqZ 0 (left - c))) by (etransitivity; [apply (fmap_add_seqZ c 0)|]; f_equal; lia). rewrite map_map. apply map_ext. intros i. do 2 f_equal. lia.
Qed.

(** [copy_from_guest] copies what the guest has at the addresses it names, when it starts at a page. *)
Lemma copy_from_guest_ok src size : paged src -> 0 <= src -> 0 <= size -> src + size <= 2 ^ 48 ->
  copy_from_guest guest_va_to_pa (fun _ => 0) byte src size = Ret (0, map (fun i => byte (guest_va_to_pa (src + i))) (seqZ 0 size)).
Proof using pages_whole. intros. apply copy_loop_ok; try done. change PAGE_SIZE with 4096. Z.div_mod_to_equations. lia. Qed.
End copying.

(** ** A guest with two blocks *)

Definition demo_vm (id : Z) (start end_ : Z) (pages : list Z) : vm := mk_vm id false (mk_mm [mk_va 1 start end_ BAD_ADDRESS 0 0 []] []) (Some (empty_tables pages)).
Definition demo_host : vm := demo_vm 0 0 (2 ^ 40) [0x200000; 0x201000; 0x202000; 0x203000].
Definition demo_new : vm := mk_vm 5 false (mk_mm [] []) None.

Definition demo_create (n : Z) : outcome (option vm * list freed * vmm * vm) :=
  create_guest_memory None demo_vmm demo_host demo_new true 0x300000 [0x100000; 0x101000] 11 0x40000000 n 12 13 (fun _ _ => true).

Definition demo_guest : vm := match demo_create 0x400000 with Ret (Some v, _, _, _) => v | _ => demo_new end.
Definition demo_blocks : vmm := match demo_create 0x400000 with Ret (_, _, hv, _) => hv | _ => demo_vmm end.

Lemma demo_created : demo_create 0x400000 = Ret (Some demo_guest, [], demo_blocks, demo_host).
Proof. vm_compute. reflexivity. Qed.

Lemma demo_records : records_ok 11 12 13.
Proof. done. Qed.

Lemma demo_pages_ok : Forall page_ok [0x100000; 0x101000].
Proof. by repeat constructor. Qed.

Lemma guest_memory_exact_witness : exists v' s hv', demo_create 0x400000 = Ret (Some v', [], hv', demo_host) /\ pgdp v' = Some s /\ is_Some (s2_translate s 0x40200123) /\ s2_translate s 0x40400000 = None.
Proof.
  destruct demo_vmm_ok as [Hok Hlow].
  destruct (guest_memory_exact None demo_vmm demo_host demo_new true 0x300000 [0x100000; 0x101000] 11 0x40000000 2 12 13 (fun _ _ => true) Hok Hlow eq_refl ltac:(done) demo_pages_ok demo_records)
    as (v' & s & l & hv' & E & Es & Hl & _ & _ & _ & HT); [done|done|reflexivity|lia|by vm_compute|by vm_compute|done|cbn; lia|reflexivity|].
  exists v', s, hv'. split; [exact E|]. split; [exact Es|]. rewrite (HT 0x40200123 ltac:(lia)), (HT 0x40400000 ltac:(lia)). split; [|done]. change (is_Some ((fun b => b * MEM_BLOCK_SIZE + 0x40200123 mod MEM_BLOCK_SIZE) <$> l !! 1%nat)).
  destruct (lookup_lt_is_Some_2 l 1 ltac:(lia)) as (b & ->). by eexists.
Defined.

Lemma demo_made : exists l, guest_made demo_vmm demo_blocks demo_guest [0x100000; 0x101000] 0x40000000 l /\ length l = 2%nat.
Proof.
  destruct demo_vmm_ok as [Hok Hlow]. pose proof demo_created as E. unfold demo_create in E.
  destruct (create_cases None demo_vmm demo_host demo_new true 0x300000 [0x100000; 0x101000] 11 0x40000000 0x400000 12 13 (fun _ _ => true) (Some demo_guest) [] demo_blocks demo_host Hok Hlow eq_refl demo_pages_ok demo_records ltac:(lia) ltac:(lia) ltac:(lia) E) as [[? _]|(v' & l & Ev & _ & _ & G & Hs & _)]; [done|].
  apply (inj Some) in Ev. rewrite <- Ev in G. exists l. split; [done|]. unfold MEM_BLOCK_SIZE in Hs. lia.
Qed.

Lemma guest_release_restores_witness : exists f' hv2 v2, release_vm_memory None demo_blocks demo_host demo_guest = Ret (f', hv2, demo_host, v2) /\ forall b, busy hv2 b = busy demo_vmm b.
Proof.
  destruct demo_vmm_ok as [Hok Hlow]. pose proof demo_created as E. unfold demo_create in E.
  destruct (guest_release_restores None demo_vmm demo_host demo_new true 0x300000 [0x100000; 0x101000] 11 0x40000000 0x400000 12 13 (fun _ _ => true) demo_guest [] demo_blocks demo_host
    Hok Hlow eq_refl demo_pages_ok demo_records ltac:(lia) ltac:(lia) ltac:(lia) ltac:(constructor) E) as (f' & hv2 & v2 & _ & _ & _ & Er & Hb & _).
  exists f', hv2, v2. split; [exact Er|exact Hb].
Defined.

#[local] Existing Instance shift_numbers.

Definition demo_world : world := mk_world demo_blocks demo_host (mk_pool [] []) [demo_guest].

Lemma demo_world_reach : rtc (world_step None) (mk_world demo_vmm demo_host (mk_pool [] []) []) demo_world.
Proof.
  apply rtc_once. eapply (ws_create None demo_vmm demo_host _ [] demo_new); [reflexivity|exact demo_pages_ok|exact demo_records|..|exact demo_created]; lia.
Qed.

Definition demo_tables_of (v : vm) : s2 := default (empty_tables []) (pgdp v).

Lemma demo_guest_sees : s2_translate (demo_tables_of demo_guest) 0x40000123 = Some 0x40200123 /\ has_in (bs_list demo_blocks) 513 = true.
Proof. vm_compute. done. Qed.

Lemma demo_guest_tables : pgdp demo_guest = Some (demo_tables_of demo_guest).
Proof. vm_compute. reflexivity. Qed.

Lemma guest_isolation_witness : busy demo_blocks 513 = true /\ 513 ∈ owned demo_guest.
Proof.
  destruct demo_vmm_ok as [Hok Hlow]. destruct demo_guest_sees as [H1 H2].
  destruct (guest_isolation None demo_vmm demo_host demo_world 0 demo_guest (demo_tables_of demo_guest) 0x40000123 0x40200123 Hok Hlow demo_world_reach eq_refl demo_guest_tables ltac:(lia) H1 H2) as (Hb & [[Ho _]|[Ho _]]).
  - inversion Ho.
  - split; [exact Hb|exact Ho].
Defined.

(** The memory that a guest got when it was created can be shown to [vm0]. *)
Lemma made_backed hv hv' v' pages base l s : guest_made hv hv' v' pages base l -> Forall (fun b => 0 < b < 2048) l -> pgdp v' = Some s -> backed s base l /\ s2_ok s /\ s2_plain s.
Proof.
  intros G Hl Es. destruct (gm_tables _ _ _ _ _ _ G) as (s' & Es' & B). simplify_eq. pose proof (bm_grown _ _ _ _ _ B) as Gr. split; [split; [done|by apply B]|]. split; [apply Gr|].
  apply Gr, Forall_replicate. done.
Qed.

Definition demo_mmap (host v : vm) (offset size : Z) : outcome (option vmm_area * vmm * vm) := vm_mmap None demo_blocks host v offset size (fun _ => (21, 22)).
Definition demo_shown : vm := match demo_mmap demo_host demo_guest 0x40000000 0x400000 with Ret (_, _, h) => h | _ => demo_host end.
Definition demo_area : vmm_area := mk_va 1 0 0x400000 BAD_ADDRESS (Z.lor (Z.lor VM_GUEST_NORMAL VM_SHARED) VM_RW) 5 [].

Lemma demo_mmapped : demo_mmap demo_host demo_guest 0x40000000 0x400000 = Ret (Some demo_area, demo_blocks, demo_shown).
Proof. vm_compute. reflexivity. Qed.

Lemma demo_has b : has_in (bs_list demo_vmm) b = true -> 512 <= b < 576.
Proof. change (has_in (bs_list demo_vmm) b) with ((512 <=? b) && (b <? 576) || false). intros H. bool_hyps; lia. Qed.

Lemma demo_backed : exists l, length l = 2%nat /\ backed (demo_tables_of demo_guest) 0x40000000 l /\ s2_ok (demo_tables_of demo_guest) /\ s2_plain (demo_tables_of demo_guest).
Proof.
  destruct demo_made as (l & G & Hl). exists l. split; [done|]. eapply made_backed; [exact G| |exact demo_guest_tables]. apply Forall_forall. intros b Hb.
  apply (bk_new _ _ _ (gm_taken _ _ _ _ _ _ G)) in Hb as [_ Hb]. apply demo_has in Hb. lia.
Qed.

Lemma mmap_shows_guest_witness : exists s1, pgdp demo_shown = Some s1 /\ s2_translate s1 0x123 = s2_translate (demo_tables_of demo_guest) 0x40000123.
Proof.
  destruct demo_backed as (l & Hl & Hb & Hok & Hpl). destruct (mm_reach_ok _ _ demo_mm_reach) as [Hm _]. pose proof demo_mmapped as E. unfold demo_mmap in E.
  assert (Esz : MEM_BLOCK_SIZE * Z.of_nat (length l) = 0x400000) by (rewrite Hl; reflexivity). rewrite <- Esz in E.
  destruct (mmap_shows_guest None demo_blocks demo_host demo_guest (demo_tables_of demo_guest) (empty_tables [0x200000; 0x201000; 0x202000; 0x203000]) 0x40000000 l (fun _ => (21, 22)) demo_area demo_blocks demo_shown
    Hm eq_refl ltac:(apply empty_tables_ok; by repeat constructor) demo_guest_tables Hok Hpl Hb eq_refl ltac:(lia) ltac:(rewrite Esz; lia)) as (s1 & Es1 & _ & _ & _ & HT & _).
  - intros k. split; [|split]; [right; cbn; by rewrite list_elem_of_singleton|right; cbn; by rewrite list_elem_of_singleton|done].
  - exact E.
  - exists s1. split; [exact Es1|]. apply (HT 0x123). cbn. lia.
Defined.

(** A native virtual machine with 4 MB. *)
Definition demo_native : vm := mk_vm 1 true (mk_mm [] [mk_va 3 0x80000000 0x80400000 BAD_ADDRESS VM_NATIVE_NORMAL 0 []]) (Some (empty_tables [0x100000; 0x101000])).
Definition demo_running : vm := match vm_mm_init None demo_native false with Ret (_, v) => v | _ => demo_native end.

Lemma demo_native_init : vm_mm_init None demo_native false = Ret (0, demo_running).
Proof. vm_compute. reflexivity. Qed.

Lemma native_memory_identity_witness : exists s', pgdp demo_running = Some s' /\ s2_translate s' 0x80345678 = Some 0x80345678.
Proof.
  destruct (native_memory_identity None demo_native (empty_tables [0x100000; 0x101000]) demo_running 0 eq_refl (empty_tables_ok _ demo_pages_ok)) as (s' & Es & _ & _ & HT).
  - apply Forall_singleton. intros _. split_and!; done.
  - exact demo_native_init.
  - exists s'. split; [exact Es|]. apply (HT eq_refl (mk_va 3 0x80000000 0x80400000 BAD_ADDRESS VM_NATIVE_NORMAL 0 [])); [by left|done|cbn; lia].
Defined.

(** ** What the code does otherwise *)

(** A guest that cannot get all its blocks is released by [alloc_vm_memory], and then once more by
    [destroy_vm], through tables that have been freed. *)
Lemma failed_creation_released_twice : demo_create 0x8200000 = Fault.
Proof. vm_compute. reflexivity. Qed.

(** Without a page for the root table, creation fails and releases tables that do not exist. *)
Lemma no_root_table_faults hv host v bit64 pages z base size ml mr bmem : create_guest_memory None hv host v bit64 0 pages z base size ml mr bmem = Fault.
Proof. unfold create_guest_memory, vm_mm_struct_init, arch_alloc_guest_pgd. cbn [Z.eqb]. cbn match. by rewrite release_faults. Qed.

(** A size that is not a multiple of a block stops the hypervisor. *)
Lemma odd_size_stops : demo_create 0x201000 = Panic.
Proof. vm_compute. reflexivity. Qed.

(** A request that cannot be met in full leaves [vm0] with access to the first part: the area is free
    again, but its translation stays. *)
Lemma failed_mmap_stays_mapped : match demo_mmap demo_host demo_guest 0x40200000 0x400000 with
  | Ret (r, _, h) => (r, cover (vmm_area_used (mm h)) 0, s2_translate (demo_tables_of h) 0x123)
  | _ => (None, 0, None)
  end = (None, 0, Some 0x40000123).
Proof. vm_compute. reflexivity. Qed.

(** When the area of [vm0] ends at the end of a gigabyte, destroying the guest does not remove the
    translation: [vm0] keeps access to a block that is free. *)
Lemma destroyed_guest_stays_mapped : let host := demo_vm 0 0x3fe00000 0x40000000 [0x200000; 0x201000; 0x202000; 0x203000] in
  match demo_mmap host demo_guest 0x40000000 0x200000 with
  | Ret (_, hv, host) => match release_vm_memory None hv host demo_guest with
                         | Ret (_, hv, host, _) => Some (s2_translate (demo_tables_of host) 0x3fe00123, busy hv 513)
                         | _ => None
                         end
  | _ => None
  end = Some (Some 0x40200123, false).
Proof. vm_compute. reflexivity. Qed.

(** The shared memory of a [vmbox] is mapped with neither read nor write access. *)
Lemma vmbox_memory_no_access : Z.land (stage2_page_attr (Z.lor VM_SHARED VM_GUEST_SHMEM)) S2_AP_RW = 0.
Proof. reflexivity. Qed.

(** A copy that starts inside of a page goes on in the next physical page instead of the next page of
    the guest. *)
Lemma copy_crosses_page : let tr va := if va <? 0x1000 then va else va + 0x10000 in
  copy_from_guest tr (fun _ => 0) (fun pa => pa) 0xffe 4 = Ret (0, [0xffe; 0xfff; 0x1000; 0x1001]) /\ map tr (seqZ 0xffe 4) = [0xffe; 0xfff; 0x11000; 0x11001].
Proof. vm_compute. done. Qed.

(** A virtual machine that does not exist is used by [create_vm_mmap]. *)
Lemma mmap_of_no_vm_faults : create_vm_mmap None demo_blocks demo_host None 0x40000000 0x200000 (fun _ => (21, 22)) = Fault.
Proof. vm_compute. reflexivity. Qed.
