(* ===== verification/Uaccess.v ===== *)
(** * Access to user memory

    [userspace/uaccess.c], [arch/aarch64/include/asm/uaccess.h], [userspace/kobject_copy.c] and
    the usage count of address spaces in [userspace/vspace.c]: the kernel copies between its own
    memory and that of a process, or between two processes, page by page, after translating each
    user address with the page tables of [Stage1].

    Memory is a function from physical addresses to bytes; the kernel's buffers are in it as well,
    at the addresses of the linear map.  An address space is named by a number, so that the two
    sides of a copy may be the same one.  Pages that the kernel gives back are recorded in
    [us_freed]. *)

From S2P Require Import Prelude Types Bits Bitmap Page KPages Stage1.

Definition INVALID_ADDR : Z := 0.
Definition USER_PROCESS_ADDR_LIMIT : Z := 2 ^ 39.

(** ** user_ranges_ok

    The five instructions, with the carry and the zero flag. *)

Record flags := mk_flags { f_c : bool; f_z : bool }.

Definition adds (a b : Z) : Z * flags := (u64 (a + b), mk_flags (2 ^ 64 <=? a + b) (u64 (a + b) =? 0)).

Definition sbcs (a b : Z) (f : flags) : Z * flags := adds a (not64 b + Z.b2z (f_c f)).

Definition user_ranges_ok (addr size : Z) : Z :=
  let limit := USER_PROCESS_ADDR_LIMIT in
  let '(x, f) := adds addr size in
  let limit := if f_c f && negb (f_z f) then 0 else limit in
  let x := if negb (f_c f) then x else not64 0 in
  let '(_, f) := sbcs x limit f in
  if negb (f_c f) || f_z f then 1 else 0.

(** ** Memory and address spaces *)

Definition pmem : Type := Z -> Z.

(** The contract of [memcpy] (assembly, [arch/aarch64/lib/memcpy.S]), for ranges that do not overlap. *)
Definition memcpy (m : pmem) (dst src n : Z) : pmem :=
  fun x => if (dst <=? x) && (x <? dst + n) then m (src + (x - dst)) else m x.

Record uspace (A : Type) := mk_us {
  us_vs : vspace A;
  inuse : Z;
  us_freed : list Z;
}.
Arguments mk_us {A}.
Arguments us_vs {A}.
Arguments inuse {A}.
Arguments us_freed {A}.

Record ustate (A : Type) := mk_ust {
  spaces : gmap nat (uspace A);
  phys : pmem;
}.
Arguments mk_ust {A}.
Arguments spaces {A}.
Arguments phys {A}.

Section uaccess.
Context {A : Type} `{KPages A}.

Definition get_space (st : ustate A) (v : nat) : outcome (uspace A) :=
  match spaces st !! v with Some u => Ret u | None => Fault end.

Definition set_space (st : ustate A) (v : nat) (u : uspace A) : ustate A := mk_ust (<[v := u]> (spaces st)) (phys st).
Definition set_phys (st : ustate A) (m : pmem) : ustate A := mk_ust (spaces st) m.

(** The pages given back are collected in [us_freed], in order.  What the page allocator does with
    them afterwards is not part of this state: the tables do not change when a page is used again. *)
Definition release_vspace_pages (u : uspace A) : uspace A :=
  let vs := us_vs u in
  mk_us (mk_vspace (tables vs) (pgdp vs) [] (vs_pages vs)) (inuse u) (us_freed u ++ release_pages vs).

Definition inc_vspace_usage (st : ustate A) (v : nat) : outcome (ustate A) :=
  let* u := get_space st v in
  Ret (set_space st v (mk_us (us_vs u) (inuse u + 1) (us_freed u))).

Definition dec_vspace_usage (st : ustate A) (v : nat) : outcome (ustate A) :=
  let* u := get_space st v in
  let value := inuse u - 1 in
  check 0 <=? value in
  let u := mk_us (us_vs u) value (us_freed u) in
  Ret (set_space st v (if negb (value =? 0) then u else release_vspace_pages u)).

(** ** Copying *)

Definition page_offset (va : Z) : Z := va - PAGE_ALIGN va.

(** The loop of [__copy_from_user]; the flag is false after a page that is not mapped. *)
Fixpoint copy_from_loop (fuel : nat) (vs : vspace A) (m : pmem) (dst src size offset : Z) : outcome (bool * pmem) :=
  if size <=? 0 then Ret (true, m) else
  match fuel with
  | O => OutOfFuel
  | S fuel =>
      let copy_size := PAGE_SIZE - offset in
      let copy_size := if size <? copy_size then size else copy_size in
      let* ksrc := arch_translate_va_to_pa vs src in
      if ksrc =? INVALID_ADDR then Ret (false, m) else
      let m := memcpy m dst (ptov ksrc) copy_size in
      copy_from_loop fuel vs m (dst + copy_size) (u64 (src + copy_size)) (size - copy_size) 0
  end.

Definition copy_fuel (size : Z) : nat := Z.to_nat (size / PAGE_SIZE) + 2.

(** The count is returned as an [int]. *)
Definition __copy_from_user (st : ustate A) (dst : Z) (vsrc : nat) (src size : Z) : outcome (Z * ustate A) :=
  let* st := inc_vspace_usage st vsrc in
  let* u := get_space st vsrc in
  let* (ok, m) := copy_from_loop (copy_fuel size) (us_vs u) (phys st) dst src size (page_offset src) in
  let* st := dec_vspace_usage (set_phys st m) vsrc in
  Ret (if (ok : bool) then s32 size else - EFAULT, st).

Fixpoint copy_to_loop (fuel : nat) (vs : vspace A) (m : pmem) (dst src size offset : Z) : outcome (bool * pmem) :=
  if size <=? 0 then Ret (true, m) else
  match fuel with
  | O => OutOfFuel
  | S fuel =>
      let copy_size := PAGE_SIZE - offset in
      let copy_size := if size <? copy_size then size else copy_size in
      let* kdst := arch_translate_va_to_pa vs dst in
      if kdst =? INVALID_ADDR then Ret (false, m) else
      let m := memcpy m (ptov kdst) src copy_size in
      copy_to_loop fuel vs m (u64 (dst + copy_size)) (src + copy_size) (size - copy_size) 0
  end.

Definition __copy_to_user (st : ustate A) (vdst : nat) (dst src size : Z) : outcome (Z * ustate A) :=
  let* st := inc_vspace_usage st vdst in
  let* u := get_space st vdst in
  let* (ok, m) := copy_to_loop (copy_fuel size) (us_vs u) (phys st) dst src size (page_offset dst) in
  let* st := dec_vspace_usage (set_phys st m) vdst in
  Ret (if (ok : bool) then s32 size else - EFAULT, st).

(** [dst_offset] is not reset in the loop.  [inl ret] is the early return with the status of the
    inner copy, which leaves the usage count as it is. *)
Fixpoint user_to_user_loop (fuel : nat) (st : ustate A) (vdst : nat) (dst : Z) (vsrc : nat) (src size dst_offset : Z)
    : outcome ((Z + bool) * ustate A) :=
  if size <=? 0 then Ret (inr true, st) else
  match fuel with
  | O => OutOfFuel
  | S fuel =>
      let copy_size := PAGE_SIZE - dst_offset in
      let copy_size := if size <? copy_size then size else copy_size in
      let* u := get_space st vdst in
      let* kdst := arch_translate_va_to_pa (us_vs u) dst in
      if kdst =? INVALID_ADDR then Ret (inr false, st) else
      let* (ret, st) := __copy_from_user st (ptov kdst) vsrc src copy_size in
      if ret <=? 0 then Ret (inl ret, st) else
      user_to_user_loop fuel st vdst (u64 (dst + copy_size)) vsrc (u64 (src + copy_size)) (size - copy_size) dst_offset
  end.

Definition copy_user_to_user (st : ustate A) (vdst : nat) (dst : Z) (vsrc : nat) (src size : Z) : outcome (Z * ustate A) :=
  let* st := inc_vspace_usage st vdst in
  let dst_offset := page_offset dst in
  let* (r, st) := user_to_user_loop (Z.to_nat (size / (PAGE_SIZE - dst_offset)) + 1) st vdst dst vsrc src size dst_offset in
  match (r : Z + bool) with
  | inl ret => Ret (ret, st)
  | inr ok =>
      let* st := dec_vspace_usage st vdst in
      Ret (if (ok : bool) then s32 size else - EFAULT, st)
  end.

(** [copy_string_from_user]: one page's worth of characters, up to the final 0. *)
Fixpoint string_chunk (n : nat) (m : pmem) (dst ksrc copied : Z) : bool * Z * Z * pmem :=
  match n with
  | O => (false, copied, dst, m)
  | S n =>
      let m := memcpy m dst ksrc 1 in
      if m ksrc =? 0 then (true, copied + 1, dst, m) else string_chunk n m (dst + 1) (ksrc + 1) (copied + 1)
  end.

(** The inner loop counts [copy_size] down to 0, so that [left] and [src] stay as they are. *)
Fixpoint string_loop (fuel : nat) (vs : vspace A) (m : pmem) (dst src left offset copied : Z) : outcome ((Z + Z) * pmem) :=
  if left =? 0 then Ret (inr copied, m) else
  match fuel with
  | O => OutOfFuel
  | S fuel =>
      let copy_size := PAGE_SIZE - offset in
      let copy_size := if left <? copy_size then left else copy_size in
      let* ksrc := arch_translate_va_to_pa vs src in
      if ksrc =? INVALID_ADDR then Ret (inr (- EFAULT), m) else
      let '(found, copied, dst, m) := string_chunk (Z.to_nat copy_size) m dst (ptov ksrc) copied in
      if found then Ret (inl copied, m) else string_loop fuel vs m dst src left 0 copied
  end.

Definition copy_string_from_user (fuel : nat) (st : ustate A) (v : nat) (dst src max : Z) : outcome (Z * ustate A) :=
  let* st := inc_vspace_usage st v in
  let* u := get_space st v in
  let* (r, m) := string_loop fuel (us_vs u) (phys st) dst src max (page_offset src) 0 in
  match (r : Z + Z) with
  | inl copied => Ret (copied, set_phys st m)
  | inr copied => let* st := dec_vspace_usage (set_phys st m) v in Ret (copied, st)
  end.

Definition copy_string_from_user_safe (fuel : nat) (st : ustate A) (v : nat) (dst src max : Z) : outcome (Z * ustate A) :=
  let* (ret, st) := copy_string_from_user fuel st v dst src (s32 (max - 1)) in
  if ret <=? 0 then Ret (- E2BIG, st)
  else Ret (ret, set_phys st (fun x => if x =? dst + ret then 0 else phys st x)).

(** ** Payload of a message *)

(** The registers with which a task entered the kernel, and its address space. *)
Record utask := mk_utask { ut_space : nat; a1 : Z; a2 : Z; a3 : Z; a4 : Z }.

Definition copy_region (st : ustate A) (td : nat) (dst dsize : Z) (ts : nat) (src ssize : Z) (check_size : bool) : outcome (Z * ustate A) :=
  if check_size && negb (dsize =? ssize) then Ret (- EINVAL, st) else
  let copy := Z.min dsize ssize in
  if copy =? 0 then Ret (0, st) else copy_user_to_user st td dst ts src copy.

Definition kobject_copy_ipc_data (st : ustate A) (tdst tsrc : utask) (check_size : bool) : outcome (Z * ustate A) :=
  copy_region st (ut_space tdst) (a1 tdst) (a2 tdst) (ut_space tsrc) (a1 tsrc) (a2 tsrc) check_size.

Definition kobject_copy_extra_data (st : ustate A) (tdst tsrc : utask) (check_size : bool) : outcome (Z * ustate A) :=
  copy_region st (ut_space tdst) (a3 tdst) (a4 tdst) (ut_space tsrc) (a3 tsrc) (a4 tsrc) check_size.

(** Returns the status, [actual_data] and [actual_extra]. *)
Definition kobject_copy_ipc_payload (st : ustate A) (dtsk ttsk : utask) (actual_data actual_extra : Z) (check_data check_extra : bool)
    : outcome (Z * Z * Z * ustate A) :=
  let* (ret, st) := kobject_copy_ipc_data st dtsk ttsk check_data in
  if ret <? 0 then Ret (ret, actual_data, actual_extra, st) else
  let actual_data := ret in
  let* (ret, st) := kobject_copy_extra_data st dtsk ttsk check_extra in
  if 0 <=? ret then Ret (0, actual_data, ret, st) else Ret (ret, actual_data, actual_extra, st).

(** ** Translation of a page *)

(** The physical address of a user address, 0 if there is none. *)
Definition upa (vs : vspace A) (va : Z) : Z :=
  match arch_translate_va_to_pa vs va with Ret pa => pa | _ => 0 end.

Lemma upa_walk vs va : tables_ok vs -> 0 <= va < 2 ^ 39 ->
  arch_translate_va_to_pa vs va = Ret (upa vs va) /\
  upa vs va = match walk vs va with
              | Some (LPage d) => if Z.land d S1_PHYSICAL_MASK =? 0 then 0 else Z.land d S1_PHYSICAL_MASK + va mod 4096
              | _ => 0
              end.
Proof.
  intros [pos Hok] Hva. unfold upa, arch_translate_va_to_pa. rewrite (va_to_pa_spec vs pos va Hok Hva). done.
Qed.

(** Within a page the translation moves with the address. *)
Lemma upa_page vs va i : tables_ok vs -> 0 <= va -> 0 <= i -> va mod 4096 + i < 4096 -> va + i < 2 ^ 39 ->
  (upa vs va = 0 -> upa vs (va + i) = 0) /\ (upa vs va <> 0 -> upa vs (va + i) = upa vs va + i /\ upa vs (va + i) <> 0).
Proof.
  intros Hok Hva Hi Hp Hl. destruct (upa_walk vs va Hok ltac:(lia)) as [_ E]. destruct (upa_walk vs (va + i) Hok ltac:(lia)) as [_ E'].
  rewrite (walk_page vs (va + i) va) in E' by (Z.div_mod_to_equations; lia).
  destruct (walk vs va) as [[d|d]|]; try (split; [done|congruence]).
  destruct (Z.eqb_spec (Z.land d S1_PHYSICAL_MASK) 0); [split; [done|congruence]|].
  assert (0 <= Z.land d S1_PHYSICAL_MASK) by (apply Z.land_nonneg; right; done).
  assert ((va + i) mod 4096 = va mod 4096 + i) by (Z.div_mod_to_equations; lia).
  pose proof (Z.mod_pos_bound va 4096). split; lia.
Qed.

(** ** The loops *)

(** Where a copy from or to a user range ends: after [n] bytes, at the end or before a page that is
    not mapped. *)
Definition stops (T : Z -> Z) (va size : Z) (ok : bool) (n : Z) : Prop :=
  0 <= n <= size /\ (forall i, 0 <= i < n -> T (va + i) <> 0) /\
  (if ok then n = size else n < size /\ T (va + n) = 0).

Lemma page_offset_mod va : 0 <= va < 2 ^ 64 -> page_offset va = va mod 4096.
Proof.
  intros Hva. unfold page_offset, PAGE_ALIGN. change PAGE_SIZE with (2 ^ 12). rewrite ALIGN_pow2 by lia.
  change (2 ^ 12) with 4096. Z.div_mod_to_equations; lia.
Qed.

Lemma memcpy_in m dst src n i : 0 <= i < n -> memcpy m dst src n (dst + i) = m (src + i).
Proof. intros Hi. unfold memcpy. case_bools. f_equal. lia. Qed.

Lemma memcpy_out m dst src n x : ~ dst <= x < dst + n -> memcpy m dst src n x = m x.
Proof. intros Hx. unfold memcpy. by case_bools. Qed.

(** The size of the next chunk, and where the loop is after it. *)
Lemma chunk_step va size : 0 <= va -> 0 < size -> va + size <= 2 ^ 39 ->
  let c := if size <? PAGE_SIZE - va mod 4096 then size else PAGE_SIZE - va mod 4096 in
  0 < c <= size /\ va mod 4096 + c <= 4096 /\ u64 (va + c) = va + c /\ (c = size \/ (va + c) mod 4096 = 0 /\ va mod 4096 + c = 4096).
Proof.
  intros Hva Hs Hl c. subst c. change PAGE_SIZE with 4096. pose proof (Z.mod_pos_bound va 4096).
  destruct (Z.ltb_spec size (4096 - va mod 4096)); rewrite wrap_small by lia; (split; [lia|]); (split; [lia|]); (split; [done|]); [by left|].
  right. split; [|lia]. Z.div_mod_to_equations; lia.
Qed.

Lemma copy_from_loop_done fuel vs m dst src off : copy_from_loop fuel vs m dst src 0 off = Ret (true, m).
Proof. by destruct fuel. Qed.

Lemma stops_more (T : Z -> Z) va size c ok n :
  0 <= c <= size -> (forall i, 0 <= i < c -> T (va + i) <> 0) -> stops T (va + c) (size - c) ok n -> stops T va size ok (c + n).
Proof.
  intros Hc H1 (Hn & H2 & H3). split; [lia|]. split.
  - intros i Hi. destruct (decide (i < c)); [by apply H1; lia|]. replace (va + i) with (va + c + (i - c)) by lia. apply H2. lia.
  - destruct ok; [lia|]. replace (va + (c + n)) with (va + c + n) by lia. split; [lia|apply H3].
Qed.

Lemma copy_from_loop_ok fuel vs m dst src size :
  tables_ok vs -> 0 <= src -> src + size <= 2 ^ 39 -> 0 <= size -> src mod 4096 + size <= 4096 * Z.of_nat fuel ->
  (forall i j, 0 <= i < size -> 0 <= j < size -> upa vs (src + i) <> 0 -> upa vs (src + i) <> dst + j) ->
  exists ok m' n, copy_from_loop fuel vs m dst src size (src mod 4096) = Ret (ok, m') /\ stops (upa vs) src size ok n /\
    (forall i, 0 <= i < n -> m' (dst + i) = m (upa vs (src + i))) /\ (forall x, ~ dst <= x < dst + n -> m' x = m x).
Proof.
  intros Hok. revert m dst src size. induction fuel as [|fuel IH]; intros m dst src size Hsrc Hl Hs Hf Hd.
  { pose proof (Z.mod_pos_bound src 4096). assert (size = 0) as -> by lia. exists true, m, 0. split; [done|]. split; [split_and!; try lia; intros; lia|].
    split; [intros; lia|done]. }
  cbn [copy_from_loop]. destruct (Z.leb_spec size 0) as [|Hpos].
  { assert (size = 0) as -> by lia. exists true, m, 0. split; [done|]. split; [split_and!; try lia; intros; lia|]. split; [intros; lia|done]. }
  destruct (chunk_step src size Hsrc Hpos Hl) as (Hc & Hp & Ew & Hnext). cbn zeta. set (c := if size <? PAGE_SIZE - src mod 4096 then _ else _) in *.
  clearbody c. destruct (upa_walk vs src Hok ltac:(lia)) as [-> _]. cbn [obind]. unfold INVALID_ADDR.
  destruct (Z.eqb_spec (upa vs src) 0) as [E0|N0].
  { exists false, m, 0. split; [done|]. split; [|split; [intros; lia|done]]. split; [lia|]. split; [intros; lia|]. split; [lia|]. by rewrite Z.add_0_r. }
  assert (Hin : forall i, 0 <= i < c -> upa vs (src + i) = upa vs src + i /\ upa vs (src + i) <> 0)
    by (intros i Hi; by apply (proj2 (upa_page vs src i Hok Hsrc ltac:(lia) ltac:(lia) ltac:(lia)))).
  unfold ptov. set (m1 := memcpy m dst (upa vs src) c). rewrite Ew.
  assert (Hrest : exists ok m' n, copy_from_loop fuel vs m1 (dst + c) (src + c) (size - c) 0 = Ret (ok, m') /\ stops (upa vs) (src + c) (size - c) ok n /\
    (forall i, 0 <= i < n -> m' (dst + c + i) = m1 (upa vs (src + c + i))) /\ (forall x, ~ dst + c <= x < dst + c + n -> m' x = m1 x)).
  { destruct (decide (c = size)) as [->|Hne].
    - replace (size - size) with 0 by lia. rewrite copy_from_loop_done. exists true, m1, 0. split; [done|].
      split; [split_and!; try lia; intros; lia|]. split; [intros; lia|done].
    - destruct Hnext as [?|[Ea Ep]]; [done|]. pose proof (IH m1 (dst + c) (src + c) (size - c)) as R. rewrite Ea in R.
      apply R; try lia. intros i j Hi Hj. rewrite <- Z.add_assoc, <- (Z.add_assoc dst). apply Hd; lia. }
  destruct Hrest as (ok & m' & n & -> & Hst & Hcp & Hout). exists ok, m', (c + n). split; [done|].
  split; [by apply stops_more; [lia|intros i Hi; by apply Hin|]|]. assert (0 <= n) by apply Hst. split.
  - intros i Hi. destruct (decide (i < c)).
    + rewrite Hout by lia. unfold m1. rewrite memcpy_in by lia. f_equal. symmetry. apply Hin. lia.
    + replace (dst + i) with (dst + c + (i - c)) by lia. rewrite Hcp by lia. replace (src + c + (i - c)) with (src + i) by lia.
      apply memcpy_out. intros Hx. destruct Hst as (Hn & Hne & _). specialize (Hne (i - c) ltac:(lia)). replace (src + c + (i - c)) with (src + i) in Hne by lia.
      apply (Hd i (upa vs (src + i) - dst) ltac:(lia) ltac:(lia) Hne). lia.
  - intros x Hx. rewrite Hout by lia. apply memcpy_out. lia.
Qed.

(** Two user addresses of the range never share a byte of memory. *)
Definition frames_apart (T : Z -> Z) (va size : Z) : Prop :=
  forall i j, 0 <= i < size -> 0 <= j < size -> T (va + i) <> 0 -> T (va + i) = T (va + j) -> i = j.

(** The user range does not overlap the kernel's buffer. *)
Definition buffer_apart (T : Z -> Z) (va buf size : Z) : Prop :=
  forall i j, 0 <= i < size -> 0 <= j < size -> T (va + i) <> 0 -> T (va + i) <> buf + j.

Lemma apart_sub (T : Z -> Z) va size c n : 0 <= c -> 0 <= n -> c + n <= size -> frames_apart T va size -> frames_apart T (va + c) n.
Proof.
  intros Hc Hn Hs Hf i j Hi Hj. rewrite <- !Z.add_assoc. intros N E. specialize (Hf (c + i) (c + j) ltac:(lia) ltac:(lia) N E). lia.
Qed.

Lemma buffer_sub (T : Z -> Z) va buf size c n : 0 <= c -> 0 <= n -> c + n <= size -> buffer_apart T va buf size -> buffer_apart T (va + c) (buf + c) n.
Proof. intros Hc Hn Hs Hb i j Hi Hj. rewrite <- !Z.add_assoc. apply Hb; lia. Qed.

(** What a copy of [n] bytes to the user range at [dst] leaves in memory. *)
Definition written (T : Z -> Z) (dst n : Z) (data : Z -> Z) (m m' : pmem) : Prop :=
  (forall i, 0 <= i < n -> m' (T (dst + i)) = data i) /\
  (forall x, (forall i, 0 <= i < n -> x <> T (dst + i)) -> m' x = m x).

Lemma written_more (T : Z -> Z) dst size c n data m m1 m' :
  0 <= c -> 0 <= n -> c + n <= size -> frames_apart T dst size -> (forall i, 0 <= i < c + n -> T (dst + i) <> 0) ->
  written T dst c data m m1 -> written T (dst + c) n (fun i => data (c + i)) m1 m' -> written T dst (c + n) data m m'.
Proof.
  intros Hc Hn Hs Hf Hne [W1 O1] [W2 O2]. split.
  - intros i Hi. destruct (decide (i < c)).
    + rewrite O2; [apply W1; lia|]. intros j Hj. rewrite <- Z.add_assoc. intros E.
      specialize (Hf i (c + j) ltac:(lia) ltac:(lia) (Hne i Hi) E). lia.
    + specialize (W2 (i - c) ltac:(lia)). cbn beta in W2. replace (dst + c + (i - c)) with (dst + i) in W2 by lia. by replace (c + (i - c)) with i in W2 by lia.
  - intros x Hx. rewrite O2; [apply O1; intros i Hi; apply Hx; lia|]. intros i Hi. rewrite <- Z.add_assoc. apply Hx. lia.
Qed.

(** A chunk inside one page is contiguous. *)
Lemma written_chunk vs dst src c m :
  tables_ok vs -> 0 <= dst -> 0 <= c -> dst mod 4096 + c <= 4096 -> dst + c <= 2 ^ 39 -> upa vs dst <> 0 ->
  (forall i, 0 <= i < c -> upa vs (dst + i) <> 0) /\ written (upa vs) dst c (fun i => m (src + i)) m (memcpy m (upa vs dst) src c).
Proof.
  intros Hok Hd Hc Hp Hl Hn.
  assert (Hin : forall i, 0 <= i < c -> upa vs (dst + i) = upa vs dst + i /\ upa vs (dst + i) <> 0)
    by (intros i Hi; by apply (proj2 (upa_page vs dst i Hok Hd ltac:(lia) ltac:(lia) ltac:(lia)))).
  split; [intros i Hi; by apply Hin|]. split.
  - intros i Hi. rewrite (proj1 (Hin i Hi)). by apply memcpy_in.
  - intros x Hx. apply memcpy_out. intros Hr. apply (Hx (x - upa vs dst) ltac:(lia)). rewrite (proj1 (Hin (x - upa vs dst) ltac:(lia))). lia.
Qed.

Lemma copy_to_loop_ok fuel vs m dst src size :
  tables_ok vs -> 0 <= dst -> dst + size <= 2 ^ 39 -> 0 <= size -> dst mod 4096 + size <= 4096 * Z.of_nat fuel ->
  frames_apart (upa vs) dst size -> buffer_apart (upa vs) dst src size ->
  exists ok m' n, copy_to_loop fuel vs m dst src size (dst mod 4096) = Ret (ok, m') /\ stops (upa vs) dst size ok n /\
    written (upa vs) dst n (fun i => m (src + i)) m m'.
Proof.
  intros Hok. revert m dst src size.
  assert (H0 : forall m dst src, stops (upa vs) dst 0 true 0 /\ written (upa vs) dst 0 (fun i => m (src + i)) m m)
    by (intros; split; [split_and!; try lia; intros; lia|split; [intros; lia|done]]).
  assert (Hz : forall fuel m dst src off, copy_to_loop fuel vs m dst src 0 off = Ret (true, m)) by (by intros []).
  induction fuel as [|fuel IH]; intros m dst src size Hdst Hl Hs Hf Hap Hb.
  { pose proof (Z.mod_pos_bound dst 4096). assert (size = 0) as -> by lia. by exists true, m, 0. }
  destruct (decide (size = 0)) as [->|Hnz]; [by rewrite Hz; exists true, m, 0|]. assert (Hpos : 0 < size) by lia.
  cbn [copy_to_loop]. destruct (Z.leb_spec size 0); [lia|].
  destruct (chunk_step dst size Hdst Hpos Hl) as (Hc & Hp & Ew & Hnext). cbn zeta. set (c := if size <? PAGE_SIZE - dst mod 4096 then _ else _) in *.
  clearbody c. destruct (upa_walk vs dst Hok ltac:(lia)) as [-> _]. cbn [obind]. unfold INVALID_ADDR.
  destruct (Z.eqb_spec (upa vs dst) 0) as [E0|N0].
  { exists false, m, 0. split; [done|]. split; [|split; [intros; lia|done]]. split; [lia|]. split; [intros; lia|]. split; [lia|]. by rewrite Z.add_0_r. }
  destruct (written_chunk vs dst src c m Hok Hdst ltac:(lia) Hp ltac:(lia) N0) as [Hin Hw]. unfold ptov. set (m1 := memcpy m (upa vs dst) src c) in *. rewrite Ew.
  assert (Hrest : exists ok m' n, copy_to_loop fuel vs m1 (dst + c) (src + c) (size - c) 0 = Ret (ok, m') /\ stops (upa vs) (dst + c) (size - c) ok n /\
    written (upa vs) (dst + c) n (fun i => m1 (src + c + i)) m1 m').
  { destruct (decide (c = size)) as [->|Hne]; [replace (size - size) with 0 by lia; rewrite Hz; by exists true, m1, 0|].
    destruct Hnext as [?|[Ea Ep]]; [done|]. pose proof (IH m1 (dst + c) (src + c) (size - c)) as R. rewrite Ea in R.
    apply R; try lia; [by apply (apart_sub (upa vs) dst size); try lia|by apply (buffer_sub (upa vs) dst src size); try lia]. }
  destruct Hrest as (ok & m' & n & -> & Hst & Hw'). exists ok, m', (c + n). split; [done|].
  assert (Hst' : stops (upa vs) dst size ok (c + n)) by (apply stops_more; [lia|done|done]). split; [done|].
  destruct Hst' as (Hn & Hne & _). assert (0 <= n) by apply Hst. apply (written_more (upa vs) dst size c n _ m m1); try done; try lia.
  destruct Hw' as [W O]. split; [|done]. intros i Hi. rewrite W by done. destruct Hw as [_ Ow]. rewrite <- Z.add_assoc. apply Ow.
  intros j Hj. apply not_eq_sym, Hb; try lia. by apply Hin.
Qed.

(** ** Address spaces in use *)

(** The address space [v] translates by [T] and is used [n] times. *)
Definition maps (st : ustate A) (v : nat) (T : Z -> Z) (n : Z) : Prop :=
  exists u, spaces st !! v = Some u /\ tables_ok (us_vs u) /\ inuse u = n /\ 0 <= n /\ (forall va, upa (us_vs u) va = T va).

Lemma release_keeps u : tables_ok (us_vs u) ->
  tables_ok (us_vs (release_vspace_pages u)) /\ (forall va, upa (us_vs (release_vspace_pages u)) va = upa (us_vs u) va).
Proof. intros [pos [K1 K2 K3 K4 K5]]. split; [|done]. exists pos. by split. Qed.

Lemma maps_set st v u T n : tables_ok (us_vs u) -> inuse u = n -> 0 <= n -> (forall va, upa (us_vs u) va = T va) -> maps (set_space st v u) v T n.
Proof. intros. exists u. cbn. rewrite lookup_insert_eq. by split_and!. Qed.

Lemma maps_other st v w u T n : v <> w -> maps st v T n -> maps (set_space st w u) v T n.
Proof. intros Hne (u' & Hu & H'). exists u'. cbn. by rewrite lookup_insert_ne. Qed.

Lemma maps_phys st v T n m : maps st v T n -> maps (set_phys st m) v T n.
Proof. done. Qed.

Lemma inc_usage_ok st v T n : maps st v T n ->
  exists st', inc_vspace_usage st v = Ret st' /\ maps st' v T (n + 1) /\ phys st' = phys st /\
    forall w S k, w <> v -> maps st w S k -> maps st' w S k.
Proof.
  intros (u & Hu & Hok & Hn & Hp & HT). unfold inc_vspace_usage, get_space. rewrite Hu. cbn [obind]. eexists. split; [done|].
  split; [by apply maps_set; cbn; try lia|]. split; [done|]. intros w S k Hw. by apply maps_other.
Qed.

Lemma dec_usage_ok st v T n : maps st v T (n + 1) -> 0 <= n ->
  exists st', dec_vspace_usage st v = Ret st' /\ maps st' v T n /\ phys st' = phys st /\
    forall w S k, w <> v -> maps st w S k -> maps st' w S k.
Proof.
  intros (u & Hu & Hok & Hn & _ & HT) H0. unfold dec_vspace_usage, get_space. rewrite Hu. cbn [obind].
  replace (inuse u - 1) with n by lia. destruct (Z.leb_spec 0 n); [|lia]. cbn [assert obind]. eexists. split; [done|].
  split; [|split; [done|intros w S k Hw; by apply maps_other]].
  destruct (Z.eqb_spec n 0); cbn [negb]; [|by apply maps_set].
  destruct (release_keeps (mk_us (us_vs u) n (us_freed u)) Hok) as [Hok' HT']. by apply maps_set.
Qed.

Lemma maps_get st v T n : maps st v T n -> exists u, get_space st v = Ret u /\ tables_ok (us_vs u) /\ (forall va, upa (us_vs u) va = T va).
Proof. intros (u & Hu & Hok & _ & _ & HT). exists u. unfold get_space. by rewrite Hu. Qed.

(** The other users of memory see a copy only in the usage count, which is as before at its end. *)
Definition settled (st st' : ustate A) (v : nat) (T : Z -> Z) (n : Z) : Prop :=
  maps st' v T n /\ forall w S k, w <> v -> maps st w S k -> maps st' w S k.

Lemma stops_ext (T S : Z -> Z) va size ok n : (forall x, T x = S x) -> stops T va size ok n -> stops S va size ok n.
Proof.
  intros E (H1 & H2 & H3). split; [done|]. split; [intros i Hi; rewrite <- E; by apply H2|]. destruct ok; [done|]. by rewrite <- E.
Qed.

Lemma copy_fuel_ok va size : 0 <= size -> va mod 4096 + size <= 4096 * Z.of_nat (copy_fuel size).
Proof. intros Hs. unfold copy_fuel. change PAGE_SIZE with 4096. pose proof (Z.mod_pos_bound va 4096). Z.div_mod_to_equations; lia. Qed.

Lemma copy_from_user_spec st v T k dst src size :
  maps st v T k -> 0 <= src -> src + size <= 2 ^ 39 -> 0 <= size -> buffer_apart T src dst size ->
  exists (ok : bool) st' n, __copy_from_user st dst v src size = Ret (if ok then s32 size else - EFAULT, st') /\ stops T src size ok n /\
    written (fun a => a) dst n (fun i => phys st (T (src + i))) (phys st) (phys st') /\ settled st st' v T k.
Proof.
  intros Hm Hsrc Hl Hs Hb. unfold __copy_from_user. destruct (inc_usage_ok st v T k Hm) as (st1 & -> & Hm1 & Ep & Hoth). cbn [obind].
  destruct (maps_get _ _ _ _ Hm1) as (u & -> & Hok & HT). cbn [obind]. rewrite page_offset_mod by lia.
  destruct (copy_from_loop_ok (copy_fuel size) (us_vs u) (phys st1) dst src size Hok Hsrc Hl Hs (copy_fuel_ok src size Hs)) as (ok & m' & n & -> & Hst & Hcp & Hout).
  { intros i j. rewrite HT. apply Hb. }
  cbn [obind]. assert (Hk : 0 <= k) by (destruct Hm as (? & _ & _ & _ & ? & _); done).
  destruct (dec_usage_ok (set_phys st1 m') v T k Hm1 Hk) as (st2 & -> & Hm2 & Ep2 & Hoth2). cbn [obind].
  exists ok, st2, n. split; [done|]. split; [by apply (stops_ext (upa (us_vs u)))|]. rewrite Ep2. cbn [phys set_phys]. rewrite Ep in Hcp, Hout.
  split; [|split; [done|intros w S j Hw Hj; by apply Hoth2, maps_phys, Hoth]]. split.
  - intros i Hi. rewrite Hcp by done. by rewrite HT.
  - intros x Hx. apply Hout. intros Hr. apply (Hx (x - dst) ltac:(lia)). lia.
Qed.

Lemma copy_to_user_spec st v T k dst src size :
  maps st v T k -> 0 <= dst -> dst + size <= 2 ^ 39 -> 0 <= size -> frames_apart T dst size -> buffer_apart T dst src size ->
  exists (ok : bool) st' n, __copy_to_user st v dst src size = Ret (if ok then s32 size else - EFAULT, st') /\ stops T dst size ok n /\
    written T dst n (fun i => phys st (src + i)) (phys st) (phys st') /\ settled st st' v T k.
Proof.
  intros Hm Hd Hl Hs Hf Hb. unfold __copy_to_user. destruct (inc_usage_ok st v T k Hm) as (st1 & -> & Hm1 & Ep & Hoth). cbn [obind].
  destruct (maps_get _ _ _ _ Hm1) as (u & -> & Hok & HT). cbn [obind]. rewrite page_offset_mod by lia.
  destruct (copy_to_loop_ok (copy_fuel size) (us_vs u) (phys st1) dst src size Hok Hd Hl Hs (copy_fuel_ok dst size Hs)) as (ok & m' & n & -> & Hst & Hw).
  { intros i j. rewrite !HT. apply Hf. }
  { intros i j. rewrite HT. apply Hb. }
  cbn [obind]. assert (Hk : 0 <= k) by (destruct Hm as (? & _ & _ & _ & ? & _); done).
  destruct (dec_usage_ok (set_phys st1 m') v T k Hm1 Hk) as (st2 & -> & Hm2 & Ep2 & Hoth2). cbn [obind].
  exists ok, st2, n. split; [done|]. split; [by apply (stops_ext (upa (us_vs u)))|]. rewrite Ep2. cbn [phys set_phys]. rewrite Ep in Hw.
  split; [|split; [done|intros w S j Hw' Hj; by apply Hoth2, maps_phys, Hoth]]. destruct Hw as [W O]. split.
  - intros i Hi. rewrite <- HT. by apply W.
  - intros x Hx. apply O. intros i Hi. rewrite HT. by apply Hx.
Qed.

(** ** Between two processes *)

(** Every chunk of [c] bytes stays inside a page of the destination. *)
Definition fits (c dst size : Z) : Prop :=
  forall k, 0 <= k -> k * c < size -> (dst + k * c) mod 4096 + Z.min c (size - k * c) <= 4096.

(** Source and destination do not share memory. *)
Definition cross_apart (Td Ts : Z -> Z) (dst src size : Z) : Prop :=
  forall i j, 0 <= i < size -> 0 <= j < size -> Ts (src + i) <> 0 -> Td (dst + j) <> 0 -> Ts (src + i) <> Td (dst + j).

(** How far a copy between processes went, and why it ended there. *)
Definition ends (Td Ts : Z -> Z) (dst src size n : Z) (r : Z + bool) : Prop :=
  0 <= n <= size /\ (forall i, 0 <= i < n -> Td (dst + i) <> 0 /\ Ts (src + i) <> 0) /\
  match r with
  | inr true => n = size
  | inr false => n < size /\ Td (dst + n) = 0
  | inl e => e = - EFAULT /\ n < size /\ Ts (src + n) = 0
  end.

Lemma maps_agree st v T S n k : maps st v T n -> maps st v S k -> n = k /\ forall va, T va = S va.
Proof.
  intros (u & Hu & _ & Hn & _ & HT) (u' & Hu' & _ & Hk & _ & HS). rewrite Hu in Hu'. injection Hu' as <-.
  split; [lia|]. intros va. by rewrite <- HT, <- HS.
Qed.

Lemma settled_both st st' d s Td Ts kd ks :
  maps st d Td kd -> maps st s Ts ks -> settled st st' s Ts ks -> maps st' d Td kd /\ maps st' s Ts ks.
Proof.
  intros Hd Hs [H1 H2]. split; [|done]. destruct (decide (d = s)) as [->|Hne]; [|by apply H2].
  destruct (maps_agree _ _ _ _ _ _ Hd Hs) as [-> E]. destruct H1 as (u & Hu & Hok & Hn & Hk & HT). exists u. split_and!; try done.
  intros va. by rewrite HT, E.
Qed.

(** Inside a page of the destination the copied bytes are contiguous. *)
Lemma written_page st d Td kd dst c n data m m' :
  maps st d Td kd -> 0 <= dst -> 0 <= n <= c -> dst mod 4096 + c <= 4096 -> dst + c <= 2 ^ 39 -> Td dst <> 0 ->
  (forall i, 0 <= i < c -> Td (dst + i) = Td dst + i /\ Td (dst + i) <> 0) /\
  (written (fun a => a) (Td dst) n data m m' -> written Td dst n data m m').
Proof.
  intros (u & _ & Hok & _ & _ & HT) Hd Hn Hp Hl Hne.
  assert (Hin : forall i, 0 <= i < c -> Td (dst + i) = Td dst + i /\ Td (dst + i) <> 0).
  { intros i Hi. rewrite <- !HT in *. by apply (proj2 (upa_page (us_vs u) dst i Hok Hd ltac:(lia) ltac:(lia) ltac:(lia))). }
  split; [done|]. intros [W O]. split.
  - intros i Hi. rewrite (proj1 (Hin i ltac:(lia))). by apply W.
  - intros x Hx. apply O. intros i Hi. rewrite <- (proj1 (Hin i ltac:(lia))). by apply Hx.
Qed.

Lemma fits_next c dst size : 0 < c <= size -> fits c dst size -> fits c (dst + c) (size - c).
Proof.
  intros Hc Hf k Hk Hs. specialize (Hf (k + 1) ltac:(lia) ltac:(lia)). replace (dst + c + k * c) with (dst + (k + 1) * c) by lia.
  replace (size - c - k * c) with (size - (k + 1) * c) by lia. done.
Qed.

Lemma cross_sub Td Ts dst src size c n : 0 <= c -> 0 <= n -> c + n <= size -> cross_apart Td Ts dst src size -> cross_apart Td Ts (dst + c) (src + c) n.
Proof. intros Hc Hn Hs Hx i j Hi Hj. rewrite <- !Z.add_assoc. apply Hx; lia. Qed.

Lemma ends_more Td Ts dst src size c n r :
  0 <= c <= size -> (forall i, 0 <= i < c -> Td (dst + i) <> 0 /\ Ts (src + i) <> 0) -> ends Td Ts (dst + c) (src + c) (size - c) n r ->
  ends Td Ts dst src size (c + n) r.
Proof.
  intros Hc H1 (Hn & H2 & H3). split; [lia|]. split.
  - intros i Hi. destruct (decide (i < c)); [apply H1; lia|]. specialize (H2 (i - c) ltac:(lia)).
    by replace (dst + c + (i - c)) with (dst + i) in H2 by lia; replace (src + c + (i - c)) with (src + i) in H2 by lia.
  - rewrite !Z.add_assoc. destruct r as [e|[]]; intuition lia.
Qed.

(** The part of the data that was not copied yet is still as it was. *)
Lemma written_rest Td Ts dst src size c n m m1 m' :
  0 <= c -> 0 <= n -> c + n <= size -> cross_apart Td Ts dst src size ->
  (forall i, 0 <= i < c + n -> Td (dst + i) <> 0 /\ Ts (src + i) <> 0) -> written Td dst c (fun i => m (Ts (src + i))) m m1 ->
  written Td (dst + c) n (fun i => m1 (Ts (src + c + i))) m1 m' -> written Td (dst + c) n (fun i => m (Ts (src + (c + i)))) m1 m'.
Proof.
  intros Hc Hn Hs Hx Hne [_ O] [W O']. split; [|done]. intros i Hi. rewrite W by done. rewrite <- Z.add_assoc. apply O.
  intros j Hj. apply Hx; try lia; apply Hne; lia.
Qed.

Lemma ends_zero Td Ts dst src size r :
  0 <= size -> match r with inr true => 0 = size | inr false => 0 < size /\ Td (dst + 0) = 0 | inl e => e = - EFAULT /\ 0 < size /\ Ts (src + 0) = 0 end ->
  ends Td Ts dst src size 0 r.
Proof. intros Hs Hr. split; [lia|]. split; [intros; lia|done]. Qed.

Lemma written_zero T dst data m : written T dst 0 data m m.
Proof. split; [intros; lia|done]. Qed.

Lemma user_to_user_loop_ok fuel st d s Td Ts kd ks dst src size c :
  maps st d Td kd -> maps st s Ts ks -> 0 <= dst -> 0 <= src -> dst + size <= 2 ^ 39 -> src + size <= 2 ^ 39 -> 0 <= size ->
  0 < c <= 4096 -> size <= c * Z.of_nat fuel -> fits c dst size -> frames_apart Td dst size -> cross_apart Td Ts dst src size ->
  exists r st' n, user_to_user_loop fuel st d dst s src size (4096 - c) = Ret (r, st') /\ maps st' d Td kd /\ maps st' s Ts ks /\
    ends Td Ts dst src size n r /\ written Td dst n (fun i => phys st (Ts (src + i))) (phys st) (phys st').
Proof.
  revert st dst src size.
  assert (Hz : forall fuel st dst src, maps st d Td kd -> maps st s Ts ks -> exists r st' n,
    user_to_user_loop fuel st d dst s src 0 (4096 - c) = Ret (r, st') /\ maps st' d Td kd /\ maps st' s Ts ks /\
    ends Td Ts dst src 0 n r /\ written Td dst n (fun i => phys st (Ts (src + i))) (phys st) (phys st')).
  { intros f st dst src H1 H2. exists (inr true), st, 0. split; [by destruct f|]. split; [done|]. split; [done|]. split; [by apply ends_zero|apply written_zero]. }
  induction fuel as [|fuel IH]; intros st dst src size Hd Hs Pd Ps Ld Ls Pz Hc Hf Hfit Hap Hx.
  { assert (size = 0) as -> by lia. by apply Hz. }
  destruct (decide (size = 0)) as [->|Hnz]; [by apply Hz|]. cbn [user_to_user_loop]. destruct (Z.leb_spec size 0); [lia|].
  change PAGE_SIZE with 4096. replace (4096 - (4096 - c)) with c by lia. pose proof (Hfit 0 ltac:(lia) ltac:(lia)) as Hp.
  replace (0 * c) with 0 in Hp by lia. rewrite Z.add_0_r, Z.sub_0_r in Hp. cbn zeta.
  replace (if size <? c then size else c) with (Z.min c size) by (destruct (Z.ltb_spec size c); lia). set (cs := Z.min c size) in *.
  assert (Hcs : 0 < cs <= size) by lia. rewrite !wrap_small by lia.
  destruct (maps_get _ _ _ _ Hd) as (u & -> & Hok & HT). cbn [obind]. destruct (upa_walk (us_vs u) dst Hok ltac:(lia)) as [-> _]. cbn [obind].
  rewrite HT. unfold INVALID_ADDR, ptov. destruct (Z.eqb_spec (Td dst) 0) as [E0|N0].
  { exists (inr false), st, 0. split; [done|]. split; [done|]. split; [done|]. split; [apply ends_zero; [lia|by rewrite Z.add_0_r]|apply written_zero]. }
  pose proof (fun n data m m' Hn => written_page st d Td kd dst cs n data m m' Hd Pd Hn ltac:(lia) ltac:(lia) N0) as Hpage.
  destruct (Hpage 0 (fun _ => 0) (phys st) (phys st) ltac:(lia)) as [Hin _].
  destruct (copy_from_user_spec st s Ts ks (Td dst) src cs Hs Ps ltac:(lia) ltac:(lia)) as (ok & st1 & n1 & -> & Hst & Hw & Hset).
  { intros i j Hi Hj HN. destruct (Hin j Hj) as [<- Nj]. apply Hx; try lia; done. }
  cbn [obind]. destruct (settled_both st st1 d s Td Ts kd ks Hd Hs Hset) as [Hd1 Hs1]. destruct Hst as (Hn1 & Hne1 & Hstop).
  apply (proj2 (Hpage n1 _ _ _ Hn1)) in Hw.
  destruct ok.
  - subst n1. rewrite s32_small by lia. destruct (Z.leb_spec cs 0); [lia|].
    assert (Hr : exists r st' n, user_to_user_loop fuel st1 d (dst + cs) s (src + cs) (size - cs) (4096 - c) = Ret (r, st') /\ maps st' d Td kd /\
      maps st' s Ts ks /\ ends Td Ts (dst + cs) (src + cs) (size - cs) n r /\
      written Td (dst + cs) n (fun i => phys st1 (Ts (src + cs + i))) (phys st1) (phys st')).
    { destruct (decide (size <= c)) as [Hle|Hgt]; [replace (size - cs) with 0 by lia; by apply Hz|]. replace cs with c in * by lia.
      apply IH; try done; try lia; [by apply fits_next; [lia|]|by apply (apart_sub Td dst size); try lia|by apply (cross_sub Td Ts dst src size); try lia]. }
    destruct Hr as (r & st' & n & -> & Hd' & Hs' & He & Hw'). exists r, st', (cs + n). split; [done|]. split; [done|]. split; [done|].
    assert (He' : ends Td Ts dst src size (cs + n) r) by (apply ends_more; [lia| |done]; intros i Hi; split; [by apply Hin|by apply Hne1]).
    split; [done|]. destruct He as (Hn & _). destruct He' as (Hn' & Hne' & _). apply (written_more Td dst size cs n _ (phys st) (phys st1)); try done; try lia; [intros i Hi; by apply Hne'|].
    by apply (written_rest Td Ts dst src size cs n (phys st) (phys st1)); try lia.
  - destruct Hstop as [Hlt Hz0]. destruct (Z.leb_spec (- EFAULT) 0); [|done]. exists (inl (- EFAULT)), st1, n1.
    split; [done|]. split; [done|]. split; [done|]. split; [|done]. split; [lia|]. split; [|split; [done|split; [lia|done]]].
    intros i Hi. split; [apply Hin; lia|by apply Hne1].
Qed.

(** A string that ends inside the first page. *)
Lemma string_chunk_found n : forall N m dst ksrc copied, (n < N)%nat ->
  (forall i, 0 <= i < Z.of_nat n -> m (ksrc + i) <> 0) -> m (ksrc + Z.of_nat n) = 0 ->
  (forall i j, 0 <= i <= Z.of_nat n -> 0 <= j <= Z.of_nat n -> dst + i <> ksrc + j) ->
  exists m', string_chunk N m dst ksrc copied = (true, copied + Z.of_nat n + 1, dst + Z.of_nat n, m') /\
    written (fun a => a) dst (Z.of_nat n + 1) (fun i => m (ksrc + i)) m m'.
Proof.
  induction n as [|n IH]; intros [|N] m dst ksrc copied HN Hnz Hend Hd; try lia; cbn [string_chunk].
  - assert (Hk : memcpy m dst ksrc 1 ksrc = m ksrc) by (apply memcpy_out; specialize (Hd 0 0 ltac:(lia) ltac:(lia)); lia).
    rewrite Hk. replace (ksrc + Z.of_nat 0) with ksrc in Hend by lia. rewrite Hend. eexists. split; [cbn; do 3 f_equal; lia|]. split.
    + intros i Hi. by apply memcpy_in.
    + intros x Hx. apply memcpy_out. intros Hr. apply (Hx (x - dst) ltac:(lia)). lia.
  - assert (Hk : memcpy m dst ksrc 1 ksrc = m ksrc) by (apply memcpy_out; specialize (Hd 0 0 ltac:(lia) ltac:(lia)); lia).
    rewrite Hk. destruct (Z.eqb_spec (m ksrc) 0) as [E|_]; [by destruct (Hnz 0 ltac:(lia)); rewrite Z.add_0_r|].
    assert (Hm : forall j, 0 <= j <= Z.of_nat (S n) -> memcpy m dst ksrc 1 (ksrc + j) = m (ksrc + j))
      by (intros j Hj; apply memcpy_out; specialize (Hd 0 j ltac:(lia) ltac:(lia)); lia).
    destruct (IH N (memcpy m dst ksrc 1) (dst + 1) (ksrc + 1) (copied + 1) ltac:(lia)) as (m' & E & [W O]).
    + intros i Hi. rewrite <- Z.add_assoc, Hm by lia. apply Hnz. lia.
    + rewrite <- Z.add_assoc, Hm by lia. by replace (1 + Z.of_nat n) with (Z.of_nat (S n)) by lia.
    + intros i j Hi Hj. rewrite <- !Z.add_assoc. apply Hd; lia.
    + exists m'. split; [rewrite E; replace (dst + 1 + Z.of_nat n) with (dst + Z.of_nat (S n)) by lia;
        by replace (copied + 1 + Z.of_nat n + 1) with (copied + Z.of_nat (S n) + 1) by lia|]. split.
      * intros i Hi. destruct (decide (i = 0)) as [->|].
        -- rewrite O by (intros j Hj; lia). by apply memcpy_in.
        -- specialize (W (i - 1) ltac:(lia)). cbn beta in W. replace (dst + 1 + (i - 1)) with (dst + i) in W by lia. rewrite W, <- Z.add_assoc.
           replace (1 + (i - 1)) with i by lia. apply Hm. lia.
      * intros x Hx. rewrite O by (intros j Hj; rewrite <- Z.add_assoc; apply Hx; lia). apply memcpy_out. intros Hr. apply (Hx (x - dst) ltac:(lia)). lia.
Qed.

(** ** Correctness of the copies *)

(** Copying to user space writes the bytes of the kernel's buffer to the memory that the user's
    page tables give for the range, and to no other memory.  It returns the size when the whole range
    is mapped; otherwise [-EFAULT], with everything before the first page that is not mapped
    written.  It always ends, and the usage count of the address space is as before. *)
Theorem copy_to_user_exact st v T k dst src size :
  maps st v T k -> 0 <= dst -> dst + size <= 2 ^ 39 -> 0 <= size < 2 ^ 31 -> frames_apart T dst size -> buffer_apart T dst src size ->
  exists ret st' n, __copy_to_user st v dst src size = Ret (ret, st') /\
    (ret = size /\ n = size \/ ret = - EFAULT /\ 0 <= n < size /\ T (dst + n) = 0) /\
    (forall i, 0 <= i < n -> T (dst + i) <> 0) /\
    written T dst n (fun i => phys st (src + i)) (phys st) (phys st') /\ settled st st' v T k.
Proof.
  intros Hm Hd Hl Hs Hf Hb. destruct (copy_to_user_spec st v T k dst src size Hm Hd Hl ltac:(lia) Hf Hb) as (ok & st' & n & E & (Hn & Hne & Hst) & Hw & Hset).
  exists (if ok then s32 size else - EFAULT), st', n. split; [done|]. split; [|done]. destruct ok; [left|right; lia]. rewrite s32_small; lia.
Qed.

(** What the kernel writes to a mapped user range it reads back unchanged, whatever the layout of
    the pages. *)
Theorem user_copy_roundtrip st v T k va a b size :
  maps st v T k -> 0 <= va -> va + size <= 2 ^ 39 -> 0 <= size < 2 ^ 31 ->
  (forall i, 0 <= i < size -> T (va + i) <> 0) -> frames_apart T va size -> buffer_apart T va a size -> buffer_apart T va b size ->
  exists st1 st2, __copy_to_user st v va a size = Ret (size, st1) /\ __copy_from_user st1 b v va size = Ret (size, st2) /\
    forall i, 0 <= i < size -> phys st2 (b + i) = phys st (a + i).
Proof.
  intros Hm Hva Hl Hs Hne Hf Ha Hb.
  destruct (copy_to_user_spec st v T k va a size Hm Hva Hl ltac:(lia) Hf Ha) as (ok & st1 & n & E & (Hn & _ & Hst) & [W _] & [Hm1 _]).
  destruct (copy_from_user_spec st1 v T k b va size Hm1 Hva Hl ltac:(lia) Hb) as (ok' & st2 & n' & E' & (Hn' & _ & Hst') & [W' _] & _).
  destruct ok; [|by destruct Hst as [? Ez]; apply (Hne n) in Ez; [|lia]]. destruct ok'; [|by destruct Hst' as [? Ez]; apply (Hne n') in Ez; [|lia]].
  subst n n'. rewrite s32_small in E, E' by lia. exists st1, st2. split; [done|]. split; [done|].
  intros i Hi. rewrite W' by done. by apply W.
Qed.

(** The chunks fit when the destination starts on a page, or ends in the second chunk. *)
Lemma fits_aligned dst size : 0 <= dst -> dst mod 4096 = 0 -> fits 4096 dst size.
Proof. intros Hd Ha k Hk Hs. rewrite Z.mod_add, Ha by lia. lia. Qed.

Lemma fits_short dst size : 0 <= dst -> size <= 2 * (4096 - dst mod 4096) -> fits (4096 - dst mod 4096) dst size.
Proof.
  intros Hd Hl k Hk Hs. pose proof (Z.mod_pos_bound dst 4096). set (c := 4096 - dst mod 4096) in *.
  assert (Hk2 : k = 0 \/ k = 1) by (assert (k < 2) by nia; lia). destruct Hk2 as [->| ->].
  - rewrite Z.mul_0_l, Z.add_0_r. lia.
  - assert ((dst + 1 * c) mod 4096 = 0) by (subst c; Z.div_mod_to_equations; lia). lia.
Qed.

Lemma maps_ext st v T S n : maps st v T n -> (forall va, T va = S va) -> maps st v S n.
Proof. intros (u & Hu & Hok & Hn & Hk & HT) E. exists u. split_and!; try done. intros va. by rewrite HT. Qed.

Lemma copy_user_to_user_spec st d s Td Ts kd ks dst src size :
  maps st d Td kd -> maps st s Ts ks -> 0 <= dst -> 0 <= src -> dst + size <= 2 ^ 39 -> src + size <= 2 ^ 39 -> 0 <= size < 2 ^ 31 ->
  dst mod 4096 = 0 \/ size <= 2 * (4096 - dst mod 4096) -> frames_apart Td dst size -> cross_apart Td Ts dst src size ->
  exists ret st' n, copy_user_to_user st d dst s src size = Ret (ret, st') /\
    (ret = size /\ n = size \/ ret = - EFAULT /\ 0 <= n < size /\ (Td (dst + n) = 0 \/ Ts (src + n) = 0)) /\
    (forall i, 0 <= i < n -> Td (dst + i) <> 0 /\ Ts (src + i) <> 0) /\
    written Td dst n (fun i => phys st (Ts (src + i))) (phys st) (phys st').
Proof.
  intros Hd Hs Pd Ps Ld Ls Pz Hal Hap Hx. unfold copy_user_to_user.
  destruct (inc_usage_ok st d Td kd Hd) as (st1 & -> & Hd1 & Ep & Hoth). cbn [obind]. rewrite page_offset_mod by lia.
  assert (Hs1 : exists k, maps st1 s Ts k).
  { destruct (decide (s = d)) as [->|Hne]; [|exists ks; by apply Hoth]. exists (kd + 1). apply (maps_ext _ _ Td); [done|].
    apply (maps_agree _ _ _ _ _ _ Hd Hs). }
  destruct Hs1 as (ks1 & Hs1). pose proof (Z.mod_pos_bound dst 4096). change PAGE_SIZE with 4096. set (c := 4096 - dst mod 4096).
  assert (Hfit : fits c dst size) by (destruct Hal as [E|Hsh]; [unfold c; rewrite E; by apply fits_aligned|by apply fits_short]).
  destruct (user_to_user_loop_ok (Z.to_nat (size / c) + 1) st1 d s Td Ts (kd + 1) ks1 dst src size c) as (r & st2 & n & E & Hd2 & Hs2 & (Hn & Hmap & Hend) & Hw);
    try done; try lia; [subst c; Z.div_mod_to_equations; nia|].
  replace (4096 - c) with (dst mod 4096) in E by lia. rewrite E. cbn [obind]. rewrite Ep in Hw.
  assert (Hk : 0 <= kd) by (destruct Hd as (? & _ & _ & _ & ? & _); done).
  destruct r as [e|ok]; [destruct Hend as (-> & ? & ?); exists (- EFAULT), st2, n; split; [done|]; split; [right; split; [done|]; split; [lia|by right]|done]|].
  destruct (dec_usage_ok st2 d Td kd Hd2 Hk) as (st3 & -> & _ & Ep3 & _). cbn [obind].
  exists (if ok then s32 size else - EFAULT), st3, n. split; [done|]. rewrite Ep3. split; [|done]. destruct ok; [left; rewrite s32_small by lia; lia|].
  right. split; [done|]. split; [lia|left; apply Hend].
Qed.

(** C22: a copy between two processes moves the bytes of the source range to the destination range and
    changes no other memory, if the destination starts on a page or is not longer than two of the
    chunks the code uses.  It stops with [-EFAULT] before the first byte that is not mapped on either
    side. *)
Theorem copy_user_to_user_exact st d s Td Ts kd ks dst src size :
  maps st d Td kd -> maps st s Ts ks -> 0 <= dst -> 0 <= src -> dst + size <= 2 ^ 39 -> src + size <= 2 ^ 39 -> 0 <= size < 2 ^ 31 ->
  dst mod 4096 = 0 \/ size <= 2 * (4096 - dst mod 4096) -> frames_apart Td dst size -> cross_apart Td Ts dst src size ->
  exists ret st' n, copy_user_to_user st d dst s src size = Ret (ret, st') /\
    (ret = size /\ n = size \/ ret = - EFAULT /\ 0 <= n < size /\ (Td (dst + n) = 0 \/ Ts (src + n) = 0)) /\
    (forall i, 0 <= i < n -> Td (dst + i) <> 0 /\ Ts (src + i) <> 0) /\
    written Td dst n (fun i => phys st (Ts (src + i))) (phys st) (phys st').
Proof. apply copy_user_to_user_spec. Qed.

(** C23: a message does not reach past the receiver's buffer when the buffer starts on a page or the
    message is not longer than two of the chunks the code uses: whatever size the sender claims, the copy
    then ends, only memory that the receiver's tables give for its own buffer changes, and the number of
    bytes reported is at most the size of both sides.  For other buffers see
    [user_to_user_leaves_page]. *)
Theorem ipc_data_bounds st tdst tsrc check_size Td Ts kd ks :
  maps st (ut_space tdst) Td kd -> maps st (ut_space tsrc) Ts ks ->
  0 <= a1 tdst -> 0 <= a1 tsrc -> 0 <= a2 tdst < 2 ^ 31 -> 0 <= a2 tsrc -> a1 tdst + a2 tdst <= 2 ^ 39 -> a1 tsrc + a2 tsrc <= 2 ^ 39 ->
  a1 tdst mod 4096 = 0 \/ Z.min (a2 tdst) (a2 tsrc) <= 2 * (4096 - a1 tdst mod 4096) ->
  frames_apart Td (a1 tdst) (a2 tdst) -> cross_apart Td Ts (a1 tdst) (a1 tsrc) (Z.min (a2 tdst) (a2 tsrc)) ->
  exists ret st', kobject_copy_ipc_data st tdst tsrc check_size = Ret (ret, st') /\ ret <= Z.min (a2 tdst) (a2 tsrc) /\
    forall x, (forall i, 0 <= i < a2 tdst -> x <> Td (a1 tdst + i)) -> phys st' x = phys st x.
Proof.
  intros Hd Hs P1 P2 P3 P4 L1 L2 Hal Hap Hx. unfold kobject_copy_ipc_data, copy_region. set (n := Z.min (a2 tdst) (a2 tsrc)) in *.
  destruct (check_size && negb (a2 tdst =? a2 tsrc)); [exists (- EINVAL), st; split; [done|]; split; [unfold EINVAL; lia|done]|].
  destruct (Z.eqb_spec n 0); [exists 0, st; split; [done|]; split; [lia|done]|].
  destruct (copy_user_to_user_spec st (ut_space tdst) (ut_space tsrc) Td Ts kd ks (a1 tdst) (a1 tsrc) n) as (ret & st' & k & E & Hr & _ & [_ O]);
    try done; try lia; [pose proof (apart_sub Td (a1 tdst) (a2 tdst) 0 n) as Hsub; rewrite Z.add_0_r in Hsub; apply Hsub; [lia..|done]|].
  exists ret, st'. split; [done|]. unfold EFAULT in Hr. split; [lia|]. intros x Hne. apply O. intros i Hi. apply Hne. lia.
Qed.

End uaccess.

(** The five instructions compute the comparison in their comment for every address and size,
    wrap-around of the sum included: the range is accepted just if its end is at most one byte past
    [USER_PROCESS_ADDR_LIMIT]. *)
Theorem user_ranges_ok_exact addr size :
  0 <= addr < 2 ^ 64 -> 0 <= size < 2 ^ 64 ->
  user_ranges_ok addr size = (if addr + size <=? USER_PROCESS_ADDR_LIMIT + 1 then 1 else 0).
Proof.
  intros Ha Hs. unfold user_ranges_ok, sbcs, adds, USER_PROCESS_ADDR_LIMIT. cbn [f_c f_z].
  assert (NL : not64 (2 ^ 39) = 2 ^ 64 - 1 - 2 ^ 39) by reflexivity.
  destruct (Z.leb_spec (2 ^ 64) (addr + size)) as [Hc|Hc]; cbn [negb andb].
  - destruct (Z.leb_spec (addr + size) (2 ^ 39 + 1)); [lia|]. destruct (Z.eqb_spec (u64 (addr + size)) 0); vm_compute; reflexivity.
  - rewrite (wrap_small 64 (addr + size)) by lia. cbn [Z.b2z]. rewrite NL, Z.add_0_r.
    destruct (Z.leb_spec (2 ^ 64) (addr + size + (2 ^ 64 - 1 - 2 ^ 39))) as [Hb|Hb]; cbn [negb orb].
    + replace (addr + size + (2 ^ 64 - 1 - 2 ^ 39)) with (addr + size - 2 ^ 39 - 1 + 1 * 2 ^ 64) by lia. unfold wrap.
      rewrite Z.mod_add, Z.mod_small by lia. destruct (Z.eqb_spec (addr + size - 2 ^ 39 - 1) 0), (Z.leb_spec (addr + size) (2 ^ 39 + 1)); lia.
    + destruct (Z.leb_spec (addr + size) (2 ^ 39 + 1)); lia.
Qed.

Lemma user_ranges_ok_exact_witness : user_ranges_ok (2 ^ 63) (2 ^ 63) = 0.
Proof. rewrite (user_ranges_ok_exact (2 ^ 63) (2 ^ 63)) by lia. reflexivity. Defined.

(** ** Two concrete processes *)

(** Two pages at [0x1000] with the frames at [p]. *)
Definition two_pages (p : Z) : vspace (list mem_section) :=
  match arch_host_map demo_space 0x1000 0x3000 p demo_flags with Ret (_, vs) => vs | _ => demo_space end.

Lemma two_pages_ok p : arch_host_map demo_space 0x1000 0x3000 p demo_flags = Ret (0, two_pages p) -> p mod 4096 = 0 -> 0 <= p < 2 ^ 40 -> tables_ok (two_pages p).
Proof.
  intros E Hp Hr. destruct demo_space_ok as [pos Hok].
  pose proof (arch_host_map_spec demo_space pos 0x1000 0x3000 p demo_flags Hok ltac:(lia) ltac:(lia) eq_refl eq_refl Hp Hr) as Hm.
  rewrite E in Hm. destruct Hm as (_ & pos' & _ & _ & Hok' & _); [|by exists pos']. intros va d _. by rewrite demo_space_walk.
Qed.

Lemma two_pages_upa (vs : vspace (list mem_section)) p va : tables_ok vs -> upa vs 0x1000 = p -> upa vs 0x2000 = p + 0x1000 -> 0 < p ->
  0x1000 <= va < 0x3000 -> upa vs va = p + (va - 0x1000).
Proof.
  intros Hok H1 H2 Hp Hva. destruct (decide (va < 0x2000)).
  - replace va with (0x1000 + (va - 0x1000)) at 1 by lia.
    rewrite (proj1 (proj2 (upa_page vs 0x1000 (va - 0x1000) Hok ltac:(lia) ltac:(lia) ltac:(change (0x1000 mod 4096) with 0; lia) ltac:(lia)) ltac:(lia))). lia.
  - replace va with (0x2000 + (va - 0x2000)) at 1 by lia.
    rewrite (proj1 (proj2 (upa_page vs 0x2000 (va - 0x2000) Hok ltac:(lia) ltac:(lia) ltac:(change (0x2000 mod 4096) with 0; lia) ltac:(lia)) ltac:(lia))). lia.
Qed.

Definition ua : vspace (list mem_section) := two_pages 0x50000000.
Definition ub : vspace (list mem_section) := two_pages 0x60000000.

Lemma ua_ok : tables_ok ua.
Proof. apply (two_pages_ok 0x50000000); [vm_compute; reflexivity|reflexivity|lia]. Qed.

Lemma ub_ok : tables_ok ub.
Proof. apply (two_pages_ok 0x60000000); [vm_compute; reflexivity|reflexivity|lia]. Qed.

Lemma ua_upa va : 0x1000 <= va < 0x3000 -> upa ua va = 0x50000000 + (va - 0x1000).
Proof. intros. apply (two_pages_upa ua 0x50000000 va ua_ok); [vm_compute; reflexivity|vm_compute; reflexivity|lia|done]. Qed.

Lemma ub_upa va : 0x1000 <= va < 0x3000 -> upa ub va = 0x60000000 + (va - 0x1000).
Proof. intros. apply (two_pages_upa ub 0x60000000 va ub_ok); [vm_compute; reflexivity|vm_compute; reflexivity|lia|done]. Qed.

(** Each byte of memory holds the low byte of its address. *)
Definition two_processes : ustate (list mem_section) :=
  mk_ust {[ 0%nat := mk_us ua 0 []; 1%nat := mk_us ub 0 [] ]} (fun x => x mod 256).

Lemma ua_maps : maps two_processes 0 (upa ua) 0.
Proof. exists (mk_us ua 0 []). split; [done|]. split; [apply ua_ok|]. done. Qed.

Lemma ub_maps : maps two_processes 1 (upa ub) 0.
Proof. exists (mk_us ub 0 []). split; [done|]. split; [apply ub_ok|]. done. Qed.

(** Ranges of these processes do not overlap. *)
Ltac apart :=
  intros i j Hi Hj;
  repeat match goal with
  | |- context [upa ua ?x] => rewrite (ua_upa x) by lia
  | |- context [upa ub ?x] => rewrite (ub_upa x) by lia
  end; lia.

Lemma copy_to_user_exact_witness :
  exists ret st' n, __copy_to_user two_processes 0 0x1ff0 0x30000000 64 = Ret (ret, st') /\
    (ret = 64 /\ n = 64 \/ ret = - EFAULT /\ 0 <= n < 64 /\ upa ua (0x1ff0 + n) = 0) /\
    (forall i, 0 <= i < n -> upa ua (0x1ff0 + i) <> 0) /\
    written (upa ua) 0x1ff0 n (fun i => phys two_processes (0x30000000 + i)) (phys two_processes) (phys st') /\
    settled two_processes st' 0 (upa ua) 0.
Proof. apply (copy_to_user_exact two_processes 0 (upa ua) 0 0x1ff0 0x30000000 64 ua_maps); [lia|lia|lia|apart|apart]. Defined.

Lemma user_copy_roundtrip_witness :
  exists st1 st2, __copy_to_user two_processes 0 0x1ff0 0x30000000 64 = Ret (64, st1) /\ __copy_from_user st1 0x40000000 0 0x1ff0 64 = Ret (64, st2) /\
    forall i, 0 <= i < 64 -> phys st2 (0x40000000 + i) = phys two_processes (0x30000000 + i).
Proof.
  apply (user_copy_roundtrip two_processes 0 (upa ua) 0 0x1ff0 0x30000000 0x40000000 64 ua_maps); [lia|lia|lia| |apart|apart|apart].
  intros i Hi. rewrite ua_upa by lia. lia.
Defined.

Lemma copy_user_to_user_exact_witness :
  exists ret st' n, copy_user_to_user two_processes 0 0x1ff0 1 0x1800 32 = Ret (ret, st') /\
    (ret = 32 /\ n = 32 \/ ret = - EFAULT /\ 0 <= n < 32 /\ (upa ua (0x1ff0 + n) = 0 \/ upa ub (0x1800 + n) = 0)) /\
    (forall i, 0 <= i < n -> upa ua (0x1ff0 + i) <> 0 /\ upa ub (0x1800 + i) <> 0) /\
    written (upa ua) 0x1ff0 n (fun i => phys two_processes (upa ub (0x1800 + i))) (phys two_processes) (phys st').
Proof.
  apply (copy_user_to_user_exact two_processes 0 1 (upa ua) (upa ub) 0 0 0x1ff0 0x1800 32 ua_maps ub_maps); [lia|lia|lia|lia|lia| |apart|apart].
  right. change (0x1ff0 mod 4096) with 0xff0. lia.
Defined.

Definition receiver : utask := mk_utask 0 0x1ff0 16 0 0.
Definition sender : utask := mk_utask 1 0x1800 0x100 0 0.

Lemma ipc_data_bounds_witness :
  exists ret st', kobject_copy_ipc_data two_processes receiver sender false = Ret (ret, st') /\ ret <= 16 /\
    forall x, (forall i, 0 <= i < 16 -> x <> upa ua (0x1ff0 + i)) -> phys st' x = phys two_processes x.
Proof.
  apply (ipc_data_bounds two_processes receiver sender false (upa ua) (upa ub) 0 0 ua_maps ub_maps); cbn; [lia|lia|lia|lia|lia|lia| |apart|apart].
  right. change (0x1ff0 mod 4096) with 0xff0. lia.
Defined.

(** ** Behaviour outside the theorems *)

(** Three pages at [0x1000] with frames that are not contiguous. *)
Definition scattered : vspace (list mem_section) :=
  match arch_host_map demo_mapped 0x3000 0x4000 0x70000000 demo_flags with
  | Ret (_, vs) => match arch_host_change_map vs 0x2000 0x60000000 demo_flags with Ret (_, vs) => vs | _ => demo_space end
  | _ => demo_space
  end.

Definition overrun_state : ustate (list mem_section) :=
  mk_ust {[ 0%nat := mk_us scattered 0 []; 1%nat := mk_us (two_pages 0x40000000) 0 [] ]} (fun x => if (0x40000000 <=? x) && (x <? 0x40002000) then 7 else 0).

(** The first byte of the destination's third page is not written; the byte after the frame of its
    second page, which is not its own, is. *)
Lemma user_to_user_leaves_page :
  match copy_user_to_user overrun_state 0 0x1400 1 0x1000 0x2000 with
  | Ret (ret, st') => ret = 0x2000 /\ upa scattered 0x3000 = 0x70000000 /\ phys st' 0x70000000 = 0 /\ phys st' 0x60001000 = 7
  | _ => False
  end.
Proof. vm_compute. done. Qed.

(** A source that is not mapped leaves the destination in use. *)
Lemma failed_copy_keeps_usage :
  match copy_user_to_user two_processes 0 0x1000 1 0x8000 16 with
  | Ret (ret, st') => ret = - EFAULT /\ inuse <$> spaces st' !! 0%nat = Some 1
  | _ => False
  end.
Proof. vm_compute. done. Qed.

(** So does the end of a string. *)
Lemma string_keeps_usage :
  match copy_string_from_user 2 two_processes 0 0x30000000 0x10fc 64 with
  | Ret (ret, st') => ret = 5 /\ inuse <$> spaces st' !! 0%nat = Some 1
  | _ => False
  end.
Proof. vm_compute. done. Qed.

(** A string without an end in its first [max] characters is copied again and again, each time behind
    the last copy. *)
Lemma string_never_ends : copy_string_from_user 100 two_processes 0 0x30000000 0x1001 4 = OutOfFuel.
Proof. vm_compute. reflexivity. Qed.

(** The check of a range lets one byte behind the limit pass. *)
Lemma range_past_limit : user_ranges_ok (2 ^ 39) 1 = 1.
Proof. vm_compute. reflexivity. Qed.
