(* ===== verification/Vspace.v ===== *)
(** * Address spaces of processes

    [userspace/vspace.c]: the identifiers of address spaces (ASID), mapping and unmapping memory of a
    process, page faults of the root service, and the system calls for mappings.

    An address space is the [uspace] of [Uaccess]: page tables, usage count, and the pages that went
    back to the page allocator.  The system calls find a process through its handle; that lookup
    ([Handle]) and the rights of the caller are arguments. *)

From S2P Require Import Prelude Types Bits Bitmap Page KPages Stage1 Uaccess.

(** ** Identifiers *)

Definition MAX_ASID : Z := 4096.
Definition FIXED_SHARED_ASID : Z := 0.
Definition FIXED_KERNEL_ASID : Z := 1.
Definition USER_ASID_BASE : Z := 2.

(** [BITMAP_SIZE] is a number of bytes. *)
Definition BITMAP_SIZE (size : Z) : Z := (size + 63) / 64 * 8.

Record asids := mk_asids {
  asid_bitmap : list Z;
  max_asid : Z;
}.

Definition allocate_asid (s : asids) : outcome (Z * asids) :=
  if max_asid s <=? USER_ASID_BASE then Ret (0, s) else
  let* asid := find_next_zero_bit (asid_bitmap s) (max_asid s) USER_ASID_BASE in
  if max_asid s <=? asid then Ret (0, s)
  else let* b := set_bit asid (asid_bitmap s) in Ret (asid, mk_asids b (max_asid s)).

Definition free_asid (s : asids) (asid : Z) : outcome asids :=
  check negb ((max_asid s <=? asid) || (asid <? USER_ASID_BASE)) in
  let* b := clear_bit asid (asid_bitmap s) in Ret (mk_asids b (max_asid s)).

(** [size] is what [arch_get_asid_size] reports. *)
Definition umm_init (s : asids) (size : Z) : outcome asids :=
  let max := if MAX_ASID <? size then MAX_ASID else size in
  if USER_ASID_BASE <? max then
    let* b := bitmap_set (asid_bitmap s) max (BITMAP_SIZE MAX_ASID) in
    let* b := set_bit FIXED_SHARED_ASID b in
    let* b := set_bit FIXED_KERNEL_ASID b in
    Ret (mk_asids b max)
  else Ret (mk_asids (asid_bitmap s) max).

(** The end of [vspace_deinit]: an address space that got no identifier gives none back. *)
Definition put_asid (s : asids) (asid : Z) : outcome asids :=
  if negb (asid =? 0) then free_asid s asid else Ret s.

(** [live] has the identifier of every living address space.  One is added by [vspace_init], also with
    the identifier 0 when none is left, and one is taken away by [vspace_deinit]. *)
Inductive asid_step : asids * list Z -> asids * list Z -> Prop :=
| step_create s live asid s' : allocate_asid s = Ret (asid, s') -> asid_step (s, live) (s', asid :: live)
| step_exit s l1 asid l2 s' : put_asid s asid = Ret s' -> asid_step (s, l1 ++ asid :: l2) (s', l1 ++ l2).

Definition own_asids (live : list Z) : list Z := filter (fun i => i <> 0) live.

Record asid_inv (n : Z) (s : asids) (live : gset Z) : Prop := {
  ai_ok : bitmap_ok (asid_bitmap s);
  ai_size : max_asid s = n;
  ai_max : USER_ASID_BASE < max_asid s <= 64 * Z.of_nat (length (asid_bitmap s));
  ai_live : forall i, i ∈ live -> USER_ASID_BASE <= i < max_asid s;
  ai_bits : forall i, USER_ASID_BASE <= i < max_asid s -> (bit_at (asid_bitmap s) i = true <-> i ∈ live);
}.

Lemma allocate_asid_spec n s live : asid_inv n s live ->
  exists asid s', allocate_asid s = Ret (asid, s') /\
    (asid = 0 /\ s' = s /\ (forall i, USER_ASID_BASE <= i < max_asid s -> i ∈ live) \/
     USER_ASID_BASE <= asid < max_asid s /\ ~ asid ∈ live /\ asid_inv n s' ({[ asid ]} ∪ live)).
Proof.
  intros [Hok Hz Hm Hl Hb]. unfold allocate_asid, USER_ASID_BASE in *. destruct (Z.leb_spec (max_asid s) 2); [lia|].
  destruct (find_next_zero_bit_spec (asid_bitmap s) (max_asid s) 2 Hok ltac:(lia) ltac:(lia)) as (r & -> & (Hr & Hbefore & Hhit)). cbn [obind].
  destruct (Z.leb_spec (max_asid s) r) as [Hge|Hlt].
  - exists 0, s. split; [done|]. left. split; [done|]. split; [done|]. intros i Hi. apply Hb; [done|]. specialize (Hbefore i ltac:(lia)). by apply negb_false_iff.
  - destruct (set_bit_spec (asid_bitmap s) r Hok ltac:(lia)) as (b & -> & (El & Hok' & Hbit)). cbn [obind]. exists r, (mk_asids b (max_asid s)).
    split; [done|]. right. specialize (Hhit ltac:(lia)). apply negb_true_iff in Hhit. split; [lia|]. split; [intros Hin; apply Hb in Hin; [congruence|lia]|].
    split; unfold USER_ASID_BASE; cbn; [done|done|rewrite El; lia| |].
    + intros i [->%elem_of_singleton|Hi]%elem_of_union; [lia|by apply Hl].
    + intros i Hi. rewrite Hbit, elem_of_union, elem_of_singleton, <- Hb by lia. case_bools; intuition lia.
Qed.

Lemma free_asid_spec n s live asid : asid_inv n s live -> asid ∈ live ->
  exists s', free_asid s asid = Ret s' /\ asid_inv n s' (live ∖ {[ asid ]}).
Proof.
  intros [Hok Hz Hm Hl Hb] Hin. specialize (Hl asid Hin) as Ha. unfold free_asid, USER_ASID_BASE in *.
  destruct (Z.leb_spec (max_asid s) asid); [lia|]. destruct (Z.ltb_spec asid 2); [lia|]. cbn [orb negb assert obind].
  destruct (clear_bit_spec (asid_bitmap s) asid Hok ltac:(lia)) as (b & -> & (El & Hok' & Hbit)). cbn [obind]. eexists. split; [done|].
  split; unfold USER_ASID_BASE; cbn; [done|done|rewrite El; lia|intros i [Hi _]%elem_of_difference; by apply Hl|].
  intros i Hi. rewrite Hbit, elem_of_difference, elem_of_singleton, <- Hb by lia. case_bools; intuition (lia || congruence).
Qed.

Lemma umm_init_spec s size :
  asid_bitmap s = replicate 64 0 -> USER_ASID_BASE < size <= MAX_ASID - BITMAP_SIZE MAX_ASID ->
  exists s', umm_init s size = Ret s' /\ max_asid s' = size /\ asid_inv size s' ∅.
Proof.
  unfold umm_init. change (MAX_ASID - BITMAP_SIZE MAX_ASID) with 3584. change (BITMAP_SIZE MAX_ASID) with 512.
  change MAX_ASID with 4096. change USER_ASID_BASE with 2. change FIXED_SHARED_ASID with 0. change FIXED_KERNEL_ASID with 1. intros E Hs. rewrite E.
  destruct (Z.ltb_spec 4096 size); [lia|]. destruct (Z.ltb_spec 2 size); [|lia].
  assert (Hz : bitmap_ok (replicate 64 0)) by (split; [apply Forall_replicate; unfold is_word; lia|rewrite length_replicate; lia]).
  destruct (bitmap_set_spec (replicate 64 0) size 512 Hz) as (b1 & -> & (L1 & K1 & B1)); rewrite ?length_replicate; try lia.
  rewrite length_replicate in L1. cbn [obind]. destruct (set_bit_spec b1 0 K1 ltac:(lia)) as (b2 & -> & (L2 & K2 & B2)). cbn [obind].
  destruct (set_bit_spec b2 1 K2 ltac:(lia)) as (b3 & -> & (L3 & K3 & B3)). cbn [obind]. eexists. split; [done|]. split; [done|].
  split; cbn; unfold USER_ASID_BASE; [done|done|rewrite L3, L2, L1; lia|set_solver|].
  intros i Hi. rewrite B3, B2, B1 by lia. case_bools. unfold bit_at. rewrite lookup_replicate_2 by (Z.div_mod_to_equations; lia).
  rewrite Z.testbit_0_l, andb_false_r, elem_of_empty. done.
Qed.

Definition asids_inv (n : Z) (x : asids * list Z) : Prop :=
  asid_inv n x.1 (list_to_set (own_asids x.2)) /\ NoDup (own_asids x.2).

Lemma put_asid_spec n s l1 asid l2 : asids_inv n (s, l1 ++ asid :: l2) ->
  exists s', put_asid s asid = Ret s' /\ asids_inv n (s', l1 ++ l2).
Proof.
  intros [Hi Hn]. cbn [fst snd] in *. unfold put_asid, asids_inv, own_asids in *. cbn [fst snd] in *. rewrite filter_app, filter_cons in Hi, Hn.
  rewrite filter_app. destruct (Z.eqb_spec asid 0) as [->|Hne]; cbn [negb].
  - rewrite decide_False in Hi, Hn by lia. by exists s.
  - rewrite decide_True in Hi, Hn by done.
    destruct (free_asid_spec n s _ asid Hi) as (s' & E & Hi'); [apply elem_of_list_to_set, elem_of_app; right; by left|].
    exists s'. split; [done|]. apply NoDup_app in Hn as (H1 & H2 & H3). apply NoDup_cons in H3 as [H3 H4]. split.
    + replace (list_to_set (filter _ l1 ++ filter _ l2) : gset Z) with (list_to_set (filter (fun i => i <> 0) l1 ++ asid :: filter (fun i => i <> 0) l2) ∖ {[ asid ]} : gset Z); [done|].
      apply set_eq. intros i. specialize (H2 asid). rewrite elem_of_difference, !elem_of_list_to_set, !elem_of_app, elem_of_cons, elem_of_singleton.
      split; [tauto|]. intros Hi0. split; [tauto|]. intros ->. destruct Hi0 as [Hi0|Hi0]; [|done]. apply (H2 Hi0). by left.
    + apply NoDup_app. split_and!; try done. intros i Hil Hi2. apply (H2 i Hil). by right.
Qed.

Lemma create_asid_spec n s live : asids_inv n (s, live) ->
  exists asid s', allocate_asid s = Ret (asid, s') /\ asids_inv n (s', asid :: live) /\
    (asid = 0 /\ (forall i, USER_ASID_BASE <= i < n -> i ∈ live) \/ USER_ASID_BASE <= asid < n /\ asid ∉ live).
Proof.
  intros [Hi Hn]. cbn [fst snd] in *. pose proof (ai_size _ _ _ Hi) as Em. unfold asids_inv, own_asids in *. cbn [fst snd].
  assert (Hown : forall i, i ∈ (list_to_set (filter (fun i => i <> 0) live) : gset Z) <-> i <> 0 /\ i ∈ live)
    by (intros i; by rewrite elem_of_list_to_set, list_elem_of_filter).
  destruct (allocate_asid_spec n s _ Hi) as (asid & s' & E & Hcase). exists asid, s'. split; [done|]. rewrite filter_cons, Em in *.
  destruct Hcase as [(-> & -> & Hall)|(Hr & Hnew & Hi')].
  - rewrite decide_False by lia. split; [done|]. left. split; [done|]. intros i Hr. by apply Hown, Hall.
  - assert (asid <> 0) as Hz by (unfold USER_ASID_BASE in Hr; lia). rewrite decide_True by done. rewrite Hown in Hnew. split.
    + split; [done|]. apply NoDup_cons. split; [|done]. rewrite list_elem_of_filter. done.
    + right. split; [done|]. tauto.
Qed.

Lemma asid_steps_inv n x y : rtc asid_step x y -> asids_inv n x -> asids_inv n y.
Proof.
  induction 1 as [|x y z Hs _ IH]; [done|]. intros Hi. apply IH. clear IH. destruct Hs as [s live asid s' E|s l1 asid l2 s' E].
  - destruct (create_asid_spec n s live Hi) as (r & s1 & E1 & H1 & _). rewrite E in E1. by simplify_eq.
  - destruct (put_asid_spec n s l1 asid l2 Hi) as (s1 & E1 & H1). rewrite E in E1. by simplify_eq.
Qed.

(** C24: After any sequence of creations and exits of address spaces, no two living ones have the same
    identifier, apart from 0, which those created while no identifier was left all have; the next
    creation ends and gets an identifier that is in range and that no living address space has, or 0,
    and then all identifiers in range are taken; and each living address space can be released.  The
    number of identifiers is at most 3584, the largest for which the initialisation stays inside its
    bitmap (the platforms report 256). *)
Theorem asid_never_shared s0 size s1 s live :
  asid_bitmap s0 = replicate 64 0 -> USER_ASID_BASE < size <= MAX_ASID - BITMAP_SIZE MAX_ASID ->
  umm_init s0 size = Ret s1 -> rtc asid_step (s1, []) (s, live) ->
  NoDup (own_asids live) /\
  (exists asid s', allocate_asid s = Ret (asid, s') /\
    (asid = 0 /\ (forall i, USER_ASID_BASE <= i < size -> i ∈ live) \/ USER_ASID_BASE <= asid < size /\ asid ∉ live)) /\
  (forall asid, asid ∈ live -> exists s', put_asid s asid = Ret s').
Proof.
  intros Hb Hs Hi Hr. destruct (umm_init_spec s0 size Hb Hs) as (s1' & E & Hmax & Hinv). rewrite Hi in E. injection E as <-.
  assert (Hx : asids_inv size (s1, [])) by (split; [exact Hinv|constructor]).
  pose proof (asid_steps_inv size _ _ Hr Hx) as Hinv'. split; [apply Hinv'|]. split.
  - destruct (create_asid_spec size s live Hinv') as (r & s' & E & _ & Hcase). by exists r, s'.
  - intros asid (l1 & l2 & ->)%list_elem_of_split. destruct (put_asid_spec size s l1 asid l2 Hinv') as (s' & E & _). by exists s'.
Qed.

Definition boot_asids : asids := mk_asids (replicate 64 0) 0.

Definition booted : asids := match umm_init boot_asids 256 with Ret s => s | _ => boot_asids end.
Definition created (s : asids) : asids := match allocate_asid s with Ret (_, s) => s | _ => s end.
Definition exited : asids := match put_asid (created (created booted)) 2 with Ret s => s | _ => booted end.

(** Two processes start, and the first one exits. *)
Lemma asid_never_shared_witness :
  NoDup (own_asids [3]) /\
  (exists asid s', allocate_asid exited = Ret (asid, s') /\
    (asid = 0 /\ (forall i, USER_ASID_BASE <= i < 256 -> i ∈ [3]) \/ USER_ASID_BASE <= asid < 256 /\ asid ∉ [3])) /\
  (forall asid, asid ∈ [3] -> exists s', put_asid exited asid = Ret s').
Proof.
  apply (asid_never_shared boot_asids 256 booted exited [3] eq_refl); [done|vm_compute; reflexivity|].
  eapply rtc_l; [apply (step_create booted [] 2 (created booted)); vm_compute; reflexivity|].
  eapply rtc_l; [apply (step_create (created booted) [2] 3 (created (created booted))); vm_compute; reflexivity|].
  apply rtc_once, (step_exit (created (created booted)) [3] 2 [] exited). vm_compute. reflexivity.
Defined.

(** With one identifier left for processes, the second and the third living one both have 0. *)
Lemma exhausted_asids_shared :
  exists s1 s, umm_init boot_asids 3 = Ret s1 /\ rtc asid_step (s1, []) (s, [0; 0; 2]).
Proof.
  eexists _, _. split; [vm_compute; reflexivity|].
  do 3 (eapply rtc_l; [apply step_create; vm_compute; reflexivity|]). apply rtc_refl.
Qed.

(** With 4096 identifiers the initialisation leaves the bitmap. *)
Lemma umm_init_overruns : umm_init boot_asids 65536 = Fault.
Proof. vm_compute. reflexivity. Qed.

(** ** Memory of a process *)

Definition SYS_PROC_HEAP_BASE : Z := 64 * 1024 * 1024 * 1024.
Definition SYS_PROC_HEAP_END : Z := SYS_PROC_HEAP_BASE + 256 * 1024 * 1024.

Section vspace.
Context {A : Type} `{KPages A}.

Definition set_vs (u : uspace A) (vs : vspace A) : uspace A := mk_us vs (inuse u) (us_freed u).

(** The configuration in which the kernel's tables serve processes. *)
Definition __map_process_memory (u : uspace A) (vaddr end_ phy flags : Z) : outcome (Z * uspace A) :=
  let* (ret, vs) := arch_host_map (us_vs u) vaddr end_ phy flags in
  if negb (ret =? 0) then
    let* (_, vs) := arch_host_unmap vs vaddr end_ in Ret (ret, set_vs u vs)
  else Ret (ret, set_vs u vs).

Definition map_process_memory (u : uspace A) (vaddr size phy flags : Z) : outcome (Z * uspace A) :=
  let end_ := u64 (vaddr + size) in
  if negb (IS_PAGE_ALIGN vaddr) || negb (IS_PAGE_ALIGN phy) || negb (IS_PAGE_ALIGN size) then Ret (- EINVAL, u)
  else __map_process_memory u vaddr end_ phy flags.

Definition unmap_process_memory (u : uspace A) (vaddr size : Z) : outcome (Z * uspace A) :=
  if negb (IS_PAGE_ALIGN vaddr) || negb (IS_PAGE_ALIGN size) then Ret (- EINVAL, u) else
  let used := inuse u in
  let* (ret, vs) := arch_host_unmap (us_vs u) vaddr (u64 (vaddr + size)) in
  let u := set_vs u vs in
  Ret (ret, if used =? 0 then release_vspace_pages u else u).

(** A new address space has one empty table.  [a] is the page allocator. *)
Definition vspace_init (a : A) (s : asids) : outcome (Z * option (uspace A * Z) * asids) :=
  let* (pgd, a) := get_free_page a GFP_KERNEL in
  if pgd =? 0 then Ret (- ENOMEM, None, s) else
  let* (asid, s) := allocate_asid s in
  Ret (0, Some (mk_us (mk_vspace {[ pgd := replicate 512 0 ]} pgd [] a) 0 [], asid), s).

Definition vspace_deinit (u : uspace A) (asid : Z) (s : asids) : outcome (uspace A * asids) :=
  let* (_, u) := unmap_process_memory u 0 USER_PROCESS_ADDR_LIMIT in
  let u := if negb (pgdp (us_vs u) =? 0) then mk_us (us_vs u) (inuse u) (us_freed u ++ [pgdp (us_vs u)]) else u in
  let* s := put_asid s asid in
  Ret (u, s).

(** A page that is mapped already is passed over without moving on to the next address. *)
Fixpoint map_page_loop (n : nat) (u : uspace A) (virt flags : Z) : outcome (Z * uspace A) :=
  match n with
  | O => Ret (0, u)
  | S n =>
      let* phy := arch_translate_va_to_pa (us_vs u) virt in
      if negb (phy =? 0) then map_page_loop n u virt flags else
      let vs := us_vs u in
      let* (mem, a) := get_free_page (vs_pages vs) GFP_USER in
      let u := set_vs u (mk_vspace (tables vs) (pgdp vs) (release_pages vs) a) in
      if mem =? 0 then Ret (- ENOMEM, u) else
      let* (ret, u) := __map_process_memory u virt (u64 (virt + PAGE_SIZE)) (vtop mem) flags in
      if negb (ret =? 0) then Ret (ret, mk_us (us_vs u) (inuse u) (us_freed u ++ [mem]))
      else map_page_loop n u (u64 (virt + PAGE_SIZE)) flags
  end.

Definition __map_process_page_internal (u : uspace A) (virt size flags : Z) : outcome (Z * uspace A) :=
  map_page_loop (Z.to_nat (Z.shiftr size PAGE_SHIFT)) u virt flags.

(** A fault that cannot be handled ends in [panic]. *)
Definition handle_page_fault_internal (u : uspace A) (virt : Z) (write : bool) : outcome (Z * uspace A) :=
  if (virt <? SYS_PROC_HEAP_BASE) || (SYS_PROC_HEAP_END <=? virt) then Panic else
  let flags := if write then Z.lor __VM_READ __VM_WRITE else __VM_READ in
  let* (ret, u) := __map_process_page_internal u (PAGE_ALIGN virt) PAGE_SIZE flags in
  if negb (ret =? 0) then Panic else Ret (0, u).

(** What the kernel tells the root service about a fault of another process. *)
Definition handle_page_fault_ipc_info (write : bool) : Z := if write then 1 else 2.

(** ** System calls *)

Definition KOBJ_RIGHT_READ : Z := 1.
Definition KOBJ_RIGHT_WRITE : Z := 2.
Definition KOBJ_RIGHT_EXEC : Z := 4.

Definition right_flags (right : Z) : Z :=
  let flags := if negb (Z.land right KOBJ_RIGHT_READ =? 0) then __VM_READ else 0 in
  let flags := if negb (Z.land right KOBJ_RIGHT_WRITE =? 0) then Z.lor flags __VM_WRITE else flags in
  if negb (Z.land right KOBJ_RIGHT_EXEC =? 0) then Z.lor flags __VM_EXEC else flags.

(** [found] is the process behind the handle. *)
Definition sys_map_anon (root : bool) (found : option (uspace A)) (virt size right : Z) : outcome (Z * option (uspace A)) :=
  if negb root then Ret (- EPERM, found) else
  if negb (IS_PAGE_ALIGN virt) || negb (IS_PAGE_ALIGN size) || (size =? 0) then Ret (- EINVAL, found) else
  match found with
  | None => Ret (- ENOENT, found)
  | Some u => let* (ret, u) := __map_process_page_internal u virt size (right_flags right) in Ret (ret, Some u)
  end.

Definition sys_unmap_anon (root : bool) (found : option (uspace A)) (virt size : Z) : outcome (Z * option (uspace A)) :=
  if negb root then Ret (- EPERM, found) else
  match found with
  | None => Ret (- ENOENT, found)
  | Some u => let* (ret, u) := unmap_process_memory u virt size in Ret (ret, Some u)
  end.

(** The common tests of [sys_map] and [sys_unmap]; [anon] and [pma] are the two ways to go on. *)
Definition sys_map {B} (vmctl : bool) (pma_handle virt size : Z) (denied : Z -> B) (anon pma : outcome B) : outcome B :=
  if user_ranges_ok virt size =? 0 then Ret (denied (- EFAULT)) else
  if negb vmctl then Ret (denied (- EPERM)) else
  if negb (IS_PAGE_ALIGN virt) || negb (IS_PAGE_ALIGN size) then Ret (denied (- EINVAL)) else
  if pma_handle <=? 0 then anon else pma.

Definition sys_mtrans (vmctl : bool) (u : uspace A) (virt : Z) : outcome Z :=
  if user_ranges_ok virt 8 =? 0 then Ret (u64 (- EFAULT)) else
  if negb vmctl then Ret (u64 (- EPERM)) else
  let* addr := arch_translate_va_to_pa (us_vs u) virt in
  Ret (if addr =? 0 then u64 (-1) else addr).

(** ** The kernel's own address space

    [core/host_vspace.c]; [h] is [host_vspace].  The notifier of [arch_host_unmap] releases the
    pages at once. *)

Definition VM_HUGE : Z := __VM_HUGE_2M.
Definition VM_RW : Z := Z.lor __VM_READ __VM_WRITE.
Definition VM_IO : Z := Z.lor (Z.lor __VM_IO __VM_DEVMAP) __VM_PFNMAP.

Definition create_host_mapping (h : uspace A) (vir phy size flags : Z) : outcome (Z * uspace A) :=
  if negb (IS_PAGE_ALIGN vir) || negb (IS_PAGE_ALIGN phy) || negb (IS_PAGE_ALIGN size) then Ret (- EINVAL, h) else
  let* (ret, vs) := arch_host_map (us_vs h) vir (u64 (vir + size)) phy (Z.lor (Z.lor flags __VM_HOST) VM_HUGE) in
  Ret (ret, set_vs h vs).

Definition host_unmap (h : uspace A) (start end_ : Z) : outcome (Z * uspace A) :=
  let* (ret, vs) := arch_host_unmap (us_vs h) start end_ in
  Ret (ret, release_vspace_pages (set_vs h vs)).

Definition destroy_host_mapping (h : uspace A) (vir size : Z) : outcome (Z * uspace A) :=
  if negb (IS_PAGE_ALIGN vir) || negb (IS_PAGE_ALIGN size) then Ret (- EINVAL, h)
  else host_unmap h vir (u64 (vir + size)).

Definition change_host_mapping (h : uspace A) (vir phy new_flags : Z) : outcome (Z * uspace A) :=
  let* (ret, vs) := arch_host_change_map (us_vs h) vir phy (Z.lor new_flags __VM_HOST) in
  Ret (ret, set_vs h vs).

Definition io_remap (h : uspace A) (vir size : Z) : outcome (Z * uspace A) :=
  let end_ := PAGE_BALIGN (u64 (vir + size)) in
  let start := PAGE_ALIGN vir in
  let new_size := u64 (end_ - vir) in
  let* (ret, h) := create_host_mapping h start vir new_size (Z.lor VM_IO VM_RW) in
  Ret (if ret =? 0 then ptov vir else 0, h).

Definition io_unmap (h : uspace A) (vir size : Z) : outcome (Z * uspace A) :=
  host_unmap h (PAGE_ALIGN vir) (PAGE_BALIGN (u64 (vir + size))).

(** ** Correctness *)


(** A page fault of the root service in its heap is served with a page that nobody had: when there
    is memory for it and for its tables, the whole page of the address is mapped to the new page with
    the rights of the access, and no other address changes. *)
Theorem page_fault_maps_page u virt (write : bool) mem a vs' :
  let flags := if write then Z.lor __VM_READ __VM_WRITE else __VM_READ in
  tables_ok (us_vs u) -> SYS_PROC_HEAP_BASE <= virt < SYS_PROC_HEAP_END ->
  (forall va, PAGE_ALIGN virt <= va < PAGE_ALIGN virt + 4096 -> walk (us_vs u) va = None) ->
  get_free_page (vs_pages (us_vs u)) GFP_USER = Ret (mem, a) -> mem <> 0 ->
  arch_host_map (mk_vspace (tables (us_vs u)) (pgdp (us_vs u)) (release_pages (us_vs u)) a) (PAGE_ALIGN virt) (PAGE_ALIGN virt + 4096) mem flags = Ret (0, vs') ->
  exists u', handle_page_fault_internal u virt write = Ret (0, u') /\ tables_ok (us_vs u') /\
    ~ kp_live (vs_pages (us_vs u)) mem /\
    (forall va, PAGE_ALIGN virt <= va < PAGE_ALIGN virt + 4096 -> maps_to flags va (mem + (va - PAGE_ALIGN virt)) (walk (us_vs u') va)) /\
    (forall va, 0 <= va < 2 ^ 39 -> ~ PAGE_ALIGN virt <= va < PAGE_ALIGN virt + 4096 -> walk (us_vs u') va = walk (us_vs u) va).
Proof.
  intros flags [pos Hok] Hv Hno Hget Hmem Hmap. assert (Hv' : 0 <= virt < 2 ^ 39 - 4096) by (unfold SYS_PROC_HEAP_END, SYS_PROC_HEAP_BASE in Hv; lia).
  destruct (PAGE_ALIGN_spec virt ltac:(lia)) as (Hp1 & Hp2 & Hp3). unfold handle_page_fault_internal. set (p := PAGE_ALIGN virt) in *. clearbody p.
  destruct (get_free_page_new _ _ _ _ (pt_alloc _ _ Hok) Hget) as [[? _]|(Hm1 & Hm2 & Hm3 & Hlive & Hka & Hl)]; [done|].
  assert (Hok1 : pt_ok (mk_vspace (tables (us_vs u)) (pgdp (us_vs u)) (release_pages (us_vs u)) a) pos).
  { destruct Hok as [K1 K2 K3 K4 K5]. split; cbn; try done. intros x pl Hx. destruct (K2 x pl Hx) as (? & ? & ?). split; [done|]. split; [done|]. apply Hl. by right. }
  pose proof (arch_host_map_spec _ pos p (p + 4096) mem flags Hok1) as Hpost. rewrite Hmap in Hpost.
  destruct Hpost as (mid & pos' & _ & [[_ ->]|?] & Hok' & _ & [HQ HR]); try lia; try done; [Z.div_mod_to_equations; lia| |].
  { intros va d Hva. change (walk (us_vs u) va <> Some (LBlock d)). by rewrite Hno. }
  destruct (Z.ltb_spec virt SYS_PROC_HEAP_BASE); [lia|]. destruct (Z.leb_spec SYS_PROC_HEAP_END virt); [lia|]. cbn [orb].
  fold flags. unfold __map_process_page_internal. change (Z.to_nat (Z.shiftr PAGE_SIZE PAGE_SHIFT)) with 1%nat. cbn [map_page_loop].
  destruct (upa_walk (us_vs u) p) as [-> Eu]; [by exists pos|lia|]. rewrite (Hno p) in Eu by lia. rewrite Eu. cbn [obind Z.eqb negb]. rewrite Hget. cbn [obind].
  destruct (Z.eqb_spec mem 0); [done|]. unfold __map_process_memory, vtop. change PAGE_SIZE with 4096. rewrite wrap_small by lia. cbn [us_vs set_vs]. rewrite Hmap. cbn [obind Z.eqb negb].
  eexists. split; [done|]. split; [by exists pos'|]. split; [done|]. split.
  - intros va Hva. specialize (HQ va Hva). cbn in HQ. by replace (mem + (va - p)) with (va + (mem - p)) by lia.
  - intros va Hva Hn. by apply HR.
Qed.

End vspace.

(** ** Concrete address spaces *)

#[local] Strategy 100 [demo_mapped demo_space demo_pool].

Definition used_space : uspace (list mem_section) := mk_us demo_mapped 1 [].


Definition root_space : uspace (list mem_section) := mk_us demo_space 0 [].
Definition fault_addr : Z := SYS_PROC_HEAP_BASE + 0x123.

(** The page for the fault, the allocator after it, and the tables with it. *)
Definition fault_page : Z * list mem_section :=
  match get_free_page demo_pool GFP_USER with Ret r => r | _ => (0, demo_pool) end.
Definition fault_tables : vspace (list mem_section) :=
  match arch_host_map (mk_vspace (tables demo_space) demo_root [] fault_page.2) SYS_PROC_HEAP_BASE (SYS_PROC_HEAP_BASE + 4096) fault_page.1
          (Z.lor __VM_READ __VM_WRITE) with
  | Ret (_, vs) => vs
  | _ => demo_space
  end.

Lemma page_fault_maps_page_witness :
  exists u', handle_page_fault_internal root_space fault_addr true = Ret (0, u') /\ tables_ok (us_vs u') /\
    maps_to (Z.lor __VM_READ __VM_WRITE) SYS_PROC_HEAP_BASE fault_page.1 (walk (us_vs u') SYS_PROC_HEAP_BASE) /\ walk (us_vs u') 0x1000 = None.
Proof.
  destruct (page_fault_maps_page root_space fault_addr true fault_page.1 fault_page.2 fault_tables demo_space_ok) as (u' & E & Hok & _ & Hin & Hout).
  - unfold fault_addr, SYS_PROC_HEAP_END, SYS_PROC_HEAP_BASE. lia.
  - intros va _. apply demo_space_walk.
  - vm_compute. reflexivity.
  - vm_compute. discriminate.
  - vm_compute. reflexivity.
  - change (PAGE_ALIGN fault_addr) with SYS_PROC_HEAP_BASE in *. exists u'. split; [exact E|]. split; [exact Hok|]. split.
    + pose proof (Hin SYS_PROC_HEAP_BASE ltac:(lia)) as Hm. rewrite Z.sub_diag, Z.add_0_r in Hm. exact Hm.
    + rewrite (Hout 0x1000 ltac:(lia) ltac:(unfold SYS_PROC_HEAP_BASE; lia)). apply demo_space_walk.
Defined.

(** ** Behaviour outside the theorems *)

(** The exit of a process gives its tables back, the root last. *)
Lemma exit_releases :
  match vspace_deinit (mk_us demo_mapped 0 []) 0 boot_asids with
  | Ret (u, _) => walk (us_vs u) 0x1000 = None /\ us_freed u = [0x40001000; 0x40002000; demo_root]
  | _ => False
  end.
Proof. vm_compute. done. Qed.

(** Mapping two pages of which the first is mapped already maps neither. *)
Lemma map_skips_rest :
  match __map_process_page_internal (mk_us demo_mapped 0 []) 0x2000 0x2000 __VM_READ with
  | Ret (ret, u) => ret = 0 /\ walk (us_vs u) 0x3000 = None
  | _ => False
  end.
Proof. vm_compute. done. Qed.

(** A write fault is reported as a read, and the other way round. *)
Lemma fault_rights_swapped : handle_page_fault_ipc_info true = KOBJ_RIGHT_READ /\ handle_page_fault_ipc_info false = KOBJ_RIGHT_WRITE.
Proof. done. Qed.

(** A device whose registers do not start on a page cannot be mapped, although the range is widened to
    whole pages. *)
Lemma io_remap_needs_page h vir size : vir mod 4096 <> 0 -> io_remap (A := list mem_section) h vir size = Ret (0, h).
Proof.
  intros Hv. unfold io_remap, create_host_mapping. rewrite (IS_PAGE_ALIGN_spec vir). destruct (Z.eqb_spec (vir mod 4096) 0); [done|].
  cbn [negb]. by rewrite orb_true_r.
Qed.
