(* ===== verification/Handle.v ===== *)
(** * Kernel objects and handles

    The capability system of the kernel: reference-counted kernel objects
    ([userspace/kobject.c]), the handle tables of processes with the rights each
    handle carries, and the transfer of handles between processes
    ([userspace/handle.c], [userspace/syscall.c]), and the handles a new process starts
    with ([userspace/process.c]).

    A [struct kobject *] is its address; 0 is [NULL].  A process is its index in the
    list of processes, its handle table the chain of table pages as a list.  What an
    object does when it is closed or released belongs to its type: the calls through
    [kobj->ops] and the poll events are recorded in the trace [calls], and what they
    return is an argument. *)

From S2P Require Import Prelude Types Bits Bitmap Page KPages.

Definition KOBJ_RIGHT_NONE : Z := 0x0.
Definition KOBJ_RIGHT_READ : Z := 0x1.
Definition KOBJ_RIGHT_WRITE : Z := 0x2.
Definition KOBJ_RIGHT_MMAP : Z := 0x8.
Definition KOBJ_RIGHT_CTL : Z := 0x10.
Definition PROC_RIGHT : Z := Z.lor KOBJ_RIGHT_READ KOBJ_RIGHT_CTL.
Definition PROC_RIGHT_MASK : Z := KOBJ_RIGHT_CTL.
Definition KOBJ_FLAGS_NON_SHARED : Z := 0x1.
Definition KOBJ_TYPE_PROCESS : Z := 1.
Definition KOBJ_TYPE_MAX : Z := 13.
Definition EV_OUT : Z := 1.
Definition EV_ROPEN : Z := 2.
Definition EV_RCLOSE : Z := 3.
Definition EV_WOPEN : Z := 4.
Definition EV_WCLOSE : Z := 5.

Definition KOBJ_PLACEHOLDER : Z := -1.
Definition HANDLE_NULL : Z := -1.
Definition NR_DESC_PER_PAGE : Z := PAGE_SIZE / 16 - 1.
Definition PROC_MAX_HANDLE : Z := NR_DESC_PER_PAGE * 128.
Definition WRONG_HANDLE (handle : Z) : bool :=
  (handle =? HANDLE_NULL) || (PROC_MAX_HANDLE <=? u64 handle).

Record kobject := mk_kobject {
  ko_type : Z;
  ko_flags : Z;
  ko_right_mask : Z;
  ko_ref : Z;
  ko_data : nat;
}.

Record handle_desc := mk_desc {
  hd_kobj : Z;
  hd_right : Z;
}.

Record handle_table := mk_table {
  ht_descs : list handle_desc;
  ht_index : Z;
  ht_left : Z;
}.

Record process := mk_process {
  handle_desc_table : list handle_table;
}.

(** Calls that leave this component. *)
Inductive call : Type :=
| CallRelease (kobj : Z)
| CallOpen (kobj handle right : Z)
| CallClose (kobj right : Z) (proc : nat)
| CallOp (kobj req : Z)
| PollEvent (kobj ev : Z).

Record hstate (A : Type) := mk_hstate {
  kobjs : gmap Z kobject;
  procs : list process;
  calls : list call;
  h_pages : A;
}.
Arguments mk_hstate {A}.
Arguments kobjs {A}.
Arguments procs {A}.
Arguments calls {A}.
Arguments h_pages {A}.

Definition set_ref (r : Z) (o : kobject) : kobject :=
  mk_kobject (ko_type o) (ko_flags o) (ko_right_mask o) r (ko_data o).

Section handles.
Context {A : Type} `{KPages A}.

Definition set_kobjs (hs : hstate A) (m : gmap Z kobject) : hstate A :=
  mk_hstate m (procs hs) (calls hs) (h_pages hs).
Definition set_procs (hs : hstate A) (l : list process) : hstate A :=
  mk_hstate (kobjs hs) l (calls hs) (h_pages hs).
Definition log_call (hs : hstate A) (c : call) : hstate A :=
  mk_hstate (kobjs hs) (procs hs) (calls hs ++ [c]) (h_pages hs).

Definition get_obj (hs : hstate A) (k : Z) : outcome kobject :=
  match kobjs hs !! k with Some o => Ret o | None => Fault end.
Definition get_proc (hs : hstate A) (p : nat) : outcome process :=
  match procs hs !! p with Some x => Ret x | None => Fault end.

(** ** Reference counts *)

Definition kobject_release (hs : hstate A) (k : Z) : hstate A := log_call hs (CallRelease k).

(** [atomic_inc_if_postive] leaves a negative count alone and returns it. *)
Definition kobject_get (hs : hstate A) (k : Z) : outcome (Z * hstate A) :=
  if k =? 0 then Ret (0, hs) else
  let* o := get_obj hs k in
  let old := ko_ref o in
  check 0 <=? old in
  Ret (1, set_kobjs hs (<[k := set_ref (s32 (old + 1)) o]> (kobjs hs))).

(** [atomic_dec_set_negtive_if_zero]: the count goes from 1 to -1. *)
Definition kobject_put (hs : hstate A) (k : Z) : outcome (Z * hstate A) :=
  if k =? 0 then Ret (0, hs) else
  let* o := get_obj hs k in
  let old := ko_ref o in
  check 0 <? old in
  let new := if old - 1 =? 0 then -1 else old - 1 in
  let hs := set_kobjs hs (<[k := set_ref new o]> (kobjs hs)) in
  Ret (1, if old =? 1 then kobject_release hs k else hs).

Definition put_kobject (hs : hstate A) (k : Z) : outcome (Z * hstate A) := kobject_put hs k.

(** [kobject_init] leaves the flags and the count of the zeroed object. *)
Definition kobject_init (hs : hstate A) (k type right_mask : Z) (data : nat) : outcome (hstate A) :=
  check negb (k =? 0) in
  let* o := get_obj hs k in
  Ret (set_kobjs hs (<[k := mk_kobject type (ko_flags o) right_mask (ko_ref o) data]> (kobjs hs))).

(** [op_ret] is what [kobj->ops->close] returns, if the object has that operation. *)
Definition kobject_close (hs : hstate A) (k right : Z) (proc : nat) (op_ret : option Z)
    : outcome (Z * hstate A) :=
  if right =? KOBJ_RIGHT_NONE then
    let* (_, hs) := kobject_put hs k in Ret (0, hs)
  else
    let (ret, hs) := match op_ret with
                     | Some r => (r, log_call hs (CallClose k right proc))
                     | None => (0, hs)
                     end in
    let hs := if negb (Z.land right KOBJ_RIGHT_WRITE =? 0) then log_call hs (PollEvent k EV_WCLOSE)
              else if negb (Z.land right KOBJ_RIGHT_READ =? 0) then log_call hs (PollEvent k EV_RCLOSE)
              else hs in
    let* (_, hs) := kobject_put hs k in
    Ret (ret, hs).

Definition kobject_open (hs : hstate A) (k handle right : Z) (op_ret : option Z) : Z * hstate A :=
  match op_ret with
  | None => (0, hs)
  | Some ret =>
      let hs := log_call hs (CallOpen k handle right) in
      if negb (ret =? 0) then (ret, hs) else
      (0, log_call hs (PollEvent k (if negb (Z.land right KOBJ_RIGHT_WRITE =? 0) then EV_WOPEN else EV_ROPEN)))
  end.

(** ** Handle tables *)

Definition empty_desc : handle_desc := mk_desc 0 KOBJ_RIGHT_NONE.

Definition new_handle_desc_table (hs : hstate A) (index : Z) : outcome (option handle_table * hstate A) :=
  if PROC_MAX_HANDLE <=? index then Ret (None, hs) else
  let* (v, a) := get_free_page (h_pages hs) GFP_KERNEL in
  let hs := mk_hstate (kobjs hs) (procs hs) (calls hs) a in
  if v =? 0 then Ret (None, hs)
  else Ret (Some (mk_table (replicate (Z.to_nat NR_DESC_PER_PAGE) empty_desc) index NR_DESC_PER_PAGE), hs).

(** The position of a handle: which table of the chain and which entry of it.  Past
    the last table the walk dereferences [NULL]. *)
Fixpoint lookup_tables (l : list handle_table) (i : nat) (handle : Z) : outcome (nat * nat) :=
  match l with
  | [] => Fault
  | _ :: l => if NR_DESC_PER_PAGE <=? u64 handle then lookup_tables l (S i) (handle - NR_DESC_PER_PAGE)
              else Ret (i, Z.to_nat handle)
  end.

Definition lookup_handle_desc (hs : hstate A) (p : nat) (handle : Z) : outcome (nat * nat) :=
  let* pr := get_proc hs p in lookup_tables (handle_desc_table pr) 0 handle.

Definition get_desc (hs : hstate A) (p : nat) (pos : nat * nat) : outcome handle_desc :=
  let* pr := get_proc hs p in
  match handle_desc_table pr !! pos.1 with
  | Some t => match ht_descs t !! pos.2 with Some d => Ret d | None => Fault end
  | None => Fault
  end.

Definition upd_table (hs : hstate A) (p : nat) (i : nat) (f : handle_table -> handle_table) : hstate A :=
  set_procs hs (alter (fun pr => mk_process (alter f i (handle_desc_table pr))) p (procs hs)).

Definition set_desc (hs : hstate A) (p : nat) (pos : nat * nat) (d : handle_desc) : hstate A :=
  upd_table hs p pos.1 (fun t => mk_table (<[pos.2 := d]> (ht_descs t)) (ht_index t) (ht_left t)).

Definition inc_left (hs : hstate A) (p i : nat) : hstate A :=
  upd_table hs p i (fun t => mk_table (ht_descs t) (ht_index t) (u32 (ht_left t + 1))).

Definition __release_handle (hs : hstate A) (p : nat) (handle : Z) : outcome (hstate A) :=
  let* pos := lookup_handle_desc hs p handle in
  let* hd := get_desc hs p pos in
  if hd_kobj hd =? 0 then Ret hs
  else Ret (inc_left (set_desc hs p pos empty_desc) p pos.1).

(** Returns the status, and the object and its rights if the status is 0. *)
Definition release_process_handle (hs : hstate A) (p : nat) (handle : Z)
    : outcome (Z * option (Z * Z) * hstate A) :=
  if WRONG_HANDLE handle then Ret (- ENOENT, None, hs) else
  let* pos := lookup_handle_desc hs p handle in
  let* hd := get_desc hs p pos in
  if (hd_kobj hd =? 0) || (hd_kobj hd =? KOBJ_PLACEHOLDER) then Ret (- EPERM, None, hs)
  else Ret (0, Some (hd_kobj hd, hd_right hd), inc_left (set_desc hs p pos empty_desc) p pos.1).

(** ** Allocating a handle *)

Definition first_free (t : handle_table) : option nat :=
  fst <$> list_find (fun d => hd_kobj d = 0) (ht_descs t).

(** Scans table [t] under the descriptor [htd]; [None] is [-ENOSPC]. *)
Definition __alloc_handle_internal (t htd : handle_table) : outcome (option nat) :=
  if ht_left htd =? 0 then Ret None else
  match first_free t with
  | Some j => Ret (Some j)
  | None => Panic
  end.

(** The loop keeps the descriptor of the first table: with a second table and no entry
    left in the first it never ends. *)
Fixpoint alloc_loop (n : nat) (tables : list handle_table) (i : nat) : outcome (option (nat * nat)) :=
  match n with
  | O => OutOfFuel
  | S n =>
      match tables !! i, tables !! 0%nat with
      | Some t, Some htd =>
          let* r := __alloc_handle_internal t htd in
          match r with
          | Some j => Ret (Some (i, j))
          | None => match tables !! 1%nat with
                    | Some _ => alloc_loop n tables 1
                    | None => Ret None
                    end
          end
      | _, _ => Fault
      end
  end.

(** The new table becomes the second one; its first entry is taken. *)
Definition __alloc_new_handle (hs : hstate A) (p : nat) (htd : handle_table)
    : outcome (option (nat * nat * Z) * hstate A) :=
  let* (t, hs) := new_handle_desc_table hs (ht_index htd + NR_DESC_PER_PAGE) in
  match t with
  | None => Ret (None, hs)
  | Some t =>
      let t := mk_table (ht_descs t) (ht_index t) (ht_left t - 1) in
      let hs := set_procs hs (alter (fun pr => mk_process [htd; t]) p (procs hs)) in
      Ret (Some (1%nat, 0%nat, ht_index t), hs)
  end.

Definition __alloc_handle (hs : hstate A) (p : nat) (kobj right : Z) : outcome (Z * hstate A) :=
  check negb (kobj =? 0) in
  let* pr := get_proc hs p in
  match handle_desc_table pr with
  | [] => Fault
  | htd :: _ =>
      let* r := alloc_loop 3 (handle_desc_table pr) 0 in
      let* (slot, hs) :=
        match r with
        | Some (i, j) => Ret (Some (i, j, Z.of_nat j + ht_index htd), hs)
        | None => __alloc_new_handle hs p htd
        end in
      match slot with
      | None => Ret (HANDLE_NULL, hs)
      | Some (i, j, handle) =>
          let hs := set_desc hs p (i, j) (mk_desc kobj right) in
          if negb (kobj =? KOBJ_PLACEHOLDER) then
            let* (_, hs) := kobject_get hs kobj in Ret (handle, hs)
          else Ret (handle, hs)
      end
  end.

Definition setup_handle (hs : hstate A) (p : nat) (handle kobj right : Z) : outcome (hstate A) :=
  check negb (WRONG_HANDLE handle) in
  let* pos := lookup_handle_desc hs p handle in
  let* hd := get_desc hs p pos in
  check hd_kobj hd =? KOBJ_PLACEHOLDER in
  let* (_, hs) := kobject_get (set_desc hs p pos (mk_desc kobj right)) kobj in
  Ret hs.

(** ** Transfer of handles *)

(** The first half, up to the release of the sender's lock: the status, or the handle
    reserved in the target and what it will stand for.  Reading [kobj->flags] of a
    placeholder faults. *)
Definition send_take (hs : hstate A) (proc pdst : nat) (handle right_send : Z)
    : outcome ((Z + Z * Z * Z) * hstate A) :=
  if WRONG_HANDLE handle then Ret (inl (- EINVAL), hs) else
  let* (handle_ret, hs) := __alloc_handle hs pdst KOBJ_PLACEHOLDER 0 in
  if handle_ret <? 0 then Ret (inl handle_ret, hs) else
  let* pos := lookup_handle_desc hs proc handle in
  let* hdesc := get_desc hs proc pos in
  let kobj := hd_kobj hdesc in
  let right := hd_right hdesc in
  let fail := let* hs := __release_handle hs pdst handle_ret in Ret (inl (- EPERM), hs) in
  if kobj =? 0 then fail else
  let* o := get_obj hs kobj in
  if negb (Z.land (ko_flags o) KOBJ_FLAGS_NON_SHARED =? 0) || (right =? 0) then fail else
  let right_send := if right_send =? 0 then right else right_send in
  if negb (Z.land right right_send =? right_send) then fail else
  let keep := Z.land right (Z.lor (Z.lnot right_send) (ko_right_mask o)) in
  Ret (inr (handle_ret, kobj, right_send), set_desc hs proc pos (mk_desc kobj keep)).

Definition send_handle (hs : hstate A) (proc pdst : nat) (handle right_send : Z)
    : outcome (Z * hstate A) :=
  let* (r, hs) := send_take hs proc pdst handle right_send in
  match r with
  | inl ret => Ret (ret, hs)
  | inr (handle_ret, kobj, right_send) =>
      let* hs := setup_handle hs pdst handle_ret kobj right_send in
      Ret (handle_ret, hs)
  end.

(** ** Looking up an object *)

(** Status 0 without an object: [*kobj] is left as it was. *)
Definition get_kobject_from_process (hs : hstate A) (p : nat) (handle : Z)
    : outcome (Z * option (Z * Z) * hstate A) :=
  if WRONG_HANDLE handle then Ret (- ENOENT, None, hs) else
  let* pos := lookup_handle_desc hs p handle in
  let* hd := get_desc hs p pos in
  let tmp := hd_kobj hd in
  if negb (tmp =? 0) && negb (tmp =? KOBJ_PLACEHOLDER) then
    let* (got, hs) := kobject_get hs tmp in
    if negb (got =? 0) then Ret (0, Some (tmp, hd_right hd), hs) else Ret (0, None, hs)
  else Ret (0, None, hs).

Definition sys_grant (hs : hstate A) (cur : nat) (proc_handle handle right : Z) : outcome (Z * hstate A) :=
  if WRONG_HANDLE proc_handle || WRONG_HANDLE handle then Ret (- ENOENT, hs) else
  let* ((ret, out), hs) := get_kobject_from_process hs cur proc_handle in
  if negb (ret =? 0) then Ret (- ENOENT, hs) else
  match out with
  | None => Fault
  | Some (kobj_proc, _) =>
      let* o := get_obj hs kobj_proc in
      let* (ret, hs) := if negb (ko_type o =? KOBJ_TYPE_PROCESS) then Ret (- EBADF, hs)
                        else send_handle hs cur (ko_data o) handle right in
      let* (_, hs) := put_kobject hs kobj_proc in
      Ret (ret, hs)
  end.

(** ** System calls on handles *)

(** [kobject_send] and its like: the error for an object without the operation, or the
    call, recorded as [CallOp]. *)
Definition kobject_op (hs : hstate A) (k req err : Z) (op_ret : option Z) : Z * hstate A :=
  match op_ret with
  | None => (err, hs)
  | Some r => (r, log_call hs (CallOp k req))
  end.

Definition kobject_recv (hs : hstate A) (k : Z) (op_ret : option Z) : Z * hstate A :=
  match op_ret with
  | None => (- EACCES, hs)
  | Some r => (r, log_call (log_call hs (PollEvent k EV_OUT)) (CallOp k 0))
  end.

Definition kobject_send (hs : hstate A) (k : Z) (op_ret : option Z) : Z * hstate A :=
  kobject_op hs k 1 (- EACCES) op_ret.
Definition kobject_reply (hs : hstate A) (k : Z) (op_ret : option Z) : Z * hstate A :=
  kobject_op hs k 2 (- EPERM) op_ret.
Definition kobject_ctl (hs : hstate A) (k : Z) (op_ret : option Z) : Z * hstate A :=
  kobject_op hs k 3 (- EPERM) op_ret.
Definition kobject_mmap (hs : hstate A) (k : Z) (op_ret : option Z) : Z * hstate A :=
  kobject_op hs k 4 (- EPERM) op_ret.
Definition kobject_munmap (hs : hstate A) (k : Z) (op_ret : option Z) : Z * hstate A :=
  kobject_op hs k 5 (- EPERM) op_ret.

(** Take a reference through the handle, check the right, call, drop the reference.  A
    status of 0 without an object leaves an uninitialised pointer: a fault. *)
Definition with_kobject (hs : hstate A) (cur : nat) (handle need : Z)
    (op : hstate A -> Z -> Z -> Z * hstate A) : outcome (Z * hstate A) :=
  let* ((ret, out), hs) := get_kobject_from_process hs cur handle in
  if negb (ret =? 0) then Ret (ret, hs) else
  match out with
  | None => Fault
  | Some (k, rt) =>
      let (ret, hs) := if negb (need =? 0) && (Z.land rt need =? 0) then (- EPERM, hs)
                       else op hs k rt in
      let* (_, hs) := put_kobject hs k in
      Ret (ret, hs)
  end.

Definition sys_kobject_open (hs : hstate A) (cur : nat) (handle : Z) (op_ret : option Z) :=
  with_kobject hs cur handle 0 (fun hs k rt => kobject_open hs k handle rt op_ret).
Definition sys_kobject_recv (hs : hstate A) (cur : nat) (handle : Z) (op_ret : option Z) :=
  with_kobject hs cur handle KOBJ_RIGHT_READ (fun hs k _ => kobject_recv hs k op_ret).
Definition sys_kobject_send (hs : hstate A) (cur : nat) (handle : Z) (op_ret : option Z) :=
  with_kobject hs cur handle KOBJ_RIGHT_WRITE (fun hs k _ => kobject_send hs k op_ret).
Definition sys_kobject_ctl (hs : hstate A) (cur : nat) (handle : Z) (op_ret : option Z) :=
  with_kobject hs cur handle KOBJ_RIGHT_CTL (fun hs k _ => kobject_ctl hs k op_ret).
Definition sys_kobject_mmap (hs : hstate A) (cur : nat) (handle : Z) (op_ret : option Z) :=
  with_kobject hs cur handle KOBJ_RIGHT_MMAP (fun hs k _ => kobject_mmap hs k op_ret).
Definition sys_kobject_munmap (hs : hstate A) (cur : nat) (handle : Z) (op_ret : option Z) :=
  with_kobject hs cur handle KOBJ_RIGHT_MMAP (fun hs k _ => kobject_munmap hs k op_ret).

(** Without the right to read it returns with the reference still held. *)
Definition sys_kobject_reply (hs : hstate A) (cur : nat) (handle : Z) (op_ret : option Z)
    : outcome (Z * hstate A) :=
  let* ((ret, out), hs) := get_kobject_from_process hs cur handle in
  if negb (ret =? 0) then Ret (ret, hs) else
  match out with
  | None => Fault
  | Some (k, rt) =>
      if Z.land rt KOBJ_RIGHT_READ =? 0 then Ret (- EPERM, hs) else
      let (ret, hs) := kobject_reply hs k op_ret in
      let* (_, hs) := put_kobject hs k in
      Ret (ret, hs)
  end.

Definition sys_kobject_close (hs : hstate A) (cur : nat) (handle : Z) (op_ret : option Z)
    : outcome (Z * hstate A) :=
  let* ((ret, out), hs) := release_process_handle hs cur handle in
  match out with
  | None => Ret (ret, hs)
  | Some (k, rt) => kobject_close hs k rt cur op_ret
  end.

(** The callback a type registers runs in the process [cur]; it returns the status, the new
    object and its rights. *)
Definition create_cb : Type := hstate A -> nat -> Z -> outcome (Z * (Z * Z) * hstate A).

Definition kobject_create (kobj_create_cbs : Z -> option create_cb) (hs : hstate A) (cur : nat) (type data : Z)
    : outcome (Z * option (Z * Z) * hstate A) :=
  if (type <=? 0) || (KOBJ_TYPE_MAX <=? type) then Ret (- ENOENT, None, hs) else
  match kobj_create_cbs type with
  | None => Ret (- EOPNOTSUPP, None, hs)
  | Some ops => let* ((ret, out), hs) := ops hs cur data in Ret (ret, Some out, hs)
  end.

Definition sys_kobject_create (kobj_create_cbs : Z -> option create_cb) (hs : hstate A) (cur : nat) (type data : Z)
    : outcome (Z * hstate A) :=
  let* ((ret, out), hs) := kobject_create kobj_create_cbs hs cur type data in
  if negb (ret =? 0) then Ret (ret, hs) else
  match out with
  | None => Fault
  | Some (kobj, rt) => __alloc_handle hs cur kobj rt
  end.

(** ** Start and end of a process *)

(** [kself] and [kstdio] are the addresses of the objects of the process and of the
    console. *)
Definition init_proc_handles (hs : hstate A) (p : nat) (kself kstdio : Z) : outcome (Z * hstate A) :=
  let* (t, hs) := new_handle_desc_table hs 0 in
  match t with
  | None => Ret (- ENOMEM, hs)
  | Some t =>
      let hs := set_procs hs (alter (fun _ => mk_process [t]) p (procs hs)) in
      let* (handle, hs) := __alloc_handle hs p kself (Z.lor KOBJ_RIGHT_WRITE KOBJ_RIGHT_CTL) in
      check handle =? 0 in
      let* (handle, hs) := __alloc_handle hs p kstdio KOBJ_RIGHT_READ in
      check handle =? 1 in
      let* (handle, hs) := __alloc_handle hs p kstdio KOBJ_RIGHT_WRITE in
      check handle =? 2 in
      let* (handle, hs) := __alloc_handle hs p kstdio KOBJ_RIGHT_WRITE in
      check handle =? 3 in
      Ret (0, hs)
  end.

(** The structure of a new process is zeroed, its object included; [made] is the address of
    that object when memory, address space and root task of the process could be had.  A
    process whose table could not be had is freed again. *)
Definition create_process (made : hstate A -> Z -> option Z) (kstdio : Z) (hs : hstate A) (data : Z)
    : outcome (option (nat * Z) * hstate A) :=
  match made hs data with
  | None => Ret (None, hs)
  | Some kself =>
      let p := length (procs hs) in
      let hs := set_kobjs hs (<[kself := mk_kobject 0 0 0 0 0]> (kobjs hs)) in
      let hs := set_procs hs (procs hs ++ [mk_process []]) in
      let* (ret, hs) := init_proc_handles hs p kself kstdio in
      if negb (ret =? 0) then
        Ret (None, set_procs (set_kobjs hs (delete kself (kobjs hs))) (take p (procs hs)))
      else Ret (Some (p, kself), hs)
  end.

(** [root] tells the root service, [copied] is what copying the argument returns. *)
Definition process_create (root : nat -> bool) (copied : hstate A -> nat -> Z -> Z)
    (made : hstate A -> Z -> option Z) (kstdio : Z) : create_cb := fun hs cur data =>
  if negb (root cur) then Ret (- EPERM, (0, 0), hs) else
  if copied hs cur data <=? 0 then Ret (- EFAULT, (0, 0), hs) else
  let* (proc, hs) := create_process made kstdio hs data in
  match proc with
  | None => Ret (- ENOMEM, (0, 0), hs)
  | Some (p, kself) =>
      let* hs := kobject_init hs kself KOBJ_TYPE_PROCESS PROC_RIGHT_MASK p in
      Ret (0, (kself, PROC_RIGHT), hs)
  end.

(** [op_ret k right] is what closing [k] returns. *)
Fixpoint release_handle_table (hs : hstate A) (p : nat) (op_ret : Z -> Z -> option Z)
    (l : list handle_desc) : outcome (hstate A) :=
  match l with
  | [] => Ret hs
  | hd :: l =>
      let* hs := if negb (hd_kobj hd =? 0) && negb (hd_kobj hd =? KOBJ_PLACEHOLDER) then
                   let* (_, hs) := kobject_close hs (hd_kobj hd) (hd_right hd) p
                                     (op_ret (hd_kobj hd) (hd_right hd)) in Ret hs
                 else Ret hs in
      release_handle_table hs p op_ret l
  end.

Definition release_proc_kobjects (hs : hstate A) (p : nat) (op_ret : Z -> Z -> option Z)
    : outcome (hstate A) :=
  let* pr := get_proc hs p in
  release_handle_table hs p op_ret (concat (map ht_descs (handle_desc_table pr))).

(** ** Invariant

    Every process has one handle table.  The count of an object is the number of its
    handles plus the references [ext] that the kernel holds at the moment; a released
    object has the count -1, no handle and no other reference, and it was released once. *)

Definition descs_of (pr : process) : list handle_desc := concat (map ht_descs (handle_desc_table pr)).

Definition uses (k : Z) (l : list handle_desc) : nat := length (filter (fun d => hd_kobj d = k) l).

Definition handles_to (hs : hstate A) (k : Z) : Z :=
  Z.of_nat (sum_list_with (fun pr => uses k (descs_of pr)) (procs hs)).

(** The handle [h] of process [p] is [d]. *)
Definition handle_at (hs : hstate A) (p h : nat) (d : handle_desc) : Prop :=
  exists pr, procs hs !! p = Some pr /\ descs_of pr !! h = Some d.

(** [m] bounds the counter of free entries, which only ever grows. *)
Definition proc_ok (m : Z) (pr : process) : Prop :=
  exists t, handle_desc_table pr = [t] /\ Z.of_nat (length (ht_descs t)) = NR_DESC_PER_PAGE /\
    ht_index t = 0 /\ 0 < ht_left t <= m.

Definition is_release (c : call) : Prop := match c with CallRelease _ => True | _ => False end.
#[local] Instance is_release_dec c : Decision (is_release c).
Proof. destruct c; apply _. Defined.

Definition valid_ptr (k : Z) : Prop := k <> 0 /\ k <> KOBJ_PLACEHOLDER.

Record inv (m : Z) (ext : Z -> Z) (hs : hstate A) : Prop := {
  i_procs : Forall (proc_ok m) (procs hs);
  i_keys : kobjs hs !! 0 = None /\ kobjs hs !! KOBJ_PLACEHOLDER = None;
  i_ext : forall k, 0 <= ext k /\ ext k + NR_DESC_PER_PAGE * Z.of_nat (length (procs hs)) < 2 ^ 31 - 1;
  i_refs : forall k o, kobjs hs !! k = Some o ->
    ko_ref o = -1 /\ handles_to hs k = 0 /\ ext k = 0 \/
    ko_ref o = handles_to hs k + ext k;
  i_known : forall k, valid_ptr k -> 0 < handles_to hs k + ext k -> is_Some (kobjs hs !! k);
  i_released : forall k, CallRelease k ∈ calls hs <-> exists o, kobjs hs !! k = Some o /\ ko_ref o = -1;
  i_once : NoDup (filter is_release (calls hs));
}.

(** One more reference [n] to [k]. *)
Definition bump (ext : Z -> Z) (k n : Z) : Z -> Z := fun x => if x =? k then ext x + n else ext x.

(** ** Counting *)

Lemma sum_insert {B} (f : B -> nat) l i a b :
  l !! i = Some a -> (sum_list_with f (<[i := b]> l) + f a = sum_list_with f l + f b)%nat.
Proof.
  revert i. induction l as [|x l IH]; intros [|i] Hi; simplify_eq/=; [lia|]. specialize (IH i Hi). lia.
Qed.

Lemma uses_insert k l i d d' :
  l !! i = Some d ->
  (uses k (<[i := d']> l) + (if decide (hd_kobj d = k) then 1 else 0) =
   uses k l + (if decide (hd_kobj d' = k) then 1 else 0))%nat.
Proof.
  unfold uses. revert i. induction l as [|x l IH]; intros [|i] Hi; simplify_eq/=.
  - rewrite !filter_cons. repeat case_decide; cbn; lia.
  - specialize (IH i Hi). rewrite !filter_cons. repeat case_decide; cbn in *; lia.
Qed.

Lemma uses_cons k d l : uses k (d :: l) = ((if decide (hd_kobj d = k) then 1 else 0) + uses k l)%nat.
Proof. unfold uses. rewrite filter_cons. by destruct (decide (hd_kobj d = k)). Qed.

Lemma uses_replicate k n : k <> 0 -> uses k (replicate n empty_desc) = 0%nat.
Proof. intros Hk. induction n as [|n IH]; [done|]. cbn [replicate]. rewrite uses_cons, IH. by rewrite decide_False. Qed.

Lemma uses_bound k l : (uses k l <= length l)%nat.
Proof. apply length_filter. Qed.

Lemma proc_ok_descs m pr :
  proc_ok m pr -> exists t, handle_desc_table pr = [t] /\ descs_of pr = ht_descs t /\
    Z.of_nat (length (ht_descs t)) = NR_DESC_PER_PAGE /\ ht_index t = 0 /\ 0 < ht_left t <= m.
Proof.
  intros (t & E & Hl & Hi & Hleft). exists t. split_and!; try done; try lia.
  unfold descs_of. rewrite E. cbn. apply app_nil_r.
Qed.

Lemma handles_to_bound m ext hs k :
  inv m ext hs -> 0 <= handles_to hs k <= NR_DESC_PER_PAGE * Z.of_nat (length (procs hs)).
Proof.
  intros [Hp _ _ _ _ _ _]. unfold handles_to. split; [lia|].
  induction Hp as [|pr l Hpr Hl IH]; cbn [sum_list_with length]; [lia|].
  destruct (proc_ok_descs m pr Hpr) as (t & _ & -> & Hlen & _). pose proof (uses_bound k (ht_descs t)). lia.
Qed.

(** An entry in use counts. *)
Lemma handle_counts hs p h d :
  handle_at hs p h d -> 0 < handles_to hs (hd_kobj d).
Proof.
  intros (pr & Hp & Hd). unfold handles_to.
  pose proof (sum_insert (fun pr => uses (hd_kobj d) (descs_of pr)) _ _ _ (mk_process []) Hp) as E.
  assert (0 < uses (hd_kobj d) (descs_of pr))%nat; [|cbn in E; lia].
  unfold uses. assert (d ∈ filter (fun x => hd_kobj x = hd_kobj d) (descs_of pr)) as Hin.
  { apply list_elem_of_filter. split; [done|]. by eapply list_elem_of_lookup_2. }
  destruct (filter _ _); [by apply not_elem_of_nil in Hin|cbn; lia].
Qed.


(** ** Writing one entry *)

Lemma lookup_handle_in m hs p pr h :
  procs hs !! p = Some pr -> proc_ok m pr -> 0 <= h < NR_DESC_PER_PAGE ->
  lookup_handle_desc hs p h = Ret (0%nat, Z.to_nat h).
Proof.
  intros Hp (t & E & _) Hh. unfold lookup_handle_desc, get_proc. rewrite Hp. cbn [obind]. rewrite E.
  cbn [lookup_tables]. change NR_DESC_PER_PAGE with 255 in *. rewrite wrap_small by lia.
  by destruct (Z.leb_spec 255 h); [lia|].
Qed.

Lemma lookup_handle_out m hs p pr h :
  procs hs !! p = Some pr -> proc_ok m pr -> NR_DESC_PER_PAGE <= h < 2 ^ 64 ->
  lookup_handle_desc hs p h = Fault.
Proof.
  intros Hp (t & E & _) Hh. unfold lookup_handle_desc, get_proc. rewrite Hp. cbn [obind]. rewrite E.
  cbn [lookup_tables]. change NR_DESC_PER_PAGE with 255 in *. rewrite wrap_small by lia.
  by destruct (Z.leb_spec 255 h); [|lia].
Qed.

Lemma get_desc_at m hs p pr h d :
  procs hs !! p = Some pr -> proc_ok m pr -> descs_of pr !! h = Some d -> get_desc hs p (0%nat, h) = Ret d.
Proof.
  intros Hp Hok Hd. destruct (proc_ok_descs m pr Hok) as (t & E & Ed & _).
  unfold get_desc, get_proc. rewrite Hp. cbn [obind fst snd]. rewrite E. cbn. rewrite <- Ed, Hd. done.
Qed.

(** [hs'] is [hs] with entry [h] of process [p] changed from [d] to [d']. *)
Record wrote (m : Z) (hs hs' : hstate A) (p h : nat) (d d' : handle_desc) : Prop := {
  w_old : handle_at hs p h d;
  w_at : forall q i x, handle_at hs' q i x <->
    (q = p /\ i = h /\ x = d') \/ (~ (q = p /\ i = h) /\ handle_at hs q i x);
  w_count : forall k, handles_to hs' k + (if decide (hd_kobj d = k) then 1 else 0) =
                      handles_to hs k + (if decide (hd_kobj d' = k) then 1 else 0);
  w_procs : Forall (proc_ok m) (procs hs');
  w_len : length (procs hs') = length (procs hs);
  w_objs : kobjs hs' = kobjs hs;
  w_calls : calls hs' = calls hs;
  w_pages : h_pages hs' = h_pages hs;
}.

Lemma alter_insert {B} (f : B -> B) (l : list B) i x : l !! i = Some x -> alter f i l = <[i := f x]> l.
Proof.
  intros Hi. apply list_eq. intros j. destruct (decide (i = j)) as [<-|Hne].
  - rewrite list_lookup_alter_eq, Hi, list_lookup_insert_eq; [done|by eapply lookup_lt_Some].
  - by rewrite list_lookup_alter_ne, list_lookup_insert_ne.
Qed.

Lemma wrote_intro m m' hs hs' p pr t h d d' left :
  Forall (proc_ok m) (procs hs) -> m <= m' -> procs hs !! p = Some pr -> handle_desc_table pr = [t] ->
  ht_descs t !! h = Some d -> 0 < left <= m' ->
  procs hs' = <[p := mk_process [mk_table (<[h := d']> (ht_descs t)) (ht_index t) left]]> (procs hs) ->
  kobjs hs' = kobjs hs -> calls hs' = calls hs -> h_pages hs' = h_pages hs ->
  wrote m' hs hs' p h d d'.
Proof.
  intros Hall Hm Hp Et Hd Hleft Eprocs Ek Ec Ea.
  assert (Edescs : descs_of pr = ht_descs t) by (unfold descs_of; rewrite Et; apply app_nil_r).
  assert (Hlt : (p < length (procs hs))%nat) by by eapply lookup_lt_Some.
  split; try done.
  - exists pr. by rewrite Edescs.
  - intros q i x. unfold handle_at. rewrite Eprocs. destruct (decide (q = p)) as [->|Hq].
    + rewrite list_lookup_insert_eq by done. unfold descs_of at 1.
      split.
      * intros (pr' & [= <-] & Hx). cbn in Hx. rewrite app_nil_r in Hx.
        destruct (decide (i = h)) as [->|Hi].
        -- rewrite list_lookup_insert_eq in Hx by by eapply lookup_lt_Some. left. by injection Hx.
        -- rewrite list_lookup_insert_ne in Hx by done. right. split; [tauto|]. exists pr. by rewrite Edescs.
      * intros Hx. eexists. split; [done|]. cbn. rewrite app_nil_r. destruct Hx as [(_ & -> & ->)|(Hne & pr' & Hpr' & Hx)].
        -- apply list_lookup_insert_eq. by eapply lookup_lt_Some.
        -- assert (pr' = pr) as -> by congruence. rewrite Edescs in Hx. rewrite list_lookup_insert_ne; [done|].
           intros ->. by apply Hne.
    + rewrite list_lookup_insert_ne by done. split.
      * intros Hx. right. split; [tauto|done].
      * intros [(-> & _)|[_ Hx]]; done.
  - intros k. unfold handles_to. rewrite Eprocs.
    set (f := fun pr => uses k (descs_of pr)).
    set (new := mk_process [mk_table (<[h:=d']> (ht_descs t)) (ht_index t) left]).
    pose proof (sum_insert f _ _ _ new Hp) as E1. pose proof (uses_insert k _ _ _ d' Hd) as E2.
    assert (f new = uses k (<[h:=d']> (ht_descs t))) by (unfold f, descs_of; cbn; by rewrite app_nil_r).
    assert (f pr = uses k (ht_descs t)) by (unfold f; by rewrite Edescs).
    repeat case_decide; lia.
  - rewrite Eprocs. apply Forall_insert.
    + eapply Forall_impl; [exact Hall|]. intros x (u & Hu & ? & ? & ?). exists u. split_and!; try done; lia.
    + destruct (proc_ok_descs m pr (Forall_lookup_1 _ _ _ _ Hall Hp)) as (u & Eu & _ & Hl & Hi & _).
      rewrite Et in Eu. injection Eu as <-. eexists. split; [done|]. cbn. by rewrite length_insert.
  - rewrite Eprocs. apply length_insert.
Qed.


Lemma handle_in m ext hs p h d :
  inv m ext hs -> handle_at hs p h d ->
  exists pr t, procs hs !! p = Some pr /\ proc_ok m pr /\ handle_desc_table pr = [t] /\
    ht_descs t !! h = Some d /\ 0 < ht_left t <= m /\ Z.of_nat h < NR_DESC_PER_PAGE.
Proof.
  intros Hi (pr & Hp & Hd). pose proof (Forall_lookup_1 _ _ _ _ (i_procs _ _ _ Hi) Hp) as Hok.
  destruct (proc_ok_descs m pr Hok) as (t & Et & Ed & Hl & _ & Hleft). rewrite Ed in Hd.
  exists pr, t. split_and!; try done; try lia. apply lookup_lt_Some in Hd. lia.
Qed.

Lemma set_desc_wrote m ext hs p h d d' :
  inv m ext hs -> handle_at hs p h d -> wrote m hs (set_desc hs p (0%nat, h) d') p h d d'.
Proof.
  intros Hi Hat. destruct (handle_in m ext hs p h d Hi Hat) as (pr & t & Hp & Hok & Et & Hd & Hleft & _).
  eapply (wrote_intro m m hs _ p pr t h d d' (ht_left t)); try done; try lia; [apply Hi|].
  unfold set_desc, upd_table. cbn [procs set_procs fst snd]. rewrite (alter_insert _ _ _ _ Hp), Et. done.
Qed.

Lemma clear_desc_wrote m ext hs p h d d' :
  inv m ext hs -> m + 1 < 2 ^ 32 -> handle_at hs p h d ->
  wrote (m + 1) hs (inc_left (set_desc hs p (0%nat, h) d') p 0) p h d d'.
Proof.
  intros Hi Hm Hat. destruct (handle_in m ext hs p h d Hi Hat) as (pr & t & Hp & Hok & Et & Hd & Hleft & _).
  eapply (wrote_intro m (m + 1) hs _ p pr t h d d' (u32 (ht_left t + 1))); try done; try lia;
    [apply Hi|rewrite wrap_small; lia|].
  unfold inc_left, set_desc, upd_table. cbn [procs set_procs fst snd].
  rewrite (alter_insert _ _ _ _ Hp), Et.
  rewrite (alter_insert _ (<[p:=_]> _) p (mk_process [mk_table (<[h:=d']> (ht_descs t)) (ht_index t) (ht_left t)])).
  - by rewrite list_insert_insert_eq.
  - apply list_lookup_insert_eq. by eapply lookup_lt_Some.
Qed.

(** A write that keeps the sum of handles and other references keeps the invariant. *)
(** The references to each object are as many as before. *)
Lemma inv_total m m' ext ext' hs hs' :
  inv m ext hs -> Forall (proc_ok m') (procs hs') -> length (procs hs') = length (procs hs) ->
  kobjs hs' = kobjs hs -> calls hs' = calls hs ->
  (forall k, 0 <= ext' k /\ ext' k + NR_DESC_PER_PAGE * Z.of_nat (length (procs hs)) < 2 ^ 31 - 1) ->
  (forall k, valid_ptr k -> handles_to hs' k + ext' k = handles_to hs k + ext k) ->
  inv m' ext' hs'.
Proof.
  intros [H1 H2 H3 H4 H5 H6 H7] Hp El Ek Ec He Hsum.
  assert (Hv : forall k o, kobjs hs !! k = Some o -> valid_ptr k) by (intros k o Hk; destruct H2; split; congruence).
  split; rewrite ?Ek, ?Ec, ?El; try done.
  - intros k o Hk. specialize (Hsum k (Hv k o Hk)). specialize (He k).
    destruct (H4 k o Hk) as [(? & ? & ?)|?]; [left|right; lia].
    assert (0 <= handles_to hs' k) by (unfold handles_to; lia). split; [done|lia].
  - intros k Hk Hpos. apply H5; [done|]. rewrite <- Hsum; done.
Qed.

Lemma inv_wrote m m' ext ext' hs hs' p h d d' :
  inv m ext hs -> wrote m' hs hs' p h d d' ->
  (forall k, 0 <= ext' k /\ ext' k + NR_DESC_PER_PAGE * Z.of_nat (length (procs hs)) < 2 ^ 31 - 1) ->
  (forall k, valid_ptr k -> handles_to hs' k + ext' k = handles_to hs k + ext k) ->
  inv m' ext' hs'.
Proof. intros Hi Hw. apply (inv_total m m' ext ext' hs hs' Hi); apply Hw. Qed.

Lemma handle_live m ext hs p h d :
  inv m ext hs -> handle_at hs p h d -> valid_ptr (hd_kobj d) ->
  exists o, kobjs hs !! hd_kobj d = Some o /\ 0 < ko_ref o /\
    ko_ref o = handles_to hs (hd_kobj d) + ext (hd_kobj d).
Proof.
  intros Hi Hat Hv. pose proof (handle_counts hs p h d Hat) as Hc. pose proof (i_ext _ _ _ Hi (hd_kobj d)).
  destruct (i_known _ _ _ Hi (hd_kobj d) Hv ltac:(lia)) as [o Ho]. exists o. split; [done|].
  destruct (i_refs _ _ _ Hi _ _ Ho) as [(_ & ? & _)|?]; [lia|]. split; lia.
Qed.

(** ** Reference counting keeps the invariant *)

(** The count of a live object changes to [r]: with its references, or to -1 when the
    last one went. *)
Lemma inv_ref m ext ext' hs hs' k o r :
  inv m ext hs -> kobjs hs !! k = Some o -> 0 <= ko_ref o ->
  procs hs' = procs hs -> kobjs hs' = <[k := set_ref r o]> (kobjs hs) ->
  (forall x, x <> k -> ext' x = ext x) -> 0 <= ext' k ->
  ext' k + NR_DESC_PER_PAGE * Z.of_nat (length (procs hs)) < 2 ^ 31 - 1 ->
  (0 <= r /\ r = handles_to hs k + ext' k /\ calls hs' = calls hs) \/
  (r = -1 /\ handles_to hs k = 0 /\ ext' k = 0 /\ calls hs' = calls hs ++ [CallRelease k]) ->
  inv m ext' hs'.
Proof.
  intros [H1 H2 H3 H4 H5 H6 H7] Ho Hr Ep Ek Hext He Hroom Hcase. destruct H2 as [H20 H21].
  assert (Eh : forall x, handles_to hs' x = handles_to hs x) by (intros x; unfold handles_to; by rewrite Ep).
  assert (Hk0 : k <> 0 /\ k <> KOBJ_PLACEHOLDER) by (split; congruence).
  assert (Hkr : ~ CallRelease k ∈ calls hs).
  { rewrite H6. intros (x & Hx & ?). rewrite Ho in Hx. injection Hx as <-. lia. }
  split; rewrite ?Ep, ?Ek; try done.
  - rewrite !lookup_insert_ne by tauto. done.
  - intros x. destruct (decide (x = k)) as [->|Hx]; [lia|rewrite Hext by done; apply H3].
  - intros x ox Hx. rewrite Eh. apply lookup_insert_Some in Hx as [[<- <-]|[Hne Hx]]; cbn.
    + destruct Hcase as [(? & ? & _)|(? & ? & ? & _)]; [right|left]; done.
    + rewrite Hext by done. by apply H4.
  - intros x Hv Hpos. rewrite Eh in Hpos. destruct (decide (x = k)) as [->|Hx]; [by rewrite lookup_insert_eq|].
    rewrite lookup_insert_ne by done. apply H5; [done|]. by rewrite <- Hext.
  - intros x. destruct (decide (x = k)) as [->|Hx].
    + rewrite lookup_insert_eq. destruct Hcase as [(? & ? & ->)|(-> & _ & _ & ->)].
      * split; [done|]. intros (y & [= <-] & Hy). cbn in Hy. lia.
      * split; [by eexists|]. intros _. apply elem_of_app. right. by apply list_elem_of_singleton.
    + rewrite lookup_insert_ne by done. rewrite <- H6.
      destruct Hcase as [(_ & _ & ->)|(_ & _ & _ & ->)]; [done|].
      rewrite elem_of_app, list_elem_of_singleton. split; [intros [?|[= ?]]; done|by left].
  - destruct Hcase as [(_ & _ & ->)|(_ & _ & _ & ->)]; [done|]. rewrite filter_app.
    apply NoDup_app. split_and!; [done| |by rewrite filter_cons_True; [apply NoDup_singleton|]].
    intros c Hc Hc'. apply list_elem_of_filter in Hc as [_ Hc], Hc' as [_ Hc'].
    apply list_elem_of_singleton in Hc' as ->. done.
Qed.

Lemma inv_log m ext hs c : inv m ext hs -> ~ is_release c -> inv m ext (log_call hs c).
Proof.
  intros [H1 H2 H3 H4 H5 H6 H7] Hc. split; cbn [procs kobjs calls log_call]; try done.
  - intros k. rewrite elem_of_app, list_elem_of_singleton, <- H6. split; [|by left].
    intros [?| <-]; [done|]. by destruct Hc.
  - by rewrite filter_app, filter_cons_False, app_nil_r.
Qed.

Lemma kobject_get_spec m ext hs k o :
  inv m ext hs -> kobjs hs !! k = Some o -> 0 <= ko_ref o ->
  ext k + 1 + NR_DESC_PER_PAGE * Z.of_nat (length (procs hs)) < 2 ^ 31 - 1 ->
  kobject_get hs k = Ret (1, set_kobjs hs (<[k := set_ref (ko_ref o + 1) o]> (kobjs hs))) /\
  inv m (bump ext k 1) (set_kobjs hs (<[k := set_ref (ko_ref o + 1) o]> (kobjs hs))).
Proof.
  intros Hi Ho Hr Hroom. pose proof (handles_to_bound m ext hs k Hi) as Hb.
  destruct (i_refs _ _ _ Hi k o Ho) as [(? & _)|Eref]; [lia|].
  pose proof (i_keys _ _ _ Hi) as [Hk0 Hk1]. pose proof (i_ext _ _ _ Hi k). split.
  - unfold kobject_get, get_obj. destruct (Z.eqb_spec k 0) as [->|]; [congruence|]. rewrite Ho. cbn [obind].
    destruct (Z.leb_spec 0 (ko_ref o)); [|lia]. cbn [assert obind]. by rewrite s32_small by lia.
  - apply (inv_ref m ext (bump ext k 1) hs _ k o (ko_ref o + 1)); try done; unfold bump; rewrite ?Z.eqb_refl; try lia.
    + intros x Hx. by destruct (Z.eqb_spec x k).
    + left. split_and!; try done; lia.
Qed.

(** Dropping a reference the kernel holds; the last one releases the object. *)
Lemma kobject_put_spec m ext hs k :
  inv m ext hs -> valid_ptr k -> 0 < ext k ->
  exists hs', kobject_put hs k = Ret (1, hs') /\ inv m (bump ext k (-1)) hs' /\ procs hs' = procs hs /\
    calls hs' = calls hs ++ (if handles_to hs k + ext k =? 1 then [CallRelease k] else []) /\
    (forall x, x <> k -> kobjs hs' !! x = kobjs hs !! x).
Proof.
  intros Hi Hv Hpos. pose proof (handles_to_bound m ext hs k Hi) as Hb. pose proof (i_ext _ _ _ Hi k).
  destruct (i_known _ _ _ Hi k Hv ltac:(lia)) as [o Ho].
  destruct (i_refs _ _ _ Hi k o Ho) as [(_ & _ & ?)|Eref]; [lia|].
  unfold kobject_put, get_obj. destruct Hv as [Hk0 _]. destruct (Z.eqb_spec k 0); [done|]. rewrite Ho. cbn [obind].
  destruct (Z.ltb_spec 0 (ko_ref o)); [|lia]. cbn [assert obind]. rewrite <- Eref.
  eexists. split; [done|]. destruct (Z.eqb_spec (ko_ref o) 1) as [E1|Hne].
  - rewrite E1. cbn [Z.sub Z.eqb Z.add Z.opp Z.pos_sub Pos.eqb]. split_and!; try done.
    + apply (inv_ref m ext (bump ext k (-1)) hs _ k o (-1)); try done; unfold bump; rewrite ?Z.eqb_refl; try lia.
      * intros x Hx. by destruct (Z.eqb_spec x k).
      * right. split_and!; try done; lia.
    + intros x Hx. cbn. by rewrite lookup_insert_ne.
  - destruct (Z.eqb_spec (ko_ref o - 1) 0); [lia|]. split_and!; try done.
    + apply (inv_ref m ext (bump ext k (-1)) hs _ k o (ko_ref o - 1)); try done; unfold bump; rewrite ?Z.eqb_refl; try lia.
      * intros x Hx. by destruct (Z.eqb_spec x k).
      * left. split_and!; try done; lia.
    + by rewrite app_nil_r.
    + intros x Hx. cbn. by rewrite lookup_insert_ne.
Qed.


(** ** Allocating *)

(** An object that may get one more reference. *)
Definition shareable (ext : Z -> Z) (hs : hstate A) (k : Z) : Prop :=
  exists o, kobjs hs !! k = Some o /\ 0 <= ko_ref o /\
    ext k + 1 + NR_DESC_PER_PAGE * Z.of_nat (length (procs hs)) < 2 ^ 31 - 1.

Lemma obj_valid m ext hs k o : inv m ext hs -> kobjs hs !! k = Some o -> valid_ptr k.
Proof. intros Hi Ho. destruct (i_keys _ _ _ Hi). split; congruence. Qed.

Lemma first_free_slot m hs p pr t :
  procs hs !! p = Some pr -> proc_ok m pr -> handle_desc_table pr = [t] ->
  match first_free t with
  | Some h => exists d, handle_at hs p h d /\ hd_kobj d = 0 /\
      forall i x, (i < h)%nat -> handle_at hs p i x -> hd_kobj x <> 0
  | None => forall i x, handle_at hs p i x -> hd_kobj x <> 0
  end.
Proof.
  intros Hp Hok Et. destruct (proc_ok_descs m pr Hok) as (u & Eu & Ed & _).
  assert (u = t) as -> by congruence. unfold first_free.
  assert (Hat : forall i x, handle_at hs p i x -> ht_descs t !! i = Some x).
  { intros i x (q & Hq & Hx). assert (q = pr) as -> by congruence. by rewrite <- Ed. }
  destruct (list_find _ _) as [[h d]|] eqn:Hf; cbn.
  - apply list_find_Some in Hf as (Hd & H0 & Hmin). exists d. split_and!; try done.
    + exists pr. by rewrite Ed.
    + intros i x Hi Hx. by apply (Hmin i x); [apply Hat|].
  - intros i x Hx. apply (list_find_None _ _) in Hf. rewrite Forall_forall in Hf.
    apply Hf. eapply list_elem_of_lookup_2. by apply Hat.
Qed.

(** Writing a handle to a live object and taking its reference. *)
Lemma write_handle m ext hs p h d k right :
  inv m ext hs -> handle_at hs p h d -> ~ valid_ptr (hd_kobj d) -> shareable ext hs k ->
  exists hs', (let* (_, hs) := kobject_get (set_desc hs p (0%nat, h) (mk_desc k right)) k in Ret hs) = Ret hs' /\
    inv m ext hs' /\ procs hs' = procs (set_desc hs p (0%nat, h) (mk_desc k right)) /\ calls hs' = calls hs /\
    (forall x, x <> k -> kobjs hs' !! x = kobjs hs !! x) /\
    (forall o, kobjs hs !! k = Some o -> kobjs hs' !! k = Some (set_ref (ko_ref o + 1) o)) /\
    h_pages hs' = h_pages hs.
Proof.
  intros Hi Hat Hd (o & Ho & Hr & Hroom). pose proof (obj_valid m ext hs k o Hi Ho) as Hv.
  destruct (kobject_get_spec m ext hs k o Hi Ho Hr Hroom) as [_ Hi2].
  set (hs2 := set_kobjs hs (<[k:=set_ref (ko_ref o + 1) o]> (kobjs hs))) in *.
  assert (Hat2 : handle_at hs2 p h d) by exact Hat.
  pose proof (set_desc_wrote m _ hs2 p h d (mk_desc k right) Hi2 Hat2) as Hw.
  pose proof (handles_to_bound m ext hs k Hi).
  exists (set_desc hs2 p (0%nat, h) (mk_desc k right)). split_and!; try done.
  - unfold kobject_get, get_obj. destruct Hv as [Hk0 _]. destruct (Z.eqb_spec k 0); [done|].
    cbn [kobjs set_desc upd_table set_procs]. rewrite Ho. cbn [obind].
    destruct (Z.leb_spec 0 (ko_ref o)); [|lia]. cbn [assert obind].
    destruct (i_refs _ _ _ Hi k o Ho) as [(? & _)|Eref]; [lia|]. pose proof (i_ext _ _ _ Hi k).
    by rewrite s32_small by lia.
  - eapply (inv_wrote m m _ ext hs2 _ p h d _ Hi2 Hw); [apply Hi|].
    intros x Hx. pose proof (w_count _ _ _ _ _ _ _ Hw x) as Hc. cbn in Hc. unfold bump.
    destruct (decide (hd_kobj d = x)) as [<-|]; [done|]. destruct (Z.eqb_spec x k) as [->|];
      destruct (decide (k = _)); try done; lia.
  - intros x Hx. cbn. by rewrite lookup_insert_ne.
  - intros o' Ho'. rewrite Ho in Ho'. injection Ho' as <-. cbn. by rewrite lookup_insert_eq.
Qed.

Lemma alloc_handle_run m ext hs p pr t k right :
  inv m ext hs -> procs hs !! p = Some pr -> handle_desc_table pr = [t] -> k <> 0 ->
  __alloc_handle hs p k right =
  match first_free t with
  | None => Panic
  | Some h =>
      let hs := set_desc hs p (0%nat, h) (mk_desc k right) in
      if negb (k =? KOBJ_PLACEHOLDER) then
        let* (_, hs) := kobject_get hs k in Ret (Z.of_nat h, hs)
      else Ret (Z.of_nat h, hs)
  end.
Proof.
  intros Hi Hp Et Hk. pose proof (Forall_lookup_1 _ _ _ _ (i_procs _ _ _ Hi) Hp) as Hok.
  destruct Hok as (u & Eu & _ & Hidx & Hleft). rewrite Et in Eu. injection Eu as <-.
  unfold __alloc_handle, get_proc. destruct (Z.eqb_spec k 0); [done|]. rewrite Hp. cbn [negb assert obind].
  rewrite Et. cbn [alloc_loop lookup list_lookup]. unfold __alloc_handle_internal.
  destruct (Z.eqb_spec (ht_left t) 0); [lia|]. destruct (first_free t) as [h|]; cbn [obind]; [|done].
  rewrite Hidx, Z.add_0_r. done.
Qed.

(** Allocation takes the first free entry; with none left the kernel stops. *)
Lemma alloc_handle_spec m ext hs p k right :
  inv m ext hs -> (p < length (procs hs))%nat -> k = KOBJ_PLACEHOLDER \/ shareable ext hs k ->
  ((forall i x, handle_at hs p i x -> hd_kobj x <> 0) /\ __alloc_handle hs p k right = Panic) \/
  (exists h d hs', handle_at hs p h d /\ hd_kobj d = 0 /\
     (forall i x, (i < h)%nat -> handle_at hs p i x -> hd_kobj x <> 0) /\
     __alloc_handle hs p k right = Ret (Z.of_nat h, hs') /\ inv m ext hs' /\
     procs hs' = procs (set_desc hs p (0%nat, h) (mk_desc k right)) /\ calls hs' = calls hs /\
     (forall x, x <> k -> kobjs hs' !! x = kobjs hs !! x) /\
     (forall o, kobjs hs !! k = Some o -> kobjs hs' !! k = Some (set_ref (ko_ref o + 1) o)) /\
     h_pages hs' = h_pages hs).
Proof.
  intros Hi Hp Hk. destruct (lookup_lt_is_Some_2 _ _ Hp) as [pr Hpr].
  pose proof (Forall_lookup_1 _ _ _ _ (i_procs _ _ _ Hi) Hpr) as Hok. destruct (id Hok) as (t & Et & _).
  assert (Hk0 : k <> 0).
  { destruct Hk as [->|(o & Ho & _)]; [done|]. by apply (obj_valid m ext hs k o). }
  rewrite (alloc_handle_run m ext hs p pr t k right Hi Hpr Et Hk0).
  pose proof (first_free_slot m hs p pr t Hpr Hok Et) as Hf. destruct (first_free t) as [h|]; [right|by left].
  destruct Hf as (d & Hat & Hd0 & Hmin). exists h, d. cbn zeta.
  assert (Hnv : ~ valid_ptr (hd_kobj d)) by (rewrite Hd0; intros [? _]; done).
  destruct (Z.eqb_spec k KOBJ_PLACEHOLDER) as [->|Hkp]; cbn [negb].
  - eexists. split_and!; try done.
    + pose proof (set_desc_wrote m ext hs p h d (mk_desc KOBJ_PLACEHOLDER right) Hi Hat) as Hw.
      eapply (inv_wrote m m ext ext hs _ p h d _ Hi Hw); [apply Hi|]. intros x [Hx0 Hxp].
      pose proof (w_count _ _ _ _ _ _ _ Hw x) as Hc. cbn in Hc. rewrite Hd0 in Hc.
      destruct (decide (0 = x)), (decide (KOBJ_PLACEHOLDER = x)); congruence || lia.
    + intros o Ho. destruct (i_keys _ _ _ Hi). congruence.
  - destruct Hk as [|Hk]; [done|].
    destruct (write_handle m ext hs p h d k right Hi Hat Hnv Hk) as (hs' & E & Hi' & Hrest).
    exists hs'. split_and!; try done; try apply Hrest.
    destruct (kobject_get _ k) as [[r hs1]| | |]; try done. cbn in E |- *. by injection E as ->.
Qed.


(** ** Transfer *)

Lemma handle_at_procs (hs hs' : hstate A) p h d :
  procs hs' = procs hs -> handle_at hs' p h d <-> handle_at hs p h d.
Proof. intros E. unfold handle_at. by rewrite E. Qed.

Lemma handle_at_fun (hs : hstate A) p h d d' : handle_at hs p h d -> handle_at hs p h d' -> d = d'.
Proof. intros (pr & Hp & Hd) (pr' & Hp' & Hd'). congruence. Qed.

Lemma handle_exists m ext hs p h :
  inv m ext hs -> (p < length (procs hs))%nat -> 0 <= h < NR_DESC_PER_PAGE ->
  exists d, handle_at hs p (Z.to_nat h) d.
Proof.
  intros Hi Hp Hh. destruct (lookup_lt_is_Some_2 _ _ Hp) as [pr Hpr].
  destruct (proc_ok_descs m pr (Forall_lookup_1 _ _ _ _ (i_procs _ _ _ Hi) Hpr)) as (t & _ & Ed & Hl & _).
  destruct (lookup_lt_is_Some_2 (ht_descs t) (Z.to_nat h)) as [d Hd]; [lia|].
  exists d, pr. by rewrite Ed.
Qed.

(** Looking up and reading a handle of a process. *)
Lemma read_handle m ext hs p h d :
  inv m ext hs -> handle_at hs p h d ->
  lookup_handle_desc hs p (Z.of_nat h) = Ret (0%nat, h) /\ get_desc hs p (0%nat, h) = Ret d.
Proof.
  intros Hi Hat. destruct (handle_in m ext hs p h d Hi Hat) as (pr & t & Hp & Hok & Et & Hd & _ & Hlt).
  split.
  - rewrite (lookup_handle_in m hs p pr) by (done || lia). by rewrite Nat2Z.id.
  - destruct Hat as (pr' & Hp' & Hd'). assert (pr' = pr) as -> by congruence. by apply (get_desc_at m hs p pr).
Qed.

(** The handles in use are the same. *)
Definition same_handles (hs hs' : hstate A) : Prop :=
  forall q i x, hd_kobj x <> 0 -> handle_at hs' q i x <-> handle_at hs q i x.

Lemma not_wrong handle : 0 <= handle < PROC_MAX_HANDLE -> WRONG_HANDLE handle = false.
Proof.
  intros Hh. unfold WRONG_HANDLE, HANDLE_NULL. change PROC_MAX_HANDLE with 32640 in *.
  rewrite wrap_small by lia. by case_bools.
Qed.

Lemma procs_length hs p pos d : length (procs (set_desc hs p pos d)) = length (procs hs).
Proof. apply length_alter. Qed.

(** Giving the reserved entry back. *)
Lemma release_placeholder m ext hs hs1 p h d :
  inv m ext hs -> inv m ext hs1 -> m + 1 < 2 ^ 32 -> handle_at hs p h d -> hd_kobj d = 0 ->
  procs hs1 = procs (set_desc hs p (0%nat, h) (mk_desc KOBJ_PLACEHOLDER 0)) ->
  exists hs', __release_handle hs1 p (Z.of_nat h) = Ret hs' /\ inv (m + 1) ext hs' /\
    same_handles hs hs' /\ calls hs' = calls hs1 /\ kobjs hs' = kobjs hs1 /\
    length (procs hs') = length (procs hs1).
Proof.
  intros Hi Hi1 Hm Hat Hd0 Ep.
  pose proof (set_desc_wrote m ext hs p h d (mk_desc KOBJ_PLACEHOLDER 0) Hi Hat) as Hw.
  assert (Hat1 : handle_at hs1 p h (mk_desc KOBJ_PLACEHOLDER 0)).
  { rewrite (handle_at_procs _ hs1 _ _ _ Ep). apply (w_at _ _ _ _ _ _ _ Hw). by left. }
  destruct (read_handle m ext hs1 p h _ Hi1 Hat1) as [El Eg]. unfold __release_handle.
  rewrite El. cbn [obind]. rewrite Eg. cbn [obind hd_kobj Z.eqb KOBJ_PLACEHOLDER fst].
  pose proof (clear_desc_wrote m ext hs1 p h _ empty_desc Hi1 Hm Hat1) as Hw1.
  eexists. split; [done|]. split_and!; try apply Hw1.
  - eapply (inv_wrote m (m + 1) ext ext hs1 _ p h _ _ Hi1 Hw1); [apply Hi1|]. intros x [Hx0 Hxp].
    pose proof (w_count _ _ _ _ _ _ _ Hw1 x) as Hc. cbn in Hc.
    destruct (decide (KOBJ_PLACEHOLDER = x)), (decide (0 = x)); congruence || lia.
  - intros q i x Hx. rewrite (w_at _ _ _ _ _ _ _ Hw1), (handle_at_procs _ hs1 _ _ _ Ep), (w_at _ _ _ _ _ _ _ Hw).
    split.
    + intros [(_ & _ & ->)|(Hne & [(-> & -> & _)|[_ ?]])]; [done|tauto|done].
    + intros Hxat. right. assert (~ (q = p /\ i = h)) as Hne.
      { intros [-> ->]. pose proof (handle_at_fun hs p h d x Hat Hxat). congruence. }
      split; [done|]. right. done.
Qed.

(** What is left to the sender, and what the receiver gets. *)
Definition rights_sent (right right_send : Z) : Z := if right_send =? 0 then right else right_send.
Definition rights_kept (o : kobject) (right send : Z) : Z :=
  Z.land right (Z.lor (Z.lnot send) (ko_right_mask o)).

(** The transfer is allowed. *)
Definition may_send (o : kobject) (right right_send : Z) : bool :=
  (Z.land (ko_flags o) KOBJ_FLAGS_NON_SHARED =? 0) && negb (right =? 0) &&
  (Z.land right (rights_sent right right_send) =? rights_sent right right_send).

(** The handles after [a] sent its handle [i] to [b], where it is [h]. *)
Definition sent (hs hs' : hstate A) (a i b h : nat) (k keep send : Z) : Prop :=
  (a, i) <> (b, h) /\
  forall q j x, hd_kobj x <> 0 -> handle_at hs' q j x <->
    (q = b /\ j = h /\ x = mk_desc k send) \/ (q = a /\ j = i /\ x = mk_desc k keep) \/
    (~ (q = b /\ j = h) /\ ~ (q = a /\ j = i) /\ handle_at hs q j x).

Definition roomy (ext : Z -> Z) (hs : hstate A) : Prop :=
  forall k, ext k + 1 + NR_DESC_PER_PAGE * Z.of_nat (length (procs hs)) < 2 ^ 31 - 1.

Lemma send_success m ext hs hs1 a i b h d d0 o send :
  inv m ext hs -> inv m ext hs1 -> roomy ext hs -> handle_at hs a i d -> valid_ptr (hd_kobj d) ->
  kobjs hs !! hd_kobj d = Some o -> handle_at hs b h d0 -> hd_kobj d0 = 0 ->
  procs hs1 = procs (set_desc hs b (0%nat, h) (mk_desc KOBJ_PLACEHOLDER 0)) -> kobjs hs1 = kobjs hs ->
  let keep := rights_kept o (hd_right d) send in
  exists hs', setup_handle (set_desc hs1 a (0%nat, i) (mk_desc (hd_kobj d) keep)) b (Z.of_nat h) (hd_kobj d) send =
      Ret hs' /\
    inv m ext hs' /\ sent hs hs' a i b h (hd_kobj d) keep send /\ calls hs' = calls hs1 /\
    kobjs hs' !! hd_kobj d = Some (set_ref (ko_ref o + 1) o) /\
    (forall x, x <> hd_kobj d -> kobjs hs' !! x = kobjs hs !! x) /\
    length (procs hs') = length (procs hs).
Proof.
  intros Hi Hi1 Hroom Hat Hv Ho Hat0 Hd0 Ep Ek keep.
  pose proof (set_desc_wrote m ext hs b h d0 (mk_desc KOBJ_PLACEHOLDER 0) Hi Hat0) as Hw.
  assert (Hne : (a, i) <> (b, h)).
  { intros [= -> ->]. pose proof (handle_at_fun hs b h d d0 Hat Hat0) as ->. by destruct Hv. }
  assert (H1 : forall q j x, handle_at hs1 q j x <->
     (q = b /\ j = h /\ x = mk_desc KOBJ_PLACEHOLDER 0) \/ (~ (q = b /\ j = h) /\ handle_at hs q j x)).
  { intros q j x. by rewrite (handle_at_procs _ hs1 _ _ _ Ep), (w_at _ _ _ _ _ _ _ Hw). }
  assert (Hat1 : handle_at hs1 a i d) by (apply H1; right; split; [intros [-> ->]|]; done).
  pose proof (set_desc_wrote m ext hs1 a i d (mk_desc (hd_kobj d) keep) Hi1 Hat1) as Hw1.
  set (hs2 := set_desc hs1 a (0%nat, i) (mk_desc (hd_kobj d) keep)) in *.
  assert (Hi2 : inv m ext hs2).
  { eapply (inv_wrote m m ext ext hs1 hs2 a i _ _ Hi1 Hw1); [apply Hi1|]. intros x _.
    pose proof (w_count _ _ _ _ _ _ _ Hw1 x) as Hc. cbn in Hc. lia. }
  assert (Hat2 : handle_at hs2 b h (mk_desc KOBJ_PLACEHOLDER 0)).
  { apply (w_at _ _ _ _ _ _ _ Hw1). right. split; [intros [-> ->]; done|]. apply H1. by left. }
  destruct (handle_live m ext hs a i d Hi Hat Hv) as (o' & Ho' & Hpos & _).
  assert (o' = o) as -> by congruence.
  assert (Hlen : length (procs hs2) = length (procs hs)).
  { rewrite (w_len _ _ _ _ _ _ _ Hw1), Ep. apply Hw. }
  destruct (write_handle m ext hs2 b h _ (hd_kobj d) send Hi2 Hat2) as (hs' & E & Hi' & Ep' & Ec' & Ekx & Ekk & _).
  { intros [_ ?]. done. }
  { exists o. rewrite Hlen. split; [by rewrite (w_objs _ _ _ _ _ _ _ Hw1), Ek|]. split; [lia|apply Hroom]. }
  destruct (read_handle m ext hs2 b h _ Hi2 Hat2) as [El Eg].
  destruct (handle_in m ext hs2 b h _ Hi2 Hat2) as (_ & _ & _ & _ & _ & _ & _ & Hhlt).
  exists hs'. split_and!; try done.
  - unfold setup_handle. rewrite not_wrong by (change PROC_MAX_HANDLE with 32640; change NR_DESC_PER_PAGE with 255 in *; lia).
    cbn [negb assert obind]. rewrite El. cbn [obind]. rewrite Eg. cbn [obind hd_kobj assert]. rewrite Z.eqb_refl.
    cbn [assert obind]. exact E.
  - split; [done|]. intros q j x Hx.
    pose proof (set_desc_wrote m ext hs2 b h _ (mk_desc (hd_kobj d) send) Hi2 Hat2) as Hw2.
    rewrite (handle_at_procs _ hs' _ _ _ Ep'), (w_at _ _ _ _ _ _ _ Hw2), (w_at _ _ _ _ _ _ _ Hw1), H1.
    assert (q = a /\ j = i -> ~ (q = b /\ j = h)) by (intros [-> ->] [-> ->]; done). tauto.
  - apply Ekk. by rewrite (w_objs _ _ _ _ _ _ _ Hw1), Ek.
  - intros x Hx. by rewrite Ekx, (w_objs _ _ _ _ _ _ _ Hw1), Ek.
  - rewrite Ep', procs_length. done.
Qed.


Lemma inv_mono m m' ext hs : inv m ext hs -> m <= m' -> inv m' ext hs.
Proof.
  intros [H1 H2 H3 H4 H5 H6 H7] Hm. split; try done. eapply Forall_impl; [exact H1|].
  intros pr (t & ? & ? & ? & ?). exists t. split_and!; try done; lia.
Qed.

(** Every outcome of sending handle [i] of process [a], which is [d], to process [b]. *)
Inductive send_result (m : Z) (ext : Z -> Z) (hs : hstate A) (a b i : nat) (d : handle_desc) (right_send : Z)
    : outcome (Z * hstate A) -> Prop :=
| send_full :
    (forall j x, handle_at hs b j x -> hd_kobj x <> 0) ->
    send_result m ext hs a b i d right_send Panic
| send_fault :
    ~ valid_ptr (hd_kobj d) ->
    send_result m ext hs a b i d right_send Fault
| send_refused hs' :
    hd_kobj d = 0 \/ (exists o, kobjs hs !! hd_kobj d = Some o /\ may_send o (hd_right d) right_send = false) ->
    inv (m + 1) ext hs' -> same_handles hs hs' -> calls hs' = calls hs -> kobjs hs' = kobjs hs ->
    length (procs hs') = length (procs hs) ->
    send_result m ext hs a b i d right_send (Ret (- EPERM, hs'))
| send_done h o hs' :
    valid_ptr (hd_kobj d) -> kobjs hs !! hd_kobj d = Some o -> may_send o (hd_right d) right_send = true ->
    (exists d0, handle_at hs b h d0 /\ hd_kobj d0 = 0) ->
    inv m ext hs' -> calls hs' = calls hs -> length (procs hs') = length (procs hs) ->
    sent hs hs' a i b h (hd_kobj d) (rights_kept o (hd_right d) (rights_sent (hd_right d) right_send))
      (rights_sent (hd_right d) right_send) ->
    kobjs hs' !! hd_kobj d = Some (set_ref (ko_ref o + 1) o) ->
    (forall x, x <> hd_kobj d -> kobjs hs' !! x = kobjs hs !! x) ->
    send_result m ext hs a b i d right_send (Ret (Z.of_nat h, hs')).

Lemma send_handle_cases m ext hs a b i d right_send :
  inv m ext hs -> roomy ext hs -> m + 1 < 2 ^ 32 -> handle_at hs a i d -> (b < length (procs hs))%nat ->
  send_result m ext hs a b i d right_send (send_handle hs a b (Z.of_nat i) right_send).
Proof.
  intros Hi Hroom Hm Hat Hb. destruct (handle_in m ext hs a i d Hi Hat) as (_ & _ & _ & _ & _ & _ & _ & Hlt).
  change NR_DESC_PER_PAGE with 255 in Hlt. unfold send_handle, send_take.
  rewrite not_wrong by (change PROC_MAX_HANDLE with 32640; lia).
  destruct (alloc_handle_spec m ext hs b KOBJ_PLACEHOLDER 0 Hi Hb (or_introl eq_refl))
    as [[Hfull ->]|(h & d0 & hs1 & Hat0 & Hd0 & Hmin & -> & Hi1 & Ep1 & Ec1 & Ek1 & _ & _)];
    cbn [obind]; [by apply send_full|].
  destruct (Z.ltb_spec (Z.of_nat h) 0); [lia|].
  assert (Ek : kobjs hs1 = kobjs hs).
  { apply map_eq. intros x. destruct (decide (x = KOBJ_PLACEHOLDER)) as [->|Hx]; [|by apply Ek1].
    destruct (i_keys _ _ _ Hi) as [_ ->], (i_keys _ _ _ Hi1) as [_ ->]. done. }
  pose proof (set_desc_wrote m ext hs b h d0 (mk_desc KOBJ_PLACEHOLDER 0) Hi Hat0) as Hw.
  assert (Hlen : length (procs hs1) = length (procs hs)) by (rewrite Ep1; apply procs_length).
  destruct (decide (a = b /\ i = h)) as [[-> ->]|Hne].
  { assert (Hat1 : handle_at hs1 b h (mk_desc KOBJ_PLACEHOLDER 0)).
    { rewrite (handle_at_procs _ hs1 _ _ _ Ep1). apply (w_at _ _ _ _ _ _ _ Hw). by left. }
    destruct (read_handle m ext hs1 b h _ Hi1 Hat1) as [-> Eg]. cbn [obind]. rewrite Eg.
    cbn [obind hd_kobj]. unfold get_obj. destruct (i_keys _ _ _ Hi1) as [_ ->]. cbn.
    apply send_fault. rewrite <- (handle_at_fun hs b h d0 d Hat0 Hat), Hd0. by intros [? _]. }
  assert (Hat1 : handle_at hs1 a i d).
  { rewrite (handle_at_procs _ hs1 _ _ _ Ep1). apply (w_at _ _ _ _ _ _ _ Hw). by right. }
  destruct (read_handle m ext hs1 a i d Hi1 Hat1) as [-> Eg]. cbn [obind]. rewrite Eg. cbn [obind].
  destruct (release_placeholder m ext hs hs1 b h d0 Hi Hi1 Hm Hat0 Hd0 Ep1)
    as (hsr & Er & Hir & Hsame & Ecr & Ekr & Hrlen).
  rewrite Hlen in Hrlen.
  rewrite Er. cbn [obind].
  destruct (Z.eqb_spec (hd_kobj d) 0) as [Ez|Hk0].
  { apply send_refused; try done; [by left|congruence..]. }
  unfold get_obj. rewrite Ek. destruct (kobjs hs !! hd_kobj d) as [o|] eqn:Ho; cbn [obind].
  2: { apply send_fault. intros Hv. destruct (handle_live m ext hs a i d Hi Hat Hv) as (? & ? & _). congruence. }
  pose proof (obj_valid m ext hs _ o Hi Ho) as Hv.
  fold (rights_sent (hd_right d) right_send).
  destruct (may_send o (hd_right d) right_send) eqn:Hms; unfold may_send in Hms.
  - bool_hyps. replace (Z.land (ko_flags o) KOBJ_FLAGS_NON_SHARED =? 0) with true by (symmetry; by apply Z.eqb_eq).
    destruct (Z.eqb_spec (hd_right d) 0); [done|]. cbn [negb orb].
    replace (Z.land (hd_right d) (rights_sent (hd_right d) right_send) =? rights_sent (hd_right d) right_send) with true
      by (symmetry; by apply Z.eqb_eq). cbn [negb obind].
    destruct (send_success m ext hs hs1 a i b h d d0 o (rights_sent (hd_right d) right_send))
      as (hs' & E & Hi' & Hsent & Ec' & Ekk & Ekx & Hlen'); try done.
    unfold rights_kept in E. rewrite E. cbn [obind].
    apply (send_done m ext hs a b i d right_send h o hs'); try done; try congruence.
    + unfold may_send. bool_hyps. rewrite !andb_true_iff, negb_true_iff, !Z.eqb_eq, Z.eqb_neq. done.
    + by exists d0.
  - assert (Hres : send_result m ext hs a b i d right_send (Ret (- EPERM, hsr))).
    { apply send_refused; try done; [right; by exists o|congruence..]. }
    destruct (Z.land (ko_flags o) KOBJ_FLAGS_NON_SHARED =? 0), (hd_right d =? 0),
      (Z.land (hd_right d) (rights_sent (hd_right d) right_send) =? rights_sent (hd_right d) right_send);
      cbn in Hms |- *; done.
Qed.


(** ** Closing and using a handle *)

Lemma inv_ext_eq m ext ext' hs : inv m ext hs -> (forall k, ext' k = ext k) -> inv m ext' hs.
Proof.
  intros [H1 H2 H3 H4 H5 H6 H7] E. split; try done.
  - intros k. rewrite E. apply H3.
  - intros k o Ho. rewrite E. by apply H4.
  - intros k Hv. rewrite E. by apply H5.
Qed.

Lemma bump_back ext k n x : bump (bump ext k n) k (- n) x = ext x.
Proof. unfold bump. destruct (Z.eqb_spec x k); lia. Qed.

(** An operation of an object that only makes calls of its own. *)
Definition quiet (hs hs' : hstate A) : Prop :=
  procs hs' = procs hs /\ kobjs hs' = kobjs hs /\
  exists cs, calls hs' = calls hs ++ cs /\ Forall (fun c => ~ is_release c) cs.

Lemma inv_quiet m ext hs hs' : inv m ext hs -> quiet hs hs' -> inv m ext hs'.
Proof.
  intros [H1 H2 H3 H4 H5 H6 H7] (Ep & Ek & cs & Ec & Hcs).
  assert (Eh : forall x, handles_to hs' x = handles_to hs x) by (intros x; unfold handles_to; by rewrite Ep).
  split; rewrite ?Ep, ?Ek, ?Ec; try done.
  - intros k o Ho. rewrite Eh. by apply H4.
  - intros k Hv. rewrite Eh. by apply H5.
  - intros k. rewrite elem_of_app, <- H6. split; [|by left]. intros [?|Hk]; [done|].
    rewrite Forall_forall in Hcs. by destruct (Hcs _ Hk).
  - rewrite filter_app. replace (filter is_release cs) with (@nil call); [by rewrite app_nil_r|].
    clear -Hcs. induction Hcs; [done|]. by rewrite filter_cons_False.
Qed.

Lemma quiet_refl hs : quiet hs hs.
Proof. split_and!; try done. exists []. by rewrite app_nil_r. Qed.

Lemma quiet_log hs hs' c : quiet hs hs' -> ~ is_release c -> quiet hs (log_call hs' c).
Proof.
  intros (Ep & Ek & cs & Ec & Hcs) Hc. split_and!; try done. exists (cs ++ [c]). cbn. rewrite Ec, app_assoc.
  split; [done|]. apply Forall_app. by split; [|apply Forall_singleton].
Qed.

(** The objects are still there, with the rights each may share. *)
Definition static (hs hs' : hstate A) : Prop :=
  forall k o, kobjs hs !! k = Some o ->
  exists o', kobjs hs' !! k = Some o' /\ ko_right_mask o' = ko_right_mask o.

Lemma static_trans hs1 hs2 hs3 : static hs1 hs2 -> static hs2 hs3 -> static hs1 hs3.
Proof.
  intros H12 H23 k o Ho. destruct (H12 k o Ho) as (o2 & Ho2 & E2). destruct (H23 k o2 Ho2) as (o3 & Ho3 & E3).
  exists o3. split; [done|congruence].
Qed.

Lemma static_eq hs hs' : kobjs hs' = kobjs hs -> static hs hs'.
Proof. intros E k o Ho. exists o. by rewrite E. Qed.

Lemma static_ref hs hs' k o r :
  kobjs hs !! k = Some o -> kobjs hs' !! k = Some (set_ref r o) ->
  (forall x, x <> k -> kobjs hs' !! x = kobjs hs !! x) -> static hs hs'.
Proof.
  intros Ho Ek Hx x ox Hox. destruct (decide (x = k)) as [->|Hne]; [|exists ox; by rewrite Hx].
  eexists. split; [done|]. cbn. congruence.
Qed.

Lemma put_static hs k r hs' : kobject_put hs k = Ret (r, hs') -> static hs hs'.
Proof.
  unfold kobject_put, get_obj. intros E. destruct (k =? 0); [simplify_eq; by apply static_eq|].
  destruct (kobjs hs !! k) as [o|] eqn:Ho; [|done]. cbn [obind] in E. destruct (0 <? ko_ref o); [|done].
  cbn [assert obind] in E. injection E as _ <-.
  eapply (static_ref _ _ k o); [done| |]; intros; case_match; cbn; (apply lookup_insert_eq || by apply lookup_insert_ne).
Qed.

(** [kobject_close] on a reference the caller holds. *)
Lemma kobject_close_spec m ext hs k right p op_ret :
  inv m ext hs -> valid_ptr k -> 0 < ext k ->
  exists r hs', kobject_close hs k right p op_ret = Ret (r, hs') /\ inv m (bump ext k (-1)) hs' /\
    procs hs' = procs hs /\ static hs hs' /\
    (CallRelease k ∈ calls hs' <-> handles_to hs k + ext k = 1) /\
    (forall x, x <> k -> CallRelease x ∈ calls hs' <-> CallRelease x ∈ calls hs).
Proof.
  intros Hi Hv Hpos. unfold kobject_close.
  assert (Hno : ~ CallRelease k ∈ calls hs).
  { rewrite (i_released _ _ _ Hi). intros (o & Ho & Hr). destruct (i_refs _ _ _ Hi k o Ho) as [(_ & _ & ?)|?]; [lia|].
    pose proof (handles_to_bound m ext hs k Hi). lia. }
  assert (Hput : forall hs1, quiet hs hs1 -> exists hs', kobject_put hs1 k = Ret (1, hs') /\
    inv m (bump ext k (-1)) hs' /\ procs hs' = procs hs /\ static hs hs' /\
    (CallRelease k ∈ calls hs' <-> handles_to hs k + ext k = 1) /\
    (forall x, x <> k -> CallRelease x ∈ calls hs' <-> CallRelease x ∈ calls hs)).
  { intros hs1 Hq. destruct (kobject_put_spec m ext hs1 k (inv_quiet _ _ _ _ Hi Hq) Hv Hpos)
      as (hs' & E & Hi' & Ep & Ec & _). destruct Hq as (Ep1 & Ek1 & cs & Ec1 & Hcs). exists hs'.
    assert (Hrel : forall x, CallRelease x ∈ cs -> False).
    { intros x Hx. rewrite Forall_forall in Hcs. by apply (Hcs _ Hx). }
    assert (Eh : handles_to hs1 k = handles_to hs k) by (unfold handles_to; by rewrite Ep1).
    rewrite Eh in Ec. split_and!; try done; [congruence| | |].
    - eapply static_trans; [by apply static_eq|by eapply put_static].
    - rewrite Ec, Ec1, !elem_of_app. destruct (Z.eqb_spec (handles_to hs k + ext k) 1) as [E1|Hne].
      + rewrite list_elem_of_singleton. tauto.
      + rewrite elem_of_nil. split; [intros [[?|?]|?]; exfalso; eauto|done].
    - intros x Hx. rewrite Ec, Ec1, !elem_of_app. split; [|tauto]. intros [[?|?]|Hlast]; [done|exfalso; eauto|].
      destruct (_ =? 1); [|by apply not_elem_of_nil in Hlast]. apply list_elem_of_singleton in Hlast. congruence. }
  destruct (right =? KOBJ_RIGHT_NONE).
  - destruct (Hput hs (quiet_refl hs)) as (hs' & -> & Hrest). cbn. by exists 0, hs'.
  - set (hs1 := match op_ret with Some r => (r, log_call hs (CallClose k right p)) | None => (0, hs) end).
    assert (Hq1 : quiet hs hs1.2) by (unfold hs1; destruct op_ret; [apply quiet_log; [|intros []]|]; apply quiet_refl).
    destruct hs1 as [r hs1]. cbn in Hq1.
    set (hs2 := if negb (Z.land right KOBJ_RIGHT_WRITE =? 0) then log_call hs1 (PollEvent k EV_WCLOSE)
                else if negb (Z.land right KOBJ_RIGHT_READ =? 0) then log_call hs1 (PollEvent k EV_RCLOSE) else hs1).
    assert (Hq2 : quiet hs hs2).
    { unfold hs2. repeat case_match; try done; (apply quiet_log; [done|intros []]). }
    destruct (Hput hs2 Hq2) as (hs' & -> & Hrest). cbn. by exists r, hs'.
Qed.

(** The handles after entry [i] of [p] was cleared. *)
Definition closed (hs hs' : hstate A) (p i : nat) : Prop :=
  forall q j x, hd_kobj x <> 0 -> handle_at hs' q j x <-> (~ (q = p /\ j = i) /\ handle_at hs q j x).

Lemma close_spec m ext hs p i d op_ret :
  inv m ext hs -> roomy ext hs -> m + 1 < 2 ^ 32 -> handle_at hs p i d -> valid_ptr (hd_kobj d) ->
  exists r hs', sys_kobject_close hs p (Z.of_nat i) op_ret = Ret (r, hs') /\ inv (m + 1) ext hs' /\
    closed hs hs' p i /\ length (procs hs') = length (procs hs) /\ static hs hs' /\
    (CallRelease (hd_kobj d) ∈ calls hs' <-> handles_to hs (hd_kobj d) + ext (hd_kobj d) = 1) /\
    (forall x, x <> hd_kobj d -> CallRelease x ∈ calls hs' <-> CallRelease x ∈ calls hs).
Proof.
  intros Hi Hroom Hm Hat [Hk0 Hkp]. set (k := hd_kobj d) in *.
  destruct (handle_in m ext hs p i d Hi Hat) as (_ & _ & _ & _ & _ & _ & _ & Hlt). change NR_DESC_PER_PAGE with 255 in Hlt.
  unfold sys_kobject_close, release_process_handle. rewrite not_wrong by (change PROC_MAX_HANDLE with 32640; lia).
  destruct (read_handle m ext hs p i d Hi Hat) as [-> Eg]. cbn [obind]. rewrite Eg. cbn [obind]. fold k.
  destruct (Z.eqb_spec k 0); [done|]. destruct (Z.eqb_spec k KOBJ_PLACEHOLDER); [done|]. cbn [orb obind fst].
  pose proof (clear_desc_wrote m ext hs p i d empty_desc Hi Hm Hat) as Hw.
  set (hs1 := inc_left _ p 0) in *.
  assert (Hcnt : forall x, handles_to hs1 x + (if decide (k = x) then 1 else 0) =
                           handles_to hs x + (if decide (0 = x) then 1 else 0)) by apply (w_count _ _ _ _ _ _ _ Hw).
  assert (Hi1 : inv (m + 1) (bump ext k 1) hs1).
  { eapply (inv_wrote m (m + 1) ext _ hs hs1 p i d empty_desc Hi Hw).
    - intros x. unfold bump. destruct (Z.eqb_spec x k) as [->|]; [|apply Hi].
      pose proof (Hroom k). pose proof (i_ext _ _ _ Hi k). lia.
    - intros x [Hx0 _]. specialize (Hcnt x). unfold bump. destruct (Z.eqb_spec x k) as [->|];
        repeat case_decide; congruence || lia. }
  destruct (kobject_close_spec (m + 1) _ hs1 k (hd_right d) p op_ret Hi1 ltac:(done)) as (r & hs' & E & Hi' & Ep & Hst & Hrel & Hoth).
  { unfold bump. rewrite Z.eqb_refl. pose proof (i_ext _ _ _ Hi k). lia. }
  exists r, hs'. split; [exact E|]. split; [eapply inv_ext_eq; [exact Hi'|]; intros x; symmetry; apply (bump_back ext k 1)|].
  split.
  { intros q j x Hx. rewrite (handle_at_procs hs1 hs' _ _ _ Ep), (w_at _ _ _ _ _ _ _ Hw). split; [|tauto].
    intros [(_ & _ & ->)|?]; done. }
  split; [rewrite Ep; apply Hw|]. split; [|split].
  - eapply static_trans; [apply static_eq; apply Hw|done].
  - rewrite Hrel. specialize (Hcnt k). unfold bump. rewrite Z.eqb_refl.
    destruct (decide (k = k)); [|done]. destruct (decide (0 = k)); [congruence|]. lia.
  - intros x Hx. by rewrite Hoth, (w_calls _ _ _ _ _ _ _ Hw).
Qed.


(** A handle as the system calls get it: a [handle_t]. *)
Definition is_handle (handle : Z) : Prop := - 2 ^ 15 <= handle < 2 ^ 15.

(** A handle that passes the range check is an entry of the table, or the lookup walks
    off its end. *)
Lemma find_handle m ext hs p handle :
  inv m ext hs -> is_handle handle -> WRONG_HANDLE handle = false ->
  lookup_handle_desc hs p handle = Fault \/
  exists i d, handle = Z.of_nat i /\ handle_at hs p i d.
Proof.
  intros Hi Hh Hw. unfold is_handle in Hh. unfold WRONG_HANDLE, HANDLE_NULL in Hw.
  apply orb_false_iff in Hw as [H1 H2%Z.leb_gt]. change PROC_MAX_HANDLE with 32640 in H2.
  assert (0 <= handle < 32640) as Hr.
  { destruct (Z.leb_spec 0 handle); [rewrite wrap_small in H2; lia|].
    unfold wrap in H2. rewrite <- (Z.mod_add handle 1), Z.mod_small in H2; lia. }
  destruct (procs hs !! p) as [pr|] eqn:Hp;
    [|left; unfold lookup_handle_desc, get_proc; by rewrite Hp].
  pose proof (Forall_lookup_1 _ _ _ _ (i_procs _ _ _ Hi) Hp) as Hok.
  destruct (decide (handle < NR_DESC_PER_PAGE)) as [Hlt|Hge].
  - right. destruct (handle_exists m ext hs p handle Hi) as [d Hd]; [by eapply lookup_lt_Some|lia|].
    exists (Z.to_nat handle), d. split; [lia|done].
  - left. apply (lookup_handle_out m hs p pr); [done|done|lia].
Qed.

(** [get_kobject_from_process] on an entry of the table. *)
Lemma get_kobject_spec m ext hs p i d :
  inv m ext hs -> roomy ext hs -> handle_at hs p i d ->
  (valid_ptr (hd_kobj d) /\ exists o,
     kobjs hs !! hd_kobj d = Some o /\ 0 < ko_ref o /\
     let hs' := set_kobjs hs (<[hd_kobj d := set_ref (ko_ref o + 1) o]> (kobjs hs)) in
     get_kobject_from_process hs p (Z.of_nat i) = Ret (0, Some (hd_kobj d, hd_right d), hs') /\
     inv m (bump ext (hd_kobj d) 1) hs') \/
  (~ valid_ptr (hd_kobj d) /\ get_kobject_from_process hs p (Z.of_nat i) = Ret (0, None, hs)).
Proof.
  intros Hi Hroom Hat. destruct (handle_in m ext hs p i d Hi Hat) as (_ & _ & _ & _ & _ & _ & _ & Hlt).
  change NR_DESC_PER_PAGE with 255 in Hlt. unfold get_kobject_from_process, valid_ptr.
  rewrite not_wrong by (change PROC_MAX_HANDLE with 32640; lia).
  destruct (read_handle m ext hs p i d Hi Hat) as [-> Eg]. cbn [obind]. rewrite Eg. cbn [obind].
  destruct (Z.eqb_spec (hd_kobj d) 0); [right; tauto|].
  destruct (Z.eqb_spec (hd_kobj d) KOBJ_PLACEHOLDER); [right; tauto|]. left. split; [done|].
  destruct (handle_live m ext hs p i d Hi Hat ltac:(done)) as (o & Ho & Hr & _). exists o.
  destruct (kobject_get_spec m ext hs (hd_kobj d) o Hi Ho ltac:(lia) (Hroom _)) as [E Hi'].
  split_and!; try done. cbn [negb andb]. by rewrite E.
Qed.

Lemma put_back m ext hs hs1 k :
  inv m (bump ext k 1) hs1 -> inv m ext hs -> valid_ptr k -> 0 < handles_to hs1 k ->
  exists hs', put_kobject hs1 k = Ret (1, hs') /\ inv m ext hs' /\ procs hs' = procs hs1 /\ calls hs' = calls hs1 /\
    static hs1 hs'.
Proof.
  intros Hi1 Hi Hv Hpos. pose proof (i_ext _ _ _ Hi k).
  assert (Hb : 1 <= bump ext k 1 k) by (unfold bump; rewrite Z.eqb_refl; lia).
  destruct (kobject_put_spec m _ hs1 k Hi1 Hv ltac:(lia)) as (hs' & E & Hi' & Ep & Ec & _). exists hs'.
  split; [done|]. split; [eapply inv_ext_eq; [exact Hi'|]; intros x; symmetry; apply (bump_back ext k 1)|].
  split_and!; [done| |by eapply put_static]. rewrite Ec.
  destruct (Z.eqb_spec (handles_to hs1 k + bump ext k 1 k) 1); [lia|]. apply app_nil_r.
Qed.

(** The right check and the call of a system call on a handle. *)
Lemma with_kobject_spec m ext hs p i d need op :
  inv m ext hs -> roomy ext hs -> handle_at hs p i d -> valid_ptr (hd_kobj d) ->
  (forall hs0, quiet hs0 (op hs0 (hd_kobj d) (hd_right d)).2) ->
  exists r hs' hs1, with_kobject hs p (Z.of_nat i) need op = Ret (r, hs') /\ inv m ext hs' /\ procs hs' = procs hs /\
    static hs hs' /\ calls hs1 = calls hs /\
    if negb (need =? 0) && (Z.land (hd_right d) need =? 0) then r = - EPERM /\ calls hs' = calls hs
    else let res := op hs1 (hd_kobj d) (hd_right d) in r = res.1 /\ calls hs' = calls res.2.
Proof.
  intros Hi Hroom Hat Hv Hq. pose proof (handle_counts hs p i d Hat) as Hc. unfold with_kobject.
  destruct (get_kobject_spec m ext hs p i d Hi Hroom Hat) as [(_ & o & Ho & Hr & E & Hi1)|[? _]]; [|done].
  rewrite E. cbn [obind Z.eqb negb]. set (k := hd_kobj d) in *.
  set (hs1 := set_kobjs hs (<[k := set_ref (ko_ref o + 1) o]> (kobjs hs))) in *.
  set (res := if negb (need =? 0) && (Z.land (hd_right d) need =? 0) then (- EPERM, hs1) else op hs1 k (hd_right d)).
  assert (Hres : quiet hs1 res.2) by (unfold res; case_match; [apply quiet_refl|apply Hq]).
  pose proof (inv_quiet _ _ _ _ Hi1 Hres) as Hi2. destruct Hres as (Ep & Ek & _).
  destruct (put_back m ext hs res.2 k Hi2 Hi Hv) as (hs' & E' & Hi' & Ep' & Ec' & Ek').
  { unfold handles_to. rewrite Ep. exact Hc. }
  rewrite (surjective_pairing res). rewrite E'. cbn [obind].
  exists res.1, hs', hs1. split_and!; try done.
  - by rewrite Ep', Ep.
  - eapply static_trans; [|eapply static_trans; [by apply static_eq|exact Ek']].
    eapply (static_ref _ _ k o); [done|apply lookup_insert_eq|]. intros x Hx. by apply lookup_insert_ne.
  - unfold res in *. by case_match.
Qed.


(** ** Rights over a run of system calls *)

Definition holds (hs : hstate A) (k b : Z) (q j : nat) : Prop :=
  exists x, handle_at hs q j x /\ hd_kobj x = k /\ Z.testbit (hd_right x) b = true.

(** At most one handle to [k] carries the right [b]. *)
Definition sole (hs : hstate A) (k b : Z) : Prop :=
  forall q j q' j', holds hs k b q j -> holds hs k b q' j' -> q = q' /\ j = j'.

(** The console, to which every new process gets handles. *)
Variable stdio_kobj : Z.

Record evolves (hs hs' : hstate A) : Prop := {
  e_static : static hs hs';
  e_derived : forall k b q j, is_Some (kobjs hs !! k) -> k <> stdio_kobj -> holds hs' k b q j ->
    exists q0 j0, holds hs k b q0 j0;
  e_sole : forall k b o, kobjs hs !! k = Some o -> k <> stdio_kobj -> Z.testbit (ko_right_mask o) b = false ->
    sole hs k b -> sole hs' k b;
}.

Lemma evolves_refl hs : evolves hs hs.
Proof. split; [by apply static_eq| |done]. intros. by do 2 eexists. Qed.

Lemma evolves_trans hs1 hs2 hs3 : evolves hs1 hs2 -> evolves hs2 hs3 -> evolves hs1 hs3.
Proof.
  intros [S1 D1 X1] [S2 D2 X2]. split; [by eapply static_trans| |].
  - intros k b q j [o Ho] Hk Hh. destruct (S1 k o Ho) as (o2 & Ho2 & _).
    destruct (D2 k b q j ltac:(by eexists) Hk Hh) as (q2 & j2 & H2). by apply (D1 k b q2 j2).
  - intros k b o Ho Hk Hb Hs. destruct (S1 k o Ho) as (o2 & Ho2 & E2). apply (X2 k b o2); [done|done|by rewrite E2|].
    by apply (X1 k b o).
Qed.

(** No handle to a known object is new, apart from those to the console. *)
Definition fewer (hs hs' : hstate A) : Prop :=
  static hs hs' /\
  forall q j x, is_Some (kobjs hs !! hd_kobj x) -> hd_kobj x <> stdio_kobj -> handle_at hs' q j x -> handle_at hs q j x.

Lemma fewer_trans hs1 hs2 hs3 : fewer hs1 hs2 -> fewer hs2 hs3 -> fewer hs1 hs3.
Proof.
  intros [S1 F1] [S2 F2]. split; [by eapply static_trans|]. intros q j x [o Hx] Hne Hat.
  apply F1; [by eexists|done|]. apply F2; [|done|done]. destruct (S1 _ _ Hx) as (o2 & ? & _). by eexists.
Qed.

Lemma fewer_evolves hs hs' : fewer hs hs' -> evolves hs hs'.
Proof.
  intros [Hs Hin].
  assert (Hh : forall k b q j, is_Some (kobjs hs !! k) -> k <> stdio_kobj -> holds hs' k b q j -> holds hs k b q j).
  { intros k b q j Hk Hne (x & Hx & <- & Hb). exists x. split_and!; try done. by apply Hin. }
  split; [done| |].
  - intros k b q j Hk Hne H'. exists q, j. by apply Hh.
  - intros k b o Ho Hne _ Hsole q j q' j' H1 H2. apply (Hsole q j q' j'); by apply Hh.
Qed.

Lemma evolves_fewer hs hs' :
  static hs hs' ->
  (forall q j x, is_Some (kobjs hs !! hd_kobj x) -> handle_at hs' q j x -> handle_at hs q j x) -> evolves hs hs'.
Proof. intros Hs Hin. apply fewer_evolves. split; [done|]. intros q j x Hx _. by apply Hin. Qed.

Lemma known_ne m ext hs k : inv m ext hs -> is_Some (kobjs hs !! k) -> k <> 0.
Proof. intros Hi [o Ho] ->. destruct (i_keys _ _ _ Hi). congruence. Qed.

Lemma may_send_bits o right right_send b :
  may_send o right right_send = true ->
  Z.testbit (rights_sent right right_send) b = true -> Z.testbit right b = true.
Proof.
  unfold may_send. intros [_ E%Z.eqb_eq]%andb_true_iff Hb. rewrite <- E, Z.land_spec in Hb.
  by apply andb_true_iff in Hb as [? _].
Qed.

Lemma rights_kept_bits o right send b :
  0 <= b -> Z.testbit (rights_kept o right send) b =
            Z.testbit right b && (negb (Z.testbit send b) || Z.testbit (ko_right_mask o) b).
Proof. intros Hb. unfold rights_kept. by rewrite Z.land_spec, Z.lor_spec, Z.lnot_spec. Qed.

(** A transfer neither adds a right nor doubles one that may not be shared. *)
Lemma evolves_sent m ext hs hs' a i b h d o right_send :
  inv m ext hs -> static hs hs' -> handle_at hs a i d -> kobjs hs !! hd_kobj d = Some o ->
  may_send o (hd_right d) right_send = true ->
  sent hs hs' a i b h (hd_kobj d) (rights_kept o (hd_right d) (rights_sent (hd_right d) right_send))
    (rights_sent (hd_right d) right_send) ->
  evolves hs hs'.
Proof.
  intros Hi Hst Hat Ho Hmay [Hne Hsent]. set (k := hd_kobj d) in *. set (snt := rights_sent _ _) in *.
  assert (Hbit : forall c q j x, is_Some (kobjs hs !! hd_kobj x) -> handle_at hs' q j x -> Z.testbit (hd_right x) c = true ->
    (q = b /\ j = h /\ hd_kobj x = k /\ Z.testbit snt c = true) \/
    (q = a /\ j = i /\ hd_kobj x = k /\ Z.testbit (hd_right d) c = true /\
       (Z.testbit snt c = false \/ Z.testbit (ko_right_mask o) c = true)) \/
    (~ (q = a /\ j = i) /\ holds hs (hd_kobj x) c q j)).
  { intros c q j x Hx Hxat Hc. apply (Hsent q j x (known_ne _ _ _ _ Hi Hx)) in Hxat as [(-> & -> & ->)|[(-> & -> & ->)|(_ & Hn & Hxat)]].
    - left. done.
    - right; left. cbn in Hc. assert (0 <= c) by (destruct (Z.leb_spec 0 c); [done|rewrite Z.testbit_neg_r in Hc; done]).
      rewrite rights_kept_bits in Hc by done. apply andb_true_iff in Hc as [-> Hor].
      split_and!; try done. apply orb_true_iff in Hor as [Hl|Hr]; [left; by apply negb_true_iff|by right].
    - right; right. split; [done|]. by exists x. }
  assert (Hd : forall c, Z.testbit (hd_right d) c = true -> holds hs k c a i) by (intros c Hc; by exists d).
  pose proof (fun c => may_send_bits o (hd_right d) right_send c Hmay) as Hsub. fold snt in Hsub.
  split; [done| |].
  - intros x c q j Hk _ (y & Hy & <- & Hc).
    destruct (Hbit c q j y Hk Hy Hc) as [(-> & -> & -> & Hc')|[(-> & -> & -> & Hc' & _)|[_ ?]]]; eauto.
  - intros x c ox Hox _ Hmask Hsole q j q' j' (y & Hy & Ey & Hc) (y' & Hy' & Ey' & Hc').
    assert (Hkx : is_Some (kobjs hs !! x)) by (by eexists).
    specialize (Hbit c) as Hb'. rewrite <- Ey in Hkx. pose proof (Hb' q j y Hkx Hy Hc) as C1.
    rewrite Ey, <- Ey' in Hkx. pose proof (Hb' q' j' y' Hkx Hy' Hc') as C2. rewrite Ey in C1. rewrite Ey' in C2.
    assert (Hold : forall q j, x = k -> ~ (q = a /\ j = i) -> Z.testbit (hd_right d) c = true -> holds hs x c q j -> False).
    { intros q1 j1 -> Hn1 Hb1 H1. apply Hn1. apply (Hsole q1 j1 a i); [done|by apply Hd]. }
    assert (Hm' : x = k -> Z.testbit (ko_right_mask o) c = false) by (intros ->; congruence).
    destruct C1 as [(-> & -> & -> & S1)|[(-> & -> & -> & R1 & [N1|N1])|[N1 H1]]],
             C2 as [(-> & -> & E2 & S2)|[(-> & -> & E2 & R2 & [N2|N2])|[N2 H2]]];
      try done; try congruence; try (rewrite Hm' in *; done);
      try (exfalso; by eapply Hold; eauto); by apply Hsole.
Qed.


(** ** The system calls as steps *)

(** [op_ret] is what the operation of the object returns, if it has that operation;
    [Transfer] is the transfer of a handle by the operation of an object, such as the
    reply to a message that carries a descriptor. *)
Inductive syscall : Type :=
| Create (type data : Z)
| Grant (proc_handle handle right : Z)
| Transfer (pdst : nat) (handle right : Z)
| Close (handle : Z) (op_ret : option Z)
| Open (handle : Z) (op_ret : option Z)
| Recv (handle : Z) (op_ret : option Z)
| Send (handle : Z) (op_ret : option Z)
| Ctl (handle : Z) (op_ret : option Z)
| Mmap (handle : Z) (op_ret : option Z)
| Munmap (handle : Z) (op_ret : option Z)
| Reply (handle : Z) (op_ret : option Z).

Definition do_syscall (cbs : Z -> option create_cb) (hs : hstate A) (cur : nat) (c : syscall)
    : outcome (Z * hstate A) :=
  match c with
  | Create type data => sys_kobject_create cbs hs cur type data
  | Grant ph handle rt => sys_grant hs cur ph handle rt
  | Transfer pdst handle rt => send_handle hs cur pdst handle rt
  | Close handle r => sys_kobject_close hs cur handle r
  | Open handle r => sys_kobject_open hs cur handle r
  | Recv handle r => sys_kobject_recv hs cur handle r
  | Send handle r => sys_kobject_send hs cur handle r
  | Ctl handle r => sys_kobject_ctl hs cur handle r
  | Mmap handle r => sys_kobject_mmap hs cur handle r
  | Munmap handle r => sys_kobject_munmap hs cur handle r
  | Reply handle r => sys_kobject_reply hs cur handle r
  end.

Definition call_ok (c : syscall) : Prop :=
  match c with
  | Create _ _ => True
  | Grant ph handle _ => is_handle ph /\ is_handle handle
  | Transfer _ handle _ | Close handle _ | Open handle _ | Recv handle _ | Send handle _ | Ctl handle _
  | Mmap handle _ | Munmap handle _ | Reply handle _ => is_handle handle
  end.

(** What the callback of a type other than processes promises when it returns: the object
    is new, zeroed apart from what [kobject_init] sets, and nothing else of this component
    changed. *)
Definition creator (cb : create_cb) : Prop :=
  forall hs cur data ret k rt hs', cb hs cur data = Ret (ret, (k, rt), hs') ->
    procs hs' = procs hs /\ calls hs' = calls hs /\
    (ret <> 0 -> kobjs hs' = kobjs hs) /\
    (ret = 0 -> valid_ptr k /\ kobjs hs !! k = None /\
       exists o, ko_ref o = 0 /\ kobjs hs' = <[k := o]> (kobjs hs)).

(** The object of a new process is new, and there are no more than [limit] processes: each
    has a root task, and the identifiers of tasks are finite. *)
Definition makes_process (limit : nat) (made : hstate A -> Z -> option Z) : Prop :=
  forall hs data k, made hs data = Some k ->
    valid_ptr k /\ kobjs hs !! k = None /\ (length (procs hs) < limit)%nat.

(** The registered callbacks: [process_create], and the creators of the other types. *)
Definition callbacks_ok (limit : nat) (cbs : Z -> option create_cb) : Prop :=
  forall t cb, cbs t = Some cb -> creator cb \/
    exists root copied made, cb = process_create root copied made stdio_kobj /\ makes_process limit made.

Inductive hstep (cbs : Z -> option create_cb) (hs hs' : hstate A) : Prop :=
| hstep_call cur c ret : call_ok c -> do_syscall cbs hs cur c = Ret (ret, hs') -> hstep cbs hs hs'.

Definition slack (n : Z) (ext : Z -> Z) (hs : hstate A) : Prop :=
  forall k, ext k + n + NR_DESC_PER_PAGE * Z.of_nat (length (procs hs)) < 2 ^ 31 - 1.

(** Room in the counters for [n] more references, with up to [limit] processes. *)
Definition headroom (limit : nat) (n : Z) (ext : Z -> Z) (hs : hstate A) : Prop :=
  forall k, ext k + n + NR_DESC_PER_PAGE * Z.of_nat (limit `max` length (procs hs)) < 2 ^ 31 - 1.

(** [limit] is the number of processes a step may create up to. *)
Definition step_ok (limit : nat) (m : Z) (ext : Z -> Z) (hs hs' : hstate A) : Prop :=
  exists ext', inv (m + 1) ext' hs' /\ (forall k, ext k <= ext' k <= ext k + 1) /\
    (limit `max` length (procs hs') = limit `max` length (procs hs))%nat /\ evolves hs hs'.

Lemma headroom_slack limit n ext hs : headroom limit n ext hs -> slack n ext hs.
Proof. intros Hs k. specialize (Hs k). change NR_DESC_PER_PAGE with 255 in *. lia. Qed.

Lemma slack_roomy n ext hs : slack n ext hs -> 1 <= n -> roomy ext hs.
Proof. intros Hs Hn k. specialize (Hs k). lia. Qed.

Lemma step_ok_same limit m ext hs hs' :
  inv m ext hs' -> procs hs' = procs hs -> static hs hs' -> step_ok limit m ext hs hs'.
Proof.
  intros Hi Ep Hs. exists ext. split_and!; [eapply inv_mono; [done|lia]|intros; lia|by rewrite Ep|].
  apply evolves_fewer; [done|]. intros q j x _. by rewrite (handle_at_procs _ _ _ _ _ Ep).
Qed.


(** A transfer that returns had a handle out of range, or an entry of the table. *)
Lemma send_source m ext hs a b handle rt r hs' :
  inv m ext hs -> is_handle handle -> send_handle hs a b handle rt = Ret (r, hs') ->
  hs' = hs \/ ((b < length (procs hs))%nat /\ exists i d, handle = Z.of_nat i /\ handle_at hs a i d).
Proof.
  intros Hi Hh E. unfold send_handle, send_take in E. destruct (WRONG_HANDLE handle) eqn:Hw; [left; by simplify_eq/=|].
  right. assert (Hb : (b < length (procs hs))%nat).
  { apply lookup_lt_is_Some_1. destruct (procs hs !! b) eqn:Hp; [by eexists|].
    unfold __alloc_handle, get_proc in E. rewrite Hp in E. done. }
  split; [done|].
  destruct (alloc_handle_spec m ext hs b KOBJ_PLACEHOLDER 0 Hi Hb (or_introl eq_refl))
    as [[_ Ea]|(h & d0 & hs1 & _ & _ & _ & Ea & Hi1 & Ep & _)]; rewrite Ea in E; [done|]. cbn [obind] in E.
  destruct (Z.ltb_spec (Z.of_nat h) 0); [lia|].
  destruct (find_handle m ext hs1 a handle Hi1 Hh Hw) as [Ef|(i & d & -> & Hat)]; [by rewrite Ef in E|].
  destruct (handle_in m ext hs1 a i d Hi1 Hat) as (pr & t & Hp & _ & _ & _ & _ & Hlt).
  destruct (handle_exists m ext hs a (Z.of_nat i) Hi) as [d' Hd']; [|lia|].
  - apply lookup_lt_Some in Hp. by rewrite Ep, procs_length in Hp.
  - rewrite Nat2Z.id in Hd'. by exists i, d'.
Qed.

Lemma transfer_evolves m ext hs a b handle rt r hs' :
  inv m ext hs -> roomy ext hs -> m + 1 < 2 ^ 32 -> is_handle handle ->
  send_handle hs a b handle rt = Ret (r, hs') ->
  inv (m + 1) ext hs' /\ length (procs hs') = length (procs hs) /\ evolves hs hs'.
Proof.
  intros Hi Hroom Hm Hh E.
  destruct (send_source m ext hs a b handle rt r hs' Hi Hh E) as [->|(Hb & i & d & -> & Hat)].
  { split_and!; [eapply inv_mono; [done|lia]|done|apply evolves_refl]. }
  pose proof (send_handle_cases m ext hs a b i d rt Hi Hroom Hm Hat Hb) as Hc. rewrite E in Hc.
  inversion Hc as [| |hs0 _ Hi' Hsame _ Ek Hlen|h o hs0 Hv Ho Hmay _ Hi' _ Hlen Hsent Eo Ex]; subst.
  - split_and!; [done|done|]. apply evolves_fewer; [by apply static_eq|].
    intros q j x Hx. apply Hsame. by apply (known_ne m ext hs).
  - split_and!; [eapply inv_mono; [done|lia]|done|].
    eapply evolves_sent; try done. by eapply static_ref.
Qed.

(** What taking a reference through a handle can return. *)
Lemma get_kobject_inv m ext hs p handle r out hs1 :
  inv m ext hs -> roomy ext hs -> is_handle handle ->
  get_kobject_from_process hs p handle = Ret (r, out, hs1) ->
  (out = None /\ hs1 = hs) \/
  exists i d, handle = Z.of_nat i /\ handle_at hs p i d /\ valid_ptr (hd_kobj d) /\ r = 0 /\
    out = Some (hd_kobj d, hd_right d) /\ inv m (bump ext (hd_kobj d) 1) hs1 /\
    procs hs1 = procs hs /\ calls hs1 = calls hs /\ static hs hs1.
Proof.
  intros Hi Hroom Hh E. destruct (WRONG_HANDLE handle) eqn:Hw.
  { left. unfold get_kobject_from_process in E. rewrite Hw in E. by simplify_eq. }
  destruct (find_handle m ext hs p handle Hi Hh Hw) as [Ef|(i & d & -> & Hat)].
  { unfold get_kobject_from_process in E. by rewrite Hw, Ef in E. }
  destruct (get_kobject_spec m ext hs p i d Hi Hroom Hat) as [(Hv & o & Ho & Hr & Eg & Hi1)|[_ Eg]];
    rewrite Eg in E; injection E as <- <- <-; [right|by left].
  exists i, d. split_and!; try done. eapply (static_ref _ _ _ o); [done|apply lookup_insert_eq|].
  intros x Hx. by apply lookup_insert_ne.
Qed.

Lemma grant_step limit m ext hs cur ph handle rt r hs' :
  inv m ext hs -> slack 2 ext hs -> m + 1 < 2 ^ 32 -> is_handle ph -> is_handle handle ->
  sys_grant hs cur ph handle rt = Ret (r, hs') -> step_ok limit m ext hs hs'.
Proof.
  intros Hi Hroom Hm Hp Hh E. unfold sys_grant in E.
  destruct (WRONG_HANDLE ph || WRONG_HANDLE handle); [simplify_eq; by apply step_ok_same; try apply static_eq|].
  destruct (get_kobject_from_process hs cur ph) as [[[r0 out] hs1]| | |] eqn:Eg; try done. cbn [obind] in E.
  destruct (get_kobject_inv m ext hs cur ph r0 out hs1 Hi (slack_roomy _ _ _ Hroom ltac:(lia)) Hp Eg)
    as [[-> ->]|(i & d & -> & Hat & Hv & -> & -> & Hi1 & Ep1 & _ & Hs1)].
  { destruct (negb _); [simplify_eq; by apply step_ok_same; try apply static_eq|done]. }
  cbn [Z.eqb negb] in E. set (k := hd_kobj d) in *.
  destruct (get_obj hs1 k) as [o| | |]; try done. cbn [obind] in E.
  assert (H01 : evolves hs hs1).
  { apply evolves_fewer; [done|]. intros q j x _. by rewrite (handle_at_procs _ _ _ _ _ Ep1). }
  destruct (if negb (ko_type o =? KOBJ_TYPE_PROCESS) then Ret (- EBADF, hs1)
            else send_handle hs1 cur (ko_data o) handle rt) as [[r2 hs2]| | |] eqn:Es; try done. cbn [obind] in E.
  assert (H2 : inv (m + 1) (bump ext k 1) hs2 /\ length (procs hs2) = length (procs hs1) /\ evolves hs1 hs2).
  { destruct (negb _); [simplify_eq; split_and!; [eapply inv_mono; [done|lia]|done|apply evolves_refl]|].
    eapply transfer_evolves; try done. intros x. specialize (Hroom x). rewrite Ep1. unfold bump. case_match; lia. }
  destruct H2 as (Hi2 & Hl2 & H12). pose proof (i_ext _ _ _ Hi k).
  destruct (kobject_put_spec (m + 1) _ hs2 k Hi2 Hv) as (hs3 & E3 & Hi3 & Ep3 & _ & _);
    [unfold bump; rewrite Z.eqb_refl; lia|].
  unfold put_kobject in E. rewrite E3 in E. cbn [obind] in E. injection E as _ <-.
  exists ext. split_and!.
  - eapply inv_ext_eq; [exact Hi3|]. intros x. symmetry. apply (bump_back ext k 1).
  - intros; lia.
  - by rewrite Ep3, Hl2, Ep1.
  - eapply evolves_trans; [exact H01|]. eapply evolves_trans; [exact H12|].
    apply evolves_fewer; [by eapply put_static|]. intros q j x _. by rewrite (handle_at_procs _ _ _ _ _ Ep3).
Qed.


Lemma close_step limit m ext hs cur handle op_ret r hs' :
  inv m ext hs -> roomy ext hs -> m + 1 < 2 ^ 32 -> is_handle handle ->
  sys_kobject_close hs cur handle op_ret = Ret (r, hs') -> step_ok limit m ext hs hs'.
Proof.
  intros Hi Hroom Hm Hh E. destruct (WRONG_HANDLE handle) eqn:Hw.
  { unfold sys_kobject_close, release_process_handle in E. rewrite Hw in E.
    simplify_eq/=. by apply step_ok_same; try apply static_eq. }
  destruct (find_handle m ext hs cur handle Hi Hh Hw) as [Ef|(i & d & -> & Hat)].
  { unfold sys_kobject_close, release_process_handle in E. by rewrite Hw, Ef in E. }
  destruct (decide (hd_kobj d = 0 \/ hd_kobj d = KOBJ_PLACEHOLDER)) as [Hd|Hd].
  - unfold sys_kobject_close, release_process_handle in E. rewrite Hw in E.
    destruct (read_handle m ext hs cur i d Hi Hat) as [El Eg]. rewrite El in E. cbn [obind] in E. rewrite Eg in E.
    cbn [obind] in E. replace ((hd_kobj d =? 0) || (hd_kobj d =? KOBJ_PLACEHOLDER)) with true in E
      by (symmetry; apply orb_true_iff; rewrite !Z.eqb_eq; tauto).
    simplify_eq/=. by apply step_ok_same; try apply static_eq.
  - assert (Hv : valid_ptr (hd_kobj d)) by (split; tauto).
    destruct (close_spec m ext hs cur i d op_ret Hi Hroom Hm Hat Hv) as (r1 & hs1 & E1 & Hi1 & Hcl & Hl & Hs & _).
    rewrite E1 in E. injection E as <- <-. exists ext. split_and!; [done|intros; lia|by rewrite Hl|].
    apply evolves_fewer; [done|]. intros q j x Hx Hx'. apply Hcl in Hx'; [tauto|]. by apply (known_ne m ext hs).
Qed.

Lemma op_step limit m ext hs cur handle need op r hs' :
  inv m ext hs -> roomy ext hs -> is_handle handle ->
  (forall hs0 k rt, quiet hs0 (op hs0 k rt).2) ->
  with_kobject hs cur handle need op = Ret (r, hs') -> step_ok limit m ext hs hs'.
Proof.
  intros Hi Hroom Hh Hq E. pose proof E as E0. unfold with_kobject in E0.
  destruct (get_kobject_from_process hs cur handle) as [[[r0 out] hs1]| | |] eqn:Eg; try done. cbn [obind] in E0.
  destruct (get_kobject_inv m ext hs cur handle r0 out hs1 Hi Hroom Hh Eg)
    as [[-> ->]|(i & d & -> & Hat & Hv & _)].
  { destruct (negb _); [simplify_eq; by apply step_ok_same; try apply static_eq|done]. }
  destruct (with_kobject_spec m ext hs cur i d need op Hi Hroom Hat Hv ltac:(auto))
    as (r1 & hs2 & _ & E1 & Hi1 & Ep & Hs & _). rewrite E1 in E. injection E as <- <-. by apply step_ok_same.
Qed.

Lemma reply_step limit m ext hs cur handle op_ret r hs' :
  inv m ext hs -> roomy ext hs -> is_handle handle ->
  sys_kobject_reply hs cur handle op_ret = Ret (r, hs') -> step_ok limit m ext hs hs'.
Proof.
  intros Hi Hroom Hh E. unfold sys_kobject_reply in E.
  destruct (get_kobject_from_process hs cur handle) as [[[r0 out] hs1]| | |] eqn:Eg; try done. cbn [obind] in E.
  destruct (get_kobject_inv m ext hs cur handle r0 out hs1 Hi Hroom Hh Eg)
    as [[-> ->]|(i & d & -> & Hat & Hv & -> & -> & Hi1 & Ep1 & Ec1 & Hs1)].
  { destruct (negb _); [simplify_eq; by apply step_ok_same; try apply static_eq|done]. }
  cbn [Z.eqb negb] in E. set (k := hd_kobj d) in *. destruct (Z.land (hd_right d) KOBJ_RIGHT_READ =? 0).
  - injection E as _ <-. exists (bump ext k 1). split_and!; [eapply inv_mono; [done|lia]| |by rewrite Ep1|].
    + intros x. unfold bump. case_match; lia.
    + apply evolves_fewer; [done|]. intros q j x _. by rewrite (handle_at_procs _ _ _ _ _ Ep1).
  - set (res := kobject_reply hs1 k op_ret) in *.
    assert (Hq : quiet hs1 res.2).
    { unfold res. destruct op_ret; [apply quiet_log; [|intros []]|]; apply quiet_refl. }
    rewrite (surjective_pairing res) in E. pose proof (inv_quiet _ _ _ _ Hi1 Hq) as Hi2.
    destruct Hq as (Ep2 & Ek2 & _). pose proof (handle_counts hs cur i d Hat) as Hc.
    destruct (put_back m ext hs res.2 k Hi2 Hi Hv) as (hs3 & E3 & Hi3 & Ep3 & _ & Hs3).
    { unfold handles_to. rewrite Ep2, Ep1. exact Hc. }
    rewrite E3 in E. cbn [obind] in E. injection E as _ <-. apply step_ok_same; [done|by rewrite Ep3, Ep2|].
    eapply static_trans; [done|]. eapply static_trans; [|done]. by apply static_eq.
Qed.

(** A new object has no handle and no reference yet. *)
Lemma inv_create m ext hs hs' k o :
  inv m ext hs -> valid_ptr k -> kobjs hs !! k = None -> ko_ref o = 0 ->
  procs hs' = procs hs -> calls hs' = calls hs -> kobjs hs' = <[k := o]> (kobjs hs) ->
  inv m ext hs' /\ handles_to hs k = 0 /\ ext k = 0.
Proof.
  intros Hi Hv Hk Hr Ep Ec Ek. pose proof (i_ext _ _ _ Hi k). pose proof (handles_to_bound m ext hs k Hi).
  assert (Hz : handles_to hs k + ext k = 0).
  { destruct (Z_lt_dec 0 (handles_to hs k + ext k)) as [Hl|]; [|lia].
    destruct (i_known _ _ _ Hi k Hv Hl). congruence. }
  split; [|lia]. destruct Hi as [I1 I2 I3 I4 I5 I6 I7]. destruct Hv as [Hv0 Hvp].
  assert (Eh : forall x, handles_to hs' x = handles_to hs x) by (intros x; unfold handles_to; by rewrite Ep).
  split; rewrite ?Ep, ?Ek, ?Ec; try done.
  - by rewrite !lookup_insert_ne.
  - intros x ox. rewrite lookup_insert_Some, Eh. intros [[<- <-]|[Hne Hx]]; [right; lia|by apply I4].
  - intros x Hx Hpos. rewrite Eh in Hpos. rewrite lookup_insert_is_Some'. right. by apply I5.
  - intros x. rewrite I6. destruct (decide (x = k)) as [->|Hne].
    + rewrite lookup_insert_eq, Hk. split; intros (y & Hy & ?); [done|]. simplify_eq. lia.
    + by rewrite lookup_insert_ne.
Qed.


(** A new process starts with an empty table, and its object without references. *)
Lemma inv_process m ext hs hs' k t :
  inv m ext hs -> NR_DESC_PER_PAGE <= m -> valid_ptr k -> kobjs hs !! k = None ->
  (forall x, ext x + NR_DESC_PER_PAGE * Z.of_nat (S (length (procs hs))) < 2 ^ 31 - 1) ->
  t = mk_table (replicate (Z.to_nat NR_DESC_PER_PAGE) empty_desc) 0 NR_DESC_PER_PAGE ->
  procs hs' = procs hs ++ [mk_process [t]] -> calls hs' = calls hs ->
  kobjs hs' = <[k := mk_kobject 0 0 0 0 0]> (kobjs hs) ->
  inv m ext hs' /\ shareable ext hs' k /\ fewer hs hs'.
Proof.
  intros Hi Hm Hv Hk Hroom -> Ep Ec Ek. set (pr := mk_process _) in Ep.
  assert (Eu : forall x, x <> 0 -> uses x (descs_of pr) = 0%nat).
  { intros x Hx. unfold pr, descs_of. cbn [handle_desc_table map concat ht_descs]. rewrite app_nil_r. by apply uses_replicate. }
  assert (Eh : forall x, x <> 0 -> handles_to hs' x = handles_to hs x).
  { intros x Hx. unfold handles_to. rewrite Ep, sum_list_with_app. cbn [sum_list_with]. rewrite (Eu x Hx). f_equal. lia. }
  assert (El : length (procs hs') = S (length (procs hs))) by (rewrite Ep, length_app; cbn; lia).
  set (hs1 := mk_hstate (<[k := mk_kobject 0 0 0 0 0]> (kobjs hs)) (procs hs) (calls hs) (h_pages hs)).
  destruct (inv_create m ext hs hs1 k _ Hi Hv Hk (eq_refl : ko_ref (mk_kobject 0 0 0 0 0) = 0) eq_refl eq_refl eq_refl)
    as ([I1 I2 I3 I4 I5 I6 I7] & _ & He). cbn [hs1 kobjs procs calls] in *.
  split_and!.
  - split; rewrite ?Ek, ?Ec; try done.
    + rewrite Ep. apply Forall_app. split; [done|]. repeat constructor. eexists. split; [done|].
      cbn [ht_descs ht_index ht_left]. change NR_DESC_PER_PAGE with 255 in *. split_and!; [done|done|lia|lia].
    + intros x. rewrite El. split; [apply I3|apply Hroom].
    + intros x ox Hx. rewrite Eh; [by apply I4|]. intros ->. destruct I2. congruence.
    + intros x Hx Hpos. apply I5; [done|]. destruct Hx. by rewrite Eh in Hpos.
  - exists (mk_kobject 0 0 0 0 0). rewrite Ek, lookup_insert_eq, El. specialize (Hroom 0). split_and!; try done.
    pose proof (i_ext _ _ _ Hi 0). rewrite He. change NR_DESC_PER_PAGE with 255 in *. lia.
  - split.
    + intros x ox Hx. exists ox. rewrite Ek, lookup_insert_ne by congruence. done.
    + intros q j x Hx _ (qr & Hq & Hj). rewrite Ep in Hq. apply lookup_app_Some in Hq as [Hq|[_ Hq]]; [by exists qr|].
      apply list_lookup_singleton_Some in Hq as [_ <-]. exfalso. apply (known_ne m ext hs _ Hi Hx).
      unfold pr, descs_of in Hj. cbn [handle_desc_table map concat ht_descs] in Hj. rewrite app_nil_r in Hj.
      by apply lookup_replicate in Hj as [-> _].
Qed.

(** A handle to a new object, or to the console, adds none to the others. *)
Lemma alloc_fewer m ext hs0 hs p k rt r hs' :
  inv m ext hs -> (p < length (procs hs))%nat -> shareable ext hs k ->
  fewer hs0 hs -> kobjs hs0 !! k = None \/ k = stdio_kobj ->
  __alloc_handle hs p k rt = Ret (r, hs') ->
  inv m ext hs' /\ fewer hs0 hs' /\ length (procs hs') = length (procs hs) /\ calls hs' = calls hs /\
  (forall x, shareable ext hs x -> shareable ext hs' x).
Proof.
  intros Hi Hp Hk [Hst Hf] Hnew E. destruct (id Hk) as (o & Ho & Hr & Hroom).
  destruct (alloc_handle_spec m ext hs p k rt Hi Hp (or_intror Hk))
    as [[_ Ea]|(h & d & hs2 & Hat & Hd & _ & Ea & Hi2 & Ep2 & Ec & Ex & Eo & _)]; rewrite Ea in E; [done|].
  injection E as _ <-. specialize (Eo o Ho).
  assert (El : length (procs hs2) = length (procs hs)) by by rewrite Ep2, procs_length.
  split_and!; try done.
  - split; [eapply static_trans; [exact Hst|by eapply static_ref]|].
    intros q j x Hx Hne Hxat. rewrite (handle_at_procs _ _ _ _ _ Ep2) in Hxat.
    apply (w_at _ _ _ _ _ _ _ (set_desc_wrote m ext hs p h d (mk_desc k rt) Hi Hat)) in Hxat
      as [(_ & _ & ->)|[_ Hxat]]; [|by apply Hf].
    cbn in Hx, Hne. destruct Hnew as [Hn|Hn]; [|congruence]. rewrite Hn in Hx. by destruct Hx.
  - intros x (ox & Hox & Hrx & Hrm). rewrite <- El in Hrm. destruct (decide (x = k)) as [->|Hne].
    + rewrite Ho in Hox. injection Hox as <-. eexists. split; [exact Eo|]. cbn. split; [lia|done].
    + exists ox. by rewrite Ex.
Qed.

(** The object the kernel itself holds a reference to can be shared. *)
Lemma held_shareable m ext hs k :
  inv m ext hs -> valid_ptr k -> 0 < ext k ->
  ext k + 1 + NR_DESC_PER_PAGE * Z.of_nat (length (procs hs)) < 2 ^ 31 - 1 -> shareable ext hs k.
Proof.
  intros Hi Hv Hpos Hroom. pose proof (handles_to_bound m ext hs k Hi).
  destruct (i_known _ _ _ Hi k Hv ltac:(lia)) as [o Ho]. exists o. split_and!; try done.
  destruct (i_refs _ _ _ Hi k o Ho) as [(_ & _ & ?)|?]; lia.
Qed.

(** The new process with the object [k] while it gets its first handles. *)
Definition starting (m : Z) (ext : Z -> Z) (hs : hstate A) (k : Z) (hs' : hstate A) : Prop :=
  inv m ext hs' /\ fewer hs hs' /\ length (procs hs') = S (length (procs hs)) /\ calls hs' = calls hs /\
  shareable ext hs' k /\ shareable ext hs' stdio_kobj.

Lemma starting_alloc m ext hs k hs1 x rt r hs2 :
  kobjs hs !! k = None -> starting m ext hs k hs1 -> x = k \/ x = stdio_kobj ->
  __alloc_handle hs1 (length (procs hs)) x rt = Ret (r, hs2) -> starting m ext hs k hs2.
Proof.
  intros Hk (Hi & Hf & El & Ec & Hs & Hc) Hx Ea.
  assert (Hsx : shareable ext hs1 x) by (destruct Hx as [Hx|Hx]; by rewrite Hx).
  assert (Hnx : kobjs hs !! x = None \/ x = stdio_kobj) by (destruct Hx as [Hx|Hx]; rewrite Hx; tauto).
  destruct (alloc_fewer m ext hs hs1 (length (procs hs)) x rt r hs2 Hi ltac:(lia) Hsx Hf Hnx Ea)
    as (? & ? & El2 & Ec2 & Hsh).
  split_and!; try done; try congruence; by apply Hsh.
Qed.

(** The four handles every process starts with. *)
Lemma starting_handles m ext hs k hs1 r hs' :
  kobjs hs !! k = None -> starting m ext hs k hs1 ->
  (let* (handle, hs2) := __alloc_handle hs1 (length (procs hs)) k (Z.lor KOBJ_RIGHT_WRITE KOBJ_RIGHT_CTL) in
   check handle =? 0 in
   let* (handle, hs2) := __alloc_handle hs2 (length (procs hs)) stdio_kobj KOBJ_RIGHT_READ in
   check handle =? 1 in
   let* (handle, hs2) := __alloc_handle hs2 (length (procs hs)) stdio_kobj KOBJ_RIGHT_WRITE in
   check handle =? 2 in
   let* (handle, hs2) := __alloc_handle hs2 (length (procs hs)) stdio_kobj KOBJ_RIGHT_WRITE in
   check handle =? 3 in
   Ret (0, hs2)) = Ret (r, hs') ->
  r = 0 /\ starting m ext hs k hs'.
Proof.
  intros Hk H1 E. pose proof (starting_alloc m ext hs k) as Hstep.
  destruct (__alloc_handle hs1 _ _ _) as [[r1 hs2]| | |] eqn:E1; try done. cbn [obind] in E.
  apply (Hstep _ _ _ _ _ Hk H1 (or_introl eq_refl)) in E1. destruct (r1 =? 0); [|done]. cbn [assert obind] in E.
  destruct (__alloc_handle hs2 _ _ _) as [[r2 hs3]| | |] eqn:E2; try done. cbn [obind] in E.
  apply (Hstep _ _ _ _ _ Hk E1 (or_intror eq_refl)) in E2. destruct (r2 =? 1); [|done]. cbn [assert obind] in E.
  destruct (__alloc_handle hs3 _ _ _) as [[r3 hs4]| | |] eqn:E3; try done. cbn [obind] in E.
  apply (Hstep _ _ _ _ _ Hk E2 (or_intror eq_refl)) in E3. destruct (r3 =? 2); [|done]. cbn [assert obind] in E.
  destruct (__alloc_handle hs4 _ _ _) as [[r4 hs5]| | |] eqn:E4; try done. cbn [obind] in E.
  apply (Hstep _ _ _ _ _ Hk E3 (or_intror eq_refl)) in E4. destruct (r4 =? 3); [|done]. cbn [assert obind] in E.
  by injection E as <- <-.
Qed.

(** A new process has its table and its four handles, or nothing changed. *)
Lemma create_process_spec limit made m ext hs data out hs' :
  inv m ext hs -> NR_DESC_PER_PAGE <= m -> headroom limit 2 ext hs -> makes_process limit made ->
  valid_ptr stdio_kobj -> 0 < ext stdio_kobj ->
  create_process made stdio_kobj hs data = Ret (out, hs') ->
  match out with
  | None => procs hs' = procs hs /\ kobjs hs' = kobjs hs /\ calls hs' = calls hs
  | Some (p, k) => starting m ext hs k hs' /\ kobjs hs !! k = None /\ (length (procs hs) < limit)%nat
  end.
Proof.
  intros Hi Hm Hhead Hmade Hv Hpos E. unfold create_process in E.
  destruct (made hs data) as [k|] eqn:Ek; [|by injection E as <- <-].
  destruct (Hmade hs data k Ek) as (Hvk & Hk & Hlim).
  unfold init_proc_handles, new_handle_desc_table in E.
  change (PROC_MAX_HANDLE <=? 0) with false in E. cbv zeta iota in E. cbn [h_pages set_procs set_kobjs] in E.
  destruct (get_free_page (h_pages hs) GFP_KERNEL) as [[v a]| | |]; try done. cbn [obind] in E.
  destruct (v =? 0).
  { cbn in E. injection E as <- <-. cbn. split_and!; [|by apply delete_insert_id|done].
    by rewrite take_app_length. }
  set (t := mk_table _ 0 _) in E. cbn [obind kobjs procs calls set_procs] in E.
  match type of E with context[__alloc_handle ?x] => set (hs1 := x) in E end.
  assert (Ep : procs hs1 = procs hs ++ [mk_process [t]]).
  { unfold hs1. cbn [procs set_procs set_kobjs]. rewrite alter_app_r_alt by lia. by rewrite Nat.sub_diag. }
  assert (Hr : forall x, ext x + 2 + NR_DESC_PER_PAGE * Z.of_nat (S (length (procs hs))) < 2 ^ 31 - 1).
  { intros x. specialize (Hhead x). change NR_DESC_PER_PAGE with 255 in *. lia. }
  destruct (inv_process m ext hs hs1 k t Hi Hm Hvk Hk ltac:(intros x; specialize (Hr x); lia) eq_refl Ep eq_refl eq_refl)
    as (Hi1 & Hs1 & Hf1).
  assert (El1 : length (procs hs1) = S (length (procs hs))) by (rewrite Ep, length_app; cbn; lia).
  assert (Hc1 : shareable ext hs1 stdio_kobj).
  { apply (held_shareable m); try done. specialize (Hr stdio_kobj). rewrite El1. lia. }
  apply obind_Ret_inv in E as ([r hs2] & Eh & E).
  destruct (starting_handles m ext hs k hs1 r hs2 Hk) as (-> & Hst); [by split_and!|exact Eh|].
  cbn in E. by injection E as <- <-.
Qed.

(** Setting type, mask and data of an object changes no count. *)
Lemma kobject_init_spec m ext hs0 hs k type mask data hs' :
  inv m ext hs -> fewer hs0 hs -> kobjs hs0 !! k = None -> shareable ext hs k ->
  kobject_init hs k type mask data = Ret hs' ->
  inv m ext hs' /\ fewer hs0 hs' /\ shareable ext hs' k /\ procs hs' = procs hs /\ calls hs' = calls hs.
Proof.
  intros Hi [Hst Hf] Hn (o & Ho & Hr & Hroom) E. unfold kobject_init, get_obj in E.
  destruct (k =? 0); [done|]. rewrite Ho in E. cbn in E. injection E as <-.
  split_and!; try done.
  - destruct Hi as [I1 [I20 I21] I3 I4 I5 I6 I7]. split; cbn [set_kobjs procs kobjs calls]; try done.
    + rewrite !lookup_insert_ne by congruence. done.
    + intros x ox Hx. apply lookup_insert_Some in Hx as [[<- <-]|[_ Hx]]; [by apply (I4 k o)|by apply I4].
    + intros x Hv Hpos. rewrite lookup_insert_is_Some'. right. by apply I5.
    + intros x. rewrite I6. destruct (decide (x = k)) as [->|Hne]; [|by rewrite lookup_insert_ne].
      rewrite lookup_insert_eq, Ho. split; intros (y & [= <-] & Hy); by eexists.
  - split; [|done]. intros x ox Hx. destruct (Hst x ox Hx) as (o2 & Ho2 & E2). exists o2.
    cbn. rewrite lookup_insert_ne by congruence. done.
  - eexists. cbn. rewrite lookup_insert_eq. done.
Qed.

(** What any registered callback leaves. *)
Lemma callback_spec limit cbs m ext hs cur t cb data ret k rt hs' :
  callbacks_ok limit cbs -> cbs t = Some cb ->
  inv m ext hs -> NR_DESC_PER_PAGE <= m -> headroom limit 2 ext hs -> valid_ptr stdio_kobj -> 0 < ext stdio_kobj ->
  cb hs cur data = Ret (ret, (k, rt), hs') ->
  inv m ext hs' /\ fewer hs hs' /\ (limit `max` length (procs hs') = limit `max` length (procs hs))%nat /\
  (ret = 0 -> kobjs hs !! k = None /\ shareable ext hs' k).
Proof.
  intros Hcbs Ecb Hi Hm Hhead Hv Hpos E.
  assert (Hsame : forall hs', procs hs' = procs hs -> calls hs' = calls hs -> kobjs hs' = kobjs hs ->
    inv m ext hs' /\ fewer hs hs' /\ (limit `max` length (procs hs') = limit `max` length (procs hs))%nat).
  { intros hs1 Ep Ec Ek. split_and!; [eapply inv_quiet; [exact Hi|]| |by rewrite Ep].
    - split_and!; try done. exists []. by rewrite app_nil_r.
    - split; [by apply static_eq|]. intros q j x _ _. by rewrite (handle_at_procs _ _ _ _ _ Ep). }
  destruct (Hcbs t cb Ecb) as [Hcr|(root & copied & made & -> & Hmade)].
  - destruct (Hcr hs cur data ret k rt hs' E) as (Ep & Ec & Hfail & Hok).
    destruct (decide (ret = 0)) as [->|Hne]; [|destruct (Hsame hs' Ep Ec (Hfail Hne)) as (? & ? & ?); by split_and!].
    destruct (Hok eq_refl) as (Hvk & Hk & o & Hr & Ek).
    destruct (inv_create m ext hs hs' k o Hi Hvk Hk Hr Ep Ec Ek) as (Hi1 & _). split_and!; [done| |by rewrite Ep|].
    + split; [intros x ox Hx; exists ox; by rewrite Ek, lookup_insert_ne by congruence|].
      intros q j x _ _. by rewrite (handle_at_procs _ _ _ _ _ Ep).
    + intros _. split; [done|]. exists o. rewrite Ek, lookup_insert_eq, Ep. split_and!; [done|lia|].
      by apply (slack_roomy 2 ext hs); [apply (headroom_slack limit)|].
  - unfold process_create in E.
    assert (Hneg : forall e, 0 < e -> (ret, (k, rt), hs') = (- e, (0, 0), hs) ->
      inv m ext hs' /\ fewer hs hs' /\ (limit `max` length (procs hs') = limit `max` length (procs hs))%nat /\
      (ret = 0 -> kobjs hs !! k = None /\ shareable ext hs' k)).
    { intros e He [= -> -> -> ->]. destruct (Hsame hs eq_refl eq_refl eq_refl) as (? & ? & ?). split_and!; try done. lia. }
    destruct (negb _); [apply (Hneg EPERM); [done|by injection E as -> -> -> ->]|].
    destruct (_ <=? 0); [apply (Hneg EFAULT); [done|by injection E as -> -> -> ->]|].
    destruct (create_process made stdio_kobj hs data) as [[out hs1]| | |] eqn:Ecp; try done. cbn [obind] in E.
    pose proof (create_process_spec limit made m ext hs data out hs1 Hi Hm Hhead Hmade Hv Hpos Ecp) as Hout.
    destruct out as [[p kself]|].
    + destruct Hout as ((Hi1 & Hf1 & El & _ & Hs1 & _) & Hn & Hlim).
      destruct (kobject_init hs1 _ _ _ _) as [hs2| | |] eqn:Ei; try done. cbn [obind] in E. injection E as <- <- <- <-.
      destruct (kobject_init_spec m ext hs hs1 _ _ _ _ _ Hi1 Hf1 Hn Hs1 Ei) as (? & ? & ? & Ep & _).
      split_and!; try done. rewrite Ep, El. lia.
    + destruct Hout as (Ep & Ek & Ec). injection E as <- <- <- <-. destruct (Hsame hs1 Ep Ec Ek) as (? & ? & ?).
      by split_and!.
Qed.

Lemma create_step limit cbs m ext hs cur type data r hs' :
  inv m ext hs -> NR_DESC_PER_PAGE <= m -> headroom limit 2 ext hs -> callbacks_ok limit cbs ->
  valid_ptr stdio_kobj -> 0 < ext stdio_kobj ->
  sys_kobject_create cbs hs cur type data = Ret (r, hs') -> step_ok limit m ext hs hs'.
Proof.
  intros Hi Hm Hhead Hcbs Hv Hpos E. unfold sys_kobject_create, kobject_create in E.
  destruct ((type <=? 0) || (KOBJ_TYPE_MAX <=? type)); [simplify_eq/=; by apply step_ok_same; try apply static_eq|].
  destruct (cbs type) as [cb|] eqn:Ecb; [|simplify_eq/=; by apply step_ok_same; try apply static_eq].
  destruct (cb hs cur data) as [[[ret [k rt]] hs1]| | |] eqn:Eop; try done. cbn [obind] in E.
  destruct (callback_spec limit cbs m ext hs cur type cb data ret k rt hs1 Hcbs Ecb Hi Hm Hhead Hv Hpos Eop)
    as (Hi1 & Hf1 & El1 & Hok).
  destruct (Z.eqb_spec ret 0) as [->|Hne]; cbn [negb] in E.
  2:{ injection E as _ <-. exists ext. split_and!; [eapply inv_mono; [done|lia]|intros; lia|done|by apply fewer_evolves]. }
  destruct (Hok eq_refl) as (Hk & Hs1).
  assert (Hcur : (cur < length (procs hs1))%nat).
  { apply lookup_lt_is_Some_1. destruct (procs hs1 !! cur) eqn:Hp; [by eexists|].
    unfold __alloc_handle, get_proc in E. rewrite Hp in E. destruct (k =? 0); discriminate E. }
  destruct (alloc_fewer m ext hs hs1 cur k rt r hs' Hi1 Hcur Hs1 Hf1 (or_introl Hk) E) as (Hi2 & Hf2 & El2 & _).
  exists ext. split_and!; [eapply inv_mono; [done|lia]|intros; lia|by rewrite El2|by apply fewer_evolves].
Qed.

Lemma kobject_op_quiet k req err op_ret hs0 : quiet hs0 (kobject_op hs0 k req err op_ret).2.
Proof. unfold kobject_op. destruct op_ret; [apply quiet_log; [|intros []]|]; apply quiet_refl. Qed.

Lemma kobject_recv_quiet k op_ret hs0 : quiet hs0 (kobject_recv hs0 k op_ret).2.
Proof.
  unfold kobject_recv. destruct op_ret; [|apply quiet_refl].
  apply quiet_log; [|intros []]. apply quiet_log; [apply quiet_refl|intros []].
Qed.

Lemma kobject_open_quiet k handle rt op_ret hs0 : quiet hs0 (kobject_open hs0 k handle rt op_ret).2.
Proof.
  unfold kobject_open. destruct op_ret as [r|]; [|apply quiet_refl].
  assert (quiet hs0 (log_call hs0 (CallOpen k handle rt))) by (apply quiet_log; [apply quiet_refl|intros []]).
  destruct (negb (r =? 0)); [done|]. apply quiet_log; [done|intros []].
Qed.

Lemma hstep_ok limit cbs m ext hs hs' :
  callbacks_ok limit cbs -> valid_ptr stdio_kobj -> 0 < ext stdio_kobj -> NR_DESC_PER_PAGE <= m ->
  inv m ext hs -> headroom limit 2 ext hs -> m + 1 < 2 ^ 32 -> hstep cbs hs hs' -> step_ok limit m ext hs hs'.
Proof.
  intros Hcbs Hv Hpos Hnr Hi Hh Hm [cur c ret Hc E]. pose proof (headroom_slack _ _ _ _ Hh) as Hs.
  pose proof (slack_roomy _ _ _ Hs ltac:(lia)) as Hroom.
  destruct c; cbn in E, Hc.
  - by eapply create_step.
  - destruct Hc. by apply (grant_step limit m ext hs cur proc_handle handle right ret).
  - destruct (transfer_evolves m ext hs cur pdst handle right ret hs' Hi Hroom Hm Hc E) as (? & El & ?).
    exists ext. split_and!; try done; [intros; lia|by rewrite El].
  - by eapply close_step.
  - eapply op_step; [done|done|exact Hc| |unfold sys_kobject_open in E; exact E]. intros. apply kobject_open_quiet.
  - eapply op_step; [done|done|exact Hc| |unfold sys_kobject_recv in E; exact E]. intros. apply kobject_recv_quiet.
  - eapply op_step; [done|done|exact Hc| |unfold sys_kobject_send in E; exact E]. intros. apply kobject_op_quiet.
  - eapply op_step; [done|done|exact Hc| |unfold sys_kobject_ctl in E; exact E]. intros. apply kobject_op_quiet.
  - eapply op_step; [done|done|exact Hc| |unfold sys_kobject_mmap in E; exact E]. intros. apply kobject_op_quiet.
  - eapply op_step; [done|done|exact Hc| |unfold sys_kobject_munmap in E; exact E]. intros. apply kobject_op_quiet.
  - by eapply reply_step.
Qed.

(** The state of a run: the invariant, the console object, which the kernel holds, and room
    in the counters for [n] more calls. *)
Definition ready (limit n : nat) (m : Z) (ext : Z -> Z) (hs : hstate A) : Prop :=
  inv m ext hs /\ valid_ptr stdio_kobj /\ 0 < ext stdio_kobj /\ NR_DESC_PER_PAGE <= m /\
  headroom limit (Z.of_nat n + 1) ext hs /\ m + Z.of_nat n < 2 ^ 32.

(** The bounds on the counters hold for any run short of 2^31 calls. *)
Lemma hsteps_ok limit cbs c n m ext hs hs' :
  callbacks_ok limit cbs -> ready limit (n + c) m ext hs -> nsteps (hstep cbs) n hs hs' ->
  exists ext', ready limit c (m + Z.of_nat n) ext' hs' /\ evolves hs hs'.
Proof.
  intros Hcbs Hr Hn. revert m ext Hr.
  induction Hn as [hs|n hs hs1 hs' Hstep _ IH]; intros m ext (Hi & Hv & Hpos & Hnr & Hs & Hm).
  - exists ext. rewrite Z.add_0_r. split; [done|apply evolves_refl].
  - assert (H2 : headroom limit 2 ext hs) by (intros k; specialize (Hs k); lia).
    destruct (hstep_ok limit cbs m ext hs hs1 Hcbs Hv Hpos Hnr Hi H2 ltac:(lia) Hstep) as (ext1 & Hi1 & Hext & Hl & He).
    destruct (IH (m + 1) ext1) as (ext2 & Hr2 & He2).
    + pose proof (Hext stdio_kobj). split_and!; [done|done|lia|lia| |lia].
      intros k. specialize (Hs k). specialize (Hext k). rewrite Hl. lia.
    + exists ext2. replace (m + Z.of_nat (S n)) with (m + 1 + Z.of_nat n) by lia.
      split; [done|by eapply evolves_trans].
Qed.

(** ** End of a process *)

(** Closing an object does not look at the handle tables. *)
Lemma close_any_procs hs k right p op_ret l r hs' :
  kobject_close (set_procs hs l) k right p op_ret = Ret (r, hs') ->
  exists hs1, kobject_close hs k right p op_ret = Ret (r, hs1) /\ set_procs hs1 l = hs' /\ procs hs1 = procs hs.
Proof.
  unfold kobject_close, kobject_put, get_obj.
  destruct (right =? KOBJ_RIGHT_NONE), op_ret as [ro|], (negb (Z.land right KOBJ_RIGHT_WRITE =? 0)),
    (negb (Z.land right KOBJ_RIGHT_READ =? 0)); cbn [set_procs log_call kobjs];
    (destruct (k =? 0); [intros [= <- <-]; by eexists|]);
    (destruct (kobjs hs !! k) as [o|]; [|done]); cbn [obind];
    (destruct (0 <? ko_ref o); [|done]); cbn [assert obind];
    intros [= <- <-]; (eexists; split; [done|]); by destruct (ko_ref o =? 1).
Qed.


(** Closing the handles in [l], whose references count as the kernel's in [L]. *)
Lemma release_table_spec m p op_ret L l hs ext :
  inv m (fun k => ext k + Z.of_nat (uses k l)) (set_procs hs L) -> (forall k, 0 <= ext k) ->
  exists hs', release_handle_table hs p op_ret l = Ret hs' /\ inv m ext (set_procs hs' L) /\
    procs hs' = procs hs.
Proof.
  revert hs. induction l as [|d l IH]; intros hs Hi He.
  { exists hs. split_and!; try done. eapply inv_ext_eq; [exact Hi|]. intros k. cbn. lia. }
  assert (Hle : forall k, 0 <= ext k + Z.of_nat (uses k l) <= ext k + Z.of_nat (uses k (d :: l)))
    by (intros k; rewrite uses_cons; specialize (He k); lia).
  assert (Hskip : ~ valid_ptr (hd_kobj d) -> inv m (fun k => ext k + Z.of_nat (uses k l)) (set_procs hs L)).
  { intros Hd. eapply (inv_total m m _ _ _ _ Hi); [apply Hi|done|done|done| |].
    - intros k. specialize (Hle k). pose proof (i_ext _ _ _ Hi k) as [_ Hb]. cbn beta in Hb |- *. lia.
    - intros k Hk. rewrite uses_cons, decide_False by congruence. cbn. lia. }
  cbn [release_handle_table].
  destruct (Z.eqb_spec (hd_kobj d) 0) as [H0|H0]; [|destruct (Z.eqb_spec (hd_kobj d) KOBJ_PLACEHOLDER) as [H1|H1]].
  3:{ set (e := fun k => ext k + Z.of_nat (uses k (d :: l))) in Hi.
    destruct (kobject_close_spec m e _ (hd_kobj d) (hd_right d) p (op_ret (hd_kobj d) (hd_right d)) Hi ltac:(done))
      as (r & hs1 & E1 & Hi1 & Ep1 & _).
    { unfold e. rewrite uses_cons, decide_True by done. specialize (He (hd_kobj d)). lia. }
    destruct (close_any_procs _ _ _ _ _ _ _ _ E1) as (hs2 & E2 & <- & Ep2).
    cbn [negb andb]. rewrite E2. cbn [obind].
    destruct (IH hs2) as (hs' & E & Hi' & Ep'); [|done|exists hs'; split_and!; [done|done|congruence]].
    eapply inv_ext_eq; [exact Hi1|]. intros k. unfold bump, e. rewrite uses_cons.
    destruct (Z.eqb_spec k (hd_kobj d)) as [->|]; [rewrite decide_True by done; lia|rewrite decide_False by done; lia]. }
  all: cbn [negb andb obind]; apply IH; [apply Hskip; intros []; done|done].
Qed.

(** Process [p] with its handle table emptied. *)
Definition no_handles (hs : hstate A) (p : nat) : list process :=
  alter (fun pr => mk_process (map (fun t => mk_table (replicate (length (ht_descs t)) empty_desc) (ht_index t) (ht_left t))
                                   (handle_desc_table pr))) p (procs hs).

Lemma release_proc_spec m ext hs p op_ret :
  inv m ext hs -> slack NR_DESC_PER_PAGE ext hs -> (p < length (procs hs))%nat ->
  exists hs', release_proc_kobjects hs p op_ret = Ret hs' /\ inv m ext (set_procs hs' (no_handles hs p)) /\
    procs hs' = procs hs.
Proof.
  intros Hi Hs Hp. destruct (lookup_lt_is_Some_2 _ _ Hp) as [pr Hpr].
  pose proof (Forall_lookup_1 _ _ _ _ (i_procs _ _ _ Hi) Hpr) as Hok.
  destruct (proc_ok_descs m pr Hok) as (t & Et & Ed & Hl & Hidx & Hleft).
  unfold release_proc_kobjects, get_proc. rewrite Hpr. cbn [obind]. fold (descs_of pr).
  set (pr' := mk_process [mk_table (replicate (length (ht_descs t)) empty_desc) (ht_index t) (ht_left t)]).
  assert (EL : no_handles hs p = <[p := pr']> (procs hs)).
  { unfold no_handles. rewrite (alter_insert _ _ _ _ Hpr). by rewrite Et. }
  rewrite EL. apply (release_table_spec m p op_ret); [|intros k; apply Hi].
  assert (Hub : forall k, Z.of_nat (uses k (descs_of pr)) <= NR_DESC_PER_PAGE).
  { intros k. pose proof (uses_bound k (descs_of pr)). rewrite Ed in *. lia. }
  eapply (inv_total m m ext _ hs); [done| |by apply length_insert|done|done| |].
  - apply Forall_insert; [apply Hi|]. exists (mk_table (replicate (length (ht_descs t)) empty_desc) (ht_index t) (ht_left t)).
    cbn. rewrite length_replicate. done.
  - intros k. specialize (Hs k). pose proof (i_ext _ _ _ Hi k). specialize (Hub k). lia.
  - intros k [Hk0 _]. unfold handles_to. cbn [set_procs procs].
    pose proof (sum_insert (fun pr => uses k (descs_of pr)) (procs hs) p pr pr' Hpr) as Hsum. cbn beta in Hsum.
    assert (uses k (descs_of pr') = 0%nat) as E0.
    { unfold pr', descs_of. cbn [handle_desc_table map concat ht_descs]. rewrite app_nil_r. by apply uses_replicate. }
    lia.
Qed.


(** ** Properties *)

(** Sending handle [i] of process [a] to process [b] has four outcomes.  Without room
    in the table of [b] the kernel panics.  An entry without an object may fault.  When the
    object is not shareable, or the sender lacks a right it wants to pass on, the call
    returns [-EPERM] and every handle and object is as before.  Otherwise [b] gets a handle
    in a free entry with exactly the rights asked for, the sender keeps the rights it did not
    send and those that may be shared, and the object has one reference more. *)
Theorem send_handle_transfers m ext hs a b i d right_send :
  inv m ext hs -> roomy ext hs -> m + 1 < 2 ^ 32 -> handle_at hs a i d -> (b < length (procs hs))%nat ->
  send_result m ext hs a b i d right_send (send_handle hs a b (Z.of_nat i) right_send).
Proof. apply send_handle_cases. Qed.

(** C6: No run of system calls creates a right to an object that exists at the start, apart
    from the console.  Whatever processes create, grant, transfer, close and use, new
    processes included, a right that some handle carries at the end was carried by a handle
    to that object at the start; and a right that is not in the sharing mask of the object
    and was carried by one handle only is carried by at most one at the end.  Every new
    process gets handles to read and write the console.  The counters have room for the
    run, and no address of an object is used twice. *)
Theorem rights_confined limit cbs n m ext hs hs' k b o :
  callbacks_ok limit cbs -> ready limit n m ext hs -> nsteps (hstep cbs) n hs hs' ->
  kobjs hs !! k = Some o -> k <> stdio_kobj ->
  (forall q j, holds hs' k b q j -> exists q0 j0, holds hs k b q0 j0) /\
  (Z.testbit (ko_right_mask o) b = false -> sole hs k b -> sole hs' k b).
Proof.
  intros Hcbs Hr Hn Ho Hk. rewrite <- (Nat.add_0_r n) in Hr.
  destruct (hsteps_ok limit cbs 0 n m ext hs hs' Hcbs Hr Hn) as (_ & _ & He).
  split; [|by eapply e_sole]. intros q j. eapply e_derived; [done|by eexists|done].
Qed.


(** Closing a handle to an object returns, removes that handle and no other, and calls
    the object's release exactly when no handle and no reference of the kernel is left. *)
Theorem close_releases_last m ext hs p i d op_ret :
  inv m ext hs -> roomy ext hs -> m + 1 < 2 ^ 32 -> handle_at hs p i d -> valid_ptr (hd_kobj d) ->
  exists r hs', sys_kobject_close hs p (Z.of_nat i) op_ret = Ret (r, hs') /\ inv (m + 1) ext hs' /\
    closed hs hs' p i /\
    (CallRelease (hd_kobj d) ∈ calls hs' <-> handles_to hs (hd_kobj d) + ext (hd_kobj d) = 1) /\
    (forall x, x <> hd_kobj d -> CallRelease x ∈ calls hs' <-> CallRelease x ∈ calls hs).
Proof.
  intros Hi Hr Hm Hat Hv. destruct (close_spec m ext hs p i d op_ret Hi Hr Hm Hat Hv) as (r & hs' & ? & ? & ? & _ & _ & ?).
  by exists r, hs'.
Qed.

(** The handle and the right a system call needs. *)
Definition right_needed (c : syscall) : option (Z * Z) :=
  match c with
  | Recv handle _ | Reply handle _ => Some (handle, KOBJ_RIGHT_READ)
  | Send handle _ => Some (handle, KOBJ_RIGHT_WRITE)
  | Ctl handle _ => Some (handle, KOBJ_RIGHT_CTL)
  | Mmap handle _ | Munmap handle _ => Some (handle, KOBJ_RIGHT_MMAP)
  | _ => None
  end.

(** C37: A system call through a handle that lacks the right it needs returns [-EPERM]; it
    never reaches the object, and all handles are as before. *)
Theorem syscall_without_right_denied cbs m ext hs p i d c need :
  inv m ext hs -> roomy ext hs -> handle_at hs p i d -> valid_ptr (hd_kobj d) ->
  right_needed c = Some (Z.of_nat i, need) -> Z.land (hd_right d) need = 0 ->
  exists hs', do_syscall cbs hs p c = Ret (- EPERM, hs') /\ calls hs' = calls hs /\ procs hs' = procs hs.
Proof.
  intros Hi Hroom Hat Hv Hc Hr.
  assert (Hw : forall op, need <> 0 -> (forall hs0, quiet hs0 (op hs0 (hd_kobj d) (hd_right d)).2) ->
    exists hs', with_kobject hs p (Z.of_nat i) need op = Ret (- EPERM, hs') /\ calls hs' = calls hs /\ procs hs' = procs hs).
  { intros op Hn Hq. destruct (with_kobject_spec m ext hs p i d need op Hi Hroom Hat Hv Hq)
      as (r & hs' & hs1 & E & _ & Ep & _ & _ & Hif).
    destruct (Z.eqb_spec need 0); [done|]. rewrite Hr in Hif. destruct Hif as [-> Ec]. by exists hs'. }
  destruct c; try done; cbn in Hc; injection Hc as -> <-; cbn [do_syscall].
  1: apply Hw; [done|]; intros; apply kobject_recv_quiet.
  1-4: apply Hw; [done|]; intros; apply kobject_op_quiet.
  unfold sys_kobject_reply.
  destruct (get_kobject_spec m ext hs p i d Hi Hroom Hat) as [(_ & o & _ & _ & E & _)|[? _]]; [|done].
  rewrite E. cbn [obind Z.eqb negb]. rewrite Hr. by eexists.
Qed.

(** When a process ends, [release_proc_kobjects] closes all its handles and returns, and
    without that process's table every object's count is again the number of its handles
    plus the references of the kernel, or -1 if the object was released. *)
Theorem process_exit_balances m ext hs p op_ret :
  inv m ext hs -> slack NR_DESC_PER_PAGE ext hs -> (p < length (procs hs))%nat ->
  exists hs', release_proc_kobjects hs p op_ret = Ret hs' /\ inv m ext (set_procs hs' (no_handles hs p)).
Proof.
  intros Hi Hs Hp. destruct (release_proc_spec m ext hs p op_ret Hi Hs Hp) as (hs' & E & Hi' & _). by exists hs'.
Qed.

End handles.

(** ** Examples *)

(** The root service with an empty table and the console at [0x50], which the kernel holds;
    type 1 makes a process whose object is at the address given, type 2 another object. *)
Definition fresh_process : process :=
  mk_process [mk_table (replicate (Z.to_nat NR_DESC_PER_PAGE) empty_desc) 0 NR_DESC_PER_PAGE].

Definition demo_boot : hstate (list mem_section) :=
  mk_hstate {[0x50 := mk_kobject 12 0 3 1 0]} [fresh_process] [] [small_section].

Definition demo_cb : @create_cb (list mem_section) := fun hs _ data =>
  if (data <=? 0) || bool_decide (is_Some (kobjs hs !! data)) then Ret (- ENOMEM, (0, 0), hs)
  else Ret (0, (data, Z.lor KOBJ_RIGHT_READ KOBJ_RIGHT_WRITE),
            set_kobjs hs (<[data := mk_kobject 2 0 KOBJ_RIGHT_READ 0 1]> (kobjs hs))).

Definition demo_made (hs : hstate (list mem_section)) (data : Z) : option Z :=
  if (data <=? 0) || bool_decide (is_Some (kobjs hs !! data)) || (256 <=? length (procs hs))%nat then None
  else Some data.

Definition demo_cbs (t : Z) : option (@create_cb (list mem_section)) :=
  if t =? 1 then Some (process_create (fun cur => (cur =? 0)%nat) (fun _ _ _ => 1) demo_made 0x50)
  else if t =? 2 then Some demo_cb else None.

Definition demo_next (hs : hstate (list mem_section)) (c : syscall) : hstate (list mem_section) :=
  match do_syscall demo_cbs hs 0 c with Ret (_, hs') => hs' | _ => hs end.

(** Process 0 has handle 0 to the process it made and handle 1 to an object. *)
Definition hdemo : hstate (list mem_section) := demo_next (demo_next demo_boot (Create 1 0x100)) (Create 2 0x200).

Lemma demo_callbacks : callbacks_ok 0x50 256 demo_cbs.
Proof.
  intros t cb. unfold demo_cbs. destruct (t =? 1); [|destruct (t =? 2); [|done]]; intros [= <-]; [right|left].
  - do 3 eexists. split; [done|]. intros hs data k. unfold demo_made.
    destruct (Z.leb_spec data 0); [done|]. destruct (bool_decide_reflect (is_Some (kobjs hs !! data))) as [|Hn]; [done|].
    destruct (Nat.leb_spec 256 (length (procs hs))); [done|]. cbn [orb]. intros [= <-].
    split_and!; [split; unfold KOBJ_PLACEHOLDER; lia|by apply eq_None_not_Some|done].
  - intros hs cur data ret k rt hs'. unfold demo_cb.
    destruct (Z.leb_spec data 0); [|destruct (bool_decide_reflect (is_Some (kobjs hs !! data))) as [|Hn]]; cbn [orb];
      intros [= <- <- <- <-]; try done.
    split_and!; try done. intros _. split_and!; [split; unfold KOBJ_PLACEHOLDER; lia|by apply eq_None_not_Some|].
    eexists. split; [|reflexivity]. done.
Qed.

Lemma demo_boot_inv : inv NR_DESC_PER_PAGE (fun k => if k =? 0x50 then 1 else 0) demo_boot.
Proof.
  assert (Hok : proc_ok NR_DESC_PER_PAGE fresh_process).
  { exists (mk_table (replicate (Z.to_nat NR_DESC_PER_PAGE) empty_desc) 0 NR_DESC_PER_PAGE). done. }
  assert (Eh : forall k, k <> 0 -> handles_to demo_boot k = 0).
  { intros k Hk. unfold handles_to. cbn [demo_boot procs sum_list_with].
    unfold descs_of, fresh_process. cbn [handle_desc_table map concat ht_descs]. rewrite app_nil_r.
    by rewrite uses_replicate. }
  split; cbn [demo_boot kobjs procs calls].
  - by repeat constructor.
  - done.
  - intros k. destruct (k =? 0x50); done.
  - intros k o Hk. apply lookup_singleton_Some in Hk as [<- <-]. right. by rewrite Eh.
  - intros k [Hk0 _] Hpos. rewrite Eh in Hpos by done. destruct (Z.eqb_spec k 0x50) as [->|]; [|lia]. by eexists.
  - intros k. split; [by intros ?%not_elem_of_nil|]. intros (o & Ho & Hr).
    by apply lookup_singleton_Some in Ho as [<- <-].
  - constructor.
Qed.

Lemma hdemo_steps : nsteps (hstep demo_cbs) 2 demo_boot hdemo.
Proof.
  eapply nsteps_l; [eapply (hstep_call _ _ _ 0 (Create 1 0x100) 0); [done|vm_compute; reflexivity]|].
  eapply nsteps_once. eapply (hstep_call _ _ _ 0 (Create 2 0x200) 1); [done|vm_compute; reflexivity].
Qed.

Lemma hdemo_ready : exists ext, ready 0x50 256 1000 (NR_DESC_PER_PAGE + 2) ext hdemo.
Proof.
  destruct (hsteps_ok 0x50 256 demo_cbs 1000 2 NR_DESC_PER_PAGE (fun k => if k =? 0x50 then 1 else 0) demo_boot hdemo
    demo_callbacks) as (ext & Hr & _); [|exact hdemo_steps|by exists ext].
  split; [exact demo_boot_inv|]. split_and!; try done. intros k. by destruct (k =? 0x50).
Qed.

Lemma hdemo_inv : exists ext, inv (NR_DESC_PER_PAGE + 2) ext hdemo /\ slack 1000 ext hdemo.
Proof.
  destruct hdemo_ready as (ext & Hi & _ & _ & _ & Hs & _). exists ext. split; [done|].
  apply headroom_slack in Hs. intros k. specialize (Hs k). lia.
Qed.

Lemma demo_handle : handle_at hdemo 0 1 (mk_desc 0x200 3).
Proof. eexists. split; vm_compute; reflexivity. Qed.

Lemma send_handle_transfers_witness : exists m ext, send_result m ext hdemo 0 1 1 (mk_desc 0x200 3) KOBJ_RIGHT_WRITE
  (send_handle hdemo 0 1 1 KOBJ_RIGHT_WRITE).
Proof.
  destruct hdemo_inv as (ext & Hi & Hs). exists (NR_DESC_PER_PAGE + 2), ext.
  apply (send_handle_transfers _ _ hdemo 0 1 1); [exact Hi|by apply (slack_roomy 1000)|done|exact demo_handle|].
  vm_compute. lia.
Defined.

(** Process 0 sends the right to write, and keeps the right to read. *)
Lemma demo_grant : hstep demo_cbs hdemo (demo_next hdemo (Grant 0 1 KOBJ_RIGHT_WRITE)).
Proof. eapply (hstep_call _ _ _ 0 (Grant 0 1 KOBJ_RIGHT_WRITE) 4); [done|vm_compute; reflexivity]. Qed.

Lemma demo_granted :
  handle_at (demo_next hdemo (Grant 0 1 KOBJ_RIGHT_WRITE)) 0 1 (mk_desc 0x200 KOBJ_RIGHT_READ) /\
  handle_at (demo_next hdemo (Grant 0 1 KOBJ_RIGHT_WRITE)) 1 4 (mk_desc 0x200 KOBJ_RIGHT_WRITE).
Proof. split; eexists; split; vm_compute; reflexivity. Qed.

Lemma demo_ready ext n : (n <= 1000)%nat ->
  ready 0x50 256 1000 (NR_DESC_PER_PAGE + 2) ext hdemo -> ready 0x50 256 n (NR_DESC_PER_PAGE + 2) ext hdemo.
Proof. intros Hn (? & ? & ? & ? & Hs & ?). split_and!; try done; [intros k; specialize (Hs k)|]; lia. Qed.

Lemma rights_confined_witness :
  exists q0 j0, holds hdemo 0x200 1 q0 j0.
Proof.
  destruct hdemo_ready as (ext & Hr).
  destruct (rights_confined 0x50 256 demo_cbs 1 _ ext hdemo (demo_next hdemo (Grant 0 1 KOBJ_RIGHT_WRITE)) 0x200 1
    (mk_kobject 2 0 KOBJ_RIGHT_READ 1 1) demo_callbacks (demo_ready ext 1 ltac:(lia) Hr)
    (nsteps_once _ _ demo_grant) ltac:(vm_compute; reflexivity) ltac:(done)) as [Hh _].
  apply (Hh 1%nat 4%nat). exists (mk_desc 0x200 KOBJ_RIGHT_WRITE). split; [apply demo_granted|done].
Defined.


Lemma close_releases_last_witness :
  exists ext r hs', sys_kobject_close hdemo 0 1 None = Ret (r, hs') /\ inv (NR_DESC_PER_PAGE + 2 + 1) ext hs'.
Proof.
  destruct hdemo_inv as (ext & Hi & Hs). exists ext.
  destruct (close_releases_last _ ext hdemo 0 1 (mk_desc 0x200 3) None Hi (slack_roomy 1000 _ _ Hs ltac:(done)) ltac:(done)
    demo_handle ltac:(done)) as (r & hs' & E & Hi' & _). exists r, hs'. split; [exact E|exact Hi'].
Defined.

Lemma syscall_without_right_denied_witness :
  exists hs', do_syscall demo_cbs hdemo 0 (Ctl 1 (Some 0)) = Ret (- EPERM, hs') /\ calls hs' = calls hdemo /\
    procs hs' = procs hdemo.
Proof.
  destruct hdemo_inv as (ext & Hi & Hs).
  apply (syscall_without_right_denied demo_cbs _ ext hdemo 0 1 (mk_desc 0x200 3) (Ctl 1 (Some 0)) KOBJ_RIGHT_CTL Hi
    (slack_roomy 1000 _ _ Hs ltac:(done)) demo_handle); done.
Defined.

Lemma process_exit_balances_witness :
  exists ext hs', release_proc_kobjects hdemo 0 (fun _ _ => None) = Ret hs' /\
    inv (NR_DESC_PER_PAGE + 2) ext (set_procs hs' (no_handles hdemo 0)).
Proof.
  destruct hdemo_inv as (ext & Hi & Hs). exists ext.
  apply (process_exit_balances _ ext hdemo 0 (fun _ _ => None) Hi).
  - intros k. specialize (Hs k). change NR_DESC_PER_PAGE with 255 in *. lia.
  - vm_compute. lia.
Defined.

(** A handle that was never allocated passes the check with status 0 and no object. *)
Example unused_handle_faults : sys_kobject_send hdemo 0 5 (Some 0) = Fault.
Proof. vm_compute. reflexivity. Qed.

(** A handle past the only table passes the range check and is looked up through [NULL]. *)
Example handle_past_table_faults : sys_kobject_send hdemo 0 300 (Some 0) = Fault.
Proof. vm_compute. reflexivity. Qed.

(** Sending the first unused handle to oneself reads the placeholder just reserved. *)
Example send_unused_to_self_faults : send_handle hdemo 0 0 2 0 = Fault.
Proof. vm_compute. reflexivity. Qed.

(** With its first table full, a process gets a panic instead of a second table. *)
Example full_table_panics :
  __alloc_handle (set_procs hdemo [mk_process [mk_table (replicate 255 (mk_desc 0x200 1)) 0 NR_DESC_PER_PAGE]])
    0 0x100 1 = Panic.
Proof. vm_compute. reflexivity. Qed.

(** Another thread closes the handle after the transfer released the sender's lock. *)
Example close_during_send_panics :
  (let* (r, hs) := send_take hdemo 0 1 1 KOBJ_RIGHT_WRITE in
   let* (_, hs) := sys_kobject_close hs 0 1 None in
   match r with
   | inr (h, k, rt) => setup_handle hs 1 h k rt
   | inl _ => Ret hs
   end) = Panic.
Proof. vm_compute. reflexivity. Qed.

(** A reply without the right to read keeps the reference it took. *)
Example reply_keeps_reference :
  let hs := demo_next hdemo (Grant 0 1 KOBJ_RIGHT_WRITE) in
  ko_ref <$> kobjs hs !! 0x200 = Some 2 /\
  (let* (r, hs') := sys_kobject_reply hs 1 4 (Some 0) in Ret (r, ko_ref <$> kobjs hs' !! 0x200)) = Ret (- EPERM, Some 3).
Proof. vm_compute. done. Qed.
