(* ===== verification/Poll.v ===== *)
(** * Poll hubs

    [userspace/poll.c]: a process watches many kernel objects through one poll hub.  Each polled
    object has, for each kind of event, a linked list of the hubs that watch it; an event on the
    object is appended to the list of every such hub and wakes a reader of the hub.

    The items of the lists are a finite map from addresses, with their [next] pointers.  An item
    holds a reference to its hub; a hub whose last reference is dropped is gone, and an access to it
    is a fault.  Results of allocations are arguments.  A hub is not polled itself, so that its
    release ends with it. *)

From S2P Require Import Prelude Types Bits Handle.

Definition EV_MAX : nat := 7.
Definition KOBJ_POLL_OP_ADD : Z := 0.
Definition KOBJ_POLL_OP_DEL : Z := 1.
Definition KOBJ_POLL_OP_MOD : Z := 2.

Record pevent_item := mk_pi { poller : Z; pi_data : Z; pi_next : Z }.

(** An event as a reader of the hub gets it. *)
Record poll_event := mk_pe { pe_events : Z; pe_pdata : Z; pe_type : Z; pe_data0 : Z; pe_data1 : Z; pe_data2 : Z }.

(** [h_wait] are the tasks that sleep on the event of the hub, [h_woken] those that were woken and have
    not run yet.  A sleeper that is stopped is no longer one of [h_wait], since [wake] passes over it. *)
Record poll_hub := mk_hub {
  event_list : list poll_event;
  h_ref : Z;
  h_wait : list nat;
  h_woken : list nat;
}.

(** [poll_struct]s are named by the object they belong to. *)
Record pstate := mk_ps {
  items : gmap Z pevent_item;
  hubs : gmap Z poll_hub;
  pevents : gmap Z (list Z);
}.

Definition set_items (s : pstate) (i : gmap Z pevent_item) : pstate := mk_ps i (hubs s) (pevents s).
Definition set_hubs (s : pstate) (h : gmap Z poll_hub) : pstate := mk_ps (items s) h (pevents s).
Definition set_pevents (s : pstate) (p : gmap Z (list Z)) : pstate := mk_ps (items s) (hubs s) p.

Definition get_item (s : pstate) (pi : Z) : outcome pevent_item :=
  match items s !! pi with Some i => Ret i | None => Fault end.
Definition get_hub (s : pstate) (ph : Z) : outcome poll_hub :=
  match hubs s !! ph with Some h => Ret h | None => Fault end.
Definition get_head (s : pstate) (o : Z) (ev : nat) : outcome Z :=
  match pevents s !! o ≫= lookup ev with Some pi => Ret pi | None => Fault end.
Definition set_head (s : pstate) (o : Z) (ev : nat) (pi : Z) : pstate :=
  set_pevents s (alter (fun ps => <[ev := pi]> ps) o (pevents s)).

(** ** References to a hub *)

(** A count never comes near 2^31: each reference is held by an item or a handle, which takes memory of
    its own. *)
Definition hub_get (s : pstate) (ph : Z) : outcome pstate :=
  let* h := get_hub s ph in
  check 0 <=? h_ref h in
  Ret (set_hubs s (<[ph := mk_hub (event_list h) (h_ref h + 1) (h_wait h) (h_woken h)]> (hubs s))).

(** The last reference releases the hub with the events in its list. *)
Definition hub_put (s : pstate) (ph : Z) : outcome pstate :=
  let* h := get_hub s ph in
  check 0 <? h_ref h in
  if h_ref h =? 1 then Ret (set_hubs s (delete ph (hubs s)))
  else Ret (set_hubs s (<[ph := mk_hub (event_list h) (h_ref h - 1) (h_wait h) (h_woken h)]> (hubs s))).

(** ** Lists of watchers *)

Fixpoint find_loop (fuel : nat) (s : pstate) (pi ph : Z) : outcome Z :=
  if pi =? 0 then Ret 0 else
  match fuel with
  | O => OutOfFuel
  | S fuel => let* i := get_item s pi in if poller i =? ph then Ret pi else find_loop fuel s (pi_next i) ph
  end.

(** Enough for any list of items. *)
Definition walk_fuel (s : pstate) : nat := size (items s).

Definition find_pevent_item (s : pstate) (o : Z) (ev : nat) (ph : Z) : outcome Z :=
  let* pi := get_head s o ev in find_loop (walk_fuel s) s pi ph.

Definition add_new_pevent (s : pstate) (o : Z) (ev : nat) (pi : Z) : outcome pstate :=
  let* head := get_head s o ev in
  let* i := get_item s pi in
  Ret (set_head (set_items s (<[pi := mk_pi (poller i) (pi_data i) head]> (items s))) o ev pi).

(** [tmp] is the item before [pi], 0 at the head. *)
Fixpoint del_loop (fuel : nat) (s : pstate) (o : Z) (ev : nat) (tmp pi ph : Z) : outcome (Z * pstate) :=
  if pi =? 0 then Ret (0, s) else
  match fuel with
  | O => OutOfFuel
  | S fuel =>
      let* i := get_item s pi in
      if poller i =? ph then
        if tmp =? 0 then Ret (pi, set_head s o ev (pi_next i))
        else let* t := get_item s tmp in
             Ret (pi, set_items s (<[tmp := mk_pi (poller t) (pi_data t) (pi_next i)]> (items s)))
      else del_loop fuel s o ev pi (pi_next i) ph
  end.

Definition find_and_del_pevent_item (s : pstate) (o : Z) (ev : nat) (ph : Z) : outcome (Z * pstate) :=
  let* pi := get_head s o ev in del_loop (walk_fuel s) s o ev 0 pi ph.

(** ** Sending *)

Definition hub_push (h : poll_hub) (e : poll_event) : poll_hub := mk_hub (event_list h ++ [e]) (h_ref h) (h_wait h) (h_woken h).

(** [wake] of the event of the hub: 0, or [-ENOENT] when nobody sleeps. *)
Definition hub_wake (h : poll_hub) : Z * poll_hub :=
  match h_wait h with
  | [] => (- ENOENT, h)
  | t :: l => (0, mk_hub (event_list h) (h_ref h) l (h_woken h ++ [t]))
  end.

Definition poll_event_send_static (s : pstate) (pi : Z) (e : poll_event) : outcome (Z * pstate) :=
  let* i := get_item s pi in
  let* h := get_hub s (poller i) in
  let '(ret, h) := hub_wake (hub_push h e) in
  Ret (ret, set_hubs s (<[poller i := h]> (hubs s))).

(** [mem] says for each item of the list whether the allocation of its event succeeds. *)
Fixpoint send_loop (fuel : nat) (s : pstate) (pi : Z) (ev : nat) (type data0 data1 data2 : Z) (mem : nat -> bool) (k : nat) (ret : Z)
    : outcome (Z * pstate) :=
  if pi =? 0 then Ret (ret, s) else
  match fuel with
  | O => OutOfFuel
  | S fuel =>
      if negb (mem k) then Ret (- ENOMEM, s) else
      let* i := get_item s pi in
      let* (r, s) := poll_event_send_static s pi (mk_pe (Z.shiftl 1 (Z.of_nat ev)) (pi_data i) type data0 data1 data2) in
      send_loop fuel s (pi_next i) ev type data0 data1 data2 mem (S k) (ret + r)
  end.

Definition poll_event_send_with_data (s : pstate) (o : Z) (ev : nat) (type data0 data1 data2 : Z) (mem : nat -> bool) : outcome (Z * pstate) :=
  match pevents s !! o with
  | None => Ret (- EAGAIN, s)
  | Some ps =>
      let* pi := get_head s o ev in
      send_loop (walk_fuel s) s pi ev type data0 data1 data2 mem 0 0
  end.

Definition poll_event_send (s : pstate) (o : Z) (ev : nat) (mem : nat -> bool) : outcome (Z * pstate) :=
  poll_event_send_with_data s o ev 0 0 0 0 mem.

(** The same walk one access at a time: it takes no lock, and other CPUs change the lists meanwhile.
    [WItem pi] is the head of the loop, with [pi] read; at [WPush pi e] the event [e] for the item is
    made, at [WWake pi ph] it is in the list of hub [ph], and at [WNext pi] the hub was woken. *)
Inductive walk_point :=
| WHead
| WItem (pi : Z)
| WPush (pi : Z) (e : poll_event)
| WWake (pi ph : Z)
| WNext (pi : Z)
| WDone.

(** [w_k] is the number of the next item, and [w_ret] the status so far. *)
Record send_walk := mk_walk {
  w_obj : Z;
  w_ev : nat;
  w_make : pevent_item -> poll_event;
  w_mem : nat -> bool;
  w_k : nat;
  w_ret : Z;
  w_at : walk_point;
}.

Definition walk_to (w : send_walk) (p : walk_point) : send_walk := mk_walk (w_obj w) (w_ev w) (w_make w) (w_mem w) (w_k w) (w_ret w) p.

Definition start_walk (o : Z) (ev : nat) (type data0 data1 data2 : Z) (mem : nat -> bool) : send_walk :=
  mk_walk o ev (fun i => mk_pe (Z.shiftl 1 (Z.of_nat ev)) (pi_data i) type data0 data1 data2) mem 0 0 WHead.

Definition send_step (s : pstate) (w : send_walk) : outcome (pstate * send_walk) :=
  match w_at w with
  | WHead => let* pi := get_head s (w_obj w) (w_ev w) in Ret (s, walk_to w (WItem pi))
  | WItem pi =>
      if pi =? 0 then Ret (s, walk_to w WDone) else
      if negb (w_mem w (w_k w)) then Ret (s, mk_walk (w_obj w) (w_ev w) (w_make w) (w_mem w) (w_k w) (- ENOMEM) WDone) else
      let* i := get_item s pi in Ret (s, walk_to w (WPush pi (w_make w i)))
  | WPush pi e =>
      let* i := get_item s pi in
      let* h := get_hub s (poller i) in
      Ret (set_hubs s (<[poller i := hub_push h e]> (hubs s)), walk_to w (WWake pi (poller i)))
  | WWake pi ph =>
      let* h := get_hub s ph in
      let '(r, h) := hub_wake h in
      Ret (set_hubs s (<[ph := h]> (hubs s)), mk_walk (w_obj w) (w_ev w) (w_make w) (w_mem w) (w_k w) (w_ret w + r) (WNext pi))
  | WNext pi =>
      let* i := get_item s pi in
      Ret (s, mk_walk (w_obj w) (w_ev w) (w_make w) (w_mem w) (S (w_k w)) (w_ret w) (WItem (pi_next i)))
  | WDone => Ret (s, w)
  end.

(** Steps without anything in between. *)
Fixpoint send_run (n : nat) (s : pstate) (w : send_walk) : outcome (pstate * send_walk) :=
  match n with
  | O => Ret (s, w)
  | S n => let* (s, w) := send_step s w in send_run n s w
  end.

(** ** Reading *)

(** The first part of [__poll_hub_read], up to the sleep of [wait_event]: [inl] a status, or [inr]
    whether the task goes on without sleeping.  [stop] says that the task is asked to stop. *)
Definition hub_read_wait (h : poll_hub) (t : nat) (max_event : Z) (range_ok stop : bool) : (Z + bool) * poll_hub :=
  if 32 <=? max_event then (inl (- E2BIG), h) else
  if negb range_ok then (inl (- EFAULT), h) else
  match event_list h with
  | [] => if stop then (inl (- EABORT), h) else (inr false, mk_hub [] (h_ref h) (h_wait h ++ [t]) (h_woken h))
  | _ => (inr true, h)
  end.

(** The events that the loop moves to the local list: it stops when the count is [max_event]. *)
Fixpoint take_events (l : list poll_event) (cnt max_event : Z) : list poll_event * list poll_event :=
  match l with
  | [] => ([], [])
  | e :: l =>
      if cnt + 1 =? max_event then ([e], l)
      else let '(got, rest) := take_events l (cnt + 1) max_event in (e :: got, rest)
  end.

(** The rest of [__poll_hub_read], for a task that did not sleep or was woken by [wake]; [copied] says
    whether the copies to the user succeed. *)
Definition hub_read_take (h : poll_hub) (t : nat) (max_event : Z) (copied : bool) : outcome (Z * list poll_event * poll_hub) :=
  let h := mk_hub (event_list h) (h_ref h) (h_wait h) (filter (fun x => x <> t) (h_woken h)) in
  match event_list h with
  | [] => Ret (- EAGAIN, [], h)
  | l =>
      let '(got, rest) := take_events l 0 max_event in
      check copied in
      Ret (Z.of_nat (length got), got, mk_hub rest (h_ref h) (h_wait h) (h_woken h))
  end.

(** A sleeper that is asked to stop. *)
Definition hub_read_abort (h : poll_hub) (t : nat) : Z * poll_hub :=
  (- EABORT, mk_hub (event_list h) (h_ref h) (filter (fun x => x <> t) (h_wait h)) (h_woken h)).

Definition SIZEOF_POLL_EVENT : Z := 48.

(** The number of events that [poll_hub_read] asks for, and what it makes of their number: a status
    and the size of the data. *)
Definition read_max (data_size : Z) : Z := s32 (data_size / SIZEOF_POLL_EVENT).
Definition poll_hub_read_result (cnt : Z) : Z * option Z := if cnt <=? 0 then (cnt, None) else (0, Some (cnt * SIZEOF_POLL_EVENT)).

(** ** Control *)

(** [mem] gives the address that [malloc] returns for each kind of event, 0 for none.  The hub has no
    [poll] operation, so that [kobject_poll] is 0. *)
Definition ctl_add (s : pstate) (ph o : Z) (i : nat) (pdata mem : Z) : outcome (option Z * pstate) :=
  let* ei := find_pevent_item s o i ph in
  if negb (ei =? 0) then Ret (None, s) else
  if mem =? 0 then Ret (Some (- ENOMEM), s) else
  let s := set_items s (<[mem := mk_pi ph pdata 0]> (items s)) in
  let* s := add_new_pevent s o i mem in
  let* s := hub_get s ph in Ret (None, s).

Definition ctl_mod (s : pstate) (ph o : Z) (i : nat) (pdata : Z) : outcome pstate :=
  let* ei := find_pevent_item s o i ph in
  if negb (ei =? 0) then
    let* it := get_item s ei in
    Ret (set_items s (<[ei := mk_pi (poller it) pdata (pi_next it)]> (items s)))
  else Ret s.

Definition ctl_del (s : pstate) (ph o : Z) (i : nat) : outcome pstate :=
  let* (ei, s) := find_and_del_pevent_item s o i ph in
  if negb (ei =? 0) then
    let* s := hub_put s ph in
    Ret (set_items s (delete ei (items s)))
  else Ret s.

(** The loop over the kinds of events; an allocation that fails ends it. *)
Fixpoint ctl_loop (n : nat) (s : pstate) (ph o op events pdata : Z) (mem : nat -> Z) (ret : Z) : outcome (Z * pstate) :=
  match n with
  | O => Ret (ret, s)
  | S n' =>
      let i := (EV_MAX - n)%nat in
      if Z.land events (Z.shiftl 1 (Z.of_nat i)) =? 0 then ctl_loop n' s ph o op events pdata mem ret else
      if op =? KOBJ_POLL_OP_ADD then
        let* (r, s) := ctl_add s ph o i pdata (mem i) in
        match r with
        | Some err => Ret (err, s)
        | None => ctl_loop n' s ph o op events pdata mem ret
        end
      else if op =? KOBJ_POLL_OP_MOD then
        let* s := ctl_mod s ph o i pdata in ctl_loop n' s ph o op events pdata mem ret
      else if op =? KOBJ_POLL_OP_DEL then
        let* s := ctl_del s ph o i in ctl_loop n' s ph o op events pdata mem ret
      else ctl_loop n' s ph o op events pdata mem ret
  end.

(** [room] says whether the [poll_struct] of an object that has none can be allocated. *)
Definition __poll_hub_ctl (s : pstate) (ph o op events pdata : Z) (room : bool) (mem : nat -> Z) : outcome (Z * pstate) :=
  match pevents s !! o with
  | Some _ => ctl_loop EV_MAX s ph o op events pdata mem 0
  | None =>
      if room then ctl_loop EV_MAX (set_pevents s (<[o := replicate EV_MAX 0]> (pevents s))) ph o op events pdata mem 0
      else Ret (- ENOMEM, s)
  end.

Definition POLL_EVENT_MASK : Z := 0x7f.
Definition POLL_READ_RIGHT_EVENT : Z := 0x71.
Definition POLL_WRITE_RIGHT_EVENT : Z := 0x0e.

Definition poll_hub_check_right (events right : Z) : Z :=
  let events := Z.land events POLL_EVENT_MASK in
  if events =? 0 then - EINVAL else
  if negb (Z.land events POLL_READ_RIGHT_EVENT =? 0) && (Z.land right KOBJ_RIGHT_READ =? 0) then - EPERM else
  if negb (Z.land events POLL_WRITE_RIGHT_EVENT =? 0) && (Z.land right KOBJ_RIGHT_WRITE =? 0) then - EPERM else
  0.

(** [copied] is the result of [copy_from_user], [polled] the object and the rights that
    [get_kobject_from_process] finds, with a reference to the object.  The [bool] of the result says
    that the reference was given back. *)
Definition poll_hub_ctl (s : pstate) (ph op copied : Z) (polled : option (Z * Z)) (events pdata : Z) (room : bool) (mem : nat -> Z)
    : outcome (Z * bool * pstate) :=
  if copied <=? 0 then Ret (copied, false, s) else
  match polled with
  | None => Ret (- ENOENT, false, s)
  | Some (o, rt) =>
      if negb (poll_hub_check_right events rt =? 0) then Ret (- EPERM, false, s) else
      let* (ret, s) := __poll_hub_ctl s ph o op events pdata room mem in Ret (ret, true, s)
  end.

(** A new hub has no reference yet; the handle that is made for it takes the first one. *)
Definition poll_hub_create (s : pstate) (mem : Z) : Z * pstate :=
  if mem =? 0 then (- ENOMEM, s) else (0, set_hubs s (<[mem := mk_hub [] 0 [] []]> (hubs s))).

(** ** Release of a polled object *)

Fixpoint release_items (fuel : nat) (s : pstate) (pi : Z) : outcome pstate :=
  if pi =? 0 then Ret s else
  match fuel with
  | O => OutOfFuel
  | S fuel =>
      let* i := get_item s pi in
      let s := set_items s (delete pi (items s)) in
      let* s := hub_put s (poller i) in
      release_items fuel s (pi_next i)
  end.

Fixpoint release_heads (l : list Z) (s : pstate) : outcome pstate :=
  match l with
  | [] => Ret s
  | pi :: l => let* s := release_items (walk_fuel s) s pi in release_heads l s
  end.

Definition release_poll_struct (s : pstate) (o : Z) : outcome pstate :=
  match pevents s !! o with
  | None => Ret s
  | Some ps => let* s := release_heads ps s in Ret (set_pevents s (delete o (pevents s)))
  end.

(** ** Chains of items *)

Fixpoint chain (m : gmap Z pevent_item) (h : Z) (l : list Z) : Prop :=
  match l with
  | [] => h = 0
  | a :: l => h = a /\ a <> 0 /\ match m !! a with Some i => chain m (pi_next i) l | None => False end
  end.

Lemma chain_item m h l a : chain m h l -> a ∈ l -> exists i, m !! a = Some i.
Proof.
  revert h. induction l as [|b l IH]; intros h Hc Ha; [inversion Ha|]. destruct Hc as (-> & _ & Hc). destruct (m !! b) as [i|] eqn:Hb; [|done].
  apply elem_of_cons in Ha as [->|Ha]; [by exists i|by apply (IH (pi_next i))].
Qed.

Lemma chain_nonzero m h l a : chain m h l -> a ∈ l -> a <> 0.
Proof.
  revert h. induction l as [|b l IH]; intros h Hc Ha; [inversion Ha|]. destruct Hc as (-> & Hb & Hc). destruct (m !! b) as [i|]; [|done].
  apply elem_of_cons in Ha as [->|Ha]; [done|by apply (IH (pi_next i))].
Qed.

(** Only the items of the chain matter. *)
Lemma chain_ext m m' h l : (forall a, a ∈ l -> m' !! a = m !! a) -> chain m h l -> chain m' h l.
Proof.
  revert h. induction l as [|b l IH]; intros h He Hc; [done|]. destruct Hc as (-> & Hb & Hc). split; [done|]. split; [done|].
  rewrite He by (by left). destruct (m !! b) as [i|]; [|done]. apply IH; [|done]. intros a Ha. apply He. by right.
Qed.

Lemma chain_size m h l : chain m h l -> NoDup l -> (length l <= size m)%nat.
Proof.
  intros Hc Hnd. rewrite <- (size_list_to_set (C := gset Z) l Hnd), <- size_dom. apply subseteq_size. intros a Ha%elem_of_list_to_set.
  apply elem_of_dom. by destruct (chain_item m h l a Hc Ha) as (i & ->).
Qed.

(** The item of [ph] in a chain. *)
Definition watching (m : gmap Z pevent_item) (ph a : Z) : Prop := exists i, m !! a = Some i /\ poller i = ph.

Lemma find_loop_ok l : forall fuel s h ph, chain (items s) h l -> (length l <= fuel)%nat ->
  exists r, find_loop fuel s h ph = Ret r /\
    (r = 0 /\ (forall a, a ∈ l -> ~ watching (items s) ph a) \/ r ∈ l /\ watching (items s) ph r).
Proof.
  induction l as [|b l IH]; intros fuel s h ph Hc Hf.
  - cbn in Hc. subst h. exists 0. split; [by destruct fuel|]. left. split; [done|]. intros a Ha. inversion Ha.
  - destruct Hc as (-> & Hb & Hc). destruct fuel as [|fuel]; [cbn in Hf; lia|]. cbn [find_loop]. destruct (Z.eqb_spec b 0); [done|].
    unfold get_item. destruct (items s !! b) as [i|] eqn:Hi; [|done]. cbn [obind]. destruct (Z.eqb_spec (poller i) ph) as [E|E].
    + exists b. split; [done|]. right. split; [by left|by exists i].
    + destruct (IH fuel s (pi_next i) ph Hc ltac:(cbn in Hf; lia)) as (r & -> & Hr). exists r. split; [done|]. destruct Hr as [[-> Hr]|[Hin Hr]].
      * left. split; [done|]. intros a [->|Ha]%elem_of_cons; [intros (j & Hj & Ej); congruence|by apply Hr].
      * right. split; [by right|done].
Qed.

(** Removing the item [x] from the list [l1 ++ x :: l2]: the item before it, or the head, takes over
    its link. *)
Lemma del_loop_ok l2 : forall fuel s o ev tmp h ph, chain (items s) h l2 -> NoDup l2 -> (length l2 <= fuel)%nat ->
  (tmp <> 0 -> exists t, items s !! tmp = Some t /\ (tmp ∉ l2) /\ pi_next t = h) ->
  exists r s', del_loop fuel s o ev tmp h ph = Ret (r, s') /\
    (r = 0 /\ s' = s /\ (forall a, a ∈ l2 -> ~ watching (items s) ph a) \/
     exists k1 k2 i, l2 = k1 ++ r :: k2 /\ r <> 0 /\ items s !! r = Some i /\ poller i = ph /\
       match last k1 with
       | Some p => exists t, items s !! p = Some t /\ s' = set_items s (<[p := mk_pi (poller t) (pi_data t) (pi_next i)]> (items s))
       | None => if tmp =? 0 then s' = set_head s o ev (pi_next i)
                 else exists t, items s !! tmp = Some t /\ s' = set_items s (<[tmp := mk_pi (poller t) (pi_data t) (pi_next i)]> (items s))
       end).
Proof.
  induction l2 as [|b l IH]; intros fuel s o ev tmp h ph Hc Hnd Hf Htmp.
  - cbn in Hc. subst h. exists 0, s. split; [by destruct fuel|]. left. split; [done|]. split; [done|]. intros a Ha. inversion Ha.
  - destruct Hc as (-> & Hb & Hc). apply NoDup_cons in Hnd as [Hnin Hnd]. destruct fuel as [|fuel]; [cbn in Hf; lia|]. cbn [del_loop].
    destruct (Z.eqb_spec b 0); [done|]. unfold get_item. destruct (items s !! b) as [i|] eqn:Hi; [|done]. cbn [obind].
    destruct (Z.eqb_spec (poller i) ph) as [E|E].
    + destruct (Z.eqb_spec tmp 0) as [->|Ht].
      * eexists b, _. split; [done|]. right. exists [], l, i. by split_and!.
      * destruct (Htmp Ht) as (t & Et & _). rewrite Et. cbn [obind]. eexists b, _. split; [done|]. right. exists [], l, i. split_and!; try done. by exists t.
    + destruct (IH fuel s o ev b (pi_next i) ph Hc Hnd ltac:(cbn in Hf; lia)) as (r & s' & -> & Hr); [intros _; by exists i|].
      exists r, s'. split; [done|]. destruct Hr as [(-> & -> & Hr)|(k1 & k2 & j & -> & Hr0 & Hj & Hp & Hs)].
      * left. split; [done|]. split; [done|]. intros a [->|Ha]%elem_of_cons; [intros (j & Hj & Ej); congruence|by apply Hr].
      * right. exists (b :: k1), k2, j. split_and!; try done. rewrite last_cons. destruct (last k1); [done|].
        destruct (Z.eqb_spec b 0); done.
Qed.

(** ** Well-formed poll structures *)

(** [ch o ev] are the items that watch event [ev] of object [o]; [own h] is the number of references
    to hub [h] that are not held by items. *)
Record pinv (s : pstate) (ch : Z -> nat -> list Z) (own : Z -> Z) : Prop := {
  pv_heads : forall o ps, pevents s !! o = Some ps -> length ps = EV_MAX /\ forall ev h, ps !! ev = Some h -> chain (items s) h (ch o ev);
  pv_none : forall o ev, pevents s !! o = None \/ (EV_MAX <= ev)%nat -> ch o ev = [];
  pv_nodup : forall o ev, NoDup (ch o ev);
  pv_apart : forall o ev o' ev' a, a ∈ ch o ev -> a ∈ ch o' ev' -> o = o' /\ ev = ev';
  pv_owned : forall a, is_Some (items s !! a) -> exists o ev, a ∈ ch o ev;
  pv_once : forall o ev a b, a ∈ ch o ev -> b ∈ ch o ev -> forall ph, watching (items s) ph a -> watching (items s) ph b -> a = b;
  pv_ref : forall h hub, hubs s !! h = Some hub -> h_ref hub = own h + tally (fun i => poller i =? h) (items s) /\ 0 <= own h /\ 0 < h_ref hub;
  pv_live : forall a i, items s !! a = Some i -> is_Some (hubs s !! poller i);
  pv_own : forall h, 0 < own h -> is_Some (hubs s !! h);
}.

Lemma pinv_chain s ch own o ps ev : pinv s ch own -> pevents s !! o = Some ps -> (ev < EV_MAX)%nat ->
  exists h, get_head s o ev = Ret h /\ ps !! ev = Some h /\ chain (items s) h (ch o ev) /\ (length (ch o ev) <= walk_fuel s)%nat.
Proof.
  intros P Hps Hev. destruct (pv_heads _ _ _ P o ps Hps) as [Hl Hc]. destruct (lookup_lt_is_Some_2 ps ev ltac:(lia)) as (h & Hh).
  exists h. unfold get_head. rewrite Hps. cbn. rewrite Hh. split; [done|]. split; [done|]. split; [by apply Hc|].
  eapply chain_size; [by apply Hc|apply P].
Qed.

Lemma pinv_item s ch own o ev a : pinv s ch own -> a ∈ ch o ev -> is_Some (items s !! a).
Proof.
  intros P Ha. destruct (pevents s !! o) as [qs|] eqn:Hq; [|rewrite (pv_none _ _ _ P) in Ha by (by left); inversion Ha].
  destruct (decide (ev < EV_MAX)%nat) as [Hlt|]; [|rewrite (pv_none _ _ _ P) in Ha by (right; lia); inversion Ha].
  destruct (pinv_chain s ch own o qs ev P Hq Hlt) as (h & _ & _ & Hch & _). by apply (chain_item _ _ _ _ Hch).
Qed.

(** ** Control *)

Definition ch_set (ch : Z -> nat -> list Z) (o : Z) (ev : nat) (l : list Z) : Z -> nat -> list Z :=
  fun o' ev' => if decide (o' = o /\ ev' = ev) then l else ch o' ev'.

Lemma ch_here ch o ev l : ch_set ch o ev l o ev = l.
Proof. unfold ch_set. by rewrite decide_True. Qed.

Lemma ch_there ch o ev l o' ev' : ~ (o' = o /\ ev' = ev) -> ch_set ch o ev l o' ev' = ch o' ev'.
Proof. intros. unfold ch_set. by rewrite decide_False. Qed.

(** One list changes: its head is [h'], its items are [l'], and the other items keep their contents. *)
Lemma pinv_change s s' ch own own' o ev l' :
  pinv s ch own -> (ev < EV_MAX)%nat -> is_Some (pevents s !! o) ->
  (exists h', pevents s' = alter (fun ps => <[ev := h']> ps) o (pevents s) /\ chain (items s') h' l') ->
  NoDup l' -> (forall a, a ∈ l' -> a ∈ ch o ev \/ items s !! a = None) ->
  (forall a, is_Some (items s' !! a) -> is_Some (items s !! a) /\ (a ∉ ch o ev) \/ a ∈ l') ->
  (forall a, is_Some (items s !! a) -> a ∉ ch o ev -> items s' !! a = items s !! a) ->
  (forall a b ph, a ∈ l' -> b ∈ l' -> watching (items s') ph a -> watching (items s') ph b -> a = b) ->
  (forall h hub, hubs s' !! h = Some hub -> h_ref hub = own' h + tally (fun i => poller i =? h) (items s') /\ 0 <= own' h /\ 0 < h_ref hub) ->
  (forall a i, items s' !! a = Some i -> is_Some (hubs s' !! poller i)) ->
  (forall h, 0 < own' h -> is_Some (hubs s' !! h)) ->
  pinv s' (ch_set ch o ev l') own'.
Proof.
  intros P Hev [ps Hps] (h' & Ep & Hc) Hnd Hold Hdom Hsame Honce Href Hlive Hown.
  assert (Hin : forall o' ev' a, a ∈ ch o' ev' -> is_Some (items s !! a)) by (intros o' ev' a; by apply (pinv_item s ch own)).
  assert (Hapart : forall o' ev' a, ~ (o' = o /\ ev' = ev) -> a ∈ ch o' ev' -> (a ∉ ch o ev) /\ (a ∉ l')).
  { intros o' ev' a Hne Ha. assert (Hn : a ∉ ch o ev) by (intros Hx; apply Hne; by apply (pv_apart _ _ _ P o' ev' o ev a)).
    split; [done|]. intros Hl. destruct (Hold a Hl) as [|Hnone]; [done|]. destruct (Hin _ _ _ Ha). congruence. }
  split.
  - intros o' qs. rewrite Ep. destruct (decide (o' = o)) as [->|Hne].
    + rewrite lookup_alter_eq, Hps. intros [= <-]. destruct (pv_heads _ _ _ P o ps Hps) as [Hl Hh]. split; [by rewrite length_insert|].
      intros ev' h. destruct (decide (ev' = ev)) as [->|Hne].
      * rewrite list_lookup_insert_eq by lia. intros [= <-]. by rewrite ch_here.
      * rewrite list_lookup_insert_ne by done. intros Hx. rewrite ch_there by (by intros [_ ?]). apply (chain_ext (items s)); [|by apply Hh].
        intros a Ha. apply Hsame; [by apply (Hin o ev')|]. apply (Hapart o ev' a); [by intros [_ ?]|done].
    + rewrite lookup_alter_ne by done. intros Hq. destruct (pv_heads _ _ _ P o' qs Hq) as [Hl Hh]. split; [done|]. intros ev' h Hx.
      rewrite ch_there by (by intros [? _]). apply (chain_ext (items s)); [|by apply Hh]. intros a Ha. apply Hsame; [by apply (Hin o' ev')|].
      apply (Hapart o' ev' a); [by intros [? _]|done].
  - intros o' ev' Hx. rewrite ch_there; [apply P; destruct Hx as [Hx|]; [left|by right]|].
    + rewrite Ep in Hx. destruct (decide (o' = o)) as [->|]; [rewrite lookup_alter_eq, Hps in Hx; done|by rewrite lookup_alter_ne in Hx].
    + intros [-> ->]. destruct Hx as [Hx|]; [|lia]. rewrite Ep, lookup_alter_eq, Hps in Hx. done.
  - intros o' ev'. unfold ch_set. destruct (decide _); [done|apply P].
  - intros o1 ev1 o2 ev2 a. unfold ch_set. destruct (decide (o1 = o /\ ev1 = ev)) as [[-> ->]|N1], (decide (o2 = o /\ ev2 = ev)) as [[-> ->]|N2]; [done| | |apply P].
    + intros Ha Ha2. by destruct (Hapart o2 ev2 a N2 Ha2).
    + intros Ha1 Ha. by destruct (Hapart o1 ev1 a N1 Ha1).
  - intros a Ha. destruct (Hdom a Ha) as [[Hi Hn]|Hl]; [|exists o, ev; by rewrite ch_here]. destruct (pv_owned _ _ _ P a Hi) as (o' & ev' & Hx).
    exists o', ev'. rewrite ch_there; [done|]. by intros [-> ->].
  - intros o' ev' a b. unfold ch_set. destruct (decide (o' = o /\ ev' = ev)) as [|N]; [intros Ha Hb ph; by apply Honce|]. intros Ha Hb ph Wa Wb.
    apply (pv_once _ _ _ P o' ev' a b Ha Hb ph); unfold watching in *; by rewrite <- Hsame; [|apply (Hin o' ev')|apply (Hapart o' ev')].
  - done.
  - done.
  - done.
Qed.

Lemma pinv_hub s ch own ph : pinv s ch own -> is_Some (hubs s !! ph) -> exists h, get_hub s ph = Ret h /\ hubs s !! ph = Some h /\ 0 < h_ref h.
Proof. intros P [h Hh]. exists h. unfold get_hub. rewrite Hh. split; [done|]. split; [done|]. by destruct (pv_ref _ _ _ P ph h Hh) as (_ & _ & ?). Qed.

Lemma find_item_ok s ch own o ps i ph : pinv s ch own -> pevents s !! o = Some ps -> (i < EV_MAX)%nat ->
  exists r, find_pevent_item s o i ph = Ret r /\
    (r = 0 /\ (forall a, a ∈ ch o i -> ~ watching (items s) ph a) \/ r <> 0 /\ r ∈ ch o i /\ watching (items s) ph r).
Proof.
  intros P Hps Hi. destruct (pinv_chain s ch own o ps i P Hps Hi) as (h & Hh & _ & Hc & Hl). unfold find_pevent_item. rewrite Hh. cbn [obind].
  destruct (find_loop_ok (ch o i) (walk_fuel s) s h ph Hc Hl) as (r & -> & Hr). exists r. split; [done|]. destruct Hr as [|[Hin Hw]]; [by left|right].
  split; [by apply (chain_nonzero _ _ _ _ Hc)|done].
Qed.

(** The lists of object [o] only got longer: their items are still there and name the same hubs. *)
Definition kept (s s' : pstate) (ch ch' : Z -> nat -> list Z) (o : Z) : Prop :=
  (is_Some (pevents s !! o) -> is_Some (pevents s' !! o)) /\
  forall ev a, a ∈ ch o ev -> a ∈ ch' o ev /\ forall ph, watching (items s) ph a -> watching (items s') ph a.

Lemma list_kept_refl s ch o : kept s s ch ch o.
Proof. by split. Qed.

Lemma list_kept_trans s1 s2 s3 ch1 ch2 ch3 o : kept s1 s2 ch1 ch2 o -> kept s2 s3 ch2 ch3 o -> kept s1 s3 ch1 ch3 o.
Proof.
  intros [P1 H1] [P2 H2]. split; [by auto|]. intros ev a Ha. destruct (H1 ev a Ha) as [Ha2 W2]. destruct (H2 ev a Ha2) as [Ha3 W3]. by auto.
Qed.

(** The items of other lists are untouched. *)
Lemma kept_set s s' ch o ev l : (is_Some (pevents s !! o) -> is_Some (pevents s' !! o)) -> (forall a, a ∈ ch o ev -> a ∈ l) ->
  (forall ev' a, a ∈ ch o ev' -> forall ph, watching (items s) ph a -> watching (items s') ph a) -> kept s s' ch (ch_set ch o ev l) o.
Proof.
  intros Hp Hl Hw. split; [done|]. intros ev' a Ha. split; [|by apply (Hw ev')]. unfold ch_set. destruct (decide (o = o /\ ev' = ev)) as [[_ ->]|]; [by apply Hl|done].
Qed.

Lemma kept_other s s' ch o ev l o' : o' <> o -> (is_Some (pevents s !! o') -> is_Some (pevents s' !! o')) ->
  (forall ev' a, a ∈ ch o' ev' -> items s' !! a = items s !! a) -> kept s s' ch (ch_set ch o ev l) o'.
Proof.
  intros Hne Hp Hs. split; [done|]. intros ev' a Ha. rewrite ch_there by (by intros [? _]). split; [done|]. intros ph. unfold watching. by rewrite (Hs ev' a Ha).
Qed.

(** What a step of the control loop keeps. *)
Definition same_heads (s s' : pstate) : Prop := forall o, is_Some (pevents s' !! o) <-> is_Some (pevents s !! o).

Lemma ctl_add_ok s ch own ph o i pdata mem :
  pinv s ch own -> is_Some (hubs s !! ph) -> is_Some (pevents s !! o) -> (i < EV_MAX)%nat -> (mem <> 0 -> items s !! mem = None) ->
  exists r s' ch', ctl_add s ph o i pdata mem = Ret (r, s') /\ pinv s' ch' own /\ is_Some (hubs s' !! ph) /\ same_heads s s' /\
    (forall a, items s !! a = None -> a <> mem -> items s' !! a = None) /\ (forall o', kept s s' ch ch' o') /\
    match r with None => exists a, a ∈ ch' o i /\ watching (items s') ph a | Some e => e = - ENOMEM end.
Proof.
  intros P Hub [ps Hps] Hi Hmem. unfold ctl_add. destruct (find_item_ok s ch own o ps i ph P Hps Hi) as (r & -> & Hr). cbn [obind].
  destruct Hr as [[-> Hno]|(Hr0 & Hin & Hw)].
  2:{ destruct (Z.eqb_spec r 0); [done|]. exists None, s, ch. split_and!; try done. by exists r. }
  cbn [Z.eqb negb]. destruct (Z.eqb_spec mem 0) as [|Hm0]; [exists (Some (- ENOMEM)), s, ch; split_and!; try done; intros o'; apply list_kept_refl|].
  specialize (Hmem Hm0). set (s1 := set_items s _). unfold add_new_pevent. destruct (pinv_chain s ch own o ps i P Hps Hi) as (h & Hh & Eh & Hc & _).
  assert (Hh1 : get_head s1 o i = Ret h) by done. rewrite Hh1. cbn [obind]. unfold get_item. cbn [items s1 set_items]. rewrite lookup_insert_eq. cbn [obind poller pi_data].
  rewrite insert_insert_eq. destruct (pinv_hub s ch own ph P Hub) as (hub & _ & Ehub & Hpos). subst s1. unfold hub_get, get_hub. cbn [hubs set_head set_pevents set_items].
  rewrite Ehub. cbn [obind]. destruct (Z.leb_spec 0 (h_ref hub)); [|lia]. cbn [assert obind].
  eexists None, _, (ch_set ch o i (mem :: ch o i)). split; [done|].
  assert (Hnin : mem ∉ ch o i) by (intros Hx; destruct (chain_item _ _ _ _ Hc Hx); congruence).
  assert (Hne : forall a j, items s !! a = Some j -> a <> mem) by (intros a j Ha ->; congruence).
  split; [|split; [|split; [|split; [|split]]]].
  - apply (pinv_change s _ ch own own o i); try done.
    + exists mem. split; [done|]. cbn. rewrite lookup_insert_eq. split; [done|]. split; [done|]. apply (chain_ext (items s)); [|done].
      intros a Ha. rewrite lookup_insert_ne; [done|]. by intros ->.
    + apply NoDup_cons. split; [done|apply P].
    + intros a [->|Ha]%elem_of_cons; [by right|by left].
    + cbn. intros a. rewrite lookup_insert. destruct (decide (mem = a)) as [->|]; [intros _; right; by left|]. intros Ha.
      destruct (decide (a ∈ ch o i)); [right; by right|by left].
    + cbn. intros a [j Hj] _. rewrite lookup_insert_ne; [done|]. apply not_eq_sym. by apply (Hne a j).
    + assert (Hx : forall b, b ∈ ch o i -> forall q, watching (<[mem := mk_pi ph pdata h]> (items s)) q b -> watching (items s) q b).
      { intros b Hb q (j & Hj & Eq). exists j. rewrite lookup_insert_ne in Hj; [done|]. by intros ->. }
      assert (Hm : forall q, watching (<[mem := mk_pi ph pdata h]> (items s)) q mem -> q = ph).
      { intros q (j & Hj & Eq). rewrite lookup_insert_eq in Hj. by simplify_eq. }
      cbn. intros a b q [->|Ha]%elem_of_cons [->|Hb]%elem_of_cons Wa Wb; [done| | |by apply (pv_once _ _ _ P o i a b Ha Hb q); [apply Hx|apply Hx]].
      * apply Hm in Wa as ->. by destruct (Hno b Hb); apply Hx.
      * apply Hm in Wb as ->. by destruct (Hno a Ha); apply Hx.
    + cbn. intros h' hub'. rewrite tally_insert_fresh by done. cbn. rewrite lookup_insert. destruct (decide (ph = h')) as [<-|Hne'].
      * intros [= <-]. rewrite Z.eqb_refl. destruct (pv_ref _ _ _ P ph hub Ehub) as (E & ? & ?). cbn. lia.
      * intros Hx. destruct (Z.eqb_spec ph h'); [done|]. destruct (pv_ref _ _ _ P h' hub' Hx) as (E & ? & ?). cbn. lia.
    + cbn. intros a j. rewrite !lookup_insert. destruct (decide (mem = a)) as [->|]; [intros [= <-]; cbn; by rewrite decide_True|]. intros Hj.
      destruct (decide (ph = poller j)); [by eexists|]. by apply (pv_live _ _ _ P a).
    + cbn. intros h' Hh'. rewrite lookup_insert. destruct (decide _); [by eexists|by apply P].
  - cbn. by rewrite lookup_insert_eq.
  - intros o'. cbn. destruct (decide (o' = o)) as [->|]; [rewrite lookup_alter_eq, Hps; by split; intros _; eexists|by rewrite lookup_alter_ne].
  - cbn. intros a Ha Hna. by rewrite lookup_insert_ne.
  - intros o'. assert (Hit : forall ev' a, a ∈ ch o' ev' -> a <> mem) by (intros ev' a Ha ->; by destruct (pinv_item s ch own o' ev' mem P Ha) as [? ?]; congruence).
    destruct (decide (o' = o)) as [->|Hno']; [apply kept_set|apply kept_other]; try done; cbn.
    + intros _. rewrite lookup_alter_eq, Hps. by eexists.
    + intros a Ha. by right.
    + intros ev' a Ha q. unfold watching. rewrite lookup_insert_ne; [done|]. apply not_eq_sym. by apply (Hit ev').
    + by rewrite lookup_alter_ne.
    + intros ev' a Ha. rewrite lookup_insert_ne; [done|]. apply not_eq_sym. by apply (Hit ev').
  - exists mem. rewrite ch_here. split; [by left|]. cbn. exists (mk_pi ph pdata h). by rewrite lookup_insert_eq.
Qed.

Lemma chain_data m h l a it d : m !! a = Some it -> chain m h l -> chain (<[a := mk_pi (poller it) d (pi_next it)]> m) h l.
Proof.
  intros Ha. revert h. induction l as [|b l IH]; intros h Hc; [done|]. destruct Hc as (-> & Hb & Hc). split; [done|]. split; [done|].
  rewrite lookup_insert. destruct (decide (a = b)) as [->|]; [rewrite Ha in Hc; by apply IH|]. destruct (m !! b); [by apply IH|done].
Qed.

Lemma watching_data (m : gmap Z pevent_item) a it d n q b : m !! a = Some it -> watching (<[a := mk_pi (poller it) d n]> m) q b <-> watching m q b.
Proof.
  intros Ha. unfold watching. rewrite lookup_insert. destruct (decide (a = b)) as [->|]; [|done]. rewrite Ha. split; intros (j & [= <-] & E); eauto.
Qed.

Lemma ctl_mod_ok s ch own ph o i pdata :
  pinv s ch own -> is_Some (pevents s !! o) -> (i < EV_MAX)%nat ->
  exists s', ctl_mod s ph o i pdata = Ret s' /\ pinv s' ch own /\ hubs s' = hubs s /\ pevents s' = pevents s /\ (forall a, items s' !! a = None <-> items s !! a = None) /\
    (forall ph' a, watching (items s) ph' a -> watching (items s') ph' a).
Proof.
  intros P [ps Hps] Hi. unfold ctl_mod. destruct (find_item_ok s ch own o ps i ph P Hps Hi) as (r & -> & Hr). cbn [obind].
  destruct Hr as [[-> _]|(Hr0 & Hin & (it & Hit & Ep))]; [by exists s|]. destruct (Z.eqb_spec r 0); [done|]. cbn [negb]. unfold get_item. rewrite Hit. cbn [obind].
  eexists. split; [done|]. assert (Hd : forall a, <[r := mk_pi (poller it) pdata (pi_next it)]> (items s) !! a = None <-> items s !! a = None).
  { intros a. rewrite lookup_insert. destruct (decide (r = a)) as [->|]; [by rewrite Hit|done]. }
  split; [|split_and!; try done; intros ph' a; cbn; by rewrite watching_data]. split; cbn; try apply P.
  - intros o' qs Hq. destruct (pv_heads _ _ _ P o' qs Hq) as [Hl Hh]. split; [done|]. intros ev h Hx. by apply chain_data, Hh.
  - intros a. rewrite <- !not_eq_None_Some, Hd, not_eq_None_Some. apply P.
  - intros o' ev a b Ha Hb q. rewrite !watching_data by done. by apply (pv_once _ _ _ P o' ev).
  - intros h hub Hh. rewrite (tally_insert _ _ r _ it Hit). cbn. destruct (pv_ref _ _ _ P h hub Hh). lia.
  - intros a j. rewrite lookup_insert. destruct (decide (r = a)) as [->|]; [intros [= <-]; cbn; by apply (pv_live _ _ _ P a)|apply P].
Qed.

(** Dropping the reference of an item that goes away. *)
Lemma hub_put_ok s ch own s0 x i (m' : gmap Z pevent_item) :
  pinv s ch own -> items s !! x = Some i -> hubs s0 = hubs s ->
  (forall h, tally (fun j => poller j =? h) m' = tally (fun j => poller j =? h) (items s) - Z.b2z (poller i =? h)) ->
  (forall a j, m' !! a = Some j -> is_Some (hubs s !! poller j)) ->
  exists hs', hub_put s0 (poller i) = Ret (set_hubs s0 hs') /\
    (forall h hub, hs' !! h = Some hub -> h_ref hub = own h + tally (fun j => poller j =? h) m' /\ 0 <= own h /\ 0 < h_ref hub) /\
    (forall a j, m' !! a = Some j -> is_Some (hs' !! poller j)) /\
    (forall h, 0 < own h -> is_Some (hs' !! h)).
Proof.
  intros P Hx E0 Ht Hm. destruct (pinv_hub s ch own (poller i) P (pv_live _ _ _ P x i Hx)) as (hub & _ & Eh & Hpos).
  unfold hub_put, get_hub. rewrite E0, Eh. cbn [obind]. destruct (Z.ltb_spec 0 (h_ref hub)); [|lia]. cbn [assert obind].
  destruct (pv_ref _ _ _ P _ _ Eh) as (Er & Ho & _). pose proof (tally_pos (fun j => poller j =? poller i) (items s) x i Hx (Z.eqb_refl _)) as Htp.
  pose proof (Ht (poller i)) as Hti. rewrite Z.eqb_refl in Hti. cbn in Hti.
  assert (Hoth : forall h hub', h <> poller i -> hubs s !! h = Some hub' -> h_ref hub' = own h + tally (fun j => poller j =? h) m' /\ 0 <= own h /\ 0 < h_ref hub').
  { intros h hub' Hne Hh. rewrite Ht. destruct (Z.eqb_spec (poller i) h); [congruence|]. cbn. destruct (pv_ref _ _ _ P h hub' Hh). lia. }
  destruct (Z.eqb_spec (h_ref hub) 1).
  - exists (delete (poller i) (hubs s)). split; [done|]. split; [|split].
    + intros h hub' [Hne Hh]%lookup_delete_Some. by apply Hoth.
    + intros a j Hj. destruct (decide (poller j = poller i)) as [E|]; [|rewrite lookup_delete_ne by done; by apply (Hm a)].
      pose proof (tally_pos (fun j => poller j =? poller i) m' a j Hj ltac:(cbn; by rewrite E, Z.eqb_refl)). lia.
    + intros h Hown. destruct (decide (h = poller i)) as [->|]; [lia|]. rewrite lookup_delete_ne by done. by apply P.
  - eexists. split; [done|]. split; [|split].
    + intros h hub'. rewrite lookup_insert. destruct (decide (poller i = h)) as [<-|]; [intros [= <-]; cbn; lia|]. intros Hh. by apply Hoth.
    + intros a j Hj. rewrite lookup_insert. destruct (decide _); [by eexists|]. by apply (Hm a).
    + intros h Hown. rewrite lookup_insert. destruct (decide _); [by eexists|by apply P].
Qed.

Lemma chain_split m h k1 x k2 i : chain m h (k1 ++ x :: k2) -> m !! x = Some i -> chain m (pi_next i) k2.
Proof.
  intros Hc Hi. revert h Hc. induction k1 as [|b k1 IH]; intros h Hc; cbn in Hc.
  - destruct Hc as (_ & _ & Hc). by rewrite Hi in Hc.
  - destruct Hc as (_ & _ & Hc). destruct (m !! b) as [j|]; [|done]. by apply (IH (pi_next j)).
Qed.

Lemma chain_unlink m h k1 x k2 i p t : chain m h (k1 ++ x :: k2) -> NoDup (k1 ++ x :: k2) -> last k1 = Some p -> m !! p = Some t -> m !! x = Some i ->
  chain (<[p := mk_pi (poller t) (pi_data t) (pi_next i)]> m) h (k1 ++ k2).
Proof.
  intros Hc Hnd Hl Ht Hi. revert h Hc Hnd Hl. induction k1 as [|b k1 IH]; intros h Hc Hnd Hl; [done|]. cbn in Hc, Hnd. destruct Hc as (-> & Hb & Hc).
  apply NoDup_cons in Hnd as [Hnin Hnd]. cbn. split; [done|]. split; [done|]. rewrite last_cons in Hl. destruct (last k1) as [q|] eqn:Hq.
  - injection Hl as ->. rewrite lookup_insert_ne by (intros ->; apply Hnin, elem_of_app; left; by apply last_Some_elem_of).
    destruct (m !! b); [|done]. by apply IH.
  - injection Hl as ->. apply last_None in Hq as ->. rewrite lookup_insert_eq. cbn in *. rewrite Ht in Hc. destruct Hc as (_ & _ & Hc). rewrite Hi in Hc.
    apply (chain_ext m); [|done]. intros a Ha. rewrite lookup_insert_ne; [done|]. intros ->. apply Hnin. by right.
Qed.

Lemma head_same s o (ps : list Z) ev h : pevents s !! o = Some ps -> ps !! ev = Some h -> alter (fun ps => <[ev := h]> ps) o (pevents s) = pevents s.
Proof.
  intros Hps Hh. apply map_eq. intros o'. destruct (decide (o' = o)) as [->|]; [|by rewrite lookup_alter_ne].
  rewrite lookup_alter_eq, Hps. cbn. by rewrite list_insert_id.
Qed.

Lemma unlink_once (l k1 k2 : list Z) x : l = k1 ++ x :: k2 -> NoDup l -> NoDup (k1 ++ k2) /\ (x ∉ k1 ++ k2) /\ (forall a, a ∈ l <-> a = x \/ a ∈ k1 ++ k2).
Proof.
  intros -> Hnd. apply NoDup_app in Hnd as (H1 & H2 & H3). apply NoDup_cons in H3 as [H4 H3]. split; [|split].
  - apply NoDup_app. split; [done|]. split; [|done]. intros a Ha Hb. apply (H2 a Ha). by right.
  - rewrite elem_of_app. intros [Hx|Hx]; [|done]. apply (H2 x Hx). by left.
  - intros a. rewrite !elem_of_app, elem_of_cons. tauto.
Qed.

(** After the removal of [x] from its list: the tables, and the item itself still in place. *)
Lemma find_and_del_ok s ch own o ps i ph : pinv s ch own -> pevents s !! o = Some ps -> (i < EV_MAX)%nat ->
  exists x s1, find_and_del_pevent_item s o i ph = Ret (x, s1) /\ hubs s1 = hubs s /\
    (x = 0 /\ s1 = s /\ (forall a, a ∈ ch o i -> ~ watching (items s) ph a) \/
     x <> 0 /\ exists l' it h', items s !! x = Some it /\ poller it = ph /\ items s1 !! x = Some it /\ x ∈ ch o i /\ NoDup l' /\ (x ∉ l') /\
       (forall a, a ∈ ch o i <-> a = x \/ a ∈ l') /\ pevents s1 = alter (fun ps => <[i := h']> ps) o (pevents s) /\ chain (items s1) h' l' /\
       (forall a, a ∉ ch o i -> items s1 !! a = items s !! a) /\
       (forall a b, watching (items s1) a b <-> watching (items s) a b) /\ (forall a, items s1 !! a = None <-> items s !! a = None) /\
       (forall h, tally (fun j => poller j =? h) (items s1) = tally (fun j => poller j =? h) (items s))).
Proof.
  intros P Hps Hi. destruct (pinv_chain s ch own o ps i P Hps Hi) as (h & Hh & Eh & Hc & Hl). unfold find_and_del_pevent_item. rewrite Hh. cbn [obind].
  destruct (del_loop_ok (ch o i) (walk_fuel s) s o i 0 h ph Hc (pv_nodup _ _ _ P o i) Hl) as (x & s1 & -> & Hr); [done|]. exists x, s1. split; [done|].
  destruct Hr as [(-> & -> & Hno)|(k1 & k2 & it & El & Hx0 & Hit & Hp & Hs)]; [split; [done|by left]|].
  destruct (unlink_once (ch o i) k1 k2 x El (pv_nodup _ _ _ P o i)) as (Hnd & Hnin & Hmem). assert (Hxin : x ∈ ch o i) by (apply Hmem; by left).
  destruct (last k1) as [p|] eqn:Hlast.
  - destruct Hs as (t & Ht & ->). split; [done|]. right. split; [done|]. exists (k1 ++ k2), it, h.
    assert (Hpin : p ∈ k1) by (by apply last_Some_elem_of). assert (Hpx : p <> x) by (intros ->; apply Hnin, elem_of_app; by left).
    cbn [items set_items pevents]. split; [done|]. split; [done|]. split; [by rewrite lookup_insert_ne|]. split; [done|]. split; [done|]. split; [done|]. split; [done|].
    split; [symmetry; by apply (head_same s o ps)|]. split; [rewrite El in Hc; apply (chain_unlink (items s) h k1 x k2 it p t); try done; rewrite <- El; apply P|].
    split; [intros a Ha; rewrite lookup_insert_ne; [done|]; intros ->; apply Ha, Hmem; right; apply elem_of_app; by left|].
    split; [intros a b; by apply watching_data|]. split; [|intros h'; rewrite (tally_insert _ _ p _ t Ht); cbn; lia].
    intros a. rewrite lookup_insert. destruct (decide (p = a)) as [->|]; [by rewrite Ht|done].
  - apply last_None in Hlast as ->. cbn [Z.eqb] in Hs. subst s1. split; [done|]. right. split; [done|]. exists k2, it, (pi_next it). cbn in *.
    split_and!; try done. rewrite El in Hc. by apply (chain_split (items s) h [] x k2).
Qed.

Lemma ctl_del_ok s ch own ph o i :
  pinv s ch own -> is_Some (pevents s !! o) -> (i < EV_MAX)%nat -> is_Some (hubs s !! ph) -> 0 < own ph ->
  exists s' ch', ctl_del s ph o i = Ret s' /\ pinv s' ch' own /\ is_Some (hubs s' !! ph) /\ same_heads s s' /\
    (forall a, items s !! a = None -> items s' !! a = None) /\ (forall o', o' <> o -> kept s s' ch ch' o') /\ (forall a, a ∈ ch' o i -> ~ watching (items s') ph a).
Proof.
  intros P [ps Hps] Hi Hub Hown. unfold ctl_del. destruct (find_and_del_ok s ch own o ps i ph P Hps Hi) as (x & s1 & -> & Ehub & Hr). cbn [obind].
  destruct Hr as [(-> & -> & Hno)|(Hx0 & l' & it & h' & Hit & Hp & Hit1 & Hxin & Hnd & Hnin & Hmem & Ep & Hc & Hsame & Hwat & Hdom & Htal)].
  { exists s, ch. by split_and!. }
  destruct (Z.eqb_spec x 0); [done|]. cbn [negb]. rewrite <- Hp.
  destruct (hub_put_ok s ch own s1 x it (delete x (items s1)) P Hit Ehub) as (hs' & -> & Href & Hlive & Hkeep).
  { intros h. rewrite (tally_delete _ _ x it Hit1), Htal. done. }
  { intros a j [_ Hj]%lookup_delete_Some. destruct (proj1 (Hwat (poller j) a)) as (j' & Hj' & <-); [by exists j|]. by apply (pv_live _ _ _ P a). }
  cbn [obind]. eexists _, (ch_set ch o i l'). split; [done|]. split; [|split; [|split; [|split; [|split]]]].
  - apply (pinv_change s _ ch own own o i); cbn; try done.
    + exists h'. split; [done|]. apply (chain_ext (items s1)); [|done]. intros a Ha. rewrite lookup_delete_ne; [done|]. by intros ->.
    + intros a Ha. left. apply Hmem. by right.
    + intros a [j [Hne Hj]%lookup_delete_Some]. destruct (decide (a ∈ ch o i)) as [Ha|Ha]; [right; apply Hmem in Ha as [->|]; done|]. left. split; [|done].
      rewrite <- not_eq_None_Some, <- Hdom. congruence.
    + intros a _ Ha. rewrite lookup_delete_ne by (by intros ->). by apply Hsame.
    + intros a b q Ha Hb Wa Wb. apply (pv_once _ _ _ P o i a b) with (ph := q); try (apply Hmem; by right); apply Hwat; [destruct Wa as (j & [_ ?]%lookup_delete_Some & ?)|destruct Wb as (j & [_ ?]%lookup_delete_Some & ?)]; by exists j.
  - apply Hkeep. by rewrite Hp.
  - intros o'. cbn. rewrite Ep. destruct (decide (o' = o)) as [->|]; [rewrite lookup_alter_eq, Hps; by split; intros _; eexists|by rewrite lookup_alter_ne].
  - cbn. intros a Ha. apply Hdom in Ha. destruct (decide (a = x)) as [->|]; [apply lookup_delete_eq|by rewrite lookup_delete_ne].
  - intros o' Hne. apply kept_other; [done| |]; cbn; [rewrite Ep; by rewrite lookup_alter_ne|]. intros ev' a Ha.
    assert (Hna : a ∉ ch o i) by (intros Hx; apply Hne; by apply (pv_apart _ _ _ P o' ev' o i a)). rewrite lookup_delete_ne by (by intros ->). by apply Hsame.
  - cbn. intros a. rewrite ch_here. intros Ha (j & [Hne Hj]%lookup_delete_Some & Ej). apply Hne. symmetry.
    apply (pv_once _ _ _ P o i a x ltac:(apply Hmem; by right) Hxin (poller it)); [apply Hwat; exists j; split; [done|congruence]|by exists it].
Qed.

(** Fresh addresses for the rest of the loop. *)
Definition mem_ok (s : pstate) (mem : nat -> Z) (from : nat) : Prop :=
  (forall i, (from <= i < EV_MAX)%nat -> mem i <> 0 -> items s !! mem i = None) /\
  (forall i j, (i < EV_MAX)%nat -> (j < EV_MAX)%nat -> mem i <> 0 -> mem i = mem j -> i = j).

Lemma ctl_loop_ok n : forall s ch own ph o op events pdata mem ret, (n <= EV_MAX)%nat ->
  pinv s ch own -> is_Some (hubs s !! ph) -> 0 < own ph -> is_Some (pevents s !! o) -> mem_ok s mem (EV_MAX - n) ->
  exists ret' s' ch', ctl_loop n s ph o op events pdata mem ret = Ret (ret', s') /\ pinv s' ch' own /\ (ret' = ret \/ ret' = - ENOMEM) /\
    (forall o', op <> KOBJ_POLL_OP_DEL \/ o' <> o -> kept s s' ch ch' o').
Proof.
  induction n as [|n IH]; intros s ch own ph o op events pdata mem ret Hn P Hub Hown Hps [Hm1 Hm2]; [exists ret, s, ch; by split_and!; [| |left|intros; apply list_kept_refl]|].
  cbn [ctl_loop]. assert (Hi : (EV_MAX - S n < EV_MAX)%nat) by lia. set (i := (EV_MAX - S n)%nat) in *. assert (Hi' : (EV_MAX - n)%nat = S i) by lia.
  assert (Hskip : mem_ok s mem (EV_MAX - n)) by (split; [|done]; intros j Hj; apply Hm1; lia).
  assert (Hnext : forall s1 ch1, pinv s1 ch1 own -> is_Some (hubs s1 !! ph) -> is_Some (pevents s1 !! o) ->
    (forall a, items s !! a = None -> a <> mem i -> items s1 !! a = None) -> (forall o', op <> KOBJ_POLL_OP_DEL \/ o' <> o -> kept s s1 ch ch1 o') ->
    exists ret' s' ch', ctl_loop n s1 ph o op events pdata mem ret = Ret (ret', s') /\ pinv s' ch' own /\ (ret' = ret \/ ret' = - ENOMEM) /\
      (forall o', op <> KOBJ_POLL_OP_DEL \/ o' <> o -> kept s s' ch ch' o')).
  { intros s1 ch1 P1 Hub1 Hps1 Hfr Hk. destruct (IH s1 ch1 own ph o op events pdata mem ret) as (ret' & s' & ch' & E & P' & Hr & Hk'); try done; [lia| |].
    - rewrite Hi'. split; [|done]. intros j Hj Hj0. apply Hfr; [apply Hm1; [lia|done]|]. intros E. assert (j = i) by (apply Hm2; [lia|lia|done|done]). lia.
    - exists ret', s', ch'. split_and!; try done. intros o' Ho'. eapply list_kept_trans; [by apply Hk|by apply Hk']. }
  destruct (_ =? 0); [apply (Hnext s ch); try done; intros; apply list_kept_refl|]. destruct (op =? KOBJ_POLL_OP_ADD); [|destruct (op =? KOBJ_POLL_OP_MOD); [|destruct (Z.eqb_spec op KOBJ_POLL_OP_DEL) as [->|Hnd]]].
  - destruct (ctl_add_ok s ch own ph o i pdata (mem i) P Hub Hps Hi (Hm1 i ltac:(lia))) as (r & s1 & ch1 & -> & P1 & Hub1 & Hh1 & Hfr & Hk & Hr). cbn [obind].
    destruct r as [err|]; [subst err; exists (- ENOMEM), s1, ch1; by split_and!; [| |right|intros; apply Hk]|]. apply (Hnext s1 ch1); try done. by apply Hh1.
  - destruct (ctl_mod_ok s ch own ph o i pdata P Hps Hi) as (s1 & -> & P1 & E1 & E2 & Hd & Hw). cbn [obind]. apply (Hnext s1 ch); try done; [by rewrite E1|by rewrite E2| |].
    + intros a Ha _. by apply Hd.
    + intros o' _. split; [by rewrite E2|]. intros ev a Ha. split; [done|]. intros ph'. apply Hw.
  - destruct (ctl_del_ok s ch own ph o i P Hps Hi Hub Hown) as (s1 & ch1 & -> & P1 & Hub1 & Hh1 & Hfr & Hk & _). cbn [obind].
    apply (Hnext s1 ch1); try done; [by apply Hh1|intros a Ha _; by apply Hfr|]. intros o' [?|Hne]; [done|by apply Hk].
  - by apply (Hnext s ch).
Qed.

Lemma pinv_new_object s ch own o : pinv s ch own -> pevents s !! o = None -> pinv (set_pevents s (<[o := replicate EV_MAX 0]> (pevents s))) ch own.
Proof.
  intros P Ho. split; cbn [items hubs pevents set_pevents]; try apply P.
  - intros o' ps. rewrite lookup_insert. destruct (decide (o = o')) as [<-|]; [|apply P]. intros Hx%(inj Some). subst ps. split; [by rewrite length_replicate|].
    intros ev h [-> _]%lookup_replicate. by rewrite (pv_none _ _ _ P) by (by left).
  - intros o' ev [Hx|Hx]; [|apply P; by right]. apply P. left. rewrite lookup_insert in Hx. by destruct (decide (o = o')).
Qed.

Lemma poll_hub_ctl_ok s ch own ph o op events pdata room mem :
  pinv s ch own -> is_Some (hubs s !! ph) -> 0 < own ph -> mem_ok s mem 0 ->
  exists ret s' ch', __poll_hub_ctl s ph o op events pdata room mem = Ret (ret, s') /\ pinv s' ch' own /\ (ret = 0 \/ ret = - ENOMEM) /\
    (forall o', op <> KOBJ_POLL_OP_DEL \/ o' <> o -> kept s s' ch ch' o').
Proof.
  intros P Hub Hown Hm. unfold __poll_hub_ctl. destruct (pevents s !! o) as [ps|] eqn:Hps.
  - by apply (ctl_loop_ok EV_MAX s ch).
  - destruct room; [|exists (- ENOMEM), s, ch; by split_and!; [| |right|intros; apply list_kept_refl]].
    destruct (ctl_loop_ok EV_MAX (set_pevents s (<[o := replicate EV_MAX 0]> (pevents s))) ch own ph o op events pdata mem 0) as (ret & s' & ch' & E & P' & Hr & Hk);
      try done; [by apply pinv_new_object|cbn; by rewrite lookup_insert_eq|].
    exists ret, s', ch'. split_and!; try done. intros o' Ho'. eapply list_kept_trans; [|by apply Hk]. split; [|done]. intros [qs Hq]. cbn.
    rewrite lookup_insert_ne; [by exists qs|]. intros ->. congruence.
Qed.

(** ** Release *)

Lemma release_items_ok l : forall fuel s pv ch own o ps ev h, pinv (set_pevents s pv) ch own -> pv !! o = Some ps -> (ev < EV_MAX)%nat ->
  ps !! ev = Some h -> ch o ev = l -> (length l <= fuel)%nat ->
  exists s' pv' ch', release_items fuel s h = Ret s' /\ pevents s' = pevents s /\ pinv (set_pevents s' pv') ch' own /\
    (exists h', pv' = alter (fun ps => <[ev := h']> ps) o pv) /\ ch' o ev = [] /\ (forall ev', ev' <> ev -> ch' o ev' = ch o ev') /\
    (forall o', o' <> o -> kept s s' ch ch' o').
Proof.
  induction l as [|b l IH]; intros fuel s pv ch own o ps ev h P Hps Hev Hh Hl Hf.
  - destruct (pv_heads _ _ _ P o ps Hps) as [_ Hc]. specialize (Hc ev h Hh). rewrite Hl in Hc. cbn in Hc. subst h. exists s, pv, ch. split; [by destruct fuel|].
    split; [done|]. split; [done|]. split; [exists 0; symmetry; by apply (head_same (set_pevents s pv) o ps)|]. by split_and!.
  - destruct (pv_heads _ _ _ P o ps Hps) as [Hlen Hc]. specialize (Hc ev h Hh). rewrite Hl in Hc. destruct Hc as (-> & Hb & Hc). cbn in Hc.
    destruct (items s !! b) as [i|] eqn:Hi; [|done]. destruct fuel as [|fuel]; [cbn in Hf; lia|]. cbn [release_items]. destruct (Z.eqb_spec b 0); [done|].
    unfold get_item. rewrite Hi. cbn [obind].
    destruct (hub_put_ok (set_pevents s pv) ch own (set_items s (delete b (items s))) b i (delete b (items s)) P Hi eq_refl) as (hs' & -> & Href & Hlive & Hkeep).
    { intros h. by rewrite (tally_delete _ _ b i Hi). }
    { intros a j [_ Hj]%lookup_delete_Some. by apply (pv_live _ _ _ P a). }
    cbn [obind]. pose proof (pv_nodup _ _ _ P o ev) as Hnd. rewrite Hl in Hnd. apply NoDup_cons in Hnd as [Hnin Hnd].
    set (pv1 := alter (fun ps => <[ev := pi_next i]> ps) o pv). set (s1 := set_hubs _ _).
    assert (P1 : pinv (set_pevents s1 pv1) (ch_set ch o ev l) own).
    { apply (pinv_change (set_pevents s pv) _ ch own own o ev); cbn; try done; rewrite ?Hl.
      - exists (pi_next i). split; [done|]. apply (chain_ext (items s)); [|done]. intros a Ha. rewrite lookup_delete_ne; [done|]. by intros ->.
      - intros a Ha. left. by right.
      - intros a [j [Hne Hj]%lookup_delete_Some]. destruct (decide (a ∈ b :: l)) as [[->|?]%elem_of_cons|]; [done|by right|left]. split; [by exists j|done].
      - intros a _ Ha. rewrite lookup_delete_ne; [done|]. intros ->. apply Ha. by left.
      - intros a c q Ha Hc' (j & [_ ?]%lookup_delete_Some & ?) (j' & [_ ?]%lookup_delete_Some & ?).
        apply (pv_once _ _ _ P o ev a c) with (ph := q); [rewrite Hl; by right|rewrite Hl; by right|by exists j|by exists j']. }
    destruct (IH fuel s1 pv1 (ch_set ch o ev l) own o (<[ev := pi_next i]> ps) ev (pi_next i) P1) as (s' & pv' & ch' & -> & Ep & P' & (h' & Epv) & Hnil & Hoth & Hk);
      [unfold pv1; by rewrite lookup_alter_eq, Hps|done|rewrite list_lookup_insert_eq by lia; done|apply ch_here|cbn in Hf; lia|].
    exists s', pv', ch'. split; [done|]. split; [done|]. split; [done|]. split; [|split; [done|split; [intros ev' Hne; rewrite Hoth by done; by apply ch_there; intros [_ ?]|]]].
    2:{ intros o' Hne. eapply list_kept_trans; [|by apply Hk]. apply kept_other; [done|done|]. cbn. intros ev' a Ha. rewrite lookup_delete_ne; [done|]. intros ->.
        apply Hne. apply (pv_apart _ _ _ P o' ev' o ev a Ha). rewrite Hl. by left. }
    exists h'. subst pv' pv1. apply map_eq. intros o'. destruct (decide (o' = o)) as [->|]; [|by rewrite !lookup_alter_ne].
    rewrite !lookup_alter_eq, Hps. cbn. by rewrite list_insert_insert_eq.
Qed.

Lemma release_heads_ok l : forall s pv ch own o ps k, pinv (set_pevents s pv) ch own -> pv !! o = Some ps ->
  (forall j h, l !! j = Some h -> ps !! (k + j)%nat = Some h) -> (k + length l = EV_MAX)%nat -> (forall ev, (ev < k)%nat -> ch o ev = []) ->
  exists s' pv' ch', release_heads l s = Ret s' /\ pevents s' = pevents s /\ pinv (set_pevents s' pv') ch' own /\
    (forall o', o' <> o -> pv' !! o' = pv !! o') /\ (forall ev, ch' o ev = []) /\ (forall o', o' <> o -> kept s s' ch ch' o').
Proof.
  induction l as [|h l IH]; intros s pv ch own o ps k P Hps Hl Hk Hnil.
  - exists s, pv, ch. split_and!; try done. intros ev. destruct (decide (ev < k)%nat); [by apply Hnil|]. apply P. right. cbn in Hk. lia.
  - cbn [release_heads]. cbn in Hk. pose proof (Hl 0%nat h eq_refl) as Hh. rewrite Nat.add_0_r in Hh.
    destruct (pinv_chain (set_pevents s pv) ch own o ps k P Hps ltac:(lia)) as (_ & _ & _ & _ & Hf).
    destruct (release_items_ok (ch o k) (walk_fuel s) s pv ch own o ps k h P Hps ltac:(lia) Hh eq_refl Hf)
      as (s1 & pv1 & ch1 & -> & Ep & P1 & (h' & Epv) & Hk0 & Hoth & Hkept). cbn [obind].
    destruct (IH s1 pv1 ch1 own o (<[k := h']> ps) (S k) P1) as (s' & pv' & ch' & -> & Ep' & P' & Hpv & Hall & Hkept').
    + rewrite Epv, lookup_alter_eq, Hps. done.
    + intros j h0 Hj. rewrite list_lookup_insert_ne by lia. replace (S k + j)%nat with (k + S j)%nat by lia. by apply Hl.
    + lia.
    + intros ev Hev. destruct (decide (ev = k)) as [->|]; [done|]. rewrite Hoth by done. apply Hnil. lia.
    + exists s', pv', ch'. split; [done|]. split; [congruence|]. split; [done|]. split; [|split; [done|intros o' Hne; eapply list_kept_trans; [by apply Hkept|by apply Hkept']]].
      intros o' Ho. rewrite Hpv by done. subst pv1. by rewrite lookup_alter_ne.
Qed.

Lemma release_poll_struct_ok s ch own o : pinv s ch own ->
  exists s' ch', release_poll_struct s o = Ret s' /\ pinv s' ch' own /\ pevents s' !! o = None /\ (forall o', o' <> o -> pevents s' !! o' = pevents s !! o') /\
    (forall o', o' <> o -> kept s s' ch ch' o').
Proof.
  intros P. unfold release_poll_struct. destruct (pevents s !! o) as [ps|] eqn:Hps; [|exists s, ch; split_and!; try done; intros; apply list_kept_refl].
  assert (P0 : pinv (set_pevents s (pevents s)) ch own) by (by destruct s).
  destruct (pv_heads _ _ _ P o ps Hps) as [Hlen _].
  destruct (release_heads_ok ps s (pevents s) ch own o ps 0 P0 Hps) as (s1 & pv' & ch' & -> & Ep & P1 & Hpv & Hnil & Hk); [done|done|intros; lia|].
  cbn [obind]. eexists _, ch'. split; [done|]. split; [|split; [cbn; apply lookup_delete_eq|split; [intros o' Ho; cbn; rewrite lookup_delete_ne by done; by rewrite Ep|]]].
  2:{ intros o' Ho. eapply list_kept_trans; [by apply Hk|]. split; [|done]. cbn. by rewrite lookup_delete_ne. }
  split; cbn; try apply P1.
  - intros o' qs [Hne Hq]%lookup_delete_Some. apply (pv_heads _ _ _ P1 o' qs). cbn. rewrite Hpv by done. by rewrite Ep in Hq.
  - intros o' ev Hx. destruct (decide (o' = o)) as [->|Hne]; [apply Hnil|]. apply P1. cbn. rewrite Hpv by done.
    rewrite lookup_delete_ne, Ep in Hx by done. done.
Qed.

(** ** Delivery *)

(** The event for an item. *)
Definition event_of (ev : nat) (type d0 d1 d2 : Z) (i : pevent_item) : poll_event := mk_pe (Z.shiftl 1 (Z.of_nat ev)) (pi_data i) type d0 d1 d2.

(** What the items of a list deliver to hub [h]. *)
Definition delivered (m : gmap Z pevent_item) (h : Z) (e : pevent_item -> poll_event) (l : list Z) : list poll_event :=
  omap (fun a => match m !! a with Some i => if poller i =? h then Some (e i) else None | None => None end) l.

(** Hubs change by deliveries only. *)
Definition grows (s s' : pstate) (d : Z -> list poll_event) : Prop :=
  items s' = items s /\ pevents s' = pevents s /\
  forall h, match hubs s !! h with
            | Some hub => exists hub', hubs s' !! h = Some hub' /\ h_ref hub' = h_ref hub /\ event_list hub' = event_list hub ++ d h
            | None => hubs s' !! h = None
            end.

Lemma pinv_set_hub s ch own h hub hub' : pinv s ch own -> hubs s !! h = Some hub -> h_ref hub' = h_ref hub -> pinv (set_hubs s (<[h := hub']> (hubs s))) ch own.
Proof.
  intros P Eh Er. split; cbn; try apply P.
  - intros h' hub0. rewrite lookup_insert. destruct (decide (h = h')) as [<-|]; [intros [= <-]; rewrite Er; by apply (pv_ref _ _ _ P)|apply P].
  - intros b j Hj. rewrite lookup_insert. destruct (decide _); [by eexists|by apply (pv_live _ _ _ P b)].
  - intros h' Hh. rewrite lookup_insert. destruct (decide _); [by eexists|by apply P].
Qed.

Lemma send_static_ok s ch own a i e : pinv s ch own -> items s !! a = Some i ->
  exists r s', poll_event_send_static s a e = Ret (r, s') /\ pinv s' ch own /\ grows s s' (fun h => if poller i =? h then [e] else []).
Proof.
  intros P Ha. unfold poll_event_send_static, get_item. rewrite Ha. cbn [obind].
  destruct (pinv_hub s ch own (poller i) P (pv_live _ _ _ P a i Ha)) as (hub & -> & Eh & _). cbn [obind].
  destruct (hub_wake _) as [r hub'] eqn:Ew. eexists r, _. split; [done|].
  assert (Hw : h_ref hub' = h_ref hub /\ event_list hub' = event_list hub ++ [e]) by (unfold hub_wake, hub_push in Ew; cbn in Ew; destruct (h_wait hub); by simplify_eq).
  destruct Hw as [Er El]. split; [by apply (pinv_set_hub s ch own _ hub)|].
  split; [done|]. split; [done|]. intros h. cbn. rewrite lookup_insert. destruct (decide (poller i = h)) as [<-|Hne].
  - rewrite Eh, Z.eqb_refl. by exists hub'.
  - destruct (Z.eqb_spec (poller i) h); [done|]. destruct (hubs s !! h) as [hub0|]; [|done]. exists hub0. by rewrite app_nil_r.
Qed.

Lemma delivery_refl s d : (forall h, d h = []) -> grows s s d.
Proof. intros Hd. split; [done|]. split; [done|]. intros h. rewrite Hd. destruct (hubs s !! h) as [hub|]; [|done]. exists hub. by rewrite app_nil_r. Qed.

Lemma delivery_trans s s1 s2 d1 d2 d : grows s s1 d1 -> grows s1 s2 d2 -> (forall h, d h = d1 h ++ d2 h) -> grows s s2 d.
Proof.
  intros (Ei & Ep & Hg) (Ei' & Ep' & Hg') Hd. split; [congruence|]. split; [congruence|]. intros h. specialize (Hg h). specialize (Hg' h). rewrite Hd.
  destruct (hubs s !! h) as [hub|]; [|by rewrite Hg in Hg']. destruct Hg as (hub1 & E1 & Er1 & El1). rewrite E1 in Hg'. destruct Hg' as (hub2 & E2 & Er2 & El2).
  exists hub2. split; [done|]. split; [congruence|]. by rewrite El2, El1, <- app_assoc.
Qed.

(** The items served are all of the list, or those before an allocation that fails. *)
Definition served (mem : nat -> bool) (k : nat) (l : list Z) (n : nat) (r : Z) : Prop :=
  (n <= length l)%nat /\ (forall j, (j < n)%nat -> mem (k + j)%nat = true) /\ (n = length l \/ mem (k + n)%nat = false /\ r = - ENOMEM).

Lemma send_loop_ok l : forall fuel s ch own h ev type d0 d1 d2 mem k ret,
  pinv s ch own -> chain (items s) h l -> (length l <= fuel)%nat ->
  exists r s' n, send_loop fuel s h ev type d0 d1 d2 mem k ret = Ret (r, s') /\ pinv s' ch own /\
    grows s s' (fun hb => delivered (items s) hb (event_of ev type d0 d1 d2) (take n l)) /\ served mem k l n r.
Proof.
  induction l as [|b l IH]; intros fuel s ch own h ev type d0 d1 d2 mem k ret P Hc Hf.
  - cbn in Hc. subst h. exists ret, s, 0%nat. split; [by destruct fuel|]. split; [done|]. split; [by apply delivery_refl|]. split_and!; [done|intros j Hj; lia|by left].
  - destruct Hc as (-> & Hb & Hc). destruct (items s !! b) as [i|] eqn:Hi; [|done]. destruct fuel as [|fuel]; [cbn in Hf; lia|].
    cbn [send_loop]. destruct (Z.eqb_spec b 0); [done|]. destruct (mem k) eqn:Hk; cbn [negb].
    2:{ exists (- ENOMEM), s, 0%nat. split; [done|]. split; [done|]. split; [by apply delivery_refl|]. split_and!; [cbn; lia|intros j Hj; lia|right]. by rewrite Nat.add_0_r. }
    unfold get_item. rewrite Hi. cbn [obind].
    destruct (send_static_ok s ch own b i (event_of ev type d0 d1 d2 i) P Hi) as (r & s1 & Es & P1 & Hg). unfold event_of in Es. rewrite Es. cbn [obind].
    pose proof Hg as (Ei & _ & _).
    destruct (IH fuel s1 ch own (pi_next i) ev type d0 d1 d2 mem (S k) (ret + r) P1) as (r' & s' & n' & -> & P' & Hg' & (S1 & S2 & S3)); [by rewrite Ei|cbn in Hf; lia|].
    exists r', s', (S n'). split; [done|]. split; [done|]. split.
    + apply (delivery_trans _ _ _ _ _ _ Hg Hg'). intros h. rewrite Ei. unfold delivered. cbn. rewrite Hi. by destruct (poller i =? h).
    + split_and!; [cbn; lia| |].
      * intros [|j] Hj; [by rewrite Nat.add_0_r|]. replace (k + S j)%nat with (S k + j)%nat by lia. apply S2. lia.
      * destruct S3 as [->|S3]; [by left|right]. by replace (k + S n')%nat with (S k + n')%nat by lia.
Qed.

Lemma delivered_none m h e l : (forall a, a ∈ l -> ~ watching m h a) -> delivered m h e l = [].
Proof.
  intros Hn. unfold delivered. induction l as [|b l IH]; [done|]. cbn. rewrite IH by (intros a Ha; apply Hn; by right).
  destruct (m !! b) as [i|] eqn:Hb; [|done]. destruct (Z.eqb_spec (poller i) h); [|done]. exfalso. apply (Hn b); [by left|by exists i].
Qed.

Lemma delivered_one m h e l a i : NoDup l -> a ∈ l -> m !! a = Some i -> poller i = h -> (forall b, b ∈ l -> watching m h b -> b = a) -> delivered m h e l = [e i].
Proof.
  intros Hnd (k1 & k2 & ->)%list_elem_of_split Ha Hp Hone. apply NoDup_app in Hnd as (_ & Hd & [Hn2 _]%NoDup_cons).
  unfold delivered. rewrite omap_app. cbn. rewrite Ha, Hp, Z.eqb_refl. fold (delivered m h e k1) (delivered m h e k2). rewrite !delivered_none; [done| |].
  - intros b Hb Hw. apply Hn2. rewrite <- (Hone b); [done| |done]. apply elem_of_app. right. by right.
  - intros b Hb Hw. apply (Hd a); [|by left]. rewrite <- (Hone b); [done| |done]. apply elem_of_app. by left.
Qed.

Lemma send_run_done n s w : w_at w = WDone -> send_run n s w = Ret (s, w).
Proof. intros Ew. induction n as [|n IH]; [done|]. cbn [send_run]. unfold send_step. by rewrite Ew. Qed.

(** One round of the loop is four accesses. *)
Lemma send_round n s w b i hub r hub' : w_at w = WItem b -> b <> 0 -> w_mem w (w_k w) = true -> items s !! b = Some i -> hubs s !! poller i = Some hub ->
  hub_wake (hub_push hub (w_make w i)) = (r, hub') ->
  send_run (S (S (S (S n)))) s w =
    send_run n (set_hubs s (<[poller i := hub']> (hubs s))) (mk_walk (w_obj w) (w_ev w) (w_make w) (w_mem w) (S (w_k w)) (w_ret w + r) (WItem (pi_next i))).
Proof.
  intros Ew Hb Hk Hi Hh Hr. assert (Hi' : forall hs, get_item (set_hubs s hs) b = Ret i) by (intros hs; unfold get_item; cbn; by rewrite Hi).
  assert (E1 : send_step s w = Ret (s, walk_to w (WPush b (w_make w i)))).
  { unfold send_step. rewrite Ew, (proj2 (Z.eqb_neq _ _) Hb), Hk. cbn [negb]. unfold get_item. by rewrite Hi. }
  assert (E2 : send_step s (walk_to w (WPush b (w_make w i))) = Ret (set_hubs s (<[poller i := hub_push hub (w_make w i)]> (hubs s)), walk_to w (WWake b (poller i)))).
  { unfold send_step. cbn [walk_to w_at]. unfold get_item. rewrite Hi. cbn [obind]. unfold get_hub. by rewrite Hh. }
  set (s1 := set_hubs s _) in E2. set (w1 := mk_walk (w_obj w) (w_ev w) (w_make w) (w_mem w) (w_k w) (w_ret w + r) (WNext b)). set (s2 := set_hubs s (<[poller i := hub']> (hubs s))).
  assert (E3 : send_step s1 (walk_to w (WWake b (poller i))) = Ret (s2, w1)).
  { unfold send_step. cbn [walk_to w_at]. unfold get_hub. cbn [hubs set_hubs s1]. rewrite lookup_insert_eq. cbn [obind]. rewrite Hr. unfold s2, set_hubs. cbn. by rewrite insert_insert_eq. }
  assert (E4 : send_step s2 w1 = Ret (s2, mk_walk (w_obj w) (w_ev w) (w_make w) (w_mem w) (S (w_k w)) (w_ret w + r) (WItem (pi_next i)))) by (unfold send_step, s2, w1; cbn [w_at]; by rewrite Hi').
  cbn [send_run]. rewrite E1. cbn [obind]. rewrite E2. cbn [obind]. rewrite E3. cbn [obind]. by rewrite E4.
Qed.

(** Without anything in between, the steps are the loop of [poll_event_send_with_data]. *)
Lemma send_run_loop l : forall fuel s h o ev type d0 d1 d2 mem k ret r s', chain (items s) h l -> (length l <= fuel)%nat ->
  send_loop fuel s h ev type d0 d1 d2 mem k ret = Ret (r, s') ->
  exists w', send_run (4 * length l + 1) s (mk_walk o ev (fun i => mk_pe (Z.shiftl 1 (Z.of_nat ev)) (pi_data i) type d0 d1 d2) mem k ret (WItem h)) = Ret (s', w') /\
    w_at w' = WDone /\ w_ret w' = r.
Proof.
  induction l as [|b l IH]; intros fuel s h o ev type d0 d1 d2 mem k ret r s' Hc Hf E.
  - cbn in Hc. subst h. assert (Er : (ret, s) = (r, s')) by (destruct fuel; by injection E as <- <-). injection Er as <- <-. by eexists.
  - destruct Hc as (-> & Hb & Hc). destruct (items s !! b) as [i|] eqn:Hi; [|done]. destruct fuel as [|fuel]; [cbn in Hf; lia|]. cbn [send_loop] in E. destruct (Z.eqb_spec b 0) as [|Hb0]; [done|].
    replace (4 * length (b :: l) + 1)%nat with (S (S (S (S (4 * length l + 1))))) by (cbn; lia). destruct (mem k) eqn:Hk; cbn [negb] in E.
    2:{ injection E as <- <-. set (w := mk_walk _ _ _ _ _ _ _). assert (E1 : send_step s w = Ret (s, mk_walk o ev (w_make w) mem k (- ENOMEM) WDone)).
        { unfold send_step, w. cbn [w_at w_mem w_k]. by rewrite (proj2 (Z.eqb_neq _ _) Hb0), Hk. }
        cbn [send_run]. rewrite E1. eexists. split; [exact (send_run_done (S (S (S (4 * length l + 1)))) s (mk_walk _ _ _ _ _ (- ENOMEM) WDone) eq_refl)|done]. }
    unfold poll_event_send_static, get_item in E. rewrite Hi in E. cbn [obind] in E. unfold get_hub in E. destruct (hubs s !! poller i) as [hub|] eqn:Eh; [|done]. cbn [obind] in E.
    destruct (hub_wake (hub_push hub _)) as [r0 hub'] eqn:Ew. cbn [obind] in E. erewrite send_round; [|done|done|done|done|done|exact Ew].
    apply (IH fuel _ (pi_next i) o ev type d0 d1 d2 mem (S k) (ret + r0)); [done|cbn in Hf; lia|done].
Qed.

(** The hubs of the items that were served get the event once, with the data of their item. *)
Lemma send_ok s ch own o ev type d0 d1 d2 mem ps : pinv s ch own -> (ev < EV_MAX)%nat -> pevents s !! o = Some ps ->
  exists r s' hd n, poll_event_send_with_data s o ev type d0 d1 d2 mem = Ret (r, s') /\ pinv s' ch own /\
    get_head s o ev = Ret hd /\ chain (items s) hd (ch o ev) /\ served mem 0 (ch o ev) n r /\
    (exists w', send_run (4 * length (ch o ev) + 2) s (start_walk o ev type d0 d1 d2 mem) = Ret (s', w') /\ w_at w' = WDone /\ w_ret w' = r) /\
    forall h hub, hubs s !! h = Some hub -> exists hub' a, hubs s' !! h = Some hub' /\ find_pevent_item s o ev h = Ret a /\
       event_list hub' = event_list hub ++ (if bool_decide (a ∈ take n (ch o ev)) then match items s !! a with Some i => [event_of ev type d0 d1 d2 i] | None => [] end else []).
Proof.
  intros P Hev Hps. unfold poll_event_send_with_data. rewrite Hps.
  destruct (pinv_chain s ch own o ps ev P Hps Hev) as (hd & Eh & _ & Hc & Hf). rewrite Eh. cbn [obind].
  destruct (send_loop_ok (ch o ev) (walk_fuel s) s ch own hd ev type d0 d1 d2 mem 0 0 P Hc Hf) as (r & s' & n & El & P' & (Ei & _ & Hg) & Hs). rewrite El.
  exists r, s', hd, n. split_and!; try done.
  - destruct (send_run_loop _ _ _ _ o _ _ _ _ _ _ _ _ _ _ Hc Hf El) as (w' & Ew & H1 & H2). exists w'. split; [|done].
    replace (4 * length (ch o ev) + 2)%nat with (S (4 * length (ch o ev) + 1)) by lia. cbn [send_run]. unfold send_step at 1. cbn [w_at start_walk w_obj w_ev]. rewrite Eh. cbn [obind]. exact Ew.
  - intros h hub Hh. specialize (Hg h). rewrite Hh in Hg. destruct Hg as (hub' & Hh' & _ & Ee).
    destruct (find_item_ok s ch own o ps ev h P Hps Hev) as (a & Ea & Hr). exists hub', a. split; [done|]. split; [done|]. rewrite Ee. f_equal.
    assert (Hsub : forall b, b ∈ take n (ch o ev) -> b ∈ ch o ev) by (intros b Hb; by eapply elem_of_sublist; [|apply sublist_take]).
    destruct Hr as [[-> Hno]|(Ha0 & Hin & (i & Hi & Hp))].
    + rewrite delivered_none by (intros b Hb; by apply Hno, Hsub). rewrite bool_decide_eq_false_2; [done|]. intros H0%Hsub. by apply (chain_nonzero _ _ _ _ Hc H0).
    + case_bool_decide as Ht.
      * rewrite Hi. apply (delivered_one _ _ _ _ a); try done; [eapply sublist_NoDup; [apply P|apply sublist_take]|]. intros b Hb Hw.
        apply (pv_once _ _ _ P o ev b a (Hsub b Hb) Hin h Hw). by exists i.
      * apply delivered_none. intros b Hb Hw. apply Ht. assert (b = a) as <-; [|done]. apply (pv_once _ _ _ P o ev b a (Hsub b Hb) Hin h Hw). by exists i.
Qed.

(** ** The operations together *)

(** What the rest of the kernel does with hubs and polled objects.  [PHold] and [PDrop] are the
    references of handles and of system calls. *)
Inductive poll_op :=
| PCreate (mem : Z)
| PHold (ph : Z)
| PDrop (ph : Z)
| PCtl (ph op copied : Z) (polled : option (Z * Z)) (events pdata : Z) (room : bool) (mem : nat -> Z)
| PRelease (o : Z)
| PWait (ph : Z) (t : nat) (max : Z) (range_ok stop : bool)
| PTake (ph : Z) (t : nat) (max : Z) (copied : bool)
| PAbort (ph : Z) (t : nat).

Definition with_hub (s : pstate) (ph : Z) (f : poll_hub -> outcome poll_hub) : outcome pstate :=
  let* h := get_hub s ph in let* h := f h in Ret (set_hubs s (<[ph := h]> (hubs s))).

Definition poll_exec (s : pstate) (op : poll_op) : outcome pstate :=
  match op with
  | PCreate mem => let '(ret, s) := poll_hub_create s mem in if ret =? 0 then hub_get s mem else Ret s
  | PHold ph => hub_get s ph
  | PDrop ph => hub_put s ph
  | PCtl ph op copied polled events pdata room mem => let* (_, s) := poll_hub_ctl s ph op copied polled events pdata room mem in Ret s
  | PRelease o => release_poll_struct s o
  | PWait ph t max range_ok stop => with_hub s ph (fun h => Ret (snd (hub_read_wait h t max range_ok stop)))
  | PTake ph t max copied => with_hub s ph (fun h => let* (_, h) := hub_read_take h t max copied in Ret h)
  | PAbort ph t => with_hub s ph (fun h => Ret (snd (hub_read_abort h t)))
  end.

(** An operation on a hub is made by a holder of a reference, allocations return unused addresses
    and the buffer of a reader is mapped.  [own] counts the references of the holders. *)
Definition allowed (s : pstate) (own : Z -> Z) (op : poll_op) : Prop :=
  match op with
  | PCreate mem => mem <> 0 -> hubs s !! mem = None
  | PHold ph | PDrop ph | PWait ph _ _ _ _ | PAbort ph _ => 0 < own ph
  | PCtl ph _ _ _ _ _ _ mem => 0 < own ph /\ mem_ok s mem 0
  | PRelease _ => True
  | PTake ph _ _ copied => 0 < own ph /\ copied = true
  end.

Definition own_set (own : Z -> Z) (h n : Z) : Z -> Z := fun x => if x =? h then n else own x.

Definition own_after (own : Z -> Z) (op : poll_op) : Z -> Z :=
  match op with
  | PCreate mem => if mem =? 0 then own else own_set own mem 1
  | PHold ph => own_set own ph (own ph + 1)
  | PDrop ph => own_set own ph (own ph - 1)
  | _ => own
  end.

(** Operations that take items off the lists of object [o] and free them. *)
Definition removes (op : poll_op) (o : Z) : Prop :=
  match op with
  | PCtl _ op _ (Some (o', _)) _ _ _ _ => op = KOBJ_POLL_OP_DEL /\ o' = o
  | PRelease o' => o' = o
  | _ => False
  end.

(** No item is taken off the lists of an object while somebody walks over one of them. *)
Definition undisturbed (ws : list send_walk) (op : poll_op) : Prop :=
  forall w, w ∈ ws -> w_at w <> WDone -> ~ removes op (w_obj w).

(** The kernel with the events being sent: operations, which hold the lock of the object they work on,
    and single accesses of senders, which hold none, in any order. *)
Inductive poll_reach : pstate -> (Z -> Z) -> list send_walk -> Prop :=
| pr_init : poll_reach (mk_ps ∅ ∅ ∅) (fun _ => 0) []
| pr_op s own ws op s' : poll_reach s own ws -> allowed s own op -> undisturbed ws op -> poll_exec s op = Ret s' -> poll_reach s' (own_after own op) ws
| pr_send s own ws o ev type d0 d1 d2 mem : poll_reach s own ws -> (ev < EV_MAX)%nat -> is_Some (pevents s !! o) ->
    poll_reach s own (ws ++ [start_walk o ev type d0 d1 d2 mem])
| pr_walk s own ws i w s' w' : poll_reach s own ws -> ws !! i = Some w -> send_step s w = Ret (s', w') -> poll_reach s' own (<[i := w']> ws).

Lemma pinv_own s ch own h hub n : pinv s ch own -> 0 <= n -> n + tally (fun i => poller i =? h) (items s) = h_ref hub -> 0 < h_ref hub ->
  pinv (set_hubs s (<[h := hub]> (hubs s))) ch (own_set own h n).
Proof.
  intros P Hn Hr Hpos. split; cbn; try apply P; unfold own_set.
  - intros h' hub'. rewrite lookup_insert. destruct (decide (h = h')) as [<-|Hne]; [intros [= <-]; rewrite Z.eqb_refl; lia|].
    destruct (Z.eqb_spec h' h); [congruence|]. apply P.
  - intros a i Ha. rewrite lookup_insert. destruct (decide _); [by eexists|by apply (pv_live _ _ _ P a)].
  - intros h' Hh. rewrite lookup_insert. destruct (decide (h = h')) as [|Hne]; [by eexists|]. destruct (Z.eqb_spec h' h); [congruence|]. by apply P.
Qed.

Lemma pinv_drop s ch own h hub : pinv s ch own -> hubs s !! h = Some hub -> h_ref hub = 1 -> 0 < own h ->
  pinv (set_hubs s (delete h (hubs s))) ch (own_set own h (own h - 1)).
Proof.
  intros P Hh Hr Hown. destruct (pv_ref _ _ _ P h hub Hh) as (E & _ & _). pose proof (tally_nonneg (fun i => poller i =? h) (items s)) as Hnn.
  assert (Hno : forall a i, items s !! a = Some i -> poller i <> h).
  { intros a i Ha Ep. pose proof (tally_pos (fun i => poller i =? h) (items s) a i Ha ltac:(cbn; by rewrite Ep, Z.eqb_refl)). lia. }
  split; cbn; try apply P; unfold own_set.
  - intros h' hub' [Hne Hh']%lookup_delete_Some. destruct (Z.eqb_spec h' h); [congruence|]. by apply P.
  - intros a i Ha. rewrite lookup_delete_ne by (apply not_eq_sym; by apply (Hno a)). by apply (pv_live _ _ _ P a).
  - intros h' Hh'. destruct (Z.eqb_spec h' h); [lia|]. rewrite lookup_delete_ne by congruence. by apply P.
Qed.

Lemma with_hub_ok s ch own ph f : pinv s ch own -> 0 < own ph -> (forall h, exists h', f h = Ret h' /\ h_ref h' = h_ref h) ->
  exists s' ch', with_hub s ph f = Ret s' /\ pinv s' ch' own /\ forall o, kept s s' ch ch' o.
Proof.
  intros P Hown Hf. destruct (pinv_hub s ch own ph P (pv_own _ _ _ P ph Hown)) as (h & Eg & Eh & _). unfold with_hub. rewrite Eg. cbn [obind].
  destruct (Hf h) as (h' & -> & Er). cbn [obind]. eexists _, ch. split; [done|]. split; [by apply (pinv_set_hub s ch own ph h)|done].
Qed.

Lemma hub_get_ok s ch own ph : pinv s ch own -> 0 < own ph -> exists s', hub_get s ph = Ret s' /\ pinv s' ch (own_set own ph (own ph + 1)) /\ forall o, kept s s' ch ch o.
Proof.
  intros P Hown. destruct (pinv_hub s ch own ph P (pv_own _ _ _ P ph Hown)) as (h & Eg & Eh & Hpos). unfold hub_get. rewrite Eg. cbn [obind].
  destruct (Z.leb_spec 0 (h_ref h)); [|lia]. cbn [assert obind]. eexists. split; [done|]. split; [|done]. destruct (pv_ref _ _ _ P ph h Eh) as (E & _ & _).
  apply pinv_own; cbn; try done; lia.
Qed.

Lemma hub_drop_ok s ch own ph : pinv s ch own -> 0 < own ph -> exists s', hub_put s ph = Ret s' /\ pinv s' ch (own_set own ph (own ph - 1)) /\ forall o, kept s s' ch ch o.
Proof.
  intros P Hown. destruct (pinv_hub s ch own ph P (pv_own _ _ _ P ph Hown)) as (h & Eg & Eh & Hpos). unfold hub_put. rewrite Eg. cbn [obind].
  destruct (Z.ltb_spec 0 (h_ref h)); [|lia]. cbn [assert obind]. destruct (pv_ref _ _ _ P ph h Eh) as (E & _ & _).
  destruct (Z.eqb_spec (h_ref h) 1); eexists; (split; [done|]); (split; [|done]); [by apply (pinv_drop s ch own ph h)|]. apply pinv_own; cbn; try done; lia.
Qed.

Lemma hub_create_ok s ch own mem : pinv s ch own -> mem <> 0 -> hubs s !! mem = None ->
  exists s', poll_exec s (PCreate mem) = Ret s' /\ pinv s' ch (own_set own mem 1) /\ forall o, kept s s' ch ch o.
Proof.
  intros P Hm Hh. unfold poll_exec, poll_hub_create. destruct (Z.eqb_spec mem 0); [done|]. cbn [Z.eqb]. unfold hub_get, get_hub. cbn [hubs set_hubs].
  rewrite lookup_insert_eq. cbn. eexists. split; [done|]. split; [|done]. rewrite insert_insert_eq. apply (pinv_own s ch own mem (mk_hub [] 1 [] []) 1); try done.
  rewrite tally_none; [done|]. intros a i Ha. apply Z.eqb_neq. intros E. destruct (pv_live _ _ _ P a i Ha). congruence.
Qed.

Lemma poll_exec_ok s ch own op : pinv s ch own -> allowed s own op ->
  exists s' ch', poll_exec s op = Ret s' /\ pinv s' ch' (own_after own op) /\ forall o, ~ removes op o -> kept s s' ch ch' o.
Proof.
  intros P Ha. destruct op as [mem|ph|ph|ph op copied polled events pdata room mem|o|ph t max range_ok stop|ph t max copied|ph t]; cbn [allowed own_after removes] in *.
  - destruct (Z.eqb_spec mem 0) as [->|Hm]; [by exists s, ch|]. destruct (hub_create_ok s ch own mem P Hm (Ha Hm)) as (s' & E & P' & K). exists s', ch. by split_and!.
  - destruct (hub_get_ok s ch own ph P Ha) as (s' & E & P' & K). exists s', ch. by split_and!.
  - destruct (hub_drop_ok s ch own ph P Ha) as (s' & E & P' & K). exists s', ch. by split_and!.
  - destruct Ha as [Hown Hm]. unfold poll_exec, poll_hub_ctl. destruct (copied <=? 0); [by exists s, ch|]. destruct polled as [[o rt]|]; [|by exists s, ch].
    destruct (negb _); [by exists s, ch|]. destruct (poll_hub_ctl_ok s ch own ph o op events pdata room mem P (pv_own _ _ _ P ph Hown) Hown Hm) as (ret & s' & ch' & -> & P' & _ & K).
    exists s', ch'. split_and!; try done. intros o' Hn. apply K. destruct (decide (op = KOBJ_POLL_OP_DEL)), (decide (o' = o)); subst; tauto.
  - destruct (release_poll_struct_ok s ch own o P) as (s' & ch' & E & P' & _ & _ & K). exists s', ch'. split_and!; try done. intros o' Hn. apply K. congruence.
  - destruct (with_hub_ok s ch own ph (fun h => Ret (snd (hub_read_wait h t max range_ok stop))) P Ha) as (s' & ch' & E & P' & K); [|exists s', ch'; by split_and!].
    intros h. eexists. split; [done|]. unfold hub_read_wait. destruct (32 <=? max); [done|]. destruct (negb range_ok); [done|]. destruct (event_list h); [|done]. by destruct stop.
  - destruct Ha as [Hown ->]. destruct (with_hub_ok s ch own ph (fun h => let* (_, h) := hub_read_take h t max true in Ret h) P Hown) as (s' & ch' & E & P' & K); [|exists s', ch'; by split_and!].
    intros h. unfold hub_read_take. cbn [event_list]. destruct (event_list h); [by eexists|]. destruct (take_events _ _ _). by eexists.
  - destruct (with_hub_ok s ch own ph (fun h => Ret (snd (hub_read_abort h t))) P Ha) as (s' & ch' & E & P' & K); [intros h; by eexists|exists s', ch'; by split_and!].
Qed.

(** ** Senders beside the operations *)

(** The item that a sender has in its hands is on the list that it walks over. *)
Definition walk_ok (s : pstate) (ch : Z -> nat -> list Z) (w : send_walk) : Prop :=
  (w_ev w < EV_MAX)%nat /\
  match w_at w with
  | WHead => is_Some (pevents s !! w_obj w)
  | WItem pi => pi = 0 \/ pi ∈ ch (w_obj w) (w_ev w)
  | WPush pi _ | WNext pi => pi ∈ ch (w_obj w) (w_ev w)
  | WWake pi ph => pi ∈ ch (w_obj w) (w_ev w) /\ watching (items s) ph pi
  | WDone => True
  end.

Lemma walk_kept s s' ch ch' w : kept s s' ch ch' (w_obj w) -> walk_ok s ch w -> walk_ok s' ch' w.
Proof.
  intros [Hp Hk] [Hev Hw]. split; [done|]. destruct (w_at w); try done.
  - by apply Hp.
  - destruct Hw as [|Hw]; [by left|right]. by apply Hk.
  - by apply Hk.
  - destruct Hw as [Ha Hw]. split; by apply (Hk _ _ Ha).
  - by apply Hk.
Qed.

Lemma walk_done s ch w : w_at w = WDone -> (w_ev w < EV_MAX)%nat -> walk_ok s ch w.
Proof. intros Ew Hev. unfold walk_ok. by rewrite Ew. Qed.

Lemma chain_next s ch own o ev a i : pinv s ch own -> a ∈ ch o ev -> items s !! a = Some i -> pi_next i = 0 \/ pi_next i ∈ ch o ev.
Proof.
  intros P Ha Hi. destruct (pevents s !! o) as [qs|] eqn:Hq; [|rewrite (pv_none _ _ _ P) in Ha by (by left); inversion Ha].
  destruct (decide (ev < EV_MAX)%nat) as [Hlt|]; [|rewrite (pv_none _ _ _ P) in Ha by (right; lia); inversion Ha].
  destruct (pinv_chain s ch own o qs ev P Hq Hlt) as (h & _ & _ & Hch & _). apply list_elem_of_split in Ha as (k1 & k2 & E). rewrite E in *.
  pose proof (chain_split _ _ _ _ _ _ Hch Hi) as Hc. destruct k2 as [|b k2]; [by left|]. right. destruct Hc as (-> & _). apply elem_of_app. right. right. by left.
Qed.

(** An access of a sender returns, and changes no list. *)
Lemma send_step_ok s ch own w : pinv s ch own -> walk_ok s ch w ->
  exists s' w', send_step s w = Ret (s', w') /\ pinv s' ch own /\ items s' = items s /\ pevents s' = pevents s /\ walk_ok s' ch w' /\ w_obj w' = w_obj w.
Proof.
  intros P [Hev Hw]. unfold send_step. destruct (w_at w) as [|pi|pi e|pi ph|pi|] eqn:Ew.
  - destruct Hw as [ps Hps]. destruct (pinv_chain s ch own (w_obj w) ps (w_ev w) P Hps Hev) as (h & -> & _ & Hc & _). cbn [obind]. eexists s, _. split; [done|]. split_and!; try done.
    split; [done|]. cbn. destruct (ch (w_obj w) (w_ev w)) as [|a l]; [by left|right]. destruct Hc as (-> & _). by left.
  - destruct (Z.eqb_spec pi 0) as [->|Hpi]; [eexists s, _; split; [done|]; split_and!; try done; by apply walk_done|]. destruct Hw as [?|Hw]; [done|].
    destruct (w_mem w (w_k w)); cbn [negb]; [|eexists s, _; split; [done|]; split_and!; try done; by apply walk_done].
    destruct (pinv_item s ch own _ _ pi P Hw) as [i Hi]. unfold get_item. rewrite Hi. cbn [obind]. eexists s, _. by split_and!.
  - destruct (pinv_item s ch own _ _ pi P Hw) as [i Hi]. unfold get_item. rewrite Hi. cbn [obind]. destruct (pinv_hub s ch own (poller i) P (pv_live _ _ _ P pi i Hi)) as (hub & -> & Eh & _). cbn [obind].
    eexists _, _. split; [done|]. split; [by apply (pinv_set_hub s ch own _ hub)|]. split_and!; try done. split; [done|]. split; [done|]. by exists i.
  - destruct Hw as [Hin (i & Hi & Ei)]. destruct (pinv_hub s ch own ph P) as (hub & -> & Eh & _); [rewrite <- Ei; by apply (pv_live _ _ _ P pi)|]. cbn [obind]. destruct (hub_wake hub) as [r hub'] eqn:Ewk.
    eexists _, _. split; [done|]. split; [|by split_and!]. apply (pinv_set_hub s ch own _ hub); try done. unfold hub_wake in Ewk. destruct (h_wait hub); by simplify_eq.
  - destruct (pinv_item s ch own _ _ pi P Hw) as [i Hi]. unfold get_item. rewrite Hi. cbn [obind]. eexists s, _. split; [done|]. split_and!; try done. split; [done|]. by apply (chain_next s ch own _ _ pi).
  - eexists s, w. split; [done|]. split_and!; try done; by apply walk_done.
Qed.

Lemma poll_reach_inv s own ws : poll_reach s own ws -> exists ch, pinv s ch own /\ Forall (walk_ok s ch) ws.
Proof.
  induction 1 as [|s own ws op s' _ (ch & P & W) Ha Hu E|s own ws o ev type d0 d1 d2 mem _ (ch & P & W) Hev Ho|s own ws i w s' w' _ (ch & P & W) Hi E].
  - exists (fun _ _ => []). split; [|constructor]. split; cbn; try done; try (intros; by apply NoDup_nil); intros; try (by destruct H); set_solver.
  - destruct (poll_exec_ok s ch own op P Ha) as (s1 & ch' & E1 & P' & K). rewrite E in E1. simplify_eq. exists ch'. split; [done|].
    apply Forall_forall. intros w Hw. pose proof (proj1 (Forall_forall _ _) W w Hw) as Hwo. destruct (w_at w) eqn:Ew; try (apply (walk_kept s s1 ch ch' w); [apply K, (Hu w Hw); by rewrite Ew|done]).
    apply walk_done; [done|apply Hwo].
  - exists ch. split; [done|]. apply Forall_app. split; [done|]. apply Forall_singleton. by split.
  - pose proof (Forall_lookup_1 _ _ _ _ W Hi) as Hwo. destruct (send_step_ok s ch own w P Hwo) as (s1 & w1 & E1 & P' & Ei & Ep & Hwo' & _). rewrite E in E1. simplify_eq. exists ch. split; [done|].
    apply Forall_insert; [|done]. eapply Forall_impl; [exact W|]. intros w0. apply walk_kept. split; [by rewrite Ep|]. intros ev a Ha. split; [done|]. intros ph. unfold watching. by rewrite Ei.
Qed.

(** ** Readers of one hub *)

(** The events that a reader takes are the oldest ones, as many as fit. *)
Lemma take_events_spec l : forall cnt max, 0 <= cnt < max -> take_events l cnt max = (take (Z.to_nat (max - cnt)) l, drop (Z.to_nat (max - cnt)) l).
Proof.
  induction l as [|e l IH]; intros cnt max Hc; [by rewrite take_nil, drop_nil|]. cbn [take_events].
  replace (Z.to_nat (max - cnt)) with (S (Z.to_nat (max - (cnt + 1)))) by lia. destruct (Z.eqb_spec (cnt + 1) max) as [<-|].
  - by rewrite Z.sub_diag.
  - rewrite IH by lia. done.
Qed.

Lemma take_events_split l : forall cnt max got rest, take_events l cnt max = (got, rest) -> l = got ++ rest /\ (l <> [] -> got <> []).
Proof.
  induction l as [|e l IH]; intros cnt max got rest E; cbn [take_events] in E; [by simplify_eq|]. destruct (_ =? max); [by simplify_eq|].
  destruct (take_events l (cnt + 1) max) as [g r'] eqn:Et. simplify_eq. by destruct (IH _ _ _ _ Et) as [-> _].
Qed.

(** A hub with its senders and readers: [hr_pending] senders have appended their event and not called
    [wake] yet; [hr_sent] and [hr_got] are the events sent and taken so far. *)
Record hub_run := mk_run { hr_hub : poll_hub; hr_pending : nat; hr_sent : list poll_event; hr_got : list poll_event }.

Inductive hub_step : hub_run -> hub_run -> Prop :=
| hs_push h n sent got e : hub_step (mk_run h n sent got) (mk_run (hub_push h e) (S n) (sent ++ [e]) got)
| hs_wake h n sent got : hub_step (mk_run h (S n) sent got) (mk_run (snd (hub_wake h)) n sent got)
| hs_wait h n sent got t max range_ok stop : t ∉ h_wait h ++ h_woken h ->
    hub_step (mk_run h n sent got) (mk_run (snd (hub_read_wait h t max range_ok stop)) n sent got)
| hs_take h n sent got t max cnt l h' : t ∉ h_wait h -> hub_read_take h t max true = Ret (cnt, l, h') ->
    hub_step (mk_run h n sent got) (mk_run h' n sent (got ++ l))
| hs_abort h n sent got t : t ∈ h_wait h -> hub_step (mk_run h n sent got) (mk_run (snd (hub_read_abort h t)) n sent got).

Definition hub_reach (r : hub_run) : Prop := exists ref, rtc hub_step (mk_run (mk_hub [] ref [] []) 0 [] []) r.

(** A sleeper next to an event has a wake-up on its way, one for each event. *)
Record hub_inv (r : hub_run) : Prop := {
  hi_log : hr_sent r = hr_got r ++ event_list (hr_hub r);
  hi_nodup : NoDup (h_wait (hr_hub r) ++ h_woken (hr_hub r));
  hi_awake : h_wait (hr_hub r) <> [] -> (length (event_list (hr_hub r)) <= length (h_woken (hr_hub r)) + hr_pending r)%nat;
}.

Lemma filter_out_none (l : list nat) t : t ∉ l -> filter (fun x => x <> t) l = l.
Proof.
  induction l as [|x l IH]; [done|]. intros [Hx Hl]%not_elem_of_cons. rewrite filter_cons, decide_True by congruence. by rewrite IH.
Qed.

Lemma filter_out_length (l : list nat) t : NoDup l -> (length l <= S (length (filter (fun x => x <> t) l)))%nat.
Proof.
  induction l as [|x l IH]; [cbn; lia|]. intros [Hx Hl]%NoDup_cons. rewrite filter_cons. destruct (decide (x <> t)) as [|E]; cbn; [specialize (IH Hl); lia|].
  destruct (decide (x = t)) as [->|]; [|done]. by rewrite filter_out_none.
Qed.

Lemma filter_out_nodup (l k : list nat) t : NoDup (l ++ k) -> NoDup (filter (fun x => x <> t) l ++ k) /\ NoDup (l ++ filter (fun x => x <> t) k).
Proof.
  rewrite !NoDup_app. intros (Hl & Hd & Hk). split; split_and!; try done; try (by apply NoDup_filter).
  - intros x [_ Hx]%list_elem_of_filter. by apply Hd.
  - intros x Hx [_ Hy]%list_elem_of_filter. by apply (Hd x).
Qed.

Lemma hub_wake_inv h n sent got : hub_inv (mk_run h (S n) sent got) -> hub_inv (mk_run (snd (hub_wake h)) n sent got).
Proof.
  intros [Hlog Hnd Ha]. unfold hub_wake. cbn in *. destruct (h_wait h) as [|t l] eqn:Hw; split; cbn; try done.
  - by rewrite Hw.
  - rewrite app_assoc, Permutation_app_comm. done.
  - intros _. specialize (Ha ltac:(done)). rewrite length_app. cbn. lia.
Qed.

Lemma hub_read_wait_inv h n sent got t max range_ok stop : t ∉ h_wait h ++ h_woken h ->
  hub_inv (mk_run h n sent got) -> hub_inv (mk_run (snd (hub_read_wait h t max range_ok stop)) n sent got).
Proof.
  intros Ht I. unfold hub_read_wait. destruct (32 <=? max); [done|]. destruct (negb range_ok); [done|]. destruct (event_list h) eqn:He; [|done].
  destruct stop; [done|]. destruct I as [Hlog Hnd _]. cbn in *. split; cbn; [by rewrite He in Hlog| |lia].
  rewrite <- app_assoc. cbn. rewrite <- Permutation_middle. by apply NoDup_cons.
Qed.

Lemma hub_read_take_inv h n sent got t max cnt l h' : hub_read_take h t max true = Ret (cnt, l, h') ->
  hub_inv (mk_run h n sent got) -> hub_inv (mk_run h' n sent (got ++ l)).
Proof.
  intros E [Hlog Hnd Ha]. unfold hub_read_take in E. cbn [hr_hub hr_sent hr_got hr_pending event_list h_wait h_woken h_ref] in *. destruct (filter_out_nodup _ _ t Hnd) as [_ Hnd'].
  pose proof (filter_out_length (h_woken h) t ltac:(by apply NoDup_app in Hnd as (_ & _ & ?))) as Hlen.
  destruct (event_list h) as [|e es] eqn:He; [simplify_eq; split; cbn; [by rewrite ?He, !app_nil_r|done|rewrite ?He; cbn; lia]|].
  destruct (take_events _ _ _) as [g rest] eqn:Et. cbn [assert obind] in E. simplify_eq. destruct (take_events_split _ _ _ _ _ Et) as [Es Hne]. split; cbn [hr_hub hr_sent hr_got hr_pending event_list h_wait h_woken]; [|done|].
  - by rewrite <- app_assoc, <- Es.
  - intros Hw. specialize (Ha Hw). rewrite Es, length_app in Ha. destruct l; [by destruct Hne|]. cbn in Ha. lia.
Qed.

Lemma hub_read_abort_inv h n sent got t : hub_inv (mk_run h n sent got) -> hub_inv (mk_run (snd (hub_read_abort h t)) n sent got).
Proof.
  intros [Hlog Hnd Ha]. cbn in *. split; cbn; [done|by apply filter_out_nodup|]. intros Hw. apply Ha. intros E. by rewrite E in Hw.
Qed.

Lemma hub_step_inv r r' : hub_step r r' -> hub_inv r -> hub_inv r'.
Proof.
  destruct 1 as [h n sent got e|h n sent got|h n sent got t max range_ok stop Ht|h n sent got t max cnt l h' _ E|h n sent got t _].
  - intros [Hlog Hnd Ha]. cbn in *. split; cbn; [by rewrite Hlog, <- app_assoc|done|]. intros Hw. specialize (Ha Hw). rewrite length_app. cbn. lia.
  - apply hub_wake_inv.
  - by apply hub_read_wait_inv.
  - by apply (hub_read_take_inv h n sent got t max cnt).
  - apply hub_read_abort_inv.
Qed.

Lemma hub_reach_inv r : hub_reach r -> hub_inv r.
Proof.
  intros (ref & Hr). assert (H0 : hub_inv (mk_run (mk_hub [] ref [] []) 0 [] [])) by (split; cbn; [done|by apply NoDup_nil|lia]).
  remember (mk_run _ _ _ _) as r0 eqn:E in Hr, H0. clear E. induction Hr as [|r1 r2 r3 Hs _ IH]; [done|]. apply IH. by apply (hub_step_inv r1).
Qed.

(** ** Theorems *)

(** C32: In every state reached by operations on poll hubs and polled objects (creating hubs, taking and
    dropping references, [poll_hub_ctl] with any operation and failing allocations, reading, releasing
    polled objects) and by single accesses of senders, which walk over the lists of watchers without a
    lock, in any order in which no item is taken off the lists of an object while somebody sends an event
    of it ([undisturbed]; see [removal_breaks_walk]): each allowed operation and each access of a sender
    returns, so that none touches a released item or hub, fails an assertion or runs round a list.  The
    count of a hub is the number of its holders and of the items that name it, and the hub of every item
    is alive. *)
Theorem poll_never_dangles s own ws : poll_reach s own ws ->
  (forall op, allowed s own op -> exists s', poll_exec s op = Ret s') /\
  (forall w, w ∈ ws -> exists s' w', send_step s w = Ret (s', w')) /\
  (forall h hub, hubs s !! h = Some hub -> h_ref hub = own h + tally (fun i => poller i =? h) (items s) /\ 0 < h_ref hub) /\
  (forall a i, items s !! a = Some i -> is_Some (hubs s !! poller i)).
Proof.
  intros (ch & P & W)%poll_reach_inv. split_and!.
  - intros op Ha. destruct (poll_exec_ok s ch own op P Ha) as (s' & _ & E & _). by exists s'.
  - intros w Hw. destruct (send_step_ok s ch own w P) as (s' & w' & E & _); [by apply (proj1 (Forall_forall _ _) W)|]. by exists s', w'.
  - intros h hub Hh. by destruct (pv_ref _ _ _ P h hub Hh) as (? & _ & ?).
  - apply P.
Qed.

(** C33: While its list of watchers does not change, an event on a polled object is appended exactly once,
    with the data that the hub registered, to the list of each hub whose item was served, and to no
    other list.  The items are served in the order of the list [l], all of them unless an allocation
    fails, which ends the loop with [-ENOMEM]; the accesses of the sender one after the other come to
    the same state and status. *)
Theorem poll_event_delivered s own ws o ev type d0 d1 d2 mem : poll_reach s own ws -> (ev < EV_MAX)%nat -> is_Some (pevents s !! o) ->
  exists r s' hd l n, poll_event_send_with_data s o ev type d0 d1 d2 mem = Ret (r, s') /\
    get_head s o ev = Ret hd /\ chain (items s) hd l /\ NoDup l /\ served mem 0 l n r /\
    (exists w', send_run (4 * length l + 2) s (start_walk o ev type d0 d1 d2 mem) = Ret (s', w') /\ w_at w' = WDone /\ w_ret w' = r) /\
    forall h hub, hubs s !! h = Some hub -> exists hub' a, hubs s' !! h = Some hub' /\ find_pevent_item s o ev h = Ret a /\
      event_list hub' = event_list hub ++ (if bool_decide (a ∈ take n l) then match items s !! a with
                                          | Some i => [mk_pe (Z.shiftl 1 (Z.of_nat ev)) (pi_data i) type d0 d1 d2]
                                          | None => []
                                          end else []).
Proof.
  intros (ch & P & _)%poll_reach_inv Hev [ps Ho]. destruct (send_ok s ch own o ev type d0 d1 d2 mem ps P Hev Ho) as (r & s' & hd & n & E & _ & H1 & H2 & H3 & H4 & H5).
  exists r, s', hd, (ch o ev), n. split_and!; try done. apply P.
Qed.

(** C34: However senders and readers of a hub interleave, the events reach the readers in the order in
    which they were sent, none lost or doubled, and no reader sleeps beside an event: once every
    sender has called [wake] and every woken reader has run, nobody sleeps or the list is empty. *)
Theorem poll_readers_get_events r : hub_reach r ->
  hr_sent r = hr_got r ++ event_list (hr_hub r) /\
  (h_wait (hr_hub r) <> [] -> (length (event_list (hr_hub r)) <= length (h_woken (hr_hub r)) + hr_pending r)%nat) /\
  (hr_pending r = 0%nat -> h_woken (hr_hub r) = [] -> h_wait (hr_hub r) = [] \/ event_list (hr_hub r) = []).
Proof.
  intros [Hlog _ Ha]%hub_reach_inv. split; [done|]. split; [done|]. intros Hp Hw. destruct (h_wait (hr_hub r)); [by left|right].
  specialize (Ha ltac:(done)). rewrite Hp, Hw in Ha. destruct (event_list (hr_hub r)); [done|cbn in Ha; lia].
Qed.

(** A read with room for no event takes all of them. *)
Lemma read_without_room_takes_all l : forall cnt, 0 <= cnt -> take_events l cnt 0 = (l, []).
Proof. induction l as [|e l IH]; intros cnt Hc; [done|]. cbn [take_events]. destruct (Z.eqb_spec (cnt + 1) 0); [lia|]. by rewrite IH by lia. Qed.

(** A request without the right to the object keeps the reference that it took. *)
Lemma denied_ctl_keeps_reference s ph op copied o rt events pdata room mem : 0 < copied -> poll_hub_check_right events rt <> 0 ->
  poll_hub_ctl s ph op copied (Some (o, rt)) events pdata room mem = Ret (- EPERM, false, s).
Proof. intros Hc Hr. unfold poll_hub_ctl. destruct (Z.leb_spec copied 0); [lia|]. by destruct (Z.eqb_spec (poll_hub_check_right events rt) 0). Qed.

(** A reader whose buffer is not mapped stops the kernel. *)
Lemma unmapped_buffer_stops_kernel h t max e l : event_list h = e :: l -> hub_read_take h t max false = Panic.
Proof. intros He. unfold hub_read_take. cbn [event_list]. rewrite He. by destruct (take_events _ _ _). Qed.

(** ** Examples *)

Definition demo_run (s : pstate) (op : poll_op) : pstate := match poll_exec s op with Ret s' => s' | _ => s end.

(** Hub 8 watches two kinds of events of object 5, hub 9 one of them. *)
Definition demo_add (ph events pdata base : Z) : poll_op := PCtl ph KOBJ_POLL_OP_ADD 1 (Some (5, 3)) events pdata true (fun i => base + Z.of_nat i).
Definition demo_hubs : pstate := demo_run (demo_run (mk_ps ∅ ∅ ∅) (PCreate 8)) (PCreate 9).
Definition demo_polled : pstate := demo_run (demo_run demo_hubs (demo_add 8 3 77 100)) (demo_add 9 1 88 200).
Definition demo_own : Z -> Z := own_set (own_set (fun _ => 0) 8 1) 9 1.

Lemma demo_mem s base : (forall i, (i < EV_MAX)%nat -> items s !! (base + Z.of_nat i) = None) -> mem_ok s (fun i => base + Z.of_nat i) 0.
Proof. intros Hi. split; [intros i Hi' _; apply Hi; lia|]. intros i j _ _ _ E. lia. Qed.

Definition demo_one : pstate := demo_run (mk_ps ∅ ∅ ∅) (PCreate 8).
Definition demo_watched : pstate := demo_run demo_hubs (demo_add 8 3 77 100).

Lemma demo_fresh : (forall i, (i < EV_MAX)%nat -> items demo_hubs !! (100 + Z.of_nat i) = None) /\ (forall i, (i < EV_MAX)%nat -> items demo_watched !! (200 + Z.of_nat i) = None).
Proof. split; intros i Hi; unfold EV_MAX in Hi; do 7 (destruct i as [|i]; [vm_compute; reflexivity|]); lia. Qed.

(** A sender of event 0 has read the first item and made its event when hub 9 starts to watch. *)
Definition demo_start : send_walk := start_walk 5 0 0 0 0 0 (fun _ => true).
Definition demo_walk : send_walk := walk_to demo_start (WPush 100 (mk_pe 1 77 0 0 0 0)).

Lemma demo_reach : poll_reach demo_polled demo_own [demo_walk].
Proof.
  assert (R1 : poll_reach demo_one (own_set (fun _ => 0) 8 1) []).
  { apply (pr_op _ _ _ (PCreate 8) demo_one pr_init); [intros _; reflexivity|intros w Hw; inversion Hw|vm_compute; reflexivity]. }
  assert (R2 : poll_reach demo_hubs demo_own []).
  { apply (pr_op _ _ _ (PCreate 9) demo_hubs R1); [intros _; vm_compute; reflexivity|intros w Hw; inversion Hw|vm_compute; reflexivity]. }
  assert (R3 : poll_reach demo_watched demo_own []).
  { apply (pr_op _ _ _ (demo_add 8 3 77 100) demo_watched R2); [|intros w Hw; inversion Hw|vm_compute; reflexivity]. split; [vm_compute; reflexivity|]. apply demo_mem, demo_fresh. }
  assert (R4 : poll_reach demo_watched demo_own [demo_start]) by (apply (pr_send _ _ [] 5 0 0 0 0 0 (fun _ => true) R3); [unfold EV_MAX; lia|by eexists]).
  assert (R5 : poll_reach demo_watched demo_own [walk_to demo_start (WItem 100)]) by (eapply (pr_walk _ _ _ 0 _ _ _ R4); reflexivity).
  assert (R6 : poll_reach demo_watched demo_own [demo_walk]) by (eapply (pr_walk _ _ _ 0 _ _ _ R5); reflexivity).
  apply (pr_op _ _ _ (demo_add 9 1 88 200) demo_polled R6); [|intros w _ _ [E _]; discriminate E|vm_compute; reflexivity]. split; [vm_compute; reflexivity|]. apply demo_mem, demo_fresh.
Qed.

Lemma poll_never_dangles_witness : poll_reach demo_polled demo_own [demo_walk] /\ (exists s', poll_exec demo_polled (PRelease 5) = Ret s') /\
  (exists s' w', send_step demo_polled demo_walk = Ret (s', w')) /\
  (forall h hub, hubs demo_polled !! h = Some hub -> h_ref hub = demo_own h + tally (fun i => poller i =? h) (items demo_polled) /\ 0 < h_ref hub).
Proof.
  split; [exact demo_reach|]. destruct (poll_never_dangles demo_polled demo_own [demo_walk] demo_reach) as (H1 & H2 & H3 & _). split; [by apply H1|]. split; [apply H2; by left|exact H3].
Defined.

(** When a hub stops watching while an event is on its way to it, the sender goes on with an item that
    was freed. *)
Lemma removal_breaks_walk :
  match poll_exec demo_polled (PCtl 8 KOBJ_POLL_OP_DEL 1 (Some (5, 3)) 3 0 true (fun _ => 0)) with
  | Ret s' => send_step s' demo_walk = Fault
  | _ => False
  end.
Proof. vm_compute. reflexivity. Qed.

(** Event 1 reaches hub 8, with its data, and not hub 9. *)
Lemma poll_event_delivered_witness : exists r s', poll_event_send_with_data demo_polled 5 1 0 0 0 0 (fun _ => true) = Ret (r, s') /\
  (exists hub', hubs s' !! 8 = Some hub' /\ event_list hub' = [mk_pe 2 77 0 0 0 0]) /\ (exists hub', hubs s' !! 9 = Some hub' /\ event_list hub' = []).
Proof.
  destruct (poll_event_delivered demo_polled demo_own [demo_walk] 5 1 0 0 0 0 (fun _ => true) demo_reach ltac:(unfold EV_MAX; lia) ltac:(by eexists))
    as (r & s' & hd & l & n & E & Eh & Hc & _ & (_ & _ & Hn) & _ & Hd).
  exists r, s'. split; [exact E|]. assert (Ehd : hd = 101) by (vm_compute in Eh; by injection Eh as <-). subst hd.
  assert (El : l = [101]).
  { destruct l as [|a l]; [done|]. destruct Hc as (<- & _ & Hc). cbn in Hc. destruct l as [|b l]; [done|]. by destruct Hc as (<- & ? & _). }
  subst l. destruct Hn as [->|[? _]]; [|done]. cbn [length take] in Hd. split.
  - destruct (Hd 8 (mk_hub [] 3 [] []) eq_refl) as (hub' & a & H1 & H2 & H3). exists hub'. split; [exact H1|]. rewrite H3.
    assert (E2 : find_pevent_item demo_polled 5 1 8 = Ret 101) by reflexivity. rewrite E2 in H2. injection H2 as <-. reflexivity.
  - destruct (Hd 9 (mk_hub [] 2 [] []) eq_refl) as (hub' & a & H1 & H2 & H3). exists hub'. split; [exact H1|]. rewrite H3.
    assert (E2 : find_pevent_item demo_polled 5 1 9 = Ret 0) by reflexivity. rewrite E2 in H2. injection H2 as <-. reflexivity.
Defined.

(** A reader sleeps, an event is sent, the reader is woken. *)
Definition demo_event : poll_event := mk_pe 1 77 0 0 0 0.
Definition demo_hub_run : hub_run := mk_run (mk_hub [demo_event] 1 [] [4%nat]) 0 [demo_event] [].

Lemma demo_hub_reach : hub_reach demo_hub_run.
Proof.
  exists 1. eapply rtc_l; [apply (hs_wait _ _ _ _ 4 1 true false); apply not_elem_of_nil|]. eapply rtc_l; [apply (hs_push _ _ _ _ demo_event)|].
  eapply rtc_l; [apply hs_wake|]. apply rtc_refl.
Qed.

Lemma poll_readers_get_events_witness : hub_reach demo_hub_run /\ hr_sent demo_hub_run = [demo_event] /\
  (h_wait (hr_hub demo_hub_run) <> [] -> (length (event_list (hr_hub demo_hub_run)) <= length (h_woken (hr_hub demo_hub_run)) + hr_pending demo_hub_run)%nat).
Proof. split; [exact demo_hub_reach|]. destruct (poll_readers_get_events demo_hub_run demo_hub_reach) as (H1 & H2 & _). split; [exact H1|exact H2]. Defined.
