(* ===== verification/Kmem.v ===== *)
(** * Boot allocator and memory initialisation

    [core/kmem.c]: the bump allocator over the kernel memory section, from which
    bitmaps and page descriptors are carved; the construction of page sections in
    [core/page.c]; and the composition of both in [mm_init] of [core/mem.c], from
    the parsed region list to a table of page sections.

    [minos_start], [minos_end] and [CONFIG_MINOS_RAM_SIZE] come from the linker
    script and the configuration and are parameters.  The calls of [mm_init] that
    leave this state alone (the slab allocator, the host mappings, the log) belong
    to other components. *)

From S2P Require Import Prelude Types Bits Bitmap MemRegion Page.

Record kmem_section := mk_kmem {
  pbase : Z;
  vbase : Z;
  ks_size : Z;
  free_base : Z;
  free_page_base : Z;
  free_size : Z;
}.

(** ** Bump allocation *)

(** Pages are taken from the top, without a check against [free_size]. *)
Definition alloc_kpages (ks : kmem_section) (npages : Z) : outcome (Z * kmem_section) :=
  check 0 <=? npages in
  let request_size := Z.shiftl npages PAGE_SHIFT in
  let base := u64 (free_page_base ks - request_size) in
  Ret (base, mk_kmem (pbase ks) (vbase ks) (ks_size ks) (free_base ks) base
               (u64 (free_size ks - request_size))).

Definition alloc_kmem_from_section (ks : kmem_section) (size : Z) : outcome (Z * kmem_section) :=
  check size <=? free_size ks in
  Ret (free_base ks, mk_kmem (pbase ks) (vbase ks) (ks_size ks) (u64 (free_base ks + size))
                       (free_page_base ks) (u64 (free_size ks - size))).

Definition alloc_kmem (ks : kmem_section) (size : Z) : outcome (Z * kmem_section) :=
  alloc_kmem_from_section ks (BALIGN size 8).

Definition zalloc_kmem (ks : kmem_section) (size : Z) : outcome (Z * kmem_section) :=
  check negb (size =? 0) in
  alloc_kmem ks (BALIGN size 8).

(** [add_kmem_section]; [ks] is [None] until the first call. *)
Definition add_kmem_section (minos_start minos_end : Z) (ks : option kmem_section)
    (region : memory_region) : outcome (option kmem_section) :=
  match ks with
  | Some ks => Ret (Some ks)
  | None =>
      let pbase := r_base region in
      let vbase := ptov pbase in
      let size := r_size region in
      let free_page_base := u64 (vbase + size) in
      let '(free_base, free_size) :=
        if r_base region =? minos_start
        then (ptov minos_end, u64 (size - u64 (minos_end - minos_start)))
        else (vbase, size) in
      let ks := mk_kmem pbase vbase size free_base free_page_base free_size in
      if free_page_base =? free_base then Ret (Some ks) else
      check free_base <? free_page_base in
      Ret (Some ks)
  end.

(** ** Building page sections *)

Definition sizeof_page : Z := 16.
Definition BITMAP_SIZE (size : Z) : Z := BITS_TO_LONGS size * 8.

(** The bitmap and the descriptors live at the start of the range itself. *)
Definition add_kernel_page_section (base size : Z) : mem_section :=
  let end_ := u64 (base + size) in
  let page_cnt := Z.shiftr size PAGE_SHIFT in
  let base := u64 (base + BITMAP_SIZE page_cnt) in
  let base := u64 (base + page_cnt * sizeof_page) in
  let base := PAGE_BALIGN base in
  let new_size := u64 (end_ - base) in
  let total := Z.shiftr new_size PAGE_SHIFT in
  mk_section false base (ptov base) (u64 (ptov base + new_size)) new_size total total
    (replicate (Z.to_nat (BITS_TO_LONGS page_cnt)) 0) total 0 [] 0 0 0
    (replicate (Z.to_nat page_cnt) zero_page).

Definition add_page_section (ks : kmem_section) (l : list mem_section) (base size : Z)
    : outcome (Z * kmem_section * list mem_section) :=
  if (size =? 0) || (MAX_MEM_SECTIONS <=? Z.of_nat (length l)) then Ret (- EINVAL, ks, l) else
  let block_align := IS_BLOCK_ALIGN base && IS_BLOCK_ALIGN size in
  let total := Z.shiftr size PAGE_SHIFT in
  let* (bm, ks) := alloc_kmem ks (BITMAP_SIZE total) in
  check negb (bm =? 0) in
  let* (pg, ks) := alloc_kmem ks (u64 (total * sizeof_page)) in
  check negb (pg =? 0) in
  let ms blocks bbm :=
    mk_section block_align base (ptov base) (u64 (ptov base + size)) size total total
      (replicate (Z.to_nat (BITS_TO_LONGS total)) 0) total 0 bbm blocks 0 blocks
      (replicate (Z.to_nat total) zero_page) in
  if block_align then
    let blocks := Z.shiftr size BLOCK_SHIFT in
    let* (bb, ks) := alloc_kmem ks (BITMAP_SIZE blocks) in
    check negb (bb =? 0) in
    Ret (0, ks, l ++ [ms blocks (replicate (Z.to_nat (BITS_TO_LONGS blocks)) 0)])
  else Ret (0, ks, l ++ [ms 0 []]).

(** [kmem_init]: what is left of the kernel section becomes section 0. *)
Definition kmem_init (ks : kmem_section) (l : list mem_section) : list mem_section :=
  let base := PAGE_BALIGN (free_base ks) in
  let size := u64 (free_page_base ks - base) in
  <[0%nat := add_kernel_page_section (vtop base) size]> l.

(** ** [mm_init] *)

Definition zero_section : mem_section := mk_section false 0 0 0 0 0 0 [] 0 0 [] 0 0 0 [].

Record mm_state := mk_mm {
  mm_regions : mem_state;
  mm_ks : option kmem_section;
  mm_sections : list mem_section;
  ramdisk : option (Z * Z);
}.

Section mm_init.
Context (minos_start minos_end0 CONFIG_MINOS_RAM_SIZE : Z).

Definition in_os_memory_range (addr size : Z) : bool :=
  IN_RANGE_UNSIGNED addr size minos_start CONFIG_MINOS_RAM_SIZE.

(** The first kernel region of the list, or [BUG_ON]. *)
Fixpoint find_kernel_region (l : list memory_region) : outcome memory_region :=
  match l with
  | [] => Panic
  | re :: l =>
      if negb (r_type re =? MEMORY_REGION_TYPE_KERNEL) then find_kernel_region l else
      if in_os_memory_range (r_base re) (r_size re) then Ret re else Panic
  end.

(** The last loop: the ram disk, and one page section per normal region
    ([handle_normal_memory_region]). *)
Fixpoint handle_regions (l : list memory_region) (ks : kmem_section) (ms : list mem_section)
    (rd : option (Z * Z)) : outcome (kmem_section * list mem_section * option (Z * Z)) :=
  match l with
  | [] => Ret (ks, ms, rd)
  | re :: l =>
      if r_type re =? MEMORY_REGION_TYPE_RAMDISK then
        handle_regions l ks ms (Some (r_base re, u64 (r_base re + r_size re)))
      else if r_type re =? MEMORY_REGION_TYPE_NORMAL then
        let* (ret, ks, ms) := add_page_section ks ms (r_base re) (r_size re) in
        check ret =? 0 in
        handle_regions l ks ms rd
      else handle_regions l ks ms rd
  end.

Definition mm_init (regions : mem_state) : outcome mm_state :=
  check negb (Nat.eqb (length (mem_list regions)) 0) in
  let minos_end := PAGE_BALIGN minos_end0 in
  let kmem_size := u64 (CONFIG_MINOS_RAM_SIZE - u64 (minos_end - minos_start)) in
  check negb (kmem_size =? 0) in
  let* kre := find_kernel_region (mem_list regions) in
  let* ks := add_kmem_section minos_start minos_end None kre in
  let* regions := align_regions regions in
  match ks with
  | None => Fault
  | Some ks =>
      let* (ks, ms, rd) := handle_regions (mem_list regions) ks [zero_section] None in
      Ret (mk_mm regions (Some ks) (kmem_init ks ms) rd)
  end.
End mm_init.

(** ** The bump allocator *)

(** The free range is exactly what lies between the two bump pointers. *)
Definition kmem_ok (ks : kmem_section) : Prop :=
  0 < free_base ks /\ 0 <= free_size ks /\ free_base ks + free_size ks = free_page_base ks /\
  free_page_base ks < 2 ^ 64 /\ free_base ks mod 8 = 0.

Lemma BALIGN_8 x : 0 <= x <= 2 ^ 64 - 8 -> BALIGN x 8 mod 8 = 0 /\ x <= BALIGN x 8 < x + 8.
Proof.
  intros Hx. pose proof (BALIGN_pow2 x 3 ltac:(lia) ltac:(lia) ltac:(lia)) as E.
  change (2 ^ 3) with 8 in E. rewrite E. Z.div_mod_to_equations; lia.
Qed.

Lemma alloc_kmem_spec ks size :
  kmem_ok ks -> 0 <= size <= 2 ^ 64 - 8 ->
  (free_size ks < BALIGN size 8 /\ alloc_kmem ks size = Panic) \/
  exists ks', alloc_kmem ks size = Ret (free_base ks, ks') /\ kmem_ok ks' /\
    free_base ks + size <= free_base ks' <= free_page_base ks /\
    free_page_base ks' = free_page_base ks.
Proof.
  intros (H1 & H2 & H3 & H4 & H5) Hs. unfold alloc_kmem, alloc_kmem_from_section.
  destruct (BALIGN_8 size Hs) as [Hm Hb]. set (n := BALIGN size 8) in *.
  destruct (Z.leb_spec n (free_size ks)); [right|left; split; [lia|done]].
  cbn [assert obind]. rewrite !wrap_small by lia. eexists. split; [done|].
  split; [|cbn; lia]. split_and!; cbn; try lia.
  rewrite Z.add_mod, H5, Hm by lia. done.
Qed.

Lemma alloc_kpages_spec ks n :
  kmem_ok ks -> 0 <= n -> 4096 * n <= free_size ks ->
  exists ks', alloc_kpages ks n = Ret (free_page_base ks - 4096 * n, ks') /\ kmem_ok ks' /\
    free_base ks' = free_base ks /\ free_page_base ks' = free_page_base ks - 4096 * n.
Proof.
  intros (H1 & H2 & H3 & H4 & H5) Hn Hle. unfold alloc_kpages. case_bools. cbn [assert obind].
  rewrite Z.shiftl_mul_pow2 by done. change (2 ^ PAGE_SHIFT) with 4096.
  rewrite !wrap_small by lia. eexists. split; [do 2 f_equal; lia|].
  split; [split_and!; cbn; lia || done|]. cbn. lia.
Qed.

(** ** Sections start out well-formed *)

Lemma no_heads (l : list page) (i : nat) p : (forall q, q ∈ l -> q = zero_page) -> l !! i = Some p -> is_head p = true -> False.
Proof. intros Hz Hl Hh. rewrite (Hz p) in Hh by (by eapply list_elem_of_lookup_2). by vm_compute in Hh. Qed.

Lemma fresh_section_ok ms nw np :
  block_section ms = false -> bitmap ms = replicate nw 0 -> pages ms = replicate np zero_page ->
  0 < total_cnt ms -> total_cnt ms <= 64 * Z.of_nat nw -> total_cnt ms <= Z.of_nat np ->
  64 * Z.of_nat nw < 2 ^ 64 ->
  bm_current ms = 0 -> free_cnt ms = total_cnt ms ->
  0 < phy_base ms -> phy_base ms mod 4096 = 0 -> phy_base ms + 4096 * total_cnt ms <= 2 ^ 32 ->
  vir_base ms = phy_base ms -> phy_base ms + 4096 * total_cnt ms <= vir_end ms ->
  section_ok ms.
Proof.
  intros Hk Hb Hp Ht Hw Hn Hfit Hc Hf H1 H2 H3 Hv He.
  assert (Hnh : forall i p, ~ head_at ms i p).
  { intros i p (_ & Hl & Hh). rewrite Hp in Hl. eapply no_heads; [|exact Hl|exact Hh].
    intros q Hq. by apply elem_of_replicate in Hq as [-> _]. }
  split; rewrite ?Hb, ?Hp, ?length_replicate; try done; try lia.
  - split; [|by rewrite length_replicate]. apply Forall_replicate. unfold is_word; lia.
  - rewrite (count_from_const _ _ _ false) by (intros; apply bit_at_zeros). cbn. lia.
  - intros i p Hh. by apply Hnh in Hh.
  - intros i j p q Hh. by apply Hnh in Hh.
  - intros k Hk' Hbit. by rewrite bit_at_zeros in Hbit.
  - intros i p Hl _. by apply lookup_replicate in Hl as [-> _].
Qed.

Lemma BITS_TO_LONGS_bound n : 0 <= n -> n <= 64 * BITS_TO_LONGS n < n + 64.
Proof. unfold BITS_TO_LONGS. intros. Z.div_mod_to_equations; lia. Qed.

Lemma kernel_section_ok base size :
  0 < base -> base mod 4096 = 0 -> base + size <= 2 ^ 32 -> 0x100000 <= size ->
  let ms := add_kernel_page_section base size in
  section_ok ms /\ base < phy_base ms /\ phy_base ms + 4096 * total_cnt ms <= base + size /\
  base + BITMAP_SIZE (size / 4096) + (size / 4096) * sizeof_page <= phy_base ms.
Proof.
  intros Hb Hm Hmax Hmin. cbv zeta. unfold add_kernel_page_section. rewrite !shiftr_PAGE.
  unfold BITMAP_SIZE, sizeof_page. pose proof (BITS_TO_LONGS_bound (size / 4096)) as Hl.
  set (n := size / 4096) in *. assert (Hn : 4096 * n <= size < 4096 * n + 4096) by (unfold n; Z.div_mod_to_equations; lia).
  specialize (Hl ltac:(lia)). set (w := BITS_TO_LONGS n) in *.
  rewrite (wrap_small 64 (base + size)), (wrap_small 64 (base + w * 8)), (wrap_small 64 (_ + n * 16)) by lia.
  destruct (PAGE_BALIGN_spec (base + w * 8 + n * 16)) as [Hpm Hpb]; [lia|].
  set (b := PAGE_BALIGN _) in *. rewrite (wrap_small 64 (base + size - b)) by lia.
  set (t := (base + size - b) / 4096).
  assert (Ht : 4096 * t <= base + size - b < 4096 * t + 4096) by (unfold t; Z.div_mod_to_equations; lia).
  unfold ptov. rewrite wrap_small by lia. cbn. split; [|lia].
  apply (fresh_section_ok _ (Z.to_nat w) (Z.to_nat n)); cbn; try done; lia.
Qed.

Lemma alloc_kmem_run ks size v ks' :
  kmem_ok ks -> 0 <= size <= 2 ^ 64 - 8 -> alloc_kmem ks size = Ret (v, ks') ->
  v = free_base ks /\ kmem_ok ks' /\ free_base ks + size <= free_base ks' <= free_page_base ks /\
  free_page_base ks' = free_page_base ks.
Proof.
  intros Hk Hs E. destruct (alloc_kmem_spec ks size Hk Hs) as [[_ E']|(ks1 & E' & H)];
    rewrite E' in E; simplify_eq. done.
Qed.

(** What a successful [add_page_section] appends. *)
Lemma add_page_section_spec ks l base size ks' l' :
  kmem_ok ks -> 0 < base -> 0 <= size -> base + size <= 2 ^ 32 ->
  add_page_section ks l base size = Ret (0, ks', l') ->
  kmem_ok ks' /\ exists ms, l' = l ++ [ms] /\ phy_base ms = base /\ ms_size ms = size /\
    block_section ms = IS_BLOCK_ALIGN base && IS_BLOCK_ALIGN size /\
    (base mod 4096 = 0 -> 4096 <= size -> block_section ms = false -> section_ok ms).
Proof.
  intros Hk Hb Hs Hmax. unfold add_page_section. destruct (_ || _); [done|]. rewrite !shiftr_PAGE.
  unfold BITMAP_SIZE, sizeof_page. pose proof (BITS_TO_LONGS_bound (size / 4096)) as Hl.
  set (n := size / 4096) in *.
  assert (Hn : 4096 * n <= size < 4096 * n + 4096) by (unfold n; Z.div_mod_to_equations; lia).
  specialize (Hl ltac:(lia)). intros E. apply obind_Ret_inv in E as ([bm k1] & E1 & E).
  apply alloc_kmem_run in E1 as (_ & Hk1 & _); [|done|lia].
  apply obind_Ret_inv in E as (_ & _ & E). apply obind_Ret_inv in E as ([pg k2] & E2 & E).
  rewrite wrap_small in E2 by lia. apply alloc_kmem_run in E2 as (_ & Hk2 & _); [|done|lia].
  apply obind_Ret_inv in E as (_ & _ & E). rewrite shiftr_BLOCK in E.
  destruct (IS_BLOCK_ALIGN base && IS_BLOCK_ALIGN size) eqn:Ea.
  - pose proof (BITS_TO_LONGS_bound (size / BLOCK_SIZE)) as Hb2.
    assert (0 <= size / BLOCK_SIZE <= size) by (change BLOCK_SIZE with 2097152; Z.div_mod_to_equations; lia).
    apply obind_Ret_inv in E as ([bb k3] & E3 & E). apply alloc_kmem_run in E3 as (_ & Hk3 & _); [|done|lia].
    apply obind_Ret_inv in E as (_ & _ & E). injection E as <- <-. split; [done|].
    eexists. split; [reflexivity|]. cbn. done.
  - injection E as <- <-. split; [done|]. eexists. split; [reflexivity|]. do 3 (split; [done|]).
    intros Hm Hmin _. unfold ptov.
    apply (fresh_section_ok _ (Z.to_nat (BITS_TO_LONGS n)) (Z.to_nat n)); cbn; try done; try lia.
    rewrite wrap_small; lia.
Qed.

(** A section records the range it was made from, whatever its kind. *)
Lemma add_page_section_range ks l base size ks' l' :
  add_page_section ks l base size = Ret (0, ks', l') ->
  exists ms, l' = l ++ [ms] /\ phy_base ms = base /\ ms_size ms = size.
Proof.
  unfold add_page_section. destruct (_ || _); [done|]. intros E.
  apply obind_Ret_inv in E as ([bm k1] & _ & E). apply obind_Ret_inv in E as (_ & _ & E).
  apply obind_Ret_inv in E as ([pg k2] & _ & E). apply obind_Ret_inv in E as (_ & _ & E).
  destruct (_ && _).
  - apply obind_Ret_inv in E as ([bb k3] & _ & E). apply obind_Ret_inv in E as (_ & _ & E).
    apply Ret_inj, pair_equal_spec in E as [_ <-]. eexists. split; [reflexivity|split; reflexivity].
  - apply Ret_inj, pair_equal_spec in E as [_ <-]. eexists. split; [reflexivity|split; reflexivity].
Qed.

Definition section_range (ms : mem_section) : Z * Z := (phy_base ms, ms_size ms).
Definition region_range (r : memory_region) : Z * Z := (r_base r, r_size r).
Definition normal_regions (l : list memory_region) : list memory_region :=
  filter (fun r => r_type r = MEMORY_REGION_TYPE_NORMAL) l.

Lemma handle_regions_sections l ks ms rd ks' ms' rd' :
  handle_regions l ks ms rd = Ret (ks', ms', rd') ->
  exists new, ms' = ms ++ new /\ map section_range new = map region_range (normal_regions l).
Proof.
  revert ks ms rd. induction l as [|re l IH]; intros ks ms rd; cbn [handle_regions].
  - intros E. injection E as _ <- _. exists []. by rewrite app_nil_r.
  - unfold normal_regions. destruct (Z.eqb_spec (r_type re) MEMORY_REGION_TYPE_RAMDISK) as [E|_].
    + rewrite filter_cons_False by (rewrite E; done). apply IH.
    + destruct (Z.eqb_spec (r_type re) MEMORY_REGION_TYPE_NORMAL) as [E|E].
      * rewrite filter_cons_True by done. intros H.
        apply obind_Ret_inv in H as ([[ret k] m] & E1 & H). apply obind_Ret_inv in H as (u & Hr & H).
        apply assert_Ret, Z.eqb_eq in Hr as ->.
        apply add_page_section_range in E1 as (x & -> & H1 & H2).
        destruct (IH _ _ _ H) as (new & -> & Hnew). exists (x :: new).
        split; [by rewrite <- app_assoc|]. cbn [map]. rewrite Hnew. f_equal.
        unfold section_range, region_range. by rewrite H1, H2.
      * rewrite filter_cons_False by done. apply IH.
Qed.

(** ** Properties *)

(** The boot allocator returns consecutive, 8-byte aligned ranges below the
    page pointer and keeps "free range = space between the two pointers"; a
    request that does not fit stops the kernel. *)
Theorem alloc_kmem_bump ks size :
  kmem_ok ks -> 0 <= size <= 2 ^ 64 - 8 ->
  (free_size ks < BALIGN size 8 /\ alloc_kmem ks size = Panic) \/
  exists ks', alloc_kmem ks size = Ret (free_base ks, ks') /\ kmem_ok ks' /\
    free_base ks + size <= free_base ks' <= free_page_base ks /\
    free_page_base ks' = free_page_base ks.
Proof. apply alloc_kmem_spec. Qed.

Definition boot_kmem : kmem_section :=
  mk_kmem 0x40000000 0x40000000 0x4000000 0x40200000 0x44000000 0x3e00000.

Lemma alloc_kmem_bump_witness : value (alloc_kmem boot_kmem 100) = Ret 0x40200000.
Proof.
  destruct (alloc_kmem_bump boot_kmem 100) as [[H _]|(ks' & E & _)].
  - split_and!; cbn; lia || done.
  - lia.
  - vm_compute in H. discriminate H.
  - rewrite E. reflexivity.
Defined.

(** The section built from the rest of the kernel memory satisfies the page
    allocator's invariant, and the pages it manages lie above the bitmap and the
    descriptors stored at its start, inside the given range. *)
Theorem kernel_page_section_ok base size :
  0 < base -> base mod 4096 = 0 -> base + size <= 2 ^ 32 -> 0x100000 <= size ->
  let ms := add_kernel_page_section base size in
  section_ok ms /\ base < phy_base ms /\ phy_base ms + 4096 * total_cnt ms <= base + size /\
  base + BITMAP_SIZE (size / 4096) + (size / 4096) * sizeof_page <= phy_base ms.
Proof. apply kernel_section_ok. Qed.

Lemma kernel_page_section_ok_witness : section_ok (add_kernel_page_section 0x40200000 0x200000).
Proof.
  exact (proj1 (kernel_page_section_ok 0x40200000 0x200000 ltac:(lia) eq_refl ltac:(lia) ltac:(lia))).
Defined.

(** A successful [add_page_section] appends one section for the range, keeps
    the boot allocator's invariant, and the section satisfies the page allocator's
    invariant when it is not block-aligned. *)
Theorem add_page_section_ok ks l base size ks' l' :
  kmem_ok ks -> 0 < base -> 0 <= size -> base + size <= 2 ^ 32 ->
  add_page_section ks l base size = Ret (0, ks', l') ->
  kmem_ok ks' /\ exists ms, l' = l ++ [ms] /\ phy_base ms = base /\ ms_size ms = size /\
    block_section ms = IS_BLOCK_ALIGN base && IS_BLOCK_ALIGN size /\
    (base mod 4096 = 0 -> 4096 <= size -> block_section ms = false -> section_ok ms).
Proof. apply add_page_section_spec. Qed.

Definition after_add (o : outcome (Z * kmem_section * list mem_section)) : kmem_section :=
  match o with Ret (_, ks, _) => ks | _ => boot_kmem end.

Lemma add_page_section_ok_witness :
  kmem_ok (after_add (add_page_section boot_kmem [zero_section] 0x50000000 0x8000)).
Proof.
  refine (proj1 (add_page_section_ok boot_kmem [zero_section] 0x50000000 0x8000 _
    (match add_page_section boot_kmem [zero_section] 0x50000000 0x8000 with
     | Ret (_, _, l) => l | _ => [] end) _ _ _ _ _)).
  - split_and!; cbn; lia || done.
  - lia.
  - lia.
  - lia.
  - vm_compute. reflexivity.
Defined.

(** When [mm_init] returns, section 0 is the kernel's and the others are, in
    order, exactly the normal regions left by the alignment pass. *)
Theorem mm_init_sections start end_ ram regions mm :
  mm_init start end_ ram regions = Ret mm ->
  exists s0 new, mm_sections mm = s0 :: new /\
    map section_range new = map region_range (normal_regions (mem_list (mm_regions mm))).
Proof.
  unfold mm_init. intros E. apply obind_Ret_inv in E as (_ & _ & E).
  apply obind_Ret_inv in E as (_ & _ & E). apply obind_Ret_inv in E as (kre & _ & E).
  apply obind_Ret_inv in E as (ks & _ & E). apply obind_Ret_inv in E as (rs & _ & E).
  destruct ks as [ks|]; [|done]. apply obind_Ret_inv in E as ([[k m] rd] & Eh & E).
  injection E as <-. apply handle_regions_sections in Eh as (new & -> & Hnew).
  eexists _, new. split; [done|exact Hnew].
Qed.

Definition boot_list : mem_state :=
  mk_mem [mk_region MEMORY_REGION_TYPE_KERNEL 0 0x40000000 0x4000000;
          mk_region MEMORY_REGION_TYPE_NORMAL 0 0x44100000 0x1000000] 2.

Lemma mm_init_sections_witness :
  exists mm s0 new, mm_init 0x40000000 0x40080000 0x4000000 boot_list = Ret mm /\
    mm_sections mm = s0 :: new /\
    map section_range new = map region_range (normal_regions (mem_list (mm_regions mm))).
Proof.
  destruct (mm_init 0x40000000 0x40080000 0x4000000 boot_list) as [mm| | |] eqn:E.
  - destruct (mm_init_sections _ _ _ _ mm E) as (s0 & new & H1 & H2).
    exists mm, s0, new. split; [reflexivity|split; [exact H1|exact H2]].
  - vm_compute in E. discriminate E.
  - vm_compute in E. discriminate E.
  - vm_compute in E. discriminate E.
Defined.

(** [alloc_kpages] does not compare the request with the free size: two pages
    are taken out of a section with one, the size wraps around, and the next
    [alloc_kmem] returns memory inside the pages just handed out. *)
Theorem alloc_kpages_unchecked :
  let ks := mk_kmem 0x40000000 0x40000000 0x2000 0x40001000 0x40002000 0x1000 in
  value (alloc_kpages ks 2) = Ret 0x40000000 /\
  value (let* (_, ks) := alloc_kpages ks 2 in alloc_kmem ks 0x100000) = Ret 0x40001000.
Proof. split; vm_compute; reflexivity. Qed.
