(* ===== verification/Slab.v ===== *)
(** * Slab allocator

    [core/slab.c]: a bump heap of 128 MiB of kernel virtual memory, mapped page by
    page on demand, with one LIFO cache of freed chunks per chunk size.

    A chunk's header is its size and one word that is the magic number while the
    chunk is in use and the link to the next free chunk while it is cached, as in
    the [union] of the source; the headers are a finite map from addresses, so the
    caches are real pointer chains.  How a heap page is obtained and mapped
    ([get_free_page] and [create_host_mapping]) is the interface [HeapPages]. *)

From S2P Require Import Prelude Types Bits Bitmap Page.

Definition SLAB_MEM_BASE : Z := ptov (511 * 1024 * 1024 * 1024).
Definition SLAB_MEM_SIZE : Z := 128 * 1024 * 1024.
Definition SLAB_MEM_END : Z := SLAB_MEM_BASE + SLAB_MEM_SIZE.
Definition SLAB_MIN_DATA_SIZE : Z := 16.
Definition SLAB_HEADER_SIZE : Z := 16.
Definition SLAB_MAGIC : Z := 0xdeadbeef.
Definition HASH_TABLE_SIZE : Z := 8.
Definition sizeof_slab_type : Z := 32.

Record slab_header := mk_header {
  sh_size : Z;
  sh_word : Z;
}.

Record slab_type := mk_type {
  st_size : Z;
  st_head : Z;
}.

(** One page of the heap: take a free page and map it at [va]; both [ASSERT]s. *)
Class HeapPages (M : Type) := map_heap_page : M -> Z -> outcome M.

Record slab_state (M : Type) := mk_slab {
  slab_base : Z;
  slab_size : Z;
  cur_free_size : Z;
  slab_hash_table : list (list slab_type);
  headers : gmap Z slab_header;
  heap_pages : M;
}.
Arguments mk_slab {M}.
Arguments slab_base {M}.
Arguments slab_size {M}.
Arguments cur_free_size {M}.
Arguments slab_hash_table {M}.
Arguments headers {M}.
Arguments heap_pages {M}.

Definition hash_id (size : Z) : Z := Z.shiftr size 4 mod HASH_TABLE_SIZE.

Definition is_slab_memory (addr : Z) : bool :=
  (SLAB_MEM_BASE <=? addr) && (addr <? SLAB_MEM_END).

Definition get_slab_alloc_size (size : Z) : Z := BALIGN size SLAB_MIN_DATA_SIZE.

Section slab.
Context {M : Type} `{HeapPages M}.

Definition slab_init (m : M) : slab_state M :=
  mk_slab SLAB_MEM_BASE SLAB_MEM_SIZE 0 (replicate 8 []) ∅ m.

Definition set_headers (st : slab_state M) (h : gmap Z slab_header) : slab_state M :=
  mk_slab (slab_base st) (slab_size st) (cur_free_size st) (slab_hash_table st) h (heap_pages st).

Definition set_table (st : slab_state M) (id : Z) (b : list slab_type) : slab_state M :=
  mk_slab (slab_base st) (slab_size st) (cur_free_size st)
    (<[Z.to_nat id := b]> (slab_hash_table st)) (headers st) (heap_pages st).

Definition bucket (st : slab_state M) (id : Z) : outcome (list slab_type) :=
  match slab_hash_table st !! Z.to_nat id with Some b => Ret b | None => Fault end.

(** [list_for_each_entry(st, ...) if (st->size != size) continue; ...] *)
Fixpoint find_type (b : list slab_type) (size : Z) (i : nat) : option (nat * slab_type) :=
  match b with
  | [] => None
  | t :: b => if st_size t =? size then Some (i, t) else find_type b size (S i)
  end.

Definition malloc_from_hash_table (st : slab_state M) (size : Z) : outcome (Z * slab_state M) :=
  let id := hash_id size in
  let* b := bucket st id in
  match find_type b size 0 with
  | None => Ret (0, st)
  | Some (i, t) =>
      if st_head t =? 0 then Ret (0, st) else
      let sh := st_head t in
      match headers st !! sh with
      | None => Fault
      | Some hd =>
          let st := set_table st id (<[i := mk_type (st_size t) (sh_word hd)]> b) in
          let st := set_headers st (<[sh := mk_header (sh_size hd) SLAB_MAGIC]> (headers st)) in
          Ret (sh + SLAB_HEADER_SIZE, st)
      end
  end.

(** The [for] loop that maps [n] pages from [base]. *)
Fixpoint map_pages (n : nat) (m : M) (base : Z) : outcome M :=
  match n with
  | O => Ret m
  | S n => let* m := map_heap_page m base in map_pages n m (u64 (base + PAGE_SIZE))
  end.

Definition malloc_from_slab_heap (st : slab_state M) (size : Z) : outcome (Z * slab_state M) :=
  let size := u64 (size + SLAB_HEADER_SIZE) in
  if slab_size st <? size then Ret (0, st) else
  let '(base, mapsize, cur) :=
    if size <=? cur_free_size st then (0, 0, u32 (cur_free_size st - size))
    else
      let mapsize := u32 (PAGE_BALIGN (u64 (size - cur_free_size st))) in
      (u64 (slab_base st + cur_free_size st), mapsize,
       u32 (cur_free_size st + mapsize - size)) in
  let* m := map_pages (Z.to_nat (Z.shiftr mapsize PAGE_SHIFT)) (heap_pages st) base in
  let sh := slab_base st in
  Ret (sh + SLAB_HEADER_SIZE,
       mk_slab (u64 (slab_base st + size)) (u32 (slab_size st - size)) cur (slab_hash_table st)
         (<[sh := mk_header (u64 (size - SLAB_HEADER_SIZE)) SLAB_MAGIC]> (headers st)) m).

Definition free_slab (st : slab_state M) (addr : Z) : outcome (slab_state M) :=
  let header := u64 (addr - SLAB_HEADER_SIZE) in
  match headers st !! header with
  | None => Fault
  | Some hd =>
      if negb (sh_word hd =? SLAB_MAGIC) || (sh_size hd <? SLAB_MIN_DATA_SIZE) then Ret st else
      let id := hash_id (sh_size hd) in
      let* b := bucket st id in
      match find_type b (sh_size hd) 0 with
      | Some (i, t) =>
          let st := set_headers st (<[header := mk_header (sh_size hd) (st_head t)]> (headers st)) in
          Ret (set_table st id (<[i := mk_type (st_size t) header]> b))
      | None =>
          let* (p, st) := malloc_from_slab_heap st sizeof_slab_type in
          check negb (p =? 0) in
          let* b := bucket st id in
          let st := set_headers st (<[header := mk_header (sh_size hd) 0]> (headers st)) in
          Ret (set_table st id (b ++ [mk_type (sh_size hd) header]))
      end
  end.

(** [BUG()] spins forever: the kernel stops. *)
Definition __malloc (st : slab_state M) (size : Z) : outcome (Z * slab_state M) :=
  let* (mem, st) := malloc_from_hash_table st size in
  let* (mem, st) := if mem =? 0 then malloc_from_slab_heap st size else Ret (mem, st) in
  if mem =? 0 then Panic else Ret (mem, st).

Definition malloc (st : slab_state M) (size : Z) : outcome (Z * slab_state M) :=
  check negb (size =? 0) in
  __malloc st (get_slab_alloc_size size).

(** [free] of slab memory; other addresses go to [free_pages] first. *)
Definition free (free_pages : M -> Z -> outcome (Z * M)) (st : slab_state M) (addr : Z)
    : outcome (slab_state M) :=
  if negb (is_slab_memory addr) then
    let* (ret, m) := free_pages (heap_pages st) addr in
    let st := mk_slab (slab_base st) (slab_size st) (cur_free_size st) (slab_hash_table st)
                (headers st) m in
    if ret =? 0 then Ret st else free_slab st addr
  else free_slab st addr.
End slab.

(** ** Invariant *)

(** The free chain that starts at [a]: every link is a chunk of the given size. *)
Inductive chain (h : gmap Z slab_header) (size : Z) : Z -> list Z -> Prop :=
| chain_nil : chain h size 0 []
| chain_cons a hd l :
    a <> 0 -> h !! a = Some hd -> sh_size hd = size -> chain h size (sh_word hd) l ->
    chain h size a (a :: l).

Definition headers_ok (base : Z) (h : gmap Z slab_header) : Prop :=
  (forall a hd, h !! a = Some hd ->
     SLAB_MEM_BASE <= a /\ a + SLAB_HEADER_SIZE + sh_size hd <= base /\
     SLAB_MIN_DATA_SIZE <= sh_size hd /\ sh_size hd mod 16 = 0 /\ a mod 16 = 0) /\
  (forall a b ha hb, h !! a = Some ha -> h !! b = Some hb -> a < b ->
     a + SLAB_HEADER_SIZE + sh_size ha <= b).

Definition type_ok (h : gmap Z slab_header) (id : nat) (t : slab_type) : Prop :=
  hash_id (st_size t) = Z.of_nat id /\ exists l, chain h (st_size t) (st_head t) l /\ NoDup l.

Definition table_ok (h : gmap Z slab_header) (tb : list (list slab_type)) : Prop :=
  length tb = 8%nat /\
  forall id b, tb !! id = Some b -> NoDup (map st_size b) /\ Forall (type_ok h id) b.

Record slab_ok {M} (st : slab_state M) : Prop := {
  sl_base : SLAB_MEM_BASE <= slab_base st;
  sl_size : 0 <= slab_size st /\ slab_base st + slab_size st = SLAB_MEM_END;
  sl_cur : 0 <= cur_free_size st < 4096;
  sl_align : (slab_base st + cur_free_size st) mod 4096 = 0 /\ slab_base st mod 16 = 0;
  sl_headers : headers_ok (slab_base st) (headers st);
  sl_table : table_ok (headers st) (slab_hash_table st);
}.

(** A chunk in use. *)
Definition live {M} (st : slab_state M) (a : Z) : Prop :=
  exists hd, headers st !! a = Some hd /\ sh_word hd = SLAB_MAGIC.

Lemma chain_in h size a l : chain h size a l -> forall x, x ∈ l ->
  exists hd, h !! x = Some hd /\ sh_size hd = size.
Proof.
  induction 1 as [|a hd l Ha Hh Hs Hc IH]; intros x Hx; [by apply not_elem_of_nil in Hx|].
  apply elem_of_cons in Hx as [->|Hx]; [by exists hd|by apply IH].
Qed.

(** A link is null or the address of a chunk, never the magic number. *)
Lemma chain_not_magic base h size a l :
  headers_ok base h -> chain h size a l ->
  forall x hd, x ∈ l -> h !! x = Some hd -> sh_word hd <> SLAB_MAGIC.
Proof.
  intros [Hok _]. induction 1 as [|a hd l Ha Hh Hs Hc IH]; intros x hx Hx Hl.
  - by apply not_elem_of_nil in Hx.
  - apply elem_of_cons in Hx as [->|Hx]; [|by eapply IH]. assert (hx = hd) as -> by congruence.
    clear IH. remember (sh_word hd) as w. destruct Hc as [|b hb l' Hb Hhb]; [done|].
    destruct (Hok _ _ Hhb) as [Hge _]. unfold SLAB_MEM_BASE, ptov, SLAB_MAGIC in *. lia.
Qed.

Lemma chain_insert h size a l x v :
  chain h size a l -> x ∉ l -> chain (<[x := v]> h) size a l.
Proof.
  induction 1 as [|a hd l Ha Hh Hs Hc IH]; intros Hx; [constructor|].
  apply not_elem_of_cons in Hx as [Hne Hx].
  econstructor; [done|by rewrite lookup_insert_ne|done|by apply IH].
Qed.

(** Rewriting the header of a chunk outside of every chain keeps the table. *)
Lemma type_ok_insert h id t x v :
  type_ok h id t ->
  (forall l, chain h (st_size t) (st_head t) l -> x ∉ l) -> type_ok (<[x := v]> h) id t.
Proof.
  intros (Hid & l & Hc & Hn) Hx. split; [done|]. exists l. split; [|done].
  apply chain_insert; [done|by apply Hx].
Qed.

Lemma headers_ok_insert base h a hd w :
  headers_ok base h -> h !! a = Some hd -> headers_ok base (<[a := mk_header (sh_size hd) w]> h).
Proof.
  intros [H1 H2] Ha. split.
  - intros b hb Hb. apply lookup_insert_Some in Hb as [(-> & <-)|[_ Hb]]; [by apply (H1 _ hd)|by apply H1].
  - intros b c hb hc Hb Hc Hlt. apply lookup_insert_Some in Hb as [(-> & <-)|[_ Hb]];
      apply lookup_insert_Some in Hc as [(-> & <-)|[_ Hc]]; [lia|..]; cbn [sh_size].
    + by apply (H2 _ _ hd hc).
    + by apply (H2 _ _ hb hd).
    + by apply (H2 _ _ hb hc).
Qed.

Lemma headers_ok_fresh base h size w :
  headers_ok base h -> SLAB_MEM_BASE <= base -> base mod 16 = 0 -> SLAB_MIN_DATA_SIZE <= size -> size mod 16 = 0 ->
  h !! base = None /\ headers_ok (base + SLAB_HEADER_SIZE + size) (<[base := mk_header size w]> h).
Proof.
  intros [H1 H2] Hb Hb16 Hs Hm. unfold SLAB_MIN_DATA_SIZE, SLAB_HEADER_SIZE in *.
  assert (Hfresh : forall a hd, h !! a = Some hd -> a + 16 + sh_size hd <= base /\ a < base).
  { intros a hd Ha. destruct (H1 _ _ Ha) as (_ & Hle & Hmin & _).
    unfold SLAB_MIN_DATA_SIZE, SLAB_HEADER_SIZE in *. lia. }
  split.
  - destruct (h !! base) as [hd|] eqn:E; [|done]. destruct (Hfresh _ _ E). lia.
  - split.
    + intros a hd Ha. apply lookup_insert_Some in Ha as [(-> & <-)|[_ Ha]]; cbn [sh_size].
      * unfold SLAB_MIN_DATA_SIZE, SLAB_HEADER_SIZE. split_and!; lia || done.
      * destruct (H1 _ _ Ha) as (? & ? & ? & ? & ?). unfold SLAB_MIN_DATA_SIZE, SLAB_HEADER_SIZE in *.
        split_and!; lia || done.
    + intros a c ha hc Ha Hc Hlt. unfold SLAB_HEADER_SIZE.
      apply lookup_insert_Some in Ha as [(-> & <-)|[_ Ha]];
      apply lookup_insert_Some in Hc as [(-> & <-)|[_ Hc]]; [lia|..].
      * destruct (Hfresh _ _ Hc). lia.
      * apply (Hfresh _ _ Ha).
      * by apply (H2 _ _ ha hc).
Qed.

Lemma find_type_spec b size i :
  match find_type b size i with
  | Some (k, t) => exists j, k = (i + j)%nat /\ b !! j = Some t /\ st_size t = size
  | None => forall t, t ∈ b -> st_size t <> size
  end.
Proof.
  revert i. induction b as [|t b IH]; intros i; cbn [find_type]; [intros t Ht; by apply not_elem_of_nil in Ht|].
  destruct (Z.eqb_spec (st_size t) size) as [E|E]; [exists 0%nat; split; [lia|done]|].
  specialize (IH (S i)). destruct (find_type b size (S i)) as [[k x]|].
  - destruct IH as (j & -> & ? & ?). exists (S j). split; [lia|done].
  - intros x [->|Hx]%elem_of_cons; [done|by apply IH].
Qed.

Lemma hash_id_range size : 0 <= hash_id size < 8.
Proof. apply Z.mod_pos_bound. done. Qed.

Lemma bucket_ok {M} (st : slab_state M) size :
  table_ok (headers st) (slab_hash_table st) ->
  exists b, bucket st (hash_id size) = Ret b /\
    slab_hash_table st !! Z.to_nat (hash_id size) = Some b.
Proof.
  intros [Hl _]. pose proof (hash_id_range size). unfold bucket.
  destruct (lookup_lt_is_Some_2 (slab_hash_table st) (Z.to_nat (hash_id size))) as [b Hb]; [lia|].
  exists b. by rewrite Hb.
Qed.

(** Replacing the entry of one size, with any change to headers of that size. *)
Lemma table_ok_update h h' tb id b b' size :
  table_ok h tb -> tb !! id = Some b -> Z.of_nat id = hash_id size ->
  (forall s a l, s <> size -> chain h s a l -> chain h' s a l) ->
  NoDup (map st_size b') -> Forall (fun t => t ∈ b \/ st_size t = size) b' ->
  (forall t, t ∈ b' -> st_size t = size -> type_ok h' id t) ->
  table_ok h' (<[id := b']> tb).
Proof.
  intros [Hl Ht] Hb Hid Hc Hn Hmem Hnew. split; [by rewrite length_insert|].
  intros j c Hj. apply list_lookup_insert_Some in Hj as [(-> & -> & _)|[Hne Hj]].
  - split; [done|]. apply Forall_forall. intros t Htin.
    destruct (decide (st_size t = size)) as [E|E]; [by apply Hnew|].
    destruct (proj1 (Forall_forall _ _) Hmem t Htin) as [Hin|?]; [|done].
    destruct (Ht _ _ Hb) as [_ Hf]. destruct (proj1 (Forall_forall _ _) Hf t Hin) as (H1 & l & H2 & H3).
    split; [done|]. exists l. split; [by apply Hc|done].
  - destruct (Ht _ _ Hj) as [H1 H2]. split; [done|]. apply (Forall_impl _ _ _ H2).
    intros t (Hh & l & Hcl & Hnl). split; [done|]. exists l. split; [|done]. apply Hc; [|done].
    intros E. rewrite E in Hh. lia.
Qed.

Section slab_proofs.
Context {M : Type} `{HeapPages M}.
Hypothesis pages_total : forall m va, exists m', map_heap_page m va = Ret m'.

Lemma map_pages_total n m base : exists m', map_pages n m base = Ret m'.
Proof.
  revert m base. induction n as [|n IH]; intros m base; cbn [map_pages]; [eauto|].
  destruct (pages_total m base) as [m' ->]. apply IH.
Qed.

Lemma heap_spec (st : slab_state M) size :
  slab_ok st -> SLAB_MIN_DATA_SIZE <= size < 2 ^ 32 -> size mod 16 = 0 ->
  (slab_size st < size + SLAB_HEADER_SIZE /\ malloc_from_slab_heap st size = Ret (0, st)) \/
  exists st', malloc_from_slab_heap st size = Ret (slab_base st + SLAB_HEADER_SIZE, st') /\
    slab_ok st' /\ headers st !! slab_base st = None /\
    headers st' = <[slab_base st := mk_header size SLAB_MAGIC]> (headers st) /\
    slab_hash_table st' = slab_hash_table st /\
    slab_size st' = slab_size st - (size + SLAB_HEADER_SIZE).
Proof.
  intros Hok Hs Hm. unfold malloc_from_slab_heap, SLAB_MIN_DATA_SIZE, SLAB_HEADER_SIZE in *.
  destruct (sl_size _ Hok) as [Hsz Hend]. pose proof (sl_base _ Hok) as Hb.
  pose proof (sl_cur _ Hok) as Hc. destruct (sl_align _ Hok) as [Hal Hb16].
  unfold SLAB_MEM_END, SLAB_MEM_SIZE, SLAB_MEM_BASE, ptov in *.
  rewrite (wrap_small 64 (size + 16)) by lia.
  destruct (Z.ltb_spec (slab_size st) (size + 16)); [by left|right].
  set (branch := if size + 16 <=? cur_free_size st then _ else _).
  assert (Hbr : exists b n c, branch = (b, n, c) /\ 0 <= c < 4096 /\
    (slab_base st + (size + 16) + c) mod 4096 = 0).
  { unfold branch. destruct (Z.leb_spec (size + 16) (cur_free_size st)).
    - eexists _, _, _. split; [done|]. rewrite wrap_small by lia.
      split; [lia|]. rewrite <- Hal. f_equal. lia.
    - rewrite (wrap_small 64 (size + 16 - cur_free_size st)) by lia.
      destruct (PAGE_BALIGN_spec (size + 16 - cur_free_size st)) as [Hpm Hpb]; [lia|].
      rewrite (wrap_small 32 (PAGE_BALIGN _)) by lia. eexists _, _, _. split; [done|].
      rewrite wrap_small by lia. split; [lia|].
      replace (slab_base st + (size + 16) + _) with
        (slab_base st + cur_free_size st + PAGE_BALIGN (size + 16 - cur_free_size st)) by lia.
      rewrite Z.add_mod, Hal, Hpm by lia. done. }
  destruct Hbr as (b & n & c & -> & Hc' & Hal').
  destruct (map_pages_total (Z.to_nat (Z.shiftr n PAGE_SHIFT)) (heap_pages st) b) as [m' ->].
  cbn [obind]. rewrite (wrap_small 64 (slab_base st + _)), (wrap_small 32), (wrap_small 64) by lia.
  replace (size + 16 - 16) with size by lia.
  destruct (headers_ok_fresh (slab_base st) (headers st) size SLAB_MAGIC (sl_headers _ Hok)) as [Hnone Hh'];
    [unfold SLAB_MEM_BASE, ptov; lia|done|unfold SLAB_MIN_DATA_SIZE; lia|done|].
  eexists. split; [reflexivity|]. split_and!; try done.
  split; cbn; unfold SLAB_MEM_END, SLAB_MEM_SIZE, SLAB_MEM_BASE, ptov; try lia.
  - split; [done|]. rewrite Z.add_mod, Hb16 by lia.
    rewrite (Z.add_mod size 16), Hm by lia. done.
  - unfold SLAB_HEADER_SIZE in Hh'. by replace (slab_base st + (size + 16)) with (slab_base st + 16 + size) by lia.
  - destruct (sl_table _ Hok) as [Hl Ht]. split; [done|]. intros id bk Hbk.
    destruct (Ht _ _ Hbk) as [Hn Hf]. split; [done|]. apply (Forall_impl _ _ _ Hf).
    intros t Hto. apply type_ok_insert; [done|]. intros l Hcl Hin.
    destruct (chain_in _ _ _ _ Hcl _ Hin) as (hd & Hhd & _). congruence.
Qed.

Lemma sizes_unique b i j t t' :
  NoDup (map st_size b) -> b !! i = Some t -> b !! j = Some t' -> st_size t = st_size t' -> i = j.
Proof.
  intros Hn Hi Hj E. apply (NoDup_lookup (map st_size b) i j (st_size t) Hn);
    rewrite list_lookup_fmap; [by rewrite Hi|rewrite Hj; cbn; by rewrite E].
Qed.

Lemma chain_other_size (h : gmap Z slab_header) a hd w s x l :
  h !! a = Some hd -> s <> sh_size hd -> chain h s x l ->
  chain (<[a := mk_header (sh_size hd) w]> h) s x l.
Proof.
  intros Ha Hne Hc. apply chain_insert; [done|]. intros Hin.
  destruct (chain_in _ _ _ _ Hc _ Hin) as (hd' & E & Hs). congruence.
Qed.

(** Replacing entry [i] of a bucket by one of the same size. *)
Lemma bucket_replace h h' tb id b i t head :
  table_ok h tb -> tb !! id = Some b -> b !! i = Some t ->
  (forall s a l, s <> st_size t -> chain h s a l -> chain h' s a l) ->
  (exists l, chain h' (st_size t) head l /\ NoDup l) ->
  table_ok h' (<[id := <[i := mk_type (st_size t) head]> b]> tb).
Proof.
  intros Ht Hb Hi Hc Hl. destruct (proj2 Ht _ _ Hb) as [Hn Hf].
  destruct (Forall_lookup_1 _ _ _ _ Hf Hi) as [Hid _].
  assert (Em : map st_size (<[i := mk_type (st_size t) head]> b) = map st_size b).
  { change (st_size <$> <[i := mk_type (st_size t) head]> b = st_size <$> b).
    rewrite list_fmap_insert. apply list_insert_id. by rewrite list_lookup_fmap, Hi. }
  eapply (table_ok_update h h' tb id b _ (st_size t)); try done.
  - by rewrite Em.
  - apply Forall_forall. intros x Hx. apply list_elem_of_lookup in Hx as [j Hj].
    apply list_lookup_insert_Some in Hj as [(_ & <- & _)|[_ Hj]]; [by right|].
    left. by eapply list_elem_of_lookup_2.
  - intros x Hx E. apply list_elem_of_lookup in Hx as [j Hj].
    apply list_lookup_insert_Some in Hj as [(_ & <- & _)|[Hne Hj]]; [split; done|].
    destruct Hne. by apply (sizes_unique b i j t x).
Qed.

Lemma hash_spec (st : slab_state M) size :
  slab_ok st ->
  (malloc_from_hash_table st size = Ret (0, st)) \/
  exists a hd st', malloc_from_hash_table st size = Ret (a + SLAB_HEADER_SIZE, st') /\
    headers st !! a = Some hd /\ sh_size hd = size /\ sh_word hd <> SLAB_MAGIC /\
    headers st' = <[a := mk_header size SLAB_MAGIC]> (headers st) /\ slab_ok st' /\
    slab_size st' = slab_size st.
Proof.
  intros Hok. unfold malloc_from_hash_table.
  destruct (bucket_ok st size (sl_table _ Hok)) as (b & -> & Hb). cbn [obind].
  pose proof (find_type_spec b size 0) as Hf. destruct (find_type b size 0) as [[k t]|]; [|by left].
  destruct Hf as (i & -> & Hi & Hsz). cbn [Nat.add].
  destruct (proj2 (sl_table _ Hok) _ _ Hb) as [Hn Hfa].
  destruct (Forall_lookup_1 _ _ _ _ Hfa Hi) as (Hid & l & Hc & Hnl).
  destruct (Z.eqb_spec (st_head t) 0) as [|Hnz]; [by left|right].
  remember (st_head t) as a eqn:Ea. destruct Hc as [|a hd l Ha Hh Hs Hc]; [done|].
  rewrite Hh. apply NoDup_cons in Hnl as [Hnin Hnl]. rewrite Hsz in Hs. clear Ea.
  assert (Hmag : sh_word hd <> SLAB_MAGIC).
  { eapply (chain_not_magic _ (headers st) size a (a :: l)); [apply Hok| |by left|done].
    rewrite Hsz in Hc. by econstructor. }
  exists a, hd. eexists. split; [reflexivity|]. cbn [set_headers set_table headers].
  rewrite <- Hs. do 4 (split; [done|]). split; [|done].
  split; cbn; try apply Hok; [by apply headers_ok_insert; [apply Hok|]|].
  eapply bucket_replace; [apply Hok|by rewrite Hs|done| |].
  - intros s x l' Hne Hc'. apply chain_other_size; [done|congruence|done].
  - exists l. split; [|done]. by apply chain_insert.
Qed.

Lemma live_not_in_chain (st : slab_state M) c size a l :
  slab_ok st -> live st c -> chain (headers st) size a l -> c ∉ l.
Proof.
  intros Hok (hd & Hh & Hw) Hc Hin.
  by apply (chain_not_magic _ _ _ _ _ (sl_headers _ Hok) Hc c hd Hin Hh).
Qed.

(** [malloc]: the returned chunk is 16-byte aligned, is not in use, is large enough, overlaps no
    other chunk in use and is from now on in use; nothing else changes hands. *)
Definition malloc_post (st st' : slab_state M) (size p : Z) : Prop :=
  let c := p - SLAB_HEADER_SIZE in
  slab_ok st' /\ ~ live st c /\
  headers st' = <[c := mk_header (get_slab_alloc_size size) SLAB_MAGIC]> (headers st) /\
  size <= get_slab_alloc_size size /\ p mod 16 = 0 /\
  (forall b hd, headers st !! b = Some hd -> sh_word hd = SLAB_MAGIC ->
     b + SLAB_HEADER_SIZE + sh_size hd <= c \/ p + get_slab_alloc_size size <= b) /\
  SLAB_MEM_BASE <= c /\ p + get_slab_alloc_size size <= SLAB_MEM_END.

Lemma alloc_size_spec size :
  0 < size <= 2 ^ 31 ->
  size <= get_slab_alloc_size size < size + 16 /\ get_slab_alloc_size size mod 16 = 0 /\
  16 <= get_slab_alloc_size size.
Proof.
  intros Hs. unfold get_slab_alloc_size, SLAB_MIN_DATA_SIZE.
  pose proof (BALIGN_pow2 size 4 ltac:(lia) ltac:(lia) ltac:(lia)) as E.
  change (2 ^ 4) with 16 in E. rewrite E. Z.div_mod_to_equations; lia.
Qed.

(** A chunk keeps clear of every other chunk. *)
Lemma headers_disjoint base (h : gmap Z slab_header) a b ha hb :
  headers_ok base h -> h !! a = Some ha -> h !! b = Some hb -> a <> b ->
  b + SLAB_HEADER_SIZE + sh_size hb <= a \/ a + SLAB_HEADER_SIZE + sh_size ha <= b.
Proof.
  intros [_ H2] Ha Hb Hne. destruct (Z.lt_gt_cases a b) as [[Hlt|Hlt] _]; [done|right|left];
    [by apply (H2 a b ha hb)|by apply (H2 b a hb ha)].
Qed.

(** What the invariant of the state after says of the chunk handed out. *)
Lemma malloc_post_intro (st st' : slab_state M) size c :
  slab_ok st' -> ~ live st c -> size <= get_slab_alloc_size size ->
  headers st' = <[c := mk_header (get_slab_alloc_size size) SLAB_MAGIC]> (headers st) ->
  malloc_post st st' size (c + SLAB_HEADER_SIZE).
Proof.
  intros Hok Hnl Hsz Hh. unfold malloc_post. replace (c + SLAB_HEADER_SIZE - SLAB_HEADER_SIZE) with c by lia.
  assert (Hc : headers st' !! c = Some (mk_header (get_slab_alloc_size size) SLAB_MAGIC))
    by (rewrite Hh; apply lookup_insert_eq).
  destruct (proj1 (sl_headers _ Hok) _ _ Hc) as (Hlo & Hhi & _ & _ & Hal). destruct (sl_size _ Hok) as [Hz Hend].
  cbn [sh_size] in Hhi. split_and!; try done; [|intros b hd Hb Hw|lia].
  - unfold SLAB_HEADER_SIZE. rewrite Z.add_mod, Hal by lia. done.
  - assert (c <> b) as Hne by (intros ->; apply Hnl; by exists hd).
    apply (headers_disjoint (slab_base st') (headers st') c b _ hd (sl_headers _ Hok) Hc); [|done].
    by rewrite Hh, lookup_insert_ne.
Qed.

Lemma malloc_spec (st : slab_state M) size :
  slab_ok st -> 0 < size <= 2 ^ 31 ->
  (exists p st', malloc st size = Ret (p, st') /\ malloc_post st st' size p /\
     slab_size st - (get_slab_alloc_size size + SLAB_HEADER_SIZE) <= slab_size st') \/
  (slab_size st < get_slab_alloc_size size + SLAB_HEADER_SIZE /\ malloc st size = Panic).
Proof.
  intros Hok Hs. destruct (alloc_size_spec size Hs) as (H1 & H2 & H3). unfold malloc, __malloc.
  destruct (Z.eqb_spec size 0); [lia|]. cbn [negb assert obind].
  pose proof (sl_base _ Hok) as Hb. unfold SLAB_MEM_BASE, ptov in Hb.
  assert (Hnz : slab_base st + SLAB_HEADER_SIZE <> 0) by (unfold SLAB_HEADER_SIZE; lia).
  destruct (hash_spec st (get_slab_alloc_size size) Hok)
    as [->|(a & hd & st' & -> & Ha & Hsz & Hw & Hh & Hok' & Hss)]; cbn [obind].
  - rewrite Z.eqb_refl.
    destruct (heap_spec st (get_slab_alloc_size size) Hok) as [[Hlt ->]|(st' & -> & Hok' & Hn & Hh & Ht & Hss)];
      [unfold SLAB_MIN_DATA_SIZE; lia|done|right; done|left]. cbn [obind].
    rewrite (proj2 (Z.eqb_neq _ _) Hnz). eexists _, _. split; [done|].
    split; [|lia]. apply malloc_post_intro; try done; [|lia]. intros (x & Hx & _). congruence.
  - destruct (proj1 (sl_headers _ Hok) _ _ Ha) as (Hlo & _). left.
    assert (Hnz' : a + SLAB_HEADER_SIZE <> 0) by (unfold SLAB_MEM_BASE, ptov, SLAB_HEADER_SIZE in *; lia).
    rewrite (proj2 (Z.eqb_neq _ _) Hnz'). cbn [obind]. rewrite (proj2 (Z.eqb_neq _ _) Hnz').
    eexists _, _. split; [done|]. split; [|unfold SLAB_HEADER_SIZE; lia].
    apply malloc_post_intro; try done; [|lia]. intros (x & Hx & Hxw). congruence.
Qed.

(** [free_slab]: the chunk is cached, every other chunk keeps its state. *)
Definition free_post (st st' : slab_state M) (c : Z) : Prop :=
  slab_ok st' /\ ~ live st' c /\ (forall a, a <> c -> live st a -> live st' a) /\
  exists hd, headers st !! c = Some hd /\
    (forall size, get_slab_alloc_size size = sh_size hd -> size <> 0 ->
       value (malloc st' size) = Ret (c + SLAB_HEADER_SIZE)).

Lemma header_addr (st : slab_state M) c hd :
  slab_ok st -> headers st !! c = Some hd ->
  u64 (c + SLAB_HEADER_SIZE - SLAB_HEADER_SIZE) = c /\ c <> 0 /\ SLAB_MIN_DATA_SIZE <= sh_size hd < 2 ^ 32.
Proof.
  intros Hok Hc. destruct (proj1 (sl_headers _ Hok) _ _ Hc) as (H1 & H2 & H3 & _).
  destruct (sl_size _ Hok) as [H4 H5].
  unfold SLAB_MEM_END, SLAB_MEM_SIZE, SLAB_MEM_BASE, SLAB_HEADER_SIZE, SLAB_MIN_DATA_SIZE, ptov in *.
  rewrite wrap_small by lia. lia.
Qed.

(** A cached chunk at the head of its list is the next one handed out. *)
Lemma malloc_cached (st : slab_state M) id b i t hd size :
  id = hash_id (st_size t) -> slab_hash_table st !! Z.to_nat id = Some b -> b !! i = Some t ->
  NoDup (map st_size b) -> st_head t <> 0 -> st_head t + SLAB_HEADER_SIZE <> 0 ->
  headers st !! st_head t = Some hd -> get_slab_alloc_size size = st_size t -> size <> 0 ->
  value (malloc st size) = Ret (st_head t + SLAB_HEADER_SIZE).
Proof.
  intros -> Hb Hi Hn Hnz Hnz' Hh E Hs. unfold malloc, __malloc, malloc_from_hash_table. rewrite E.
  destruct (Z.eqb_spec size 0); [done|]. cbn [negb assert obind]. unfold bucket. rewrite Hb. cbn [obind].
  pose proof (find_type_spec b (st_size t) 0) as Hf.
  destruct (find_type b (st_size t) 0) as [[k t']|].
  2: { by destruct (Hf t (list_elem_of_lookup_2 _ _ _ Hi)). }
  destruct Hf as (j & -> & Hj & Hsz). assert (j = i) as -> by (by apply (sizes_unique b j i t' t)).
  assert (t' = t) as -> by congruence. rewrite (proj2 (Z.eqb_neq _ _) Hnz), Hh. cbn [obind value].
  rewrite (proj2 (Z.eqb_neq _ _) Hnz'). cbn [obind value]. rewrite (proj2 (Z.eqb_neq _ _) Hnz'). done.
Qed.

Lemma live_insert_other (st st' : slab_state M) c hd w :
  headers st' = <[c := mk_header hd w]> (headers st) ->
  forall a, a <> c -> live st a -> live st' a.
Proof. intros E a Hne (x & Hx & Hw). exists x. by rewrite E, lookup_insert_ne. Qed.

Lemma free_known_spec (st : slab_state M) c hd b i t :
  slab_ok st -> headers st !! c = Some hd -> sh_word hd = SLAB_MAGIC ->
  slab_hash_table st !! Z.to_nat (hash_id (sh_size hd)) = Some b -> b !! i = Some t ->
  st_size t = sh_size hd ->
  free_post st (set_table (set_headers st (<[c := mk_header (sh_size hd) (st_head t)]> (headers st)))
    (hash_id (sh_size hd)) (<[i := mk_type (st_size t) c]> b)) c.
Proof.
  intros Hok Hc Hw Hb Hi Hsz. destruct (header_addr st c hd Hok Hc) as (_ & Hnz & Hmin).
  destruct (proj2 (sl_table _ Hok) _ _ Hb) as [Hn Hfa].
  destruct (Forall_lookup_1 _ _ _ _ Hfa Hi) as (Hid & l & Hch & Hnl).
  assert (Hnin : c ∉ l) by (eapply live_not_in_chain; [done|by exists hd|done]).
  assert (Hnm : st_head t <> SLAB_MAGIC).
  { intros E. remember (st_head t) as x. destruct Hch as [|x hx l Hx Hhx]; [done|].
    destruct (proj1 (sl_headers _ Hok) _ _ Hhx) as [Hge _].
    unfold SLAB_MEM_BASE, SLAB_MAGIC, ptov in *. lia. }
  set (h' := <[c := mk_header (sh_size hd) (st_head t)]> (headers st)).
  assert (Ht' : table_ok h' (<[Z.to_nat (hash_id (sh_size hd)) := <[i := mk_type (st_size t) c]> b]>
    (slab_hash_table st))).
  { eapply bucket_replace; [apply Hok|done|done| |].
    - intros s x l' Hne Hc'. apply chain_other_size; [done|congruence|done].
    - exists (c :: l). split; [|by apply NoDup_cons].
      apply (chain_cons _ _ _ (mk_header (sh_size hd) (st_head t))); [done|apply lookup_insert_eq|done|].
      cbn. by apply chain_insert. }
  split; [split; cbn; try apply Hok; [by apply headers_ok_insert; [apply Hok|]|exact Ht']|].
  split.
  { intros (x & Hx & Hxw). cbn in Hx. unfold h' in Hx. rewrite lookup_insert_eq in Hx. by simplify_eq. }
  split; [by eapply live_insert_other|]. exists hd. split; [done|]. intros size Es Hs.
  pose proof (hash_id_range (sh_size hd)). destruct (sl_table _ Hok) as [Hlen _].
  assert (Hlt : (i < length b)%nat) by (by eapply lookup_lt_Some).
  pose proof (proj2 Ht' (Z.to_nat (hash_id (sh_size hd))) (<[i := mk_type (st_size t) c]> b)
    ltac:(apply list_lookup_insert_eq; lia)) as [Hn' _].
  apply (malloc_cached _ (hash_id (sh_size hd)) (<[i := mk_type (st_size t) c]> b) i
    (mk_type (st_size t) c) (mk_header (sh_size hd) (st_head t))); cbn; try done.
  - by rewrite Hsz.
  - apply list_lookup_insert_eq. lia.
  - by apply list_lookup_insert_eq.
  - destruct (proj1 (sl_headers _ Hok) _ _ Hc) as [Hge _].
    unfold SLAB_MEM_BASE, ptov, SLAB_HEADER_SIZE in *. lia.
  - apply lookup_insert_eq.
  - by rewrite Hsz.
Qed.

Lemma free_new_spec (st : slab_state M) c hd b :
  slab_ok st -> headers st !! c = Some hd -> sh_word hd = SLAB_MAGIC ->
  slab_hash_table st !! Z.to_nat (hash_id (sh_size hd)) = Some b ->
  (forall t, t ∈ b -> st_size t <> sh_size hd) ->
  free_post st (set_table (set_headers st (<[c := mk_header (sh_size hd) 0]> (headers st)))
    (hash_id (sh_size hd)) (b ++ [mk_type (sh_size hd) c])) c.
Proof.
  intros Hok Hc Hw Hb Hnew. destruct (header_addr st c hd Hok Hc) as (_ & Hnz & Hmin).
  destruct (proj2 (sl_table _ Hok) _ _ Hb) as [Hn Hfa]. pose proof (hash_id_range (sh_size hd)).
  destruct (sl_table _ Hok) as [Hlen _]. set (t := mk_type (sh_size hd) c).
  set (h' := <[c := mk_header (sh_size hd) 0]> (headers st)).
  assert (Ht' : table_ok h' (<[Z.to_nat (hash_id (sh_size hd)) := b ++ [t]]> (slab_hash_table st))).
  { eapply (table_ok_update (headers st) h' _ _ b _ (sh_size hd)); [apply Hok|done|lia| | | |].
    - intros s x l' Hne Hc'. by apply chain_other_size.
    - rewrite map_app. apply NoDup_app. split; [done|]. split; [|apply NoDup_singleton].
      intros x Hx ->%list_elem_of_singleton. apply list_elem_of_In, in_map_iff in Hx as (y & E & Hy).
      apply list_elem_of_In in Hy. by apply (Hnew y).
    - apply Forall_app. split; [apply Forall_forall; auto|apply Forall_singleton; by right].
    - intros x Hx E. apply elem_of_app in Hx as [Hx| ->%list_elem_of_singleton]; [by destruct (Hnew x)|].
      split; [cbn; lia|]. exists [c]. split; [|apply NoDup_singleton].
      apply (chain_cons _ _ _ (mk_header (sh_size hd) 0)); [done|apply lookup_insert_eq|done|constructor]. }
  split; [split; cbn; try apply Hok; [by apply headers_ok_insert; [apply Hok|]|exact Ht']|].
  split.
  { intros (x & Hx & Hxw). cbn in Hx. unfold h' in Hx. rewrite lookup_insert_eq in Hx. by simplify_eq. }
  split; [by eapply live_insert_other|]. exists hd. split; [done|]. intros size Es Hs.
  pose proof (proj2 Ht' (Z.to_nat (hash_id (sh_size hd))) (b ++ [t])
    ltac:(apply list_lookup_insert_eq; lia)) as [Hn' _].
  apply (malloc_cached _ (hash_id (sh_size hd)) (b ++ [t]) (length b) t (mk_header (sh_size hd) 0));
    cbn; try done.
  - apply list_lookup_insert_eq. lia.
  - rewrite lookup_app_r by lia. by rewrite Nat.sub_diag.
  - destruct (proj1 (sl_headers _ Hok) _ _ Hc) as [Hge _].
    unfold SLAB_MEM_BASE, ptov, SLAB_HEADER_SIZE in *. lia.
  - apply lookup_insert_eq.
Qed.

Lemma free_slab_spec (st : slab_state M) c :
  slab_ok st -> live st c -> sizeof_slab_type + SLAB_HEADER_SIZE <= slab_size st ->
  exists st', free_slab st (c + SLAB_HEADER_SIZE) = Ret st' /\ free_post st st' c.
Proof.
  intros Hok (hd & Hc & Hw) Hroom. destruct (header_addr st c hd Hok Hc) as (Ea & Hnz & Hmin).
  unfold free_slab. rewrite Ea, Hc, Hw. cbn [Z.eqb]. rewrite Z.eqb_refl.
  destruct (Z.ltb_spec (sh_size hd) SLAB_MIN_DATA_SIZE); [lia|]. cbn [negb orb].
  destruct (bucket_ok st (sh_size hd) (sl_table _ Hok)) as (b & Eb & Hb). rewrite Eb. cbn [obind].
  pose proof (find_type_spec b (sh_size hd) 0) as Hf.
  destruct (find_type b (sh_size hd) 0) as [[k t]|].
  - destruct Hf as (i & -> & Hi & Hsz). eexists. split; [reflexivity|]. by apply free_known_spec.
  - destruct (heap_spec st sizeof_slab_type Hok) as [[Hlt _]|(st1 & -> & Hok1 & Hn & Hh & Ht & _)];
      [done|done|lia|]. cbn [obind].
    pose proof (sl_base _ Hok) as Hbase.
    destruct (Z.eqb_spec (slab_base st + SLAB_HEADER_SIZE) 0) as [E|_];
      [unfold SLAB_MEM_BASE, SLAB_HEADER_SIZE, ptov in *; lia|]. cbn [negb assert obind].
    unfold bucket. rewrite Ht, Hb. cbn [obind]. eexists. split; [reflexivity|].
    assert (Hne : c <> slab_base st) by congruence.
    assert (Hc1 : headers st1 !! c = Some hd) by (by rewrite Hh, lookup_insert_ne).
    destruct (free_new_spec st1 c hd b Hok1 Hc1 Hw) as (H1 & H2 & H3 & hd' & Hc' & H4);
      [by rewrite Ht|done|].
    split; [done|]. split; [done|]. split.
    + intros a Ha Hl. apply H3; [done|]. destruct Hl as (x & Hx & Hxw). exists x.
      rewrite Hh, lookup_insert_ne; [done|congruence].
    + exists hd'. split; [congruence|done].
Qed.

Lemma free_cached_noop (st : slab_state M) c hd :
  slab_ok st -> headers st !! c = Some hd -> sh_word hd <> SLAB_MAGIC ->
  free_slab st (c + SLAB_HEADER_SIZE) = Ret st.
Proof.
  intros Hok Hc Hw. destruct (header_addr st c hd Hok Hc) as (Ea & _).
  unfold free_slab. rewrite Ea, Hc. by destruct (Z.eqb_spec (sh_word hd) SLAB_MAGIC).
Qed.

Lemma slab_init_ok (m : M) : slab_ok (slab_init m).
Proof.
  split; cbn; try done.
  split; [done|]. intros id b Hb.
  assert (b = []) as -> by (do 8 (destruct id as [|id]; [by injection Hb|]); done).
  split; constructor.
Qed.
End slab_proofs.

(** ** Properties *)

(** C35: [malloc] of at most 2 GB on a well-formed slab, when the pages the heap needs can be had and
    mapped, returns a 16-byte aligned chunk that was not in use, inside the slab area, at least as large
    as requested and clear of every chunk in use, marks it in use, leaves all other headers alone and
    keeps the slab well-formed; otherwise the kernel stops, and then the rest of the heap is too small
    for the chunk. *)
Theorem malloc_fresh_chunk {M} `{HeapPages M} (st : slab_state M) size :
  (forall m va, exists m', map_heap_page m va = Ret m') ->
  slab_ok st -> 0 < size <= 2 ^ 31 ->
  (exists p st', malloc st size = Ret (p, st') /\ malloc_post st st' size p /\
     slab_size st - (get_slab_alloc_size size + SLAB_HEADER_SIZE) <= slab_size st') \/
  (slab_size st < get_slab_alloc_size size + SLAB_HEADER_SIZE /\ malloc st size = Panic).
Proof. intros Hp. by apply malloc_spec. Qed.

(** A heap whose pages are recorded in the order they are mapped. *)
#[export] Instance traced_pages : HeapPages (list Z) := fun m va => Ret (m ++ [va]).

Lemma traced_total (m : list Z) va : exists m', map_heap_page m va = Ret m'.
Proof. by eexists. Qed.

Definition slab0 : slab_state (list Z) := slab_init [].

(** One chunk of 112 bytes in use. *)
Definition slab1 : slab_state (list Z) :=
  match malloc slab0 100 with Ret (_, st) => st | _ => slab0 end.

Lemma slab1_ok : slab_ok slab1.
Proof.
  unfold slab1. destruct (malloc_spec traced_total slab0 100 (slab_init_ok []) ltac:(lia))
    as [(p & st' & -> & Hp & _)|[_ E]]; [apply Hp|]. vm_compute in E. discriminate E.
Qed.

Lemma malloc_fresh_chunk_witness :
  exists p st', malloc slab1 5000 = Ret (p, st') /\ malloc_post slab1 st' 5000 p.
Proof.
  destruct (malloc_fresh_chunk slab1 5000 traced_total slab1_ok ltac:(lia))
    as [(p & st' & E & Hp & _)|[_ E]].
  - exists p, st'. split; [exact E|exact Hp].
  - vm_compute in E. discriminate E.
Defined.

(** [free_slab] of a chunk in use caches it and keeps every other chunk in
    use; the next [malloc] of that size class returns the same address. *)
Theorem free_then_malloc_reuses {M} `{HeapPages M} (st : slab_state M) c :
  (forall m va, exists m', map_heap_page m va = Ret m') ->
  slab_ok st -> live st c -> sizeof_slab_type + SLAB_HEADER_SIZE <= slab_size st ->
  exists st', free_slab st (c + SLAB_HEADER_SIZE) = Ret st' /\ free_post st st' c.
Proof. intros Hp. by apply free_slab_spec. Qed.

Lemma free_then_malloc_reuses_witness :
  exists st', free_slab slab1 (SLAB_MEM_BASE + SLAB_HEADER_SIZE) = Ret st' /\
    free_post slab1 st' SLAB_MEM_BASE.
Proof.
  apply (free_then_malloc_reuses slab1 SLAB_MEM_BASE traced_total slab1_ok).
  - exists (mk_header 112 SLAB_MAGIC). split; vm_compute; reflexivity.
  - vm_compute. discriminate.
Defined.

(** Freeing a chunk a second time changes nothing: the link that replaced the
    magic number is never equal to it. *)
Theorem double_free_rejected {M} `{HeapPages M} (st : slab_state M) c :
  (forall m va, exists m', map_heap_page m va = Ret m') ->
  slab_ok st -> live st c -> sizeof_slab_type + SLAB_HEADER_SIZE <= slab_size st ->
  exists st', free_slab st (c + SLAB_HEADER_SIZE) = Ret st' /\
    free_slab st' (c + SLAB_HEADER_SIZE) = Ret st'.
Proof.
  intros Hp Hok Hl Hroom.
  destruct (free_slab_spec Hp st c Hok Hl Hroom) as (st' & E & Hok' & Hnl & _ & hd & Hc & Hm).
  exists st'. split; [done|].
  assert (Hsome : exists hd', headers st' !! c = Some hd').
  { revert E. unfold free_slab. destruct (header_addr st c hd Hok Hc) as (-> & _). rewrite Hc.
    destruct (_ || _); [intros [= <-]; eauto|]. intros E. apply obind_Ret_inv in E as (b & _ & E).
    destruct (find_type _ _ _) as [[i t]|].
    - apply Ret_inj in E as <-. cbn. rewrite lookup_insert_eq. eauto.
    - apply obind_Ret_inv in E as ([p s] & _ & E). apply obind_Ret_inv in E as (_ & _ & E).
      apply obind_Ret_inv in E as (b' & _ & E). apply Ret_inj in E as <-. cbn.
      rewrite lookup_insert_eq. eauto. }
  destruct Hsome as [hd' Hhd']. apply (free_cached_noop st' c hd'); [done|done|].
  intros Hw. apply Hnl. by exists hd'.
Qed.

Lemma double_free_rejected_witness :
  exists st', free_slab slab1 (SLAB_MEM_BASE + SLAB_HEADER_SIZE) = Ret st' /\
    free_slab st' (SLAB_MEM_BASE + SLAB_HEADER_SIZE) = Ret st'.
Proof.
  apply (double_free_rejected slab1 SLAB_MEM_BASE traced_total slab1_ok).
  - exists (mk_header 112 SLAB_MAGIC). split; vm_compute; reflexivity.
  - vm_compute. discriminate.
Defined.
