(* ===== verification/Task.v ===== *)
(** * Tasks, run queues and wake-up

    The data of [include/minos/task_def.h], [task_info.h] and [percpu.h], the ready
    lists of [core/sched.c], [task_ready] and the wake-up functions.

    A task is identified by its [tid]; [sys] holds every task and every CPU.  An
    operation takes the number [c] of the CPU that executes it; [current] is that
    CPU's running task.  A kernel list of tasks is the list of their [tid]s in link
    order, and a task's [state_list] node is linked when one of the lists contains
    it.  A timer is the time it was armed with, or [None].

    [preempt_enable] may call the scheduler; that call is the scheduling step of
    [Sched.v] and is not taken inside these operations.  Memory barriers and the
    locks held around whole operations are not modelled; the one lock that can be
    busy ([spin_trylock_irqsave] in [wake_up_interrupted]) is an argument. *)

From S2P Require Import Prelude Types Bits.

Definition OS_PRIO_MAX : Z := 8.
Definition OS_PRIO_IDLE : Z := 7.
Definition TASK_STATE_RUNNING : Z := 0x00.
Definition TASK_STATE_READY : Z := 0x01.
Definition TASK_STATE_WAIT_EVENT : Z := 0x02.
Definition TASK_STATE_WAKING : Z := 0x04.
Definition TASK_STATE_SUSPEND : Z := 0x08.
Definition TASK_STATE_STOP : Z := 0x10.
Definition TASK_STATE_PEND_OK : Z := 0.
Definition TASK_STATE_PEND_TO : Z := 1.
Definition TASK_STATE_PEND_ABORT : Z := 2.
Definition TASK_FLAGS_IDLE : Z := 0x10.
Definition TASK_WAIT_FOREVER : Z := 0xfffffffe.
Definition KWORKER_TASK_RECYCLE : Z := 0x1.

(** Bit numbers and masks of [task_info.h]. *)
Definition TIF_NEED_RESCHED : Z := 0.
Definition __TIF_NEED_RESCHED : Z := 0x1.
Definition __TIF_DONOT_PREEMPT : Z := 0x4.
Definition __TIF_TICK_EXHAUST : Z := 0x8.
Definition __TIF_WAIT_INTERRUPTED : Z := 0x1000.

Record task := mk_task {
  t_state : Z;
  t_prio : Z;
  t_cpu : Z;
  t_last_cpu : Z;
  t_affinity : Z;
  t_flags : Z;
  t_delay : Z;
  t_timer : option Z;
  t_pend_state : Z;
  t_ipcdata : Z;
  t_wait_type : Z;
  t_wait_event : Z;
  ti_flags : Z;
  ti_preempt : Z;
  t_run_time : Z;
  t_ctx_sw_cnt : Z;
}.

(** [struct flag_node] and [struct flag_grp] of [core/flag.c]: a node is on the
    stack of the waiting task. *)
Record flag_node := mk_node {
  fn_task : Z;
  fn_flags : Z;
  fn_wait_type : Z;
}.

Record flag_grp := mk_grp {
  fg_flags : Z;
  fg_wait_list : list flag_node;
}.

Record pcpu := mk_pcpu {
  new_list : list Z;
  stop_list : list Z;
  running_task : Z;
  idle_task : Z;
  local_rdy_grp : Z;
  ready_list : list (list Z);
  tasks_in_prio : list Z;
  sched_timer : option Z;
  irqwork_pending : bool;
  kworker_flag : flag_grp;
}.

Record sys := mk_sys {
  tasks : gmap Z task;
  cpus : list pcpu;
}.

(** ** Field updates *)

Definition set_t_state (v : Z) (t : task) : task :=
  mk_task v (t_prio t) (t_cpu t) (t_last_cpu t) (t_affinity t) (t_flags t) (t_delay t)
    (t_timer t) (t_pend_state t) (t_ipcdata t) (t_wait_type t) (t_wait_event t) (ti_flags t)
    (ti_preempt t) (t_run_time t) (t_ctx_sw_cnt t).
Definition set_t_prio (v : Z) (t : task) : task :=
  mk_task (t_state t) v (t_cpu t) (t_last_cpu t) (t_affinity t) (t_flags t) (t_delay t)
    (t_timer t) (t_pend_state t) (t_ipcdata t) (t_wait_type t) (t_wait_event t) (ti_flags t)
    (ti_preempt t) (t_run_time t) (t_ctx_sw_cnt t).
Definition set_t_cpu (v : Z) (t : task) : task :=
  mk_task (t_state t) (t_prio t) v (t_last_cpu t) (t_affinity t) (t_flags t) (t_delay t)
    (t_timer t) (t_pend_state t) (t_ipcdata t) (t_wait_type t) (t_wait_event t) (ti_flags t)
    (ti_preempt t) (t_run_time t) (t_ctx_sw_cnt t).
Definition set_t_last_cpu (v : Z) (t : task) : task :=
  mk_task (t_state t) (t_prio t) (t_cpu t) v (t_affinity t) (t_flags t) (t_delay t) (t_timer
    t) (t_pend_state t) (t_ipcdata t) (t_wait_type t) (t_wait_event t) (ti_flags t)
    (ti_preempt t) (t_run_time t) (t_ctx_sw_cnt t).
Definition set_t_affinity (v : Z) (t : task) : task :=
  mk_task (t_state t) (t_prio t) (t_cpu t) (t_last_cpu t) v (t_flags t) (t_delay t) (t_timer
    t) (t_pend_state t) (t_ipcdata t) (t_wait_type t) (t_wait_event t) (ti_flags t)
    (ti_preempt t) (t_run_time t) (t_ctx_sw_cnt t).
Definition set_t_flags (v : Z) (t : task) : task :=
  mk_task (t_state t) (t_prio t) (t_cpu t) (t_last_cpu t) (t_affinity t) v (t_delay t)
    (t_timer t) (t_pend_state t) (t_ipcdata t) (t_wait_type t) (t_wait_event t) (ti_flags t)
    (ti_preempt t) (t_run_time t) (t_ctx_sw_cnt t).
Definition set_t_delay (v : Z) (t : task) : task :=
  mk_task (t_state t) (t_prio t) (t_cpu t) (t_last_cpu t) (t_affinity t) (t_flags t) v
    (t_timer t) (t_pend_state t) (t_ipcdata t) (t_wait_type t) (t_wait_event t) (ti_flags t)
    (ti_preempt t) (t_run_time t) (t_ctx_sw_cnt t).
Definition set_t_timer (v : option Z) (t : task) : task :=
  mk_task (t_state t) (t_prio t) (t_cpu t) (t_last_cpu t) (t_affinity t) (t_flags t) (t_delay
    t) v (t_pend_state t) (t_ipcdata t) (t_wait_type t) (t_wait_event t) (ti_flags t)
    (ti_preempt t) (t_run_time t) (t_ctx_sw_cnt t).
Definition set_t_pend_state (v : Z) (t : task) : task :=
  mk_task (t_state t) (t_prio t) (t_cpu t) (t_last_cpu t) (t_affinity t) (t_flags t) (t_delay
    t) (t_timer t) v (t_ipcdata t) (t_wait_type t) (t_wait_event t) (ti_flags t) (ti_preempt
    t) (t_run_time t) (t_ctx_sw_cnt t).
Definition set_t_ipcdata (v : Z) (t : task) : task :=
  mk_task (t_state t) (t_prio t) (t_cpu t) (t_last_cpu t) (t_affinity t) (t_flags t) (t_delay
    t) (t_timer t) (t_pend_state t) v (t_wait_type t) (t_wait_event t) (ti_flags t)
    (ti_preempt t) (t_run_time t) (t_ctx_sw_cnt t).
Definition set_t_wait_type (v : Z) (t : task) : task :=
  mk_task (t_state t) (t_prio t) (t_cpu t) (t_last_cpu t) (t_affinity t) (t_flags t) (t_delay
    t) (t_timer t) (t_pend_state t) (t_ipcdata t) v (t_wait_event t) (ti_flags t) (ti_preempt
    t) (t_run_time t) (t_ctx_sw_cnt t).
Definition set_t_wait_event (v : Z) (t : task) : task :=
  mk_task (t_state t) (t_prio t) (t_cpu t) (t_last_cpu t) (t_affinity t) (t_flags t) (t_delay
    t) (t_timer t) (t_pend_state t) (t_ipcdata t) (t_wait_type t) v (ti_flags t) (ti_preempt
    t) (t_run_time t) (t_ctx_sw_cnt t).
Definition set_ti_flags (v : Z) (t : task) : task :=
  mk_task (t_state t) (t_prio t) (t_cpu t) (t_last_cpu t) (t_affinity t) (t_flags t) (t_delay
    t) (t_timer t) (t_pend_state t) (t_ipcdata t) (t_wait_type t) (t_wait_event t) v
    (ti_preempt t) (t_run_time t) (t_ctx_sw_cnt t).
Definition set_ti_preempt (v : Z) (t : task) : task :=
  mk_task (t_state t) (t_prio t) (t_cpu t) (t_last_cpu t) (t_affinity t) (t_flags t) (t_delay
    t) (t_timer t) (t_pend_state t) (t_ipcdata t) (t_wait_type t) (t_wait_event t) (ti_flags
    t) v (t_run_time t) (t_ctx_sw_cnt t).
Definition set_t_run_time (v : Z) (t : task) : task :=
  mk_task (t_state t) (t_prio t) (t_cpu t) (t_last_cpu t) (t_affinity t) (t_flags t) (t_delay
    t) (t_timer t) (t_pend_state t) (t_ipcdata t) (t_wait_type t) (t_wait_event t) (ti_flags
    t) (ti_preempt t) v (t_ctx_sw_cnt t).
Definition set_t_ctx_sw_cnt (v : Z) (t : task) : task :=
  mk_task (t_state t) (t_prio t) (t_cpu t) (t_last_cpu t) (t_affinity t) (t_flags t) (t_delay
    t) (t_timer t) (t_pend_state t) (t_ipcdata t) (t_wait_type t) (t_wait_event t) (ti_flags
    t) (ti_preempt t) (t_run_time t) v.

Definition set_new_list (v : list Z) (p : pcpu) : pcpu :=
  mk_pcpu v (stop_list p) (running_task p) (idle_task p) (local_rdy_grp p) (ready_list p)
    (tasks_in_prio p) (sched_timer p) (irqwork_pending p) (kworker_flag p).
Definition set_stop_list (v : list Z) (p : pcpu) : pcpu :=
  mk_pcpu (new_list p) v (running_task p) (idle_task p) (local_rdy_grp p) (ready_list p)
    (tasks_in_prio p) (sched_timer p) (irqwork_pending p) (kworker_flag p).
Definition set_running_task (v : Z) (p : pcpu) : pcpu :=
  mk_pcpu (new_list p) (stop_list p) v (idle_task p) (local_rdy_grp p) (ready_list p)
    (tasks_in_prio p) (sched_timer p) (irqwork_pending p) (kworker_flag p).
Definition set_idle_task (v : Z) (p : pcpu) : pcpu :=
  mk_pcpu (new_list p) (stop_list p) (running_task p) v (local_rdy_grp p) (ready_list p)
    (tasks_in_prio p) (sched_timer p) (irqwork_pending p) (kworker_flag p).
Definition set_local_rdy_grp (v : Z) (p : pcpu) : pcpu :=
  mk_pcpu (new_list p) (stop_list p) (running_task p) (idle_task p) v (ready_list p)
    (tasks_in_prio p) (sched_timer p) (irqwork_pending p) (kworker_flag p).
Definition set_ready_list (v : list (list Z)) (p : pcpu) : pcpu :=
  mk_pcpu (new_list p) (stop_list p) (running_task p) (idle_task p) (local_rdy_grp p) v
    (tasks_in_prio p) (sched_timer p) (irqwork_pending p) (kworker_flag p).
Definition set_tasks_in_prio (v : list Z) (p : pcpu) : pcpu :=
  mk_pcpu (new_list p) (stop_list p) (running_task p) (idle_task p) (local_rdy_grp p)
    (ready_list p) v (sched_timer p) (irqwork_pending p) (kworker_flag p).
Definition set_sched_timer (v : option Z) (p : pcpu) : pcpu :=
  mk_pcpu (new_list p) (stop_list p) (running_task p) (idle_task p) (local_rdy_grp p)
    (ready_list p) (tasks_in_prio p) v (irqwork_pending p) (kworker_flag p).
Definition set_irqwork_pending (v : bool) (p : pcpu) : pcpu :=
  mk_pcpu (new_list p) (stop_list p) (running_task p) (idle_task p) (local_rdy_grp p)
    (ready_list p) (tasks_in_prio p) (sched_timer p) v (kworker_flag p).
Definition set_kworker_flag (v : flag_grp) (p : pcpu) : pcpu :=
  mk_pcpu (new_list p) (stop_list p) (running_task p) (idle_task p) (local_rdy_grp p)
    (ready_list p) (tasks_in_prio p) (sched_timer p) (irqwork_pending p) v.

(** ** Access *)

Definition get_task (s : sys) (t : Z) : outcome task :=
  match tasks s !! t with Some x => Ret x | None => Fault end.

Definition get_pcpu (s : sys) (c : nat) : outcome pcpu :=
  match cpus s !! c with Some p => Ret p | None => Fault end.

Definition upd_task (s : sys) (t : Z) (f : task -> task) : sys :=
  mk_sys (alter f t (tasks s)) (cpus s).

Definition upd_pcpu (s : sys) (c : nat) (f : pcpu -> pcpu) : sys :=
  mk_sys (tasks s) (alter f c (cpus s)).

(** [current] on CPU [c] *)
Definition current (s : sys) (c : nat) : outcome (Z * task) :=
  let* p := get_pcpu s c in
  let* t := get_task s (running_task p) in
  Ret (running_task p, t).

Definition set_ti_flag (mask : Z) (t : task) : task := set_ti_flags (Z.lor (ti_flags t) mask) t.
Definition clear_ti_flag (mask : Z) (t : task) : task :=
  set_ti_flags (Z.land (ti_flags t) (not64 mask)) t.

Definition set_need_resched (s : sys) (c : nat) : outcome sys :=
  let* (cur, _) := current s c in
  Ret (upd_task s cur (set_ti_flag __TIF_NEED_RESCHED)).

Definition do_not_preempt (s : sys) (c : nat) : outcome sys :=
  let* (cur, _) := current s c in
  Ret (upd_task s cur (set_ti_flag __TIF_DONOT_PREEMPT)).

Definition task_is_idle (t : task) : bool := negb (Z.land (t_flags t) TASK_FLAGS_IDLE =? 0).
Definition task_is_running (t : task) : bool := t_state t =? TASK_STATE_RUNNING.

(** The helpers of [task.h] mask with the bit number [TIF_NEED_RESCHED]. *)
Definition task_set_resched (t : task) : task := set_ti_flag TIF_NEED_RESCHED t.
Definition task_clear_resched (t : task) : task := clear_ti_flag TIF_NEED_RESCHED t.
Definition task_need_resched (t : task) : Z := Z.land (ti_flags t) TIF_NEED_RESCHED.

(** ** Ready lists *)

(** Lists a [state_list] node can be on. *)
Definition pcpu_nodes (p : pcpu) : list Z := concat (ready_list p) ++ new_list p ++ stop_list p.
Definition state_nodes (s : sys) : list Z := concat (map pcpu_nodes (cpus s)).
Definition linked (s : sys) (t : Z) : bool := bool_decide (t ∈ state_nodes s).

Definition map_lists (g : list Z -> list Z) (p : pcpu) : pcpu :=
  set_ready_list (map g (ready_list p))
    (set_new_list (g (new_list p)) (set_stop_list (g (stop_list p)) p)).

Definition without (t : Z) (l : list Z) : list Z := filter (fun x => x <> t) l.

(** [list_del(&task->state_list)]: the node leaves the list it is on. *)
Definition list_del (s : sys) (t : Z) : sys := mk_sys (tasks s) (map (map_lists (without t)) (cpus s)).

(** [list_insert_before(&cur->state_list, &task->state_list)]: the new node goes in
    front of [cur] on the list [cur] is on; an unlinked [cur] has null links. *)
Fixpoint insert_before (cur t : Z) (l : list Z) : list Z :=
  match l with
  | [] => []
  | x :: l => if x =? cur then t :: x :: l else x :: insert_before cur t l
  end.

Definition list_insert_before (s : sys) (cur t : Z) : outcome sys :=
  if linked s cur then Ret (mk_sys (tasks s) (map (map_lists (insert_before cur t)) (cpus s))) else Fault.

Definition ready_at (p : pcpu) (prio : Z) : outcome (list Z) :=
  match ready_list p !! Z.to_nat prio with
  | Some l => if 0 <=? prio then Ret l else Fault
  | None => Fault
  end.

Definition count_at (p : pcpu) (prio : Z) : Z := default 0 (tasks_in_prio p !! Z.to_nat prio).

Definition set_ready_at (prio : Z) (l : list Z) (p : pcpu) : pcpu :=
  set_ready_list (<[Z.to_nat prio := l]> (ready_list p)) p.

Definition set_count_at (prio n : Z) (p : pcpu) : pcpu :=
  set_tasks_in_prio (<[Z.to_nat prio := n]> (tasks_in_prio p)) p.

Definition BIT (nr : Z) : Z := Z.shiftl 1 nr.

Definition sched_update_sched_timer (s : sys) (c : nat) : outcome sys :=
  let* p := get_pcpu s c in
  let* (_, task) := current s c in
  if 1 <? count_at p (t_prio task)
  then Ret (upd_pcpu s c (set_sched_timer (Some (t_run_time task))))
  else Ret (upd_pcpu s c (set_sched_timer None)).

Definition add_task_to_ready_list (s : sys) (c : nat) (t : Z) (preempt : bool) : outcome sys :=
  let* p := get_pcpu s c in
  let* task := get_task s t in
  let* (cur, cur_task) := current s c in
  check negb (linked s t) in
  let prio := t_prio task in
  let cnt := count_at p prio + 1 in
  let s := upd_pcpu s c (set_count_at prio cnt) in
  let* s :=
    if t_prio cur_task =? prio then
      let* s := list_insert_before s cur t in
      if cnt =? 2 then sched_update_sched_timer s c else Ret s
    else
      let* l := ready_at p prio in
      Ret (upd_pcpu s c (set_ready_at prio (l ++ [t]))) in
  let s := upd_pcpu s c (fun p => set_local_rdy_grp (u8 (Z.lor (local_rdy_grp p) (BIT prio))) p) in
  if preempt || (prio <? t_prio cur_task) then set_need_resched s c else Ret s.

Definition remove_task_from_ready_list (s : sys) (c : nat) (t : Z) : outcome sys :=
  check linked s t in
  let* task := get_task s t in
  let* (_, cur_task) := current s c in
  let prio := t_prio task in
  let s := list_del s t in
  let* p := get_pcpu s c in
  let* l := ready_at p prio in
  let s := match l with
           | [] => upd_pcpu s c (fun p =>
                     set_local_rdy_grp (Z.land (local_rdy_grp p) (not64 (BIT prio))) p)
           | _ => s
           end in
  let cnt := count_at p prio - 1 in
  let s := upd_pcpu s c (set_count_at prio cnt) in
  if (t_prio cur_task =? prio) && (cnt =? 1) then sched_update_sched_timer s c else Ret s.

(** ** Making a task ready *)

Definition select_task_run_cpu (s : sys) : Z := Z.of_nat (length (cpus s)) - 1.

(** On another CPU the task goes to the [new_list], with an interrupt. *)
Definition smp_percpu_task_ready (s : sys) (target : nat) (t : Z) (preempt : bool) : outcome sys :=
  let s := if preempt then upd_task s t task_set_resched else s in
  check negb (linked s t) in
  let* _ := get_pcpu s target in
  Ret (upd_pcpu s target (fun p => set_irqwork_pending true (set_new_list (new_list p ++ [t]) p))).

Definition task_ready (s : sys) (c : nat) (t : Z) (preempt : bool) : outcome sys :=
  let* task := get_task s t in
  let cpu := if t_affinity task =? -1 then select_task_run_cpu s else t_affinity task in
  let s := upd_task s t (set_t_cpu cpu) in
  if negb (Z.of_nat c =? cpu) then smp_percpu_task_ready s (Z.to_nat cpu) t preempt
  else add_task_to_ready_list s c t preempt.

(** ** Wake-up *)

(** The current task is woken by an interrupt between [__wait_event] and [sched].
    [others] is what the other CPUs do before this one gets the task's lock. *)
Definition wake_up_interrupted (irq_disabled lock_free : bool) (others : sys -> sys)
    (s : sys) (t pend_state data : Z) : outcome (Z * sys) :=
  check negb (pend_state =? TASK_STATE_PEND_TO) in
  let* task := get_task s t in
  if negb (t_state task =? TASK_STATE_WAIT_EVENT) then Ret (- EACCES, s) else
  check irq_disabled in
  let s := others s in
  if negb lock_free then Ret (- EBUSY, s) else
  let* task := get_task s t in
  if negb (t_state task =? TASK_STATE_WAIT_EVENT) then Ret (- EINVAL, s) else
  Ret (0, upd_task s t (fun x =>
    set_t_ipcdata data (set_t_delay 0 (set_t_state TASK_STATE_RUNNING (set_t_pend_state pend_state
      (clear_ti_flag __TIF_DONOT_PREEMPT (set_ti_flag __TIF_WAIT_INTERRUPTED x))))))).

(** A task that has not left its CPU yet keeps the waker spinning. *)
Definition wake_up_common (s : sys) (c : nat) (t pend_state data : Z) : outcome (Z * sys) :=
  let* task := get_task s t in
  if negb (t_state task =? TASK_STATE_WAIT_EVENT) then Ret (- EPERM, s) else
  if negb (t_cpu task =? -1) then OutOfFuel else
  let timeout := t_delay task in
  let s := upd_task s t (fun x =>
    set_t_ipcdata data (set_t_delay 0 (set_t_state TASK_STATE_WAKING (set_t_pend_state pend_state x)))) in
  let s := if negb (timeout =? 0) && negb (pend_state =? TASK_STATE_PEND_TO)
           then upd_task s t (set_t_timer None) else s in
  let* s := task_ready s c t true in
  Ret (0, s).

(** One CPU at a time: interrupts are off in the handler that wakes [current], and
    its lock is free. *)
Definition __wake_up (s : sys) (c : nat) (t pend_state data : Z) : outcome (Z * sys) :=
  let* (cur, _) := current s c in
  if t =? cur then wake_up_interrupted true true id s t pend_state data
  else wake_up_common s c t pend_state data.

Definition wake_up (s : sys) (c : nat) (t retcode : Z) : outcome (Z * sys) :=
  __wake_up s c t TASK_STATE_PEND_OK retcode.
Definition wake_up_timeout (s : sys) (c : nat) (t : Z) : outcome (Z * sys) :=
  __wake_up s c t TASK_STATE_PEND_TO (- ETIMEDOUT).
Definition wake_up_abort (s : sys) (c : nat) (t : Z) : outcome (Z * sys) :=
  __wake_up s c t TASK_STATE_PEND_ABORT (- EABORT).

(** ** Well-formed run queues *)

(** What the ready lists of a CPU promise: a bit of [local_rdy_grp] is set exactly
    for the non-empty lists, a list holds tasks of its priority, [tasks_in_prio]
    counts a list's tasks without the idle task, and the idle task is always
    ready. *)
Record queues_ok (prio : Z -> option Z) (p : pcpu) : Prop := {
  qk_len : length (ready_list p) = 8%nat;
  qk_cnt_len : length (tasks_in_prio p) = 8%nat;
  qk_grp : 0 <= local_rdy_grp p < 256;
  qk_bits : forall k l, ready_list p !! k = Some l ->
    Z.testbit (local_rdy_grp p) (Z.of_nat k) = negb (bool_decide (l = []));
  qk_prio : forall k l t, ready_list p !! k = Some l -> t ∈ l -> prio t = Some (Z.of_nat k);
  qk_count : forall k l, ready_list p !! k = Some l ->
    tasks_in_prio p !! k = Some (Z.of_nat (length l) - if (k =? 7)%nat then 1 else 0);
  qk_idle : forall l, ready_list p !! 7%nat = Some l -> idle_task p ∈ l;
}.

Definition prio_of (s : sys) (t : Z) : option Z := t_prio <$> tasks s !! t.

Definition on_ready (p : pcpu) (t : Z) : Prop := t ∈ concat (ready_list p).

Definition running (s : sys) : list Z := running_task <$> cpus s.

(** Every node is on one list; a running task is on a ready list of its CPU. *)
Record sys_ok (s : sys) : Prop := {
  so_nodup : NoDup (state_nodes s);
  so_queues : forall c p, cpus s !! c = Some p -> queues_ok (prio_of s) p;
  so_known : forall t, t ∈ state_nodes s -> is_Some (tasks s !! t);
}.

Definition running_ok (s : sys) : Prop :=
  forall c p, cpus s !! c = Some p -> on_ready p (running_task p).

(** ** Lists of nodes *)

Lemma concat_insert_perm {A} (L : list (list A)) k l :
  L !! k = Some l ->
  exists rest, concat L ≡ₚ l ++ rest /\ forall l', concat (<[k := l']> L) ≡ₚ l' ++ rest.
Proof.
  revert k. induction L as [|x L IH]; intros [|k] Hk; simplify_eq/=.
  - by exists (concat L).
  - destruct (IH k Hk) as (rest & H1 & H2). exists (x ++ rest). split.
    + rewrite H1. solve_Permutation.
    + intros l'. rewrite H2. solve_Permutation.
Qed.

Lemma map_alter_insert {A B} (g : A -> B) (f : A -> A) (L : list A) c p :
  L !! c = Some p -> map g (alter f c L) = <[c := g (f p)]> (map g L).
Proof.
  revert c. induction L as [|x L IH]; intros [|c] Hc; simplify_eq/=; [done|].
  f_equal. by apply IH.
Qed.

Lemma state_nodes_upd s c p :
  cpus s !! c = Some p ->
  exists rest, state_nodes s ≡ₚ pcpu_nodes p ++ rest /\
    forall f, state_nodes (upd_pcpu s c f) ≡ₚ pcpu_nodes (f p) ++ rest.
Proof.
  intros Hc.
  destruct (concat_insert_perm (map pcpu_nodes (cpus s)) c (pcpu_nodes p)) as (rest & H1 & H2).
  { change (map ?f ?l) with (f <$> l). by rewrite list_lookup_fmap, Hc. }
  exists rest. split; [done|]. intros f. unfold state_nodes, upd_pcpu; simpl.
  rewrite (map_alter_insert _ _ _ _ p) by done. apply H2.
Qed.

Lemma pcpu_node_state s c p t :
  cpus s !! c = Some p -> t ∈ pcpu_nodes p -> t ∈ state_nodes s.
Proof.
  intros Hc Ht. destruct (state_nodes_upd s c p Hc) as (rest & -> & _).
  apply elem_of_app. by left.
Qed.

Lemma state_node_pcpu s t :
  t ∈ state_nodes s -> exists c p, cpus s !! c = Some p /\ t ∈ pcpu_nodes p.
Proof.
  unfold state_nodes. intros (l & Hl & Ht)%list_elem_of_In%in_concat.
  apply list_elem_of_In, list_elem_of_fmap in Hl as (p & -> & [c Hc]%list_elem_of_lookup).
  exists c, p. by rewrite list_elem_of_In.
Qed.

Lemma on_ready_node p t : on_ready p t -> t ∈ pcpu_nodes p.
Proof. intros H. apply elem_of_app. by left. Qed.

Lemma on_ready_lookup p t :
  on_ready p t <-> exists k l, ready_list p !! k = Some l /\ t ∈ l.
Proof.
  unfold on_ready. rewrite list_elem_of_In, in_concat. split.
  - intros (l & [k Hk]%list_elem_of_In%list_elem_of_lookup & Ht).
    exists k, l. by rewrite list_elem_of_In.
  - intros (k & l & Hk & Ht). exists l. rewrite <- !list_elem_of_In.
    split; [by eapply list_elem_of_lookup_2|done].
Qed.

Lemma linked_true s t : linked s t = true <-> t ∈ state_nodes s.
Proof. apply bool_decide_eq_true. Qed.

Lemma linked_false s t : linked s t = false <-> t ∉ state_nodes s.
Proof. apply bool_decide_eq_false. Qed.

(** A node is on the lists of one CPU only. *)
Lemma node_pcpu_unique s c p c' p' t :
  NoDup (state_nodes s) -> cpus s !! c = Some p -> cpus s !! c' = Some p' ->
  t ∈ pcpu_nodes p -> t ∈ pcpu_nodes p' -> c = c'.
Proof.
  intros Hnd Hc Hc' Ht Ht'. destruct (decide (c = c')) as [|Hne]; [done|exfalso].
  destruct (state_nodes_upd s c p Hc) as (rest & Hr & Hu).
  rewrite Hr in Hnd. apply NoDup_app in Hnd as (_ & Hd & _). apply (Hd t Ht).
  set (f := fun p => mk_pcpu [] [] (running_task p) (idle_task p) 0 [] [] None false (kworker_flag p)).
  specialize (Hu f). simpl in Hu. change (state_nodes (upd_pcpu s c f) ≡ₚ rest) in Hu.
  rewrite <- Hu. eapply pcpu_node_state, Ht'.
  unfold upd_pcpu; simpl. by rewrite list_lookup_alter_ne.
Qed.

Lemma without_absent t l : t ∉ l -> without t l = l.
Proof.
  induction l as [|x l IH]; [done|]. intros [Hx Hl]%not_elem_of_cons.
  unfold without. rewrite filter_cons_True by (intros ->; done).
  fold (without t l). by rewrite IH.
Qed.

Lemma without_perm t l : NoDup l -> t ∈ l -> l ≡ₚ t :: without t l.
Proof.
  induction l as [|x l IH]; [by intros _ ?%not_elem_of_nil|].
  intros [Hx Hnd]%NoDup_cons [->|Hin]%elem_of_cons; unfold without.
  - rewrite filter_cons_False by (intros H; by apply H).
    fold (without x l). by rewrite without_absent.
  - rewrite filter_cons_True by (intros ->; done). fold (without t l).
    rewrite IH at 1 by done. solve_Permutation.
Qed.

Lemma insert_before_absent cur t l : cur ∉ l -> insert_before cur t l = l.
Proof.
  induction l as [|x l IH]; [done|]. intros [Hx Hl]%not_elem_of_cons. simpl.
  destruct (Z.eqb_spec x cur); [by subst|]. f_equal. by apply IH.
Qed.

Lemma insert_before_split cur t l :
  cur ∈ l -> exists l1 l2, (cur ∉ l1) /\ l = l1 ++ cur :: l2 /\
    insert_before cur t l = l1 ++ t :: cur :: l2.
Proof.
  induction l as [|x l IH]; [by intros ?%not_elem_of_nil|]. intros Hin. simpl.
  destruct (Z.eqb_spec x cur) as [->|Hne].
  - exists [], l. split_and!; [apply not_elem_of_nil|done|done].
  - apply elem_of_cons in Hin as [|Hin]; [congruence|].
    destruct (IH Hin) as (l1 & l2 & Hn & -> & ->). exists (x :: l1), l2.
    split_and!; [|done|done]. apply not_elem_of_cons. by split.
Qed.

Lemma insert_before_perm cur t l : cur ∈ l -> insert_before cur t l ≡ₚ t :: l.
Proof.
  intros Hin. destruct (insert_before_split cur t l Hin) as (l1 & l2 & _ & -> & ->). solve_Permutation.
Qed.

(** An update that only changes the list a node is on changes one list of one CPU. *)
Section LocalUpdate.
Context (g : list Z -> list Z) (n : Z).
Context (g_absent : forall l, n ∉ l -> g l = l).

Lemma map_lists_absent p : n ∉ pcpu_nodes p -> map_lists g p = p.
Proof.
  unfold pcpu_nodes. rewrite !not_elem_of_app. intros (Hr & Hn & Hs).
  unfold map_lists. rewrite !g_absent by done.
  assert (Hm : map g (ready_list p) = ready_list p).
  { revert Hr. generalize (ready_list p). intros L. induction L as [|l L IH]; [done|].
    simpl. rewrite not_elem_of_app. intros [Hl HL]. rewrite IH by done.
    by rewrite g_absent. }
  rewrite Hm. by destruct p.
Qed.

Lemma map_insert_local (L : list (list Z)) k l :
  NoDup (concat L) -> L !! k = Some l -> n ∈ l -> map g L = <[k := g l]> L.
Proof.
  revert k. induction L as [|m L IH]; intros [|k] Hnd Hk Hn; simplify_eq/=;
    apply NoDup_app in Hnd as (Hm & Hd & HL); f_equal.
  - pose proof (Hd n Hn) as Hno. clear -g_absent Hno.
    induction L as [|m L IH]; [done|]. simpl in *. rewrite not_elem_of_app in Hno.
    rewrite IH by tauto. by rewrite g_absent by tauto.
  - apply g_absent. intros Hin. apply (Hd n Hin), list_elem_of_In, in_concat.
    exists l. rewrite <- !list_elem_of_In. split; [by eapply list_elem_of_lookup_2|done].
  - by apply IH.
Qed.

Lemma map_lists_ready p k l :
  NoDup (pcpu_nodes p) -> ready_list p !! k = Some l -> n ∈ l ->
  map_lists g p = set_ready_at (Z.of_nat k) (g l) p.
Proof.
  intros (Hr & Hd & _)%NoDup_app Hk Hn.
  assert (Hno : n ∉ new_list p ++ stop_list p).
  { apply Hd, on_ready_lookup. eauto. }
  rewrite not_elem_of_app in Hno. destruct Hno as [H1 H2].
  unfold map_lists, set_ready_at. rewrite !g_absent by done.
  rewrite (map_insert_local _ k l), Nat2Z.id by done. by destruct p.
Qed.

Lemma map_cpus_local s c p :
  NoDup (state_nodes s) -> cpus s !! c = Some p -> n ∈ pcpu_nodes p ->
  mk_sys (tasks s) (map (map_lists g) (cpus s)) = upd_pcpu s c (map_lists g).
Proof.
  intros Hnd Hc Hn. unfold upd_pcpu. f_equal. apply list_eq. intros i.
  change (map ?f ?l) with (f <$> l). rewrite list_lookup_fmap.
  destruct (decide (i = c)) as [->|Hne].
  - rewrite list_lookup_alter_eq. done.
  - rewrite list_lookup_alter_ne by done. destruct (cpus s !! i) as [p'|] eqn:Hi; [|done].
    simpl. f_equal. apply map_lists_absent. intros Hn'. apply Hne.
    by apply (node_pcpu_unique s i p' c p n).
Qed.
End LocalUpdate.

(** ** Preservation *)

Lemma prio_of_upd_task s t f u :
  (forall x, t_prio (f x) = t_prio x) -> prio_of (upd_task s t f) u = prio_of s u.
Proof.
  intros Hf. unfold prio_of, upd_task; simpl. destruct (decide (u = t)) as [->|Hne].
  - rewrite lookup_alter_eq. destruct (tasks s !! t); simpl; [by rewrite Hf|done].
  - by rewrite lookup_alter_ne.
Qed.

Lemma queues_ok_ext prio prio' p :
  (forall t, prio' t = prio t) -> queues_ok prio p -> queues_ok prio' p.
Proof.
  intros Hp [H1 H2 H3 H4 H5 H6 H7]. split; try done.
  intros k l t Hk Ht. rewrite Hp. by apply (H5 k l).
Qed.

Lemma sys_ok_tasks s s' :
  cpus s' = cpus s -> (forall t, prio_of s' t = prio_of s t) -> sys_ok s -> sys_ok s'.
Proof.
  intros Hc Hp [H1 H2 H3]. split; unfold state_nodes; rewrite Hc; [done| |].
  - intros c p Hl. by apply (queues_ok_ext (prio_of s)), (H2 c).
  - intros t Ht. assert (Hs : is_Some (prio_of s' t)).
    { rewrite Hp. unfold prio_of. by apply fmap_is_Some, H3. }
    unfold prio_of in Hs. by apply fmap_is_Some in Hs.
Qed.

Lemma sys_ok_upd_task s t f :
  (forall x, t_prio (f x) = t_prio x) -> sys_ok s -> sys_ok (upd_task s t f).
Proof. intros Hf. apply sys_ok_tasks; [done|]. intros u. by apply prio_of_upd_task. Qed.

Lemma lookup_upd_pcpu s c p f c' :
  cpus s !! c = Some p ->
  cpus (upd_pcpu s c f) !! c' = if decide (c' = c) then Some (f p) else cpus s !! c'.
Proof.
  intros Hc. simpl. case_decide as Hd; [subst; by rewrite list_lookup_alter_eq, Hc|].
  by rewrite list_lookup_alter_ne.
Qed.

(** A CPU's queues change, its nodes up to the order being [nodes]. *)
Lemma sys_ok_upd_pcpu s c p f nodes :
  sys_ok s -> cpus s !! c = Some p -> queues_ok (prio_of s) (f p) ->
  pcpu_nodes (f p) ≡ₚ nodes ->
  (forall rest, state_nodes s ≡ₚ pcpu_nodes p ++ rest -> NoDup (nodes ++ rest)) ->
  (forall t, t ∈ nodes -> is_Some (tasks s !! t)) ->
  sys_ok (upd_pcpu s c f).
Proof.
  intros Hok Hc Hq Hp Hnd Hk. destruct (state_nodes_upd s c p Hc) as (rest & Hr & Hu).
  split.
  - rewrite Hu, Hp. by apply Hnd.
  - intros c' p'. rewrite (lookup_upd_pcpu s c p) by done. case_decide.
    + by intros [= <-].
    + apply (so_queues _ Hok).
  - intros t. rewrite Hu, Hp, elem_of_app. intros [Ht|Ht]; [by apply Hk|].
    apply (so_known _ Hok). rewrite Hr. apply elem_of_app. by right.
Qed.

Lemma sys_ok_same s c p f :
  sys_ok s -> cpus s !! c = Some p -> queues_ok (prio_of s) (f p) ->
  pcpu_nodes (f p) ≡ₚ pcpu_nodes p -> sys_ok (upd_pcpu s c f).
Proof.
  intros Hok Hc Hq Hp. apply (sys_ok_upd_pcpu s c p f (pcpu_nodes p)); try done.
  - intros rest <-. apply (so_nodup _ Hok).
  - intros t Ht. by eapply (so_known _ Hok), pcpu_node_state.
Qed.

Lemma sys_ok_add s c p f t :
  sys_ok s -> cpus s !! c = Some p -> queues_ok (prio_of s) (f p) ->
  pcpu_nodes (f p) ≡ₚ t :: pcpu_nodes p -> t ∉ state_nodes s -> is_Some (tasks s !! t) ->
  sys_ok (upd_pcpu s c f).
Proof.
  intros Hok Hc Hq Hp Ht Hk. apply (sys_ok_upd_pcpu s c p f (t :: pcpu_nodes p)); try done.
  - intros rest Hr. simpl. rewrite <- Hr. apply NoDup_cons. split; [done|apply (so_nodup _ Hok)].
  - intros u [->|Hu]%elem_of_cons; [done|]. by eapply (so_known _ Hok), pcpu_node_state.
Qed.

Lemma sys_ok_del s c p f t :
  sys_ok s -> cpus s !! c = Some p -> queues_ok (prio_of s) (f p) ->
  pcpu_nodes p ≡ₚ t :: pcpu_nodes (f p) -> sys_ok (upd_pcpu s c f).
Proof.
  intros Hok Hc Hq Hp. apply (sys_ok_upd_pcpu s c p f (pcpu_nodes (f p))); try done.
  - intros rest Hr. pose proof (so_nodup _ Hok) as Hnd. rewrite Hr, Hp in Hnd.
    simpl in Hnd. by apply NoDup_cons in Hnd as [_ ?].
  - intros u Hu. eapply (so_known _ Hok), pcpu_node_state; [done|]. rewrite Hp.
    apply elem_of_cons. by right.
Qed.

(** The list of priority [k] becomes [l'], with its count and its bit. *)
Lemma queues_ok_update prio p p' k l l' :
  queues_ok prio p -> ready_list p !! k = Some l ->
  (forall t, t ∈ l' -> prio t = Some (Z.of_nat k)) -> (k = 7%nat -> idle_task p ∈ l') ->
  ready_list p' = <[k := l']> (ready_list p) ->
  tasks_in_prio p' =
    <[k := Z.of_nat (length l') - if (k =? 7)%nat then 1 else 0]> (tasks_in_prio p) ->
  0 <= local_rdy_grp p' < 256 ->
  (forall i, 0 <= i < 8 -> Z.testbit (local_rdy_grp p') i =
    if i =? Z.of_nat k then negb (bool_decide (l' = [])) else Z.testbit (local_rdy_grp p) i) ->
  idle_task p' = idle_task p -> queues_ok prio p'.
Proof.
  intros Hq Hk Hprio Hidle Hr Hc Hg Hb Hi.
  pose proof (lookup_lt_Some _ _ _ Hk) as Hlt.
  assert (Hlk : forall j m, ready_list p' !! j = Some m ->
    (j = k /\ m = l') \/ (j <> k /\ ready_list p !! j = Some m)).
  { intros j m. rewrite Hr. intros [(-> & <- & _)|[??]]%list_lookup_insert_Some; [by left|].
    right. by split. }
  split; try done.
  - rewrite Hr, length_insert. apply (qk_len _ _ Hq).
  - rewrite Hc, length_insert. apply (qk_cnt_len _ _ Hq).
  - intros j m Hj. assert (j < 8)%nat.
    { apply lookup_lt_Some in Hj. rewrite Hr, length_insert, (qk_len _ _ Hq) in Hj. lia. }
    rewrite Hb by lia. destruct (Hlk j m Hj) as [[-> ->]|[Hne Hj']].
    + by rewrite Z.eqb_refl.
    + rewrite (proj2 (Z.eqb_neq _ _)) by lia. by apply (qk_bits _ _ Hq).
  - intros j m t Hj Ht. destruct (Hlk j m Hj) as [[-> ->]|[Hne Hj']]; [by apply Hprio|].
    by apply (qk_prio _ _ Hq j m).
  - intros j m Hj. rewrite Hc. destruct (Hlk j m Hj) as [[-> ->]|[Hne Hj']].
    + rewrite list_lookup_insert_eq; [done|]. rewrite (qk_cnt_len _ _ Hq).
      rewrite (qk_len _ _ Hq) in Hlt. lia.
    + rewrite list_lookup_insert_ne by done. by apply (qk_count _ _ Hq).
  - intros m Hj. rewrite Hi. destruct (Hlk 7%nat m Hj) as [[<- ->]|[Hne Hj']]; [by apply Hidle|].
    by apply (qk_idle _ _ Hq).
Qed.

(** A state as one CPU's new state. *)
Definition put (s : sys) (c : nat) (p : pcpu) : sys := mk_sys (tasks s) (<[c := p]> (cpus s)).

Lemma upd_pcpu_put s c p f : cpus s !! c = Some p -> upd_pcpu s c f = put s c (f p).
Proof.
  intros Hc. unfold upd_pcpu, put. f_equal. apply list_eq. intros i.
  destruct (decide (i = c)) as [->|Hne].
  - rewrite list_lookup_alter_eq, Hc, list_lookup_insert_eq; [done|].
    by eapply lookup_lt_Some.
  - by rewrite list_lookup_alter_ne, list_lookup_insert_ne.
Qed.

Lemma put_lookup s c p q : cpus s !! c = Some p -> cpus (put s c q) !! c = Some q.
Proof. intros Hc. simpl. apply list_lookup_insert_eq. by eapply lookup_lt_Some. Qed.

Lemma put_put s c p q : put (put s c p) c q = put s c q.
Proof. unfold put; simpl. by rewrite list_insert_insert_eq. Qed.

Lemma upd_put s c p q f : cpus s !! c = Some p -> upd_pcpu (put s c q) c f = put s c (f q).
Proof.
  intros Hc. rewrite (upd_pcpu_put _ c q) by (by eapply put_lookup).
  apply put_put.
Qed.

Lemma get_pcpu_Ret s c p : cpus s !! c = Some p -> get_pcpu s c = Ret p.
Proof. unfold get_pcpu. by intros ->. Qed.

Lemma get_task_Ret s t x : tasks s !! t = Some x -> get_task s t = Ret x.
Proof. unfold get_task. by intros ->. Qed.

Lemma current_Ret s c p x :
  cpus s !! c = Some p -> tasks s !! running_task p = Some x -> current s c = Ret (running_task p, x).
Proof. intros Hc Hx. unfold current. by rewrite (get_pcpu_Ret _ _ _ Hc); simpl; rewrite (get_task_Ret _ _ _ Hx). Qed.

Lemma sched_update_sched_timer_Ret s c p x :
  cpus s !! c = Some p -> tasks s !! running_task p = Some x ->
  sched_update_sched_timer s c =
    Ret (put s c (set_sched_timer (if 1 <? count_at p (t_prio x) then Some (t_run_time x) else None) p)).
Proof.
  intros Hc Hx. unfold sched_update_sched_timer.
  rewrite (get_pcpu_Ret _ _ _ Hc), (current_Ret _ _ _ _ Hc Hx); simpl.
  rewrite !(upd_pcpu_put _ _ _ _ Hc). by case_match.
Qed.

Lemma nodes_put s c p q :
  cpus s !! c = Some p -> pcpu_nodes q ≡ₚ pcpu_nodes p -> state_nodes (put s c q) ≡ₚ state_nodes s.
Proof.
  intros Hc Hq. destruct (state_nodes_upd s c p Hc) as (rest & Hr & Hu).
  specialize (Hu (fun _ => q)). rewrite (upd_pcpu_put _ _ _ _ Hc) in Hu. by rewrite Hu, Hr, Hq.
Qed.

Lemma elem_of_state_nodes_put s c p q t :
  cpus s !! c = Some p -> t ∈ pcpu_nodes q -> t ∈ state_nodes (put s c q).
Proof. intros Hc. apply pcpu_node_state with c. by eapply put_lookup. Qed.

(** [p] with a task appended to, or inserted in, a ready list. *)
Definition enqueued (p : pcpu) (k : nat) (l' : list Z) (timer : option Z) : pcpu :=
  mk_pcpu (new_list p) (stop_list p) (running_task p) (idle_task p)
    (Z.lor (local_rdy_grp p) (BIT (Z.of_nat k))) (<[k := l']> (ready_list p))
    (<[k := Z.of_nat (length l') - if (k =? 7)%nat then 1 else 0]> (tasks_in_prio p))
    timer (irqwork_pending p) (kworker_flag p).

Lemma BIT_pow2 k : 0 <= k -> BIT k = 2 ^ k.
Proof. intros. unfold BIT. rewrite Z.shiftl_mul_pow2 by done. lia. Qed.

Lemma grp_lor g k : 0 <= g < 256 -> 0 <= k < 8 -> 0 <= Z.lor g (BIT k) < 256.
Proof.
  intros Hg Hk. apply (lor_word 8); [lia|done|]. rewrite BIT_pow2 by lia.
  split; [lia|]. change (2 ^ 8) with 256. change 256 with (2 ^ 8). apply Z.pow_lt_mono_r; lia.
Qed.

Lemma enqueued_ok prio p k l l' t timer :
  queues_ok prio p -> ready_list p !! k = Some l -> prio t = Some (Z.of_nat k) ->
  l' ≡ₚ t :: l -> queues_ok prio (enqueued p k l' timer).
Proof.
  intros Hq Hk Ht Hp. pose proof (lookup_lt_Some _ _ _ Hk) as Hlt. rewrite (qk_len _ _ Hq) in Hlt.
  apply (queues_ok_update prio p _ k l l'); try done.
  - intros u. rewrite Hp. intros [->|Hu]%elem_of_cons; [done|]. by apply (qk_prio _ _ Hq k l).
  - intros ->. rewrite Hp. apply elem_of_cons. right. by apply (qk_idle _ _ Hq).
  - apply grp_lor; [apply (qk_grp _ _ Hq)|lia].
  - intros i Hi. cbn. rewrite Z.lor_spec, BIT_pow2, Z.pow2_bits_eqb by lia.
    rewrite (Z.eqb_sym (Z.of_nat k)). destruct (Z.eqb_spec i (Z.of_nat k)); [|by rewrite orb_false_r].
    rewrite orb_true_r. rewrite bool_decide_false; [done|]. intros ->.
    by apply Permutation_nil_cons in Hp.
Qed.

Lemma enqueued_nodes p k l l' t timer :
  ready_list p !! k = Some l -> l' ≡ₚ t :: l ->
  pcpu_nodes (enqueued p k l' timer) ≡ₚ t :: pcpu_nodes p.
Proof.
  intros Hk Hp. unfold pcpu_nodes; cbn.
  destruct (concat_insert_perm _ k l Hk) as (rest & -> & ->). by rewrite Hp.
Qed.

Lemma pcpu_nodes_nodup s c p : sys_ok s -> cpus s !! c = Some p -> NoDup (pcpu_nodes p).
Proof.
  intros Hok Hc. destruct (state_nodes_upd s c p Hc) as (rest & Hr & _).
  pose proof (so_nodup _ Hok) as Hnd. rewrite Hr in Hnd. by apply NoDup_app in Hnd as (? & _ & _).
Qed.

Lemma list_insert_before_Ret s c p cur t k l :
  NoDup (state_nodes s) -> cpus s !! c = Some p -> NoDup (pcpu_nodes p) ->
  ready_list p !! k = Some l -> cur ∈ l ->
  list_insert_before s cur t = Ret (put s c (set_ready_at (Z.of_nat k) (insert_before cur t l) p)).
Proof.
  intros Hnd Hc Hp Hk Hcur. unfold list_insert_before.
  assert (Hn : cur ∈ pcpu_nodes p) by (apply on_ready_node, on_ready_lookup; eauto).
  rewrite (proj2 (linked_true s cur)) by (by eapply pcpu_node_state).
  rewrite (map_cpus_local _ cur (insert_before_absent cur t) s c p), (upd_pcpu_put _ _ _ _ Hc) by done.
  by rewrite (map_lists_ready _ cur (insert_before_absent cur t) p k l).
Qed.

Lemma count_at_ready prio p k l :
  queues_ok prio p -> ready_list p !! k = Some l ->
  count_at p (Z.of_nat k) = Z.of_nat (length l) - if (k =? 7)%nat then 1 else 0.
Proof. intros Hq Hk. unfold count_at. by rewrite Nat2Z.id, (qk_count _ _ Hq k l Hk). Qed.

Definition mark_resched (b : bool) (t : Z) (s : sys) : sys :=
  if b then upd_task s t (set_ti_flag __TIF_NEED_RESCHED) else s.

Lemma set_need_resched_put s c p q y :
  cpus s !! c = Some p -> tasks s !! running_task q = Some y ->
  set_need_resched (put s c q) c = Ret (mark_resched true (running_task q) (put s c q)).
Proof.
  intros Hc Hy. unfold set_need_resched.
  by rewrite (current_Ret _ c q y) by (done || by eapply put_lookup).
Qed.

Lemma add_task_to_ready_list_Ret s c p t x y k l preempt :
  sys_ok s -> cpus s !! c = Some p -> tasks s !! t = Some x ->
  tasks s !! running_task p = Some y -> t ∉ state_nodes s ->
  t_prio x = Z.of_nat k -> ready_list p !! k = Some l ->
  (t_prio y = t_prio x -> running_task p ∈ l) ->
  exists timer,
    add_task_to_ready_list s c t preempt =
      Ret (mark_resched (preempt || (t_prio x <? t_prio y)) (running_task p)
        (put s c (enqueued p k
          (if t_prio y =? t_prio x then insert_before (running_task p) t l else l ++ [t]) timer))).
Proof.
  intros Hok Hc Hx Hy Ht Hprio Hk Hcur. pose proof (so_queues _ Hok c p Hc) as Hq.
  unfold add_task_to_ready_list.
  rewrite (get_pcpu_Ret _ _ _ Hc), (get_task_Ret _ _ _ Hx), (current_Ret _ _ _ _ Hc Hy); simpl.
  rewrite (proj2 (linked_false s t) Ht); simpl.
  rewrite (upd_pcpu_put _ _ _ _ Hc), Hprio. set (n := count_at p (Z.of_nat k) + 1).
  set (tail := fun s => _ : outcome sys).
  assert (Htail : forall q l' timer, l' ≡ₚ t :: l ->
    q = set_sched_timer timer (set_ready_at (Z.of_nat k) l' (set_count_at (Z.of_nat k) n p)) ->
    tail (put s c q) = Ret (mark_resched (preempt || (Z.of_nat k <? t_prio y)) (running_task p)
                              (put s c (enqueued p k l' timer)))).
  { intros q l' timer Hl' ->. unfold tail. rewrite (upd_put _ _ _ _ _ Hc).
    assert (Hgrp : u8 (Z.lor (local_rdy_grp p) (BIT (Z.of_nat k))) =
                   Z.lor (local_rdy_grp p) (BIT (Z.of_nat k))).
    { apply (wrap_small 8), grp_lor; [apply (qk_grp _ _ Hq)|].
      apply lookup_lt_Some in Hk. rewrite (qk_len _ _ Hq) in Hk. lia. }
    match goal with |- context [put s c ?q] => replace q with (enqueued p k l' timer) end.
    - case_match; [|done]. by apply (set_need_resched_put s c p (enqueued p k l' timer) y).
    - unfold enqueued, set_ready_at, set_count_at, n; cbn. rewrite !Nat2Z.id.
      pose proof (Permutation_length Hl') as Hlen. simpl in Hlen.
      rewrite Hgrp, (count_at_ready _ _ _ _ Hq Hk), Hlen.
      replace (Z.of_nat (S (length l)) - _) with
        (Z.of_nat (length l) - (if (k =? 7)%nat then 1 else 0) + 1) by (destruct (k =? 7)%nat; lia).
      done. }
  destruct (Z.eqb_spec (t_prio y) (Z.of_nat k)) as [Heq|Hne].
  - rewrite Hprio in Hcur. specialize (Hcur Heq).
    rewrite (list_insert_before_Ret _ c (set_count_at (Z.of_nat k) n p) _ _ k l);
      [|rewrite (nodes_put _ _ _ _ Hc) by done; apply (so_nodup _ Hok)|by eapply put_lookup
       |exact (pcpu_nodes_nodup s c p Hok Hc)|done|done].
    simpl. pose proof (insert_before_perm (running_task p) t l Hcur) as Hp.
    rewrite put_put. destruct (n =? 2).
    + erewrite sched_update_sched_timer_Ret; [|by eapply put_lookup|exact Hy].
      rewrite put_put. eexists. by eapply Htail.
    + exists (sched_timer p). by eapply Htail.
  - unfold ready_at. rewrite Nat2Z.id, Hk. rewrite (proj2 (Z.leb_le _ _)) by lia. cbn.
    rewrite (upd_put _ _ _ _ _ Hc). exists (sched_timer p).
    eapply Htail; [|done]. solve_Permutation.
Qed.

(** [p] with a task taken out of a ready list. *)
Definition dequeued (p : pcpu) (k : nat) (l' : list Z) (timer : option Z) : pcpu :=
  mk_pcpu (new_list p) (stop_list p) (running_task p) (idle_task p)
    (if bool_decide (l' = []) then Z.land (local_rdy_grp p) (not64 (BIT (Z.of_nat k)))
     else local_rdy_grp p) (<[k := l']> (ready_list p))
    (<[k := Z.of_nat (length l') - if (k =? 7)%nat then 1 else 0]> (tasks_in_prio p))
    timer (irqwork_pending p) (kworker_flag p).

Lemma dequeued_ok prio p k l t timer :
  queues_ok prio p -> ready_list p !! k = Some l -> t ∈ l -> NoDup l -> t <> idle_task p ->
  queues_ok prio (dequeued p k (without t l) timer).
Proof.
  intros Hq Hk Ht Hnd Hidle. pose proof (lookup_lt_Some _ _ _ Hk) as Hlt. rewrite (qk_len _ _ Hq) in Hlt.
  pose proof (qk_grp _ _ Hq) as Hg. pose proof (without_perm t l Hnd Ht) as Hp.
  apply (queues_ok_update prio p _ k l (without t l)); try done.
  - intros u Hu. apply (qk_prio _ _ Hq k l); [done|]. rewrite Hp. apply elem_of_cons. by right.
  - intros ->. pose proof (qk_idle _ _ Hq l Hk) as Hi. rewrite Hp in Hi.
    by apply elem_of_cons in Hi as [?|?].
  - cbn. case_bool_decide; [|done]. by apply (land_word 8).
  - intros i Hi. cbn. case_bool_decide as Hnil; cbn.
    + rewrite Z.land_spec, testbit_not64, BIT_pow2, Z.pow2_bits_eqb by lia.
      rewrite (Z.eqb_sym (Z.of_nat k)). destruct (Z.eqb_spec i (Z.of_nat k)); case_bools; simpl; try lia;
        by rewrite ?andb_false_r, ?andb_true_r.
    + destruct (Z.eqb_spec i (Z.of_nat k)) as [->|]; [|done].
      rewrite (qk_bits _ _ Hq k l Hk), bool_decide_false; [done|]. intros ->. by apply not_elem_of_nil in Ht.
Qed.

Lemma dequeued_nodes p k l t timer :
  ready_list p !! k = Some l -> t ∈ l -> NoDup l ->
  pcpu_nodes p ≡ₚ t :: pcpu_nodes (dequeued p k (without t l) timer).
Proof.
  intros Hk Ht Hnd. unfold pcpu_nodes; cbn.
  destruct (concat_insert_perm _ k l Hk) as (rest & -> & ->). by rewrite (without_perm t l) at 1.
Qed.

Lemma ready_nodup p k l : NoDup (pcpu_nodes p) -> ready_list p !! k = Some l -> NoDup l.
Proof.
  intros (H & _ & _)%NoDup_app Hk. destruct (concat_insert_perm _ k l Hk) as (rest & Hr & _).
  rewrite Hr in H. by apply NoDup_app in H as (? & _ & _).
Qed.

Lemma list_del_put s c p t k l :
  NoDup (state_nodes s) -> cpus s !! c = Some p -> NoDup (pcpu_nodes p) ->
  ready_list p !! k = Some l -> t ∈ l ->
  list_del s t = put s c (set_ready_at (Z.of_nat k) (without t l) p).
Proof.
  intros Hnd Hc Hp Hk Ht. unfold list_del.
  assert (Hn : t ∈ pcpu_nodes p) by (apply on_ready_node, on_ready_lookup; eauto).
  rewrite (map_cpus_local _ t (without_absent t) s c p), (upd_pcpu_put _ _ _ _ Hc) by done.
  by rewrite (map_lists_ready _ t (without_absent t) p k l).
Qed.

Lemma remove_task_from_ready_list_Ret s c p t x y k l :
  sys_ok s -> cpus s !! c = Some p -> tasks s !! t = Some x ->
  tasks s !! running_task p = Some y -> ready_list p !! k = Some l -> t ∈ l ->
  exists timer,
    remove_task_from_ready_list s c t = Ret (put s c (dequeued p k (without t l) timer)).
Proof.
  intros Hok Hc Hx Hy Hk Ht. pose proof (so_queues _ Hok c p Hc) as Hq.
  pose proof (pcpu_nodes_nodup _ _ _ Hok Hc) as Hnd.
  pose proof (lookup_lt_Some _ _ _ Hk) as Hlt.
  assert (Hprio : t_prio x = Z.of_nat k).
  { pose proof (qk_prio _ _ Hq k l t Hk Ht) as H. unfold prio_of in H. rewrite Hx in H. by simplify_eq/=. }
  assert (Hn : t ∈ state_nodes s).
  { eapply pcpu_node_state, on_ready_node, on_ready_lookup; eauto. }
  pose proof (Permutation_length (without_perm t l (ready_nodup p k l Hnd Hk) Ht)) as Hlen. simpl in Hlen.
  unfold remove_task_from_ready_list. rewrite (proj2 (linked_true s t) Hn); simpl.
  rewrite (get_task_Ret _ _ _ Hx), (current_Ret _ _ _ _ Hc Hy); simpl. rewrite Hprio.
  rewrite (list_del_put s c p t k l) by (done || apply (so_nodup _ Hok)).
  rewrite (get_pcpu_Ret _ c _ (put_lookup _ _ _ _ Hc)); simpl. unfold ready_at; cbn.
  rewrite !Nat2Z.id, list_lookup_insert_eq, (proj2 (Z.leb_le _ _)) by (done || lia). simpl.
  assert (Hcnt : count_at (set_ready_at (Z.of_nat k) (without t l) p) (Z.of_nat k) - 1 =
    Z.of_nat (length (without t l)) - if (k =? 7)%nat then 1 else 0).
  { change (count_at (set_ready_at _ _ p) (Z.of_nat k)) with (count_at p (Z.of_nat k)).
    rewrite (count_at_ready _ _ _ _ Hq Hk), Hlen. destruct (k =? 7)%nat; lia. }
  rewrite Hcnt. set (n := _ - (if (k =? 7)%nat then 1 else 0)).
  assert (Hs : forall q, (match without t l with
             | [] => upd_pcpu (put s c q) c (fun p => set_local_rdy_grp (Z.land (local_rdy_grp p) (not64 (BIT (Z.of_nat k)))) p)
             | _ => put s c q end) =
     put s c (if bool_decide (without t l = []) then
       set_local_rdy_grp (Z.land (local_rdy_grp q) (not64 (BIT (Z.of_nat k)))) q else q)).
  { intros q. rewrite (upd_put _ _ _ _ _ Hc). by destruct (without t l). }
  rewrite Hs, (upd_put _ _ _ _ _ Hc).
  assert (Hd : forall timer q, q = dequeued p k (without t l) (sched_timer p) ->
     put s c (set_sched_timer timer q) = put s c (dequeued p k (without t l) timer)).
  { by intros timer q ->. }
  set (q := set_count_at _ _ _).
  assert (Hqe : q = dequeued p k (without t l) (sched_timer p)).
  { unfold q, dequeued, set_ready_at, set_count_at. case_bool_decide; cbn; by rewrite !Nat2Z.id. }
  destruct (_ && _).
  - erewrite sched_update_sched_timer_Ret; [|by eapply put_lookup|rewrite Hqe; exact Hy].
    rewrite put_put. eexists. f_equal. by apply Hd.
  - exists (sched_timer p). by rewrite Hqe.
Qed.

(** ** The scheduler's invariant *)

(** The fields the scheduler decides on. *)
Definition core (x : task) : Z * Z * Z * Z := (t_prio x, t_affinity x, t_state x, t_cpu x).

Definition valid_task (s : sys) (x : task) : Prop :=
  0 <= t_prio x < OS_PRIO_MAX /\ -1 <= t_affinity x < Z.of_nat (length (cpus s)).

(** Besides the queues: a running task is ready on its CPU, a task that waits and
    does not run is on no list and off every CPU, only running tasks are in state
    [TASK_STATE_RUNNING], and an idle task never blocks. *)
Record sys_inv (s : sys) : Prop := {
  si_ok : sys_ok s;
  si_run : running_ok s;
  si_valid : forall t x, tasks s !! t = Some x -> valid_task s x;
  si_wait : forall t x, tasks s !! t = Some x -> t_state x = TASK_STATE_WAIT_EVENT ->
    t ∉ running s -> t_cpu x = -1 /\ t ∉ state_nodes s;
  si_not_ready : forall t x, tasks s !! t = Some x -> t ∈ running s -> t_state x <> TASK_STATE_READY;
  si_running : forall t x, tasks s !! t = Some x -> t_state x = TASK_STATE_RUNNING -> t ∈ running s;
  si_idle : forall c p x, cpus s !! c = Some p -> tasks s !! idle_task p = Some x ->
    t_state x = TASK_STATE_RUNNING \/ t_state x = TASK_STATE_READY;
}.

(** [t] is now on a list of [s'], and nothing else the scheduler reads changed. *)
Record readied (s s' : sys) (t : Z) : Prop := {
  rd_ok : sys_ok s';
  rd_nodes : state_nodes s' ≡ₚ t :: state_nodes s;
  rd_running : running s' = running s;
  rd_core : forall u, u <> t -> core <$> tasks s' !! u = core <$> tasks s !! u;
  rd_task : forall x, tasks s !! t = Some x ->
    exists cpu fl, tasks s' !! t = Some (set_t_cpu cpu (set_ti_flags fl x));
  rd_cpus : forall c p', cpus s' !! c = Some p' -> exists p, cpus s !! c = Some p /\
    running_task p' = running_task p /\ kworker_flag p' = kworker_flag p /\
    idle_task p' = idle_task p /\ forall u, on_ready p u -> on_ready p' u;
}.

Lemma core_eq (o o' : option task) x' :
  core <$> o' = core <$> o -> o' = Some x' ->
  exists x, o = Some x /\ t_prio x' = t_prio x /\ t_affinity x' = t_affinity x /\
    t_state x' = t_state x /\ t_cpu x' = t_cpu x.
Proof.
  intros H ->. destruct o as [x|]; [|done]. exists x. injection H as H1 H2 H3 H4. by split_and!.
Qed.

Lemma running_length s s' : running s' = running s -> length (cpus s') = length (cpus s).
Proof. intros H%(f_equal length). unfold running in H. by rewrite !length_fmap in H. Qed.

Lemma running_put s c p q :
  cpus s !! c = Some p -> running_task q = running_task p -> running (put s c q) = running s.
Proof.
  intros Hc Hq. unfold running, put; simpl. rewrite list_fmap_insert, Hq.
  apply list_insert_id. by rewrite list_lookup_fmap, Hc.
Qed.

Lemma elem_of_running s c p : cpus s !! c = Some p -> running_task p ∈ running s.
Proof.
  intros Hc. apply list_elem_of_lookup. exists c. unfold running. by rewrite list_lookup_fmap, Hc.
Qed.

Lemma not_running_ne s c p t : t ∉ running s -> cpus s !! c = Some p -> t <> running_task p.
Proof. intros Hn Hc ->. apply Hn. by eapply elem_of_running. Qed.

Lemma running_inv s t : t ∈ running s -> exists c p, cpus s !! c = Some p /\ running_task p = t.
Proof.
  intros (p & -> & [c Hc]%list_elem_of_lookup)%list_elem_of_fmap. by exists c, p.
Qed.

Lemma core_upd_task s t f u :
  (forall x, core (f x) = core x) -> core <$> tasks (upd_task s t f) !! u = core <$> tasks s !! u.
Proof.
  intros Hf. simpl. destruct (decide (u = t)) as [->|Hne].
  - rewrite lookup_alter_eq. destruct (tasks s !! t); simpl; [by rewrite Hf|done].
  - by rewrite lookup_alter_ne.
Qed.

Lemma mark_resched_lookup b r s t x :
  tasks s !! t = Some x -> exists fl, tasks (mark_resched b r s) !! t = Some (set_ti_flags fl x).
Proof.
  intros Hx. destruct b; cbn; [|exists (ti_flags x); rewrite Hx; by destruct x].
  destruct (decide (t = r)) as [->|Hne].
  - rewrite lookup_alter_eq, Hx. by eexists.
  - rewrite lookup_alter_ne, Hx by done. exists (ti_flags x). by destruct x.
Qed.

Lemma core_mark_resched b t s u :
  core <$> tasks (mark_resched b t s) !! u = core <$> tasks s !! u.
Proof. destruct b; [by apply core_upd_task|done]. Qed.

Lemma sys_ok_core s s' :
  cpus s' = cpus s -> (forall u, core <$> tasks s' !! u = core <$> tasks s !! u) ->
  sys_ok s -> sys_ok s'.
Proof.
  intros Hc Hu. apply sys_ok_tasks; [done|]. intros t. specialize (Hu t). unfold prio_of.
  destruct (tasks s' !! t), (tasks s !! t); try done. injection Hu as H _ _ _. simpl. by rewrite H.
Qed.

(** Changes of other fields keep the invariant. *)
Lemma sys_inv_core s s' :
  cpus s' = cpus s -> (forall u, core <$> tasks s' !! u = core <$> tasks s !! u) ->
  sys_inv s -> sys_inv s'.
Proof.
  intros Hc Hu [H1 H2 H3 H4 H5 H6 H7].
  assert (Hr : running s' = running s) by (unfold running; by rewrite Hc).
  assert (Hn : state_nodes s' = state_nodes s) by (unfold state_nodes; by rewrite Hc).
  split.
  - by apply (sys_ok_core s).
  - unfold running_ok. rewrite Hc. apply H2.
  - intros t x' Ht. destruct (core_eq _ _ _ (Hu t) Ht) as (x & Hx & E1 & E2 & _).
    unfold valid_task. rewrite E1, E2, Hc. by apply (H3 t).
  - intros t x' Ht Hw. destruct (core_eq _ _ _ (Hu t) Ht) as (x & Hx & E1 & E2 & E3 & E4).
    rewrite Hr, Hn, E4. apply H4; [done|congruence].
  - intros t x' Ht. destruct (core_eq _ _ _ (Hu t) Ht) as (x & Hx & E1 & E2 & -> & E4).
    rewrite Hr. by apply H5.
  - intros t x' Ht. destruct (core_eq _ _ _ (Hu t) Ht) as (x & Hx & E1 & E2 & -> & E4).
    rewrite Hr. by apply H6.
  - intros c p x' Hcp Ht. rewrite Hc in Hcp.
    destruct (core_eq _ _ _ (Hu _) Ht) as (x & Hx & E1 & E2 & -> & E4). by apply (H7 c p).
Qed.

Lemma queues_ok_same prio p p' :
  ready_list p' = ready_list p -> tasks_in_prio p' = tasks_in_prio p ->
  local_rdy_grp p' = local_rdy_grp p -> idle_task p' = idle_task p ->
  queues_ok prio p -> queues_ok prio p'.
Proof. intros E1 E2 E3 E4 [H1 H2 H3 H4 H5 H6 H7]. by split; rewrite ?E1, ?E2, ?E3, ?E4. Qed.

Lemma known_running s c p : sys_inv s -> cpus s !! c = Some p -> is_Some (tasks s !! running_task p).
Proof.
  intros Hs Hc. apply (so_known _ (si_ok _ Hs)). eapply pcpu_node_state; [done|].
  apply on_ready_node. by apply (si_run _ Hs c).
Qed.

Lemma ready_prio s c p t x :
  sys_ok s -> cpus s !! c = Some p -> tasks s !! t = Some x -> on_ready p t ->
  exists k l, ready_list p !! k = Some l /\ t ∈ l /\ t_prio x = Z.of_nat k.
Proof.
  intros Hok Hc Hx (k & l & Hk & Ht)%on_ready_lookup. exists k, l. split_and!; [done|done|].
  pose proof (qk_prio _ _ (so_queues _ Hok c p Hc) k l t Hk Ht) as H.
  unfold prio_of in H. rewrite Hx in H. by simplify_eq/=.
Qed.

Lemma readied_intro s s' t x c p q :
  sys_ok s -> cpus s !! c = Some p -> tasks s !! t = Some x -> t ∉ state_nodes s ->
  cpus s' = <[c := q]> (cpus s) ->
  (forall u, u <> t -> core <$> tasks s' !! u = core <$> tasks s !! u) ->
  (exists cpu fl, tasks s' !! t = Some (set_t_cpu cpu (set_ti_flags fl x))) ->
  queues_ok (prio_of s) q -> pcpu_nodes q ≡ₚ t :: pcpu_nodes p ->
  running_task q = running_task p -> kworker_flag q = kworker_flag p ->
  idle_task q = idle_task p -> (forall u, on_ready p u -> on_ready q u) -> readied s s' t.
Proof.
  intros Hok Hc Hx Ht Hcpus Hcore (cpu & fl & Hx') Hq Hn Hr Hw Hid Hu.
  assert (Hput : sys_ok (put s c q)).
  { rewrite <- (upd_pcpu_put s c p (fun _ => q) Hc).
    by apply (sys_ok_add s c p _ t). }
  assert (Hnodes : state_nodes s' = state_nodes (put s c q)) by (unfold state_nodes; by rewrite Hcpus).
  split.
  - apply (sys_ok_tasks (put s c q)); [done| |done]. intros u. unfold prio_of.
    destruct (decide (u = t)) as [->|Hne]; [cbn; by rewrite Hx', Hx|].
    specialize (Hcore u Hne). cbn. destruct (tasks s' !! u), (tasks s !! u); try done.
    injection Hcore as H _ _ _. cbn. by rewrite H.
  - rewrite Hnodes. destruct (state_nodes_upd s c p Hc) as (rest & H1 & H2).
    specialize (H2 (fun _ => q)). rewrite (upd_pcpu_put _ _ _ _ Hc) in H2. by rewrite H2, H1, Hn.
  - rewrite <- (running_put s c p q Hc Hr). unfold running. by rewrite Hcpus.
  - done.
  - intros z Hz. simplify_eq. by exists cpu, fl.
  - intros c' p'. rewrite Hcpus. intros [(-> & <- & _)|[Hne Hl]]%list_lookup_insert_Some.
    + exists p. by split_and!.
    + by exists p'.
Qed.

Lemma enqueued_on_ready p k l l' t timer u :
  ready_list p !! k = Some l -> l' ≡ₚ t :: l -> on_ready p u -> on_ready (enqueued p k l' timer) u.
Proof.
  intros Hk Hp Hu. unfold on_ready in *; cbn.
  destruct (concat_insert_perm _ k l Hk) as (rest & H1 & ->). rewrite H1 in Hu. rewrite Hp.
  simpl. apply elem_of_cons. by right.
Qed.

Definition target_cpu (s : sys) (x : task) : Z :=
  if t_affinity x =? -1 then select_task_run_cpu s else t_affinity x.

Lemma target_cpu_range s x :
  (0 < length (cpus s))%nat -> valid_task s x -> 0 <= target_cpu s x < Z.of_nat (length (cpus s)).
Proof. intros Hn [_ Ha]. unfold target_cpu, select_task_run_cpu. case_match; bool_hyps; lia. Qed.

Lemma add_task_readied s c p t x y preempt :
  sys_ok s -> cpus s !! c = Some p -> tasks s !! t = Some x ->
  tasks s !! running_task p = Some y -> t ∉ state_nodes s -> 0 <= t_prio x < OS_PRIO_MAX ->
  (t_prio y = t_prio x -> on_ready p (running_task p)) ->
  exists s', add_task_to_ready_list s c t preempt = Ret s' /\ readied s s' t /\
    exists q, cpus s' = <[c := q]> (cpus s) /\ new_list q = new_list p /\ stop_list q = stop_list p /\
      on_ready q t.
Proof.
  intros Hok Hc Hx Hy Ht Hv Hcur. unfold OS_PRIO_MAX in Hv.
  pose proof (so_queues _ Hok c p Hc) as Hq.
  destruct (lookup_lt_is_Some_2 (ready_list p) (Z.to_nat (t_prio x))) as [l Hk];
    [rewrite (qk_len _ _ Hq); lia|].
  assert (Hin : t_prio y = t_prio x -> running_task p ∈ l).
  { intros E. destruct (ready_prio s c p _ y Hok Hc Hy (Hcur E)) as (k' & l' & Hk' & Hin & Ek).
    assert (k' = Z.to_nat (t_prio x)) as -> by lia. congruence. }
  destruct (add_task_to_ready_list_Ret s c p t x y (Z.to_nat (t_prio x)) l preempt)
    as (timer & Hadd); try done; [lia|].
  rewrite Hadd. eexists. split; [reflexivity|]. set (k := Z.to_nat (t_prio x)) in *.
  set (l' := if t_prio y =? t_prio x then _ else _).
  assert (Hl' : l' ≡ₚ t :: l).
  { unfold l'. destruct (Z.eqb_spec (t_prio y) (t_prio x)) as [E|E]; [|solve_Permutation].
    apply insert_before_perm. by apply Hin. }
  split; [|exists (enqueued p k l' timer); split_and!; [by destruct (_ || _)|done|done|]].
  2: { apply on_ready_lookup. exists k, l'. cbn. split; [|rewrite Hl'; apply elem_of_cons; by left].
       apply list_lookup_insert_eq. by eapply lookup_lt_Some. }
  apply (readied_intro s _ t x c p (enqueued p k l' timer)); try done.
  - by destruct (_ || _).
  - intros u Hne. by rewrite core_mark_resched.
  - destruct (mark_resched_lookup (preempt || (t_prio x <? t_prio y)) (running_task p)
      (put s c (enqueued p k l' timer)) t x Hx) as [fl Hfl]. by exists (t_cpu x), fl.
  - apply (enqueued_ok _ p k l l' t); try done. unfold prio_of, k. rewrite Hx. cbn. f_equal. lia.
  - by apply (enqueued_nodes p k l).
  - intros u. by apply (enqueued_on_ready p k l l' t).
Qed.

Lemma smp_percpu_task_ready_readied s c p t x preempt :
  sys_ok s -> cpus s !! c = Some p -> tasks s !! t = Some x -> t ∉ state_nodes s ->
  exists s', smp_percpu_task_ready s c t preempt = Ret s' /\ readied s s' t /\
    cpus s' !! c = Some (set_irqwork_pending true (set_new_list (new_list p ++ [t]) p)).
Proof.
  intros Hok Hc Hx Ht. unfold smp_percpu_task_ready.
  set (s0 := if preempt then _ else s).
  assert (Hc0 : cpus s0 = cpus s) by (by destruct preempt).
  assert (Hu0 : forall u, core <$> tasks s0 !! u = core <$> tasks s !! u).
  { intros u. unfold s0. destruct preempt; [by apply core_upd_task|done]. }
  assert (Ht0 : linked s0 t = false).
  { apply linked_false. unfold state_nodes. by rewrite Hc0. }
  rewrite Ht0; cbn. rewrite (get_pcpu_Ret s0 c p) by (by rewrite Hc0). cbn.
  rewrite (upd_pcpu_put s0 c p) by (by rewrite Hc0). set (q := set_irqwork_pending _ _).
  eexists. split; [reflexivity|]. split; [|eapply put_lookup; by rewrite Hc0].
  apply (readied_intro s _ t x c p q); try done.
  - cbn. by rewrite Hc0.
  - exists (t_cpu x), (ti_flags (if preempt then task_set_resched x else x)). cbn. unfold s0.
    destruct preempt; cbn; [rewrite lookup_alter_eq|]; rewrite Hx; by destruct x.
  - apply (queues_ok_same _ p); try done. by apply (so_queues _ Hok c).
  - unfold pcpu_nodes; cbn. solve_Permutation.
Qed.

Lemma readied_move s s' t cpu :
  readied (upd_task s t (set_t_cpu cpu)) s' t -> readied s s' t.
Proof.
  intros [H1 H2 H3 H4 H5 H6]. split; try done.
  - intros u Hne. rewrite H4 by done. cbn. by rewrite lookup_alter_ne.
  - intros x Hx. destruct (H5 (set_t_cpu cpu x)) as (cpu' & fl & Hx'); [|by exists cpu', fl].
    cbn. by rewrite lookup_alter_eq, Hx.
Qed.

(** [task_ready] on an unlinked task succeeds and links it. *)
Lemma task_ready_readied s c p t x y preempt :
  sys_ok s -> cpus s !! c = Some p -> tasks s !! t = Some x ->
  tasks s !! running_task p = Some y -> t ∉ state_nodes s -> valid_task s x ->
  (t_prio y = t_prio x -> on_ready p (running_task p)) ->
  exists s', task_ready s c t preempt = Ret s' /\ readied s s' t.
Proof.
  intros Hok Hc Hx Hy Ht Hv Hcur. pose proof (lookup_lt_Some _ _ _ Hc) as Hlt.
  pose proof (target_cpu_range s x ltac:(lia) Hv) as Htc.
  unfold task_ready. rewrite (get_task_Ret _ _ _ Hx); simpl. fold (target_cpu s x).
  set (s0 := upd_task s t (set_t_cpu (target_cpu s x))).
  assert (Hok0 : sys_ok s0) by (by apply sys_ok_upd_task).
  assert (Hx0 : tasks s0 !! t = Some (set_t_cpu (target_cpu s x) x)).
  { cbn. by rewrite lookup_alter_eq, Hx. }
  destruct (Z.eqb_spec (Z.of_nat c) (target_cpu s x)) as [Heq|Hne]; simpl.
  - assert (Hyt : exists y', tasks s0 !! running_task p = Some y' /\ t_prio y' = t_prio y).
    { pose proof (prio_of_upd_task s t (set_t_cpu (target_cpu s x)) (running_task p)) as H.
      unfold prio_of in H. fold s0 in H. rewrite Hy in H.
      destruct (tasks s0 !! running_task p) as [y'|]; [|by specialize (H ltac:(done))].
      specialize (H ltac:(done)). injection H as H. eauto. }
    destruct Hyt as (y' & Hy' & E).
    destruct (add_task_readied s0 c p t _ y' preempt Hok0 Hc Hx0 Hy' Ht) as (s' & Hs' & Hr & _).
    + apply Hv.
    + cbn. by rewrite E.
    + exists s'. split; [done|]. by eapply readied_move.
  - destruct (lookup_lt_is_Some_2 (cpus s) (Z.to_nat (target_cpu s x))) as [q Hq]; [lia|].
    destruct (smp_percpu_task_ready_readied s0 _ q t _ preempt Hok0 Hq Hx0 Ht) as (s' & Hs' & Hr & _).
    exists s'. split; [done|]. by eapply readied_move.
Qed.

Lemma readied_running_ok s s' t : running_ok s -> readied s s' t -> running_ok s'.
Proof.
  intros Hr Hrd c p' Hc'. destruct (rd_cpus _ _ _ Hrd c p' Hc') as (p & Hc & -> & _ & _ & Hu).
  apply Hu. by apply (Hr c).
Qed.

(** The core of every task of [s'] comes from [s], the CPU of [t] apart. *)
Lemma readied_core s s' t u x' :
  readied s s' t -> is_Some (tasks s !! t) -> tasks s' !! u = Some x' ->
  exists x, tasks s !! u = Some x /\ t_prio x' = t_prio x /\ t_affinity x' = t_affinity x /\
    t_state x' = t_state x /\ (u <> t -> t_cpu x' = t_cpu x).
Proof.
  intros Hrd [x Hx] Hx'. destruct (decide (u = t)) as [->|Hne].
  - destruct (rd_task _ _ _ Hrd x Hx) as (cpu & fl & E). exists x. rewrite Hx' in E. simplify_eq. done.
  - destruct (core_eq _ _ _ (rd_core _ _ _ Hrd u Hne) Hx') as (z & Hz & E1 & E2 & E3 & E4).
    exists z. by split_and!.
Qed.

Lemma sys_inv_readied s s' t x :
  sys_inv s -> tasks s !! t = Some x -> t_state x <> TASK_STATE_WAIT_EVENT ->
  readied s s' t -> sys_inv s'.
Proof.
  intros [H1 H2 H3 H4 H5 H6 H7] Hx Hst Hrd.
  pose proof (rd_running _ _ _ Hrd) as Hr. pose proof (running_length _ _ Hr) as Hlen.
  assert (Hk : is_Some (tasks s !! t)) by (by exists x).
  split; [apply (rd_ok _ _ _ Hrd)|by eapply readied_running_ok| | | | |].
  5: { intros c p' x' Hc' Hu. destruct (rd_cpus _ _ _ Hrd c p' Hc') as (p & Hc & _ & _ & Hid & _).
       destruct (readied_core s s' t _ x' Hrd Hk Hu) as (z & Hz & _ & _ & -> & _).
       rewrite Hid in Hz. by apply (H7 c p). }
  all: intros u x' Hu; destruct (readied_core s s' t u x' Hrd Hk Hu) as (z & Hz & E1 & E2 & E3 & E4);
    rewrite ?Hr, ?E3.
  - unfold valid_task. rewrite E1, E2, Hlen. by apply (H3 u).
  - intros Hw Hnr. assert (u <> t) by (intros ->; simplify_eq).
    rewrite E4 by done. destruct (H4 u z Hz Hw Hnr) as [Hcpu Hn]. split; [done|].
    rewrite (rd_nodes _ _ _ Hrd). by apply not_elem_of_cons.
  - by apply H5.
  - by apply H6.
Qed.

Definition not_idle (s : sys) (t : Z) : Prop := forall c p, cpus s !! c = Some p -> idle_task p <> t.

Lemma waiting_not_idle s t x :
  sys_inv s -> tasks s !! t = Some x -> t_state x = TASK_STATE_WAIT_EVENT -> not_idle s t.
Proof. intros Hs Hx Hst c p Hc <-. by destruct (si_idle _ Hs c p x Hc Hx) as [E|E]; rewrite Hst in E. Qed.

Lemma running_not_idle s c p :
  sys_inv s -> cpus s !! c = Some p -> running_task p <> idle_task p -> not_idle s (running_task p).
Proof.
  intros Hs Hc Hne c' p' Hc' E. apply Hne.
  assert (Hi : idle_task p' ∈ pcpu_nodes p').
  { pose proof (so_queues _ (si_ok _ Hs) c' p' Hc') as Hq. apply on_ready_node, on_ready_lookup.
    destruct (lookup_lt_is_Some_2 (ready_list p') 7) as [l Hl]; [rewrite (qk_len _ _ Hq); lia|].
    exists 7%nat, l. split; [done|by apply (qk_idle _ _ Hq)]. }
  assert (c' = c) as ->.
  { eapply (node_pcpu_unique s); [apply (si_ok _ Hs)|done|done|done|].
    rewrite E. apply on_ready_node. by apply (si_run _ Hs c). }
  congruence.
Qed.

(** A state change keeps the invariant when a running task does not become ready
    and another task does not become waiting or running. *)
Lemma sys_inv_set_state s t f st :
  sys_inv s -> (t ∈ running s -> st <> TASK_STATE_READY) ->
  (t ∉ running s -> st <> TASK_STATE_WAIT_EVENT /\ st <> TASK_STATE_RUNNING) ->
  (forall x, t_prio (f x) = t_prio x /\ t_affinity (f x) = t_affinity x /\ t_state (f x) = st) ->
  (st = TASK_STATE_RUNNING \/ st = TASK_STATE_READY \/ not_idle s t) ->
  sys_inv (upd_task s t f).
Proof.
  intros [H1 H2 H3 H4 H5 H6 H7] Hin Hout Hf Hid.
  assert (Hl : forall u x', tasks (upd_task s t f) !! u = Some x' ->
    (u = t /\ exists x, tasks s !! t = Some x /\ x' = f x) \/ (u <> t /\ tasks s !! u = Some x')).
  { intros u x'. cbn. intros [(-> & z & Hz & ->)|[??]]%lookup_alter_Some; [left|right]; eauto. }
  split; [apply sys_ok_upd_task; [intros x; apply Hf|done]|done| | | | |].
  5: { intros c p x' Hc Hu. destruct (Hl _ x' Hu) as [(<- & x & Hx & ->)|[Hne Hu']]; [|by apply (H7 c p)].
       destruct (Hf x) as (_ & _ & ->). destruct Hid as [|[|Hid]]; [by left|by right|].
       by destruct (Hid c p Hc). }
  all: intros u x' Hu; destruct (Hl u x' Hu) as [(-> & x & Hx & ->)|[Hne Hu']].
  - unfold valid_task. destruct (Hf x) as (-> & -> & _). by apply (H3 t).
  - by apply (H3 u).
  - destruct (Hf x) as (_ & _ & ->). intros Hw Hnr. by destruct (Hout Hnr).
  - by apply H4.
  - destruct (Hf x) as (_ & _ & ->). done.
  - by apply H5.
  - destruct (Hf x) as (_ & _ & ->). intros Hst. destruct (decide (t ∈ running s)) as [|Hnr]; [done|].
    by destruct (Hout Hnr).
  - by apply H6.
Qed.

(** What a successful wake-up leaves in the task. *)
Definition woken (x' : task) (pend_state data : Z) : Prop :=
  t_state x' = TASK_STATE_WAKING /\ t_pend_state x' = pend_state /\ t_ipcdata x' = data /\
  t_delay x' = 0.

Lemma upd_task_lookup s t f x : tasks s !! t = Some x -> tasks (upd_task s t f) !! t = Some (f x).
Proof. intros Hx. cbn. by rewrite lookup_alter_eq, Hx. Qed.

(** A timer is armed only for a task with a delay. *)
Definition timer_ok (x : task) : Prop := t_delay x = 0 -> t_timer x = None.

Lemma wake_up_common_Ret s c p t x pend_state data :
  sys_ok s -> cpus s !! c = Some p -> is_Some (tasks s !! running_task p) ->
  tasks s !! t = Some x -> t <> running_task p -> valid_task s x ->
  t_state x = TASK_STATE_WAIT_EVENT -> t_cpu x = -1 -> t ∉ state_nodes s ->
  (prio_of s (running_task p) = prio_of s t -> on_ready p (running_task p)) ->
  exists s' s1 g, wake_up_common s c t pend_state data = Ret (0, s') /\ readied s1 s' t /\
    s1 = upd_task s t g /\ (forall z, t_prio (g z) = t_prio z /\ t_affinity (g z) = t_affinity z /\
      t_state (g z) = TASK_STATE_WAKING) /\
    woken (g x) pend_state data /\
    (timer_ok x -> pend_state <> TASK_STATE_PEND_TO -> t_timer (g x) = None).
Proof.
  intros Hok Hc [y Hy] Hx Hne Hv Hst Hcpu Hn Hcur. unfold wake_up_common.
  rewrite (get_task_Ret _ _ _ Hx); simpl. rewrite Hst, Hcpu; simpl.
  set (f := fun x => set_t_ipcdata data _).
  set (b := negb (t_delay x =? 0) && negb (pend_state =? TASK_STATE_PEND_TO)).
  set (g := fun z => if b then set_t_timer None (f z) else f z).
  assert (Hg : (if b then upd_task (upd_task s t f) t (set_t_timer None) else upd_task s t f) = upd_task s t g).
  { unfold g. destruct b; [|done]. unfold upd_task; cbn. f_equal. apply (alter_alter_eq (set_t_timer None) f). }
  rewrite Hg.
  assert (Hgz : forall z, t_prio (g z) = t_prio z /\ t_affinity (g z) = t_affinity z /\
      t_state (g z) = TASK_STATE_WAKING) by (intros z; unfold g; by destruct b).
  assert (Hy1 : tasks (upd_task s t g) !! running_task p = Some y).
  { cbn. by rewrite lookup_alter_ne. }
  destruct (task_ready_readied (upd_task s t g) c p t (g x) y true) as (s' & Hs' & Hrd);
    [apply sys_ok_upd_task; [intros z; apply Hgz|done]|done|by apply upd_task_lookup|done|done| | |].
  - unfold valid_task. destruct (Hgz x) as (-> & -> & _). exact Hv.
  - destruct (Hgz x) as (-> & _ & _). intros E. apply Hcur. unfold prio_of. rewrite Hx, Hy. cbn. by f_equal.
  - exists s', (upd_task s t g), g. rewrite Hs'. split_and!; try done.
    + unfold woken. destruct (Hgz x) as (_ & _ & ->). unfold g. by destruct b.
    + unfold g, b, timer_ok. intros Hto Hp. rewrite (proj2 (Z.eqb_neq _ _) Hp), andb_true_r.
      destruct (Z.eqb_spec (t_delay x) 0); cbn; [by apply Hto|done].
Qed.

Lemma wake_up_waiting s c p t x pend_state data :
  sys_inv s -> cpus s !! c = Some p -> tasks s !! t = Some x -> t ∉ running s ->
  t_state x = TASK_STATE_WAIT_EVENT ->
  exists s' x', __wake_up s c t pend_state data = Ret (0, s') /\ sys_inv s' /\
    running s' = running s /\ state_nodes s' ≡ₚ t :: state_nodes s /\ tasks s' !! t = Some x' /\
    woken x' pend_state data /\
    (timer_ok x -> pend_state <> TASK_STATE_PEND_TO -> t_timer x' = None) /\
    (forall u, u <> t -> core <$> tasks s' !! u = core <$> tasks s !! u).
Proof.
  intros Hs Hc Hx Hnr Hst. destruct (si_wait _ Hs t x Hx Hst Hnr) as [Hcpu Hn].
  assert (Hne : t <> running_task p) by (by eapply not_running_ne).
  destruct (known_running s c p Hs Hc) as [y Hy].
  unfold __wake_up. rewrite (current_Ret _ _ _ _ Hc Hy); simpl.
  rewrite (proj2 (Z.eqb_neq _ _)) by done.
  destruct (wake_up_common_Ret s c p t x pend_state data) as (s' & s1 & g & Hw & Hrd & -> & Hg & Hwk & Hto);
    [apply (si_ok _ Hs)|done|done|done|done|by apply (si_valid _ Hs t)|done|done|done
    |intros _; by apply (si_run _ Hs c)|].
  pose proof (upd_task_lookup s t g x Hx) as Hgx. destruct (Hg x) as (E1 & E2 & E3).
  destruct (rd_task _ _ _ Hrd _ Hgx) as (cpu & fl & Hx').
  exists s', (set_t_cpu cpu (set_ti_flags fl (g x))). rewrite Hw. split_and!; try done.
  - apply (sys_inv_readied (upd_task s t g) s' t (g x)); [|done|by rewrite E3|done].
    apply (sys_inv_set_state s t g TASK_STATE_WAKING); try done.
    right; right. by apply (waiting_not_idle s t x).
  - apply (rd_running _ _ _ Hrd).
  - apply (rd_nodes _ _ _ Hrd).
  - intros u Hu. rewrite (rd_core _ _ _ Hrd u Hu). cbn. by rewrite lookup_alter_ne.
Qed.

(** A task that is not waiting is not woken. *)
Lemma wake_up_not_waiting s c p t x pend_state data :
  sys_inv s -> cpus s !! c = Some p -> tasks s !! t = Some x -> t ∉ running s ->
  t_state x <> TASK_STATE_WAIT_EVENT -> __wake_up s c t pend_state data = Ret (- EPERM, s).
Proof.
  intros Hs Hc Hx Hnr Hst. destruct (known_running s c p Hs Hc) as [y Hy].
  unfold __wake_up. rewrite (current_Ret _ _ _ _ Hc Hy); simpl.
  rewrite (proj2 (Z.eqb_neq _ _)) by (by eapply not_running_ne).
  unfold wake_up_common. rewrite (get_task_Ret _ _ _ Hx); simpl.
  by rewrite (proj2 (Z.eqb_neq _ _)).
Qed.

(** C5: Waking, from any CPU, a waiting task that has been switched out succeeds without a panic or a
    spin (a waiting task that is still on its CPU is waited for, see [wake_up_spins]): the task gets the
    waker's state and data, it is on exactly one list, a timeout that its delay announces is cancelled,
    and every later wake-up of it fails with [-EPERM] and changes nothing. *)
Theorem wake_up_exactly_once s c p t x pend_state data :
  sys_inv s -> cpus s !! c = Some p -> tasks s !! t = Some x ->
  t ∉ running s -> t_state x = TASK_STATE_WAIT_EVENT ->
  exists s' x', __wake_up s c t pend_state data = Ret (0, s') /\
    sys_inv s' /\ t ∈ state_nodes s' /\ NoDup (state_nodes s') /\ tasks s' !! t = Some x' /\ woken x' pend_state data /\
    (timer_ok x -> pend_state <> TASK_STATE_PEND_TO -> t_timer x' = None) /\
    forall c' p' pend_state' data', cpus s' !! c' = Some p' ->
      __wake_up s' c' t pend_state' data' = Ret (- EPERM, s').
Proof.
  intros Hs Hc Hx Hnr Hst.
  destruct (wake_up_waiting s c p t x pend_state data) as
    (s' & x' & Hw & Hs' & Hr & Hn & Hx' & Hwk & Hti & _); try done.
  exists s', x'. split_and!; try done.
  - rewrite Hn. apply elem_of_cons. by left.
  - apply (so_nodup _ (si_ok _ Hs')).
  - intros c' p' pend_state' data' Hc'. apply (wake_up_not_waiting s' c' p' t x'); try done.
    + by rewrite Hr.
    + by destruct Hwk as (-> & _).
Qed.

(** A waiting task that its CPU has not switched out yet holds up its waker: the loop on [task->cpu]
    goes on until the other CPU is done with it. *)
Lemma wake_up_spins s c p t x pend_state data :
  sys_inv s -> cpus s !! c = Some p -> tasks s !! t = Some x -> t <> running_task p ->
  t_state x = TASK_STATE_WAIT_EVENT -> t_cpu x <> -1 -> __wake_up s c t pend_state data = OutOfFuel.
Proof.
  intros Hs Hc Hx Hne Hst Hcpu. destruct (known_running s c p Hs Hc) as [y Hy].
  unfold __wake_up. rewrite (current_Ret _ _ _ _ Hc Hy); simpl. rewrite (proj2 (Z.eqb_neq _ _)) by done.
  unfold wake_up_common. rewrite (get_task_Ret _ _ _ Hx); simpl. by rewrite Hst, (proj2 (Z.eqb_neq _ _) Hcpu).
Qed.

Lemma wake_up_current s c p x pend_state data :
  sys_inv s -> cpus s !! c = Some p -> tasks s !! running_task p = Some x ->
  pend_state <> TASK_STATE_PEND_TO ->
  exists r s', __wake_up s c (running_task p) pend_state data = Ret (r, s') /\ sys_inv s' /\
    (r = 0 <-> t_state x = TASK_STATE_WAIT_EVENT).
Proof.
  intros Hs Hc Hx Hto. unfold __wake_up. rewrite (current_Ret _ _ _ _ Hc Hx); simpl.
  rewrite Z.eqb_refl. unfold wake_up_interrupted. rewrite (proj2 (Z.eqb_neq _ _)) by done.
  simpl. rewrite (get_task_Ret _ _ _ Hx); simpl.
  destruct (Z.eqb_spec (t_state x) TASK_STATE_WAIT_EVENT) as [Hst|Hst]; simpl; [|by exists (- EACCES), s].
  rewrite Hst; simpl. eexists _, _. split; [reflexivity|]. split; [|done].
  eapply (sys_inv_set_state s _ _ TASK_STATE_RUNNING); [done|done| |done|by left].
  intros Hn. exfalso. by apply (not_running_ne s c p _ Hn Hc).
Qed.

Lemma wake_up_step s c p t x pend_state data :
  sys_inv s -> cpus s !! c = Some p -> tasks s !! t = Some x ->
  (t ∉ running s \/ t = running_task p /\ pend_state <> TASK_STATE_PEND_TO) ->
  exists r s', __wake_up s c t pend_state data = Ret (r, s') /\ sys_inv s' /\
    (r = 0 <-> t_state x = TASK_STATE_WAIT_EVENT).
Proof.
  intros Hs Hc Hx [Hnr|[-> Hto]]; [|by apply wake_up_current].
  destruct (Z.eqb_spec (t_state x) TASK_STATE_WAIT_EVENT) as [Hst|Hst].
  - destruct (wake_up_waiting s c p t x pend_state data) as (s' & x' & Hw & Hs' & _); try done.
    by exists 0, s'.
  - exists (- EPERM), s. by rewrite (wake_up_not_waiting s c p t x).
Qed.

(** [__wake_up] is total under the scheduler's invariant: for a task that does not
    run on another CPU it returns, keeps the invariant, and returns 0 exactly when
    the task was waiting. *)
Theorem wake_up_total s c p t x pend_state data :
  sys_inv s -> cpus s !! c = Some p -> tasks s !! t = Some x ->
  (t ∉ running s \/ t = running_task p /\ pend_state <> TASK_STATE_PEND_TO) ->
  exists r s', __wake_up s c t pend_state data = Ret (r, s') /\ sys_inv s' /\
    (r = 0 <-> t_state x = TASK_STATE_WAIT_EVENT).
Proof. apply wake_up_step. Qed.

(** ** A small system *)

Definition demo_task (prio aff state cpu : Z) : task :=
  mk_task state prio cpu 0 aff 0 0 None 0 0 0 0 0 0 100 0.

(** One CPU running task 1, task 2 of the same priority waiting, idle task 63. *)
Definition demo_tasks : gmap Z task :=
  <[1 := demo_task 5 0 TASK_STATE_RUNNING 0]> (<[2 := demo_task 5 (-1) TASK_STATE_WAIT_EVENT (-1)]>
    (<[63 := set_t_flags TASK_FLAGS_IDLE (demo_task 7 0 TASK_STATE_READY (-1))]> ∅)).

Definition demo_pcpu : pcpu :=
  mk_pcpu [] [] 1 63 0xa0 [[]; []; []; []; []; [1]; []; [63]] [0; 0; 0; 0; 0; 1; 0; 0] None false
    (mk_grp 0 []).

Definition demo : sys := mk_sys demo_tasks [demo_pcpu].

(** Case analysis on a lookup in a concrete list or map. *)
Ltac list_cases :=
  repeat match goal with
  | H : [] !! ?k = Some _ |- _ => destruct k; discriminate H
  | H : (_ :: _) !! ?k = Some _ |- _ => destruct k as [|k]; cbn in H; [injection H as <-|]
  end.

Ltac map_cases :=
  repeat match goal with
  | H : <[_ := _]> _ !! _ = Some _ |- _ => apply lookup_insert_Some in H as [[<- <-]|[_ H]]
  | H : ∅ !! _ = Some _ |- _ => by rewrite lookup_empty in H
  end.

Lemma demo_queues : queues_ok (prio_of demo) demo_pcpu.
Proof.
  split; [done|done|cbn; lia| | | |]; cbn.
  - intros k l H. list_cases; vm_compute; reflexivity.
  - intros k l t H Ht. list_cases; try by apply not_elem_of_nil in Ht.
    all: apply list_elem_of_singleton in Ht as ->; vm_compute; reflexivity.
  - intros k l H. list_cases; reflexivity.
  - intros l [= <-]. by apply list_elem_of_singleton.
Qed.

Lemma demo_inv : sys_inv demo.
Proof.
  split.
  - split.
    + apply (bool_decide_unpack _). vm_compute. exact I.
    + intros c p H. cbn in H. list_cases. apply demo_queues.
    + intros t Ht. vm_compute in Ht. apply elem_of_cons in Ht as [->|Ht]; [by eexists|].
      apply elem_of_cons in Ht as [->|Ht]; [by eexists|]. by apply not_elem_of_nil in Ht.
  - intros c p H. cbn in H. list_cases. unfold on_ready. apply (bool_decide_unpack _).
    vm_compute. exact I.
  - intros t x H. cbn in H. unfold demo_tasks in H. map_cases; split; vm_compute; by split.
  - intros t x H. cbn in H. unfold demo_tasks in H. map_cases; cbn; try done.
    intros _ _. split; [done|]. apply (bool_decide_unpack _). vm_compute. exact I.
  - intros t x H Ht. cbn in H, Ht. apply list_elem_of_singleton in Ht as ->.
    vm_compute in H. by injection H as <-.
  - intros t x H. cbn in H. unfold demo_tasks in H. map_cases; cbn; try done.
    intros _. by apply list_elem_of_singleton.
  - intros c p x H Hx. cbn in H. list_cases. vm_compute in Hx. injection Hx as <-. by right.
Qed.

Lemma wake_up_exactly_once_witness :
  exists s' x', __wake_up demo 0 2 TASK_STATE_PEND_OK 42 = Ret (0, s') /\
    sys_inv s' /\ 2 ∈ state_nodes s' /\ NoDup (state_nodes s') /\ tasks s' !! 2 = Some x' /\ woken x' TASK_STATE_PEND_OK 42 /\
    (timer_ok (demo_task 5 (-1) TASK_STATE_WAIT_EVENT (-1)) -> TASK_STATE_PEND_OK <> TASK_STATE_PEND_TO -> t_timer x' = None) /\
    forall c' p' pend_state' data', cpus s' !! c' = Some p' ->
      __wake_up s' c' 2 pend_state' data' = Ret (- EPERM, s').
Proof.
  apply (wake_up_exactly_once demo 0 demo_pcpu 2 (demo_task 5 (-1) TASK_STATE_WAIT_EVENT (-1)));
    [apply demo_inv|done|done|apply (bool_decide_unpack _); exact I|done].
Defined.

Lemma wake_up_total_witness :
  exists r s', __wake_up demo 0 1 TASK_STATE_PEND_OK 42 = Ret (r, s') /\ sys_inv s' /\
    (r = 0 <-> t_state (demo_task 5 0 TASK_STATE_RUNNING 0) = TASK_STATE_WAIT_EVENT).
Proof.
  apply (wake_up_total demo 0 demo_pcpu 1 (demo_task 5 0 TASK_STATE_RUNNING 0));
    [apply demo_inv|done|done|by right].
Defined.

(** [task_set_resched] masks with the bit number 0: the request to preempt that
    [smp_percpu_task_ready] leaves in a task is never seen by [irqwork_handler]. *)
Lemma task_set_resched_lost x : task_need_resched (task_set_resched x) = 0.
Proof. unfold task_need_resched. by rewrite Z.land_0_r. Qed.
