(* ===== verification/Event.v ===== *)
(** * Events, semaphores, mutexes and mailboxes

    [core/event.c], [core/sem.c], [core/mutex.c] and [core/mbox.c].

    An event is a record with its wait list; a waiter's [event_list] node is linked
    when the list contains the task.  A blocking call is modelled in two halves
    around its call of [sched]: [..._pend] runs up to the point where the task must
    sleep, and [do_wait_event] is what the task runs when it is scheduled again.
    Messages and return codes travel through the task's [ipcdata] word. *)

From S2P Require Import Prelude Types Bits Task.

Definition OS_EVENT_TYPE_NORMAL : Z := 0.
Definition OS_EVENT_TYPE_MBOX : Z := 1.
Definition OS_EVENT_TYPE_QUEUE : Z := 2.
Definition OS_EVENT_TYPE_SEM : Z := 3.
Definition OS_EVENT_TYPE_MUTEX : Z := 4.
Definition OS_EVENT_TYPE_FLAG : Z := 5.
Definition OS_EVENT_TYPE_TIMER : Z := 10.
Definition OS_EVENT_OPT_NONE : Z := 0x0.
Definition OS_EVENT_OPT_BROADCAST : Z := 0x1.
Definition WAKEUP_ALL : Z := -1.
Definition INT_MAX : Z := 2 ^ 31 - 1.
Definition OS_MUTEX_AVAILABLE : Z := u32 (-1).

(** [ev_id] is the event's address, [ev_data] its data pointer. *)
Record event := mk_event {
  ev_id : Z;
  ev_type : Z;
  ev_owner : Z;
  ev_cnt : Z;
  ev_data : Z;
  ev_wait_list : list Z;
}.

Definition set_ev_owner (v : Z) (e : event) : event :=
  mk_event (ev_id e) (ev_type e) v (ev_cnt e) (ev_data e) (ev_wait_list e).
Definition set_ev_cnt (v : Z) (e : event) : event :=
  mk_event (ev_id e) (ev_type e) (ev_owner e) v (ev_data e) (ev_wait_list e).
Definition set_ev_data (v : Z) (e : event) : event :=
  mk_event (ev_id e) (ev_type e) (ev_owner e) (ev_cnt e) v (ev_wait_list e).
Definition set_ev_wait_list (v : list Z) (e : event) : event :=
  mk_event (ev_id e) (ev_type e) (ev_owner e) (ev_cnt e) (ev_data e) v.

(** ** event.c *)

(** [event_token] is an [int] that wraps; the token 0 is skipped. *)
Definition new_event_token (token gen : Z) : Z * (Z * Z) :=
  if u32 token =? 0 then (u32 (token + 1), (u32 (token + 2), u32 (gen + 1)))
  else (u32 token, (u32 (token + 1), gen)).

(** [cnt] is not written by [event_init]. *)
Definition event_init (e : event) (type pdata : Z) : event :=
  mk_event (ev_id e) type 0 (ev_cnt e) pdata [].

(** The fields of [current] that [__wait_event] sets. *)
Definition wait_fields (ev mode to : Z) (t : task) : task :=
  set_t_delay (if to =? u32 (-1) then 0 else to) (set_t_wait_event ev (set_t_wait_type mode
    (set_t_pend_state TASK_STATE_PEND_OK (set_t_state TASK_STATE_WAIT_EVENT t)))).

Definition __wait_event (s : sys) (c : nat) (e : event) (mode to : Z) : outcome (sys * event) :=
  let* (cur, _) := current s c in
  let* s := do_not_preempt s c in
  let e := if mode =? OS_EVENT_TYPE_FLAG then e
           else set_ev_wait_list (ev_wait_list e ++ [cur]) e in
  Ret (upd_task s cur (wait_fields (ev_id e) mode to), e).

(** The assertion of [remove_event_waiter] is an assignment of a non-null pointer. *)
Definition remove_event_waiter (s : sys) (e : event) (t : Z) : sys * event :=
  if bool_decide (t ∈ ev_wait_list e)
  then (upd_task s t (set_t_wait_event (ev_id e)), set_ev_wait_list (without t (ev_wait_list e)) e)
  else (s, e).

Definition get_event_waiter (e : event) : option Z * event :=
  match ev_wait_list e with
  | [] => (None, e)
  | t :: l => (Some t, set_ev_wait_list l e)
  end.

(** The loop of [__wake_up_event_waiter] over the waiters [l], [cnt] woken so far. *)
Fixpoint wake_waiters (s : sys) (c : nat) (l : list Z) (msg pend_state num cnt : Z)
    : outcome (Z * list Z * sys) :=
  match l with
  | [] => Ret (cnt, [], s)
  | t :: l =>
      let* (ret, s) := __wake_up s c t pend_state msg in
      if negb (ret =? 0) then wake_waiters s c l msg pend_state num cnt
      else if cnt + 1 =? num then Ret (cnt + 1, l, s)
      else wake_waiters s c l msg pend_state num (cnt + 1)
  end.

Definition __wake_up_event_waiter (s : sys) (c : nat) (e : event) (msg pend_state num : Z)
    : outcome (Z * sys * event) :=
  let num := if num =? 0 then 1 else num in
  let* ((cnt, l), s) := wake_waiters s c (ev_wait_list e) msg pend_state num 0 in
  Ret (cnt, s, set_ev_wait_list l e).

(** The loop of [wake_up_one_event_waiter]. *)
Fixpoint wake_one (s : sys) (c : nat) (l : list Z) (msg pend_state : Z)
    : outcome (option Z * list Z * sys) :=
  match l with
  | [] => Ret (None, [], s)
  | t :: l =>
      let* (ret, s) := __wake_up s c t pend_state msg in
      if ret =? 0 then Ret (Some t, l, s) else wake_one s c l msg pend_state
  end.

Definition wake_up_one_event_waiter (s : sys) (c : nat) (e : event) (msg pend_state : Z)
    : outcome (option Z * sys * event) :=
  let* ((task, l), s) := wake_one s c (ev_wait_list e) msg pend_state in
  Ret (task, s, set_ev_wait_list l e).

Definition event_pend_down (s : sys) (c : nat) : outcome sys :=
  let* (cur, _) := current s c in
  Ret (upd_task s cur (fun t => set_t_ipcdata 0 (set_t_wait_type 0 (set_t_wait_event 0
         (set_t_pend_state TASK_STATE_PEND_OK t))))).

Definition __wake (s : sys) (c : nat) (e : event) (pend_state retcode : Z)
    : outcome (Z * sys * event) :=
  let* ((task, s), e) := wake_up_one_event_waiter s c e retcode pend_state in
  Ret (match task with Some _ => 0 | None => - ENOENT end, s, e).

(** [do_wait_event] from the return of [sched] on. *)
Definition do_wait_event (s : sys) (c : nat) (e : event) : outcome (Z * sys * event) :=
  let* (cur, task) := current s c in
  let (s, e) := if t_pend_state task =? TASK_STATE_PEND_OK then (s, e)
                else remove_event_waiter s e cur in
  let* (_, task) := current s c in
  let* s := event_pend_down s c in
  Ret (t_ipcdata task, s, e).

(** ** sem.c *)

(** How a [pend] call continues: it returned a value, or the task sleeps. *)
Inductive pend_result :=
  | Done (v : Z)
  | Blocked.

Definition sem_accept (e : event) : Z * event :=
  let cnt := ev_cnt e in
  (if cnt =? 0 then u32 (- ENOSPC) else cnt, if 0 <? cnt then set_ev_cnt (cnt - 1) e else e).

Definition sem_pend (s : sys) (c : nat) (e : event) (timeout : Z)
    : outcome (pend_result * sys * event) :=
  if 0 <? ev_cnt e then Ret (Done 0, s, set_ev_cnt (ev_cnt e - 1) e)
  else let* (s, e) := __wait_event s c e OS_EVENT_TYPE_SEM timeout in Ret (Blocked, s, e).

Definition sem_post_opt (s : sys) (c : nat) (e : event) (pend_state opt : Z)
    : outcome (Z * sys * event) :=
  let* ((ret, s), e) := __wake_up_event_waiter s c e 0 pend_state
                          (if opt =? OS_EVENT_OPT_BROADCAST then WAKEUP_ALL else 1) in
  if negb (pend_state =? TASK_STATE_PEND_ABORT) then
    if (ret =? 0) && (ev_cnt e <? INT_MAX) then Ret (ret, s, set_ev_cnt (ev_cnt e + 1) e)
    else Ret (- EOVERFLOW, s, e)
  else Ret (ret, s, e).

Definition sem_pend_abort (s : sys) (c : nat) (e : event) : outcome (Z * sys * event) :=
  sem_post_opt s c e TASK_STATE_PEND_ABORT OS_EVENT_OPT_BROADCAST.

Definition sem_post (s : sys) (c : nat) (e : event) : outcome (Z * sys * event) :=
  sem_post_opt s c e TASK_STATE_PEND_OK OS_EVENT_OPT_NONE.

Definition sem_init (e : event) (cnt : Z) : event := set_ev_cnt cnt (event_init e OS_EVENT_TYPE_SEM 0).

(** ** mutex.c *)

(** [data] holds the task pointer, here its [tid]. *)
Definition mutex_take (t : Z) (e : event) : event := set_ev_cnt t (set_ev_data t (set_ev_owner t e)).

Definition mutex_accept (s : sys) (c : nat) (e : event) : outcome (Z * event) :=
  let* (cur, _) := current s c in
  if ev_cnt e =? OS_MUTEX_AVAILABLE then Ret (0, mutex_take cur e) else Ret (- EBUSY, e).

Definition mutex_pend (s : sys) (c : nat) (e : event) (timeout : Z)
    : outcome (pend_result * sys * event) :=
  let* (cur, _) := current s c in
  if ev_cnt e =? OS_MUTEX_AVAILABLE then Ret (Done 0, s, mutex_take cur e)
  else let* (s, e) := __wait_event s c e OS_EVENT_TYPE_MUTEX timeout in Ret (Blocked, s, e).

Definition mutex_post (s : sys) (c : nat) (e : event) : outcome (Z * sys * event) :=
  let* (cur, _) := current s c in
  check ev_owner e =? cur in
  let* ((task, s), e) := wake_up_one_event_waiter s c e 0 TASK_STATE_PEND_OK in
  match task with
  | None => Ret (0, s, set_ev_owner 0 (set_ev_data 0 (set_ev_cnt OS_MUTEX_AVAILABLE e)))
  | Some t => Ret (0, s, mutex_take t e)
  end.

Definition mutex_init (e : event) : event :=
  set_ev_cnt OS_MUTEX_AVAILABLE (event_init e OS_EVENT_TYPE_MUTEX 0).

(** ** mbox.c *)

Definition mbox_accept (e : event) : Z := ev_data e.
Definition mbox_is_pending (e : event) : bool := negb (ev_data e =? 0).

Definition mbox_pend (s : sys) (c : nat) (e : event) (timeout : Z)
    : outcome (pend_result * sys * event) :=
  if negb (ev_data e =? 0) then Ret (Done (ev_data e), s, set_ev_data 0 e)
  else let* (s, e) := __wait_event s c e OS_EVENT_TYPE_MBOX timeout in Ret (Blocked, s, e).

Definition __mbox_post_opt (s : sys) (c : nat) (e : event) (pmsg pend_state opt : Z)
    : outcome (Z * sys * event) :=
  if pmsg =? 0 then Ret (- EINVAL, s, e) else
  let* ((ret, s), e) := __wake_up_event_waiter s c e pmsg pend_state opt in
  if ret =? 0 then
    if negb (ev_data e =? 0) then Ret (- ENOSPC, s, e) else Ret (ret, s, set_ev_data pmsg e)
  else Ret (ret, s, e).

Definition mobox_post_abort (s : sys) (c : nat) (e : event) : outcome (Z * sys * event) :=
  __mbox_post_opt s c e 0 TASK_STATE_PEND_ABORT OS_EVENT_OPT_BROADCAST.

Definition mbox_post (s : sys) (c : nat) (e : event) (pmsg : Z) : outcome (Z * sys * event) :=
  __mbox_post_opt s c e pmsg TASK_STATE_PEND_OK OS_EVENT_OPT_NONE.

(** ** Waking the waiters of an event *)

Definition waiting (s : sys) (t : Z) : Prop :=
  exists x, tasks s !! t = Some x /\ t_state x = TASK_STATE_WAIT_EVENT.

(** Waiters that have left their CPU.  One of them may have been woken by its
    timeout and not have run yet: it is on the list and no longer [waiting]. *)
Definition parked (s : sys) (l : list Z) : Prop :=
  Forall (fun t => is_Some (tasks s !! t) /\ t ∉ running s) l.

(** [s'] is [s] after the wake-up of [t]. *)
Record woke (s s' : sys) (t pend_state msg : Z) : Prop := {
  wk_inv : sys_inv s';
  wk_running : running s' = running s;
  wk_nodes : state_nodes s' ≡ₚ t :: state_nodes s;
  wk_task : exists x', tasks s' !! t = Some x' /\ t_state x' = TASK_STATE_WAKING /\
    t_pend_state x' = pend_state /\ t_ipcdata x' = msg;
  wk_core : forall u, u <> t -> core <$> tasks s' !! u = core <$> tasks s !! u;
}.

#[export] Instance waiting_dec s t : Decision (waiting s t).
Proof.
  unfold waiting. destruct (tasks s !! t) as [x|]; [|right; by intros (? & ? & _)].
  destruct (decide (t_state x = TASK_STATE_WAIT_EVENT)); [left; eauto|right].
  by intros (? & [= <-] & ?).
Defined.

Lemma wake_up_woke s c p t pend_state msg :
  sys_inv s -> cpus s !! c = Some p -> waiting s t -> t ∉ running s ->
  exists s', __wake_up s c t pend_state msg = Ret (0, s') /\ woke s s' t pend_state msg.
Proof.
  intros Hs Hc (x & Hx & Hst) Hnr.
  destruct (wake_up_waiting s c p t x pend_state msg) as
    (s' & x' & Hw & Hs' & Hr & Hn & Hx' & (H1 & H2 & H3 & _) & _ & Hu); try done.
  exists s'. split; [done|]. split; try done. by exists x'.
Qed.

Lemma wake_up_stale s c p t pend_state msg :
  sys_inv s -> cpus s !! c = Some p -> is_Some (tasks s !! t) -> ~ waiting s t -> t ∉ running s ->
  __wake_up s c t pend_state msg = Ret (- EPERM, s).
Proof.
  intros Hs Hc [x Hx] Hst Hnr. apply (wake_up_not_waiting s c p t x); try done.
  intros E. apply Hst. by exists x.
Qed.

(** [wake_one] wakes the first waiter that still waits; stale waiters before it are
    dropped. *)
Lemma wake_one_spec s c p l msg pend_state :
  sys_inv s -> cpus s !! c = Some p -> parked s l ->
  (exists l1 t l2 s', l = l1 ++ t :: l2 /\ Forall (fun u => ~ waiting s u) l1 /\ waiting s t /\
     wake_one s c l msg pend_state = Ret (Some t, l2, s') /\ woke s s' t pend_state msg) \/
  (Forall (fun u => ~ waiting s u) l /\ wake_one s c l msg pend_state = Ret (None, [], s)).
Proof.
  intros Hs Hc Hp. induction Hp as [|t l [Ht Hnr] _ IH]; [by right|]. simpl.
  destruct (decide (waiting s t)) as [Hw|Hw].
  - left. destruct (wake_up_woke s c p t pend_state msg) as (s' & Hup & Hwk); try done.
    exists [], t, l, s'. rewrite Hup. by split_and!.
  - rewrite (wake_up_stale s c p) by done. simpl.
    destruct IH as [(l1 & u & l2 & s' & -> & Hl1 & Hu & Hw1 & Hwk)|[Hl Hw1]].
    + left. exists (t :: l1), u, l2, s'. rewrite Hw1. split_and!; try done. by constructor.
    + right. rewrite Hw1. split; [by constructor|done].
Qed.

Lemma wake_waiters_one s c l msg pend_state :
  wake_waiters s c l msg pend_state 1 0 =
    let* ((r, l'), s') := wake_one s c l msg pend_state in
    Ret (match r with Some _ => 1 | None => 0 end, l', s').
Proof.
  revert s. induction l as [|t l IH]; intros s; [done|]. simpl.
  destruct (__wake_up s c t pend_state msg) as [[r s1]| | |]; [|done..]. simpl.
  destruct (r =? 0); simpl; [done|apply IH].
Qed.

Lemma waiting_core s s' u :
  core <$> tasks s' !! u = core <$> tasks s !! u -> waiting s' u <-> waiting s u.
Proof.
  intros Hu. unfold waiting. split; intros (z & Hz & E).
  - destruct (core_eq _ _ _ Hu Hz) as (x & Hx & _ & _ & E3 & _). exists x. split; [done|congruence].
  - symmetry in Hu. destruct (core_eq _ _ _ Hu Hz) as (x & Hx & _ & _ & E3 & _).
    exists x. split; [done|congruence].
Qed.

Lemma woke_waiting s s' t pend_state msg u :
  woke s s' t pend_state msg -> u <> t -> waiting s' u <-> waiting s u.
Proof. intros Hwk Hne. by apply waiting_core, (wk_core _ _ _ _ _ Hwk). Qed.

Lemma woke_not_waiting s s' t pend_state msg : woke s s' t pend_state msg -> ~ waiting s' t.
Proof.
  intros Hwk. destruct (wk_task _ _ _ _ _ Hwk) as (x' & Hx' & Hst & _).
  intros (z & Hz & E). simplify_eq. by rewrite Hst in E.
Qed.

Lemma woke_known s s' t pend_state msg u :
  woke s s' t pend_state msg -> is_Some (tasks s !! u) -> is_Some (tasks s' !! u).
Proof.
  intros Hwk Hu. destruct (decide (u = t)) as [->|Hne].
  - destruct (wk_task _ _ _ _ _ Hwk) as (x' & Hx' & _). by exists x'.
  - pose proof (wk_core _ _ _ _ _ Hwk u Hne) as H. destruct (tasks s' !! u); [done|].
    by destruct Hu as [x Hx]; rewrite Hx in H.
Qed.

Lemma woke_parked s s' t pend_state msg l :
  woke s s' t pend_state msg -> parked s l -> parked s' l.
Proof.
  intros Hwk Hp. apply (Forall_impl _ _ _ Hp). intros u [Hu Hn].
  rewrite (wk_running _ _ _ _ _ Hwk). split; [by eapply woke_known|done].
Qed.

Lemma woke_cpu s s' t pend_state msg c p :
  woke s s' t pend_state msg -> cpus s !! c = Some p -> exists p', cpus s' !! c = Some p'.
Proof.
  intros Hwk Hc. apply lookup_lt_is_Some_2.
  rewrite (running_length _ _ (wk_running _ _ _ _ _ Hwk)). by eapply lookup_lt_Some.
Qed.

Lemma filter_iff_in {A} (P Q : A -> Prop) `{!forall x, Decision (P x), !forall x, Decision (Q x)} (l : list A) :
  (forall x, x ∈ l -> P x <-> Q x) -> filter P l = filter Q l.
Proof.
  induction l as [|x l IH]; intros Hl; [done|]. rewrite !filter_cons.
  assert (Hx : P x <-> Q x) by (apply Hl, elem_of_cons; by left).
  rewrite IH by (intros y Hy; apply Hl, elem_of_cons; by right).
  repeat case_decide; tauto.
Qed.

(** A broadcast wakes every waiter that still waits. *)
Lemma wake_waiters_all s c p l msg pend_state cnt :
  sys_inv s -> cpus s !! c = Some p -> parked s l -> NoDup l -> 0 <= cnt ->
  exists s', wake_waiters s c l msg pend_state WAKEUP_ALL cnt =
      Ret (cnt + Z.of_nat (length (filter (waiting s) l)), [], s') /\
    sys_inv s' /\ running s' = running s /\ Forall (fun t => ~ waiting s' t) l /\
    (forall u, u ∉ l -> core <$> tasks s' !! u = core <$> tasks s !! u).
Proof.
  revert s p cnt. induction l as [|t l IH]; intros s p cnt Hs Hc Hp Hnd Hcnt.
  { exists s. simpl. rewrite Z.add_0_r. by split_and!. }
  apply Forall_cons in Hp as [[Ht Hnr] Hp]. apply NoDup_cons in Hnd as [Hnt Hnd].
  simpl. rewrite filter_cons. case_decide as Hw.
  - destruct (wake_up_woke s c p t pend_state msg) as (s1 & Hup & Hwk); try done.
    rewrite Hup. simpl. rewrite (proj2 (Z.eqb_neq (cnt + 1) WAKEUP_ALL)) by (unfold WAKEUP_ALL; lia).
    destruct (woke_cpu _ _ _ _ _ _ _ Hwk Hc) as [p1 Hc1].
    destruct (IH s1 p1 (cnt + 1)) as (s' & Hl & Hs' & Hr & Hf & Hu);
      [apply (wk_inv _ _ _ _ _ Hwk)|done|by eapply woke_parked|done|lia|].
    assert (Hfil : filter (waiting s1) l = filter (waiting s) l).
    { apply filter_iff_in. intros u Hu'. eapply woke_waiting; [done|]. by intros ->. }
    exists s'. rewrite Hl, Hfil. split_and!; [f_equal; f_equal; f_equal; lia|done| | |].
    + by rewrite Hr, (wk_running _ _ _ _ _ Hwk).
    + constructor; [|done]. rewrite (waiting_core s1) by (by apply Hu).
      by apply (woke_not_waiting _ _ _ _ _ Hwk).
    + intros u [Hu1 Hu2]%not_elem_of_cons. rewrite Hu by done. by apply (wk_core _ _ _ _ _ Hwk).
  - rewrite (wake_up_stale s c p) by done. simpl.
    destruct (IH s p cnt) as (s' & Hl & Hs' & Hr & Hf & Hu); try done.
    exists s'. split_and!; try done.
    + constructor; [|done]. by rewrite (waiting_core s) by (by apply Hu).
    + intros u [Hu1 Hu2]%not_elem_of_cons. by apply Hu.
Qed.

(** ** Semaphores *)

(** No task is left on the list of a semaphore with units left. *)
Definition sem_ok (e : event) : Prop := 0 <= ev_cnt e <= INT_MAX /\ (ev_cnt e = 0 \/ ev_wait_list e = []).

Lemma wake_up_event_waiter_one s c p e msg pend_state num :
  sys_inv s -> cpus s !! c = Some p -> parked s (ev_wait_list e) -> num = 0 \/ num = 1 ->
  (exists l1 t l2 s', ev_wait_list e = l1 ++ t :: l2 /\ Forall (fun u => ~ waiting s u) l1 /\
     waiting s t /\ woke s s' t pend_state msg /\
     __wake_up_event_waiter s c e msg pend_state num = Ret (1, s', set_ev_wait_list l2 e)) \/
  (Forall (fun u => ~ waiting s u) (ev_wait_list e) /\
     __wake_up_event_waiter s c e msg pend_state num = Ret (0, s, set_ev_wait_list [] e)).
Proof.
  intros Hs Hc Hp Hnum. unfold __wake_up_event_waiter.
  replace (if num =? 0 then 1 else num) with 1 by (destruct Hnum as [-> | ->]; done).
  rewrite wake_waiters_one.
  destruct (wake_one_spec s c p (ev_wait_list e) msg pend_state Hs Hc Hp)
    as [(l1 & t & l2 & s' & El & Hl1 & Ht & -> & Hwk)|[Hl ->]]; simpl.
  - left. by exists l1, t, l2, s'.
  - by right.
Qed.

(** [sem_post] wakes the longest-waiting task that still waits and leaves the
    count alone, and adds one to the count when there is none; a posted unit is
    never lost and never given twice, and no task waits while units are left.
    The value returned after a wake-up is [-EOVERFLOW]. *)
Theorem sem_post_conserves s c p e :
  sys_inv s -> cpus s !! c = Some p -> parked s (ev_wait_list e) -> sem_ok e ->
  exists r s' e', sem_post s c e = Ret (r, s', e') /\ sys_inv s' /\ sem_ok e' /\
    ((exists l1 t l2, ev_wait_list e = l1 ++ t :: l2 /\ Forall (fun u => ~ waiting s u) l1 /\
        waiting s t /\ woke s s' t TASK_STATE_PEND_OK 0 /\
        e' = set_ev_wait_list l2 e /\ r = - EOVERFLOW) \/
     (Forall (fun u => ~ waiting s u) (ev_wait_list e) /\ s' = s /\ ev_wait_list e' = [] /\
        if ev_cnt e <? INT_MAX then ev_cnt e' = ev_cnt e + 1 /\ r = 0
        else ev_cnt e' = ev_cnt e /\ r = - EOVERFLOW)).
Proof.
  intros Hs Hc Hp [Hcnt Hok]. unfold sem_post, sem_post_opt. cbn [Z.eqb].
  destruct (wake_up_event_waiter_one s c p e 0 TASK_STATE_PEND_OK 1 Hs Hc Hp)
    as [(l1 & t & l2 & s' & El & Hl1 & Ht & Hwk & Hw)|[Hl Hw]]; [by right| |];
    change (if OS_EVENT_OPT_NONE =? OS_EVENT_OPT_BROADCAST then WAKEUP_ALL else 1) with 1;
    rewrite Hw; simpl.
  - eexists _, s', _. split; [reflexivity|]. split; [apply (wk_inv _ _ _ _ _ Hwk)|].
    split; [|left; by exists l1, t, l2].
    split; [done|]. left. destruct Hok as [|E]; [done|]. rewrite El in E. by destruct l1.
  - destruct (Z.ltb_spec (ev_cnt e) INT_MAX) as [Hlt|Hge]; eexists _, s, _.
    + split; [reflexivity|]. split_and!; [done|split; cbn; [lia|by right]|]. by right.
    + split; [reflexivity|]. split_and!; [done|split; cbn; [lia|by right]|]. by right.
Qed.

(** ** Going to sleep on an event *)

Lemma alter_compose_upd s t (f g : task -> task) :
  upd_task (upd_task s t f) t g = upd_task s t (fun x => g (f x)).
Proof. unfold upd_task; cbn. f_equal. apply (alter_alter_eq g f). Qed.

Lemma wait_event_blocks s c p e mode to :
  sys_inv s -> cpus s !! c = Some p -> running_task p <> idle_task p -> mode <> OS_EVENT_TYPE_FLAG ->
  exists s', __wait_event s c e mode to =
      Ret (s', set_ev_wait_list (ev_wait_list e ++ [running_task p]) e) /\
    sys_inv s' /\ running s' = running s /\ waiting s' (running_task p) /\
    forall u, u <> running_task p -> tasks s' !! u = tasks s !! u.
Proof.
  intros Hs Hc Hid Hmode. destruct (known_running s c p Hs Hc) as [y Hy].
  unfold __wait_event, do_not_preempt. rewrite (current_Ret _ _ _ _ Hc Hy); simpl.
  rewrite (proj2 (Z.eqb_neq _ _)), alter_compose_upd by done.
  eexists. split; [reflexivity|]. split_and!; [|done| |].
  - apply (sys_inv_set_state s _ _ TASK_STATE_WAIT_EVENT); [done|done| |done|].
    + intros Hn. exfalso. by apply (not_running_ne s c p _ Hn Hc).
    + right; right. by apply (running_not_idle s c p).
  - eexists. split; [by apply upd_task_lookup|done].
  - intros u Hu. cbn. by rewrite lookup_alter_ne.
Qed.

Lemma sem_pend_takes_or_waits s c p e timeout :
  sys_inv s -> cpus s !! c = Some p -> running_task p <> idle_task p -> sem_ok e ->
  (0 < ev_cnt e -> sem_pend s c e timeout = Ret (Done 0, s, set_ev_cnt (ev_cnt e - 1) e)) /\
  (ev_cnt e = 0 -> exists s', sem_pend s c e timeout =
     Ret (Blocked, s', set_ev_wait_list (ev_wait_list e ++ [running_task p]) e) /\
     sys_inv s' /\ waiting s' (running_task p)).
Proof.
  intros Hs Hc Hid [Hcnt Hok]. unfold sem_pend. split; intros H.
  - by rewrite (proj2 (Z.ltb_lt _ _)).
  - rewrite H. simpl.
    destruct (wait_event_blocks s c p e OS_EVENT_TYPE_SEM timeout) as (s' & -> & Hs' & _ & Hw & _); try done.
    by exists s'.
Qed.

(** ** Mutexes *)

(** A free mutex has no owner and no waiters; the count of a held one is its owner. *)
Definition mutex_ok (e : event) : Prop :=
  (ev_cnt e = OS_MUTEX_AVAILABLE /\ ev_owner e = 0 /\ ev_wait_list e = []) \/
  (ev_cnt e = ev_owner e /\ ev_cnt e <> OS_MUTEX_AVAILABLE /\ ev_owner e <> 0).

(** A [tid_t] is 16 bits wide and signed. *)
Definition tid_ok (t : Z) : Prop := 0 < t < 2 ^ 15.

Lemma mutex_take_ok t e : tid_ok t -> mutex_ok (mutex_take t e).
Proof. unfold tid_ok, mutex_ok. intros Ht. right. cbn. unfold OS_MUTEX_AVAILABLE, u32, wrap. split_and!; [done|change (-1 mod 2 ^ 32) with (2 ^ 32 - 1); lia|lia]. Qed.

(** The owner's [mutex_post] hands the mutex to the longest-waiting task that
    still waits and wakes it, so the mutex is never free while a task waits; without
    such a task it becomes free.  Anybody else's [mutex_post] stops the kernel. *)
Theorem mutex_post_hands_over s c p e :
  sys_inv s -> cpus s !! c = Some p -> parked s (ev_wait_list e) -> mutex_ok e ->
  Forall tid_ok (ev_wait_list e) ->
  (ev_owner e <> running_task p -> mutex_post s c e = Panic) /\
  (ev_owner e = running_task p -> exists s' e', mutex_post s c e = Ret (0, s', e') /\
     sys_inv s' /\ mutex_ok e' /\
     ((exists l1 t l2, ev_wait_list e = l1 ++ t :: l2 /\ Forall (fun u => ~ waiting s u) l1 /\
         waiting s t /\ woke s s' t TASK_STATE_PEND_OK 0 /\
         ev_owner e' = t /\ ev_wait_list e' = l2) \/
      (Forall (fun u => ~ waiting s u) (ev_wait_list e) /\ s' = s /\
         ev_cnt e' = OS_MUTEX_AVAILABLE /\ ev_wait_list e' = []))).
Proof.
  intros Hs Hc Hp Hok Htid. destruct (known_running s c p Hs Hc) as [y Hy].
  unfold mutex_post. rewrite (current_Ret _ _ _ _ Hc Hy); simpl. split; intros Ho.
  { by rewrite (proj2 (Z.eqb_neq _ _)). }
  rewrite Ho, Z.eqb_refl; simpl. unfold wake_up_one_event_waiter.
  destruct (wake_one_spec s c p (ev_wait_list e) 0 TASK_STATE_PEND_OK Hs Hc Hp)
    as [(l1 & t & l2 & s' & El & Hl1 & Ht & -> & Hwk)|[Hl ->]]; simpl; eexists _, _;
    (split; [reflexivity|]).
  - split; [apply (wk_inv _ _ _ _ _ Hwk)|]. split.
    + apply mutex_take_ok. rewrite El in Htid. by apply Forall_app in Htid as [_ [? _]%Forall_cons].
    + left. by exists l1, t, l2.
  - split; [done|]. split; [left; by split_and!|]. by right.
Qed.

(** [mutex_pend] and [mutex_accept] give the mutex to the caller exactly when it is
    free; otherwise [mutex_accept] fails with [-EBUSY] and [mutex_pend] queues the
    caller as the last waiter. *)
Theorem mutex_pend_exclusive s c p e timeout :
  sys_inv s -> cpus s !! c = Some p -> running_task p <> idle_task p ->
  mutex_ok e -> tid_ok (running_task p) ->
  if ev_cnt e =? OS_MUTEX_AVAILABLE then
    mutex_accept s c e = Ret (0, mutex_take (running_task p) e) /\
    mutex_pend s c e timeout = Ret (Done 0, s, mutex_take (running_task p) e) /\
    mutex_ok (mutex_take (running_task p) e)
  else
    mutex_accept s c e = Ret (- EBUSY, e) /\
    exists s' e', mutex_pend s c e timeout = Ret (Blocked, s', e') /\ sys_inv s' /\
      waiting s' (running_task p) /\ mutex_ok e' /\ ev_owner e' = ev_owner e /\
      ev_wait_list e' = ev_wait_list e ++ [running_task p].
Proof.
  intros Hs Hc Hid Hok Ht. destruct (known_running s c p Hs Hc) as [y Hy].
  unfold mutex_accept, mutex_pend. rewrite (current_Ret _ _ _ _ Hc Hy); simpl.
  destruct (Z.eqb_spec (ev_cnt e) OS_MUTEX_AVAILABLE) as [Ha|Ha].
  - split_and!; [done|done|by apply mutex_take_ok].
  - split; [done|].
    destruct (wait_event_blocks s c p e OS_EVENT_TYPE_MUTEX timeout) as (s' & -> & Hs' & _ & Hw & _); try done.
    eexists s', _. split; [reflexivity|]. split_and!; try done.
    destruct Hok as [(? & _)|(H1 & H2 & H3)]; [done|]. right. by split_and!.
Qed.

(** ** Running again *)

(** A task that runs again after its wait returns the word its waker left, clears
    its wait fields, and after a timeout or an abort has left the event's list. *)
Theorem do_wait_event_returns s c p x e :
  sys_inv s -> cpus s !! c = Some p -> tasks s !! running_task p = Some x ->
  exists s' e' x', do_wait_event s c e = Ret (t_ipcdata x, s', e') /\ sys_inv s' /\
    tasks s' !! running_task p = Some x' /\ t_pend_state x' = TASK_STATE_PEND_OK /\
    t_wait_event x' = 0 /\ t_wait_type x' = 0 /\ t_ipcdata x' = 0 /\
    ev_wait_list e' = (if t_pend_state x =? TASK_STATE_PEND_OK then ev_wait_list e
                       else without (running_task p) (ev_wait_list e)).
Proof.
  intros Hs Hc Hx. unfold do_wait_event, event_pend_down.
  rewrite (current_Ret _ _ _ _ Hc Hx); cbn [obind].
  set (se := if t_pend_state x =? TASK_STATE_PEND_OK then (s, e) else _).
  assert (Hse : exists f e', se = (upd_task s (running_task p) f, e') /\
    (forall z, core (f z) = core z) /\ t_ipcdata (f x) = t_ipcdata x /\
    ev_wait_list e' = if t_pend_state x =? TASK_STATE_PEND_OK then ev_wait_list e
                      else without (running_task p) (ev_wait_list e)).
  { unfold se, remove_event_waiter. destruct (t_pend_state x =? TASK_STATE_PEND_OK).
    - exists id, e. split_and!; try done. f_equal. unfold upd_task. destruct s; cbn. f_equal.
      symmetry. apply alter_id. by intros.
    - case_bool_decide as Hin.
      + by eexists _, _.
      + exists id, e. split_and!; try done; [|by rewrite without_absent].
        f_equal. unfold upd_task. destruct s; cbn. f_equal. symmetry. apply alter_id. by intros. }
  destruct Hse as (f & e' & -> & Hf & Hd & Hl).
  pose proof (upd_task_lookup s (running_task p) f x Hx) as Hx1.
  rewrite (current_Ret (upd_task s (running_task p) f) c p _ Hc Hx1). cbn [obind].
  rewrite alter_compose_upd. eexists _, e', _. split; [by rewrite Hd|].
  split; [|split; [by apply upd_task_lookup|by split_and!]].
  apply (sys_inv_core s); [done| |done]. intros u. apply core_upd_task. intros z. rewrite <- (Hf z). done.
Qed.

(** ** Mailboxes *)

(** A message posted to an empty mailbox without waiting tasks is the one the next
    [mbox_pend] returns, and leaves the mailbox empty; a second post in between
    fails with [-ENOSPC] and keeps the first message. *)
Lemma mbox_roundtrip s c p e m m' timeout :
  sys_inv s -> cpus s !! c = Some p -> ev_wait_list e = [] -> ev_data e = 0 ->
  m <> 0 -> m' <> 0 ->
  exists e1, mbox_post s c e m = Ret (0, s, e1) /\
    mbox_post s c e1 m' = Ret (- ENOSPC, s, e1) /\
    mbox_pend s c e1 timeout = Ret (Done m, s, e).
Proof.
  intros Hs Hc Hw Hd Hm Hm'. exists (set_ev_data m e). destruct e; simpl in *; subst.
  unfold mbox_post, __mbox_post_opt, mbox_pend, __wake_up_event_waiter.
  rewrite !(proj2 (Z.eqb_neq _ _)) by done. simpl.
  by rewrite !(proj2 (Z.eqb_neq _ _)) by done.
Qed.

(** ** Witnesses *)

Definition demo_event (cnt owner : Z) (l : list Z) : event := mk_event 0x1000 OS_EVENT_TYPE_SEM owner cnt 0 l.

Lemma demo_parked : parked demo [2].
Proof.
  constructor; [|constructor]. split; [by eexists|]. apply (bool_decide_unpack _). vm_compute. exact I.
Qed.

Lemma sem_post_conserves_witness :
  exists r s' e', sem_post demo 0 (demo_event 0 0 [2]) = Ret (r, s', e') /\ sys_inv s' /\ sem_ok e' /\
    ((exists l1 t l2, [2] = l1 ++ t :: l2 /\ Forall (fun u => ~ waiting demo u) l1 /\
        waiting demo t /\ woke demo s' t TASK_STATE_PEND_OK 0 /\
        e' = set_ev_wait_list l2 (demo_event 0 0 [2]) /\ r = - EOVERFLOW) \/
     (Forall (fun u => ~ waiting demo u) [2] /\ s' = demo /\ ev_wait_list e' = [] /\
        if 0 <? INT_MAX then ev_cnt e' = 0 + 1 /\ r = 0 else ev_cnt e' = 0 /\ r = - EOVERFLOW)).
Proof.
  apply (sem_post_conserves demo 0 demo_pcpu (demo_event 0 0 [2]));
    [apply demo_inv|done|apply demo_parked|split; [done|by left]].
Defined.

Lemma mutex_post_hands_over_witness :
  exists s' e', mutex_post demo 0 (demo_event 1 1 [2]) = Ret (0, s', e') /\
     sys_inv s' /\ mutex_ok e' /\
     ((exists l1 t l2, [2] = l1 ++ t :: l2 /\ Forall (fun u => ~ waiting demo u) l1 /\
         waiting demo t /\ woke demo s' t TASK_STATE_PEND_OK 0 /\
         ev_owner e' = t /\ ev_wait_list e' = l2) \/
      (Forall (fun u => ~ waiting demo u) [2] /\ s' = demo /\
         ev_cnt e' = OS_MUTEX_AVAILABLE /\ ev_wait_list e' = [])).
Proof.
  refine (proj2 (mutex_post_hands_over demo 0 demo_pcpu (demo_event 1 1 [2]) demo_inv eq_refl demo_parked _ _) eq_refl).
  - by right.
  - constructor; [by split|constructor].
Defined.

Lemma mutex_pend_exclusive_witness :
  mutex_accept demo 0 (demo_event 2 2 []) = Ret (- EBUSY, demo_event 2 2 []) /\
  exists s' e', mutex_pend demo 0 (demo_event 2 2 []) 10 = Ret (Blocked, s', e') /\ sys_inv s' /\
    waiting s' 1 /\ mutex_ok e' /\ ev_owner e' = 2 /\ ev_wait_list e' = [1].
Proof.
  apply (mutex_pend_exclusive demo 0 demo_pcpu (demo_event 2 2 []) 10);
    [apply demo_inv|done|done|by right|by split].
Defined.

Lemma do_wait_event_returns_witness :
  exists s' e' x', do_wait_event demo 0 (demo_event 0 0 [2]) = Ret (0, s', e') /\ sys_inv s' /\
    tasks s' !! 1 = Some x' /\ t_pend_state x' = TASK_STATE_PEND_OK /\
    t_wait_event x' = 0 /\ t_wait_type x' = 0 /\ t_ipcdata x' = 0 /\ ev_wait_list e' = [2].
Proof.
  apply (do_wait_event_returns demo 0 demo_pcpu (demo_task 5 0 TASK_STATE_RUNNING 0) (demo_event 0 0 [2]));
    [apply demo_inv|done|done].
Defined.
