(* ===== verification/Ipc.v ===== *)
(** * Message queues between processes

    [userspace/iqueue.c], on which ports and endpoints are built: a writer puts a message
    that lives on its own stack into the queue and waits; a reader takes it, copies the data
    and gets a token; a reply with the token gives the writer its return code.

    Any number of calls of [iqueue_send], [iqueue_recv] and [iqueue_reply] run at the same
    time.  A call is a thread with a program point; one step of it is a section under a lock
    or a single access to a shared field.  A schedule is a list of labels, and [step] is the
    step of one label.  The message of a writer is gone once its call has returned: an access
    after that is wrong, as is the removal of a list node that is on no list.  Sleeping and
    waking are those of [wait_event], [wake] and the semaphores ([Event]), with one waiter per
    message.  Whether the copy of the data succeeds is part of the label, as is the status of
    passing a handle with a reply ([Handle]). *)

From S2P Require Import Prelude Types Bits Task Event.

(** ** State *)

Inductive imsg_state : Type := IMSG_STATE_INIT | IMSG_STATE_IN_PROCESS | IMSG_STATE_ERROR.

#[export] Instance imsg_state_eq_dec : EqDecision imsg_state.
Proof. solve_decision. Defined.

(** The event of a message: its writer does not sleep, sleeps, or was woken with a code. *)
Inductive ievent : Type := Idle | Waiting | Woken (ret : Z).

Record imsg := mk_imsg {
  token : Z;
  retcode : Z;
  im_state : imsg_state;
  submit : bool;
  im_ev : ievent;
}.

(** Where a writer is in [iqueue_send]; the flag marks the second wait. *)
Inductive wpc : Type :=
| WNotify
| WCheck (again : bool)
| WLock (again : bool)
| WSleep (again : bool)
| WErr
| WSpin
| WOut
| WDone (ret : Z).

(** A call of [iqueue_send]: its message, whether it waits at all ([timeout] is not 0), and the
    token it was given. *)
Record writer := mk_writer {
  w_msg : imsg;
  w_pc : wpc;
  w_waits : bool;
  w_token : Z;
}.

Inductive rpc : Type :=
| RPend
| RSem
| RPop
| RClaim (m : nat)
| RCopy (m : nat)
| RWake (m : nat)
| RDone (ret : Z).

Inductive ppc : Type :=
| PSet (m : nat) (errno : Z)
| PToken (m : nat)
| PWake (m : nat)
| PDone.

(** What happened, for the specification only. *)
Inductive note : Type :=
| Sent (t : Z)
| Received (t : Z)
| Answered (t ret : Z).

(** [iq_polled] says whether the object has a poll structure; [isem] is the semaphore of the
    readers with its count and its waiters. *)
Record iqueue := mk_iq {
  mutil_writer : bool;
  rclosed : bool;
  wclosed : bool;
  pending_list : list nat;
  processing_list : list nat;
  isem_cnt : Z;
  isem_waiters : list nat;
  iq_polled : bool;
  event_token : Z;
  writers : gmap nat writer;
  readers : gmap nat rpc;
  repliers : gmap nat ppc;
  notes : list note;
}.

Inductive fault : Type :=
| LateWake (m : nat)
| DeadMsg (m : nat)
| Unlinked (m : nat)
| BadToken (t : Z).

Inductive result : Type :=
| Ok (s : iqueue)
| Blocked
| Wrong (f : fault).

Definition set_lists (s : iqueue) (l l' : list nat) : iqueue :=
  mk_iq (mutil_writer s) (rclosed s) (wclosed s) l l' (isem_cnt s) (isem_waiters s) (iq_polled s) (event_token s)
    (writers s) (readers s) (repliers s) (notes s).
Definition set_sem (s : iqueue) (c : Z) (w : list nat) : iqueue :=
  mk_iq (mutil_writer s) (rclosed s) (wclosed s) (pending_list s) (processing_list s) c w (iq_polled s) (event_token s)
    (writers s) (readers s) (repliers s) (notes s).
Definition set_writers (s : iqueue) (w : gmap nat writer) : iqueue :=
  mk_iq (mutil_writer s) (rclosed s) (wclosed s) (pending_list s) (processing_list s) (isem_cnt s) (isem_waiters s) (iq_polled s)
    (event_token s) w (readers s) (repliers s) (notes s).
Definition set_readers (s : iqueue) (r : gmap nat rpc) : iqueue :=
  mk_iq (mutil_writer s) (rclosed s) (wclosed s) (pending_list s) (processing_list s) (isem_cnt s) (isem_waiters s) (iq_polled s)
    (event_token s) (writers s) r (repliers s) (notes s).
Definition set_repliers (s : iqueue) (p : gmap nat ppc) : iqueue :=
  mk_iq (mutil_writer s) (rclosed s) (wclosed s) (pending_list s) (processing_list s) (isem_cnt s) (isem_waiters s) (iq_polled s)
    (event_token s) (writers s) (readers s) p (notes s).
Definition add_note (s : iqueue) (n : note) : iqueue :=
  mk_iq (mutil_writer s) (rclosed s) (wclosed s) (pending_list s) (processing_list s) (isem_cnt s) (isem_waiters s) (iq_polled s)
    (event_token s) (writers s) (readers s) (repliers s) (notes s ++ [n]).
Definition set_token (s : iqueue) (t : Z) : iqueue :=
  mk_iq (mutil_writer s) (rclosed s) (wclosed s) (pending_list s) (processing_list s) (isem_cnt s) (isem_waiters s) (iq_polled s)
    t (writers s) (readers s) (repliers s) (notes s).
Definition set_closed (s : iqueue) (r w : bool) : iqueue :=
  mk_iq (mutil_writer s) r w (pending_list s) (processing_list s) (isem_cnt s) (isem_waiters s) (iq_polled s)
    (event_token s) (writers s) (readers s) (repliers s) (notes s).

Definition set_im (f : imsg -> imsg) (w : writer) : writer := mk_writer (f (w_msg w)) (w_pc w) (w_waits w) (w_token w).
Definition set_pc (pc : wpc) (w : writer) : writer := mk_writer (w_msg w) pc (w_waits w) (w_token w).
Definition im_retcode (r : Z) (i : imsg) : imsg := mk_imsg (token i) r (im_state i) (submit i) (im_ev i).
Definition im_token0 (i : imsg) : imsg := mk_imsg 0 (retcode i) (im_state i) (submit i) (im_ev i).
Definition im_set_state (x : imsg_state) (i : imsg) : imsg := mk_imsg (token i) (retcode i) x (submit i) (im_ev i).
Definition im_submit (i : imsg) : imsg := mk_imsg (token i) (retcode i) (im_state i) true (im_ev i).
Definition im_event (e : ievent) (i : imsg) : imsg := mk_imsg (token i) (retcode i) (im_state i) (submit i) e.

Definition goto_w (s : iqueue) (m : nat) (pc : wpc) : iqueue := set_writers s (alter (set_pc pc) m (writers s)).
Definition goto_r (s : iqueue) (r : nat) (pc : rpc) : iqueue := set_readers s (<[r := pc]> (readers s)).
Definition goto_p (s : iqueue) (p : nat) (pc : ppc) : iqueue := set_repliers s (<[p := pc]> (repliers s)).
Definition upd_msg (s : iqueue) (m : nat) (f : imsg -> imsg) : iqueue := set_writers s (alter (set_im f) m (writers s)).

(** The message of a call that has not returned. *)
Definition live (s : iqueue) (m : nat) : option imsg :=
  match writers s !! m with
  | Some w => match w_pc w with WDone _ => None | _ => Some (w_msg w) end
  | None => None
  end.

(** An access to the message of another thread. *)
Definition with_msg (s : iqueue) (m : nat) (k : imsg -> result) : result :=
  match live s m with Some i => k i | None => Wrong (DeadMsg m) end.

(** ** Waking *)

(** [__wake]: the writer is taken from the wait list with the code. *)
Definition wake_ev (ret : Z) (e : ievent) : ievent := match e with Waiting => Woken ret | _ => e end.

Definition wake_msg (s : iqueue) (m : nat) (ret : Z) : iqueue := upd_msg s m (fun i => im_event (wake_ev ret (im_ev i)) i).

(** [sem_post]: a waiter passes, or the count grows. *)
Definition isem_post (s : iqueue) : iqueue :=
  match isem_waiters s with
  | r :: rs => goto_r (set_sem s (isem_cnt s) rs) r RPop
  | [] => if isem_cnt s <? 2 ^ 31 - 1 then set_sem s (isem_cnt s + 1) [] else s
  end.

(** [sem_pend_abort]: all waiters are woken, with status 0, and go on as if they had a permit. *)
Definition isem_abort (s : iqueue) : iqueue :=
  fold_left (fun s r => goto_r s r RPop) (isem_waiters s) (set_sem s (isem_cnt s) []).

(** ** iqueue_send *)

Definition imsg_init (t : Z) : imsg := mk_imsg t 0 IMSG_STATE_INIT false Idle.

(** The new message joins the pending ones, unless the reading side is closed. *)
Definition send_enqueue (s : iqueue) (m : nat) (waits : bool) : result :=
  match writers s !! m with
  | Some _ => Blocked
  | None =>
      if rclosed s then
        Ok (set_writers s (<[m := mk_writer (imsg_init 0) (WDone (- EOTHERSIDECLOSED)) waits 0]> (writers s)))
      else
        let '(t, (c, _)) := new_event_token (event_token s) 0 in
        let s := set_writers (set_token s c) (<[m := mk_writer (imsg_init t) WNotify waits t]> (writers s)) in
        Ok (add_note (set_lists s (pending_list s ++ [m]) (processing_list s)) (Sent t))
  end.

(** [poll_event_send] returns [-EAGAIN] only for an object without a poll structure. *)
Definition send_notify (s : iqueue) (m : nat) : result :=
  Ok (goto_w (if iq_polled s then s else isem_post s) m (WCheck false)).

(** The end of [wait_event] with status [ret]: the first wait either finishes the call or goes on to
    withdraw the message, the second one finishes it. *)
Definition wait_done (s : iqueue) (m : nat) (i : imsg) (again : bool) (ret : Z) : iqueue :=
  goto_w s m (if again || (ret =? 0) then WDone (retcode i) else WErr).

(** [wait_event]: the test without the lock; [stop] if the task was told to stop. *)
Definition wait_check (s : iqueue) (m : nat) (i : imsg) (again stop : bool) : result :=
  if token i =? 0 then Ok (wait_done s m i again 0)
  else if stop then Ok (wait_done s m i again (- EABORT))
  else Ok (goto_w s m (WLock again)).

(** [wait_event]: the test under the lock of the event, then the task sleeps. *)
Definition wait_lock (s : iqueue) (m : nat) (w : writer) (again : bool) : result :=
  if token (w_msg w) =? 0 then Ok (wait_done s m (w_msg w) again 0)
  else if negb (w_waits w) then Ok (wait_done s m (w_msg w) again (- EBUSY))
  else Ok (goto_w (upd_msg s m (im_event Waiting)) m (WSleep again)).

Definition wait_woken (s : iqueue) (m : nat) (i : imsg) (again : bool) : result :=
  match im_ev i with
  | Woken r => Ok (wait_done (upd_msg s m (im_event Idle)) m i again r)
  | _ => Blocked
  end.

(** The sleep runs into its timeout. *)
Definition wait_timeout (s : iqueue) (m : nat) (i : imsg) : result :=
  match im_ev i with
  | Waiting => Ok (upd_msg s m (im_event (Woken (- ETIMEDOUT))))
  | _ => Blocked
  end.

(** [cmpxchg] of the state after a failed wait. *)
Definition send_error (s : iqueue) (m : nat) (i : imsg) : result :=
  match im_state i with
  | IMSG_STATE_INIT => Ok (goto_w (upd_msg s m (im_set_state IMSG_STATE_ERROR)) m WOut)
  | _ => Ok (goto_w s m WSpin)
  end.

Definition send_spin (s : iqueue) (m : nat) (i : imsg) : result :=
  if submit i then Ok (goto_w s m WOut) else Blocked.

(** [list_del]: a node that is on no list has null links. *)
Definition msg_del (s : iqueue) (m : nat) : option iqueue :=
  if bool_decide (m ∈ pending_list s) then Some (set_lists s (filter (fun x => x <> m) (pending_list s)) (processing_list s))
  else if bool_decide (m ∈ processing_list s) then Some (set_lists s (pending_list s) (filter (fun x => x <> m) (processing_list s)))
  else None.

(** The test reads the list node of the task, [linked], not that of the message.  Tasks are created
    zeroed and no code links this node, so that it is never linked. *)
Definition send_out (s : iqueue) (m : nat) (i : imsg) (linked : bool) : result :=
  if linked then
    match msg_del s m with
    | Some s => Ok (goto_w s m (WDone (retcode i)))
    | None => Wrong (Unlinked m)
    end
  else Ok (goto_w s m (WCheck true)).

(** ** iqueue_recv *)

(** [block] if the timeout is not 0. *)
Definition recv_start (s : iqueue) (r : nat) (block : bool) : result :=
  match readers s !! r with
  | Some _ => Blocked
  | None =>
      if wclosed s then Ok (goto_r s r (RDone (- EIO)))
      else Ok (goto_r s r (if block then RPend else RPop))
  end.

(** [sem_pend]: a permit is there, or the reader waits. *)
Definition recv_pend (s : iqueue) (r : nat) : result :=
  if 0 <? isem_cnt s then Ok (goto_r (set_sem s (isem_cnt s - 1) (isem_waiters s)) r RPop)
  else Ok (goto_r (set_sem s (isem_cnt s) (isem_waiters s ++ [r])) r RSem).

Definition recv_timeout (s : iqueue) (r : nat) : result :=
  Ok (goto_r (set_sem s (isem_cnt s) (filter (fun x => x <> r) (isem_waiters s))) r (RDone (- ETIMEDOUT))).

Definition recv_pop (s : iqueue) (r : nat) : result :=
  match pending_list s with
  | [] => Ok (goto_r s r (RDone (- EAGAIN)))
  | m :: l =>
      match writers s !! m with
      | Some w =>
          with_msg s m (fun _ => Ok (add_note (goto_r (set_lists s l (processing_list s)) r (RClaim m)) (Received (w_token w))))
      | None => Wrong (DeadMsg m)
      end
  end.

Definition recv_claim (s : iqueue) (r m : nat) : result :=
  with_msg s m (fun i =>
    match im_state i with
    | IMSG_STATE_INIT => Ok (goto_r (upd_msg s m (im_set_state IMSG_STATE_IN_PROCESS)) r (RCopy m))
    | _ => Ok (goto_r s r (RDone (- EIO)))
    end).

(** [ret] is the result of [kobject_copy_ipc_payload]. *)
Definition recv_copy (s : iqueue) (r m : nat) (ret : Z) : result :=
  with_msg s m (fun i =>
    if ret <? 0 then
      Ok (add_note (goto_r (upd_msg s m (fun i => im_submit (im_retcode ret i))) r (RWake m)) (Answered (token i) ret))
    else
      let s := set_lists s (pending_list s) (processing_list s ++ [m]) in
      Ok (goto_r (upd_msg s m im_submit) r (RDone (token i)))).

Definition recv_wake (s : iqueue) (r m : nat) : result :=
  with_msg s m (fun _ => Ok (goto_r (wake_msg s m 0) r (RDone (- EAGAIN)))).

(** ** iqueue_reply *)

(** The message with token [t] leaves the list; without one the loop ends at the head of the list,
    which the code then takes for a message. *)
Definition has_token (s : iqueue) (t : Z) (m : nat) : bool :=
  match live s m with Some i => token i =? t | None => false end.

Definition reply_find (s : iqueue) (p : nat) (t errno : Z) : result :=
  match repliers s !! p with
  | Some _ => Blocked
  | None =>
      match list_find (fun m => has_token s t m) (processing_list s) with
      | Some (_, m) =>
          Ok (add_note (goto_p (set_lists s (pending_list s) (filter (fun x => x <> m) (processing_list s))) p (PSet m errno)) (Answered t errno))
      | None => Wrong (BadToken t)
      end
  end.

Definition reply_retcode (s : iqueue) (p m : nat) (errno : Z) : result :=
  with_msg s m (fun _ => Ok (goto_p (upd_msg s m (im_retcode errno)) p (PToken m))).

Definition reply_token (s : iqueue) (p m : nat) : result :=
  with_msg s m (fun _ => Ok (goto_p (upd_msg s m im_token0) p (PWake m))).

Definition reply_wake (s : iqueue) (p m : nat) : result :=
  match live s m with
  | Some _ => Ok (goto_p (wake_msg s m 0) p PDone)
  | None => Wrong (LateWake m)
  end.

(** ** iqueue_close *)

Definition wake_writer (s : iqueue) (m : nat) : iqueue := wake_msg (upd_msg s m im_token0) m (- EABORT).

(** Both lists under the lock; the return codes stay as they are. *)
Definition wake_all_writer (s : iqueue) : iqueue :=
  set_lists (fold_left wake_writer (pending_list s ++ processing_list s) s) [] [].

Definition close_read (s : iqueue) : iqueue := set_closed s true (wclosed s).

Definition close_write (s : iqueue) : iqueue :=
  if mutil_writer s then s else isem_abort (set_closed s (rclosed s) true).

Definition iqueue_init (mutil polled : bool) : iqueue :=
  mk_iq mutil false false [] [] 0 [] polled 1 ∅ ∅ ∅ [].

(** ** Schedules *)

Inductive label : Type :=
| LSend (m : nat) (waits : bool)
| LNotify (m : nat)
| LCheck (m : nat) (stop : bool)
| LLock (m : nat)
| LWoken (m : nat)
| LTimeout (m : nat)
| LError (m : nat)
| LSpin (m : nat)
| LOut (m : nat) (linked : bool)
| LRecv (r : nat) (block : bool)
| LPend (r : nat)
| LRecvTimeout (r : nat)
| LPop (r : nat)
| LClaim (r : nat)
| LCopy (r : nat) (ret : Z)
| LRecvWake (r : nat)
| LReply (p : nat) (t errno : Z)
| LReplyRet (p : nat)
| LReplyToken (p : nat)
| LReplyWake (p : nat)
| LCloseRead
| LWakeAll
| LCloseWrite.

(** The step of writer [m] at its program point. *)
Definition at_writer (s : iqueue) (m : nat) (k : writer -> wpc -> result) : result :=
  match writers s !! m with Some w => k w (w_pc w) | None => Blocked end.

Definition step (s : iqueue) (l : label) : result :=
  match l with
  | LSend m waits => send_enqueue s m waits
  | LNotify m => at_writer s m (fun _ pc => match pc with WNotify => send_notify s m | _ => Blocked end)
  | LCheck m stop => at_writer s m (fun w pc => match pc with WCheck a => wait_check s m (w_msg w) a stop | _ => Blocked end)
  | LLock m => at_writer s m (fun w pc => match pc with WLock a => wait_lock s m w a | _ => Blocked end)
  | LWoken m => at_writer s m (fun w pc => match pc with WSleep a => wait_woken s m (w_msg w) a | _ => Blocked end)
  | LTimeout m => at_writer s m (fun w pc => match pc with WSleep _ => wait_timeout s m (w_msg w) | _ => Blocked end)
  | LError m => at_writer s m (fun w pc => match pc with WErr => send_error s m (w_msg w) | _ => Blocked end)
  | LSpin m => at_writer s m (fun w pc => match pc with WSpin => send_spin s m (w_msg w) | _ => Blocked end)
  | LOut m linked => at_writer s m (fun w pc => match pc with WOut => send_out s m (w_msg w) linked | _ => Blocked end)
  | LRecv r block => recv_start s r block
  | LPend r => match readers s !! r with Some RPend => recv_pend s r | _ => Blocked end
  | LRecvTimeout r => match readers s !! r with Some RSem => recv_timeout s r | _ => Blocked end
  | LPop r => match readers s !! r with Some RPop => recv_pop s r | _ => Blocked end
  | LClaim r => match readers s !! r with Some (RClaim m) => recv_claim s r m | _ => Blocked end
  | LCopy r ret => match readers s !! r with Some (RCopy m) => recv_copy s r m ret | _ => Blocked end
  | LRecvWake r => match readers s !! r with Some (RWake m) => recv_wake s r m | _ => Blocked end
  | LReply p t errno => reply_find s p t errno
  | LReplyRet p => match repliers s !! p with Some (PSet m e) => reply_retcode s p m e | _ => Blocked end
  | LReplyToken p => match repliers s !! p with Some (PToken m) => reply_token s p m | _ => Blocked end
  | LReplyWake p => match repliers s !! p with Some (PWake m) => reply_wake s p m | _ => Blocked end
  | LCloseRead => Ok (close_read s)
  | LWakeAll => Ok (wake_all_writer s)
  | LCloseWrite => Ok (close_write s)
  end.

(** A schedule; labels whose thread cannot run are passed over. *)
Fixpoint run (s : iqueue) (ls : list label) : result :=
  match ls with
  | [] => Ok s
  | l :: ls => match step s l with Ok s' => run s' ls | Blocked => run s ls | Wrong f => Wrong f end
  end.

(** ** Cooperating parties

    Writers that wait as long as it takes and are not told to stop, a reading side that stays open,
    and replies to tokens that were handed out and not answered yet.  The 32-bit counter of the
    tokens does not wrap around. *)
Definition coop (s : iqueue) (l : label) : Prop :=
  match l with
  | LSend _ waits => waits = true /\ event_token s < 2 ^ 32 - 1
  | LCheck _ stop => stop = false
  | LTimeout _ | LCloseRead | LWakeAll => False
  | LReply _ t _ => exists m, m ∈ processing_list s /\ has_token s t m = true
  | _ => True
  end.

Definition coop_step (s s' : iqueue) : Prop := exists l, coop s l /\ step s l = Ok s'.

(** ** Where a message is *)

Inductive place : Type :=
| Pend | Proc | Claim (r : nat) | Copy (r : nat) | FailWake (r : nat) | SetRet (p : nat) (e : Z) | ZeroTok (p : nat) | Free.

#[export] Instance place_eq_dec : EqDecision place.
Proof. solve_decision. Defined.

Definition moved_to (pl : nat -> place) (m : nat) (P : place) : nat -> place := fun x => if decide (x = m) then P else pl x.

Lemma moved_here pl m P : moved_to pl m P m = P.
Proof. unfold moved_to. by rewrite decide_True. Qed.

Lemma moved_there pl m P x : x <> m -> moved_to pl m P x = pl x.
Proof. intros. unfold moved_to. by rewrite decide_False. Qed.

(** The tokens answered, sent and received so far, in order. *)
Definition answers (ns : list note) : list Z := omap (fun n => match n with Answered t _ => Some t | _ => None end) ns.
Definition sent (ns : list note) : list Z := omap (fun n => match n with Sent t => Some t | _ => None end) ns.
Definition received (ns : list note) : list Z := omap (fun n => match n with Received t => Some t | _ => None end) ns.

Definition waiting_pc (pc : wpc) : bool :=
  match pc with WNotify | WCheck false | WLock false | WSleep false => true | _ => false end.

(** The sleep and the event of a writer agree. *)
Definition sleep_ok (pc : wpc) (e : ievent) : Prop :=
  match pc with WSleep _ => e <> Idle | _ => e = Idle end.

(** What holds of a message in its place. *)
Definition place_ok (ns : list note) (P : place) (w : writer) : Prop :=
  match P with
  | Pend | Claim _ => im_state (w_msg w) = IMSG_STATE_INIT /\ w_token w ∉ answers ns
  | Proc | Copy _ => im_state (w_msg w) = IMSG_STATE_IN_PROCESS /\ w_token w ∉ answers ns
  | FailWake _ | ZeroTok _ => Answered (w_token w) (retcode (w_msg w)) ∈ ns
  | SetRet _ e => Answered (w_token w) e ∈ ns
  | Free => True
  end.

Definition held (P : place) : bool := match P with Free => false | _ => true end.

Record writer_ok (ns : list note) (ctr : Z) (P : place) (w : writer) : Prop := {
  wo_tok : 0 < w_token w < ctr;
  wo_sleep : sleep_ok (w_pc w) (im_ev (w_msg w));
  wo_pc : waiting_pc (w_pc w) = true /\ w_waits w = true \/ exists v, w_pc w = WDone v /\ Answered (w_token w) v ∈ ns;
  wo_held : held P = true ->
    waiting_pc (w_pc w) = true /\ token (w_msg w) = w_token w /\ (w_pc w = WSleep false -> im_ev (w_msg w) = Waiting);
  wo_token : token (w_msg w) = w_token w \/ token (w_msg w) = 0 /\ Answered (w_token w) (retcode (w_msg w)) ∈ ns;
  wo_woken : forall r, im_ev (w_msg w) = Woken r -> r = 0 /\ Answered (w_token w) (retcode (w_msg w)) ∈ ns;
  wo_place : place_ok ns P w;
}.

Definition at_place (s : iqueue) (P : place) (m : nat) : Prop :=
  match P with
  | Pend => m ∈ pending_list s
  | Proc => m ∈ processing_list s
  | Claim r => readers s !! r = Some (RClaim m)
  | Copy r => readers s !! r = Some (RCopy m)
  | FailWake r => readers s !! r = Some (RWake m)
  | SetRet p e => repliers s !! p = Some (PSet m e)
  | ZeroTok p => repliers s !! p = Some (PToken m)
  | Free => False
  end.

(** Messages are received in the order in which they were sent, and the pending ones are those that
    were not received yet. *)
Definition fifo (s : iqueue) : Prop :=
  exists l, sent (notes s) = received (notes s) ++ l /\
    Forall2 (fun m t => w_token <$> writers s !! m = Some t) (pending_list s) l.

Record inv (s : iqueue) (pl : nat -> place) : Prop := {
  iv_open : rclosed s = false;
  iv_ctr : 0 < event_token s < 2 ^ 32;
  iv_nodup : NoDup (pending_list s) /\ NoDup (processing_list s);
  iv_place : forall P m, P <> Free -> at_place s P m <-> pl m = P;
  iv_writer : forall m w, writers s !! m = Some w -> writer_ok (notes s) (event_token s) (pl m) w;
  iv_exists : forall m, held (pl m) = true -> is_Some (writers s !! m);
  iv_inj : forall m m' w w', writers s !! m = Some w -> writers s !! m' = Some w' -> w_token w = w_token w' -> m = m';
  iv_answers : NoDup (answers (notes s));
  iv_past : forall t, t ∈ answers (notes s) -> 0 < t < event_token s;
  iv_fifo : fifo s;
  iv_sent : forall t, t ∈ sent (notes s) -> 0 < t < event_token s;
  iv_sent_once : NoDup (sent (notes s));
  iv_pwake : forall p m, repliers s !! p = Some (PWake m) -> exists w, writers s !! m = Some w /\ token (w_msg w) = 0;
  iv_sem : NoDup (isem_waiters s) /\ forall r, r ∈ isem_waiters s -> readers s !! r = Some RSem;
}.

Lemma init_inv mutil polled : inv (iqueue_init mutil polled) (fun _ => Free).
Proof.
  split; cbn; try done; try (repeat constructor; fail); try (intros t H; inversion H; fail).
  - intros P m HP. split; [|done]. destruct P; cbn; rewrite ?lookup_empty; try done; intros H; inversion H.
  - exists []. by split; [|constructor].
  - split; [constructor|]. intros r H. inversion H.
Qed.

Lemma answers_app a b : answers (a ++ b) = answers a ++ answers b.
Proof. apply omap_app. Qed.

Lemma answered_in ns t v : Answered t v ∈ ns -> t ∈ answers ns.
Proof. intros H. apply list_elem_of_omap. by exists (Answered t v). Qed.

Lemma writer_ok_mono ns ns' ctr ctr' P w :
  writer_ok ns ctr P w -> ctr <= ctr' -> w_token w ∉ answers ns' -> writer_ok (ns ++ ns') ctr' P w.
Proof.
  intros [H1 H2 H3 H4 H5 H6 H7] Hc Hn. split; try done; [lia| | | |].
  - destruct H3 as [?|(v & E & Hv)]; [by left|right; exists v; split; [done|]; apply elem_of_app; by left].
  - destruct H5 as [?|[? ?]]; [by left|right; split; [done|]; apply elem_of_app; by left].
  - intros r Hr. destruct (H6 r Hr). split; [done|]. apply elem_of_app. by left.
  - destruct P; cbn in *; rewrite ?answers_app, ?elem_of_app; (tauto || by left).
Qed.

(** One message changes its place and its contents; [extra] is what was noted meanwhile. *)
Lemma inv_move s s' pl m w w' P' extra :
  inv s pl -> writers s !! m = Some w -> writers s' = <[m := w']> (writers s) -> rclosed s' = rclosed s ->
  event_token s' = event_token s -> w_token w' = w_token w -> notes s' = notes s ++ extra ->
  (answers extra = [] \/ answers extra = [w_token w] /\ w_token w ∉ answers (notes s)) ->
  NoDup (pending_list s') /\ NoDup (processing_list s') ->
  (forall P x, P <> Free -> at_place s' P x <-> if decide (x = m) then P' = P else at_place s P x) ->
  writer_ok (notes s') (event_token s) P' w' ->
  fifo s' /\ sent (notes s') = sent (notes s) ->
  (forall p x, repliers s' !! p = Some (PWake x) -> if decide (x = m) then token (w_msg w') = 0 else repliers s !! p = Some (PWake x)) ->
  (NoDup (isem_waiters s') /\ forall r, r ∈ isem_waiters s' -> readers s' !! r = Some RSem) ->
  inv s' (moved_to pl m P').
Proof.
  intros [I1 I2 I3 I4 I5 I6 I7 I8 I9 I10 I11 I12 I14 I13] Hw Ew Ec Et Ewt En Hex Hnd Hpl Hok [Hf Hsent] Hpw Hsem.
  pose proof (wo_tok _ _ _ _ (I5 m w Hw)) as Htok.
  assert (Hlook : forall x v, writers s' !! x = Some v -> (x = m /\ v = w') \/ (x <> m /\ writers s !! x = Some v)).
  { intros x v. rewrite Ew. destruct (decide (x = m)) as [->|Hne]; [rewrite lookup_insert_eq; intros [= <-]; by left|].
    rewrite lookup_insert_ne by done. by right. }
  split; rewrite ?Et, ?Ec, ?En, ?Hsent; try done.
  - intros P x HP. rewrite (Hpl P x HP). unfold moved_to. case_decide as Hx; [done|]. by apply I4.
  - intros x v Hv. destruct (Hlook x v Hv) as [[-> ->]|[Hne Hv']]; [by rewrite moved_here, <- En|]. rewrite moved_there by done.
    apply (writer_ok_mono _ _ (event_token s)); [by apply I5|lia|]. destruct Hex as [->|[-> _]]; [intros H; inversion H|].
    rewrite list_elem_of_singleton. intros E. apply Hne. by apply (I7 x m v w).
  - intros x Hx. rewrite Ew. destruct (decide (x = m)) as [->|Hne]; [by rewrite lookup_insert_eq|].
    rewrite lookup_insert_ne by done. rewrite moved_there in Hx by done. by apply I6.
  - intros x y v v' Hv Hv'. destruct (Hlook x v Hv) as [[-> ->]|[Hx Hvx]], (Hlook y v' Hv') as [[-> ->]|[Hy Hvy]]; [done| | |by apply I7]; rewrite Ewt.
    + intros E. by apply (I7 m y w v').
    + intros E. by apply (I7 x m v w).
  - rewrite answers_app. destruct Hex as [->|[-> Hnew]]; [by rewrite app_nil_r|]. apply NoDup_app. split; [done|]. split.
    + intros t Ht E. apply list_elem_of_singleton in E. by subst t.
    + apply NoDup_singleton.
  - intros t. rewrite answers_app, elem_of_app. intros [Ht|Ht]; [by apply I9|]. destruct Hex as [E|[E _]]; rewrite E in Ht; [inversion Ht|].
    apply list_elem_of_singleton in Ht. by subst t.
  - rewrite En in Hsent. by rewrite Hsent.
  - rewrite En in Hsent. by rewrite Hsent.
  - intros p x Hp. specialize (Hpw p x Hp). rewrite Ew, lookup_insert. destruct (decide (x = m)) as [->|Hx]; [rewrite decide_True by done; eauto|].
    rewrite decide_False by congruence. by apply (I14 p).
Qed.

Lemma alter_Some {A} (f : A -> A) (m : gmap nat A) i x : m !! i = Some x -> alter f i m = <[i := f x]> m.
Proof.
  intros H. apply map_eq. intros j. rewrite lookup_insert. case_decide as E; [subst j; by rewrite lookup_alter_eq, H|].
  by rewrite lookup_alter_ne.
Qed.

Lemma alter_alter_Some {A} (f g : A -> A) (m : gmap nat A) i x : m !! i = Some x -> alter f i (alter g i m) = <[i := f (g x)]> m.
Proof. intros H. rewrite (alter_Some g m i x H), (alter_Some f _ i (g x)) by apply lookup_insert_eq. apply insert_insert_eq. Qed.

Lemma fifo_same s s' m w w' :
  fifo s -> writers s !! m = Some w -> writers s' = <[m := w']> (writers s) -> w_token w' = w_token w ->
  pending_list s' = pending_list s -> sent (notes s') = sent (notes s) -> received (notes s') = received (notes s) -> fifo s'.
Proof.
  intros (l & E & F) Hw Ew Et Ep Es Er. exists l. rewrite Es, Er, Ep. split; [done|].
  eapply Forall2_impl; [done|]. cbn. intros x t Hx. rewrite Ew, lookup_insert. case_decide as Ex; [|done].
  subst x. rewrite Hw in Hx. cbn in *. congruence.
Qed.

(** The places after a step, case by case. *)
Ltac places I Hr Hpl :=
  let P := fresh "P" in let x := fresh "x" in let HP := fresh "HP" in
  let H1 := fresh "H" in let H2 := fresh "H" in
  intros P x HP; pose proof (iv_place _ _ I P x HP) as H1;
  match goal with |- context [decide (x = ?m)] => pose proof (iv_place _ _ I P m HP) as H2 end;
  destruct P; try done; cbn [at_place] in H1, H2 |- *; cbn; clear - H1 H2 Hr Hpl;
  rewrite ?lookup_insert, ?elem_of_app, ?list_elem_of_filter, ?list_elem_of_singleton;
  repeat case_decide; subst; intuition congruence.

Lemma live_held s pl m : inv s pl -> held (pl m) = true ->
  exists w, writers s !! m = Some w /\ live s m = Some (w_msg w) /\ writer_ok (notes s) (event_token s) (pl m) w.
Proof.
  intros I Hh. destruct (iv_exists _ _ I m Hh) as (w & Hw). exists w. pose proof (iv_writer _ _ I m w Hw) as Wok.
  split; [done|]. split; [|done]. unfold live. rewrite Hw. destruct (wo_held _ _ _ _ Wok Hh) as [Hpc _].
  by destruct (w_pc w).
Qed.

(** The obligations of a move that touches neither the notes nor the semaphore. *)
Lemma inv_move_quiet s s' pl m w w' P' :
  inv s pl -> writers s !! m = Some w -> writers s' = <[m := w']> (writers s) -> rclosed s' = rclosed s ->
  event_token s' = event_token s -> w_token w' = w_token w -> notes s' = notes s -> pending_list s' = pending_list s ->
  NoDup (processing_list s') ->
  (forall P x, P <> Free -> at_place s' P x <-> if decide (x = m) then P' = P else at_place s P x) ->
  writer_ok (notes s) (event_token s) P' w' ->
  (forall p x, repliers s' !! p = Some (PWake x) -> if decide (x = m) then token (w_msg w') = 0 else repliers s !! p = Some (PWake x)) ->
  (NoDup (isem_waiters s') /\ forall r, r ∈ isem_waiters s' -> readers s' !! r = Some RSem) ->
  inv s' (moved_to pl m P').
Proof.
  intros I Hw Ew Ec Et Ewt En Ep Hnd Hpl Hok Hpw Hsem.
  apply (inv_move s s' pl m w w' P' []); rewrite ?app_nil_r; try done; [by left| |by rewrite En|].
  - split; [rewrite Ep; apply I|done].
  - split; [|by rewrite En]. apply (fifo_same s s' m w w'); try done; [apply I|by rewrite En|by rewrite En].
Qed.

(** Readers that are not waiting may change their program point. *)
Lemma sem_goto s pl r pc pc' :
  inv s pl -> readers s !! r = Some pc -> pc <> RSem ->
  NoDup (isem_waiters s) /\ forall x, x ∈ isem_waiters s -> <[r := pc']> (readers s) !! x = Some RSem.
Proof.
  intros I Hr Hpc. destruct (iv_sem _ _ I) as [H1 H2]. split; [done|]. intros x Hx. rewrite lookup_insert. case_decide; [|by apply H2].
  subst x. apply H2 in Hx. congruence.
Qed.

Lemma pwake_same s pl m w w' :
  inv s pl -> writers s !! m = Some w -> token (w_msg w') = token (w_msg w) -> forall p x, repliers s !! p = Some (PWake x) ->
  if decide (x = m) then token (w_msg w') = 0 else repliers s !! p = Some (PWake x).
Proof. intros I Hw E p x Hp. case_decide; [|done]. subst x. rewrite E. destruct (iv_pwake _ _ I p m Hp) as (v & Hv & ?). congruence. Qed.

(** A message in a place: its writer waits for the answer. *)
Definition asleep (pc : wpc) (e : ievent) : Prop := match pc with WSleep _ => e = Waiting | _ => e = Idle end.

Lemma mk_held ns ctr P w :
  0 < w_token w < ctr -> waiting_pc (w_pc w) = true -> w_waits w = true -> asleep (w_pc w) (im_ev (w_msg w)) ->
  token (w_msg w) = w_token w -> place_ok ns P w -> writer_ok ns ctr P w.
Proof.
  intros H1 H2 H3 H4 H5 H6. split; try done.
  - destruct (w_pc w); cbn in *; try done. by rewrite H4.
  - by left.
  - intros _. split; [done|]. split; [done|]. intros E. by rewrite E in H4.
  - by left.
  - intros r Hr. rewrite Hr in H4. by destruct (w_pc w).
Qed.

Lemma held_facts ns ctr P w :
  writer_ok ns ctr P w -> held P = true ->
  0 < w_token w < ctr /\ waiting_pc (w_pc w) = true /\ w_waits w = true /\ asleep (w_pc w) (im_ev (w_msg w)) /\ token (w_msg w) = w_token w.
Proof.
  intros [H1 H2 H3 H4 H5 H6 H7] Hh. destruct (H4 Hh) as (Hpc & Ht & Hs). split; [done|]. split; [done|]. split.
  - destruct H3 as [[_ ?]|(v & E & _)]; [done|]. by rewrite E in Hpc.
  - split; [|done]. destruct (w_pc w) as [|[]|[]|[]| | | |]; cbn in *; try done. by apply Hs.
Qed.

Lemma claim_inv s pl r m :
  inv s pl -> readers s !! r = Some (RClaim m) -> exists s', recv_claim s r m = Ok s' /\ inv s' (moved_to pl m (Copy r)).
Proof.
  intros I Hr. assert (Hpl : pl m = Claim r) by (by apply (iv_place _ _ I)).
  destruct (live_held s pl m I) as (w & Hw & Hlive & Wok); [by rewrite Hpl|]. unfold recv_claim, with_msg. rewrite Hlive.
  rewrite Hpl in Wok. destruct (wo_place _ _ _ _ Wok) as [Hst Hna]. rewrite Hst. eexists. split; [done|].
  apply (inv_move_quiet s _ pl m w (set_im (im_set_state IMSG_STATE_IN_PROCESS) w)); try done; cbn.
  - by apply alter_Some.
  - apply I.
  - places I Hr Hpl.
  - by destruct Wok; split.
  - by apply (pwake_same s pl m w).
  - by apply (sem_goto s pl r (RClaim m)).
Qed.

Lemma copy_inv s pl r m ret :
  inv s pl -> readers s !! r = Some (RCopy m) -> exists s' pl', recv_copy s r m ret = Ok s' /\ inv s' pl'.
Proof.
  intros I Hr. assert (Hpl : pl m = Copy r) by (by apply (iv_place _ _ I)).
  destruct (live_held s pl m I) as (w & Hw & Hlive & Wok); [by rewrite Hpl|]. unfold recv_copy, with_msg. rewrite Hlive.
  rewrite Hpl in Wok. destruct (wo_place _ _ _ _ Wok) as [Hst Hna]. destruct (held_facts _ _ _ _ Wok) as (F1 & F2 & F3 & F4 & F5); [done|].
  destruct (iv_nodup _ _ I) as [Hn1 Hn2].
  destruct (ret <? 0); (eexists _, (moved_to pl m _); split; [done|]).
  - apply (inv_move s _ pl m w (set_im (fun i => im_submit (im_retcode ret i)) w) (FailWake r) [Answered (w_token w) ret]); try done; cbn.
    + by apply alter_Some.
    + by rewrite F5.
    + by right.
    + places I Hr Hpl.
    + apply mk_held; try done. cbn. rewrite F5. apply elem_of_app. right. by apply list_elem_of_singleton.
    + rewrite F5. split; [|unfold sent; rewrite omap_app; cbn; by rewrite app_nil_r].
      apply (fifo_same s _ m w (set_im (fun i => im_submit (im_retcode ret i)) w)); try done; cbn; [apply I|by apply alter_Some| |];
        [unfold sent|unfold received]; rewrite omap_app; cbn; by rewrite app_nil_r.
    + by apply (pwake_same s pl m w).
    + by apply (sem_goto s pl r (RCopy m)).
  - apply (inv_move_quiet s _ pl m w (set_im im_submit w) Proc); try done; cbn.
    + by apply alter_Some.
    + apply NoDup_app. split; [done|]. split; [|apply NoDup_singleton]. intros x Hx E. apply list_elem_of_singleton in E. subst x.
      apply (iv_place _ _ I Proc) in Hx; [congruence|done].
    + places I Hr Hpl.
    + by apply mk_held.
    + by apply (pwake_same s pl m w).
    + by apply (sem_goto s pl r (RCopy m)).
Qed.

Definition woken (w : writer) : writer := set_im (fun i => im_event (wake_ev 0 (im_ev i)) i) w.

(** Waking a writer whose answer is there. *)
Lemma woken_ok ns ctr P w :
  writer_ok ns ctr P w -> Answered (w_token w) (retcode (w_msg w)) ∈ ns -> writer_ok ns ctr Free (woken w).
Proof.
  intros [H1 H2 H3 H4 H5 H6 H7] Ha. split; try done.
  - unfold woken, set_im, im_event. cbn. destruct (w_pc w), (im_ev (w_msg w)); cbn in *; try done.
  - cbn. intros r. destruct (im_ev (w_msg w)) eqn:E; cbn; [done|by intros [= <-]|]. intros [= <-]. by apply H6.
Qed.

Lemma recv_wake_inv s pl r m :
  inv s pl -> readers s !! r = Some (RWake m) -> exists s' pl', recv_wake s r m = Ok s' /\ inv s' pl'.
Proof.
  intros I Hr. assert (Hpl : pl m = FailWake r) by (by apply (iv_place _ _ I)).
  destruct (live_held s pl m I) as (w & Hw & Hlive & Wok); [by rewrite Hpl|]. unfold recv_wake, with_msg. rewrite Hlive.
  rewrite Hpl in Wok. pose proof (wo_place _ _ _ _ Wok) as Ha. eexists _, (moved_to pl m Free). split; [done|].
  apply (inv_move_quiet s _ pl m w (woken w)); try done; cbn.
  - by apply alter_Some.
  - apply I.
  - places I Hr Hpl.
  - by apply (woken_ok _ _ (FailWake r)).
  - by apply (pwake_same s pl m w).
  - by apply (sem_goto s pl r (RWake m)).
Qed.

Lemma sem_same s pl : inv s pl -> NoDup (isem_waiters s) /\ forall x, x ∈ isem_waiters s -> readers s !! x = Some RSem.
Proof. intros I. apply I. Qed.

Lemma reply_find_inv s pl p t errno m0 :
  inv s pl -> repliers s !! p = None -> m0 ∈ processing_list s -> has_token s t m0 = true ->
  exists s' pl', reply_find s p t errno = Ok s' /\ inv s' pl'.
Proof.
  intros I Hp Hm0 Ht0. unfold reply_find. rewrite Hp.
  destruct (list_find (fun m => has_token s t m) (processing_list s)) as [[k m]|] eqn:Ef.
  2: { exfalso. apply list_find_None in Ef. rewrite Forall_forall in Ef. apply (Ef m0 Hm0). by rewrite Ht0. }
  apply list_find_Some in Ef as (Hk & Ht & _). apply Is_true_true in Ht. assert (Hm : m ∈ processing_list s) by (by eapply list_elem_of_lookup_2).
  assert (Hpl : pl m = Proc) by (by apply (iv_place _ _ I)).
  destruct (live_held s pl m I) as (w & Hw & Hlive & Wok); [by rewrite Hpl|]. rewrite Hpl in Wok.
  destruct (wo_place _ _ _ _ Wok) as [Hst Hna]. destruct (held_facts _ _ _ _ Wok) as (F1 & F2 & F3 & F4 & F5); [done|].
  unfold has_token in Ht. rewrite Hlive in Ht. apply Z.eqb_eq in Ht. rewrite F5 in Ht. subst t.
  destruct (iv_nodup _ _ I) as [Hn1 Hn2]. eexists _, (moved_to pl m (SetRet p errno)). split; [done|].
  apply (inv_move s _ pl m w w (SetRet p errno) [Answered (w_token w) errno]); try done; cbn.
  - by rewrite insert_id.
  - by right.
  - split; [done|]. by apply NoDup_filter.
  - places I Hp Hpl.
  - apply mk_held; try done. cbn. apply elem_of_app. right. by apply list_elem_of_singleton.
  - split; [|unfold sent; rewrite omap_app; cbn; by rewrite app_nil_r].
    apply (fifo_same s _ m w w); try done; cbn; [apply I|by rewrite insert_id| |];
      [unfold sent|unfold received]; rewrite omap_app; cbn; by rewrite app_nil_r.
  - intros p' x. rewrite lookup_insert. case_decide; [done|]. intros Hx. by apply (pwake_same s pl m w w I Hw eq_refl p').
  - by apply (sem_same s pl).
Qed.

Lemma reply_retcode_inv s pl p m e :
  inv s pl -> repliers s !! p = Some (PSet m e) -> exists s' pl', reply_retcode s p m e = Ok s' /\ inv s' pl'.
Proof.
  intros I Hp. assert (Hpl : pl m = SetRet p e) by (by apply (iv_place _ _ I)).
  destruct (live_held s pl m I) as (w & Hw & Hlive & Wok); [by rewrite Hpl|]. unfold reply_retcode, with_msg. rewrite Hlive.
  rewrite Hpl in Wok. destruct (held_facts _ _ _ _ Wok) as (F1 & F2 & F3 & F4 & F5); [done|].
  eexists _, (moved_to pl m (ZeroTok p)). split; [done|].
  apply (inv_move_quiet s _ pl m w (set_im (im_retcode e) w)); try done; cbn.
  - by apply alter_Some.
  - apply I.
  - places I Hp Hpl.
  - apply mk_held; try done. exact (wo_place _ _ _ _ Wok).
  - intros p' x. rewrite lookup_insert. case_decide; [done|]. by apply (pwake_same s pl m w).
  - by apply (sem_same s pl).
Qed.

Lemma reply_token_inv s pl p m :
  inv s pl -> repliers s !! p = Some (PToken m) -> exists s' pl', reply_token s p m = Ok s' /\ inv s' pl'.
Proof.
  intros I Hp. assert (Hpl : pl m = ZeroTok p) by (by apply (iv_place _ _ I)).
  destruct (live_held s pl m I) as (w & Hw & Hlive & Wok); [by rewrite Hpl|]. unfold reply_token, with_msg. rewrite Hlive.
  rewrite Hpl in Wok. pose proof (wo_place _ _ _ _ Wok) as Ha. cbn in Ha.
  eexists _, (moved_to pl m Free). split; [done|].
  apply (inv_move_quiet s _ pl m w (set_im im_token0 w)); try done; cbn.
  - by apply alter_Some.
  - apply I.
  - places I Hp Hpl.
  - destruct Wok. split; try done. by right.
  - intros p' x. rewrite lookup_insert. case_decide; [intros [= <-]; by rewrite decide_True|]. intros Hx. by case_decide.
  - by apply (sem_same s pl).
Qed.

(** The last step of a reply is safe if the writer is still there. *)
Lemma reply_wake_inv s pl p m :
  inv s pl -> repliers s !! p = Some (PWake m) ->
  reply_wake s p m = Wrong (LateWake m) \/ exists s' pl', reply_wake s p m = Ok s' /\ inv s' pl'.
Proof.
  intros I Hp. unfold reply_wake. destruct (live s m) as [i|] eqn:Hlive; [right|by left].
  destruct (iv_pwake _ _ I p m Hp) as (w & Hw & Ht0). pose proof (iv_writer _ _ I m w Hw) as Wok. pose proof (wo_tok _ _ _ _ Wok) as Htok.
  assert (Ha : Answered (w_token w) (retcode (w_msg w)) ∈ notes s) by (destruct (wo_token _ _ _ _ Wok) as [?|[_ ?]]; [lia|done]).
  assert (Hpl : pl m = Free).
  { destruct (held (pl m)) eqn:Hh; [|by destruct (pl m)]. destruct (wo_held _ _ _ _ Wok Hh) as (_ & E & _). lia. }
  eexists _, (moved_to pl m Free). split; [done|]. apply (inv_move_quiet s _ pl m w (woken w)); try done; cbn.
  - by apply alter_Some.
  - apply I.
  - places I Hp Hpl.
  - by apply (woken_ok _ _ (pl m)).
  - intros p' x. rewrite lookup_insert. case_decide; [done|]. by apply (pwake_same s pl m w).
  - by apply (sem_same s pl).
Qed.

(** A step of the readers that touches no message. *)
Lemma inv_reader s s' pl :
  inv s pl -> rclosed s' = rclosed s -> event_token s' = event_token s -> pending_list s' = pending_list s ->
  processing_list s' = processing_list s -> writers s' = writers s -> repliers s' = repliers s -> notes s' = notes s ->
  (forall P x, P <> Free -> at_place s' P x <-> at_place s P x) ->
  (NoDup (isem_waiters s') /\ forall r, r ∈ isem_waiters s' -> readers s' !! r = Some RSem) -> inv s' pl.
Proof.
  intros [I1 I2 I3 I4 I5 I6 I7 I8 I9 I10 I11 I12 I14 I13] E1 E2 E3 E4 E5 E6 E7 Hpl Hsem.
  split; rewrite ?E1, ?E2, ?E3, ?E4, ?E5, ?E6, ?E7; try done.
  - intros P m HP. by rewrite Hpl, I4.
  - destruct I10 as (l & H1 & H2). exists l. by rewrite E7, E5, E3.
Qed.

(** A reader between two program points without a message. *)
Definition handless (pc : option rpc) : bool :=
  match pc with Some (RClaim _) | Some (RCopy _) | Some (RWake _) => false | _ => true end.

Lemma places_goto s s' r pc' :
  pending_list s' = pending_list s -> processing_list s' = processing_list s -> repliers s' = repliers s ->
  readers s' = <[r := pc']> (readers s) -> handless (readers s !! r) = true -> handless (Some pc') = true ->
  forall P x, P <> Free -> at_place s' P x <-> at_place s P x.
Proof.
  intros E1 E2 E3 E4 H1 H2 P x HP. destruct P; cbn; rewrite ?E1, ?E2, ?E3, ?E4, ?lookup_insert; try done; case_decide; try done; subst;
    split; intros E; rewrite ?E in H1; simplify_eq; done.
Qed.

Lemma recv_start_inv s pl r block : inv s pl -> readers s !! r = None -> exists s', recv_start s r block = Ok s' /\ inv s' pl.
Proof.
  intros I Hr. unfold recv_start. rewrite Hr. destruct (iv_sem _ _ I) as [S1 S2].
  destruct (wclosed s); [|destruct block]; (eexists; split; [done|]);
    (apply (inv_reader s); try done; [eapply places_goto; cbn; try done; by rewrite Hr|]); cbn; (split; [exact S1|]);
    intros x Hx; rewrite lookup_insert_ne by (intros ->; apply S2 in Hx; congruence); by apply S2.
Qed.

Lemma recv_pend_inv s pl r : inv s pl -> readers s !! r = Some RPend -> exists s', recv_pend s r = Ok s' /\ inv s' pl.
Proof.
  intros I Hr. unfold recv_pend. destruct (iv_sem _ _ I) as [S1 S2].
  assert (Hsem : forall pc, forall x, x ∈ isem_waiters s -> <[r := pc]> (readers s) !! x = Some RSem).
  { intros pc x Hx. rewrite lookup_insert. case_decide; [|by apply S2]. subst x. apply S2 in Hx. congruence. }
  destruct (0 <? isem_cnt s); (eexists; split; [done|]);
    (apply (inv_reader s); try done; [eapply places_goto; cbn; try done; by rewrite Hr|]); cbn; try (split; [exact S1|apply Hsem]).
  split; [apply NoDup_app; split; [done|]; split; [|apply NoDup_singleton]|].
  - intros x Hx E. apply list_elem_of_singleton in E. subst x. apply S2 in Hx. congruence.
  - intros x [Hx|Hx]%elem_of_app; [by apply Hsem|]. apply list_elem_of_singleton in Hx. subst x. apply lookup_insert_eq.
Qed.

Lemma recv_timeout_inv s pl r : inv s pl -> readers s !! r = Some RSem -> exists s', recv_timeout s r = Ok s' /\ inv s' pl.
Proof.
  intros I Hr. eexists. split; [done|]. destruct (iv_sem _ _ I) as [S1 S2].
  apply (inv_reader s); try done; [eapply places_goto; cbn; try done; by rewrite Hr|]. cbn. split; [by apply NoDup_filter|].
  intros x [Hne Hx]%list_elem_of_filter. rewrite lookup_insert_ne by done. by apply S2.
Qed.

Lemma pop_inv s pl r : inv s pl -> readers s !! r = Some RPop -> exists s' pl', recv_pop s r = Ok s' /\ inv s' pl'.
Proof.
  intros I Hr. unfold recv_pop. destruct (pending_list s) as [|m l] eqn:Ep.
  { eexists _, pl. split; [done|]. apply (inv_reader s); try done; [eapply places_goto; cbn; try done; by rewrite Hr|].
    by apply (sem_goto s pl r RPop). }
  assert (Hpl : pl m = Pend) by (apply (iv_place _ _ I); [done|]; cbn; rewrite Ep; by left).
  destruct (live_held s pl m I) as (w & Hw & Hlive & Wok); [by rewrite Hpl|]. unfold with_msg. rewrite Hw, Hlive. rewrite Hpl in Wok.
  destruct (wo_place _ _ _ _ Wok) as [Hst Hna]. destruct (held_facts _ _ _ _ Wok) as (F1 & F2 & F3 & F4 & F5); [done|].
  destruct (iv_nodup _ _ I) as [Hn1 Hn2]. rewrite Ep in Hn1. apply NoDup_cons in Hn1 as [Hml Hn1].
  eexists _, (moved_to pl m (Claim r)). split; [done|].
  apply (inv_move s _ pl m w w (Claim r) [Received (w_token w)]); try done; cbn.
  - by rewrite insert_id.
  - by left.
  - intros P x HP. pose proof (iv_place _ _ I P x HP) as H1. destruct (decide (P = Pend)) as [->|HPne].
    + cbn in *. rewrite Ep in H1. case_decide; [subst x; split; done|]. rewrite Ep, elem_of_cons. tauto.
    + revert P x HP H1 HPne. clear - I Hr Hpl. intros P x HP H1 HPne. pose proof (iv_place _ _ I P m HP) as H2.
      destruct P; try done; cbn in *; clear - H1 H2 Hr Hpl; rewrite ?lookup_insert; repeat case_decide; subst; intuition congruence.
  - apply (writer_ok_mono _ [Received (w_token w)] (event_token s) (event_token s)) in Wok; [|lia|intros H; inversion H]. by destruct Wok; split.
  - split; [|unfold sent; rewrite omap_app; cbn; by rewrite app_nil_r]. destruct (iv_fifo _ _ I) as (ts & Es & F). rewrite Ep in F.
    apply Forall2_cons_inv_l in F as (t & ts' & Ht & F & ->). rewrite Hw in Ht. injection Ht as <-. exists ts'. split; [|done].
    cbn. unfold sent, received in *. rewrite !omap_app, Es. cbn. by rewrite app_nil_r, <- app_assoc.
  - by apply (pwake_same s pl m w).
  - by apply (sem_goto s pl r RPop).
Qed.

Lemma token_next c : 0 < c < 2 ^ 32 - 1 -> new_event_token c 0 = (c, (c + 1, 0)).
Proof.
  intros Hc. unfold new_event_token. rewrite !wrap_small by lia. destruct (Z.eqb_spec c 0); [lia|done].
Qed.

Lemma fresh_place s pl m : inv s pl -> writers s !! m = None -> pl m = Free.
Proof.
  intros I Hm. destruct (held (pl m)) eqn:Hh; [|by destruct (pl m)]. destruct (iv_exists _ _ I m Hh) as (w & Hw). congruence.
Qed.

Lemma send_inv s pl m :
  inv s pl -> writers s !! m = None -> event_token s < 2 ^ 32 - 1 -> exists s' pl', send_enqueue s m true = Ok s' /\ inv s' pl'.
Proof.
  intros I Hm Hc. pose proof (fresh_place s pl m I Hm) as Hpl. unfold send_enqueue. rewrite Hm, (iv_open _ _ I).
  destruct I as [I1 I2 I3 I4 I5 I6 I7 I8 I9 I10 I11 I12 I14 I13]. rewrite token_next by lia. set (c := event_token s) in *.
  eexists _, (moved_to pl m Pend). split; [done|].
  assert (Hnp : forall P, P <> Free -> ~ at_place s P m) by (intros P HP H; apply I4 in H; [congruence|done]).
  assert (Hlook : forall x v, <[m := mk_writer (imsg_init c) WNotify true c]> (writers s) !! x = Some v ->
            (x = m /\ v = mk_writer (imsg_init c) WNotify true c) \/ (x <> m /\ writers s !! x = Some v)).
  { intros x v. rewrite lookup_insert. case_decide; [subst x; intros [= <-]; by left|by right]. }
  split; cbn; try done.
  - lia.
  - split; [|apply I3]. apply NoDup_app. split; [apply I3|]. split; [|apply NoDup_singleton].
    intros x Hx E. apply list_elem_of_singleton in E. subst x. by apply (Hnp Pend).
  - intros P x HP. unfold moved_to. pose proof (I4 P x HP) as H1. specialize (Hnp P HP). destruct P; try done; cbn in *;
      rewrite ?elem_of_app, ?list_elem_of_singleton; case_decide; subst; intuition congruence.
  - intros x v Hv. destruct (Hlook x v Hv) as [[-> ->]|[Hne Hv']].
    + rewrite moved_here. apply mk_held; cbn; try done; [lia|]. split; [done|]. rewrite answers_app, app_nil_r. intros H. apply I9 in H. lia.
    + rewrite moved_there by done. apply (writer_ok_mono _ _ c); [by apply I5|lia|intros H; inversion H].
  - intros x Hx. rewrite lookup_insert. case_decide; [done|]. rewrite moved_there in Hx by congruence. by apply I6.
  - intros x y v v' Hv Hv'. destruct (Hlook x v Hv) as [[-> ->]|[Hx Hvx]], (Hlook y v' Hv') as [[-> ->]|[Hy Hvy]]; [done| | |by apply I7]; cbn; intros E.
    + pose proof (wo_tok _ _ _ _ (I5 y v' Hvy)). lia.
    + pose proof (wo_tok _ _ _ _ (I5 x v Hvx)). lia.
  - by rewrite answers_app, app_nil_r.
  - intros t. rewrite answers_app, app_nil_r. intros Ht. apply I9 in Ht. lia.
  - destruct I10 as (l & Es & F). exists (l ++ [c]). cbn. unfold sent, received in *. rewrite !omap_app, Es. cbn. rewrite app_nil_r, <- app_assoc.
    split; [done|]. apply Forall2_app; [|constructor; [by rewrite lookup_insert_eq|constructor]].
    eapply Forall2_impl; [done|]. cbn. intros x t Hx. rewrite lookup_insert_ne; [done|]. intros ->. by rewrite Hm in Hx.
  - intros t. unfold sent. rewrite omap_app, elem_of_app. intros [Ht|Ht]; [apply I11 in Ht; lia|]. cbn in Ht. apply list_elem_of_singleton in Ht. lia.
  - unfold sent. rewrite omap_app. cbn. apply NoDup_app. split; [done|]. split; [|apply NoDup_singleton].
    intros t Ht E. apply list_elem_of_singleton in E. subst t. apply I11 in Ht. lia.
  - intros p x Hp. destruct (I14 p x Hp) as (v & Hv & Ht). exists v. rewrite lookup_insert_ne; [done|congruence].
Qed.

(** A step of a writer that leaves its message in its place. *)
Lemma inv_writer_step s s' pl m w w' :
  inv s pl -> writers s !! m = Some w -> writers s' = <[m := w']> (writers s) -> rclosed s' = rclosed s ->
  event_token s' = event_token s -> w_token w' = w_token w -> token (w_msg w') = token (w_msg w) -> notes s' = notes s ->
  pending_list s' = pending_list s -> processing_list s' = processing_list s -> repliers s' = repliers s -> readers s' = readers s ->
  isem_waiters s' = isem_waiters s -> writer_ok (notes s) (event_token s) (pl m) w' -> exists pl', inv s' pl'.
Proof.
  intros I Hw Ew Ec Et Ewt Etok En Ep Eq Erp Erd Es Hok. exists (moved_to pl m (pl m)).
  apply (inv_move_quiet s s' pl m w w'); try done.
  - rewrite Eq. apply I.
  - intros P x HP. pose proof (iv_place _ _ I P x HP) as H1. destruct P; cbn in H1 |- *; rewrite ?Ep, ?Eq, ?Erp, ?Erd; case_decide; subst; done.
  - rewrite Erp. by apply (pwake_same s pl m w).
  - rewrite Es, Erd. apply I.
Qed.

Lemma notify_inv s pl m w :
  inv s pl -> writers s !! m = Some w -> w_pc w = WNotify -> exists s' pl', send_notify s m = Ok s' /\ inv s' pl'.
Proof.
  intros I Hw Hpc. unfold send_notify. eexists. pose proof (iv_writer _ _ I m w Hw) as Wok.
  assert (I' : inv (if iq_polled s then s else isem_post s) pl).
  { destruct (iq_polled s); [done|]. unfold isem_post. destruct (iv_sem _ _ I) as [S1 S2].
    destruct (isem_waiters s) as [|r rs] eqn:Ews.
    - destruct (_ <? _); [|done]. apply (inv_reader s); try done.
    - apply NoDup_cons in S1 as [Hr S1]. assert (Hrs : readers s !! r = Some RSem) by (apply S2; by left).
      apply (inv_reader s); try done; [eapply places_goto; cbn; try done; by rewrite Hrs|]. cbn. split; [done|].
      intros x Hx. rewrite lookup_insert_ne by (intros ->; done). apply S2. by right. }
  set (s1 := if iq_polled s then s else isem_post s) in *.
  assert (Hw1 : writers s1 !! m = Some w) by (subst s1; destruct (iq_polled s); [done|]; unfold isem_post; repeat case_match; done).
  destruct (inv_writer_step s1 (goto_w s1 m (WCheck false)) pl m w (set_pc (WCheck false) w) I' Hw1) as (pl' & H'); try done; cbn.
  - by apply alter_Some.
  - pose proof (iv_writer _ _ I' m w Hw1) as [H1 H2 H3 H4 H5 H6 H7]. rewrite Hpc in *. split; cbn; try done.
    + left. destruct H3 as [[_ ?]|(v & E & _)]; [done|congruence].
    + intros Hh. destruct (H4 Hh) as (_ & ? & _). done.
  - by exists pl'.
Qed.

(** A writer whose answer is there may return it. *)
Lemma done_ok ns ctr P w w' :
  writer_ok ns ctr P w -> held P = false -> Answered (w_token w) (retcode (w_msg w)) ∈ ns ->
  w' = set_pc (WDone (retcode (w_msg w))) (set_im (im_event Idle) w) -> writer_ok ns ctr P w'.
Proof.
  intros [H1 H2 H3 H4 H5 H6 H7] Hh Ha ->. split; cbn; try done.
  - right. by eexists.
  - by rewrite Hh.
Qed.

Lemma idle_same w : im_ev (w_msg w) = Idle -> set_im (im_event Idle) w = w.
Proof. destruct w as [[]]; cbn. by intros ->. Qed.

Lemma token0_facts ns ctr P w : writer_ok ns ctr P w -> token (w_msg w) = 0 ->
  held P = false /\ Answered (w_token w) (retcode (w_msg w)) ∈ ns.
Proof.
  intros W E. pose proof (wo_tok _ _ _ _ W). split.
  - destruct (held P) eqn:Hh; [|done]. destruct (wo_held _ _ _ _ W Hh) as (_ & ? & _). lia.
  - destruct (wo_token _ _ _ _ W) as [?|[_ ?]]; [lia|done].
Qed.

Lemma check_inv s pl m w again :
  inv s pl -> writers s !! m = Some w -> w_pc w = WCheck again -> exists s' pl', wait_check s m (w_msg w) again false = Ok s' /\ inv s' pl'.
Proof.
  intros I Hw Hpc. pose proof (iv_writer _ _ I m w Hw) as Wok. pose proof (wo_sleep _ _ _ _ Wok) as Hidle. rewrite Hpc in Hidle. cbn in Hidle.
  assert (again = false) as -> by (destruct (wo_pc _ _ _ _ Wok) as [[E _]|(v & E & _)]; rewrite Hpc in E; [by destruct again|done]).
  unfold wait_check. destruct (Z.eqb_spec (token (w_msg w)) 0) as [E0|Hne].
  - destruct (token0_facts _ _ _ _ Wok E0) as [Hh Ha].
    destruct (inv_writer_step s (wait_done s m (w_msg w) false 0) pl m w (set_pc (WDone (retcode (w_msg w))) w) I Hw) as (pl' & I'); try done.
    + by apply alter_Some.
    + eapply done_ok; [exact Wok|done|done|]. by rewrite idle_same.
    + by eexists _, pl'.
  - destruct (inv_writer_step s (goto_w s m (WLock false)) pl m w (set_pc (WLock false) w) I Hw) as (pl' & I'); try done.
    + by apply alter_Some.
    + destruct Wok as [H1 H2 H3 H4 H5 H6 H7]. rewrite Hpc in *. split; cbn; try done.
      * left. destruct H3 as [[_ ?]|(v & E & _)]; done.
      * intros Hh. destruct (H4 Hh) as (_ & ? & _). done.
    + by eexists _, pl'.
Qed.

Lemma lock_inv s pl m w again :
  inv s pl -> writers s !! m = Some w -> w_pc w = WLock again -> exists s' pl', wait_lock s m w again = Ok s' /\ inv s' pl'.
Proof.
  intros I Hw Hpc. pose proof (iv_writer _ _ I m w Hw) as Wok. pose proof (wo_sleep _ _ _ _ Wok) as Hidle. rewrite Hpc in Hidle. cbn in Hidle.
  assert (again = false /\ w_waits w = true) as [-> Hwaits]
    by (destruct (wo_pc _ _ _ _ Wok) as [[E ?]|(v & E & _)]; rewrite Hpc in E; [by destruct again|done]).
  unfold wait_lock. rewrite Hwaits. destruct (Z.eqb_spec (token (w_msg w)) 0) as [E0|Hne].
  - destruct (token0_facts _ _ _ _ Wok E0) as [Hh Ha].
    destruct (inv_writer_step s (wait_done s m (w_msg w) false 0) pl m w (set_pc (WDone (retcode (w_msg w))) w) I Hw) as (pl' & I'); try done.
    + by apply alter_Some.
    + eapply done_ok; [exact Wok|done|done|]. by rewrite idle_same.
    + by eexists _, pl'.
  - set (w' := set_pc (WSleep false) (set_im (im_event Waiting) w)).
    destruct (inv_writer_step s (goto_w (upd_msg s m (im_event Waiting)) m (WSleep false)) pl m w w' I Hw) as (pl' & I'); try done.
    + cbn. rewrite (alter_Some _ (writers s) m w Hw). rewrite (alter_Some _ _ m (set_im (im_event Waiting) w)) by apply lookup_insert_eq.
      by rewrite insert_insert_eq.
    + destruct Wok as [H1 H2 H3 H4 H5 H6 H7]. rewrite Hpc in *. split; cbn; try done.
      * by left.
      * intros Hh. destruct (H4 Hh) as (_ & ? & _). done.
    + by eexists _, pl'.
Qed.

Lemma woken_inv s pl m w again r :
  inv s pl -> writers s !! m = Some w -> w_pc w = WSleep again -> im_ev (w_msg w) = Woken r ->
  exists s' pl', wait_woken s m (w_msg w) again = Ok s' /\ inv s' pl'.
Proof.
  intros I Hw Hpc Hev. pose proof (iv_writer _ _ I m w Hw) as Wok. destruct (wo_woken _ _ _ _ Wok r Hev) as [-> Ha].
  assert (again = false) as -> by (destruct (wo_pc _ _ _ _ Wok) as [[E _]|(v & E & _)]; rewrite Hpc in E; [by destruct again|done]).
  assert (Hh : held (pl m) = false).
  { destruct (held (pl m)) eqn:Hh; [|done]. destruct (wo_held _ _ _ _ Wok Hh) as (_ & _ & E). rewrite E in Hev by done. done. }
  unfold wait_woken. rewrite Hev. set (w' := set_pc (WDone (retcode (w_msg w))) (set_im (im_event Idle) w)).
  destruct (inv_writer_step s (wait_done (upd_msg s m (im_event Idle)) m (w_msg w) false 0) pl m w w' I Hw) as (pl' & I'); try done.
  - cbn. rewrite (alter_Some _ (writers s) m w Hw). rewrite (alter_Some _ _ m (set_im (im_event Idle) w)) by apply lookup_insert_eq.
    by rewrite insert_insert_eq.
  - by eapply done_ok.
  - by eexists _, pl'.
Qed.

Lemma close_write_inv s pl : inv s pl -> inv (close_write s) pl.
Proof.
  intros I. unfold close_write. destruct (mutil_writer s); [done|]. unfold isem_abort. destruct (iv_sem _ _ I) as [_ S2]. cbn.
  set (s0 := set_sem _ _ []). assert (I0 : inv s0 pl) by (apply (inv_reader s); try done; by split; [constructor|intros r H; inversion H]).
  assert (Hw : forall r, r ∈ isem_waiters s -> handless (readers s0 !! r) = true) by (intros r Hr; apply S2 in Hr; cbn; by rewrite Hr).
  assert (He : isem_waiters s0 = []) by done.
  clearbody s0. clear S2 I. revert s0 I0 Hw He. induction (isem_waiters s) as [|r rs IH]; intros s0 I0 Hw He; [done|]. cbn. apply IH; [| |done].
  - apply (inv_reader s0); try done.
    + eapply places_goto; cbn; try done. apply Hw. by left.
    + cbn. rewrite He. split; [constructor|intros x H; inversion H].
  - intros x Hx. cbn. rewrite lookup_insert. case_decide; [done|]. apply Hw. by right.
Qed.

(** ** Every step of cooperating parties *)

Lemma ipc_step_inv s pl l :
  inv s pl -> coop s l ->
  match step s l with
  | Ok s' => exists pl', inv s' pl'
  | Blocked => True
  | Wrong f => exists p m w v, f = LateWake m /\ l = LReplyWake p /\ writers s !! m = Some w /\ w_pc w = WDone v
  end.
Proof.
  intros IV Hc.
  assert (Hok : forall res, (exists s' pl', res = Ok s' /\ inv s' pl') ->
    match res with Ok s' => exists pl', inv s' pl' | Blocked => True
    | Wrong f => exists p m w v, f = LateWake m /\ l = LReplyWake p /\ writers s !! m = Some w /\ w_pc w = WDone v end)
    by (intros res (s' & pl' & -> & ?); by exists pl').
  destruct l as [m waits|m|m stop|m|m|m|m|m|m linked|r block|r|r|r|r|r ret|r|p t e|p|p|p| | |]; cbn [step coop] in *; unfold at_writer; try done.
  - destruct Hc as [-> Hc]. destruct (writers s !! m) as [w|] eqn:Hm; [unfold send_enqueue; by rewrite Hm|]. apply Hok. by apply (send_inv s pl m).
  - destruct (writers s !! m) as [w|] eqn:Hw; [|done]. destruct (w_pc w) eqn:Hpc; try done. apply Hok. by apply (notify_inv s pl m w).
  - subst stop. destruct (writers s !! m) as [w|] eqn:Hw; [|done]. destruct (w_pc w) eqn:Hpc; try done. apply Hok. by apply (check_inv s pl m w).
  - destruct (writers s !! m) as [w|] eqn:Hw; [|done]. destruct (w_pc w) eqn:Hpc; try done. apply Hok. by apply (lock_inv s pl m w).
  - destruct (writers s !! m) as [w|] eqn:Hw; [|done]. destruct (w_pc w) eqn:Hpc; try done.
    destruct (im_ev (w_msg w)) eqn:Hev; [unfold wait_woken; by rewrite Hev|unfold wait_woken; by rewrite Hev|]. apply Hok. by eapply (woken_inv s pl m w).
  - destruct (writers s !! m) as [w|] eqn:Hw; [|done]. destruct (w_pc w) eqn:Hpc; try done.
    exfalso. destruct (wo_pc _ _ _ _ (iv_writer _ _ IV m w Hw)) as [[E _]|(v & E & _)]; rewrite Hpc in E; done.
  - destruct (writers s !! m) as [w|] eqn:Hw; [|done]. destruct (w_pc w) eqn:Hpc; try done.
    exfalso. destruct (wo_pc _ _ _ _ (iv_writer _ _ IV m w Hw)) as [[E _]|(v & E & _)]; rewrite Hpc in E; done.
  - destruct (writers s !! m) as [w|] eqn:Hw; [|done]. destruct (w_pc w) eqn:Hpc; try done.
    exfalso. destruct (wo_pc _ _ _ _ (iv_writer _ _ IV m w Hw)) as [[E _]|(v & E & _)]; rewrite Hpc in E; done.
  - destruct (readers s !! r) as [pc|] eqn:Hr; [unfold recv_start; by rewrite Hr|].
    destruct (recv_start_inv s pl r block IV Hr) as (s' & -> & ?). by exists pl.
  - destruct (readers s !! r) as [[]|] eqn:Hr; try done. destruct (recv_pend_inv s pl r IV Hr) as (s' & -> & ?). by exists pl.
  - destruct (readers s !! r) as [[]|] eqn:Hr; try done. destruct (recv_timeout_inv s pl r IV Hr) as (s' & -> & ?). by exists pl.
  - destruct (readers s !! r) as [[]|] eqn:Hr; try done. apply Hok. by apply (pop_inv s pl).
  - destruct (readers s !! r) as [[]|] eqn:Hr; try done. destruct (claim_inv s pl r m IV Hr) as (s' & -> & ?). by eexists.
  - destruct (readers s !! r) as [[]|] eqn:Hr; try done. apply Hok. by apply (copy_inv s pl).
  - destruct (readers s !! r) as [[]|] eqn:Hr; try done. apply Hok. by apply (recv_wake_inv s pl).
  - destruct Hc as (m & Hm & Ht). destruct (repliers s !! p) as [pc|] eqn:Hp; [unfold reply_find; by rewrite Hp|]. apply Hok. by apply (reply_find_inv s pl p t e m).
  - destruct (repliers s !! p) as [[]|] eqn:Hp; try done. apply Hok. by apply (reply_retcode_inv s pl).
  - destruct (repliers s !! p) as [[]|] eqn:Hp; try done. apply Hok. by apply (reply_token_inv s pl).
  - destruct (repliers s !! p) as [[]|] eqn:Hp; try done. destruct (reply_wake_inv s pl p m IV Hp) as [E|Hex]; [|by apply Hok].
    rewrite E. destruct (iv_pwake _ _ IV p m Hp) as (w & Hw & _). unfold reply_wake, live in E. rewrite Hw in E.
    destruct (w_pc w) eqn:Hpc; try discriminate. by exists p, m, w, ret.
  - by exists pl; apply close_write_inv.
Qed.

Definition reachable (mutil polled : bool) (s : iqueue) : Prop := rtc coop_step (iqueue_init mutil polled) s.

Lemma reachable_inv mutil polled s : reachable mutil polled s -> exists pl, inv s pl.
Proof.
  unfold reachable. intros H. remember (iqueue_init mutil polled) as s0. assert (H0 : exists pl, inv s0 pl) by (subst; eexists; apply init_inv).
  clear Heqs0. induction H as [s|s1 s2 s3 (l & Hc & Hs) _ IH]; [done|]. apply IH. destruct H0 as (pl & IV).
  pose proof (ipc_step_inv s1 pl l IV Hc) as Hstep. by rewrite Hs in Hstep.
Qed.

Lemma answer_unique ns t v v' : NoDup (answers ns) -> Answered t v ∈ ns -> Answered t v' ∈ ns -> v = v'.
Proof.
  induction ns as [|n ns IH]; intros Hnd H1 H2; [inversion H1|]. change (n :: ns) with ([n] ++ ns) in Hnd. rewrite answers_app in Hnd.
  apply NoDup_app in Hnd as (_ & Hdis & Hnd).
  assert (Hne : forall u, n = Answered t u -> t ∈ answers ns -> False) by (intros u -> Hin; by apply (Hdis t); [left|]).
  apply elem_of_cons in H1 as [E1|H1], H2 as [E2|H2]; [congruence| | |by apply IH].
  - exfalso. apply (Hne v); [done|]. by apply (answered_in _ t v').
  - exfalso. apply (Hne v'); [done|]. by apply (answered_in _ t v).
Qed.

(** ** Messages and permits

    With readers that block on the semaphore and no poll structure, each message is worth one permit. *)

Definition at_pop (pc : rpc) : bool := match pc with RPop => true | _ => false end.
Definition at_notify (w : writer) : bool := match w_pc w with WNotify => true | _ => false end.

Record permits (s : iqueue) : Prop := {
  pm_polled : iq_polled s = false;
  pm_cnt : 0 <= isem_cnt s;
  pm_eq : isem_cnt s + tally at_pop (readers s) + tally at_notify (writers s) = Z.of_nat (length (pending_list s));
  pm_wait : isem_waiters s <> [] -> isem_cnt s = 0;
  pm_room : Z.of_nat (length (pending_list s)) < 2 ^ 31 - 1;
}.

(** Besides [coop]: readers block, the count of the semaphore cannot overflow, and the writing side is
    not given up by its only writer. *)
Definition blocking (s : iqueue) (l : label) : Prop :=
  coop s l /\
  match l with
  | LRecv _ block => block = true
  | LSend _ _ => Z.of_nat (length (pending_list s)) < 2 ^ 31 - 2
  | LCloseWrite => mutil_writer s = true
  | _ => True
  end.

Lemma permits_same s s' :
  permits s -> iq_polled s' = iq_polled s -> isem_cnt s' = isem_cnt s -> isem_waiters s' = isem_waiters s ->
  pending_list s' = pending_list s -> tally at_pop (readers s') = tally at_pop (readers s) ->
  tally at_notify (writers s') = tally at_notify (writers s) -> permits s'.
Proof. intros [H1 H2 H3 H4 H5] E1 E2 E3 E4 E5 E6. split; rewrite ?E1, ?E2, ?E3, ?E4, ?E5, ?E6; done. Qed.

Lemma tally_alter (f : writer -> writer) m (ws : gmap nat writer) :
  (forall w, at_notify (f w) = at_notify w) -> tally at_notify (alter f m ws) = tally at_notify ws.
Proof.
  intros Hf. destruct (ws !! m) as [w|] eqn:Hw.
  - rewrite (alter_Some f ws m w Hw), (tally_insert at_notify ws m _ w Hw), Hf. lia.
  - f_equal. apply map_eq. intros j. destruct (decide (j = m)) as [->|]; [by rewrite lookup_alter_eq, Hw|by rewrite lookup_alter_ne].
Qed.

Lemma tally_goto_w s m w pc :
  writers s !! m = Some w -> tally at_notify (writers (goto_w s m pc)) =
  tally at_notify (writers s) - Z.b2z (at_notify w) + Z.b2z (match pc with WNotify => true | _ => false end).
Proof. intros Hw. cbn. by rewrite (alter_Some _ _ _ _ Hw), (tally_insert at_notify _ m _ w Hw). Qed.

Lemma tally_goto_r s r pc pc' :
  readers s !! r = Some pc -> tally at_pop (readers (goto_r s r pc')) = tally at_pop (readers s) - Z.b2z (at_pop pc) + Z.b2z (at_pop pc').
Proof. intros Hr. cbn. by rewrite (tally_insert at_pop _ r _ pc Hr). Qed.

Lemma tally_event s m w e pc :
  writers s !! m = Some w -> at_notify w = false -> (match pc with WNotify => true | _ => false end) = false ->
  tally at_notify (writers (goto_w (upd_msg s m (im_event e)) m pc)) = tally at_notify (writers s).
Proof.
  intros Hw Hn Hpc. rewrite (tally_goto_w (upd_msg s m (im_event e)) m (set_im (im_event e) w) pc) by (cbn; by rewrite lookup_alter_eq, Hw).
  rewrite Hpc. unfold at_notify in Hn. unfold at_notify at 2. cbn [w_pc set_im]. rewrite Hn.
  cbn [writers upd_msg set_writers]. rewrite tally_alter by done. cbn. lia.
Qed.

Lemma permits_post s m w :
  permits s -> writers s !! m = Some w -> w_pc w = WNotify ->
  (forall r, r ∈ isem_waiters s -> readers s !! r = Some RSem) -> permits (goto_w (isem_post s) m (WCheck false)).
Proof.
  intros [H1 H2 H3 H4 H5] Hw Hpc S2. pose proof (tally_nonneg at_pop (readers s)). pose proof (tally_pos at_notify (writers s) m w Hw ltac:(unfold at_notify; by rewrite Hpc)).
  assert (Hn : at_notify w = true) by (unfold at_notify; by rewrite Hpc). unfold isem_post. destruct (isem_waiters s) as [|r rs] eqn:Ew.
  - destruct (Z.ltb_spec (isem_cnt s) (2 ^ 31 - 1)); [|lia]. split; try done; [cbn; lia|].
    rewrite (tally_goto_w (set_sem s (isem_cnt s + 1) []) m w) by done. rewrite Hn. cbn. lia.
  - assert (Hr : readers s !! r = Some RSem) by (apply S2; by left). split; try done; [|by intros _; apply H4].
    rewrite (tally_goto_w (goto_r (set_sem s (isem_cnt s) rs) r RPop) m w) by done. rewrite Hn.
    cbn [readers goto_w set_writers isem_cnt pending_list writers goto_r set_readers set_sem].
    rewrite (tally_insert at_pop _ r _ RSem Hr). cbn. lia.
Qed.

(** Steps that touch neither the semaphore nor the pending list. *)
Ltac quiet Hp := apply (permits_same _ _ Hp); try done; cbn; rewrite ?tally_alter by done; try done.

Lemma permits_step s pl l s' : inv s pl -> permits s -> blocking s l -> step s l = Ok s' -> permits s'.
Proof.
  intros IV Hp [Hc Hb] Hs. destruct (iv_sem _ _ IV) as [S1 S2].
  assert (Hwr : forall m w pc, writers s !! m = Some w -> at_notify w = false -> (match pc with WNotify => true | _ => false end) = false ->
            tally at_notify (alter (set_pc pc) m (writers s)) = tally at_notify (writers s)).
  { intros m w pc Hw H1 H2. pose proof (tally_goto_w s m w pc Hw) as E. cbn in E. rewrite E, H1, H2. cbn. lia. }
  assert (Hrd : forall r pc pc', readers s !! r = Some pc -> at_pop pc = false -> at_pop pc' = false ->
            tally at_pop (<[r := pc']> (readers s)) = tally at_pop (readers s)).
  { intros r pc pc' Hr H1 H2. rewrite (tally_insert at_pop _ r _ pc Hr), H1, H2. cbn. lia. }
  destruct l as [m waits|m|m stop|m|m|m|m|m|m linked|r block|r|r|r|r|r ret|r|p t e|p|p|p| | |]; cbn [step coop] in *; unfold at_writer in Hs; try done.
  - destruct (writers s !! m) as [w|] eqn:Hm; unfold send_enqueue in Hs; rewrite Hm in Hs; [done|]. rewrite (iv_open _ _ IV) in Hs.
    rewrite token_next in Hs by (pose proof (iv_ctr _ _ IV); lia). injection Hs as <-. destruct Hp as [H1 H2 H3 H4 H5].
    split; try done; cbn; [|rewrite length_app; cbn; lia]. rewrite tally_insert_fresh, length_app by done. cbn. lia.
  - destruct (writers s !! m) as [w|] eqn:Hw; [|done]. destruct (w_pc w) eqn:Hpc; try done. unfold send_notify in Hs. rewrite (pm_polled _ Hp) in Hs.
    injection Hs as <-. by apply (permits_post s m w).
  - destruct (writers s !! m) as [w|] eqn:Hw; [|done]. destruct (w_pc w) eqn:Hpc; try done. unfold wait_check in Hs. rewrite Hc in Hs.
    assert (Hn : at_notify w = false) by (unfold at_notify; by rewrite Hpc). unfold wait_done in Hs.
    repeat case_match; simplify_eq; (apply (permits_same _ _ Hp); try done; cbn; by eapply Hwr).
  - destruct (writers s !! m) as [w|] eqn:Hw; [|done]. destruct (w_pc w) eqn:Hpc; try done. unfold wait_lock, wait_done in Hs.
    assert (Hn : at_notify w = false) by (unfold at_notify; by rewrite Hpc).
    repeat case_match; simplify_eq; (apply (permits_same _ _ Hp); try done; first [by apply (tally_event s m w)|by eapply Hwr]).
  - destruct (writers s !! m) as [w|] eqn:Hw; [|done]. destruct (w_pc w) eqn:Hpc; try done. unfold wait_woken in Hs.
    assert (Hn : at_notify w = false) by (unfold at_notify; by rewrite Hpc).
    destruct (im_ev (w_msg w)); simplify_eq. apply (permits_same _ _ Hp); try done. apply (tally_event s m w); try done. by destruct (_ || _).
  - destruct (writers s !! m) as [w|] eqn:Hw; [|done]. destruct (w_pc w) eqn:Hpc; try done. unfold send_error in Hs.
    exfalso. destruct (wo_pc _ _ _ _ (iv_writer _ _ IV m w Hw)) as [[E _]|(v & E & _)]; rewrite Hpc in E; done.
  - destruct (writers s !! m) as [w|] eqn:Hw; [|done]. destruct (w_pc w) eqn:Hpc; try done.
    exfalso. destruct (wo_pc _ _ _ _ (iv_writer _ _ IV m w Hw)) as [[E _]|(v & E & _)]; rewrite Hpc in E; done.
  - destruct (writers s !! m) as [w|] eqn:Hw; [|done]. destruct (w_pc w) eqn:Hpc; try done.
    exfalso. destruct (wo_pc _ _ _ _ (iv_writer _ _ IV m w Hw)) as [[E _]|(v & E & _)]; rewrite Hpc in E; done.
  - destruct (readers s !! r) as [pc|] eqn:Hr; unfold recv_start in Hs; rewrite Hr in Hs; [done|]. subst block.
    destruct (wclosed s); injection Hs as <-; apply (permits_same _ _ Hp); try done; cbn; by rewrite tally_insert_fresh.
  - destruct (readers s !! r) as [[]|] eqn:Hr; try done. unfold recv_pend in Hs. destruct Hp as [H1 H2 H3 H4 H5].
    destruct (Z.ltb_spec 0 (isem_cnt s)); injection Hs as <-; split; try done; cbn; try lia; try (rewrite (tally_insert at_pop _ r _ RPend Hr); cbn; lia).
    intros Hne. apply H4 in Hne. lia.
  - destruct (readers s !! r) as [[]|] eqn:Hr; try done. injection Hs as <-. destruct Hp as [H1 H2 H3 H4 H5]. split; try done; cbn; [by erewrite Hrd|].
    intros Hne. apply H4. intros E. by rewrite E in Hne.
  - destruct (readers s !! r) as [[]|] eqn:Hr; try done. unfold recv_pop in Hs. destruct Hp as [H1 H2 H3 H4 H5].
    destruct (pending_list s) as [|m ms] eqn:Ep.
    + pose proof (tally_pos at_pop (readers s) r RPop Hr eq_refl). pose proof (tally_nonneg at_notify (writers s)). cbn in H3. lia.
    + unfold with_msg in Hs. destruct (writers s !! m), (live s m); try done. injection Hs as <-. split; try done; cbn; [|cbn in H5; lia].
      rewrite (tally_insert at_pop _ r _ RPop Hr). cbn in *. lia.
  - destruct (readers s !! r) as [[]|] eqn:Hr; try done. unfold recv_claim, with_msg in Hs. destruct (live s m) as [i|]; [|done].
    destruct (im_state i); injection Hs as <-; quiet Hp; by eapply Hrd.
  - destruct (readers s !! r) as [[]|] eqn:Hr; try done. unfold recv_copy, with_msg in Hs. destruct (live s m) as [i|]; [|done].
    destruct (ret <? 0); injection Hs as <-; quiet Hp; by eapply Hrd.
  - destruct (readers s !! r) as [[]|] eqn:Hr; try done. unfold recv_wake, with_msg in Hs. destruct (live s m) as [i|]; [|done].
    injection Hs as <-; quiet Hp; by eapply Hrd.
  - unfold reply_find in Hs. destruct (repliers s !! p); [done|]. destruct (list_find _ _) as [[? ?]|]; [|done]. injection Hs as <-. quiet Hp.
  - destruct (repliers s !! p) as [[]|] eqn:Hr; try done. unfold reply_retcode, with_msg in Hs. destruct (live s m); [|done]. injection Hs as <-. quiet Hp.
  - destruct (repliers s !! p) as [[]|] eqn:Hr; try done. unfold reply_token, with_msg in Hs. destruct (live s m); [|done]. injection Hs as <-. quiet Hp.
  - destruct (repliers s !! p) as [[]|] eqn:Hr; try done. unfold reply_wake in Hs. destruct (live s m); [|done]. injection Hs as <-. quiet Hp.
  - injection Hs as <-. unfold close_write. by rewrite Hb.
Qed.

Definition blocking_step (s s' : iqueue) : Prop := exists l, blocking s l /\ step s l = Ok s'.

Lemma blocking_permits mutil s : rtc blocking_step (iqueue_init mutil false) s -> permits s.
Proof.
  intros H. remember (iqueue_init mutil false) as s0.
  assert (H0 : (exists pl, inv s0 pl) /\ permits s0) by (subst; split; [eexists; apply init_inv|by split]).
  clear Heqs0. induction H as [s|s1 s2 s3 (l & Hb & Hs) _ IH]; [apply H0|]. apply IH. destruct H0 as ((pl & IV) & Hp).
  pose proof (ipc_step_inv s1 pl l IV (proj1 Hb)) as Hstep. rewrite Hs in Hstep. split; [done|]. by apply (permits_step s1 pl l).
Qed.

(** ** Sleeping senders

    As long as the data of every message can be copied, a sender that has no answer yet has its message
    in somebody's hands, and a sender that sleeps is about to be woken once the token is cleared. *)

Definition in_hand (s : iqueue) (m : nat) : Prop := exists P, P <> Free /\ at_place s P m.

Definition served (s : iqueue) (m : nat) (w : writer) : Prop :=
  waiting_pc (w_pc w) = true ->
  in_hand s m \/ token (w_msg w) = 0 /\ (im_ev (w_msg w) = Waiting -> exists p, repliers s !! p = Some (PWake m)).

Record guarded (s : iqueue) : Prop := {
  gd_served : forall m w, writers s !! m = Some w -> served s m w;
  gd_copied : forall r m, readers s !! r <> Some (RWake m);
}.

Definition readable (s : iqueue) (l : label) : Prop :=
  coop s l /\ match l with LCopy _ ret => 0 <= ret | _ => True end.

(** What the other senders rely on stays. *)
Definition kept (s s' : iqueue) (x : nat) : Prop :=
  (forall P, P <> Free -> at_place s P x -> at_place s' P x) /\
  (forall p, repliers s !! p = Some (PWake x) -> repliers s' !! p = Some (PWake x)).

Lemma served_kept s s' x w : kept s s' x -> served s x w -> served s' x w.
Proof.
  intros [K1 K2] H Hpc. destruct (H Hpc) as [(P & HP & Hx)|[Ht Hev]]; [left; exists P; by auto|]. right. split; [done|].
  intros E. destruct (Hev E) as (p & Hp). exists p. by auto.
Qed.

Lemma guarded_step s s' m w' :
  guarded s -> (forall x, x <> m -> writers s' !! x = writers s !! x) -> (forall w, writers s' !! m = Some w -> w = w') ->
  (forall x, x <> m -> kept s s' x) -> (forall r x, readers s' !! r <> Some (RWake x)) -> served s' m w' -> guarded s'.
Proof.
  intros [G1 G2] Ew Em Hk Hr Hs. split; [|done]. intros x w Hw. destruct (decide (x = m)) as [->|Hx]; [by rewrite (Em w Hw)|].
  rewrite Ew in Hw by done. apply (served_kept s); [by apply Hk|by apply G1].
Qed.

Lemma guarded_readers s s' :
  guarded s -> writers s' = writers s -> repliers s' = repliers s ->
  (forall P x, P <> Free -> at_place s' P x <-> at_place s P x) -> guarded s'.
Proof.
  intros [G1 G2] Ew Er Hp. split.
  - intros m w Hw. rewrite Ew in Hw. apply (served_kept s); [|by apply G1]. split; [intros P HP; by apply Hp|by rewrite Er].
  - intros r m E. by apply (G2 r m), (Hp (FailWake r) m).
Qed.

(** The hands of the other messages after a step, case by case. *)
Ltac keep Hr :=
  let P := fresh "P" in let HP := fresh "HP" in
  split; [intros P HP; destruct P; try done|intros ?]; cbn; clear - Hr;
  rewrite ?lookup_insert, ?elem_of_app, ?list_elem_of_filter, ?list_elem_of_singleton; repeat case_decide; subst; intuition congruence.

Lemma guarded_writer s s' m w w' :
  guarded s -> writers s !! m = Some w -> writers s' = <[m := w']> (writers s) ->
  pending_list s' = pending_list s -> processing_list s' = processing_list s -> readers s' = readers s -> repliers s' = repliers s ->
  (waiting_pc (w_pc w') = true -> waiting_pc (w_pc w) = true /\ token (w_msg w') = token (w_msg w) /\
    (im_ev (w_msg w') = Waiting -> im_ev (w_msg w) = Waiting \/ token (w_msg w) <> 0)) -> guarded s'.
Proof.
  intros G Hw Ew E1 E2 E3 E4 Hm.
  assert (Hk : forall x, kept s s' x).
  { intros x. split; [intros P HP; destruct P; cbn; by rewrite ?E1, ?E2, ?E3, ?E4|by rewrite E4]. }
  apply (guarded_step s s' m w'); try done.
  - intros x Hx. rewrite Ew. by apply lookup_insert_ne.
  - intros v. rewrite Ew, lookup_insert_eq. congruence.
  - rewrite E3. apply G.
  - intros Hpc. destruct (Hm Hpc) as (Hpc' & Et & Hev). destruct (served_kept s s' m w (Hk m) (gd_served _ G m w Hw) Hpc') as [Hin|[Ht Hp]]; [by left|].
    right. rewrite Et. split; [done|]. intros Hwt. destruct (Hev Hwt) as [H|H]; [by apply Hp|done].
Qed.

Lemma guarded_send s pl m waits s' : inv s pl -> guarded s -> event_token s < 2 ^ 32 - 1 -> send_enqueue s m waits = Ok s' -> guarded s'.
Proof.
  intros IV G Hc. unfold send_enqueue. destruct (writers s !! m) as [w|] eqn:Hw; [done|]. rewrite (iv_open _ _ IV).
  rewrite token_next by (pose proof (iv_ctr _ _ IV); lia). intros [= <-].
  apply (guarded_step s _ m (mk_writer (imsg_init (event_token s)) WNotify waits (event_token s))); try done; cbn.
  - intros x Hx. by apply lookup_insert_ne.
  - intros v. rewrite lookup_insert_eq. congruence.
  - intros x Hx. keep Hx.
  - apply G.
  - intros _. left. exists Pend. split; [done|]. cbn. apply elem_of_app. right. by left.
Qed.

Lemma guarded_goto s s' r pc' :
  guarded s -> writers s' = writers s -> pending_list s' = pending_list s -> processing_list s' = processing_list s -> repliers s' = repliers s ->
  readers s' = <[r := pc']> (readers s) -> handless (readers s !! r) = true -> handless (Some pc') = true -> guarded s'.
Proof. intros G Ew E1 E2 E3 E4 H1 H2. apply (guarded_readers s); try done. by apply (places_goto s s' r pc'). Qed.

Lemma guarded_post s pl : inv s pl -> guarded s -> guarded (isem_post s).
Proof.
  intros IV G. unfold isem_post. destruct (iv_sem _ _ IV) as [_ S2]. destruct (isem_waiters s) as [|r rs].
  - destruct (_ <? _); [|done]. by apply (guarded_readers s).
  - apply (guarded_goto s _ r RPop); try done. by rewrite (S2 r ltac:(by left)).
Qed.

Lemma guarded_abort rs s : guarded s -> (forall r, r ∈ rs -> handless (readers s !! r) = true) ->
  guarded (fold_left (fun s r => goto_r s r RPop) rs s).
Proof.
  revert s. induction rs as [|r rs IH]; intros s G H; [done|]. cbn [fold_left]. apply IH.
  - apply (guarded_goto s _ r RPop); try done. apply H. by left.
  - intros x Hx. cbn. rewrite lookup_insert. case_decide; [done|]. apply H. by right.
Qed.

Lemma guarded_move s s' m f :
  guarded s -> writers s' = alter f m (writers s) -> (forall x, x <> m -> kept s s' x) -> (forall r x, readers s' !! r <> Some (RWake x)) ->
  (forall w, writers s !! m = Some w -> served s' m (f w)) -> guarded s'.
Proof.
  intros G Ew Hk Hr Hs. split; [|done]. intros x w. rewrite Ew. destruct (decide (x = m)) as [->|Hx].
  - rewrite lookup_alter_eq. destruct (writers s !! m) as [v|] eqn:Hv; [|done]. intros [= <-]. by apply Hs.
  - rewrite lookup_alter_ne by done. intros Hw. apply (served_kept s); [by apply Hk|by apply G].
Qed.

Lemma no_wake s r pc : guarded s -> (forall x, pc <> RWake x) -> forall q x, <[r := pc]> (readers s) !! q <> Some (RWake x).
Proof. intros G Hpc q x. rewrite lookup_insert. case_decide; [|apply G]. intros [= E]. by apply (Hpc x). Qed.

Lemma alter_id {A} (m : gmap nat A) i : alter (fun x => x) i m = m.
Proof. apply map_eq. intros j. destruct (decide (j = i)) as [->|]; [rewrite lookup_alter_eq; by destruct (m !! i)|by rewrite lookup_alter_ne]. Qed.

Lemma guarded_reader s pl r s' :
  inv s pl -> guarded s ->
  (readers s !! r = Some RPop /\ recv_pop s r = Ok s' \/
   (exists m, readers s !! r = Some (RClaim m) /\ recv_claim s r m = Ok s') \/
   (exists m ret, readers s !! r = Some (RCopy m) /\ 0 <= ret /\ recv_copy s r m ret = Ok s')) -> guarded s'.
Proof.
  intros IV G [[Hr Hs]|[(m & Hr & Hs)|(m & ret & Hr & Hret & Hs)]].
  - unfold recv_pop in Hs. destruct (pending_list s) as [|m l] eqn:Ep.
    + injection Hs as <-. apply (guarded_goto s _ r (RDone (- EAGAIN))); try done. by rewrite Hr.
    + unfold with_msg in Hs. destruct (writers s !! m) as [w|]; [|done]. destruct (live s m); [|done]. injection Hs as <-.
      apply (guarded_move s _ m (fun x => x)); [done|by rewrite alter_id| |apply (no_wake s r _ G); congruence|].
      * intros x Hx. assert (Hp : x ∈ pending_list s -> x ∈ l) by (rewrite Ep, elem_of_cons; by intros [->|?]). pose proof (conj Hr (conj Hp Hx)) as H. keep H.
      * intros v _ _. left. exists (Claim r). split; [done|]. cbn. apply lookup_insert_eq.
  - unfold recv_claim, with_msg in Hs. pose proof (proj1 (iv_place _ _ IV (Claim r) m ltac:(done)) Hr) as Hpl.
    destruct (live_held s pl m IV ltac:(by rewrite Hpl)) as (w & Hw & Hl & Wok). rewrite Hl in Hs.
    pose proof (wo_place _ _ _ _ Wok) as Hst. rewrite Hpl in Hst. destruct Hst as [Hst _]. rewrite Hst in Hs. injection Hs as <-.
    apply (guarded_move s _ m (set_im (im_set_state IMSG_STATE_IN_PROCESS))); [done|done| |apply (no_wake s r _ G); congruence|].
    + intros x Hx. pose proof (conj Hr Hx) as H. keep H.
    + intros v _ _. left. exists (Copy r). split; [done|]. cbn. apply lookup_insert_eq.
  - unfold recv_copy, with_msg in Hs. destruct (live s m); [|done]. destruct (Z.ltb_spec ret 0); [lia|]. injection Hs as <-.
    apply (guarded_move s _ m (set_im im_submit)); [done|done| |apply (no_wake s r _ G); congruence|].
    + intros x Hx. pose proof (conj Hr Hx) as H'. keep H'.
    + intros v _ _. left. exists Proc. split; [done|]. cbn. apply elem_of_app. right. by left.
Qed.

Lemma guarded_replier s pl p s' :
  inv s pl -> guarded s ->
  ((exists t e, repliers s !! p = None /\ reply_find s p t e = Ok s') \/
   (exists m e, repliers s !! p = Some (PSet m e) /\ reply_retcode s p m e = Ok s') \/
   (exists m, repliers s !! p = Some (PToken m) /\ reply_token s p m = Ok s') \/
   (exists m, repliers s !! p = Some (PWake m) /\ reply_wake s p m = Ok s')) -> guarded s'.
Proof.
  intros IV G [(t & e & Hp & Hs)|[(m & e & Hp & Hs)|[(m & Hp & Hs)|(m & Hp & Hs)]]].
  - unfold reply_find in Hs. rewrite Hp in Hs. destruct (list_find _ _) as [[i m]|]; [|done]. injection Hs as <-.
    apply (guarded_move s _ m (fun x => x)); [done|by rewrite alter_id| |apply G|].
    + intros x Hx. pose proof (conj Hp Hx) as H. keep H.
    + intros v _ _. left. exists (SetRet p e). split; [done|]. cbn. apply lookup_insert_eq.
  - unfold reply_retcode, with_msg in Hs. destruct (live s m); [|done]. injection Hs as <-.
    apply (guarded_move s _ m (set_im (im_retcode e))); [done|done| |apply G|].
    + intros x Hx. pose proof (conj Hp Hx) as H. keep H.
    + intros v _ _. left. exists (ZeroTok p). split; [done|]. cbn. apply lookup_insert_eq.
  - unfold reply_token, with_msg in Hs. destruct (live s m); [|done]. injection Hs as <-.
    apply (guarded_move s _ m (set_im im_token0)); [done|done| |apply G|].
    + intros x Hx. pose proof (conj Hp Hx) as H. keep H.
    + intros v _ _. right. split; [done|]. intros _. exists p. cbn. apply lookup_insert_eq.
  - unfold reply_wake in Hs. destruct (live s m); [|done]. injection Hs as <-.
    apply (guarded_move s _ m (set_im (fun i => im_event (wake_ev 0 (im_ev i)) i))); [done|done| |apply G|].
    + intros x Hx. pose proof (conj Hp Hx) as H. keep H.
    + intros v Hv _. right. destruct (iv_pwake _ _ IV p m Hp) as (w & Hw & Ht). rewrite Hv in Hw. injection Hw as <-.
      split; [done|]. cbn. by destruct (im_ev (w_msg v)).
Qed.

Lemma guarded_step_ok s pl l s' : inv s pl -> guarded s -> readable s l -> step s l = Ok s' -> guarded s'.
Proof.
  intros IV G [Hc Hb] Hs. destruct (iv_sem _ _ IV) as [S1 S2].
  assert (Hno : forall m w, writers s !! m = Some w -> w_pc w <> WErr /\ w_pc w <> WSpin /\ w_pc w <> WOut).
  { intros m w Hw. destruct (wo_pc _ _ _ _ (iv_writer _ _ IV m w Hw)) as [[E _]|(v & E & _)]; [|by rewrite E]. by destruct (w_pc w). }
  destruct l as [m waits|m|m stop|m|m|m|m|m|m linked|r block|r|r|r|r|r ret|r|p t e|p|p|p| | |]; cbn [step coop] in *; unfold at_writer in Hs; try done;
    try (destruct (writers s !! m) as [w|] eqn:Hw; [|done]; destruct (Hno m w Hw) as (N1 & N2 & N3); destruct (w_pc w) eqn:Hpc; try done).
  - apply (guarded_send s pl m waits); by destruct Hc.
  - unfold send_notify in Hs. injection Hs as <-. set (s0 := if iq_polled s then s else isem_post s).
    assert (G0 : guarded s0) by (unfold s0; destruct (iq_polled s); [done|by apply (guarded_post s pl)]).
    assert (Hw0 : writers s0 !! m = Some w)
      by (unfold s0, isem_post; destruct (iq_polled s); [done|]; by destruct (isem_waiters s); [destruct (_ <? _)|]).
    apply (guarded_writer s0 _ m w (set_pc (WCheck false) w)); try done; [by apply alter_Some|]. rewrite Hpc. by auto.
  - unfold wait_check, wait_done in Hs. subst stop. destruct (token (w_msg w) =? 0); injection Hs as <-.
    + eapply (guarded_writer s _ m w); [done|done|by apply alter_Some|done..|]. cbn. by destruct (_ || _).
    + eapply (guarded_writer s _ m w); [done|done|by apply alter_Some|done..|]. cbn. rewrite Hpc. destruct again; [done|]. by auto.
  - unfold wait_lock, wait_done in Hs.
    destruct (wo_pc _ _ _ _ (iv_writer _ _ IV m w Hw)) as [[Hp Hwt]|(v & E & _)]; [|congruence]. rewrite Hwt in Hs. cbn [negb] in Hs.
    destruct (Z.eqb_spec (token (w_msg w)) 0); injection Hs as <-.
    + eapply (guarded_writer s _ m w); [done|done|by apply alter_Some|done..|]. cbn. by destruct (_ || _).
    + eapply (guarded_writer s _ m w); [done|done|by apply alter_alter_Some|done..|]. cbn. rewrite Hpc. destruct again; [done|]. by auto.
  - unfold wait_woken, wait_done in Hs. destruct (im_ev (w_msg w)); try done. injection Hs as <-.
    eapply (guarded_writer s _ m w); [done|done|by apply alter_alter_Some|done..|]. cbn. by destruct (_ || _).
  - unfold recv_start in Hs. destruct (readers s !! r) eqn:Hr; [done|]. assert (Hh : handless (readers s !! r) = true) by (by rewrite Hr).
    destruct (wclosed s), block; injection Hs as <-; by eapply (guarded_goto s _ r).
  - destruct (readers s !! r) as [[]|] eqn:Hr; try done. unfold recv_pend in Hs. assert (Hh : handless (readers s !! r) = true) by (by rewrite Hr).
    destruct (0 <? isem_cnt s); injection Hs as <-; by eapply (guarded_goto s _ r).
  - destruct (readers s !! r) as [[]|] eqn:Hr; try done. injection Hs as <-. eapply (guarded_goto s _ r); try done. by rewrite Hr.
  - destruct (readers s !! r) as [[]|] eqn:Hr; try done. apply (guarded_reader s pl r); try done. by left.
  - destruct (readers s !! r) as [[]|] eqn:Hr; try done. apply (guarded_reader s pl r); try done. right; left. by eexists.
  - destruct (readers s !! r) as [[]|] eqn:Hr; try done. apply (guarded_reader s pl r); try done. right; right. by do 2 eexists.
  - destruct (readers s !! r) as [[]|] eqn:Hr; try done. by destruct (gd_copied _ G r m).
  - destruct (repliers s !! p) eqn:Hp; [by unfold reply_find in Hs; rewrite Hp in Hs|]. apply (guarded_replier s pl p); try done. left. by do 2 eexists.
  - destruct (repliers s !! p) as [[]|] eqn:Hp; try done. apply (guarded_replier s pl p); try done. right; left. by do 2 eexists.
  - destruct (repliers s !! p) as [[]|] eqn:Hp; try done. apply (guarded_replier s pl p); try done. right; right; left. by eexists.
  - destruct (repliers s !! p) as [[]|] eqn:Hp; try done. apply (guarded_replier s pl p); try done. right; right; right. by eexists.
  - injection Hs as <-. unfold close_write. destruct (mutil_writer s); [done|]. apply guarded_abort; [by apply (guarded_readers s)|].
    intros r Hr. apply S2 in Hr. cbn. by rewrite Hr.
Qed.

Lemma readable_guarded mutil polled s :
  rtc (fun s s' => exists l, readable s l /\ step s l = Ok s') (iqueue_init mutil polled) s -> (exists pl, inv s pl) /\ guarded s.
Proof.
  intros H. remember (iqueue_init mutil polled) as s0.
  assert (H0 : (exists pl, inv s0 pl) /\ guarded s0) by (subst; split; [eexists; apply init_inv|by split]).
  clear Heqs0. induction H as [s|s1 s2 s3 (l & Hb & Hs) _ IH]; [apply H0|]. apply IH. destruct H0 as ((pl & IV) & G).
  pose proof (ipc_step_inv s1 pl l IV (proj1 Hb)) as Hstep. rewrite Hs in Hstep. split; [done|]. by apply (guarded_step_ok s1 pl l).
Qed.

(** ** Concrete schedules *)

Definition coopb (s : iqueue) (l : label) : bool :=
  match l with
  | LSend _ waits => waits && (event_token s <? 2 ^ 32 - 1)
  | LCheck _ stop => negb stop
  | LTimeout _ | LCloseRead | LWakeAll => false
  | LReply _ t _ => existsb (has_token s t) (processing_list s)
  | _ => true
  end.

Lemma coopb_coop s l : coopb s l = true -> coop s l.
Proof.
  destruct l; cbn; try done.
  - intros [Hw Ht]%andb_prop. split; [done|lia].
  - by destruct stop.
  - intros (m & Hm & Ht)%existsb_exists. exists m. split; [by apply list_elem_of_In|done].
Qed.

(** Every label of the schedule runs and is allowed by [ok]. *)
Fixpoint run_ok (ok : iqueue -> label -> bool) (s : iqueue) (ls : list label) : option iqueue :=
  match ls with
  | [] => Some s
  | l :: ls => if ok s l then match step s l with Ok s' => run_ok ok s' ls | _ => None end else None
  end.

Lemma run_ok_rtc ok (P : iqueue -> label -> Prop) ls s s' :
  (forall s l, ok s l = true -> P s l) -> run_ok ok s ls = Some s' -> rtc (fun s s' => exists l, P s l /\ step s l = Ok s') s s'.
Proof.
  intros Hok. revert s. induction ls as [|l ls IH]; intros s; cbn; [intros [= ->]; apply rtc_refl|].
  destruct (ok s l) eqn:E; [|done]. destruct (step s l) as [s1| |] eqn:Es; try done. intros H.
  eapply rtc_l; [|by apply IH]. exists l. split; [by apply Hok|done].
Qed.

Definition blockingb (s : iqueue) (l : label) : bool :=
  coopb s l &&
  match l with
  | LRecv _ block => block
  | LSend _ _ => Z.of_nat (length (pending_list s)) <? 2 ^ 31 - 2
  | LCloseWrite => mutil_writer s
  | _ => true
  end.

Lemma blockingb_blocking s l : blockingb s l = true -> blocking s l.
Proof. intros [H1 H2]%andb_prop. split; [by apply coopb_coop|]. destruct l; try done. lia. Qed.

(** Two senders, one reader: the second message is sent before the first one is answered, and the
    first sender finds its answer without going to sleep. *)
Definition meet : list label :=
  [LSend 0 true; LSend 1 true; LNotify 0; LNotify 1; LCheck 1 false; LLock 1; LRecv 0 true; LPend 0; LPop 0; LClaim 0; LCopy 0 0;
   LReply 0 1 7; LReplyRet 0; LReplyToken 0; LCheck 0 false].

(** The state after a schedule that runs. *)
Definition after (ok : iqueue -> label -> bool) (ls : list label) : iqueue := default (iqueue_init false false) (run_ok ok (iqueue_init false false) ls).

Lemma after_rtc ok (P : iqueue -> label -> Prop) ls :
  (forall s l, ok s l = true -> P s l) -> bool_decide (is_Some (run_ok ok (iqueue_init false false) ls)) = true ->
  rtc (fun s s' => exists l, P s l /\ step s l = Ok s') (iqueue_init false false) (after ok ls).
Proof.
  intros Hok H%bool_decide_eq_true. unfold after. destruct H as [s E]. rewrite E. by apply (run_ok_rtc ok P ls).
Qed.

Lemma meet_reachable : reachable false false (after coopb meet).
Proof. apply (after_rtc coopb coop); [apply coopb_coop|vm_compute; reflexivity]. Qed.

(** ** Correctness *)

(** C28: however the calls of cooperating senders, readers and repliers interleave, no step touches a
    message that is gone, unlinks a message that is on no list or looks for an unknown token.  The one
    exception is the last step of a reply: its [wake] comes after the token was cleared, and by then
    the sender may have returned, with the return code of just this reply. *)
Theorem ipc_protocol_safe mutil polled s l f :
  reachable mutil polled s -> coop s l -> step s l = Wrong f ->
  exists p m w v, l = LReplyWake p /\ f = LateWake m /\ writers s !! m = Some w /\ w_pc w = WDone v /\ Answered (w_token w) v ∈ notes s.
Proof.
  intros Hre Hc Hs. destruct (reachable_inv _ _ _ Hre) as (pl & IV). pose proof (ipc_step_inv s pl l IV Hc) as H. rewrite Hs in H.
  destruct H as (p & m & w & v & Ef & El & Hw & Hpc). exists p, m, w, v. split_and!; try done.
  destruct (wo_pc _ _ _ _ (iv_writer _ _ IV m w Hw)) as [[E _]|(v' & E & Hn)]; rewrite Hpc in E; [done|]. by injection E as <-.
Qed.

Lemma ipc_protocol_safe_witness : exists p m w v,
  LReplyWake 0 = LReplyWake p /\ LateWake 0 = LateWake m /\ writers (after coopb meet) !! m = Some w /\ w_pc w = WDone v /\
  Answered (w_token w) v ∈ notes (after coopb meet).
Proof. apply (ipc_protocol_safe false false (after coopb meet) (LReplyWake 0) (LateWake 0) meet_reachable); [exact I|vm_compute; reflexivity]. Defined.

(** C31: in runs of cooperating parties ([coop], where the queue is not closed and nobody times out)
    messages are received in the order in which they were sent, each at most once, and those not received
    yet are the pending ones, in their order. *)
Theorem ipc_fifo mutil polled s :
  reachable mutil polled s ->
  NoDup (sent (notes s)) /\
  exists l, sent (notes s) = received (notes s) ++ l /\
    Forall2 (fun m t => w_token <$> writers s !! m = Some t) (pending_list s) l.
Proof. intros (pl & IV)%reachable_inv. split; [apply (iv_sent_once _ _ IV)|apply (iv_fifo _ _ IV)]. Qed.

Lemma ipc_fifo_witness :
  NoDup (sent (notes (after coopb meet))) /\
  exists l, sent (notes (after coopb meet)) = received (notes (after coopb meet)) ++ l /\
    Forall2 (fun m t => w_token <$> writers (after coopb meet) !! m = Some t) (pending_list (after coopb meet)) l.
Proof. exact (ipc_fifo false false (after coopb meet) meet_reachable). Defined.

(** C30: in runs of cooperating parties ([coop]) a sender returns only with an answer, and the code it
    returns is the one answer given to its own token, which no other sender has.  A sender that times out
    or whose queue is closed returns 0 without an answer, see [timeout_looks_like_success] and
    [close_looks_like_success]. *)
Theorem reply_reaches_sender mutil polled s m w v :
  reachable mutil polled s -> writers s !! m = Some w -> w_pc w = WDone v ->
  Answered (w_token w) v ∈ notes s /\
  (forall v', Answered (w_token w) v' ∈ notes s -> v' = v) /\
  (forall m' w', writers s !! m' = Some w' -> w_token w' = w_token w -> m' = m).
Proof.
  intros (pl & IV)%reachable_inv Hw Hpc. destruct (wo_pc _ _ _ _ (iv_writer _ _ IV m w Hw)) as [[E _]|(v' & E & Hn)]; rewrite Hpc in E; [done|].
  injection E as <-. split; [done|]. split.
  - intros v' Hv'. by apply (answer_unique (notes s) (w_token w)); [apply (iv_answers _ _ IV)| |].
  - intros m' w' Hw' Et. by apply (iv_inj _ _ IV m' m w' w).
Qed.

Definition met_writer : writer := mk_writer (mk_imsg 0 7 IMSG_STATE_IN_PROCESS true Idle) (WDone 7) true 1.

Lemma reply_reaches_sender_witness :
  Answered (w_token met_writer) 7 ∈ notes (after coopb meet) /\
  (forall v', Answered (w_token met_writer) v' ∈ notes (after coopb meet) -> v' = 7) /\
  (forall m' w', writers (after coopb meet) !! m' = Some w' -> w_token w' = w_token met_writer -> m' = 0%nat).
Proof. apply (reply_reaches_sender false false (after coopb meet) 0%nat met_writer 7 meet_reachable); [vm_compute; reflexivity|reflexivity]. Defined.

(** With readers that wait on the semaphore no message is left behind and none is missing.  A
    reader past the semaphore always finds a message, and while a reader sleeps every pending message
    already has a reader on its way to it or a sender that is about to post. *)
Theorem ipc_no_lost_message mutil s :
  rtc blocking_step (iqueue_init mutil false) s ->
  (forall r, readers s !! r = Some RPop -> exists m s', step s (LPop r) = Ok s' /\ readers s' !! r = Some (RClaim m)) /\
  (isem_waiters s <> [] -> Z.of_nat (length (pending_list s)) = tally at_pop (readers s) + tally at_notify (writers s)).
Proof.
  intros Hre. pose proof (blocking_permits _ _ Hre) as [H1 H2 H3 H4 H5]. split.
  - intros r Hr. assert (Hre' : reachable mutil false s).
    { eapply rtc_subrel; [|done]. intros x y (l & [Hc _] & Hs). by exists l. }
    apply reachable_inv in Hre' as (pl & IV). destruct (pop_inv s pl r IV Hr) as (s' & pl' & Hs & _).
    cbn [step]. rewrite Hr. unfold recv_pop in Hs |- *. destruct (pending_list s) as [|m ms] eqn:Ep.
    + pose proof (tally_pos at_pop (readers s) r RPop Hr eq_refl). pose proof (tally_nonneg at_notify (writers s)). cbn in H3. lia.
    + exists m, s'. split; [done|]. unfold with_msg in Hs. destruct (writers s !! m), (live s m); try done. injection Hs as <-.
      apply lookup_insert_eq.
  - intros Hw. rewrite <- H3, (H4 Hw). lia.
Qed.

Definition two_readers : list label := [LRecv 0 true; LPend 0; LRecv 1 true; LPend 1; LSend 0 true; LNotify 0; LSend 1 true].

Lemma ipc_no_lost_message_witness :
  (forall r, readers (after blockingb two_readers) !! r = Some RPop ->
    exists m s', step (after blockingb two_readers) (LPop r) = Ok s' /\ readers s' !! r = Some (RClaim m)) /\
  (isem_waiters (after blockingb two_readers) <> [] ->
    Z.of_nat (length (pending_list (after blockingb two_readers))) =
    tally at_pop (readers (after blockingb two_readers)) + tally at_notify (writers (after blockingb two_readers))).
Proof.
  apply (ipc_no_lost_message false (after blockingb two_readers)).
  apply (after_rtc blockingb blocking); [apply blockingb_blocking|vm_compute; reflexivity].
Defined.

(** C29: no sender sleeps for ever because of a lost wake-up, in runs of cooperating parties ([coop]:
    nobody times out, is stopped or closes the queue, replies go to tokens handed out and not answered,
    tokens do not wrap around) in which messages can be copied.  The message of a sender that sleeps in
    its first wait is pending, being processed, or in the hands of a reader or of a reply; once it has
    left them, a reply is about to wake just this sender, and its next step does. *)
Theorem ipc_no_lost_wakeup mutil polled s m w :
  rtc (fun s s' => exists l, readable s l /\ step s l = Ok s') (iqueue_init mutil polled) s ->
  writers s !! m = Some w -> w_pc w = WSleep false -> im_ev (w_msg w) = Waiting ->
  in_hand s m \/
  exists p s' w', step s (LReplyWake p) = Ok s' /\ writers s' !! m = Some w' /\ w_pc w' = WSleep false /\ im_ev (w_msg w') = Woken 0.
Proof.
  intros Hre Hw Hpc Hev. destruct (readable_guarded _ _ _ Hre) as [(pl & IV) G].
  destruct (gd_served _ G m w Hw ltac:(by rewrite Hpc)) as [Hin|[Ht Hp]]; [by left|]. right. destruct (Hp Hev) as (p & Hr).
  eexists p, _, (set_im (fun i => im_event (wake_ev 0 (im_ev i)) i) w). cbn [step]. rewrite Hr. unfold reply_wake, live. rewrite Hw, Hpc.
  split; [done|]. cbn. rewrite lookup_alter_eq, Hw, Hev. by split_and!.
Qed.

Definition readableb (s : iqueue) (l : label) : bool := coopb s l && match l with LCopy _ ret => 0 <=? ret | _ => true end.

Lemma readableb_readable s l : readableb s l = true -> readable s l.
Proof. intros [H1 H2]%andb_prop. split; [by apply coopb_coop|]. destruct l; try done. lia. Qed.

(** The sender sleeps and the reply has cleared the token. *)
Definition woken_next : list label :=
  [LSend 0 true; LNotify 0; LCheck 0 false; LLock 0; LRecv 0 true; LPend 0; LPop 0; LClaim 0; LCopy 0 0; LReply 0 1 7; LReplyRet 0; LReplyToken 0].

Definition sleeper : writer := mk_writer (mk_imsg 0 7 IMSG_STATE_IN_PROCESS true Waiting) (WSleep false) true 1.

Lemma ipc_no_lost_wakeup_witness :
  in_hand (after readableb woken_next) 0 \/
  exists p s' w', step (after readableb woken_next) (LReplyWake p) = Ok s' /\ writers s' !! 0%nat = Some w' /\ w_pc w' = WSleep false /\
    im_ev (w_msg w') = Woken 0.
Proof.
  apply (ipc_no_lost_wakeup false false (after readableb woken_next) 0 sleeper); [|vm_compute; reflexivity|reflexivity|reflexivity].
  apply (after_rtc readableb readable); [apply readableb_readable|vm_compute; reflexivity].
Defined.

(** ** Schedules that go wrong *)

(** The result of a schedule for one sender. *)
Definition sender_after (ls : list label) (polled : bool) (m : nat) : option wpc :=
  match run (iqueue_init false polled) ls with Ok s => w_pc <$> writers s !! m | _ => None end.

(** [iqueue_reply] clears the token before its wake-up: the sender returns in between. *)
Lemma reply_wakes_dead_message : run (iqueue_init false false) (meet ++ [LReplyWake 0]) = Wrong (LateWake 0).
Proof. vm_compute. reflexivity. Qed.

(** A sender that times out does not take its message off the list, since the test looks at the list
    node of the task, which is never linked.  It waits once more, returns 0, and the next reader takes a
    message that is gone. *)
Definition times_out : list label :=
  [LSend 0 true; LNotify 0; LCheck 0 false; LLock 0; LTimeout 0; LWoken 0; LError 0; LOut 0 false; LCheck 0 false; LLock 0; LTimeout 0; LWoken 0].

Lemma timeout_looks_like_success : sender_after times_out false 0 = Some (WDone 0).
Proof. vm_compute. reflexivity. Qed.

Lemma timeout_leaves_dead_message : run (iqueue_init false false) (times_out ++ [LRecv 0 true; LPend 0; LPop 0]) = Wrong (DeadMsg 0).
Proof. vm_compute. reflexivity. Qed.

(** When the reading side is closed, senders return 0, asleep or not. *)
Lemma close_looks_like_success : sender_after [LSend 0 true; LCloseRead; LWakeAll; LNotify 0; LCheck 0 false] false 0 = Some (WDone 0).
Proof. vm_compute. reflexivity. Qed.

Lemma close_wakes_with_success :
  sender_after [LSend 0 true; LNotify 0; LCheck 0 false; LLock 0; LCloseRead; LWakeAll; LWoken 0; LError 0; LOut 0 false; LCheck 0 false] false 0
  = Some (WDone 0).
Proof. vm_compute. reflexivity. Qed.

(** A reply with a token that no message has. *)
Lemma unknown_token_taken_for_message : run (iqueue_init false false) [LReply 0 5 0] = Wrong (BadToken 5).
Proof. vm_compute. reflexivity. Qed.

(** A copy that fails before the sender sleeps leaves the token as it is: the sender goes to sleep and
    its message is nowhere. *)
Lemma failed_copy_loses_sender :
  sender_after [LSend 0 true; LNotify 0; LRecv 0 true; LPend 0; LPop 0; LClaim 0; LCopy 0 (-14); LRecvWake 0; LCheck 0 false; LLock 0; LWoken 0] false 0
  = Some (WSleep false).
Proof. vm_compute. reflexivity. Qed.

(** With a poll structure on the object the semaphore is not posted: a reader on it sleeps on. *)
Lemma polled_reader_sleeps :
  match run (iqueue_init false true) [LRecv 0 true; LPend 0; LSend 0 true; LNotify 0; LPop 0] with
  | Ok s => readers s !! 0%nat = Some RSem /\ pending_list s = [0%nat]
  | _ => False
  end.
Proof. vm_compute. done. Qed.

(** When the only writer goes away, a waiting reader is woken as if there were a message. *)
Lemma closed_reader_tries_again :
  match run (iqueue_init false false) [LRecv 0 true; LPend 0; LCloseWrite; LPop 0] with
  | Ok s => readers s !! 0%nat = Some (RDone (- EAGAIN))
  | _ => False
  end.
Proof. vm_compute. done. Qed.

(** A reader that looked at the state before the close waits after it, and nobody wakes it. *)
Lemma close_misses_reader :
  match run (iqueue_init false false) [LRecv 0 true; LCloseWrite; LPend 0; LPop 0] with
  | Ok s => readers s !! 0%nat = Some RSem /\ wclosed s = true
  | _ => False
  end.
Proof. vm_compute. done. Qed.
