(* ===== verification/Flag.v ===== *)
(** * Event flag groups

    [core/flag.c]: a task waits until all or any of the bits it names are set or
    clear.  As in [Event.v] a blocking call is two halves around [sched]: [flag_pend]
    up to the sleep, and [flag_pend_resume] when the task runs again. *)

From S2P Require Import Prelude Types Bits Task Event.

Definition FLAG_WAIT_CLR_ALL : Z := 0.
Definition FLAG_WAIT_CLR_ANY : Z := 1.
Definition FLAG_WAIT_SET_ALL : Z := 2.
Definition FLAG_WAIT_SET_ANY : Z := 3.
Definition FLAG_CONSUME : Z := 0x80.
Definition FLAG_CLR : Z := 0.
Definition FLAG_SET : Z := 1.

Definition not32 (x : Z) : Z := u32 (Z.lnot x).

Definition set_fg_flags (v : Z) (g : flag_grp) : flag_grp := mk_grp v (fg_wait_list g).
Definition set_fg_wait_list (v : list flag_node) (g : flag_grp) : flag_grp := mk_grp (fg_flags g) v.

Definition flag_init (flags : Z) : flag_grp := mk_grp flags [].

Definition flag_wait_set_all (g : flag_grp) (flags : Z) (consume : bool) : Z * flag_grp :=
  let flags_rdy := Z.land (fg_flags g) flags in
  if flags_rdy =? flags
  then (flags_rdy, if consume then set_fg_flags (Z.land (fg_flags g) (not32 flags_rdy)) g else g)
  else (0, g).

Definition flag_wait_set_any (g : flag_grp) (flags : Z) (consume : bool) : Z * flag_grp :=
  let flags_rdy := Z.land (fg_flags g) flags in
  (flags_rdy, if negb (flags_rdy =? 0) && consume
              then set_fg_flags (Z.land (fg_flags g) (not32 flags_rdy)) g else g).

Definition flag_wait_clr_all (g : flag_grp) (flags : Z) (consume : bool) : Z * flag_grp :=
  let flags_rdy := Z.land (not32 (fg_flags g)) flags in
  if flags_rdy =? flags
  then (flags_rdy, if consume then set_fg_flags (Z.lor (fg_flags g) flags_rdy) g else g)
  else (0, g).

Definition flag_wait_clr_any (g : flag_grp) (flags : Z) (consume : bool) : Z * flag_grp :=
  let flags_rdy := Z.land (not32 (fg_flags g)) flags in
  (flags_rdy, if negb (flags_rdy =? 0) && consume
              then set_fg_flags (Z.lor (fg_flags g) flags_rdy) g else g).

(** The [switch] of [flag_accept] and [flag_pend]. *)
Definition flag_try (g : flag_grp) (flags wait_type : Z) (consume : bool) : Z * flag_grp :=
  if wait_type =? FLAG_WAIT_SET_ALL then flag_wait_set_all g flags consume
  else if wait_type =? FLAG_WAIT_SET_ANY then flag_wait_set_any g flags consume
  else if wait_type =? FLAG_WAIT_CLR_ALL then flag_wait_clr_all g flags consume
  else if wait_type =? FLAG_WAIT_CLR_ANY then flag_wait_clr_any g flags consume
  else (0, g).

(** [FLAG_CONSUME] is split off the wait type. *)
Definition is_consume (wait_type : Z) : bool := negb (Z.land wait_type FLAG_CONSUME =? 0).
Definition base_type (wait_type : Z) : Z :=
  if is_consume wait_type then Z.land wait_type (Z.lnot FLAG_CONSUME) else wait_type.

Definition flag_accept (g : flag_grp) (flags wait_type : Z) : Z * flag_grp :=
  flag_try g flags (base_type wait_type) (is_consume wait_type).

Definition flag_task_ready (s : sys) (c : nat) (n : flag_node) (flags : Z) : outcome sys :=
  let* (_, s) := __wake_up s c (fn_task n) TASK_STATE_PEND_OK flags in Ret s.

(** The address of the node is not modelled: it lives on the waiting task's stack. *)
Definition flag_block (s : sys) (c : nat) (g : flag_grp) (flags wait_type timeout : Z)
    : outcome (sys * flag_grp) :=
  let* (cur, _) := current s c in
  let g := set_fg_wait_list (fg_wait_list g ++ [mk_node cur flags wait_type]) g in
  let* (s, _) := __wait_event s c (mk_event 0 OS_EVENT_TYPE_FLAG 0 0 0 []) OS_EVENT_TYPE_FLAG timeout in
  Ret (s, g).

Definition flag_pend (s : sys) (c : nat) (g : flag_grp) (flags wait_type timeout : Z)
    : outcome (pend_result * sys * flag_grp) :=
  let (flags_rdy, g) := flag_try g flags (base_type wait_type) (is_consume wait_type) in
  if negb (flags_rdy =? 0) then Ret (Done flags_rdy, s, g)
  else let* (s, g) := flag_block s c g flags (base_type wait_type) timeout in Ret (Blocked, s, g).

(** [list_del(&node.list)] of the caller's own node *)
Fixpoint del_node (n : flag_node) (l : list flag_node) : list flag_node :=
  match l with
  | [] => []
  | m :: l => if (fn_task m =? fn_task n) && (fn_flags m =? fn_flags n) && (fn_wait_type m =? fn_wait_type n)
              then l else m :: del_node n l
  end.

(** [flag_pend] from the return of [sched] on: on success the node stays on the
    list. *)
Definition flag_pend_resume (s : sys) (c : nat) (g : flag_grp) (flags wait_type : Z)
    : outcome (Z * sys * flag_grp) :=
  let* (cur, task) := current s c in
  let wt := base_type wait_type in
  if negb (t_pend_state task =? TASK_STATE_PEND_OK) then
    Ret (0, upd_task s cur (set_t_pend_state TASK_STATE_PEND_OK),
         set_fg_wait_list (del_node (mk_node cur flags wt) (fg_wait_list g)) g)
  else
    let flags_rdy := t_ipcdata task in
    if is_consume wait_type then
      if (wt =? FLAG_WAIT_SET_ALL) || (wt =? FLAG_WAIT_SET_ANY) then
        Ret (flags_rdy, s, set_fg_flags (Z.land (fg_flags g) (not32 flags_rdy)) g)
      else if (wt =? FLAG_WAIT_CLR_ALL) || (wt =? FLAG_WAIT_CLR_ANY) then
        Ret (flags_rdy, s, set_fg_flags (Z.lor (fg_flags g) flags_rdy) g)
      else Ret (0, s, g)
    else Ret (flags_rdy, s, g).

(** The loop of [flag_post]: [true] when it reached the end of the list, [false]
    when a node's case returned 0 from the function. *)
Fixpoint flag_post_loop (s : sys) (c : nat) (grp : Z) (l : list flag_node) : outcome (bool * sys) :=
  match l with
  | [] => Ret (true, s)
  | n :: l =>
      let set := Z.land grp (fn_flags n) in
      let clr := Z.land (not32 grp) (fn_flags n) in
      if fn_wait_type n =? FLAG_WAIT_SET_ALL then
        let* s := if set =? fn_flags n then flag_task_ready s c n set else Ret s in
        flag_post_loop s c grp l
      else if fn_wait_type n =? FLAG_WAIT_SET_ANY then
        let* s := if negb (set =? 0) then flag_task_ready s c n set else Ret s in
        flag_post_loop s c grp l
      else if fn_wait_type n =? FLAG_WAIT_CLR_ALL then
        let* s := if clr =? fn_flags n then flag_task_ready s c n clr else Ret s in
        flag_post_loop s c grp l
      else if fn_wait_type n =? FLAG_WAIT_CLR_ANY then
        let* s := if negb (clr =? 0) then flag_task_ready s c n clr else Ret s in
        Ret (false, s)
      else Ret (false, s)
  end.

Definition flag_post (s : sys) (c : nat) (g : flag_grp) (flags opt : Z)
    : outcome (Z * sys * flag_grp) :=
  if FLAG_SET <? opt then Ret (u32 (- EINVAL), s, g) else
  let g := if opt =? FLAG_CLR then set_fg_flags (Z.land (fg_flags g) (not32 flags)) g
           else if opt =? FLAG_SET then set_fg_flags (Z.lor (fg_flags g) flags) g else g in
  let* (fin, s) := flag_post_loop s c (fg_flags g) (fg_wait_list g) in
  Ret (if fin : bool then fg_flags g else 0, s, g).

Definition flag_set (s : sys) (c : nat) (g : flag_grp) (flags : Z) : outcome (Z * sys * flag_grp) :=
  flag_post s c g flags FLAG_SET.

(** ** What a waiter waits for *)

(** The bits of a node's mask that are in the awaited state, and whether they are
    enough. *)
Definition ready_bits (grp : Z) (n : flag_node) : Z :=
  if (fn_wait_type n =? FLAG_WAIT_SET_ALL) || (fn_wait_type n =? FLAG_WAIT_SET_ANY)
  then Z.land grp (fn_flags n) else Z.land (not32 grp) (fn_flags n).

Definition satisfied (grp : Z) (n : flag_node) : bool :=
  if (fn_wait_type n =? FLAG_WAIT_SET_ALL) || (fn_wait_type n =? FLAG_WAIT_CLR_ALL)
  then ready_bits grp n =? fn_flags n else negb (ready_bits grp n =? 0).

(** The wait types whose case of [flag_post] goes on to the next node. *)
Definition plain_wait (n : flag_node) : Prop :=
  fn_wait_type n = FLAG_WAIT_SET_ALL \/ fn_wait_type n = FLAG_WAIT_SET_ANY \/
  fn_wait_type n = FLAG_WAIT_CLR_ALL.

Lemma flag_post_loop_plain s c grp n l :
  plain_wait n ->
  flag_post_loop s c grp (n :: l) =
    let* s := if satisfied grp n then flag_task_ready s c n (ready_bits grp n) else Ret s in
    flag_post_loop s c grp l.
Proof. unfold satisfied, ready_bits. intros [E|[E|E]]; simpl; rewrite E; done. Qed.

Definition node_parked (s : sys) (n : flag_node) : Prop :=
  is_Some (tasks s !! fn_task n) /\ fn_task n ∉ running s.

Lemma flag_post_loop_wakes s c p grp l :
  sys_inv s -> cpus s !! c = Some p -> Forall (node_parked s) l -> Forall plain_wait l ->
  exists s', flag_post_loop s c grp l = Ret (true, s') /\ sys_inv s' /\ running s' = running s /\
    forall u, waiting s' u <->
      waiting s u /\ Forall (fun n => fn_task n = u -> satisfied grp n = false) l.
Proof.
  revert s p. induction l as [|n l IH]; intros s p Hs Hc Hp Hw.
  { exists s. split_and!; try done. intros u. split; [by split|by intros [? _]]. }
  apply Forall_cons in Hp as [[Hn Hnr] Hp]. apply Forall_cons in Hw as [Hwn Hw].
  rewrite flag_post_loop_plain by done. destruct (satisfied grp n) eqn:Hsat; simpl.
  - unfold flag_task_ready. destruct (decide (waiting s (fn_task n))) as [Hwt|Hwt].
    + destruct (wake_up_woke s c p (fn_task n) TASK_STATE_PEND_OK (ready_bits grp n))
        as (s1 & Hup & Hwk); try done.
      rewrite Hup; simpl. destruct (woke_cpu _ _ _ _ _ _ _ Hwk Hc) as [p1 Hc1].
      destruct (IH s1 p1) as (s' & Hl & Hs' & Hr & Hu);
        [apply (wk_inv _ _ _ _ _ Hwk)|done| |done|].
      { apply (Forall_impl _ _ _ Hp). intros m [Hm1 Hm2]. split; [by eapply woke_known|].
        by rewrite (wk_running _ _ _ _ _ Hwk). }
      exists s'. split_and!; [done|done|by rewrite Hr, (wk_running _ _ _ _ _ Hwk)|].
      intros u. rewrite Hu, Forall_cons. destruct (decide (u = fn_task n)) as [->|Hne].
      * split; [|intros (_ & H & _); by rewrite H in Hsat].
        intros [H _]. by destruct (woke_not_waiting _ _ _ _ _ Hwk).
      * rewrite (woke_waiting _ _ _ _ _ u Hwk) by done.
        split; [intros [H1 H2]|by intros (H1 & _ & H2)]. split_and!; try done; by intros <-.
    + rewrite (wake_up_stale s c p) by done. simpl.
      destruct (IH s p) as (s' & Hl & Hs' & Hr & Hu); try done.
      exists s'. split_and!; try done. intros u. rewrite Hu, Forall_cons.
      split; [intros [H1 H2]|by intros (H1 & _ & H2)]. split_and!; try done; by intros <-.
  - destruct (IH s p) as (s' & Hl & Hs' & Hr & Hu); try done.
    exists s'. split_and!; try done. intros u. rewrite Hu, Forall_cons. tauto.
Qed.

(** Setting or clearing flags wakes exactly the waiting tasks whose condition now
    holds, of those that wait for all bits set, any bit set or all bits clear, and
    returns the new flags. *)
Theorem flag_post_wakes_satisfied s c p g flags opt :
  sys_inv s -> cpus s !! c = Some p -> opt = FLAG_CLR \/ opt = FLAG_SET ->
  Forall (node_parked s) (fg_wait_list g) -> Forall plain_wait (fg_wait_list g) ->
  let grp := if opt =? FLAG_CLR then Z.land (fg_flags g) (not32 flags) else Z.lor (fg_flags g) flags in
  exists s', flag_post s c g flags opt = Ret (grp, s', set_fg_flags grp g) /\ sys_inv s' /\
    running s' = running s /\
    forall u, waiting s' u <->
      waiting s u /\ Forall (fun n => fn_task n = u -> satisfied grp n = false) (fg_wait_list g).
Proof.
  intros Hs Hc Hopt Hp Hw grp.
  destruct (flag_post_loop_wakes s c p grp (fg_wait_list g) Hs Hc Hp Hw) as (s' & Hl & Hs' & Hr & Hu).
  exists s'. split_and!; try done. unfold flag_post.
  destruct Hopt as [-> | ->]; simpl; unfold grp in Hl; simpl in Hl; by rewrite Hl.
Qed.

(** [flag_accept] with [FLAG_CONSUME] is a test-and-clear: it reports bits only when
    the condition holds, and then exactly those bits change state. *)
Theorem flag_accept_consumes g flags wait_type i :
  0 <= fg_flags g < 2 ^ 32 -> 0 <= flags < 2 ^ 32 -> 0 <= i < 32 ->
  wait_type = FLAG_WAIT_SET_ALL \/ wait_type = FLAG_WAIT_SET_ANY \/
  wait_type = FLAG_WAIT_CLR_ALL \/ wait_type = FLAG_WAIT_CLR_ANY ->
  let (rdy, g') := flag_accept g flags (Z.lor wait_type FLAG_CONSUME) in
  let n := mk_node 0 flags wait_type in
  rdy = (if satisfied (fg_flags g) n then ready_bits (fg_flags g) n else 0) /\
  Z.testbit (fg_flags g') i = xorb (Z.testbit (fg_flags g) i) (Z.testbit rdy i).
Proof.
  intros Hg Hf Hi Ht.
  assert (Hwt : is_consume (Z.lor wait_type FLAG_CONSUME) = true /\
                base_type (Z.lor wait_type FLAG_CONSUME) = wait_type)
    by (destruct Ht as [-> | [-> | [-> | ->]]]; by split).
  unfold flag_accept. destruct Hwt as [-> ->]. unfold flag_try, satisfied, ready_bits.
  assert (Hnot : forall z, Z.testbit (not32 z) i = negb (Z.testbit z i)).
  { intros z. unfold not32. rewrite testbit_wrap, Z.lnot_spec by lia. by case_bools. }
  destruct Ht as [-> | [-> | [-> | ->]]]; cbn -[Z.land Z.lor Z.testbit not32];
    unfold flag_wait_set_all, flag_wait_set_any, flag_wait_clr_all, flag_wait_clr_any;
    cbn -[Z.land Z.lor Z.testbit not32 Z.eqb].
  all: match goal with |- context [?a =? ?b] => destruct (Z.eqb_spec a b) as [E|E] end;
    cbn -[Z.land Z.lor Z.testbit not32]; split; try congruence.
  all: rewrite ?Z.land_spec, ?Z.lor_spec, ?Z.land_spec, ?Hnot, ?Z.land_spec, ?Hnot, ?Z.bits_0.
  all: try (apply (f_equal (fun z => Z.testbit z i)) in E;
            rewrite ?Z.land_spec, ?Hnot, ?Z.bits_0 in E).
  all: by destruct (Z.testbit (fg_flags g) i), (Z.testbit flags i).
Qed.

(** A waiter for any bit clear ends the walk over the list: the waiters behind it
    are not looked at. *)
Lemma flag_post_clr_any_stops s c grp n l :
  fn_wait_type n = FLAG_WAIT_CLR_ANY -> flag_post_loop s c grp (n :: l) = flag_post_loop s c grp [n].
Proof. intros E. simpl. by rewrite E. Qed.

(** A successful wait leaves its node on the list, although the node's stack frame
    is gone when [flag_pend] returns. *)
Lemma flag_pend_resume_keeps_node s c g flags wait_type cur x r s' g' :
  current s c = Ret (cur, x) -> t_pend_state x = TASK_STATE_PEND_OK ->
  flag_pend_resume s c g flags wait_type = Ret (r, s', g') -> fg_wait_list g' = fg_wait_list g.
Proof.
  unfold flag_pend_resume. intros -> E. simpl. rewrite E. simpl.
  repeat case_match; intros [= <- <- <-]; done.
Qed.

Lemma flag_post_wakes_satisfied_witness :
  exists s', flag_post demo 0 (mk_grp 0 [mk_node 2 1 FLAG_WAIT_SET_ANY]) 3 FLAG_SET =
      Ret (3, s', mk_grp 3 [mk_node 2 1 FLAG_WAIT_SET_ANY]) /\ sys_inv s' /\
    running s' = running demo /\
    forall u, waiting s' u <-> waiting demo u /\
      Forall (fun n => fn_task n = u -> satisfied 3 n = false) [mk_node 2 1 FLAG_WAIT_SET_ANY].
Proof.
  apply (flag_post_wakes_satisfied demo 0 demo_pcpu (mk_grp 0 [mk_node 2 1 FLAG_WAIT_SET_ANY]) 3 FLAG_SET);
    [apply demo_inv|done|by right|constructor; [|constructor]|constructor; [right; by left|constructor]].
  split; [by eexists|]. apply (bool_decide_unpack _). vm_compute. exact I.
Defined.

Lemma flag_accept_consumes_witness :
  let (rdy, g') := flag_accept (mk_grp 5 []) 4 (Z.lor FLAG_WAIT_SET_ALL FLAG_CONSUME) in
  let n := mk_node 0 4 FLAG_WAIT_SET_ALL in
  rdy = (if satisfied 5 n then ready_bits 5 n else 0) /\
  Z.testbit (fg_flags g') 2 = xorb (Z.testbit 5 2) (Z.testbit rdy 2).
Proof. apply (flag_accept_consumes (mk_grp 5 []) 4 FLAG_WAIT_SET_ALL 2); [done|done|done|by left]. Defined.
