(* ===== verification/Sched.v ===== *)
(** * The scheduler

    The rest of [core/sched.c]: choosing and switching to the next task, the way out
    of an exception, and the interrupt handlers that ask for a switch.

    A task switch is the change of a CPU's [running_task] with the fields
    [switch_to_task] writes; the registers, the time stamp [start_ns] and the
    registered hooks are not modelled.  [CONFIG_TASK_RUN_TIME], a build option, is
    the variable [run_time]. *)

From S2P Require Import Prelude Types Bits Task Event Flag.

Section Sched.
Context (run_time : Z).

(** ** Choosing the next task *)

(** [list_del(&task->state_list); list_add_tail(head, &task->state_list)] *)
Definition rotate (s : sys) (c : nat) (prio t : Z) : outcome sys :=
  let s := list_del s t in
  let* p := get_pcpu s c in
  let* l := ready_at p prio in
  Ret (upd_pcpu s c (set_ready_at prio (l ++ [t]))).

(** A stopped task is left to the CPU's worker task. *)
Definition stop_current (s : sys) (c : nat) (t : Z) : outcome sys :=
  let s := upd_pcpu s c (fun p => set_stop_list (stop_list p ++ [t]) p) in
  let* p := get_pcpu s c in
  let* ((_, s), g) := flag_set s c (kworker_flag p) KWORKER_TASK_RECYCLE in
  Ret (upd_pcpu s c (set_kworker_flag g)).

Definition pick_next_task (s : sys) (c : nat) : outcome (Z * sys) :=
  let* (cur, task) := current s c in
  check negb (t_state task =? TASK_STATE_READY) in
  let* s :=
    if negb (task_is_running task) then
      let* s := remove_task_from_ready_list s c cur in
      if t_state task =? TASK_STATE_STOP then stop_current s c cur else Ret s
    else Ret s in
  let* p := get_pcpu s c in
  let prio := default (-1) (ffs_one_table !! Z.to_nat (local_rdy_grp p)) in
  check negb (prio =? -1) in
  let* l := ready_at p prio in
  match l with
  | [] => Panic
  | next :: _ => let* s := rotate s c prio next in Ret (next, s)
  end.

(** ** Switching *)

Definition sched_out (t : task) : task :=
  let t := if (t_state t =? TASK_STATE_WAIT_EVENT) && (0 <? t_delay t)
           then set_t_timer (Some (t_delay t)) t
           else if t_state t =? TASK_STATE_RUNNING then set_t_state TASK_STATE_READY t else t in
  set_t_cpu (-1) (set_t_run_time run_time (set_t_last_cpu (t_cpu t) t)).

Definition sched_in (c : nat) (t : task) : task :=
  set_t_wait_event 0 (set_t_ctx_sw_cnt (t_ctx_sw_cnt t + 1) (set_t_cpu (Z.of_nat c)
    (clear_ti_flag __TIF_TICK_EXHAUST (set_t_state TASK_STATE_RUNNING t)))).

Definition switch_to_task (s : sys) (c : nat) (cur next : Z) : sys :=
  let s := upd_task s cur sched_out in
  let s := upd_task s next (sched_in c) in
  upd_pcpu s c (set_running_task next).

(** ** Leaving an exception *)

Definition task_run_again (s : sys) (c : nat) : outcome (Z * sys) :=
  let* (cur, task) := current s c in
  let s := upd_task s cur (clear_ti_flag __TIF_TICK_EXHAUST) in
  Ret (if negb (Z.land (ti_flags task) __TIF_TICK_EXHAUST =? 0) then - EAGAIN else - EACCES, s).

Definition __exception_return_handler (s : sys) (c : nat) : outcome (Z * sys) :=
  let* (cur, task) := current s c in
  if (Z.land (ti_flags task) __TIF_NEED_RESCHED =? 0) || (0 <? ti_preempt task)
     || negb (Z.land (ti_flags task) __TIF_DONOT_PREEMPT =? 0)
  then task_run_again s c
  else
    let s := upd_task s cur (clear_ti_flag __TIF_NEED_RESCHED) in
    let* (next, s) := pick_next_task s c in
    if next =? cur then task_run_again s c
    else Ret (0, switch_to_task s c cur next).

Definition exception_return_handler (s : sys) (c : nat) : outcome sys :=
  let* (ret, s) := __exception_return_handler s c in
  if (ret =? 0) || (ret =? - EAGAIN) then sched_update_sched_timer s c else Ret s.

(** ** Interrupt handlers *)

(** The one-shot [sched_timer] has expired. *)
Definition sched_tick_handler (s : sys) (c : nat) : outcome sys :=
  let s := upd_pcpu s c (set_sched_timer None) in
  let* (cur, _) := current s c in
  set_need_resched (upd_task s cur (set_ti_flag __TIF_TICK_EXHAUST)) c.

Definition resched_handler (s : sys) (c : nat) : outcome sys := set_need_resched s c.

(** One task of the [new_list]. *)
Definition irqwork_task (s : sys) (c : nat) (t : Z) : outcome (Z * sys) :=
  let s := list_del s t in
  let* task := get_task s t in
  if t_state task =? TASK_STATE_RUNNING then Ret (0, s) else
  let need_preempt := task_need_resched task in
  let s := upd_task s t task_clear_resched in
  let* s := add_task_to_ready_list s c t (negb (need_preempt =? 0)) in
  let s := upd_task s t (set_t_state TASK_STATE_READY) in
  let s := if negb (t_delay task =? 0)
           then upd_task s t (fun x => set_t_delay 0 (set_t_timer None x)) else s in
  Ret (need_preempt, s).

Fixpoint irqwork_loop (s : sys) (c : nat) (l : list Z) (preempt : Z) : outcome (Z * sys) :=
  match l with
  | [] => Ret (preempt, s)
  | t :: l =>
      let* (need_preempt, s) := irqwork_task s c t in
      irqwork_loop s c l (preempt + need_preempt)
  end.

Definition irqwork_handler (s : sys) (c : nat) : outcome sys :=
  let s := upd_pcpu s c (set_irqwork_pending false) in
  let* p := get_pcpu s c in
  let* (preempt, s) := irqwork_loop s c (new_list p) 0 in
  let* (_, task) := current s c in
  if negb (preempt =? 0) || task_is_idle task then set_need_resched s c else Ret s.

(** ** Going to sleep, up to the call of [sched] *)

(** [sched]: ask for a switch and allow it; the switch is [exception_return_handler]. *)
Definition sched_request (s : sys) (c : nat) : outcome sys :=
  let* (cur, _) := current s c in
  Ret (upd_task s cur (fun t => clear_ti_flag __TIF_DONOT_PREEMPT (set_ti_flag __TIF_NEED_RESCHED t))).

Definition task_sleep (s : sys) (c : nat) (delay : Z) : outcome sys :=
  let* (cur, _) := current s c in
  let* s := do_not_preempt s c in
  let s := upd_task s cur (fun t =>
    set_t_wait_event 0 (set_t_wait_type OS_EVENT_TYPE_TIMER (set_t_state TASK_STATE_WAIT_EVENT
      (set_t_delay (if delay =? u32 (-1) then TASK_WAIT_FOREVER else delay) t)))) in
  sched_request s c.

Definition task_stop (s : sys) (c : nat) (state : Z) : outcome sys :=
  let* (cur, _) := current s c in
  let* s := do_not_preempt s c in
  let s := upd_task s cur (fun t => set_t_wait_type 0 (set_t_state state (set_t_delay 0 t))) in
  sched_request s c.

Definition task_suspend (s : sys) (c : nat) : outcome sys := task_stop s c TASK_STATE_SUSPEND.
Definition task_die (s : sys) (c : nat) : outcome sys := task_stop s c TASK_STATE_STOP.

End Sched.

(** [preempt_allowed()] and whether [cond_resched] calls [sched] *)
Definition sched_allowed (t : task) (irq_disabled : bool) : bool :=
  (ti_preempt t =? 0) && negb irq_disabled.
Definition cond_resched (t : task) (irq_disabled : bool) : bool :=
  negb (Z.land (ti_flags t) __TIF_NEED_RESCHED =? 0) && sched_allowed t irq_disabled.

Definition pcpu_sched_init (p : pcpu) : pcpu :=
  set_ready_list (replicate 8 []) (set_stop_list [] (set_new_list [] p)).

(** [task_timeout_handler]: the delay timer of a sleeping task has expired. *)
Definition task_timeout_handler (s : sys) (c : nat) (t : Z) : outcome sys :=
  let s := upd_task s t (set_t_timer None) in
  let* (_, s) := wake_up_timeout s c t in
  set_need_resched s c.

(** [idle.c] *)
Definition pcpu_can_idle (p : pcpu) : bool :=
  (local_rdy_grp p =? Z.shiftl 1 OS_PRIO_IDLE) && match stop_list p with [] => true | _ => false end.

(** ** The highest-priority task *)

(** [t] heads the first non-empty ready list, of priority [k]. *)
Definition highest (p : pcpu) (k : nat) (t : Z) (l : list Z) : Prop :=
  ready_list p !! k = Some (t :: l) /\ forall j m, (j < k)%nat -> ready_list p !! j = Some m -> m = [].

Lemma grp_nonzero prio p : queues_ok prio p -> 0 < local_rdy_grp p < 256.
Proof.
  intros Hq. pose proof (qk_grp _ _ Hq) as Hg.
  destruct (lookup_lt_is_Some_2 (ready_list p) 7) as [l Hl]; [rewrite (qk_len _ _ Hq); lia|].
  pose proof (qk_idle _ _ Hq l Hl) as Hi. pose proof (qk_bits _ _ Hq 7%nat l Hl) as Hb.
  rewrite bool_decide_false in Hb by (intros ->; by apply not_elem_of_nil in Hi).
  destruct (Z.eq_dec (local_rdy_grp p) 0) as [E|]; [|lia]. by rewrite E, Z.bits_0 in Hb.
Qed.

Lemma highest_exists prio p :
  queues_ok prio p -> exists k t l, highest p k t l /\
    ffs_one_table !! Z.to_nat (local_rdy_grp p) = Some (Z.of_nat k).
Proof.
  intros Hq. pose proof (grp_nonzero prio p Hq) as Hg.
  destruct (ffs_one_table !! Z.to_nat (local_rdy_grp p)) as [k|] eqn:Hk.
  2: { rewrite ffs_one_table_ffs in Hk by done. done. }
  destruct (ffs_one_table_least _ _ Hg Hk) as [(_ & Hb & Hlow) Hr].
  destruct (lookup_lt_is_Some_2 (ready_list p) (Z.to_nat k)) as [l Hl]; [rewrite (qk_len _ _ Hq); lia|].
  pose proof (qk_bits _ _ Hq _ l Hl) as E. rewrite Z2Nat.id, Hb in E by lia.
  destruct l as [|t l]; [done|]. exists (Z.to_nat k), t, l. split; [|f_equal; lia].
  split; [done|]. intros j m Hj Hm. pose proof (qk_bits _ _ Hq j m Hm) as E'.
  rewrite Hlow in E' by lia. by case_bool_decide.
Qed.

Lemma set_ready_at_perm p k l l' :
  ready_list p !! k = Some l -> l' ≡ₚ l -> pcpu_nodes (set_ready_at (Z.of_nat k) l' p) ≡ₚ pcpu_nodes p.
Proof.
  intros Hk Hp. unfold pcpu_nodes; cbn. rewrite Nat2Z.id.
  destruct (concat_insert_perm _ k l Hk) as (rest & -> & ->). by rewrite Hp.
Qed.

(** Reordering a list keeps the queues well-formed. *)
Lemma set_ready_at_ok prio p k l l' :
  queues_ok prio p -> ready_list p !! k = Some l -> l' ≡ₚ l ->
  queues_ok prio (set_ready_at (Z.of_nat k) l' p).
Proof.
  intros Hq Hk Hp. apply (queues_ok_update prio p _ k l l'); try done.
  - intros t Ht. rewrite Hp in Ht. by apply (qk_prio _ _ Hq k l).
  - intros ->. rewrite Hp. by apply (qk_idle _ _ Hq).
  - cbn. by rewrite Nat2Z.id.
  - cbn. rewrite (Permutation_length Hp). symmetry. apply list_insert_id, (qk_count _ _ Hq _ _ Hk).
  - apply (qk_grp _ _ Hq).
  - intros i Hi. cbn. destruct (Z.eqb_spec i (Z.of_nat k)) as [->|]; [|done].
    rewrite (qk_bits _ _ Hq k l Hk). f_equal. apply bool_decide_ext.
    split; intros ->; [by apply Permutation_nil_r in Hp|by apply Permutation_nil_l in Hp].
Qed.

Lemma rotate_Ret s c p k t l :
  sys_ok s -> cpus s !! c = Some p -> ready_list p !! k = Some (t :: l) ->
  rotate s c (Z.of_nat k) t = Ret (put s c (set_ready_at (Z.of_nat k) (l ++ [t]) p)) /\
  sys_ok (put s c (set_ready_at (Z.of_nat k) (l ++ [t]) p)).
Proof.
  intros Hok Hc Hk. pose proof (pcpu_nodes_nodup _ _ _ Hok Hc) as Hnd.
  pose proof (lookup_lt_Some _ _ _ Hk) as Hlt.
  assert (Hw : without t (t :: l) = l).
  { pose proof (ready_nodup _ _ _ Hnd Hk) as [Ht _]%NoDup_cons. unfold without.
    rewrite filter_cons_False by (intros H; by apply H). by apply without_absent. }
  split.
  - unfold rotate. rewrite (list_del_put s c p t k (t :: l)), Hw by
      (done || apply (so_nodup _ Hok) || (apply elem_of_cons; by left)).
    rewrite (get_pcpu_Ret _ c _ (put_lookup _ _ _ _ Hc)); cbn. unfold ready_at; cbn.
    rewrite !Nat2Z.id, list_lookup_insert_eq, (proj2 (Z.leb_le _ _)) by (done || lia). cbn.
    rewrite (upd_put _ _ _ _ _ Hc). unfold set_ready_at; cbn.
    by rewrite !Nat2Z.id, list_insert_insert_eq.
  - rewrite <- (upd_pcpu_put s c p (set_ready_at (Z.of_nat k) (l ++ [t])) Hc).
    apply (sys_ok_same s c p); [done|done| |].
    + apply (set_ready_at_ok _ p k (t :: l)); [by apply (so_queues _ Hok c)|done|solve_Permutation].
    + apply (set_ready_at_perm p k (t :: l)); [done|solve_Permutation].
Qed.

(** ** Picking a task that is not stopping *)

(** The CPU's state once the current task has left the ready lists if it must. *)
Definition parts (s : sys) (c : nat) (p p1 : pcpu) (x : task) : Prop :=
  ready_list p1 = (if task_is_running x then ready_list p
                   else map (without (running_task p)) (ready_list p)) /\
  new_list p1 = new_list p /\ stop_list p1 = stop_list p /\ running_task p1 = running_task p /\
  idle_task p1 = idle_task p /\ kworker_flag p1 = kworker_flag p /\
  irqwork_pending p1 = irqwork_pending p /\ sys_ok (put s c p1) /\
  state_nodes s ≡ₚ (if task_is_running x then [] else [running_task p]) ++ state_nodes (put s c p1).

Lemma leave_ready_list s c p x :
  sys_inv s -> cpus s !! c = Some p -> tasks s !! running_task p = Some x ->
  exists p1, parts s c p p1 x /\
    (if negb (task_is_running x) then remove_task_from_ready_list s c (running_task p) else Ret s)
      = Ret (put s c p1).
Proof.
  intros Hs Hc Hx. pose proof (si_ok _ Hs) as Hok. unfold parts. destruct (task_is_running x) eqn:Hr; simpl.
  { exists p. assert (E : put s c p = s).
    { unfold put. destruct s; cbn in *. f_equal. by apply list_insert_id. }
    by rewrite E. }
  pose proof (so_queues _ Hok c p Hc) as Hq. pose proof (pcpu_nodes_nodup _ _ _ Hok Hc) as Hnd.
  destruct (ready_prio s c p _ x Hok Hc Hx (si_run _ Hs c p Hc)) as (k & l & Hk & Hin & Hprio).
  destruct (remove_task_from_ready_list_Ret s c p _ x x k l Hok Hc Hx Hx Hk Hin) as (timer & Hrm).
  exists (dequeued p k (without (running_task p) l) timer). split; [|done].
  split_and!; try done.
  - cbn. symmetry. apply (map_insert_local _ (running_task p) (without_absent _) _ k l); try done.
    by apply NoDup_app in Hnd as (? & _ & _).
  - rewrite <- (upd_pcpu_put s c p (fun _ => dequeued p k (without (running_task p) l) timer) Hc).
    pose proof (ready_nodup _ _ _ Hnd Hk) as Hndl.
    apply (sys_ok_del s c p _ (running_task p)); try done.
    + apply dequeued_ok; try done. intros E.
      unfold task_is_running in Hr. bool_hyps. rewrite E in Hx.
      destruct (si_idle _ Hs c p x Hc Hx) as [|Hst]; [done|].
      apply (si_not_ready _ Hs (idle_task p) x Hx); [rewrite <- E; by eapply elem_of_running|done].
    + by apply dequeued_nodes.
  - pose proof (ready_nodup _ _ _ Hnd Hk) as Hndl.
    destruct (state_nodes_upd s c p Hc) as (rest & -> & Hu).
    specialize (Hu (fun _ => dequeued p k (without (running_task p) l) timer)).
    rewrite (upd_pcpu_put _ _ _ _ Hc) in Hu. rewrite Hu.
    by rewrite (dequeued_nodes p k l (running_task p) timer) by done.
Qed.

Lemma pick_next_task_Ret s c p x :
  sys_inv s -> cpus s !! c = Some p -> tasks s !! running_task p = Some x ->
  t_state x <> TASK_STATE_STOP ->
  exists p1 k next l, parts s c p p1 x /\ highest p1 k next l /\
    pick_next_task s c = Ret (next, put s c (set_ready_at (Z.of_nat k) (l ++ [next]) p1)) /\
    sys_ok (put s c (set_ready_at (Z.of_nat k) (l ++ [next]) p1)).
Proof.
  intros Hs Hc Hx Hstop.
  destruct (leave_ready_list s c p x Hs Hc Hx) as (p1 & Hp1 & Hrm).
  pose proof Hp1 as (_ & _ & _ & _ & _ & _ & _ & Hok1 & _).
  pose proof (put_lookup s c p p1 Hc) as Hc1.
  pose proof (so_queues _ Hok1 c p1 Hc1) as Hq1.
  destruct (highest_exists _ _ Hq1) as (k & next & l & Hh & Hffs).
  destruct (rotate_Ret (put s c p1) c p1 k next l Hok1 Hc1 (proj1 Hh)) as [Hrot Hok2].
  rewrite put_put in Hrot, Hok2. exists p1, k, next, l. split_and!; try done.
  unfold pick_next_task. rewrite (current_Ret _ _ _ _ Hc Hx). cbn [obind].
  rewrite (proj2 (Z.eqb_neq (t_state x) TASK_STATE_READY)) by
    (apply (si_not_ready _ Hs (running_task p)); [done|by eapply elem_of_running]). cbn [obind assert negb].
  rewrite (proj2 (Z.eqb_neq (t_state x) TASK_STATE_STOP)) by done.
  assert (Hleave : (if negb (task_is_running x)
    then let* s := remove_task_from_ready_list s c (running_task p) in Ret s else Ret s) = Ret (put s c p1)).
  { destruct (negb (task_is_running x)); [by rewrite Hrm|done]. }
  rewrite Hleave. cbn [obind]. rewrite (get_pcpu_Ret _ _ _ Hc1). cbn [obind]. rewrite Hffs. cbn [default id].
  rewrite (proj2 (Z.eqb_neq (Z.of_nat k) (-1))) by lia. cbn [obind assert negb].
  unfold ready_at. rewrite Nat2Z.id, (proj1 Hh), (proj2 (Z.leb_le 0 (Z.of_nat k))) by lia.
  cbn [obind]. by rewrite Hrot.
Qed.

Section Switching.
Context (run_time : Z).

(** The state of a task in [switch_to_task s c cur next]. *)
Definition switched (c : nat) (cur next : Z) (t : Z) (x : task) : task :=
  if t =? next then sched_in c (if t =? cur then sched_out run_time x else x)
  else if t =? cur then sched_out run_time x else x.

Lemma switch_lookup s c cur next t :
  tasks (switch_to_task run_time s c cur next) !! t = switched c cur next t <$> tasks s !! t.
Proof.
  unfold switch_to_task, switched; cbn.
  destruct (Z.eqb_spec t next) as [->|Hn].
  - rewrite lookup_alter_eq. destruct (Z.eqb_spec next cur) as [->|Hc].
    + rewrite lookup_alter_eq. by destruct (tasks s !! cur).
    + rewrite lookup_alter_ne by done. by destruct (tasks s !! next).
  - rewrite lookup_alter_ne by done. destruct (Z.eqb_spec t cur) as [->|Hc].
    + rewrite lookup_alter_eq. by destruct (tasks s !! cur).
    + rewrite lookup_alter_ne by done. by destruct (tasks s !! t).
Qed.

Lemma sched_out_fields x :
  t_prio (sched_out run_time x) = t_prio x /\ t_affinity (sched_out run_time x) = t_affinity x /\
  t_cpu (sched_out run_time x) = -1 /\
  t_state (sched_out run_time x) =
    (if t_state x =? TASK_STATE_RUNNING then TASK_STATE_READY else t_state x).
Proof.
  unfold sched_out. destruct (Z.eqb_spec (t_state x) TASK_STATE_RUNNING) as [E|E].
  - rewrite E. by destruct (0 <? t_delay x).
  - by destruct (_ && _).
Qed.

Lemma switched_fields c cur next t x :
  t_prio (switched c cur next t x) = t_prio x /\ t_affinity (switched c cur next t x) = t_affinity x.
Proof.
  unfold switched. destruct (t =? next), (t =? cur); cbn; split; try done; by apply sched_out_fields.
Qed.

Lemma switch_cpus s c p cur next :
  cpus s !! c = Some p ->
  cpus (switch_to_task run_time s c cur next) = <[c := set_running_task next p]> (cpus s).
Proof. intros Hc. unfold switch_to_task. by rewrite (upd_pcpu_put _ c p) by done. Qed.

Lemma switch_ok s c p cur next :
  sys_ok s -> cpus s !! c = Some p -> sys_ok (switch_to_task run_time s c cur next).
Proof.
  intros Hok Hc.
  assert (Hput : sys_ok (put s c (set_running_task next p))).
  { rewrite <- (upd_pcpu_put s c p (set_running_task next) Hc). apply (sys_ok_same s c p); try done.
    apply (queues_ok_same _ p); try done. by apply (so_queues _ Hok c). }
  apply (sys_ok_tasks (put s c (set_running_task next p))); [by rewrite (switch_cpus s c p)| |done].
  intros t. unfold prio_of. rewrite switch_lookup. cbn. destruct (tasks s !! t) as [x|]; cbn; [|done].
  f_equal. apply switched_fields.
Qed.

Lemma running_insert s s' c p q :
  cpus s !! c = Some p -> cpus s' = <[c := q]> (cpus s) ->
  forall t, t ∈ running s' <->
    t = running_task q \/ exists c' p', c' <> c /\ cpus s !! c' = Some p' /\ running_task p' = t.
Proof.
  intros Hc Hcpus t. split.
  - intros (c' & p' & Hc' & E)%running_inv. rewrite Hcpus in Hc'.
    apply list_lookup_insert_Some in Hc' as [(<- & <- & _)|[Hn Hc']]; [by left|]. right. eauto.
  - intros [->|(c' & p' & Hn & Hc' & <-)].
    + apply (elem_of_running s' c). rewrite Hcpus. apply list_lookup_insert_eq. by eapply lookup_lt_Some.
    + apply (elem_of_running s' c' p'). rewrite Hcpus. by rewrite list_lookup_insert_ne.
Qed.

Lemma running_unique s c p c' p' :
  sys_inv s -> cpus s !! c = Some p -> cpus s !! c' = Some p' ->
  running_task p = running_task p' -> c = c'.
Proof.
  intros Hs Hc Hc' E. apply (node_pcpu_unique s c p c' p' (running_task p)); try done.
  - apply (si_ok _ Hs).
  - apply on_ready_node. by apply (si_run _ Hs c).
  - rewrite E. apply on_ready_node. by apply (si_run _ Hs c').
Qed.

(** [s2] is [s] with the current task possibly off its ready list: switching to a
    ready task re-establishes the invariant. *)
Lemma switch_inv s c p p2 x next :
  sys_inv s -> cpus s !! c = Some p -> tasks s !! running_task p = Some x ->
  sys_ok (put s c p2) -> running_task p2 = running_task p -> idle_task p2 = idle_task p ->
  on_ready p2 next -> next <> running_task p ->
  (forall t, t ∈ state_nodes (put s c p2) -> t ∈ state_nodes s) ->
  (t_state x = TASK_STATE_WAIT_EVENT -> running_task p ∉ state_nodes (put s c p2)) ->
  sys_inv (switch_to_task run_time (put s c p2) c (running_task p) next).
Proof.
  intros Hs Hc Hx Hok2 Hrun Hidle Hnext Hne Hsub Hgone.
  pose proof (put_lookup s c p p2 Hc) as Hc2. set (cur := running_task p) in *.
  set (s3 := switch_to_task run_time (put s c p2) c cur next).
  assert (Hcpus : cpus s3 = <[c := set_running_task next p2]> (cpus s)).
  { unfold s3. rewrite (switch_cpus _ c p2) by done. cbn. by rewrite list_insert_insert_eq. }
  assert (Hlook : forall t, tasks s3 !! t = switched c cur next t <$> tasks s !! t).
  { intros t. exact (switch_lookup (put s c p2) c cur next t). }
  assert (Hnodes : state_nodes s3 ≡ₚ state_nodes (put s c p2)).
  { unfold state_nodes. rewrite Hcpus. change (concat (map pcpu_nodes (<[c := set_running_task next p2]> (cpus s)))) with
      (state_nodes (put s c (set_running_task next p2))).
    rewrite <- (put_put s c p2). by apply (nodes_put (put s c p2) c p2). }
  pose proof (running_insert s s3 c p (set_running_task next p2) Hc Hcpus) as Hrn.
  assert (Hcur : forall c' p', c' <> c -> cpus s !! c' = Some p' -> running_task p' <> cur).
  { intros c' p' Hn Hc' E. by apply Hn, (running_unique s c' p' c p). }
  assert (Hst : forall t y, tasks s3 !! t = Some y -> exists z, tasks s !! t = Some z /\ y = switched c cur next t z).
  { intros t y Hy. rewrite Hlook in Hy. destruct (tasks s !! t) as [z|]; [|done]. cbn in Hy. simplify_eq. eauto. }
  split.
  - by apply (switch_ok _ c p2).
  - intros c' p'. rewrite Hcpus. intros [(<- & <- & _)|[Hn Hc']]%list_lookup_insert_Some; [done|].
    by apply (si_run _ Hs c').
  - intros t y (z & Hz & ->)%Hst. unfold valid_task. destruct (switched_fields c cur next t z) as [-> ->].
    rewrite Hcpus, length_insert. by apply (si_valid _ Hs t).
  - intros t y (z & Hz & ->)%Hst Hw Hnr. rewrite Hnodes.
    assert (Htn : t <> next) by (intros ->; apply Hnr, Hrn; by left).
    unfold switched in *. rewrite (proj2 (Z.eqb_neq t next)) in * by done.
    destruct (Z.eqb_spec t cur) as [->|Htc].
    + destruct (sched_out_fields z) as (_ & _ & -> & Est). split; [done|]. apply Hgone.
      assert (z = x) as -> by congruence. rewrite Est in Hw.
      by destruct (t_state x =? TASK_STATE_RUNNING).
    + destruct (si_wait _ Hs t z Hz Hw) as [H1 H2].
      { intros (c' & p' & Hc' & E)%running_inv. apply Hnr, Hrn. right. exists c', p'.
        split_and!; try done. intros ->. simplify_eq. }
      split; [done|]. intros Hin. by apply H2, Hsub.
  - intros t y (z & Hz & ->)%Hst [->|(c' & p' & Hn & Hc' & E)]%Hrn.
    + unfold switched. by rewrite Z.eqb_refl.
    + pose proof (Hcur c' p' Hn Hc') as Htc. unfold switched.
      destruct (Z.eqb_spec t next); [done|]. rewrite (proj2 (Z.eqb_neq t cur)) by congruence.
      apply (si_not_ready _ Hs t z Hz). rewrite <- E. by eapply elem_of_running.
  - intros t y (z & Hz & ->)%Hst Hr. apply Hrn. unfold switched in Hr.
    destruct (Z.eqb_spec t next); [by left|]. right. destruct (Z.eqb_spec t cur) as [->|Htc].
    + destruct (sched_out_fields z) as (_ & _ & _ & E). rewrite E in Hr.
      destruct (Z.eqb_spec (t_state z) TASK_STATE_RUNNING); done.
    + destruct (running_inv s t (si_running _ Hs t z Hz Hr)) as (c' & p' & Hc' & E).
      exists c', p'. split_and!; try done. intros ->. simplify_eq.
  - intros c' p' y Hc' Hy. assert (Hp : exists p0, cpus s !! c' = Some p0 /\ idle_task p' = idle_task p0).
    { rewrite Hcpus in Hc'. apply list_lookup_insert_Some in Hc' as [(<- & <- & _)|[_ Hc']]; eauto. }
    destruct Hp as (p0 & Hp0 & E). rewrite E in Hy. destruct (Hst _ _ Hy) as (z & Hz & ->).
    pose proof (si_idle _ Hs c' p0 z Hp0 Hz) as Hi. unfold switched.
    destruct (idle_task p0 =? next); [by left|]. destruct (idle_task p0 =? cur); [|done].
    destruct (sched_out_fields z) as (_ & _ & _ & ->).
    destruct (Z.eqb_spec (t_state z) TASK_STATE_RUNNING); [by right|done].
Qed.
End Switching.

Lemma sys_inv_put s c p q :
  sys_inv s -> cpus s !! c = Some p -> sys_ok (put s c q) ->
  running_task q = running_task p -> idle_task q = idle_task p -> on_ready q (running_task q) ->
  (forall t, t ∈ state_nodes (put s c q) -> t ∈ state_nodes s) -> sys_inv (put s c q).
Proof.
  intros [H1 H2 H3 H4 H5 H6 H7] Hc Hok Hr Hi Hon Hsub.
  pose proof (running_put s c p q Hc Hr) as Hrn.
  split; try done.
  - intros c' p'. cbn. intros [(<- & <- & _)|[Hn Hc']]%list_lookup_insert_Some; [done|by apply (H2 c')].
  - intros t x Hx. unfold valid_task; cbn. rewrite length_insert. by apply (H3 t).
  - intros t x Hx Hw. rewrite Hrn. intros Hnr. destruct (H4 t x Hx Hw Hnr) as [Hcpu Hn].
    split; [done|]. intros Hin. by apply Hn, Hsub.
  - intros t x Hx. rewrite Hrn. by apply H5.
  - intros t x Hx. rewrite Hrn. by apply H6.
  - intros c' p' x. cbn. intros [(<- & <- & _)|[Hn Hc']]%list_lookup_insert_Some Hx; [|by apply (H7 c' p')].
    rewrite Hi in Hx. by apply (H7 c p).
Qed.

(** Changes of a CPU outside its lists keep the invariant. *)
Lemma sys_inv_put_same s c p q :
  sys_inv s -> cpus s !! c = Some p ->
  ready_list q = ready_list p -> tasks_in_prio q = tasks_in_prio p ->
  local_rdy_grp q = local_rdy_grp p -> idle_task q = idle_task p ->
  running_task q = running_task p -> pcpu_nodes q = pcpu_nodes p -> sys_inv (put s c q).
Proof.
  intros Hs Hc E1 E2 E3 E4 E5 E6. apply (sys_inv_put s c p); try done.
  - rewrite <- (upd_pcpu_put s c p (fun _ => q) Hc). apply (sys_ok_same s c p); [|done| |by rewrite E6].
    + apply (si_ok _ Hs).
    + apply (queues_ok_same _ p); try done. by apply (so_queues _ (si_ok _ Hs) c).
  - unfold on_ready. rewrite E1, E5. exact (si_run _ Hs c p Hc).
  - intros t. by rewrite (nodes_put s c p q Hc) by (by rewrite E6).
Qed.

(** Arming or stopping the time-slice timer changes nothing else. *)
Lemma sched_update_sched_timer_inv s c p x :
  sys_inv s -> cpus s !! c = Some p -> tasks s !! running_task p = Some x ->
  exists q, sched_update_sched_timer s c = Ret (put s c q) /\ sys_inv (put s c q) /\
    q = set_sched_timer (if 1 <? count_at p (t_prio x) then Some (t_run_time x) else None) p.
Proof.
  intros Hs Hc Hx. rewrite (sched_update_sched_timer_Ret s c p x Hc Hx).
  set (q := set_sched_timer _ p). exists q. split_and!; [done| |done].
  by apply (sys_inv_put_same s c p).
Qed.

(** The ready lists the next task is taken from. *)
Definition candidates (p : pcpu) (x : task) : list (list Z) :=
  if task_is_running x then ready_list p else map (without (running_task p)) (ready_list p).

(** The flags under which a CPU switches on the way out of an exception. *)
Definition may_switch (x : task) : Prop :=
  Z.land (ti_flags x) __TIF_NEED_RESCHED <> 0 /\ ti_preempt x <= 0 /\
  Z.land (ti_flags x) __TIF_DONOT_PREEMPT = 0.

Lemma not_in_candidates p x m :
  task_is_running x = false -> m ∈ candidates p x -> running_task p ∉ m.
Proof.
  unfold candidates. intros ->. change (map ?f ?l) with (f <$> l).
  intros (l & -> & _)%list_elem_of_fmap. unfold without. rewrite list_elem_of_filter. by intros [? _].
Qed.

Lemma parts_nodes s c p p1 x k next l t :
  sys_ok s -> cpus s !! c = Some p -> parts s c p p1 x -> ready_list p1 !! k = Some (next :: l) ->
  t ∈ state_nodes (put s c (set_ready_at (Z.of_nat k) (l ++ [next]) p1)) ->
  t ∈ state_nodes s /\ (task_is_running x = false -> t <> running_task p).
Proof.
  intros Hok Hc (_ & _ & _ & _ & _ & _ & _ & _ & Hn) Hk Ht.
  rewrite <- (put_put s c p1), (nodes_put (put s c p1) c p1) in Ht;
    [|by eapply put_lookup|apply (set_ready_at_perm p1 k (next :: l)); [done|solve_Permutation]].
  split; [rewrite Hn; apply elem_of_app; by right|]. intros Hr ->. rewrite Hr in Hn.
  pose proof (so_nodup _ Hok) as Hnd. rewrite Hn in Hnd. by apply NoDup_cons in Hnd as [? _].
Qed.

Lemma set_ready_at_on_ready p k l l' t :
  ready_list p !! k = Some l -> l' ≡ₚ l -> on_ready (set_ready_at (Z.of_nat k) l' p) t <-> on_ready p t.
Proof.
  intros Hk Hp. unfold on_ready; cbn. rewrite Nat2Z.id.
  destruct (concat_insert_perm _ k l Hk) as (rest & -> & ->). by rewrite Hp.
Qed.

Lemma pick_head_ready s c p p1 x k next l :
  cpus s !! c = Some p -> parts s c p p1 x -> highest p1 k next l ->
  on_ready p1 next /\ candidates p x !! k = Some (next :: l) /\
  (forall j m, (j < k)%nat -> candidates p x !! j = Some m -> m = []) /\
  (task_is_running x = false -> next <> running_task p).
Proof.
  intros Hc (Hrl & _) [Hk Hlow]. fold (candidates p x) in Hrl. rewrite Hrl in Hk, Hlow.
  assert (Hin : next ∈ next :: l) by (apply elem_of_cons; by left).
  split_and!; try done.
  - apply on_ready_lookup. rewrite Hrl. eauto.
  - intros Hr ->. apply (not_in_candidates p x (running_task p :: l)); [done| |done].
    by eapply list_elem_of_lookup_2.
Qed.

(** A task whose flags let it be switched out when asked. *)
Definition calm (x : task) : Prop := ti_preempt x <= 0 /\ Z.land (ti_flags x) __TIF_DONOT_PREEMPT = 0.

(** No task of [s] loses that. *)
Definition calm_kept (s s' : sys) : Prop :=
  forall u x', tasks s' !! u = Some x' -> exists x, tasks s !! u = Some x /\ (calm x -> calm x').

Lemma calm_kept_refl s s' : tasks s' = tasks s -> calm_kept s s'.
Proof. intros E u x' Hu. rewrite E in Hu. eauto. Qed.

Lemma calm_kept_trans s s1 s2 : calm_kept s s1 -> calm_kept s1 s2 -> calm_kept s s2.
Proof.
  intros H1 H2 u x2 Hu. destruct (H2 u x2 Hu) as (x1 & Hu1 & Hc1).
  destruct (H1 u x1 Hu1) as (x & Hx & Hc). eauto.
Qed.

Lemma calm_kept_upd s t f : (forall x, calm x -> calm (f x)) -> calm_kept s (upd_task s t f).
Proof.
  intros Hf u x' Hu. cbn in Hu. apply lookup_alter_Some in Hu as [(-> & x & Hx & ->)|[_ Hu]]; eauto.
Qed.

Lemma calm_set m x : Z.land m __TIF_DONOT_PREEMPT = 0 -> calm x -> calm (set_ti_flag m x).
Proof. intros Hm [H1 H2]. split; [done|]. cbn. by rewrite Z.land_lor_distr_l, H2, Hm. Qed.

Lemma calm_clear m x : calm x -> calm (clear_ti_flag m x).
Proof.
  intros [H1 H2]. split; [done|]. cbn.
  rewrite <- Z.land_assoc, (Z.land_comm (not64 m)), Z.land_assoc, H2. apply Z.land_0_l.
Qed.
#[local] Hint Resolve calm_set calm_clear calm_kept_upd : minos.

(** The same CPU state up to the timer. *)
Lemma timer_step s c p x (b : bool) :
  sys_inv s -> cpus s !! c = Some p -> tasks s !! running_task p = Some x ->
  exists s' p', (if b then sched_update_sched_timer s c else Ret s) = Ret s' /\ sys_inv s' /\
    tasks s' = tasks s /\ cpus s' = <[c := p']> (cpus s) /\ running_task p' = running_task p /\
    ready_list p' = ready_list p.
Proof.
  intros Hs Hc Hx. destruct b.
  - destruct (sched_update_sched_timer_inv s c p x Hs Hc Hx) as (q & -> & Hs' & ->).
    by eexists _, _.
  - exists s, p. split_and!; try done. by rewrite list_insert_id.
Qed.

Section Schedule.
Context (run_time : Z).

Lemma run_again_Ret s c p x :
  sys_inv s -> cpus s !! c = Some p -> tasks s !! running_task p = Some x ->
  exists r s' y, task_run_again s c = Ret (r, s') /\ sys_inv s' /\ cpus s' = cpus s /\
    tasks s' !! running_task p = Some y /\ core y = core x /\ calm_kept s s'.
Proof.
  intros Hs Hc Hx. unfold task_run_again. rewrite (current_Ret _ _ _ _ Hc Hx). cbn [obind].
  eexists _, _, _. split; [reflexivity|]. split_and!; [|done|by apply upd_task_lookup|done|auto with minos].
  apply (sys_inv_core s); [done| |done]. intros u. by apply core_upd_task.
Qed.

(** What a switching exception return leaves behind. *)
Definition scheduled (s s' : sys) (c : nat) (p : pcpu) (x : task) (k : nat) (next : Z) (l : list Z) : Prop :=
  sys_inv s' /\ exists p' y, cpus s' = <[c := p']> (cpus s) /\ running_task p' = next /\
    ready_list p' = <[k := l ++ [next]]> (candidates p x) /\
    tasks s' !! next = Some y /\ t_state y = TASK_STATE_RUNNING /\ calm_kept s s'.

Lemma schedule_same s c p p1 x k l :
  sys_inv s -> cpus s !! c = Some p -> tasks s !! running_task p = Some x ->
  parts s c p p1 x -> highest p1 k (running_task p) l ->
  sys_ok (put s c (set_ready_at (Z.of_nat k) (l ++ [running_task p]) p1)) ->
  exists r s', task_run_again (put s c (set_ready_at (Z.of_nat k) (l ++ [running_task p]) p1)) c = Ret (r, s') /\
    scheduled s s' c p x k (running_task p) l.
Proof.
  intros Hs Hc Hx Hp1 Hh Hok2. set (p2 := set_ready_at _ _ p1) in *.
  destruct (pick_head_ready s c p p1 x k _ l Hc Hp1 Hh) as (Hon & _ & _ & Hrun).
  pose proof Hp1 as (Hrl & _ & _ & Hrt & Hid & _).
  assert (Hst : t_state x = TASK_STATE_RUNNING).
  { unfold task_is_running in Hrun. destruct (Z.eqb_spec (t_state x) TASK_STATE_RUNNING); [done|].
    by specialize (Hrun eq_refl). }
  assert (Hs2 : sys_inv (put s c p2)).
  { apply (sys_inv_put s c p); try done.
    - cbn. rewrite Hrt. apply (set_ready_at_on_ready p1 k (running_task p :: l)); [apply Hh|solve_Permutation|done].
    - intros t Ht. eapply (parts_nodes s c p p1 x k _ l); [apply (si_ok _ Hs)|done|done|apply Hh|done]. }
  destruct (run_again_Ret (put s c p2) c p2 x Hs2) as (r & s' & y & Hra & Hs' & Hcpus & Hy & Hcy & Hck);
    [by eapply put_lookup|cbn; by rewrite Hrt|].
  exists r, s'. split; [done|]. split; [done|]. exists p2, y. split_and!; [done|done| | | |done].
  - cbn. rewrite Nat2Z.id. by fold (candidates p x) in Hrl; rewrite Hrl.
  - cbn in Hy. by rewrite Hrt in Hy.
  - unfold core in Hcy. congruence.
Qed.

Lemma switch_calm s c p2 cur next : calm_kept s (switch_to_task run_time (put s c p2) c cur next).
Proof.
  intros u x'. rewrite switch_lookup. cbn. destruct (tasks s !! u) as [x|]; [|done]. cbn. intros [= <-].
  exists x. split; [done|]. intros Hx. unfold switched.
  assert (Ho : calm (sched_out run_time x)).
  { unfold sched_out. by destruct (_ && _), (t_state x =? TASK_STATE_RUNNING). }
  destruct (u =? next), (u =? cur); try done; apply (calm_clear _ (set_t_state _ _)); done.
Qed.

Lemma schedule_other s c p p1 x k next l :
  sys_inv s -> cpus s !! c = Some p -> tasks s !! running_task p = Some x ->
  parts s c p p1 x -> highest p1 k next l -> next <> running_task p ->
  sys_ok (put s c (set_ready_at (Z.of_nat k) (l ++ [next]) p1)) ->
  scheduled s (switch_to_task run_time (put s c (set_ready_at (Z.of_nat k) (l ++ [next]) p1)) c
                 (running_task p) next) c p x k next l.
Proof.
  intros Hs Hc Hx Hp1 Hh Hne Hok2. set (p2 := set_ready_at _ _ p1) in *.
  destruct (pick_head_ready s c p p1 x k _ l Hc Hp1 Hh) as (Hon & _ & _ & Hrun).
  pose proof Hp1 as (Hrl & _ & _ & Hrt & Hid & _).
  assert (Hon2 : on_ready p2 next).
  { apply (set_ready_at_on_ready p1 k (next :: l)); [apply Hh|solve_Permutation|done]. }
  assert (Hnodes : forall t, t ∈ state_nodes (put s c p2) ->
    t ∈ state_nodes s /\ (task_is_running x = false -> t <> running_task p)).
  { intros t Ht. eapply (parts_nodes s c p p1 x k _ l); [apply (si_ok _ Hs)|done|done|apply Hh|done]. }
  split.
  - apply (switch_inv run_time s c p p2 x next); try done.
    + intros t Ht. by apply Hnodes.
    + intros Hw Hin. destruct (Hnodes _ Hin) as [_ H]. apply H; [|done]. unfold task_is_running. by rewrite Hw.
  - destruct (so_known _ Hok2 next) as [z Hz].
    { apply (elem_of_state_nodes_put s c p); [done|]. by apply on_ready_node. }
    exists (set_running_task next p2), (switched run_time c (running_task p) next next z).
    rewrite (switch_cpus run_time _ c p2) by (by eapply put_lookup).
    rewrite switch_lookup, Hz. cbn. rewrite list_insert_insert_eq, Nat2Z.id.
    fold (candidates p x) in Hrl. rewrite Hrl. split_and!; try done.
    + unfold switched. by rewrite Z.eqb_refl.
    + by apply switch_calm.
Qed.

Lemma may_switch_flags x :
  may_switch x ->
  (Z.land (ti_flags x) __TIF_NEED_RESCHED =? 0) || (0 <? ti_preempt x)
    || negb (Z.land (ti_flags x) __TIF_DONOT_PREEMPT =? 0) = false.
Proof.
  intros (H1 & H2 & H3). rewrite (proj2 (Z.eqb_neq _ _) H1), H3, (proj2 (Z.ltb_ge _ _) H2). done.
Qed.

Lemma exception_return_schedules s c p x :
  sys_inv s -> cpus s !! c = Some p -> tasks s !! running_task p = Some x ->
  may_switch x -> t_state x <> TASK_STATE_STOP ->
  exists k next l s', candidates p x !! k = Some (next :: l) /\
    (forall j m, (j < k)%nat -> candidates p x !! j = Some m -> m = []) /\
    exception_return_handler run_time s c = Ret s' /\ scheduled s s' c p x k next l.
Proof.
  intros Hs Hc Hx Hm Hstop. unfold exception_return_handler, __exception_return_handler.
  rewrite (current_Ret _ _ _ _ Hc Hx). cbn [obind]. rewrite (may_switch_flags x Hm).
  set (s0 := upd_task s _ _). set (x0 := clear_ti_flag __TIF_NEED_RESCHED x).
  assert (Hs0 : sys_inv s0).
  { apply (sys_inv_core s); [done| |done]. intros u. by apply core_upd_task. }
  assert (Hx0 : tasks s0 !! running_task p = Some x0) by (by apply upd_task_lookup).
  destruct (pick_next_task_Ret s0 c p x0 Hs0 Hc Hx0) as (p1 & k & next & l & Hp1 & Hh & Hpick & Hok2); [done|].
  rewrite Hpick. cbn [obind].
  destruct (pick_head_ready s0 c p p1 x0 k next l Hc Hp1 Hh) as (_ & Hk & Hlow & _).
  assert (Hbody : exists r s1, (if next =? running_task p
      then task_run_again (put s0 c (set_ready_at (Z.of_nat k) (l ++ [next]) p1)) c
      else Ret (0, switch_to_task run_time (put s0 c (set_ready_at (Z.of_nat k) (l ++ [next]) p1)) c
                     (running_task p) next)) = Ret (r, s1) /\ scheduled s0 s1 c p x0 k next l).
  { destruct (Z.eqb_spec next (running_task p)) as [->|Hne].
    - by apply schedule_same.
    - eexists _, _. split; [reflexivity|]. by apply schedule_other. }
  destruct Hbody as (r & s1 & -> & (Hs1 & p' & y & Hcpus & Hr & Hrl & Hy & Hst & Hck)). cbn [obind].
  assert (Hc1 : cpus s1 !! c = Some p').
  { rewrite Hcpus. apply list_lookup_insert_eq. by eapply lookup_lt_Some. }
  destruct (timer_step s1 c p' y ((r =? 0) || (r =? - EAGAIN)) Hs1 Hc1) as (s' & q & Htm & Hs' & Ht & Hcq & Hrq & Hlq);
    [by rewrite Hr|].
  exists k, next, l, s'. rewrite Htm. split_and!; try done. split; [done|].
  exists q, y. rewrite Hcq, Hcpus, list_insert_insert_eq, Ht, Hlq, Hrq. split_and!; try done.
  apply (calm_kept_trans s s0); [apply calm_kept_upd; auto with minos|].
  apply (calm_kept_trans s0 s1); [done|by apply calm_kept_refl].
Qed.

(** C3: When a reschedule is due and the current task is not stopping, the way out of an
    exception gives the CPU to the first task of the highest non-empty priority among the
    ready tasks (a blocked current task no longer being one), moves that task to the back
    of its list, keeps the scheduler's invariant and does not panic.  Taking a stopping
    task off the CPU can panic, see [pick_next_task_stop_panics]. *)
Theorem schedule_runs_highest s c p x :
  sys_inv s -> cpus s !! c = Some p -> tasks s !! running_task p = Some x ->
  may_switch x -> t_state x <> TASK_STATE_STOP ->
  exists k next l s', candidates p x !! k = Some (next :: l) /\
    (forall j m, (j < k)%nat -> candidates p x !! j = Some m -> m = []) /\
    exception_return_handler run_time s c = Ret s' /\ scheduled s s' c p x k next l.
Proof. apply exception_return_schedules. Qed.

End Schedule.

(** ** Round robin *)

(** A time slice ends: the timer interrupt, and the way out of it. *)
Definition time_slice (run_time : Z) (s : sys) (c : nat) : outcome sys :=
  let* s := sched_tick_handler s c in exception_return_handler run_time s c.

(** The tasks that run in the next [n] slices. *)
Fixpoint slices (run_time : Z) (n : nat) (s : sys) (c : nat) : outcome (list Z * sys) :=
  match n with
  | O => Ret ([], s)
  | S n =>
      let* s := time_slice run_time s c in
      let* p := get_pcpu s c in
      let* (l, s) := slices run_time n s c in
      Ret (running_task p :: l, s)
  end.

(** CPU [c] runs a task of its highest priority [k], whose ready list is [l], and
    every task of [l] can be switched out. *)
Record rr_state (s : sys) (c k : nat) (l : list Z) : Prop := {
  rr_inv : sys_inv s;
  rr_cpu : exists p x, cpus s !! c = Some p /\ tasks s !! running_task p = Some x /\
    t_state x = TASK_STATE_RUNNING /\ running_task p ∈ l /\ ready_list p !! k = Some l /\
    forall j m, (j < k)%nat -> ready_list p !! j = Some m -> m = [];
  rr_calm : forall t x, t ∈ l -> tasks s !! t = Some x -> calm x;
}.

Lemma sched_tick_Ret s c p x :
  sys_inv s -> cpus s !! c = Some p -> tasks s !! running_task p = Some x -> calm x ->
  exists s' p' x', sched_tick_handler s c = Ret s' /\ sys_inv s' /\ calm_kept s s' /\
    cpus s' = <[c := p']> (cpus s) /\ running_task p' = running_task p /\
    ready_list p' = ready_list p /\ tasks s' !! running_task p = Some x' /\
    t_state x' = t_state x /\ may_switch x'.
Proof.
  intros Hs Hc Hx Hcalm. unfold sched_tick_handler. rewrite (upd_pcpu_put s c p _ Hc).
  set (q := set_sched_timer None p).
  assert (Hs1 : sys_inv (put s c q)) by (by apply (sys_inv_put_same s c p)).
  rewrite (current_Ret (put s c q) c q x (put_lookup s c p q Hc) Hx). cbn [obind].
  set (s2 := upd_task _ _ _).
  assert (Hx2 : tasks s2 !! running_task q = Some (set_ti_flag __TIF_TICK_EXHAUST x)) by (by apply upd_task_lookup).
  unfold set_need_resched. rewrite (current_Ret s2 c q _ (put_lookup s c p q Hc) Hx2). cbn [obind].
  eexists _, q, (set_ti_flag __TIF_NEED_RESCHED (set_ti_flag __TIF_TICK_EXHAUST x)).
  split; [reflexivity|]. split_and!; try done.
  - apply (sys_inv_core (put s c q)); [done| |done]. intros u.
    rewrite core_upd_task by done. unfold s2. by rewrite core_upd_task.
  - apply (calm_kept_trans s s2); [|apply calm_kept_upd; by auto with minos].
    apply (calm_kept_trans s (put s c q)); [by apply calm_kept_refl|apply calm_kept_upd; by auto with minos].
  - exact (upd_task_lookup s2 (running_task q) _ _ Hx2).
  - destruct (calm_set __TIF_NEED_RESCHED _ eq_refl (calm_set __TIF_TICK_EXHAUST x eq_refl Hcalm)) as [H1 H2].
    split_and!; [|done|done]. cbn. rewrite Z.land_lor_distr_l. change (Z.land __TIF_NEED_RESCHED __TIF_NEED_RESCHED) with 1.
    intros E%Z.lor_eq_0_iff. by destruct E.
Qed.

Lemma time_slice_rotates run_time s c k t l :
  rr_state s c k (t :: l) ->
  exists s' p', time_slice run_time s c = Ret s' /\ rr_state s' c k (l ++ [t]) /\
    cpus s' !! c = Some p' /\ running_task p' = t.
Proof.
  intros [Hs (p & x & Hc & Hx & Hst & Hin & Hk & Hlow) Hcalm]. unfold time_slice.
  destruct (sched_tick_Ret s c p x Hs Hc Hx) as
    (s1 & p1 & x1 & -> & Hs1 & Hck1 & Hcp1 & Hr1 & Hl1 & Hx1 & Hst1 & Hm); [by eapply Hcalm|].
  cbn [obind].
  assert (Hc1 : cpus s1 !! c = Some p1) by (rewrite Hcp1; apply list_lookup_insert_eq; by eapply lookup_lt_Some).
  assert (Hcand : candidates p1 x1 = ready_list p).
  { unfold candidates, task_is_running. by rewrite Hst1, Hst, Hl1. }
  destruct (exception_return_schedules run_time s1 c p1 x1 Hs1 Hc1) as
    (k' & next & l' & s' & Hk' & Hlow' & Hret & Hs' & p' & y & Hcp & Hr & Hrl & Hy & Hsty & Hck);
    [by rewrite Hr1|done|by rewrite Hst1, Hst|].
  rewrite Hcand in *.
  assert (k' = k) as ->.
  { destruct (Nat.lt_trichotomy k' k) as [Hlt|[|Hlt]]; [|done|].
    - by pose proof (Hlow k' _ Hlt Hk').
    - by pose proof (Hlow' k _ Hlt Hk). }
  rewrite Hk in Hk'. injection Hk' as <- <-.
  assert (Hc' : cpus s' !! c = Some p') by (rewrite Hcp; apply list_lookup_insert_eq; by eapply lookup_lt_Some).
  exists s', p'. split_and!; try done. split; [done| |].
  - exists p', y. rewrite Hr, Hrl. split_and!; try done.
    + apply elem_of_app. right. by apply list_elem_of_singleton.
    + apply list_lookup_insert_eq. by eapply lookup_lt_Some.
    + intros j m Hj. rewrite list_lookup_insert_ne by lia. by apply Hlow.
  - intros u z Hu Hz. destruct (calm_kept_trans _ _ _ Hck1 Hck u z Hz) as (z0 & Hz0 & Hc0).
    apply Hc0, (Hcalm u); [|done]. apply elem_of_app in Hu as [Hu|Hu%list_elem_of_singleton]; apply elem_of_cons; [by right|by left].
Qed.

Lemma slices_rotate run_time s c k a b :
  rr_state s c k (a ++ b) ->
  exists s', slices run_time (length a) s c = Ret (a, s') /\ rr_state s' c k (b ++ a).
Proof.
  revert s b. induction a as [|t a IH]; intros s b Hs.
  { exists s. by rewrite app_nil_r. }
  destruct (time_slice_rotates run_time s c k t (a ++ b) Hs) as (s1 & p1 & Hts & Hs1 & Hc1 & Hr1).
  rewrite <- app_assoc in Hs1. destruct (IH s1 (b ++ [t]) Hs1) as (s' & Hsl & Hs').
  exists s'. split; [|by rewrite <- app_assoc in Hs'].
  simpl. rewrite Hts. cbn [obind]. rewrite (get_pcpu_Ret _ _ _ Hc1). cbn [obind].
  rewrite Hsl. cbn [obind]. by rewrite Hr1.
Qed.

(** C4: Time slicing is fair: with no other event than the tick at the end of each slice,
    the tasks of the highest priority run in the order of their ready list, each exactly
    once in as many slices as there are tasks, after which the list is as it was. *)
Theorem round_robin_fair run_time s c k l :
  rr_state s c k l ->
  exists s', slices run_time (length l) s c = Ret (l, s') /\ rr_state s' c k l.
Proof.
  intros Hs. destruct (slices_rotate run_time s c k l []) as (s' & Hsl & Hs').
  - by rewrite app_nil_r.
  - by exists s'.
Qed.

(** ** Tasks handed over by other CPUs *)

Lemma list_del_new s c p t l :
  sys_ok s -> cpus s !! c = Some p -> new_list p = t :: l ->
  list_del s t = put s c (set_new_list l p) /\ (t ∉ state_nodes (put s c (set_new_list l p))) /\
  state_nodes s ≡ₚ t :: state_nodes (put s c (set_new_list l p)).
Proof.
  intros Hok Hc Hn. pose proof (pcpu_nodes_nodup _ _ _ Hok Hc) as Hnd.
  assert (Hperm : pcpu_nodes p ≡ₚ t :: pcpu_nodes (set_new_list l p)).
  { unfold pcpu_nodes; cbn. rewrite Hn. solve_Permutation. }
  assert (Hin : t ∈ pcpu_nodes p) by (rewrite Hperm; apply elem_of_cons; by left).
  assert (Hall : state_nodes s ≡ₚ t :: state_nodes (put s c (set_new_list l p))).
  { destruct (state_nodes_upd s c p Hc) as (rest & -> & Hu). specialize (Hu (set_new_list l)).
    rewrite (upd_pcpu_put _ _ _ _ Hc) in Hu. by rewrite Hu, Hperm. }
  split_and!; [| |done].
  - unfold list_del. rewrite (map_cpus_local _ t (without_absent t) s c p), (upd_pcpu_put _ _ _ _ Hc)
      by (done || apply (so_nodup _ Hok)).
    f_equal. rewrite Hperm in Hnd. apply NoDup_cons in Hnd as [Ht _].
    pose proof (map_lists_absent _ t (without_absent t) (set_new_list l p) Ht) as E.
    unfold map_lists in E |- *; cbn in E |- *. rewrite Hn. unfold without at 2.
    rewrite filter_cons_False by (intros H; by apply H). fold (without t l). cbn in E. exact E.
  - pose proof (so_nodup _ Hok) as H. rewrite Hall in H. by apply NoDup_cons in H as [? _].
Qed.

Lemma running_nodes s t : sys_inv s -> t ∈ running s -> t ∈ state_nodes s.
Proof.
  intros Hs (c & p & Hc & <-)%running_inv. eapply pcpu_node_state; [done|].
  apply on_ready_node. by apply (si_run _ Hs c).
Qed.

(** A task on the [new_list] does not run and does not wait: the error branch of
    [irqwork_handler] is dead. *)
Lemma new_list_task s c p t l :
  sys_inv s -> cpus s !! c = Some p -> new_list p = t :: l ->
  let s1 := put s c (set_new_list l p) in
  exists x, tasks s !! t = Some x /\ list_del s t = s1 /\ (t ∉ state_nodes s1) /\ sys_inv s1 /\
    (t ∉ running s1) /\ t_state x <> TASK_STATE_RUNNING /\ t_state x <> TASK_STATE_WAIT_EVENT.
Proof.
  intros Hs Hc Hn s1. destruct (list_del_new s c p t l (si_ok _ Hs) Hc Hn) as (Hdel & Hnt & Hnodes).
  assert (Hin : t ∈ state_nodes s) by (rewrite Hnodes; apply elem_of_cons; by left).
  destruct (so_known _ (si_ok _ Hs) t Hin) as [x Hx].
  assert (Hs1 : sys_inv s1).
  { apply (sys_inv_put s c p); try done.
    - unfold s1. rewrite <- (upd_pcpu_put s c p (set_new_list l) Hc).
      apply (sys_ok_del s c p _ t); [apply (si_ok _ Hs)|done| |].
      + apply (queues_ok_same _ p); try done. by apply (so_queues _ (si_ok _ Hs) c).
      + unfold pcpu_nodes; cbn. rewrite Hn. solve_Permutation.
    - exact (si_run _ Hs c p Hc).
    - intros u Hu. rewrite Hnodes. apply elem_of_cons. by right. }
  assert (Hnr : t ∉ running s1) by (intros H; by apply Hnt, running_nodes).
  exists x. split_and!; try done.
  - intros E. by apply Hnr, (si_running _ Hs1 t x).
  - intros E. destruct (si_wait _ Hs t x Hx E); [|done].
    by rewrite <- (running_put s c p (set_new_list l p) Hc eq_refl).
Qed.

(** What moving one task from [new_list] to its ready list does. *)
Record adopted (s s' : sys) (c : nat) (p : pcpu) (t : Z) (l : list Z) : Prop := {
  ad_inv : sys_inv s';
  ad_cpu : exists p', cpus s' = <[c := p']> (cpus s) /\ new_list p' = l /\
    running_task p' = running_task p /\ on_ready p' t /\ forall u, on_ready p u -> on_ready p' u;
  ad_task : exists x, tasks s' !! t = Some x /\ t_state x = TASK_STATE_READY /\ t_delay x = 0;
  ad_core : forall u, u <> t -> core <$> tasks s' !! u = core <$> tasks s !! u;
}.

Lemma irqwork_task_Ret s c p t l :
  sys_inv s -> cpus s !! c = Some p -> new_list p = t :: l ->
  exists s', irqwork_task s c t = Ret (0, s') /\ adopted s s' c p t l.
Proof.
  intros Hs Hc Hn.
  destruct (new_list_task s c p t l Hs Hc Hn) as (x & Hx & Hdel & Hnt & Hs1 & Hnr & Hst & Hsw).
  set (p1 := set_new_list l p) in *. set (s1 := put s c p1) in *.
  pose proof (put_lookup s c p p1 Hc) as Hc1.
  set (s2 := upd_task s1 t task_clear_resched).
  assert (Hs2 : sys_inv s2) by (apply (sys_inv_core s1); [done| |done]; intros u; by apply core_upd_task).
  assert (Hx2 : tasks s2 !! t = Some (task_clear_resched x)) by (by apply upd_task_lookup).
  destruct (known_running s2 c p1 Hs2 Hc1) as [y Hy].
  destruct (add_task_readied s2 c p1 t _ y false (si_ok _ Hs2) Hc1 Hx2 Hy Hnt) as
    (s3 & Hadd & Hrd & q & Hcq & Hnq & _ & Hon).
  { by apply (si_valid _ Hs2 t). }
  { intros _. by apply (si_run _ Hs2 c). }
  destruct (rd_task _ _ _ Hrd _ Hx2) as (cpu & fl & Hx3).
  assert (Hs3 : sys_inv s3) by (by apply (sys_inv_readied s2 s3 t (task_clear_resched x))).
  set (f := fun x0 => if negb (t_delay x =? 0) then set_t_delay 0 (set_t_timer None (set_t_state TASK_STATE_READY x0))
                      else set_t_state TASK_STATE_READY x0).
  exists (upd_task s3 t f). split.
  - unfold irqwork_task. rewrite Hdel. fold s1. rewrite (get_task_Ret s1 t x) by done. cbn [obind].
    rewrite (proj2 (Z.eqb_neq _ _) Hst). cbv zeta.
    assert (Hnp : task_need_resched x = 0) by apply Z.land_0_r. rewrite Hnp.
    fold s2. cbn [Z.eqb negb]. rewrite Hadd. cbn [obind]. do 2 f_equal.
    unfold f. destruct (negb (t_delay x =? 0)); [by rewrite alter_compose_upd|done].
  - assert (Hc3 : cpus s3 = <[c := q]> (cpus s)) by (rewrite Hcq; cbn; by rewrite list_insert_insert_eq).
    assert (Hq3 : cpus s3 !! c = Some q) by (rewrite Hc3; apply list_lookup_insert_eq; by eapply lookup_lt_Some).
    destruct (rd_cpus _ _ _ Hrd c q Hq3) as (p2 & Hp2 & Hr & _ & _ & Hsub).
    assert (E : Some p2 = Some p1) by (rewrite <- Hp2; exact Hc1). injection E as ->. split.
    + apply (sys_inv_set_state s3 t f TASK_STATE_READY); [done| |by intros| |right; by left].
      * intros H. rewrite (rd_running _ _ _ Hrd) in H. done.
      * intros z. unfold f. by destruct (negb (t_delay x =? 0)).
    + by exists q.
    + exists (f (set_t_cpu cpu (set_ti_flags fl (task_clear_resched x)))).
      split; [by apply upd_task_lookup|]. unfold f. destruct (Z.eqb_spec (t_delay x) 0); by split.
    + intros u Hu. cbn. rewrite lookup_alter_ne by done. rewrite (rd_core _ _ _ Hrd u Hu).
      by apply (core_upd_task s1 t task_clear_resched u).
Qed.

Lemma irqwork_loop_Ret s c p l :
  sys_inv s -> cpus s !! c = Some p -> new_list p = l ->
  exists s' p', irqwork_loop s c l 0 = Ret (0, s') /\ sys_inv s' /\ cpus s' = <[c := p']> (cpus s) /\
    new_list p' = [] /\ running_task p' = running_task p /\
    (forall u, u ∈ l \/ on_ready p u -> on_ready p' u) /\
    Forall (fun t => exists x, tasks s' !! t = Some x /\ t_state x = TASK_STATE_READY) l /\
    (forall u, u ∉ l -> core <$> tasks s' !! u = core <$> tasks s !! u).
Proof.
  revert s p. induction l as [|t l IH]; intros s p Hs Hc Hn.
  { exists s, p. split_and!; try done; [by rewrite list_insert_id|by intros u [?%not_elem_of_nil|?]]. }
  destruct (irqwork_task_Ret s c p t l Hs Hc Hn) as
    (s1 & Hit & [Hs1 (p1 & Hc1 & Hn1 & Hr1 & Ht1 & Hon1) (x & Hx & Hst & _) Hu1]).
  assert (Hcp1 : cpus s1 !! c = Some p1) by (rewrite Hc1; apply list_lookup_insert_eq; by eapply lookup_lt_Some).
  destruct (IH s1 p1 Hs1 Hcp1 Hn1) as (s' & p' & Hl & Hs' & Hc' & Hn' & Hr' & Hon & Hf & Hu).
  assert (Htl : t ∉ l).
  { pose proof (pcpu_nodes_nodup _ _ _ (si_ok _ Hs) Hc) as (_ & _ & Hnd)%NoDup_app.
    rewrite Hn in Hnd. apply NoDup_app in Hnd as (Hnd & _ & _). by apply NoDup_cons in Hnd as [? _]. }
  exists s', p'. simpl. rewrite Hit. cbn [obind]. change (0 + 0) with 0. rewrite Hl. split_and!; try done.
  - by rewrite Hc', Hc1, list_insert_insert_eq.
  - congruence.
  - intros u [[->|Hin]%elem_of_cons|Hu']; apply Hon; [right|left|right]; auto.
  - constructor; [|done]. pose proof (Hu t Htl) as E. rewrite Hx in E.
    destruct (tasks s' !! t) as [z|]; [|done]. injection E as _ _ E _. exists z. split; [done|congruence].
  - intros u [Hne Hul]%not_elem_of_cons. by rewrite Hu, Hu1.
Qed.

Lemma irqwork_adopts s c p :
  sys_inv s -> cpus s !! c = Some p ->
  exists s' p', irqwork_handler s c = Ret s' /\ sys_inv s' /\ cpus s' !! c = Some p' /\
    new_list p' = [] /\ running_task p' = running_task p /\
    (forall u, u ∈ new_list p \/ on_ready p u -> on_ready p' u) /\
    Forall (fun t => exists x, tasks s' !! t = Some x /\ t_state x = TASK_STATE_READY) (new_list p).
Proof.
  intros Hs Hc. unfold irqwork_handler. rewrite (upd_pcpu_put s c p _ Hc).
  set (q := set_irqwork_pending false p). pose proof (put_lookup s c p q Hc) as Hcq.
  assert (Hs1 : sys_inv (put s c q)) by (by apply (sys_inv_put_same s c p)).
  rewrite (get_pcpu_Ret _ _ _ Hcq). cbn [obind].
  destruct (irqwork_loop_Ret (put s c q) c q (new_list p) Hs1 Hcq eq_refl) as
    (s2 & p2 & Hl & Hs2 & Hc2 & Hn2 & Hr2 & Hon & Hf & _).
  change (new_list q) with (new_list p). rewrite Hl. cbn [obind].
  assert (Hcp2 : cpus s2 !! c = Some p2) by (rewrite Hc2; apply list_lookup_insert_eq; by eapply lookup_lt_Some).
  destruct (known_running s2 c p2 Hs2 Hcp2) as [y Hy].
  rewrite (current_Ret _ _ _ _ Hcp2 Hy). cbn [obind negb Z.eqb orb].
  assert (Hend : exists s', (if task_is_idle y then set_need_resched s2 c else Ret s2) = Ret s' /\
    cpus s' = cpus s2 /\ forall u, core <$> tasks s' !! u = core <$> tasks s2 !! u).
  { destruct (task_is_idle y); [|by exists s2]. unfold set_need_resched.
    rewrite (current_Ret _ _ _ _ Hcp2 Hy). cbn [obind]. eexists. split_and!; [reflexivity|done|].
    intros u. by apply core_upd_task. }
  destruct Hend as (s' & -> & Hc' & Hu). exists s', p2. split_and!; try done.
  - by apply (sys_inv_core s2).
  - by rewrite Hc'.
  - apply (Forall_impl _ _ _ Hf). intros t (x & Hx & Hst). pose proof (Hu t) as E. rewrite Hx in E.
    destruct (tasks s' !! t) as [z|]; [|done]. injection E as _ _ E _. exists z. split; [done|congruence].
Qed.

(** The interrupt that other CPUs send after handing tasks over is always handled:
    every task of [new_list] ends up ready on this CPU, the list is empty, tasks
    that were ready stay ready, and the invariant holds. *)
Theorem irqwork_adopts_all s c p :
  sys_inv s -> cpus s !! c = Some p ->
  exists s' p', irqwork_handler s c = Ret s' /\ sys_inv s' /\ cpus s' !! c = Some p' /\
    new_list p' = [] /\ running_task p' = running_task p /\
    (forall u, u ∈ new_list p \/ on_ready p u -> on_ready p' u) /\
    Forall (fun t => exists x, tasks s' !! t = Some x /\ t_state x = TASK_STATE_READY) (new_list p).
Proof. apply irqwork_adopts. Qed.

(** ** Everything that happens to the scheduler *)

Lemma exception_return_inv run_time s c p x :
  sys_inv s -> cpus s !! c = Some p -> tasks s !! running_task p = Some x ->
  t_state x <> TASK_STATE_STOP ->
  exists s', exception_return_handler run_time s c = Ret s' /\ sys_inv s'.
Proof.
  intros Hs Hc Hx Hstop. destruct ((Z.land (ti_flags x) __TIF_NEED_RESCHED =? 0) || (0 <? ti_preempt x)
    || negb (Z.land (ti_flags x) __TIF_DONOT_PREEMPT =? 0)) eqn:Hm.
  - unfold exception_return_handler, __exception_return_handler.
    rewrite (current_Ret _ _ _ _ Hc Hx). cbn [obind]. rewrite Hm.
    destruct (run_again_Ret s c p x Hs Hc Hx) as (r & s1 & y & -> & Hs1 & Hc1 & Hy & _). cbn [obind].
    destruct (timer_step s1 c p y ((r =? 0) || (r =? - EAGAIN)) Hs1) as (s' & q & -> & Hs' & _);
      [by rewrite Hc1|done|eauto].
  - apply orb_false_iff in Hm as [[H1 H2]%orb_false_iff H3]. bool_hyps.
    destruct (exception_return_schedules run_time s c p x Hs Hc Hx) as (k & n & l & s' & _ & _ & E & Hs' & _);
      [|done|eauto].
    split_and!; [done|lia|]. by destruct (Z.eqb_spec (Z.land (ti_flags x) __TIF_DONOT_PREEMPT) 0).
Qed.

(** The current task blocks, whatever else is written to it. *)
Lemma block_current_inv s c p f :
  sys_inv s -> cpus s !! c = Some p -> running_task p <> idle_task p ->
  (forall x, t_prio (f x) = t_prio x /\ t_affinity (f x) = t_affinity x /\
             t_state (f x) = TASK_STATE_WAIT_EVENT) ->
  sys_inv (upd_task s (running_task p) f).
Proof.
  intros Hs Hc Hid Hf. apply (sys_inv_set_state s _ f TASK_STATE_WAIT_EVENT); [done|done| |done|].
  - intros Hn. exfalso. by apply (not_running_ne s c p _ Hn Hc).
  - right; right. by apply (running_not_idle s c p).
Qed.

Lemma task_sleep_inv s c p delay :
  sys_inv s -> cpus s !! c = Some p -> running_task p <> idle_task p ->
  exists s', task_sleep s c delay = Ret s' /\ sys_inv s'.
Proof.
  intros Hs Hc Hid. destruct (known_running s c p Hs Hc) as [y Hy].
  unfold task_sleep, do_not_preempt, sched_request.
  rewrite (current_Ret _ _ _ _ Hc Hy). cbn [obind]. rewrite alter_compose_upd.
  erewrite (current_Ret (upd_task _ _ _) c p); [|done|by apply upd_task_lookup]. cbn [obind].
  rewrite alter_compose_upd. eexists. split; [reflexivity|]. by apply (block_current_inv s c p).
Qed.

Lemma resched_inv s c p : sys_inv s -> cpus s !! c = Some p ->
  exists s', set_need_resched s c = Ret s' /\ sys_inv s'.
Proof.
  intros Hs Hc. destruct (known_running s c p Hs Hc) as [y Hy]. unfold set_need_resched.
  rewrite (current_Ret _ _ _ _ Hc Hy). cbn [obind]. eexists. split; [reflexivity|].
  apply (sys_inv_core s); [done| |done]. intros u. by apply core_upd_task.
Qed.

(** One event on CPU [c], whose current task is [x]. *)
Inductive sched_step (run_time : Z) (s s' : sys) : Prop :=
  | step_wake c p t x pend_state data r :
      cpus s !! c = Some p -> tasks s !! t = Some x ->
      (t ∉ running s \/ t = running_task p /\ pend_state <> TASK_STATE_PEND_TO) ->
      __wake_up s c t pend_state data = Ret (r, s') -> sched_step run_time s s'
  | step_start c p t x preempt :
      cpus s !! c = Some p -> tasks s !! t = Some x -> t ∉ state_nodes s ->
      t_state x = TASK_STATE_SUSPEND -> task_ready s c t preempt = Ret s' -> sched_step run_time s s'
  | step_wait c p e mode to e' :
      cpus s !! c = Some p -> running_task p <> idle_task p -> mode <> OS_EVENT_TYPE_FLAG ->
      __wait_event s c e mode to = Ret (s', e') -> sched_step run_time s s'
  | step_sleep c p delay :
      cpus s !! c = Some p -> running_task p <> idle_task p ->
      task_sleep s c delay = Ret s' -> sched_step run_time s s'
  | step_exception_return c p x :
      cpus s !! c = Some p -> tasks s !! running_task p = Some x -> t_state x <> TASK_STATE_STOP ->
      exception_return_handler run_time s c = Ret s' -> sched_step run_time s s'
  | step_irqwork c p :
      cpus s !! c = Some p -> irqwork_handler s c = Ret s' -> sched_step run_time s s'
  | step_resched c p :
      cpus s !! c = Some p -> resched_handler s c = Ret s' -> sched_step run_time s s'.

Lemma step_inv run_time s s' : sys_inv s -> sched_step run_time s s' -> sys_inv s'.
Proof.
  intros Hs Hstep. destruct Hstep as [c p t x pend data r Hc Hx Hd H|c p t x pre Hc Hx Hn Hst H
    |c p e mode to e' Hc Hid Hm H|c p delay Hc Hid H|c p x Hc Hx Hst H|c p Hc H|c p Hc H].
  - destruct (wake_up_step s c p t x pend data Hs Hc Hx Hd) as (r' & s1 & E & Hs1 & _). congruence.
  - destruct (known_running s c p Hs Hc) as [y Hy].
    destruct (task_ready_readied s c p t x y pre (si_ok _ Hs) Hc Hx Hy Hn) as (s1 & E & Hrd);
      [by apply (si_valid _ Hs t)|intros _; by apply (si_run _ Hs c)|].
    assert (s1 = s') as -> by congruence. apply (sys_inv_readied s s' t x); try done. by rewrite Hst.
  - destruct (wait_event_blocks s c p e mode to Hs Hc Hid Hm) as (s1 & E & Hs1 & _).
    rewrite E in H. by injection H as <- _.
  - destruct (task_sleep_inv s c p delay Hs Hc Hid) as (s1 & E & Hs1). congruence.
  - destruct (exception_return_inv run_time s c p x Hs Hc Hx Hst) as (s1 & E & Hs1). congruence.
  - destruct (irqwork_adopts s c p Hs Hc) as (s1 & p1 & E & Hs1 & _). congruence.
  - destruct (resched_inv s c p Hs Hc) as (s1 & E & Hs1). unfold resched_handler in H. congruence.
Qed.

(** C1: The scheduler's invariant holds in every state reached by wake-ups, started and
    blocking tasks, task switches and inter-CPU interrupts on any CPUs in any order:
    each task is on at most one list, [local_rdy_grp] and [tasks_in_prio] agree with
    the ready lists, running tasks are ready and sleeping tasks are on no list.  Tasks
    that are being stopped are not among the steps. *)
Theorem scheduler_invariant run_time s s' :
  sys_inv s -> rtc (sched_step run_time) s s' -> sys_inv s'.
Proof. intros Hs H. induction H as [|s1 s2 s3 Hstep _ IH]; [done|]. by eapply IH, step_inv. Qed.

(** ** A stopping task and its worker *)

(** Task 1 has stopped; the CPU's worker, task 2 of the same priority, sleeps on
    [kworker_flag]. *)
Definition demo_stop : sys :=
  mk_sys (tasks (upd_task demo 1 (set_t_state TASK_STATE_STOP)))
    [set_kworker_flag (mk_grp 0 [mk_node 2 0xffff FLAG_WAIT_SET_ANY]) demo_pcpu].

(** [add_task_to_ready_list] inserts a task of the current priority in front of the
    current task, which is on [stop_list] by then: the worker lands on [stop_list],
    its priority's ready list stays empty, and [pick_next_task] panics. *)
Lemma pick_next_task_stop_panics : pick_next_task demo_stop 0 = Panic.
Proof. vm_compute. reflexivity. Qed.

(** With a worker of another priority the stopping task is replaced. *)
Lemma pick_next_task_stop_ok :
  value (pick_next_task (upd_task demo_stop 2 (set_t_prio 1)) 0) = Ret 2.
Proof. vm_compute. reflexivity. Qed.

(** ** Witnesses *)

Definition demo_due : sys := upd_task demo 1 (set_ti_flag __TIF_NEED_RESCHED).
Definition demo_x : task := set_ti_flag __TIF_NEED_RESCHED (demo_task 5 0 TASK_STATE_RUNNING 0).

Lemma demo_due_inv : sys_inv demo_due.
Proof.
  apply (sys_inv_core demo); [done| |apply demo_inv]. intros u. by apply core_upd_task.
Qed.

Lemma schedule_runs_highest_witness :
  exists k next l s', candidates demo_pcpu demo_x !! k = Some (next :: l) /\
    (forall j m, (j < k)%nat -> candidates demo_pcpu demo_x !! j = Some m -> m = []) /\
    exception_return_handler 100 demo_due 0 = Ret s' /\ scheduled demo_due s' 0 demo_pcpu demo_x k next l.
Proof.
  apply (schedule_runs_highest 100 demo_due 0 demo_pcpu demo_x);
    [apply demo_due_inv|done|done|by split_and!|done].
Defined.

Lemma demo_rr : rr_state demo 0 5 [1].
Proof.
  split; [apply demo_inv| |].
  - exists demo_pcpu, (demo_task 5 0 TASK_STATE_RUNNING 0). split_and!; try done.
    + by apply list_elem_of_singleton.
    + intros j m Hj Hm. cbn in Hm. list_cases; try done; lia.
  - intros t x ->%list_elem_of_singleton Hx. vm_compute in Hx. injection Hx as <-. by split.
Qed.

Lemma round_robin_fair_witness :
  exists s', slices 100 1 demo 0 = Ret ([1], s') /\ rr_state s' 0 5 [1].
Proof. apply (round_robin_fair 100 demo 0 5 [1]). apply demo_rr. Defined.

Lemma irqwork_adopts_all_witness :
  exists s' p', irqwork_handler demo 0 = Ret s' /\ sys_inv s' /\ cpus s' !! 0%nat = Some p' /\
    new_list p' = [] /\ running_task p' = 1 /\
    (forall u, u ∈ [] \/ on_ready demo_pcpu u -> on_ready p' u) /\
    Forall (fun t => exists x, tasks s' !! t = Some x /\ t_state x = TASK_STATE_READY) [].
Proof. apply (irqwork_adopts_all demo 0 demo_pcpu); [apply demo_inv|done]. Defined.

Lemma scheduler_invariant_witness :
  exists s', exception_return_handler 100 demo_due 0 = Ret s' /\ sys_inv s'.
Proof.
  destruct (exception_return_handler 100 demo_due 0) as [s'| | |] eqn:E; [|vm_compute in E; discriminate..].
  exists s'. split; [reflexivity|]. apply (scheduler_invariant 100 demo_due s' demo_due_inv).
  apply rtc_once. by apply (step_exception_return 100 demo_due s' 0 demo_pcpu demo_x).
Defined.
