(* ===== verification/Queue.v ===== *)
(** * Message queues

    [core/queue.c]: a ring buffer of message pointers on top of an event.  The
    pointers [q_in] and [q_out] are offsets from [q_start]; [q_end] is the size.
    The ring buffer refines a bounded double-ended queue of messages. *)

From S2P Require Import Prelude Types Bits Task Event.

Record queue := mk_queue {
  q_buf : list Z;      (* q_start *)
  q_in : nat;
  q_out : nat;
  q_size : nat;
  q_cnt : Z;
}.

(** [queue_init] with the [zalloc] results [queue_ok] and [buf_ok]; on success the
    event gets the queue as its data. *)
Definition queue_init (e : event) (size : nat) (q_addr : Z) (queue_ok buf_ok : bool)
    : Z * option (event * queue) :=
  if negb queue_ok then (- ENOMEM, None)
  else if negb buf_ok then (- ENOMEM, None)
  else (0, Some (event_init e OS_EVENT_TYPE_QUEUE q_addr, mk_queue (replicate size 0) 0 0 size 0)).

Definition queue_pop (q : queue) : outcome (Z * queue) :=
  match q_buf q !! q_out q with
  | None => Fault
  | Some pmsg =>
      let out := S (q_out q) in
      let out := if (out =? q_size q)%nat then O else out in
      Ret (pmsg, mk_queue (q_buf q) (q_in q) out (q_size q) (q_cnt q - 1))
  end.

Definition queue_push (q : queue) (pmsg : Z) : outcome queue :=
  match q_buf q !! q_in q with
  | None => Fault
  | Some _ =>
      let inn := S (q_in q) in
      let inn' := if (inn =? q_size q)%nat then O else inn in
      Ret (mk_queue (<[q_in q := pmsg]> (q_buf q)) inn' (q_out q) (q_size q) (q_cnt q + 1))
  end.

Definition queue_push_front (q : queue) (pmsg : Z) : outcome queue :=
  let out := if (q_out q =? 0)%nat then q_size q else q_out q in
  match out with
  | O => Fault
  | S out =>
      match q_buf q !! out with
      | None => Fault
      | Some _ => Ret (mk_queue (<[out := pmsg]> (q_buf q)) (q_in q) out (q_size q) (q_cnt q + 1))
      end
  end.

Definition queue_accept (q : queue) : outcome (Z * queue) :=
  if 0 <? q_cnt q then queue_pop q else Ret (0, q).

Definition queue_flush (q : queue) : Z * queue := (0, mk_queue (q_buf q) 0 0 (q_size q) 0).

Definition queue_pend (s : sys) (c : nat) (e : event) (q : queue) (timeout : Z)
    : outcome (pend_result * sys * event * queue) :=
  if 0 <? q_cnt q then let* (pmsg, q) := queue_pop q in Ret (Done pmsg, s, e, q)
  else let* (s, e) := __wait_event s c e OS_EVENT_TYPE_QUEUE timeout in Ret (Blocked, s, e, q).

Definition __queue_post (s : sys) (c : nat) (e : event) (q : queue) (pmsg : Z) (front : bool)
    : outcome (Z * sys * event * queue) :=
  let* ((ret, s), e) := __wake_up_event_waiter s c e pmsg TASK_STATE_PEND_OK 1 in
  if negb (ret =? 0) then Ret (0, s, e, q)
  else if Z.of_nat (q_size q) <=? q_cnt q then Ret (- ENOSPC, s, e, q)
  else let* q := if front then queue_push_front q pmsg else queue_push q pmsg in
       Ret (ret, s, e, q).

Definition queue_post (s : sys) (c : nat) (e : event) (q : queue) (pmsg : Z) :=
  __queue_post s c e q pmsg false.
Definition queue_post_front (s : sys) (c : nat) (e : event) (q : queue) (pmsg : Z) :=
  __queue_post s c e q pmsg true.
Definition queue_post_abort (e : event) (opt : Z) : Z := 0.

(** ** The double-ended queue it implements *)

Definition slot (q : queue) (i : nat) : nat := (q_out q + i) mod q_size q.

(** The messages in the order they will be popped. *)
Definition contents (q : queue) : list Z :=
  (fun i => default 0 (q_buf q !! slot q i)) <$> seq 0 (Z.to_nat (q_cnt q)).

Record queue_ok (q : queue) : Prop := {
  qo_size : (0 < q_size q)%nat;
  qo_len : length (q_buf q) = q_size q;
  qo_cnt : 0 <= q_cnt q <= Z.of_nat (q_size q);
  qo_out : (q_out q < q_size q)%nat;
  qo_in : q_in q = slot q (Z.to_nat (q_cnt q));
}.

Lemma mod_wrap a n : (0 < n)%nat -> (a < 2 * n)%nat -> (a mod n = if a <? n then a else a - n)%nat.
Proof.
  intros Hn Ha. destruct (Nat.ltb_spec a n) as [|H]; [by apply Nat.mod_small|].
  rewrite <- (Nat.mod_small (a - n) n) by lia.
  replace a with (a - n + 1 * n)%nat at 1 by lia. by apply Nat.Div0.mod_add.
Qed.

Lemma contents_length q : queue_ok q -> Z.of_nat (length (contents q)) = q_cnt q.
Proof. intros [_ _ Hc _ _]. unfold contents. rewrite length_fmap, length_seq. lia. Qed.

Lemma contents_lookup q i :
  (i < Z.to_nat (q_cnt q))%nat -> contents q !! i = Some (default 0 (q_buf q !! slot q i)).
Proof. intros Hi. unfold contents. rewrite list_lookup_fmap, lookup_seq_lt by done. done. Qed.

(** Two lists of contents are equal when their slots agree. *)
Lemma contents_ext q l :
  queue_ok q -> length l = Z.to_nat (q_cnt q) ->
  (forall i, (i < length l)%nat -> l !! i = Some (default 0 (q_buf q !! slot q i))) -> contents q = l.
Proof.
  intros Hq Hlen Hl. apply list_eq. intros i.
  destruct (decide (i < length l)%nat) as [Hi|Hi].
  - rewrite contents_lookup by lia. by rewrite Hl.
  - rewrite !lookup_ge_None_2; [done|lia|]. pose proof (contents_length q Hq). lia.
Qed.

Ltac nat_cases :=
  repeat match goal with
  | |- context [(?a =? ?b)%nat] => destruct (Nat.eqb_spec a b)
  | |- context [(?a <? ?b)%nat] => destruct (Nat.ltb_spec a b)
  | H : context [(?a =? ?b)%nat] |- _ => destruct (Nat.eqb_spec a b)
  | H : context [(?a <? ?b)%nat] |- _ => destruct (Nat.ltb_spec a b)
  end; try lia.

Ltac qcbn := cbn [q_buf q_in q_out q_size q_cnt].

Lemma queue_pop_spec q :
  queue_ok q -> 0 < q_cnt q ->
  exists m q', queue_pop q = Ret (m, q') /\ queue_ok q' /\ contents q = m :: contents q'.
Proof.
  intros Hq Hc. pose proof Hq as [H1 H2 H3 H4 H5]. unfold queue_pop.
  destruct (lookup_lt_is_Some_2 (q_buf q) (q_out q)) as [m Hm]; [lia|]. rewrite Hm.
  eexists _, _. split; [reflexivity|]. set (out := if (_ =? _)%nat then _ else _).
  assert (Hok : queue_ok (mk_queue (q_buf q) (q_in q) out (q_size q) (q_cnt q - 1))).
  { split; qcbn; try lia; unfold out, slot in *; qcbn.
    - nat_cases.
    - rewrite H5. replace (Z.to_nat (q_cnt q)) with (S (Z.to_nat (q_cnt q - 1))) by lia.
      destruct (Nat.eqb_spec (S (q_out q)) (q_size q)) as [E|E]; [|f_equal; lia].
      rewrite !mod_wrap by lia. nat_cases. }
  split; [done|]. apply contents_ext; [done| |].
  - cbn. pose proof (contents_length _ Hok) as E. cbn in E. lia.
  - intros [|i] Hi; cbn.
    + unfold slot. rewrite Nat.add_0_r, Nat.mod_small, Hm by done. done.
    + cbn in Hi. pose proof (contents_length _ Hok) as E. cbn in E.
      rewrite contents_lookup by (cbn; lia). qcbn. do 3 f_equal. unfold slot, out; qcbn.
      destruct (Nat.eqb_spec (S (q_out q)) (q_size q)) as [E'|E']; [|f_equal; lia].
      rewrite !mod_wrap by lia. nat_cases.
Qed.

Lemma slot_lt q i : queue_ok q -> (slot q i < q_size q)%nat.
Proof. intros [H _ _ _ _]. apply Nat.mod_upper_bound. lia. Qed.

Lemma slot_inj q i j :
  queue_ok q -> (i < q_size q)%nat -> (j < q_size q)%nat -> slot q i = slot q j -> i = j.
Proof. intros [H1 _ _ H4 _] Hi Hj. unfold slot. rewrite !mod_wrap by lia. nat_cases. Qed.

Lemma queue_push_spec q m :
  queue_ok q -> q_cnt q < Z.of_nat (q_size q) ->
  exists q', queue_push q m = Ret q' /\ queue_ok q' /\ contents q' = contents q ++ [m] /\
    q_size q' = q_size q.
Proof.
  intros Hq Hc. pose proof Hq as [H1 H2 H3 H4 H5]. unfold queue_push.
  assert (Hin : (q_in q < q_size q)%nat) by (rewrite H5; by apply slot_lt).
  destruct (lookup_lt_is_Some_2 (q_buf q) (q_in q)) as [x Hx]; [lia|]. rewrite Hx.
  eexists. split; [reflexivity|]. set (inn := if (_ =? _)%nat then _ else _).
  set (q' := mk_queue _ _ _ _ _).
  assert (Hok : queue_ok q').
  { split; unfold q'; qcbn; try lia; [by rewrite length_insert|].
    unfold inn, slot in *; qcbn. replace (Z.to_nat (q_cnt q + 1)) with (S (Z.to_nat (q_cnt q))) by lia.
    rewrite H5 in *. rewrite !mod_wrap by lia. nat_cases. }
  split_and!; [done| |done]. pose proof (contents_length q Hq) as Hl. apply contents_ext; [done| |].
  - rewrite length_app. cbn. lia.
  - intros i Hi. rewrite length_app in Hi. cbn in Hi. change (slot q' i) with (slot q i).
    unfold q'; qcbn. destruct (decide (i < length (contents q))%nat) as [Hi'|Hi'].
    + rewrite lookup_app_l, contents_lookup by lia. do 2 f_equal.
      rewrite list_lookup_insert_ne; [done|]. rewrite H5. intros E%slot_inj; [lia|done|lia|lia].
    + rewrite lookup_app_r by lia. replace i with (Z.to_nat (q_cnt q)) by lia.
      replace (Z.to_nat (q_cnt q) - length (contents q))%nat with 0%nat by lia. rewrite <- H5.
      by rewrite list_lookup_insert_eq by lia.
Qed.

Lemma queue_push_front_spec q m :
  queue_ok q -> q_cnt q < Z.of_nat (q_size q) ->
  exists q', queue_push_front q m = Ret q' /\ queue_ok q' /\ contents q' = m :: contents q /\
    q_size q' = q_size q.
Proof.
  intros Hq Hc. pose proof Hq as [H1 H2 H3 H4 H5]. unfold queue_push_front.
  assert (Hout : exists out, (if (q_out q =? 0)%nat then q_size q else q_out q) = S out /\
    (out < q_size q)%nat /\ (S out mod q_size q = q_out q)%nat /\ forall i, (i < q_size q)%nat ->
    ((out + S i) mod q_size q = slot q i)%nat).
  { exists (if (q_out q =? 0)%nat then q_size q - 1 else q_out q - 1)%nat. unfold slot.
    split_and!; [nat_cases|nat_cases| |]; [|intros i Hi]; rewrite !mod_wrap by nat_cases; nat_cases. }
  destruct Hout as (out & -> & Hlt & Hs & Hsl).
  destruct (lookup_lt_is_Some_2 (q_buf q) out) as [x Hx]; [lia|]. rewrite Hx.
  eexists. split; [reflexivity|]. set (q' := mk_queue _ _ _ _ _).
  pose proof (contents_length q Hq) as Hl.
  assert (Hok : queue_ok q').
  { split; unfold q'; qcbn; try lia; [by rewrite length_insert|].
    unfold slot; qcbn. replace (Z.to_nat (q_cnt q + 1)) with (S (Z.to_nat (q_cnt q))) by lia.
    rewrite Hsl by lia. done. }
  split_and!; [done| |done]. apply contents_ext; [done|cbn; lia|].
  intros i Hi. cbn in Hi. unfold q', slot; qcbn. destruct i as [|i].
  - rewrite Nat.add_0_r, Nat.mod_small by lia. by rewrite list_lookup_insert_eq by lia.
  - rewrite Hsl by lia. cbn. rewrite contents_lookup by lia. do 2 f_equal.
    rewrite list_lookup_insert_ne; [done|]. intros E.
    assert (E' : ((out + S i) mod q_size q = out)%nat) by (rewrite Hsl by lia; done).
    rewrite mod_wrap in E' by lia. revert E'. nat_cases.
Qed.

Lemma contents_nil q : queue_ok q -> q_cnt q = 0 -> contents q = [].
Proof. intros Hq Hc. apply nil_length_inv. pose proof (contents_length q Hq). lia. Qed.

(** ** The contract *)

(** The operations on the list of queued messages. *)
Definition spec_push (size : nat) (front : bool) (l : list Z) (m : Z) : Z * list Z :=
  if (size <=? length l)%nat then (- ENOSPC, l) else (0, if front then m :: l else l ++ [m]).
Definition spec_pop (l : list Z) : Z * list Z := match l with [] => (0, []) | m :: l => (m, l) end.

(** C36: The ring buffer is a bounded double-ended queue: posting without a waiter adds
    the message at the chosen end or fails with [-ENOSPC] when it is full, accepting
    returns the oldest message (0 when there is none), flushing empties it, and
    no operation touches memory outside the buffer. *)
Theorem queue_refines_deque s c e q m front :
  queue_ok q -> ev_wait_list e = [] ->
  (exists q', __queue_post s c e q m front =
      Ret (fst (spec_push (q_size q) front (contents q) m), s, e, q') /\ queue_ok q' /\
      contents q' = snd (spec_push (q_size q) front (contents q) m) /\ q_size q' = q_size q) /\
  (exists q', queue_accept q = Ret (fst (spec_pop (contents q)), q') /\ queue_ok q' /\
      contents q' = snd (spec_pop (contents q))) /\
  (queue_ok (snd (queue_flush q)) /\ contents (snd (queue_flush q)) = []).
Proof.
  intros Hq Hw. pose proof (contents_length q Hq) as Hl. split_and!.
  - unfold __queue_post, __wake_up_event_waiter. rewrite Hw. cbn [obind wake_waiters].
    assert (He : set_ev_wait_list [] e = e) by (destruct e; cbn in *; by subst).
    change (if 1 =? 0 then 1 else 1) with 1. cbn [obind wake_waiters]. rewrite He. cbn [negb Z.eqb].
    unfold spec_push. destruct (Nat.leb_spec (q_size q) (length (contents q))) as [H|H].
    + rewrite (proj2 (Z.leb_le _ _)) by lia. by exists q.
    + rewrite (proj2 (Z.leb_gt _ _)) by lia. destruct front.
      * destruct (queue_push_front_spec q m Hq) as (q' & -> & ? & ? & ?); [lia|]. by exists q'.
      * destruct (queue_push_spec q m Hq) as (q' & -> & ? & ? & ?); [lia|]. by exists q'.
  - unfold queue_accept. destruct (Z.ltb_spec 0 (q_cnt q)) as [H|H].
    + destruct (queue_pop_spec q Hq H) as (x & q' & -> & ? & ->). by exists q'.
    + exists q. rewrite (contents_nil q Hq) by (destruct Hq; lia). by split_and!.
  - destruct Hq as [H1 H2 H3 H4 H5]. split; cbn; try lia. unfold slot; cbn. by rewrite Nat.mod_small.
  - done.
Qed.

(** A posted message reaches exactly one receiver: it goes straight to the
    longest-waiting task that still waits, or joins the queue when there is none;
    tasks and messages never wait for each other. *)
Theorem queue_post_delivers s c p e q m front :
  sys_inv s -> cpus s !! c = Some p -> parked s (ev_wait_list e) -> queue_ok q ->
  (ev_wait_list e = [] \/ q_cnt q = 0) ->
  exists r s' e' q', __queue_post s c e q m front = Ret (r, s', e', q') /\ sys_inv s' /\ queue_ok q' /\
    (ev_wait_list e' = [] \/ q_cnt q' = 0) /\
    ((exists l1 t l2, ev_wait_list e = l1 ++ t :: l2 /\ Forall (fun u => ~ waiting s u) l1 /\
        waiting s t /\ woke s s' t TASK_STATE_PEND_OK m /\ ev_wait_list e' = l2 /\ q' = q /\ r = 0) \/
     (Forall (fun u => ~ waiting s u) (ev_wait_list e) /\ s' = s /\ ev_wait_list e' = [] /\
        (r, contents q') = spec_push (q_size q) front (contents q) m)).
Proof.
  intros Hs Hc Hp Hq Hex. unfold __queue_post. pose proof (contents_length q Hq) as Hl.
  destruct (wake_up_event_waiter_one s c p e m TASK_STATE_PEND_OK 1 Hs Hc Hp)
    as [(l1 & t & l2 & s' & El & Hl1 & Ht & Hwk & ->)|[Hn ->]]; [by right| |]; cbn [obind negb Z.eqb].
  - eexists _, s', _, q. split; [reflexivity|]. split_and!; [apply (wk_inv _ _ _ _ _ Hwk)|done| |].
    + right. destruct Hex as [E|]; [|done]. rewrite El in E. by destruct l1.
    + left. by exists l1, t, l2.
  - unfold spec_push. destruct (Nat.leb_spec (q_size q) (length (contents q))) as [H|H].
    + rewrite (proj2 (Z.leb_le _ _)) by lia. eexists _, s, _, q. split; [reflexivity|].
      split_and!; [done|done|by left|]. by right.
    + rewrite (proj2 (Z.leb_gt _ _)) by lia.
      assert (Hpush : exists q', (if front then queue_push_front q m else queue_push q m) = Ret q' /\
        queue_ok q' /\ contents q' = if front then m :: contents q else contents q ++ [m]).
      { destruct front.
        - destruct (queue_push_front_spec q m Hq) as (q' & -> & ? & ? & _); [lia|]. by exists q'.
        - destruct (queue_push_spec q m Hq) as (q' & -> & ? & ? & _); [lia|]. by exists q'. }
      destruct Hpush as (q' & -> & Hq' & Hcon). cbn [obind]. eexists _, s, _, q'. split; [reflexivity|].
      split_and!; [done|done|by left|]. right. by rewrite Hcon.
Qed.

(** ** Witnesses *)

(** A ring of three slots whose contents wrap around. *)
Lemma demo_queue_ok : queue_ok (mk_queue [30; 0; 20] 1 2 3 2).
Proof. by split; cbn; try lia. Qed.

Lemma queue_refines_deque_witness :
  exists q', __queue_post demo 0 (demo_event 0 0 []) (mk_queue [30; 0; 20] 1 2 3 2) 40 true =
      Ret (0, demo, demo_event 0 0 [], q') /\ queue_ok q' /\ contents q' = [40; 20; 30] /\ q_size q' = 3%nat.
Proof.
  exact (proj1 (queue_refines_deque demo 0 (demo_event 0 0 []) (mk_queue [30; 0; 20] 1 2 3 2) 40 true
    demo_queue_ok eq_refl)).
Defined.

Lemma queue_post_delivers_witness :
  exists r s' e' q', __queue_post demo 0 (demo_event 0 0 [2]) (mk_queue [0; 0; 0] 0 0 3 0) 40 false =
      Ret (r, s', e', q') /\ sys_inv s' /\ queue_ok q' /\ (ev_wait_list e' = [] \/ q_cnt q' = 0) /\
    ((exists l1 t l2, [2] = l1 ++ t :: l2 /\ Forall (fun u => ~ waiting demo u) l1 /\
        waiting demo t /\ woke demo s' t TASK_STATE_PEND_OK 40 /\ ev_wait_list e' = l2 /\
        q' = mk_queue [0; 0; 0] 0 0 3 0 /\ r = 0) \/
     (Forall (fun u => ~ waiting demo u) [2] /\ s' = demo /\ ev_wait_list e' = [] /\
        (r, contents q') = spec_push 3 false [] 40)).
Proof.
  apply (queue_post_delivers demo 0 demo_pcpu (demo_event 0 0 [2]) (mk_queue [0; 0; 0] 0 0 3 0) 40 false);
    [apply demo_inv|done|apply demo_parked|by split; cbn; try lia|by right].
Defined.
