(* ===== verification/TaskCreate.v ===== *)
(** * Task identifiers, creation and release

    [core/task.c]: the [tid] bitmap, task creation, the idle tasks, and the release
    of stopped tasks ([pcpu_release_task] of [core/idle.c]).

    [os_task_table] is the task map of [sys].  Whether the allocations of the task
    and of its stack succeed is an argument.  Names, stacks, the user-space entry
    and the creation hooks are not modelled. *)

From S2P Require Import Prelude Types Bits Bitmap Task Event Flag Sched.

Definition OS_NR_TASKS : Z := 256.
Definition TASK_AFF_ANY : Z := -1.
Definition OS_PRIO_DEFAULT_6 : Z := 6.
Definition OS_PRIO_SRV : Z := 2.
Definition OS_PRIO_VCPU : Z := 4.
Definition OS_PRIO_DEFAULT : Z := 5.
Definition TASK_FLAGS_SRV : Z := 0x1.
Definition TASK_FLAGS_DRV : Z := 0x2.
Definition TASK_FLAGS_NO_AUTO_START : Z := 0x20.
Definition TASK_FLAGS_KERNEL : Z := 0x400.

Record kstate := mk_kstate {
  tid_map : list Z;
  ksys : sys;
}.

(** ** Identifiers *)

Definition alloc_tid (m : list Z) : outcome (Z * list Z) :=
  let* tid := find_next_zero_bit m OS_NR_TASKS 1 in
  if OS_NR_TASKS <=? tid then Ret (-1, m)
  else let* m := set_bit tid m in Ret (tid, m).

Definition request_tid (m : list Z) (tid : Z) : outcome (bool * list Z) :=
  check negb ((tid <=? 0) || (OS_NR_TASKS <=? tid)) in
  let* (old, m) := test_and_set_bit tid m in Ret (negb old, m).

Definition release_tid (k : kstate) (tid : Z) : outcome kstate :=
  check (tid <? OS_NR_TASKS) && (0 <? tid) in
  let s := ksys k in
  let* m := clear_bit tid (tid_map k) in
  Ret (mk_kstate m (mk_sys (delete tid (tasks s)) (cpus s))).

Definition tid_early_init (m : list Z) : outcome (list Z) := set_bit 0 m.

(** ** Creation *)

Section Create.
Context (run_time : Z).

Definition task_init (s : sys) (tid prio aff opt ti_flags ti_preempt : Z) : sys :=
  mk_sys (<[tid := mk_task TASK_STATE_SUSPEND prio (-1) 0 aff opt 0 None 0 0 0 0
                     ti_flags ti_preempt run_time 0]> (tasks s)) (cpus s).

Definition do_create_task (s : sys) (tid prio aff opt : Z) (task_mem stack_mem : bool)
    : option sys :=
  if negb task_mem then None
  else if negb stack_mem then None
  else Some (task_init s tid prio aff opt 0 0).

(** The final [sched] when the system is up is the scheduling step of [Sched.v]. *)
Definition __create_task (k : kstate) (c : nat) (prio aff opt : Z) (task_mem stack_mem : bool)
    : outcome (option Z * kstate) :=
  let aff := if (Z.of_nat (length (cpus (ksys k))) <=? aff) && negb (aff =? TASK_AFF_ANY)
             then TASK_AFF_ANY else aff in
  let prio := if (OS_PRIO_IDLE <=? prio) || (prio <? 0) then OS_PRIO_DEFAULT_6 else prio in
  let* (tid, m) := alloc_tid (tid_map k) in
  if tid <? 0 then Ret (None, k) else
  match do_create_task (ksys k) tid prio aff opt task_mem stack_mem with
  | None => let* k := release_tid (mk_kstate m (ksys k)) tid in Ret (None, k)
  | Some s =>
      let* s := if Z.land opt TASK_FLAGS_NO_AUTO_START =? 0 then task_ready s c tid false else Ret s in
      Ret (Some tid, mk_kstate m s)
  end.

Definition create_task (k : kstate) (c : nat) (prio aff opt : Z) (task_mem stack_mem : bool)
    : outcome (option Z * kstate) :=
  let prio := if prio <? 0 then
                if negb (Z.land opt OS_PRIO_VCPU =? 0) then OS_PRIO_VCPU
                else if negb (Z.land opt (Z.lor TASK_FLAGS_SRV TASK_FLAGS_DRV) =? 0) then OS_PRIO_SRV
                else OS_PRIO_DEFAULT
              else prio in
  __create_task k c prio aff opt task_mem stack_mem.

Definition create_idle_task (k : kstate) (c : nat) : outcome kstate :=
  let aff := Z.of_nat c in
  let tid := OS_NR_TASKS - 1 - aff in
  let* (ok, m) := request_tid (tid_map k) tid in
  check ok in
  let s := task_init (ksys k) tid OS_PRIO_IDLE aff (Z.lor TASK_FLAGS_IDLE TASK_FLAGS_KERNEL) 0 0 in
  let s := upd_task s tid (fun t =>
    set_t_run_time 0 (set_t_cpu aff (set_t_state TASK_STATE_RUNNING t))) in
  let* p := get_pcpu s c in
  let* l := ready_at p OS_PRIO_IDLE in
  Ret (mk_kstate m (upd_pcpu s c (fun p =>
    set_idle_task tid (set_local_rdy_grp (u8 (Z.lor (local_rdy_grp p) (BIT OS_PRIO_IDLE)))
      (set_ready_at OS_PRIO_IDLE (l ++ [tid]) (set_running_task tid p)))))).

End Create.

(** ** Release *)

(** [do_release_task] frees the stack and the task, then releases its [tid]. *)
Definition do_release_task (k : kstate) (tid : Z) : outcome kstate := release_tid k tid.

Fixpoint release_stopped (k : kstate) (l : list Z) : outcome kstate :=
  match l with
  | [] => Ret k
  | t :: l =>
      let* k := do_release_task (mk_kstate (tid_map k) (list_del (ksys k) t)) t in
      release_stopped k l
  end.

Definition pcpu_release_task (k : kstate) (c : nat) : outcome kstate :=
  let* p := get_pcpu (ksys k) c in release_stopped k (stop_list p).

(** ** Identifiers are unique *)

(** The bitmap has [OS_NR_TASKS] bits, bit 0 is reserved, and every task of the
    table has its bit set. *)
Record tids_ok (k : kstate) : Prop := {
  tk_map : bitmap_ok (tid_map k);
  tk_len : length (tid_map k) = 4%nat;
  tk_zero : bit_at (tid_map k) 0 = true;
  tk_used : forall t, is_Some (tasks (ksys k) !! t) -> 0 < t < OS_NR_TASKS /\ bit_at (tid_map k) t = true;
}.

Lemma alloc_tid_spec m :
  bitmap_ok m -> length m = 4%nat ->
  (exists t m', alloc_tid m = Ret (t, m') /\ 0 < t < OS_NR_TASKS /\ bit_at m t = false /\
     (forall u, 0 < u < t -> bit_at m u = true) /\ updated true m m' t (t + 1)) \/
  (alloc_tid m = Ret (-1, m) /\ forall u, 0 < u < OS_NR_TASKS -> bit_at m u = true).
Proof.
  intros Hok Hlen. unfold alloc_tid, OS_NR_TASKS in *.
  destruct (find_next_zero_bit_spec m 256 1) as (t & -> & Hr & Hlow & Hhit); [done|lia|lia|]. cbn [obind].
  destruct (Z.leb_spec 256 t) as [Ht|Ht].
  - right. split; [done|]. intros u Hu. specialize (Hlow u ltac:(lia)). by destruct (bit_at m u).
  - left. destruct (set_bit_spec m t Hok) as (m' & -> & Hup); [lia|]. cbn [obind].
    exists t, m'. split_and!; try done; try lia.
    + specialize (Hhit Ht). by destruct (bit_at m t).
    + intros u Hu. specialize (Hlow u ltac:(lia)). by destruct (bit_at m u).
Qed.

Lemma release_tid_spec k t :
  bitmap_ok (tid_map k) -> length (tid_map k) = 4%nat -> 0 < t < OS_NR_TASKS ->
  exists m', release_tid k t = Ret (mk_kstate m' (mk_sys (delete t (tasks (ksys k))) (cpus (ksys k)))) /\
    updated false (tid_map k) m' t (t + 1).
Proof.
  intros Hok Hlen Ht. unfold release_tid, OS_NR_TASKS in *.
  rewrite (proj2 (Z.ltb_lt _ _)), (proj2 (Z.ltb_lt 0 t)) by lia. cbn [andb assert obind].
  destruct (clear_bit_spec (tid_map k) t Hok) as (m' & -> & Hup); [lia|]. by exists m'.
Qed.

Lemma tids_ok_set k m' t x s' :
  tids_ok k -> 0 < t < OS_NR_TASKS -> updated true (tid_map k) m' t (t + 1) ->
  (forall u, is_Some (tasks s' !! u) -> u = t \/ is_Some (tasks (ksys k) !! u)) ->
  x = mk_kstate m' s' -> tids_ok x.
Proof.
  intros [H1 H2 H3 H4] Ht (Hl & Hok & Hb) Hs ->. split; cbn; [done|congruence| |].
  - rewrite Hb by lia. case_bools; try done; lia.
  - intros u Hu. destruct (Hs u Hu) as [->|Hu'].
    + split; [done|]. rewrite Hb by lia. case_bools; try done; lia.
    + destruct (H4 u Hu') as [Hr Hbit]. split; [done|]. rewrite Hb by lia. by case_bools.
Qed.

(** Adding a suspended task that is on no list keeps the scheduler's invariant. *)
Lemma task_init_inv run_time s t prio aff opt :
  sys_inv s -> tasks s !! t = None -> 0 <= prio < OS_PRIO_MAX ->
  -1 <= aff < Z.of_nat (length (cpus s)) -> sys_inv (task_init run_time s t prio aff opt 0 0).
Proof.
  intros Hs Hn Hp Ha. pose proof Hs as [H1 H2 H3 H4 H5 H6 H7].
  assert (Hnt : t ∉ state_nodes s).
  { intros Hin. destruct (so_known _ H1 t Hin) as [x Hx]. congruence. }
  assert (Hold : forall u x, tasks (task_init run_time s t prio aff opt 0 0) !! u = Some x ->
    (u = t /\ t_state x = TASK_STATE_SUSPEND /\ t_prio x = prio /\ t_affinity x = aff) \/ tasks s !! u = Some x).
  { intros u x. cbn. intros [[<- <-]|[_ ?]]%lookup_insert_Some; [by left|by right]. }
  split.
  - destruct H1 as [G1 G2 G3]. split; [done| |].
    + intros c p Hc. destruct (G2 c p Hc) as [Q1 Q2 Q3 Q4 Q5 Q6 Q7]. split; try done.
      intros k l u Hk Hu. specialize (Q5 k l u Hk Hu). unfold prio_of in *. cbn.
      rewrite lookup_insert_ne; [done|]. intros <-. by rewrite Hn in Q5.
    + intros u Hu. cbn. destruct (decide (u = t)) as [->|Hne]; [by apply Hnt in Hu|].
      rewrite lookup_insert_ne by done. by apply G3.
  - exact H2.
  - intros u x [(-> & _ & <- & <-)|Hx]%Hold; [by split|]. by apply (H3 u).
  - intros u x [(-> & E & _)|Hx]%Hold; [by rewrite E|]. by apply H4.
  - intros u x [(-> & E & _)|Hx]%Hold; [by rewrite E|]. by apply H5.
  - intros u x [(-> & E & _)|Hx]%Hold; [by rewrite E|]. by apply H6.
  - intros c p x Hc [(E & _)|Hx]%Hold; [|by apply (H7 c p)].
    exfalso. apply Hnt. rewrite <- E. eapply pcpu_node_state; [exact Hc|].
    apply on_ready_node, on_ready_lookup. pose proof (so_queues _ H1 c p Hc) as Hq.
    destruct (lookup_lt_is_Some_2 (ready_list p) 7) as [l Hl]; [rewrite (qk_len _ _ Hq); lia|].
    exists 7%nat, l. split; [done|by apply (qk_idle _ _ Hq)].
Qed.

(** Making a freshly created task ready, or leaving it suspended. *)
Lemma start_new_task s c p t x (b : bool) :
  sys_inv s -> cpus s !! c = Some p -> tasks s !! t = Some x -> t_state x = TASK_STATE_SUSPEND ->
  t ∉ state_nodes s ->
  exists s', (if b then task_ready s c t false else Ret s) = Ret s' /\ sys_inv s' /\
    (exists x', tasks s' !! t = Some x' /\ t_prio x' = t_prio x) /\
    (forall u, is_Some (tasks s' !! u) -> is_Some (tasks s !! u)) /\ (b = true -> t ∈ state_nodes s').
Proof.
  intros Hs Hc Hx Hst Hn. destruct b; [|exists s; split_and!; eauto; done].
  destruct (known_running s c p Hs Hc) as [y Hy].
  destruct (task_ready_readied s c p t x y false (si_ok _ Hs) Hc Hx Hy Hn) as (s' & -> & Hrd);
    [by apply (si_valid _ Hs t)|intros _; by apply (si_run _ Hs c)|].
  exists s'. split_and!; [done| | | |].
  - apply (sys_inv_readied s s' t x); try done. by rewrite Hst.
  - destruct (rd_task _ _ _ Hrd x Hx) as (cpu & fl & E). by eexists.
  - intros u [z Hz]. destruct (readied_core s s' t u z Hrd ltac:(by exists x) Hz) as (w & Hw & _). by exists w.
  - intros _. rewrite (rd_nodes _ _ _ Hrd). apply elem_of_cons. by left.
Qed.

Lemma failed_create k t m' :
  tids_ok k -> 0 < t < OS_NR_TASKS -> bit_at (tid_map k) t = false ->
  updated true (tid_map k) m' t (t + 1) ->
  exists k', release_tid (mk_kstate m' (ksys k)) t = Ret k' /\ ksys k' = ksys k /\ tids_ok k' /\
    forall u, 0 <= u -> bit_at (tid_map k') u = bit_at (tid_map k) u.
Proof.
  intros Hk Ht Hb (Hl & Hok & Hup). pose proof Hk as [H1 H2 H3 H4].
  destruct (release_tid_spec (mk_kstate m' (ksys k)) t) as (m2 & -> & Hl2 & Hok2 & Hup2);
    [done|cbn; congruence|done|]. cbn in Hl2, Hup2.
  assert (Hbits : forall u, 0 <= u -> bit_at m2 u = bit_at (tid_map k) u).
  { intros u Hu. rewrite Hup2, Hup by done. case_bools; try done. by replace u with t by lia. }
  assert (Hno : tasks (ksys k) !! t = None).
  { destruct (tasks (ksys k) !! t) eqn:E; [|done]. destruct (H4 t) as [_ E']; [by eexists|]. congruence. }
  eexists. split; [reflexivity|]. cbn. rewrite delete_id by done.
  split_and!; [by destruct (ksys k)| |done]. split; cbn; [done|congruence|by rewrite Hbits|].
  intros u Hu. destruct (H4 u Hu) as [Hr Hb']. split; [done|]. by rewrite Hbits by lia.
Qed.

(** [create_task] never gives out an identifier in use: a successful call returns
    the fresh [tid] of a task with a valid priority that is on a list exactly once if
    it starts at once; a failed call, for lack of identifiers or of memory, leaves
    tasks and identifiers as they were.  Both keep the scheduler's invariant. *)
Theorem create_task_fresh run_time k c p prio aff opt task_mem stack_mem :
  sys_inv (ksys k) -> tids_ok k -> cpus (ksys k) !! c = Some p -> -1 <= aff ->
  exists r k', create_task run_time k c prio aff opt task_mem stack_mem = Ret (r, k') /\
    sys_inv (ksys k') /\ tids_ok k' /\
    match r with
    | Some t => 0 < t < OS_NR_TASKS /\ bit_at (tid_map k) t = false /\ tasks (ksys k) !! t = None /\
        (exists x, tasks (ksys k') !! t = Some x /\ 0 <= t_prio x < OS_PRIO_IDLE) /\
        (Z.land opt TASK_FLAGS_NO_AUTO_START = 0 -> t ∈ state_nodes (ksys k'))
    | None => ksys k' = ksys k /\ forall u, 0 <= u -> bit_at (tid_map k') u = bit_at (tid_map k) u
    end.
Proof.
  intros Hs Hk Hc Ha. pose proof Hk as [H1 H2 H3 H4]. unfold create_task, __create_task.
  set (prio1 := if prio <? 0 then _ else prio).
  set (prio2 := if (OS_PRIO_IDLE <=? prio1) || (prio1 <? 0) then OS_PRIO_DEFAULT_6 else prio1).
  set (aff1 := if _ && _ then TASK_AFF_ANY else aff).
  assert (Hp2 : 0 <= prio2 < OS_PRIO_IDLE).
  { unfold prio2, OS_PRIO_IDLE, OS_PRIO_DEFAULT_6.
    destruct (Z.leb_spec 7 prio1), (Z.ltb_spec prio1 0); simpl; lia. }
  assert (Ha1 : -1 <= aff1 < Z.of_nat (length (cpus (ksys k)))).
  { unfold aff1, TASK_AFF_ANY. pose proof (lookup_lt_Some _ _ _ Hc).
    destruct (Z.leb_spec (Z.of_nat (length (cpus (ksys k)))) aff), (Z.eqb_spec aff (-1)); simpl; lia. }
  destruct (alloc_tid_spec (tid_map k) H1 H2) as [(t & m' & -> & Ht & Hbt & _ & Hup)|[-> Hall]]; cbn [obind].
  2: { exists None, k. by split_and!. }
  rewrite (proj2 (Z.ltb_ge t 0)) by lia.
  assert (Hno : tasks (ksys k) !! t = None).
  { destruct (tasks (ksys k) !! t) eqn:E; [|done]. destruct (H4 t) as [_ E']; [by eexists|]. congruence. }
  unfold do_create_task. destruct task_mem, stack_mem; cbn [negb].
  2,3,4: destruct (failed_create k t m' Hk Ht Hbt Hup) as (k' & -> & E1 & E2 & E3);
    cbn [obind]; exists None, k'; rewrite E1; by split_and!.
  set (s1 := task_init _ _ _ _ _ _ _ _).
  assert (Hs1 : sys_inv s1) by (apply task_init_inv; unfold OS_PRIO_IDLE, OS_PRIO_MAX in *; [done|done|lia|done]).
  assert (Hx1 : exists x, tasks s1 !! t = Some x /\ t_state x = TASK_STATE_SUSPEND /\ t_prio x = prio2).
  { eexists. split; [apply lookup_insert_eq|done]. }
  destruct Hx1 as (x & Hx1 & Hst & Hpr).
  destruct (start_new_task s1 c p t x (Z.land opt TASK_FLAGS_NO_AUTO_START =? 0) Hs1 Hc Hx1 Hst)
    as (s' & -> & Hs' & (x' & Hx' & Ep) & Hkn & Hin).
  { intros Hin. change (state_nodes s1) with (state_nodes (ksys k)) in Hin.
    destruct (so_known _ (si_ok _ Hs) t Hin). congruence. }
  cbn [obind]. exists (Some t), (mk_kstate m' s').
  split_and!; [done|done| |apply Ht|apply Ht|done|done| |].
  - apply (tids_ok_set k m' t _ s' Hk Ht Hup); [|done]. intros u Hu. apply Hkn in Hu. cbn in Hu.
    destruct (decide (u = t)) as [->|Hne]; [by left|right]. by rewrite lookup_insert_ne in Hu.
  - exists x'. split; [done|]. by rewrite Ep, Hpr.
  - intros E. apply Hin. by apply Z.eqb_eq.
Qed.

(** ** Boot *)

(** The static data of [n] CPUs after [sched_init] and [tid_early_init]. *)
Definition zero_pcpu : pcpu :=
  pcpu_sched_init (mk_pcpu [] [] 0 0 0 [] (replicate 8 0) None false (mk_grp 0 [])).

Fixpoint create_idle_tasks (run_time : Z) (k : kstate) (cs : list nat) : outcome kstate :=
  match cs with
  | [] => Ret k
  | c :: cs => let* k := create_idle_task run_time k c in create_idle_tasks run_time k cs
  end.

Definition boot (run_time : Z) (n : nat) : outcome kstate :=
  let* m := tid_early_init [0; 0; 0; 0] in
  create_idle_tasks run_time (mk_kstate m (mk_sys ∅ (replicate n zero_pcpu))) (seq 0 n).

Definition idle_tid (c : nat) : Z := OS_NR_TASKS - 1 - Z.of_nat c.

Definition booted_pcpu (c : nat) : pcpu :=
  mk_pcpu [] [] (idle_tid c) (idle_tid c) 128 [[]; []; []; []; []; []; []; [idle_tid c]]
    (replicate 8 0) None false (mk_grp 0 []).

Definition booted_task (c : nat) : task :=
  mk_task TASK_STATE_RUNNING OS_PRIO_IDLE (Z.of_nat c) 0 (Z.of_nat c)
    (Z.lor TASK_FLAGS_IDLE TASK_FLAGS_KERNEL) 0 None 0 0 0 0 0 0 0 0.

(** The first [j] of [n] CPUs have created their idle task. *)
Record booting (n j : nat) (k : kstate) : Prop := {
  bt_map : bitmap_ok (tid_map k);
  bt_len : length (tid_map k) = 4%nat;
  bt_bits : forall u, 0 <= u < OS_NR_TASKS ->
    bit_at (tid_map k) u = (u =? 0) || (OS_NR_TASKS - 1 - Z.of_nat j <? u);
  bt_cpus : cpus (ksys k) = map booted_pcpu (seq 0 j) ++ replicate (n - j) zero_pcpu;
  bt_tasks : forall t x, tasks (ksys k) !! t = Some x <->
    exists c, (c < j)%nat /\ t = idle_tid c /\ x = booted_task c;
}.

Lemma booting_step run_time n j k :
  (j < n)%nat -> (n < 256)%nat -> booting n j k ->
  exists k', create_idle_task run_time k j = Ret k' /\ booting n (S j) k'.
Proof.
  intros Hj Hn [H1 H2 H3 H4 H5]. unfold create_idle_task, request_tid. fold (idle_tid j).
  assert (Hr : 0 < idle_tid j < OS_NR_TASKS) by (unfold idle_tid, OS_NR_TASKS; lia).
  rewrite (proj2 (Z.leb_gt (idle_tid j) 0)), (proj2 (Z.leb_gt OS_NR_TASKS (idle_tid j))) by lia.
  cbn [orb negb assert obind].
  destruct (test_and_set_bit_spec (tid_map k) (idle_tid j) H1) as (m' & -> & Hl & Hok & Hb);
    [unfold OS_NR_TASKS in Hr; lia|].
  cbn [obind]. rewrite H3 by lia.
  replace ((idle_tid j =? 0) || _) with false by (unfold idle_tid, OS_NR_TASKS in *; case_bools; lia).
  cbn [negb assert obind].
  assert (Hc : cpus (ksys k) !! j = Some zero_pcpu).
  { rewrite H4, lookup_app_r by (rewrite length_map, length_seq; lia).
    rewrite length_map, length_seq, Nat.sub_diag. apply lookup_replicate_2. lia. }
  rewrite (get_pcpu_Ret _ j zero_pcpu) by exact Hc. cbn [obind]. change (ready_at zero_pcpu OS_PRIO_IDLE) with (Ret (A:=list Z) []).
  cbn [obind]. eexists. split; [reflexivity|]. split; cbn [tid_map ksys].
  - done.
  - congruence.
  - intros u Hu. rewrite Hb, H3 by lia. unfold idle_tid, OS_NR_TASKS in *. case_bools; try done; lia.
  - rewrite (upd_pcpu_put _ j zero_pcpu) by exact Hc. cbn [put cpus upd_task task_init]. rewrite H4.
    replace (n - j)%nat with (S (n - S j)) by lia. rewrite seq_S, map_app. cbn [replicate map].
    rewrite insert_app_r_alt by (rewrite length_map, length_seq; lia).
    rewrite length_map, length_seq, Nat.sub_diag, <- app_assoc. done.
  - intros t x. cbn [upd_pcpu tasks upd_task task_init]. destruct (decide (t = idle_tid j)) as [->|Hne].
    + rewrite lookup_alter_eq, lookup_insert_eq. split.
      * intros [= <-]. exists j. split_and!; [lia|done|done].
      * intros (c & Hcj & E & ->). assert (c = j) as -> by (unfold idle_tid in E; lia). done.
    + rewrite lookup_alter_ne, lookup_insert_ne by done. rewrite H5. split; intros (c & Hcj & E & ->).
      * exists c. split_and!; [lia|done|done].
      * exists c. split_and!; [|done|done]. destruct (decide (c = j)) as [->|]; [done|lia].
Qed.

Lemma booting_all run_time n m j k :
  (n < 256)%nat -> (j + m = n)%nat -> booting n j k ->
  exists k', create_idle_tasks run_time k (seq j m) = Ret k' /\ booting n n k'.
Proof.
  intros Hn. revert j k. induction m as [|m IH]; intros j k Hm Hk; simpl.
  { exists k. split; [done|]. by replace n with j at 2 by lia. }
  destruct (booting_step run_time n j k) as (k1 & -> & Hk1); [lia|done|done|]. cbn [obind].
  apply IH; [lia|done].
Qed.

Lemma booted_queues prio c :
  prio (idle_tid c) = Some 7 -> queues_ok prio (booted_pcpu c).
Proof.
  intros Hp. split; [done|done|cbn; lia| | | |]; cbn.
  - intros k l H. list_cases; reflexivity.
  - intros k l t H Ht. list_cases; try by apply not_elem_of_nil in Ht.
    apply list_elem_of_singleton in Ht as ->. exact Hp.
  - intros k l H. list_cases; reflexivity.
  - intros l [= <-]. by apply list_elem_of_singleton.
Qed.

Lemma booting_cpu n k c p :
  booting n n k -> cpus (ksys k) !! c = Some p <-> (c < n)%nat /\ p = booted_pcpu c.
Proof.
  intros Hk. rewrite (bt_cpus _ _ _ Hk), Nat.sub_diag, app_nil_r.
  change (map ?f ?l) with (f <$> l). rewrite list_lookup_fmap. split.
  - destruct (decide (c < n)%nat) as [Hc|Hc].
    + rewrite lookup_seq_lt by done. by intros [= <-].
    + by rewrite lookup_seq_ge by lia.
  - intros [Hc ->]. by rewrite lookup_seq_lt.
Qed.

Lemma booting_nodes n k : booting n n k -> state_nodes (ksys k) = idle_tid <$> seq 0 n.
Proof.
  intros Hk. unfold state_nodes. rewrite (bt_cpus _ _ _ Hk), Nat.sub_diag, app_nil_r.
  induction (seq 0 n) as [|c l IH]; [done|]. simpl. by rewrite IH.
Qed.

Lemma booting_inv n k : (n < 256)%nat -> booting n n k -> sys_inv (ksys k).
Proof.
  intros Hn Hk. pose proof (booting_nodes n k Hk) as Hnodes.
  pose proof (fun c p => booting_cpu n k c p Hk) as Hcpu.
  pose proof (bt_tasks _ _ _ Hk) as Htasks.
  assert (Hrun : forall c, (c < n)%nat -> idle_tid c ∈ running (ksys k)).
  { intros c Hc. apply (elem_of_running _ c (booted_pcpu c)). by apply Hcpu. }
  assert (Hlen : length (cpus (ksys k)) = n).
  { rewrite (bt_cpus _ _ _ Hk), length_app, length_map, length_seq, length_replicate. lia. }
  split.
  - split.
    + rewrite Hnodes. apply NoDup_fmap_2; [|apply NoDup_seq]. intros a b E. unfold idle_tid in E. lia.
    + intros c p [Hc ->]%Hcpu. apply booted_queues. unfold prio_of.
      by rewrite (proj2 (Htasks (idle_tid c) (booted_task c))) by eauto.
    + intros t. rewrite Hnodes. intros (c & -> & Hc%elem_of_seq)%list_elem_of_fmap.
      exists (booted_task c). apply Htasks. exists c. split_and!; [lia|done|done].
  - intros c p [Hc ->]%Hcpu. apply on_ready_lookup. exists 7%nat, [idle_tid c].
    split; [done|by apply list_elem_of_singleton].
  - intros t x (c & Hc & -> & ->)%Htasks. unfold valid_task, booted_task, OS_PRIO_IDLE, OS_PRIO_MAX; cbn. lia.
  - by intros t x (c & Hc & -> & ->)%Htasks.
  - by intros t x (c & Hc & -> & ->)%Htasks.
  - intros t x (c & Hc & -> & ->)%Htasks _. by apply Hrun.
  - intros c p x _ (c' & Hc & _ & ->)%Htasks. by left.
Qed.

(** C2: Booting any number of CPUs below the number of identifiers establishes the
    scheduler's invariant and unique identifiers: every CPU runs its own idle task. *)
Theorem boot_establishes_invariant run_time n :
  (n < 256)%nat ->
  exists k, boot run_time n = Ret k /\ sys_inv (ksys k) /\ tids_ok k /\
    length (cpus (ksys k)) = n /\
    forall c p, cpus (ksys k) !! c = Some p -> running_task p = idle_task p.
Proof.
  intros Hn. unfold boot.
  destruct (set_bit_spec [0; 0; 0; 0] 0) as (m & Hm & Hl & Hok & Hb).
  { split; [by repeat constructor|done]. }
  { done. }
  unfold tid_early_init. rewrite Hm. cbn [obind].
  destruct (booting_all run_time n n 0 (mk_kstate m (mk_sys ∅ (replicate n zero_pcpu)))) as (k & -> & Hk);
    [done|done| |].
  - split; cbn [tid_map ksys cpus tasks]; [done|done| | |].
    + intros u Hu. rewrite Hb by lia. destruct (Z.eqb_spec u 0) as [->|Hne]; [done|].
      replace ((0 <=? u) && (u <? 0 + 1)) with false by (case_bools; lia).
      unfold OS_NR_TASKS in *. rewrite (proj2 (Z.ltb_ge _ _)) by lia. unfold bit_at.
      destruct ([0; 0; 0; 0] !! Z.to_nat (u / 64)) as [w|] eqn:E; [|done].
      apply list_elem_of_lookup_2 in E. assert (w = 0) as ->; [|by rewrite Z.bits_0, andb_false_r].
      rewrite !elem_of_cons in E. destruct E as [|[|[|[|E]]]]; try done. by apply not_elem_of_nil in E.
    + by rewrite Nat.sub_0_r.
    + intros t x. rewrite lookup_empty. split; [done|]. by intros (c & Hc & _); lia.
  - exists k. pose proof (booting_inv n k Hn Hk) as Hs. split_and!; [done|done| | |].
    + destruct Hk as [K1 K2 K3 K4 K5]. split; [done|done|by rewrite K3|].
      intros t [x (c & Hc & -> & ->)%K5].
      assert (Hr : 0 < idle_tid c < OS_NR_TASKS) by (unfold idle_tid, OS_NR_TASKS; lia).
      split; [done|]. rewrite K3 by lia. unfold idle_tid, OS_NR_TASKS in *. case_bools; try done; lia.
    + rewrite (bt_cpus _ _ _ Hk), length_app, length_map, length_seq, length_replicate. lia.
    + intros c p Hc. apply (booting_cpu n k c p Hk) in Hc as [_ ->]. done.
Qed.

Lemma boot_establishes_invariant_witness :
  exists k, boot 100 4 = Ret k /\ sys_inv (ksys k) /\ tids_ok k /\ length (cpus (ksys k)) = 4%nat /\
    forall c p, cpus (ksys k) !! c = Some p -> running_task p = idle_task p.
Proof. apply (boot_establishes_invariant 100 4). lia. Defined.

Definition demo_k : kstate := mk_kstate [0x8000000000000007; 0; 0; 0] demo.

Lemma demo_k_tids : tids_ok demo_k.
Proof.
  split; [split; [repeat constructor; done|done]|done|done|].
  intros t [x Hx]. cbn in Hx. unfold demo_tasks in Hx. map_cases; by split.
Qed.

Lemma create_task_fresh_witness :
  exists r k', create_task 100 demo_k 0 5 (-1) 0 true true = Ret (r, k') /\
    sys_inv (ksys k') /\ tids_ok k' /\
    match r with
    | Some t => 0 < t < OS_NR_TASKS /\ bit_at (tid_map demo_k) t = false /\ tasks demo !! t = None /\
        (exists x, tasks (ksys k') !! t = Some x /\ 0 <= t_prio x < OS_PRIO_IDLE) /\
        (Z.land 0 TASK_FLAGS_NO_AUTO_START = 0 -> t ∈ state_nodes (ksys k'))
    | None => ksys k' = demo /\ forall u, 0 <= u -> bit_at (tid_map k') u = bit_at (tid_map demo_k) u
    end.
Proof.
  apply (create_task_fresh 100 demo_k 0 demo_pcpu 5 (-1) 0 true true);
    [apply demo_inv|apply demo_k_tids|done|lia].
Defined.
