(* ===== verification/Timer.v ===== *)
(** * Software timers

    [core/timer.c]: per-CPU lists of armed timers on top of one hardware deadline.

    A timer is identified by its address; its list entry is linked when the [active] list of a CPU
    contains it, or the list on which the timer interrupt of a CPU puts the timers that are not due
    ([rt_tmp], [tmp_head] of the source).  [rt_hw] is the deadline last given to [enable_timer].  The
    clock is the argument [now].  A stop that waits for a handler running on another CPU is
    [OutOfFuel]: it spins.

    The interrupt gives up its lock while a handler runs.  What the handler does to the timers, and
    what other CPUs do meanwhile, are arguments: lists of the operations of this file. *)

From S2P Require Import Prelude Types.

Definition TIMER_PRECISION : Z := 1000000.
Definition DEFAULT_TIMER_MARGIN : Z := TIMER_PRECISION / 2.

Record timer := mk_timer {
  tm_cpu : Z;
  tm_stop : bool;
  tm_expires : Z;
  tm_timeout : Z;
  tm_data : Z;
  tm_raw : option nat;
}.

Record raw_timer := mk_raw {
  rt_active : list Z;
  rt_tmp : list Z;
  rt_next : option Z;
  rt_running : option Z;
  rt_hw : option Z;
}.

Record tstate := mk_tstate {
  timers : gmap Z timer;
  raws : list raw_timer;
}.

Definition get_timer (s : tstate) (t : Z) : outcome timer :=
  match timers s !! t with Some x => Ret x | None => Fault end.
Definition get_raw (s : tstate) (c : nat) : outcome raw_timer :=
  match raws s !! c with Some r => Ret r | None => Fault end.
Definition put_timer (s : tstate) (t : Z) (x : timer) : tstate := mk_tstate (<[t := x]> (timers s)) (raws s).
Definition put_raw (s : tstate) (c : nat) (r : raw_timer) : tstate := mk_tstate (timers s) (<[c := r]> (raws s)).

Definition remove (t : Z) (l : list Z) : list Z := filter (fun x => x <> t) l.

Definition timer_pending (s : tstate) (t : Z) : bool := existsb (fun r => bool_decide (t ∈ rt_tmp r ++ rt_active r)) (raws s).

(** The entry leaves whichever list it is on. *)
Definition detach_timer (s : tstate) (t : Z) : tstate :=
  if timer_pending s t then
    mk_tstate (timers s)
      (map (fun r => mk_raw (remove t (rt_active r)) (remove t (rt_tmp r)) (rt_next r) (rt_running r) (rt_hw r)) (raws s))
  else s.

Definition expires_of (s : tstate) (t : Z) : outcome Z := let* x := get_timer s t in Ret (tm_expires x).

Definition __mod_timer (s : tstate) (c : nat) (t : Z) : outcome tstate :=
  let* x := get_timer s t in
  let cpu := Z.of_nat c in
  check negb (negb (tm_cpu x =? -1) && negb (tm_cpu x =? cpu)) in
  let s := detach_timer s t in
  let s := put_timer s t (mk_timer cpu false (tm_expires x) (tm_timeout x) (tm_data x) (Some c)) in
  let* r := get_raw s c in
  let* earlier := match rt_next r with
                  | None => Ret true
                  | Some n => let* e := expires_of s n in
                              Ret (u64 (tm_expires x + DEFAULT_TIMER_MARGIN) <? e)
                  end in
  Ret (put_raw s c (if earlier : bool
    then mk_raw (rt_active r ++ [t]) (rt_tmp r) (Some t) (rt_running r) (Some (tm_expires x))
    else mk_raw (rt_active r ++ [t]) (rt_tmp r) (rt_next r) (rt_running r) (rt_hw r))).

Definition set_expires (s : tstate) (t e : Z) : outcome tstate :=
  let* x := get_timer s t in
  Ret (put_timer s t (mk_timer (tm_cpu x) (tm_stop x) e (tm_timeout x) (tm_data x) (tm_raw x))).

Definition mod_timer (s : tstate) (c : nat) (now t cval : Z) : outcome tstate :=
  let* s := set_expires s t (if cval <? u64 (now + TIMER_PRECISION) then u64 (now + TIMER_PRECISION) else cval) in
  __mod_timer s c t.

Definition __start_delay_timer (s : tstate) (c : nat) (now t : Z) : outcome tstate :=
  let* x := get_timer s t in
  let timeout := if tm_timeout x <? TIMER_PRECISION then TIMER_PRECISION else tm_timeout x in
  let s := put_timer s t (mk_timer (tm_cpu x) (tm_stop x) (u64 (now + timeout)) timeout (tm_data x) (tm_raw x)) in
  __mod_timer s c t.

(** [stop] is not written. *)
Definition init_timer (s : tstate) (t data : Z) : tstate :=
  let stop := match timers s !! t with Some x => tm_stop x | None => false end in
  put_timer s t (mk_timer (-1) stop 0 0 data None).

Definition start_timer (s : tstate) (c : nat) (now t : Z) : outcome tstate := __start_delay_timer s c now t.

Definition setup_timer (s : tstate) (t tval : Z) : outcome tstate :=
  let* x := get_timer s t in
  Ret (put_timer s t (mk_timer (tm_cpu x) (tm_stop x) (tm_expires x) tval (tm_data x) (tm_raw x))).

Definition setup_and_start_timer (s : tstate) (c : nat) (now t tval : Z) : outcome tstate :=
  let* s := setup_timer s t tval in start_timer s c now t.

Definition stop_timer (s : tstate) (t : Z) : outcome tstate :=
  let* x := get_timer s t in
  if tm_cpu x =? -1 then Ret s else
  match tm_raw x with
  | None => Panic
  | Some rc =>
      let* r := get_raw s rc in
      if bool_decide (rt_running r = Some t) then OutOfFuel else
      let s := detach_timer s t in
      Ret (put_timer s t (mk_timer (-1) true 0 (tm_timeout x) (tm_data x) (tm_raw x)))
  end.

Definition init_raw_timers (n : nat) : list raw_timer := replicate n (mk_raw [] [] None None None).

(** ** The timer interrupt *)

(** What may happen to the timers while the interrupt does not hold its lock.  [ANote] is the store
    [timer->stop = 1] of a [stop_timer] that waits for a handler to end. *)
Inductive timer_act :=
| AMod (k : nat) (now t cval : Z)
| AStart (k : nat) (now t : Z)
| ASetup (t tval : Z)
| ANote (t : Z)
| AStop (t : Z)
| AInit (t data : Z).

Definition set_stop (s : tstate) (t : Z) : outcome tstate :=
  let* x := get_timer s t in
  Ret (put_timer s t (mk_timer (tm_cpu x) true (tm_expires x) (tm_timeout x) (tm_data x) (tm_raw x))).

Definition run_act (s : tstate) (a : timer_act) : outcome tstate :=
  match a with
  | AMod k now t cval => mod_timer s k now t cval
  | AStart k now t => start_timer s k now t
  | ASetup t tval => setup_timer s t tval
  | ANote t => set_stop s t
  | AStop t => stop_timer s t
  | AInit t data => Ret (init_timer s t data)
  end.

Fixpoint run_acts (s : tstate) (l : list timer_act) : outcome tstate :=
  match l with
  | [] => Ret s
  | a :: l => let* s := run_act s a in run_acts s l
  end.

Definition set_running (s : tstate) (c : nat) (t : option Z) : outcome tstate :=
  let* r := get_raw s c in Ret (put_raw s c (mk_raw (rt_active r) (rt_tmp r) (rt_next r) t (rt_hw r))).

Section Interrupt.
(** What other CPUs do before the interrupt looks at [timer->stop], what the handler and other CPUs do
    while it runs, and what other CPUs do before the interrupt has its lock again. *)
Context (before during after : Z -> tstate -> list timer_act).

(** The timer of [cur] or [t] that expires first, [cur] on a tie. *)
Definition earlier_timer (s : tstate) (cur : option Z) (t : Z) : outcome Z :=
  match cur with
  | None => Ret t
  | Some n => let* en := expires_of s n in let* et := expires_of s t in
              Ret (if et <? en then t else n)
  end.

(** A timer that is due has left the list.  The result says whether the handler ran, and what happened
    meanwhile. *)
Definition run_handler (s : tstate) (c : nat) (t : Z) : outcome (tstate * bool * list timer_act) :=
  let b := before t s in
  let* s := run_acts s b in
  let* y := get_timer s t in
  let d := if tm_stop y then [] else during t s in
  let* s := run_acts s d in
  let* s := set_running s c None in
  let a := after t s in
  let* s := run_acts s a in
  Ret (s, negb (tm_stop y), b ++ d ++ a).

(** The loop of [soft_timer_interrupt].  [next] is its [next_timer]; the result has the timers whose
    handler ran and everything that happened while the lock was free. *)
Fixpoint interrupt_loop (fuel : nat) (s : tstate) (c : nat) (now : Z) (next : option Z)
    (fired : list Z) (log : list timer_act) : outcome (tstate * option Z * list Z * list timer_act) :=
  match fuel with
  | O => OutOfFuel
  | S fuel =>
      let* r := get_raw s c in
      match rt_active r with
      | [] => Ret (s, next, fired, log)
      | t :: l =>
          let* x := get_timer s t in
          if tm_expires x <=? u64 (now + DEFAULT_TIMER_MARGIN) then
            let s := put_raw s c (mk_raw l (rt_tmp r) (rt_next r) (Some t) (rt_hw r)) in
            let* ((s, ran), done) := run_handler s c t in
            interrupt_loop fuel s c now next (if ran : bool then fired ++ [t] else fired) (log ++ done)
          else
            let* n := earlier_timer s next t in
            let s := put_raw s c (mk_raw l (rt_tmp r ++ [t]) (rt_next r) (rt_running r) (rt_hw r)) in
            interrupt_loop fuel s c now (Some n) fired log
      end
  end.

Definition soft_timer_interrupt (fuel : nat) (s : tstate) (c : nat) (now : Z) : outcome (list Z * list timer_act * tstate) :=
  let* r := get_raw s c in
  let s := put_raw s c (mk_raw (rt_active r) [] (rt_next r) (rt_running r) (rt_hw r)) in
  let* (((s, next), fired), log) := interrupt_loop fuel s c now None [] [] in
  let* r := get_raw s c in
  let* hw := match next with
             | None => Ret (rt_hw r)
             | Some n => let* e := expires_of s n in Ret (Some e)
             end in
  Ret (fired, log, put_raw s c (mk_raw (rt_tmp r) [] next (rt_running r) hw)).

End Interrupt.

Lemma get_timer_Ret s t x : timers s !! t = Some x -> get_timer s t = Ret x.
Proof. unfold get_timer. by intros ->. Qed.

Lemma get_raw_Ret c s r : raws s !! c = Some r -> get_raw s c = Ret r.
Proof. unfold get_raw. by intros ->. Qed.

Lemma put_raw_lookup c s r r' : raws s !! c = Some r -> raws (put_raw s c r') !! c = Some r'.
Proof. intros H. apply list_lookup_insert_eq. by eapply lookup_lt_Some. Qed.

Lemma remove_elem t u l : u ∈ remove t l <-> u ∈ l /\ u <> t.
Proof. unfold remove. rewrite list_elem_of_filter. tauto. Qed.

Lemma remove_id t l : t ∉ l -> remove t l = l.
Proof.
  unfold remove. induction l as [|a l IH]; [done|]. intros [Ha Hl]%not_elem_of_cons. rewrite filter_cons_True by congruence.
  by rewrite IH.
Qed.

Lemma remove_app t l1 l2 : remove t (l1 ++ l2) = remove t l1 ++ remove t l2.
Proof. apply filter_app. Qed.

Lemma detach_timers s t : timers (detach_timer s t) = timers s.
Proof. unfold detach_timer. by destruct (timer_pending s t). Qed.

Lemma not_pending s t k r : timer_pending s t = false -> raws s !! k = Some r -> t ∉ rt_tmp r ++ rt_active r.
Proof.
  intros Hp Hr Hin. assert (timer_pending s t = true); [|congruence]. unfold timer_pending. apply existsb_exists.
  exists r. split; [by eapply list_elem_of_In, list_elem_of_lookup_2|by apply bool_decide_eq_true].
Qed.

(** Detaching takes the timer off every list. *)
Lemma detach_raw s k t :
  raws (detach_timer s t) !! k = (fun r => mk_raw (remove t (rt_active r)) (remove t (rt_tmp r)) (rt_next r) (rt_running r) (rt_hw r)) <$> raws s !! k.
Proof.
  unfold detach_timer. destruct (timer_pending s t) eqn:Hp; cbn; [apply list_lookup_fmap|].
  destruct (raws s !! k) as [r|] eqn:Hr; [|done]. pose proof (not_pending _ _ _ _ Hp Hr) as Hn. apply not_elem_of_app in Hn as [H1 H2].
  cbn. rewrite !remove_id by done. by destruct r.
Qed.

(** ** What the operations do to the list of a CPU *)

Record twf (s : tstate) : Prop := {
  tw_lists : forall k r, raws s !! k = Some r ->
    NoDup (rt_tmp r ++ rt_active r) /\ Forall (fun t => is_Some (timers s !! t)) (rt_tmp r ++ rt_active r);
  tw_next : forall k r n, raws s !! k = Some r -> rt_next r = Some n -> is_Some (timers s !! n);
  tw_timer : forall t x, timers s !! t = Some x -> 0 <= tm_expires x /\ 0 <= tm_timeout x /\
    (tm_cpu x <> -1 -> exists k r, tm_raw x = Some k /\ raws s !! k = Some r);
}.

Section InterruptCorrect.
Context (c : nat) (now : Z).
Hypothesis now_ok : 0 <= now /\ now + DEFAULT_TIMER_MARGIN < 2 ^ 64.

Definition due (x : timer) : bool := tm_expires x <=? u64 (now + DEFAULT_TIMER_MARGIN).

Definition later (s : tstate) (t : Z) : Prop := exists x, timers s !! t = Some x /\ due x = false.

(** The timer that an operation is about, and whether it arms it. *)
Definition target (a : timer_act) : Z :=
  match a with AMod _ _ t _ | AStart _ _ t | ASetup t _ | ANote t | AStop t | AInit t _ => t end.
Definition arms (a : timer_act) : bool := match a with AMod _ _ _ _ | AStart _ _ _ => true | _ => false end.

(** The callers' side of the operations: clocks do not run backwards or over, a timer is armed by the
    CPU it belongs to or when it belongs to none, a timer whose handler runs is not stopped (its
    stopper waits, and [ANote] is all that it has done), and a pending timer is not initialised. *)
Definition legal (s : tstate) (a : timer_act) : Prop :=
  exists x, timers s !! target a = Some x /\
  match a with
  | AMod k now' t cval => (k < length (raws s))%nat /\ (tm_cpu x = -1 \/ tm_cpu x = Z.of_nat k) /\
      now <= now' /\ now' + TIMER_PRECISION < 2 ^ 64 /\ 0 <= cval < 2 ^ 64
  | AStart k now' t => (k < length (raws s))%nat /\ (tm_cpu x = -1 \/ tm_cpu x = Z.of_nat k) /\
      now <= now' /\ now' + Z.max (tm_timeout x) TIMER_PRECISION < 2 ^ 64
  | ASetup t tval => 0 <= tval
  | ANote t => tm_cpu x <> -1
  | AStop t => forall k r, tm_raw x = Some k -> raws s !! k = Some r -> rt_running r <> Some t
  | AInit t data => timer_pending s t = false
  end.

Fixpoint legal_run (s : tstate) (l : list timer_act) : Prop :=
  match l with
  | [] => True
  | a :: l => legal s a /\ forall s', run_act s a = Ret s' -> legal_run s' l
  end.

(** The effect of an operation on timer [u], seen from the CPU [c]. *)
Record acted (u : Z) (arm : bool) (s s' : tstate) : Prop := {
  ac_wf : twf s';
  ac_dom : dom (timers s') = dom (timers s);
  ac_other : forall v, v <> u -> timers s' !! v = timers s !! v;
  ac_timer : forall x, timers s !! u = Some x -> exists x', timers s' !! u = Some x' /\
    (tm_expires x' = tm_expires x /\ (tm_stop x = true -> tm_stop x' = true) \/ tm_expires x' = 0 \/ arm = true);
  ac_raw : forall r, raws s !! c = Some r -> exists r' ext, raws s' !! c = Some r' /\ rt_running r' = rt_running r /\
    (ext = [] \/ ext = [u] /\ arm = true /\ later s' u) /\
    (rt_active r' = rt_active r /\ rt_tmp r' = rt_tmp r /\ ext = [] /\ arm = false /\
       (forall x, timers s !! u = Some x -> exists x', timers s' !! u = Some x' /\ tm_expires x' = tm_expires x /\ (tm_stop x = true -> tm_stop x' = true)) \/
     rt_active r' = remove u (rt_active r) ++ ext /\ rt_tmp r' = remove u (rt_tmp r));
}.

Lemma dom_insert_known (m : gmap Z timer) t x y : m !! t = Some x -> dom (<[t := y]> m) = dom m.
Proof. intros Hx. apply dom_insert_lookup_L. by exists x. Qed.

Lemma known_put s t x y u : timers s !! t = Some x -> is_Some (timers s !! u) -> is_Some (timers (put_timer s t y) !! u).
Proof. intros Hx Hu. cbn. destruct (decide (u = t)) as [->|Hne]; [rewrite lookup_insert_eq; eauto|by rewrite lookup_insert_ne]. Qed.

(** Changing the record of a timer leaves the lists. *)
Lemma twf_put s t x y : twf s -> timers s !! t = Some x -> 0 <= tm_expires y -> 0 <= tm_timeout y ->
  (tm_cpu y <> -1 -> exists k r, tm_raw y = Some k /\ raws s !! k = Some r) -> twf (put_timer s t y).
Proof.
  intros [W1 W2 W3] Hx H1 H2 H3. split.
  - intros k r Hr. destruct (W1 k r Hr) as [Hn Hk]. split; [done|]. eapply Forall_impl; [exact Hk|]. intros u. by eapply known_put.
  - intros k r n Hr Hn. eapply known_put; [done|by apply (W2 k r)].
  - intros u z Hz. cbn in Hz. apply lookup_insert_Some in Hz as [(<- & <-)|[_ Hz]]; [done|]. by apply (W3 u z).
Qed.

Lemma acted_put s t x y : twf s -> timers s !! t = Some x -> 0 <= tm_expires y -> 0 <= tm_timeout y ->
  (tm_cpu y <> -1 -> exists k r, tm_raw y = Some k /\ raws s !! k = Some r) ->
  tm_expires y = tm_expires x -> (tm_stop x = true -> tm_stop y = true) -> acted t false s (put_timer s t y).
Proof.
  intros Hw Hx H1 H2 H3 He Hst. split.
  - by apply (twf_put s t x).
  - by eapply dom_insert_known.
  - intros v Hv. cbn. by rewrite lookup_insert_ne.
  - intros x0 Hx0. simplify_eq. exists y. cbn. rewrite lookup_insert_eq. auto.
  - intros r Hr. exists r, []. split; [done|]. split; [done|]. split; [by left|]. left. split_and!; try done.
    intros x0 Hx0. simplify_eq. exists y. cbn. by rewrite lookup_insert_eq.
Qed.

(** A timer taken off all lists, with a new record. *)
Lemma acted_detach s t x y : twf s -> timers s !! t = Some x -> tm_expires y = 0 -> 0 <= tm_timeout y -> tm_cpu y = -1 ->
  acted t false s (put_timer (detach_timer s t) t y).
Proof.
  intros Hw Hx He Ht Hc. assert (Hsub : forall k r, raws (detach_timer s t) !! k = Some r -> exists r0, raws s !! k = Some r0 /\
    r = mk_raw (remove t (rt_active r0)) (remove t (rt_tmp r0)) (rt_next r0) (rt_running r0) (rt_hw r0)).
  { intros k r. rewrite detach_raw. intros (r0 & -> & Hr0)%fmap_Some. by exists r0. }
  assert (Hw1 : twf (detach_timer s t)).
  { destruct Hw as [W1 W2 W3]. split.
    - intros k r (r0 & Hr0 & ->)%Hsub. destruct (W1 k r0 Hr0) as [Hn Hk]. cbn. rewrite <- remove_app, detach_timers. split; [by apply NoDup_filter|].
      apply Forall_forall. intros u [Hu _]%remove_elem. by apply (proj1 (Forall_forall _ _) Hk).
    - intros k r n (r0 & Hr0 & ->)%Hsub Hn. rewrite detach_timers. by apply (W2 k r0).
    - intros u z. rewrite detach_timers. intros Hz. destruct (W3 u z Hz) as (E1 & E2 & E3). split_and!; try done. intros Hz'. destruct (E3 Hz') as (k & r & E4 & E5).
      exists k. rewrite detach_raw, E5. by eexists. }
  assert (Hx1 : timers (detach_timer s t) !! t = Some x) by (by rewrite detach_timers). split.
  - eapply twf_put; [done|done|lia|done|]. by rewrite Hc.
  - cbn. erewrite dom_insert_known by done. by rewrite detach_timers.
  - intros v Hv. cbn. by rewrite lookup_insert_ne, detach_timers.
  - intros x0 Hx0. exists y. cbn. rewrite lookup_insert_eq. auto.
  - intros r Hr. eexists _, []. cbn [raws put_timer]. rewrite detach_raw, Hr. split; [done|]. split; [done|]. split; [by left|]. right. cbn. by rewrite app_nil_r.
Qed.

Lemma acted_mod s k t x : twf s -> timers s !! t = Some x -> (k < length (raws s))%nat -> (tm_cpu x = -1 \/ tm_cpu x = Z.of_nat k) -> due x = false ->
  exists s', __mod_timer s k t = Ret s' /\ acted t true s s'.
Proof.
  intros Hw Hx Hk Hcpu Hd. unfold __mod_timer. rewrite (get_timer_Ret _ _ _ Hx). cbn [obind].
  replace (negb _) with true by (destruct Hcpu as [->| ->]; rewrite ?Z.eqb_refl; [done|by rewrite andb_false_r]). cbn [assert obind].
  destruct (lookup_lt_is_Some_2 _ _ Hk) as [r0 Hr0]. destruct (tw_timer _ Hw t x Hx) as (X1 & X2 & _).
  set (y := mk_timer (Z.of_nat k) false (tm_expires x) (tm_timeout x) (tm_data x) (Some k)). set (s1 := put_timer (detach_timer s t) t y).
  assert (Hr1 : forall j, raws s1 !! j = (fun r => mk_raw (remove t (rt_active r)) (remove t (rt_tmp r)) (rt_next r) (rt_running r) (rt_hw r)) <$> raws s !! j) by (intros j; apply detach_raw).
  assert (Ht1 : timers s1 = <[t := y]> (timers s)) by (cbn; by rewrite detach_timers).
  assert (Hkn : forall u, is_Some (timers s !! u) -> is_Some (timers s1 !! u)).
  { intros u Hu. rewrite Ht1. destruct (decide (u = t)) as [->|Hne]; [rewrite lookup_insert_eq; eauto|by rewrite lookup_insert_ne]. }
  rewrite (get_raw_Ret k s1 _) by (rewrite Hr1, Hr0; done). cbn [obind rt_next rt_active rt_tmp rt_running rt_hw].
  assert (He : exists b, match rt_next r0 with None => Ret true | Some n => let* e := expires_of s1 n in Ret (u64 (tm_expires x + DEFAULT_TIMER_MARGIN) <? e) end = Ret b).
  { destruct (rt_next r0) as [n|] eqn:En; [|by eexists]. destruct (Hkn n (tw_next _ Hw k r0 n Hr0 En)) as [z Hz]. unfold expires_of. rewrite (get_timer_Ret _ _ _ Hz). by eexists. }
  destruct He as [b ->]. cbn [obind]. eexists. split; [done|].
  set (next := if b then Some t else rt_next r0). set (hw := if b then Some (tm_expires x) else rt_hw r0).
  replace (if b then _ else _) with (mk_raw (remove t (rt_active r0) ++ [t]) (remove t (rt_tmp r0)) next (rt_running r0) hw) by (by destruct b).
  set (rk := mk_raw _ _ next _ hw).
  assert (Hput : raws (put_raw s1 k rk) !! k = Some rk) by (eapply put_raw_lookup; rewrite Hr1, Hr0; done).
  assert (Hoth : forall j, j <> k -> raws (put_raw s1 k rk) !! j = raws s1 !! j) by (intros j Hj; cbn [raws put_raw]; by rewrite list_lookup_insert_ne).
  assert (Hl : forall j r, raws (put_raw s1 k rk) !! j = Some r -> j = k /\ r = rk \/ j <> k /\ exists rj, raws s !! j = Some rj /\ r = mk_raw (remove t (rt_active rj)) (remove t (rt_tmp rj)) (rt_next rj) (rt_running rj) (rt_hw rj)).
  { intros j r. cbn [raws put_raw]. intros [(-> & -> & _)|[Hne Hj]]%list_lookup_insert_Some; [by left|]. right. split; [done|]. change (raws s1 !! j = Some r) in Hj. rewrite Hr1 in Hj. apply fmap_Some in Hj as (rj & Hj & ->). by exists rj. }
  assert (Hrem : forall j rj, raws s !! j = Some rj -> NoDup (remove t (rt_tmp rj) ++ remove t (rt_active rj)) /\ Forall (fun u => is_Some (timers s1 !! u)) (remove t (rt_tmp rj) ++ remove t (rt_active rj)) /\ t ∉ remove t (rt_tmp rj) ++ remove t (rt_active rj)).
  { intros j rj Hj. destruct (tw_lists _ Hw j rj Hj) as [Hn Hf]. rewrite <- remove_app. split; [by apply NoDup_filter|]. split; [|by intros [_ ?]%remove_elem].
    apply Forall_forall. intros u [Hu _]%remove_elem. by apply Hkn, (proj1 (Forall_forall _ _) Hf). }
  split.
  - split.
    + intros j r [(-> & ->)|(Hne & rj & Hj & ->)]%Hl; cbn [rk rt_tmp rt_active]; [|destruct (Hrem j rj Hj) as (? & ? & _); by split].
      destruct (Hrem k r0 Hr0) as (N & F & T). rewrite app_assoc. split; [|apply Forall_app; split; [done|apply Forall_singleton, Hkn; by exists x]].
      apply NoDup_app. split; [done|]. split; [|apply NoDup_singleton]. by intros u Hu ->%list_elem_of_singleton.
    + intros j r n [(-> & ->)|(Hne & rj & Hj & ->)]%Hl Hn; cbn in Hn; apply Hkn; [|by apply (tw_next _ Hw j rj)].
      unfold next in Hn. destruct b; [simplify_eq; by exists x|by apply (tw_next _ Hw k r0)].
    + intros u z Hz. change (timers s1 !! u = Some z) in Hz. rewrite Ht1 in Hz. apply lookup_insert_Some in Hz as [(<- & <-)|[_ Hz]].
      * split_and!; try done. intros _. by exists k, rk.
      * destruct (tw_timer _ Hw u z Hz) as (E1 & E2 & E3). split_and!; try done. intros Hc'. destruct (E3 Hc') as (j & rj & E4 & E5). exists j.
        destruct (decide (j = k)) as [->|Hne]; [by exists rk|].
        eexists. split; [done|]. rewrite Hoth, Hr1, E5 by done. done.
  - change (dom (timers s1) = dom (timers s)). rewrite Ht1. by eapply dom_insert_known.
  - intros v Hv. change (timers s1 !! v = timers s !! v). rewrite Ht1. by rewrite lookup_insert_ne.
  - intros z _. exists y. split; [change (timers s1 !! t = Some y); by rewrite Ht1, lookup_insert_eq|auto].
  - intros r Hr. destruct (decide (c = k)) as [->|Hne].
    + rewrite Hr0 in Hr. injection Hr as <-. exists rk, [t]. split; [done|]. split; [done|]. split; [|by right].
      right. split_and!; try done. exists y. change (timers s1 !! t = Some y /\ due y = false). rewrite Ht1, lookup_insert_eq. done.
    + eexists _, []. split; [rewrite Hoth, Hr1, Hr by done; done|].
      split; [done|]. split; [by left|]. right. cbn. by rewrite app_nil_r.
Qed.

(** A change of the record before the timer is armed is part of arming it. *)
Lemma acted_after_put s t x y s' : timers s !! t = Some x -> acted t true (put_timer s t y) s' -> acted t true s s'.
Proof.
  intros Hx [A1 A2 A3 A4 A5]. split; try done.
  - rewrite A2. by eapply dom_insert_known.
  - intros v Hv. rewrite A3 by done. cbn. by rewrite lookup_insert_ne.
  - intros z _. destruct (A4 y) as (x' & E & _); [apply lookup_insert_eq|]. exists x'. auto.
  - intros r Hr. destruct (A5 r Hr) as (r' & ext & E1 & E2 & E3 & [(_ & _ & _ & ? & _)|E4]); [done|]. exists r', ext. split_and!; try done. by right.
Qed.

Lemma armed_later e x : now + TIMER_PRECISION <= e -> tm_expires x = e -> due x = false.
Proof using now_ok.
  intros He Hx. unfold due. rewrite wrap_small by (change DEFAULT_TIMER_MARGIN with 500000 in *; lia). rewrite Hx.
  apply Z.leb_gt. change DEFAULT_TIMER_MARGIN with 500000. unfold TIMER_PRECISION in He. lia.
Qed.

(** Every legal operation returns, with the effect of [acted]. *)
Lemma act_ok s a : twf s -> legal s a -> exists s', run_act s a = Ret s' /\ acted (target a) (arms a) s s'.
Proof using now_ok.
  intros Hw (x & Hx & Hl). destruct (tw_timer _ Hw _ x Hx) as (X1 & X2 & X3).
  destruct a as [k now' t cval|k now' t|t tval|t|t|t data]; cbn [target arms run_act] in *.
  - destruct Hl as (Hk & Hcpu & Hn & Hov & Hcv). unfold mod_timer, set_expires. rewrite (get_timer_Ret _ _ _ Hx). cbn [obind].
    rewrite wrap_small by (unfold TIMER_PRECISION in *; lia). set (e := if cval <? _ then _ else cval).
    assert (He : now + TIMER_PRECISION <= e /\ 0 <= e) by (unfold e, TIMER_PRECISION in *; case_bools; lia). clearbody e.
    set (y := mk_timer _ _ e _ _ _). destruct (acted_mod (put_timer s t y) k t y) as (s' & E & A); [|apply lookup_insert_eq|done|done|apply (armed_later e); [apply He|done]|].
    + apply (twf_put s t x); try done. apply He.
    + exists s'. split; [done|]. by apply (acted_after_put s t x y).
  - destruct Hl as (Hk & Hcpu & Hn & Hov). unfold start_timer, __start_delay_timer. rewrite (get_timer_Ret _ _ _ Hx). cbn [obind].
    set (timeout := if tm_timeout x <? TIMER_PRECISION then TIMER_PRECISION else tm_timeout x).
    assert (Ht : timeout = Z.max (tm_timeout x) TIMER_PRECISION) by (unfold timeout; case_bools; lia). rewrite (wrap_small 64) by (unfold TIMER_PRECISION in *; lia).
    set (y := mk_timer _ _ (now' + timeout) timeout _ _). destruct (acted_mod (put_timer s t y) k t y) as (s' & E & A); [|apply lookup_insert_eq|done|done|apply (armed_later (now' + timeout)); [lia|done]|].
    + apply (twf_put s t x); try done; cbn; unfold TIMER_PRECISION in *; lia.
    + exists s'. split; [done|]. by apply (acted_after_put s t x y).
  - unfold setup_timer. rewrite (get_timer_Ret _ _ _ Hx). eexists. split; [done|]. by apply (acted_put s t x).
  - unfold set_stop. rewrite (get_timer_Ret _ _ _ Hx). eexists. split; [done|]. by apply (acted_put s t x).
  - unfold stop_timer. rewrite (get_timer_Ret _ _ _ Hx). cbn [obind]. destruct (Z.eqb_spec (tm_cpu x) (-1)) as [E|E].
    + exists s. split; [done|]. assert (Hs : put_timer s t x = s) by (destruct s; unfold put_timer; cbn in *; f_equal; by apply insert_id).
      rewrite <- Hs at 2. by apply (acted_put s t x).
    + destruct (X3 E) as (k & r & Ek & Hr). rewrite Ek, (get_raw_Ret _ _ _ Hr). cbn [obind]. rewrite bool_decide_eq_false_2 by (by apply (Hl k r)).
      eexists. split; [done|]. by apply (acted_detach s t x).
  - eexists. split; [done|]. unfold init_timer. rewrite Hx. assert (Hs : detach_timer s t = s) by (unfold detach_timer; by rewrite Hl).
    set (y := mk_timer _ _ _ _ _ _). pose proof (acted_detach s t x y Hw Hx eq_refl ltac:(done) eq_refl) as A. by rewrite Hs in A.
Qed.

(** *** The invariant of the interrupt *)

Section Run.
Context (before during after : Z -> tstate -> list timer_act) (s0 : tstate) (A0 : list Z).
Hypothesis A0_nodup : NoDup A0.
Hypothesis acts_legal : forall t s, twf s -> dom (timers s) = dom (timers s0) -> is_Some (timers s !! t) ->
  legal_run s (before t s) /\ legal_run s (during t s) /\ legal_run s (after t s).

Definition due_in (s : tstate) (t : Z) : bool := match timers s !! t with Some x => due x | None => false end.
Definition stopped_in (s : tstate) (t : Z) : bool := match timers s !! t with Some x => tm_stop x | None => false end.

Definition touched (log : list timer_act) : list Z := target <$> log.
Definition armed (log : list timer_act) : list Z := target <$> filter (fun a => arms a = true) log.

(** A timer that was on the list and not due. *)
Definition waiting (u : Z) : Prop := u ∈ A0 /\ due_in s0 u = false.

(** Nobody armed a timer that waits on the list of the interrupt. *)
Definition calm (log : list timer_act) : Prop := NoDup (armed log) /\ forall u, u ∈ armed log -> ~ waiting u.

Definition next_ok (s : tstate) (tmp : list Z) (log : list timer_act) (next : option Z) : Prop :=
  match next with
  | None => tmp = []
  | Some n => (waiting n \/ n ∈ armed log) /\ is_Some (timers s !! n) /\ (n ∈ tmp \/ n ∈ touched log) /\
      (calm log -> forall xn u xu, timers s !! n = Some xn -> u ∈ tmp -> timers s !! u = Some xu -> tm_expires xn <= tm_expires xu)
  end.

(** [A0] is [done ++ mid ++ rest], with the timer whose handler runs in [mid]; of [rest] the timers
    [old] are still on the list, followed by those armed meanwhile. *)
Record loop_inv (s : tstate) (r : raw_timer) (old ext : list Z) (next : option Z) (done mid rest fired : list Z) (log : list timer_act) : Prop := {
  j_wf : twf s;
  j_dom : dom (timers s) = dom (timers s0);
  j_split : A0 = done ++ mid ++ rest;
  j_raw : raws s !! c = Some r;
  j_active : rt_active r = old ++ ext;
  j_old : old `sublist_of` rest;
  j_later : Forall (later s) (rt_tmp r ++ ext);
  j_same : forall u, u ∈ old -> exists x0 x, timers s0 !! u = Some x0 /\ timers s !! u = Some x /\ tm_expires x = tm_expires x0;
  j_gone : forall u, u ∈ rest -> u ∈ old \/ u ∈ touched log;
  j_from : forall u, u ∈ rt_tmp r ++ ext -> waiting u \/ u ∈ armed log;
  j_kept : forall u, u ∈ done -> due_in s0 u = false -> u ∈ rt_tmp r \/ u ∈ touched log;
  j_next : next_ok s (rt_tmp r) log next;
  j_record : forall u, u ∉ touched log -> timers s !! u = timers s0 !! u;
  j_order : fired `sublist_of` List.filter (due_in s0) done;
  j_fired : forall u, u ∈ done -> due_in s0 u = true -> u ∉ touched log -> (u ∈ fired <-> stopped_in s0 u = false);
}.

Lemma touched_app l1 l2 : touched (l1 ++ l2) = touched l1 ++ touched l2.
Proof. apply fmap_app. Qed.

Lemma touched_mono u log a : u ∈ touched log -> u ∈ touched (log ++ [a]).
Proof. rewrite touched_app, elem_of_app. by left. Qed.

Lemma touched_new a log : target a ∈ touched (log ++ [a]).
Proof. rewrite touched_app, elem_of_app. right. by left. Qed.

Lemma armed_snoc log a : armed (log ++ [a]) = armed log ++ if arms a then [target a] else [].
Proof. unfold armed. rewrite filter_app, fmap_app. f_equal. cbn. by destruct (arms a). Qed.

Lemma armed_mono u log a : u ∈ armed log -> u ∈ armed (log ++ [a]).
Proof. rewrite armed_snoc, elem_of_app. by left. Qed.

Lemma calm_snoc log a : calm (log ++ [a]) -> calm log /\ (arms a = true -> ~ (waiting (target a) \/ target a ∈ armed log)).
Proof.
  intros [H1 H2]. rewrite armed_snoc in *. apply NoDup_app in H1 as (N1 & N2 & _). split.
  - split; [done|]. intros u Hu. apply H2, elem_of_app. by left.
  - intros Ha [Hw|Hin]; rewrite Ha in *; [apply (H2 (target a)); [apply elem_of_app; right; by left|done]|apply (N2 _ Hin); by left].
Qed.

Lemma later_same s s' u : timers s' !! u = timers s !! u -> later s u -> later s' u.
Proof. intros E (x & Hx & Hd). exists x. by rewrite E. Qed.

(** The [next_timer] of the loop stays the first to expire. *)
Lemma next_act s s' a log tmp tmp' next : twf s -> acted (target a) (arms a) s s' ->
  (forall u, u ∈ tmp' -> u ∈ tmp) -> (forall u, u ∈ tmp -> u <> target a -> u ∈ tmp') ->
  (target a ∈ tmp' -> forall x, timers s !! target a = Some x -> exists x', timers s' !! target a = Some x' /\ tm_expires x' = tm_expires x) ->
  next_ok s tmp log next -> next_ok s' tmp' (log ++ [a]) next.
Proof.
  intros Hw A Hsub Hback Hsame. unfold next_ok. destruct next as [n|].
  2:{ intros ->. destruct tmp' as [|u l]; [done|]. specialize (Hsub u ltac:(by left)). by apply not_elem_of_nil in Hsub. }
  intros (H1 & [x Hx] & H3 & H4). split; [destruct H1; [by left|right; by apply armed_mono]|].
  assert (Hn' : exists x', timers s' !! n = Some x' /\ (tm_expires x' = tm_expires x \/ tm_expires x' = 0 \/ arms a = true /\ n = target a)).
  { destruct (decide (n = target a)) as [->|Hne]; [|exists x; rewrite (ac_other _ _ _ _ A) by done; auto].
    destruct (ac_timer _ _ _ _ A x Hx) as (x' & E & [[? _]|[?|?]]); exists x'; auto. }
  destruct Hn' as (x' & Hx' & Hcase). split; [by exists x'|]. split.
  - destruct H3 as [H3|H3]; [|right; by apply touched_mono]. destruct (decide (n = target a)) as [->|Hne]; [right; apply touched_new|left; by apply Hback].
  - intros Hc xn u xu Hxn Hu Hxu. apply calm_snoc in Hc as [Hc Hno]. rewrite Hx' in Hxn. injection Hxn as <-.
    assert (Hv : exists xv, timers s !! u = Some xv /\ tm_expires xu = tm_expires xv).
    { destruct (decide (u = target a)) as [->|Hne]; [|exists xu; split; [by rewrite <- (ac_other _ _ _ _ A)|done]].
      assert (Hk : is_Some (timers s !! target a)) by (apply elem_of_dom; rewrite <- (ac_dom _ _ _ _ A); apply elem_of_dom; by exists xu).
      destruct Hk as [xv Hxv]. destruct (Hsame Hu xv Hxv) as (x1 & E1 & E2). exists xv. split; [done|]. congruence. }
    destruct Hv as (xv & Hxv & ->). specialize (H4 Hc x u xv Hx (Hsub u Hu) Hxv).
    destruct Hcase as [->|[->|[Ha ->]]]; [done| |by destruct (Hno Ha)]. apply (tw_timer _ Hw u xv Hxv).
Qed.

(** An operation of a handler or of another CPU. *)
Lemma act_inv s s' r old ext next done mid rest fired log a : loop_inv s r old ext next done mid rest fired log ->
  acted (target a) (arms a) s s' -> exists r' old' ext', loop_inv s' r' old' ext' next done mid rest fired (log ++ [a]) /\
    rt_running r' = rt_running r /\ (length old' <= length old)%nat.
Proof using A0_nodup.
  intros J A. set (u := target a) in *. destruct (ac_raw _ _ _ _ A r (j_raw _ _ _ _ _ _ _ _ _ _ J)) as (r' & ext0 & Hr' & Hrun & Hext0 & Hcase).
  assert (Hto : forall v, v ∈ touched log -> v ∈ touched (log ++ [a])) by (intros v; apply touched_mono).
  assert (Hother : forall v, v <> u -> timers s' !! v = timers s !! v) by apply A.
  assert (Hcommon : forall old' ext', rt_active r' = old' ++ ext' -> old' `sublist_of` old -> (forall v, v ∈ old -> v ∈ old' \/ v = u) ->
    (forall v, v ∈ old' -> v = u -> exists x x', timers s !! u = Some x /\ timers s' !! u = Some x' /\ tm_expires x' = tm_expires x) ->
    Forall (later s') (rt_tmp r' ++ ext') -> (forall v, v ∈ rt_tmp r' ++ ext' -> waiting v \/ v ∈ armed (log ++ [a])) ->
    (forall v, v ∈ rt_tmp r -> v ∈ rt_tmp r' \/ v = u) -> next_ok s' (rt_tmp r') (log ++ [a]) next ->
    loop_inv s' r' old' ext' next done mid rest fired (log ++ [a])).
  { intros old' ext' Ha Hsub Hold Hu Hl Hf Ht Hn. destruct J as [J1 J2 J3 J4 J5 J6 J7 J8 J9 J10 J11 J12 J13 J14 J15]. split; try done.
    - apply A.
    - by rewrite (ac_dom _ _ _ _ A).
    - by etrans.
    - intros v Hv. destruct (J8 v) as (x0 & x & E1 & E2 & E3); [by eapply elem_of_sublist|]. exists x0. destruct (decide (v = u)) as [->|Hne].
      + destruct (Hu u Hv eq_refl) as (y & y' & F1 & F2 & F3). exists y'. split_and!; try done. congruence.
      + exists x. by rewrite Hother.
    - intros v Hv. destruct (J9 v Hv) as [H|H]; [|right; by apply Hto]. destruct (Hold v H) as [?| ->]; [by left|right; apply touched_new].
    - intros v Hv Hd. destruct (J11 v Hv Hd) as [H|H]; [|right; by apply Hto]. destruct (Ht v H) as [?| ->]; [by left|right; apply touched_new].
    - intros v Hv. rewrite Hother by (intros ->; apply Hv, touched_new). apply J13. intros H. by apply Hv, Hto.
    - intros v Hv Hd Hnt. apply J15; try done. intros H. by apply Hnt, Hto. }
  destruct Hcase as [(E1 & E2 & -> & Ea & Esame)|(E1 & E2)].
  - exists r', old, ext. split; [|done]. apply Hcommon.
    + by rewrite E1, (j_active _ _ _ _ _ _ _ _ _ _ J).
    + done.
    + by left.
    + intros v Hv ->. destruct (j_same _ _ _ _ _ _ _ _ _ _ J u Hv) as (x0 & x & _ & Hx & _). destruct (Esame x Hx) as (x' & F1 & F2 & _). by exists x, x'.
    + rewrite E2. eapply Forall_impl; [apply J|]. intros v (x & Hx & Hd). destruct (decide (v = u)) as [->|Hne]; [|by eapply later_same; [apply Hother|exists x]].
      destruct (Esame x Hx) as (x' & F1 & F2 & _). exists x'. split; [done|]. unfold due in *. by rewrite F2.
    + rewrite E2. intros v Hv. destruct (j_from _ _ _ _ _ _ _ _ _ _ J v Hv); [by left|right; by apply armed_mono].
    + rewrite E2. by left.
    + rewrite E2. apply (next_act s s' a log (rt_tmp r)); try done; [apply J| |apply J]. intros _ x Hx. destruct (Esame x Hx) as (x' & F1 & F2 & _). by exists x'.
  - exists r', (remove u old), (remove u ext ++ ext0). rewrite (j_active _ _ _ _ _ _ _ _ _ _ J), remove_app, <- app_assoc in E1.
    assert (Hnot : forall l, u ∉ remove u l) by (intros l [_ ?]%remove_elem; done).
    split; [|split; [done|]; apply sublist_length, sublist_filter]. apply Hcommon; try done.
    + apply sublist_filter.
    + intros v Hv. destruct (decide (v = u)); [by right|left; by apply remove_elem].
    + intros v Hv ->. by apply Hnot in Hv.
    + rewrite E2, app_assoc. apply Forall_app. split.
      * rewrite <- remove_app. apply Forall_forall. intros v [Hv Hne]%remove_elem. eapply later_same; [by apply Hother|]. by apply (proj1 (Forall_forall _ _) (j_later _ _ _ _ _ _ _ _ _ _ J)).
      * destruct Hext0 as [->|(-> & _ & Hl)]; [done|by apply Forall_singleton].
    + rewrite E2, app_assoc. intros v [Hv|Hv]%elem_of_app.
      * rewrite <- remove_app in Hv. apply remove_elem in Hv as [Hv _]. destruct (j_from _ _ _ _ _ _ _ _ _ _ J v Hv); [by left|right; by apply armed_mono].
      * destruct Hext0 as [->|(-> & Ha & _)]; [by apply not_elem_of_nil in Hv|]. apply list_elem_of_singleton in Hv as ->. right. rewrite armed_snoc, Ha. apply elem_of_app. right. by left.
    + rewrite E2. intros v Hv. destruct (decide (v = u)); [by right|left; by apply remove_elem].
    + rewrite E2. apply (next_act s s' a log (rt_tmp r)); try done; [apply J| | | |apply J].
      * intros v Hv. by apply remove_elem in Hv as [? _].
      * intros v Hv Hne. by apply remove_elem.
      * intros Hin. by apply Hnot in Hin.
Qed.

Lemma acts_inv l : forall s r old ext next done mid rest fired log, loop_inv s r old ext next done mid rest fired log -> legal_run s l ->
  exists s' r' old' ext', run_acts s l = Ret s' /\ loop_inv s' r' old' ext' next done mid rest fired (log ++ l) /\
    rt_running r' = rt_running r /\ (length old' <= length old)%nat.
Proof using A0_nodup now_ok.
  induction l as [|a l IH]; intros s r old ext next done mid rest fired log J Hl; cbn [run_acts].
  { exists s, r, old, ext. by rewrite app_nil_r. }
  destruct Hl as [Ha Hl]. destruct (act_ok s a (j_wf _ _ _ _ _ _ _ _ _ _ J) Ha) as (s1 & E1 & A). rewrite E1. cbn [obind].
  destruct (act_inv _ _ _ _ _ _ _ _ _ _ _ _ J A) as (r1 & old1 & ext1 & J1 & R1 & L1).
  destruct (IH s1 r1 old1 ext1 next done mid rest fired _ J1 (Hl s1 E1)) as (s2 & r2 & old2 & ext2 & E2 & J2 & R2 & L2).
  exists s2, r2, old2, ext2. split; [done|]. rewrite <- app_assoc in J2. split; [done|]. split; [congruence|lia].
Qed.

Lemma twf_relink s r r' : twf s -> raws s !! c = Some r -> NoDup (rt_tmp r' ++ rt_active r') ->
  (forall u, u ∈ rt_tmp r' ++ rt_active r' -> u ∈ rt_tmp r ++ rt_active r) -> (forall n, rt_next r' = Some n -> is_Some (timers s !! n)) -> twf (put_raw s c r').
Proof.
  intros [W1 W2 W3] Hr Hn Hsub Hnx. destruct (W1 c r Hr) as [_ Hk]. split.
  - intros k rk. cbn [raws put_raw]. intros [(<- & -> & _)|[Hne Hj]]%list_lookup_insert_Some; [|by apply (W1 k)].
    split; [done|]. apply Forall_forall. intros u Hu. by apply (proj1 (Forall_forall _ _) Hk), Hsub.
  - intros k rk n. cbn [raws put_raw]. intros [(<- & -> & _)|[Hne Hj]]%list_lookup_insert_Some; [by apply Hnx|by apply (W2 k)].
  - intros t x Hx. destruct (W3 t x Hx) as (E1 & E2 & E3). split_and!; try done. intros Hc'. destruct (E3 Hc') as (k & rk & E4 & E5). exists k.
    destruct (decide (k = c)) as [->|Hne]; [exists r'; split; [done|by eapply put_raw_lookup]|]. exists rk. split; [done|]. cbn. by rewrite list_lookup_insert_ne.
Qed.

Lemma twf_relist s r r' : twf s -> raws s !! c = Some r -> NoDup (rt_tmp r' ++ rt_active r') ->
  (forall u, u ∈ rt_tmp r' ++ rt_active r' -> u ∈ rt_tmp r ++ rt_active r) -> rt_next r' = rt_next r -> twf (put_raw s c r').
Proof. intros Hw Hr Hn Hs E. apply (twf_relink s r); try done. intros n. rewrite E. by apply (tw_next _ Hw c r). Qed.

(** The running timer and the hardware are not part of the invariant. *)
Lemma set_running_inv s r old ext next done mid rest fired log v : loop_inv s r old ext next done mid rest fired log ->
  loop_inv (put_raw s c (mk_raw (rt_active r) (rt_tmp r) (rt_next r) v (rt_hw r))) (mk_raw (rt_active r) (rt_tmp r) (rt_next r) v (rt_hw r)) old ext next done mid rest fired log.
Proof.
  intros [J1 J2 J3 J4 J5 J6 J7 J8 J9 J10 J11 J12 J13 J14 J15]. split; try done; [|by eapply put_raw_lookup].
  apply (twf_relist s r); try done. cbn. apply (tw_lists _ J1 c r J4).
Qed.

Lemma handler_inv s r old ext next done t rest fired log : loop_inv s r old ext next done [t] rest fired log -> is_Some (timers s !! t) -> due_in s0 t = true ->
  exists s' r' old' ext' (ran : bool) acts, run_handler before during after s c t = Ret (s', ran, acts) /\
    loop_inv s' r' old' ext' next (done ++ [t]) [] rest (if ran then fired ++ [t] else fired) (log ++ acts) /\ (length old' <= length old)%nat.
Proof using A0_nodup now_ok acts_legal.
  intros J Hk Hd. assert (Hkn : forall s r old ext log, loop_inv s r old ext next done [t] rest fired log -> is_Some (timers s !! t)).
  { intros s' r' old' ext' log' J'. apply elem_of_dom. rewrite (j_dom _ _ _ _ _ _ _ _ _ _ J'), <- (j_dom _ _ _ _ _ _ _ _ _ _ J). by apply elem_of_dom. }
  assert (Hleg : forall s r old ext log, loop_inv s r old ext next done [t] rest fired log -> legal_run s (before t s) /\ legal_run s (during t s) /\ legal_run s (after t s)).
  { intros s' r' old' ext' log' J'. apply acts_legal; [apply J'|apply J'|by eapply Hkn]. }
  unfold run_handler. destruct (acts_inv _ _ _ _ _ _ _ _ _ _ _ J (proj1 (Hleg _ _ _ _ _ J))) as (s1 & r1 & old1 & ext1 & -> & J1 & _ & L1). cbn [obind].
  destruct (Hkn _ _ _ _ _ J1) as [y Hy]. rewrite (get_timer_Ret _ _ _ Hy). cbn [obind]. set (b := before t s) in *. set (d := if tm_stop y then [] else during t s1).
  destruct (acts_inv d _ _ _ _ _ _ _ _ _ _ J1) as (s2 & r2 & old2 & ext2 & -> & J2 & _ & L2).
  { unfold d. destruct (tm_stop y); [done|]. apply (Hleg _ _ _ _ _ J1). }
  cbn [obind]. unfold set_running. rewrite (get_raw_Ret _ _ _ (j_raw _ _ _ _ _ _ _ _ _ _ J2)). cbn [obind].
  apply (set_running_inv _ _ _ _ _ _ _ _ _ _ None) in J2. set (s3 := put_raw s2 c _) in *. set (a := after t s3).
  destruct (acts_inv a _ _ _ _ _ _ _ _ _ _ J2) as (s4 & r4 & old4 & ext4 & -> & J4 & _ & L4).
  { apply (Hleg _ _ _ _ _ J2). }
  cbn [obind]. exists s4, r4, old4, ext4, (negb (tm_stop y)), (b ++ d ++ a). split; [done|]. rewrite !app_assoc. split; [|lia].
  assert (Hnd : t ∉ done).
  { pose proof A0_nodup as HN. rewrite (j_split _ _ _ _ _ _ _ _ _ _ J) in HN. apply NoDup_app in HN as (_ & HN & _). intros Hin. apply (HN t Hin). by left. }
  assert (Hnf : t ∉ fired).
  { intros Hin. apply Hnd. pose proof (elem_of_sublist _ _ _ Hin (j_order _ _ _ _ _ _ _ _ _ _ J)) as Hf. apply list_elem_of_In, List.filter_In in Hf as [Hf _]. by apply list_elem_of_In. }
  assert (Hstop : t ∉ touched (((log ++ b) ++ d) ++ a) -> tm_stop y = stopped_in s0 t).
  { intros Hnt. rewrite !touched_app, !not_elem_of_app in Hnt. unfold stopped_in. rewrite <- (j_record _ _ _ _ _ _ _ _ _ _ J1 t); [by rewrite Hy|]. rewrite touched_app, not_elem_of_app. tauto. }
  destruct J4 as [J41 J42 J43 J44 J45 J46 J47 J48 J49 J410 J411 J412 J413 J414 J415]. split; try done.
  - by rewrite J43, <- app_assoc.
  - intros v [Hv| ->%list_elem_of_singleton]%elem_of_app Hf; [by apply J411|congruence].
  - rewrite List.filter_app. cbn [List.filter]. rewrite Hd. destruct (tm_stop y); cbn [negb]; [by apply sublist_inserts_r|by apply sublist_app].
  - intros v [Hv| ->%list_elem_of_singleton]%elem_of_app Hdv Hnt.
    + rewrite <- (J415 v Hv Hdv Hnt). destruct (tm_stop y); cbn [negb]; [done|]. rewrite elem_of_app, list_elem_of_singleton. split; [|by left]. intros [?| ->]; done.
    + rewrite <- (Hstop Hnt). destruct (tm_stop y); cbn [negb]; [by split|]. split; [done|]. intros _. apply elem_of_app. right. by left.
Qed.

(** A timer that is not due goes to the list [rt_tmp]. *)
Lemma earlier_ok s tmp log next t x : next_ok s tmp log next -> timers s !! t = Some x -> (waiting t \/ t ∈ armed log) -> Forall (later s) tmp ->
  exists n, earlier_timer s next t = Ret n /\ next_ok s (tmp ++ [t]) log (Some n).
Proof.
  intros Hn Hx Hfrom Ht. destruct next as [n|]; cbn in Hn.
  - destruct Hn as (H1 & [xn Hxn] & H3 & H4). cbn. unfold expires_of. rewrite (get_timer_Ret _ _ _ Hxn), (get_timer_Ret _ _ _ Hx). cbn [obind]. eexists. split; [done|].
    destruct (Z.ltb_spec (tm_expires x) (tm_expires xn)) as [Hlt|Hge].
    + split; [done|]. split; [by exists x|]. split; [left; apply elem_of_app; right; by left|]. intros Hc y u xu Hy Hu Hxu. simplify_eq.
      apply elem_of_app in Hu as [Hu| ->%list_elem_of_singleton]; [|simplify_eq; lia]. specialize (H4 Hc xn u xu Hxn Hu Hxu). lia.
    + split; [done|]. split; [by exists xn|]. split; [destruct H3; [left; apply elem_of_app; by left|by right]|]. intros Hc y u xu Hy Hu Hxu. simplify_eq.
      apply elem_of_app in Hu as [Hu| ->%list_elem_of_singleton]; [|simplify_eq; lia]. by eapply (H4 Hc).
  - subst tmp. exists t. split; [done|]. split; [done|]. split; [by exists x|]. split; [left; by left|]. intros _ y u xu Hy Hu%list_elem_of_singleton Hxu. subst u. simplify_eq. lia.
Qed.

Lemma move_inv s r t l old ext next done rest fired log n x : rt_active r = t :: l -> timers s !! t = Some x -> due x = false ->
  loop_inv s r old ext next done [] rest fired log -> (waiting t \/ t ∈ armed log) -> earlier_timer s next t = Ret n -> next_ok s (rt_tmp r ++ [t]) log (Some n) ->
  forall old1 ext1 pre rest1, l = old1 ++ ext1 -> rest = pre ++ rest1 -> old1 `sublist_of` rest1 -> (forall v, v ∈ ext1 -> v ∈ ext) -> (forall v, v ∈ old1 -> v ∈ old) ->
    (forall v, v ∈ rest1 -> v ∈ old1 \/ v ∈ touched log) -> (forall v, v ∈ pre -> v = t /\ due_in s0 v = false \/ v ∈ touched log) ->
  let r' := mk_raw l (rt_tmp r ++ [t]) (rt_next r) (rt_running r) (rt_hw r) in
  loop_inv (put_raw s c r') r' old1 ext1 (Some n) (done ++ pre) [] rest1 fired log.
Proof.
  intros Ha Hx Hd J Hfrom He Hn old1 ext1 pre rest1 Hl Hrest Hsub Hext Hold Hr1 Hpre r'. destruct J as [J1 J2 J3 J4 J5 J6 J7 J8 J9 J10 J11 J12 J13 J14 J15].
  destruct (tw_lists _ J1 c r J4) as [Hnd Hkn]. split; try done.
  - apply (twf_relist s r); try done; cbn [rt_tmp rt_active r'].
    + rewrite <- app_assoc. cbn. by rewrite <- Ha.
    + intros u. rewrite <- app_assoc. cbn. by rewrite <- Ha.
  - rewrite J3, Hrest. cbn. by rewrite app_assoc.
  - by eapply put_raw_lookup.
  - cbn [rt_tmp r']. apply Forall_app in J7 as [T1 T2]. rewrite !Forall_app. split_and!; [exact T1|apply Forall_singleton; by exists x|]. apply Forall_forall. intros v Hv. by apply (proj1 (Forall_forall _ _) T2), Hext.
  - intros v Hv. by apply J8, Hold.
  - intros v. cbn [rt_tmp r']. rewrite !elem_of_app, list_elem_of_singleton. intros [[Hv| ->]|Hv]; [apply J10, elem_of_app; by left|done|apply J10, elem_of_app; right; by apply Hext].
  - cbn [rt_tmp r']. intros v [Hv|Hv]%elem_of_app Hdv; rewrite elem_of_app, list_elem_of_singleton.
    + destruct (J11 v Hv Hdv); tauto.
    + destruct (Hpre v Hv) as [[-> _]|?]; tauto.
  - rewrite List.filter_app. by apply sublist_inserts_r.
  - intros v [Hv|Hv]%elem_of_app Hdv Hnt; [by apply J15|]. destruct (Hpre v Hv) as [[_ ?]|?]; [congruence|done].
Qed.

Definition known_timers : nat := size (dom (timers s0)).

Lemma active_short s r old ext next done mid rest fired log : loop_inv s r old ext next done mid rest fired log -> (length (rt_active r) <= known_timers)%nat.
Proof.
  intros J. destruct (tw_lists _ (j_wf _ _ _ _ _ _ _ _ _ _ J) c r (j_raw _ _ _ _ _ _ _ _ _ _ J)) as [Hn Hk].
  apply NoDup_app in Hn as (_ & _ & Hn). apply Forall_app in Hk as [_ Hk]. unfold known_timers. rewrite <- (j_dom _ _ _ _ _ _ _ _ _ _ J).
  rewrite <- (size_list_to_set (C := gset Z)) by done. apply subseteq_size. intros u. rewrite elem_of_list_to_set. intros Hu. apply elem_of_dom. by apply (proj1 (Forall_forall _ _) Hk).
Qed.

(** Each timer that was due on entry fires at most once, and between two of them every timer moves at
    most once. *)
Lemma interrupt_loop_ok fuel : forall s r old ext next done rest fired log, loop_inv s r old ext next done [] rest fired log ->
  (length old * S known_timers + length (rt_active r) < fuel)%nat ->
  exists s' r' next' done' rest' fired' log', interrupt_loop before during after fuel s c now next fired log = Ret (s', next', fired', log') /\
    loop_inv s' r' [] [] next' done' [] rest' fired' log'.
Proof using A0_nodup now_ok acts_legal.
  induction fuel as [|fuel IH]; intros s r old ext next done rest fired log J Hf; [lia|]. cbn [interrupt_loop].
  rewrite (get_raw_Ret _ _ _ (j_raw _ _ _ _ _ _ _ _ _ _ J)). cbn [obind]. pose proof (j_active _ _ _ _ _ _ _ _ _ _ J) as Ha. pose proof A0_nodup as HN. rewrite (j_split _ _ _ _ _ _ _ _ _ _ J) in HN. cbn [app] in HN.
  apply NoDup_app in HN as (_ & Hdr & HNr). destruct (tw_lists _ (j_wf _ _ _ _ _ _ _ _ _ _ J) c r (j_raw _ _ _ _ _ _ _ _ _ _ J)) as [Hnd Hkn].
  destruct old as [|t old].
  - destruct ext as [|t ext]; cbn [app] in Ha; rewrite Ha in *; [by exists s, r, next, done, rest, fired, log|].
    pose proof (j_later _ _ _ _ _ _ _ _ _ _ J) as HL. apply Forall_app in HL as [HL1 HL2]. apply Forall_cons in HL2 as [(x & Hx & Hd) _]. rewrite (get_timer_Ret _ _ _ Hx). cbn [obind].
    fold (due x). rewrite Hd. assert (Hfrom : waiting t \/ t ∈ armed log) by (apply (j_from _ _ _ _ _ _ _ _ _ _ J), elem_of_app; right; by left).
    destruct (earlier_ok s _ log next t x (j_next _ _ _ _ _ _ _ _ _ _ J) Hx Hfrom HL1) as (n & En & Hn). rewrite En. cbn [obind].
    eapply IH; [eapply (move_inv s r t ext [] (t :: ext) next done rest fired log n x Ha Hx Hd J Hfrom En Hn [] ext [] rest); try done|cbn; cbn in Hf; lia].
    + apply sublist_nil_l.
    + intros v Hv. by right.
    + intros v Hv. by apply (j_gone _ _ _ _ _ _ _ _ _ _ J).
    + intros v Hv. by apply not_elem_of_nil in Hv.
  - cbn [app] in Ha. rewrite Ha. destruct (j_same _ _ _ _ _ _ _ _ _ _ J t ltac:(by left)) as (x0 & x & Hx0 & Hx & He). rewrite (get_timer_Ret _ _ _ Hx). cbn [obind]. fold (due x).
    assert (Hd0 : due_in s0 t = due x) by (unfold due_in, due; rewrite Hx0; by rewrite He).
    pose proof (j_old _ _ _ _ _ _ _ _ _ _ J) as Hsub. apply sublist_cons_l in Hsub as (pre & rest1 & -> & Hsub).
    apply NoDup_app in HNr as (_ & HNp & HNt). apply NoDup_cons in HNt as [Ht1 _].
    assert (Hpre : forall v, v ∈ pre -> v ∈ touched log).
    { intros v Hv. destruct (j_gone _ _ _ _ _ _ _ _ _ _ J v ltac:(apply elem_of_app; by left)) as [Hin|?]; [|done]. exfalso. apply (HNp v Hv).
      apply elem_of_cons in Hin as [->|Hin]; [by left|right]. by eapply elem_of_sublist. }
    assert (Hgone : forall v, v ∈ rest1 -> v ∈ old \/ v ∈ touched log).
    { intros v Hv. destruct (j_gone _ _ _ _ _ _ _ _ _ _ J v ltac:(apply elem_of_app; right; by right)) as [[->|?]%elem_of_cons|?]; [done|by left|by right]. }
    assert (HtA : t ∈ A0) by (rewrite (j_split _ _ _ _ _ _ _ _ _ _ J), !elem_of_app, elem_of_cons; tauto).
    destruct (due x) eqn:Hd.
    + set (r1 := mk_raw (old ++ ext) (rt_tmp r) (rt_next r) (Some t) (rt_hw r)).
      assert (J1 : loop_inv (put_raw s c r1) r1 old ext next (done ++ pre) [t] rest1 fired log).
      { destruct J as [J1 J2 J3 J4 J5 J6 J7 J8 J9 J10 J11 J12 J13 J14 J15]. split; try done.
        - apply (twf_relist s r); try done; cbn [rt_tmp rt_active r1]; rewrite Ha in *.
          + eapply sublist_NoDup; [exact Hnd|]. apply sublist_app; [done|]. by apply sublist_cons.
          + intros u. rewrite !elem_of_app, elem_of_cons, elem_of_app. tauto.
        - rewrite J3. cbn. by rewrite <- app_assoc.
        - by eapply put_raw_lookup.
        - intros u Hu. apply J8. by right.
        - intros u [Hu|Hu]%elem_of_app Hdu; [by apply J11|right; by apply Hpre].
        - rewrite List.filter_app. by apply sublist_inserts_r.
        - intros u [Hu|Hu]%elem_of_app Hdu Hnt; [by apply J15|by destruct (Hnt (Hpre u Hu))]. }
      destruct (handler_inv _ _ _ _ _ _ _ _ _ _ J1) as (s2 & r2 & old2 & ext2 & ran & acts & -> & J2 & L2); [by exists x|done|]. cbn [obind].
      eapply IH; [exact J2|]. pose proof (active_short _ _ _ _ _ _ _ _ _ _ J2). rewrite Ha in Hf. cbn in Hf. nia.
    + assert (Hw : waiting t) by (by split). pose proof (j_later _ _ _ _ _ _ _ _ _ _ J) as HL. apply Forall_app in HL as [HL1 _].
      destruct (earlier_ok s _ log next t x (j_next _ _ _ _ _ _ _ _ _ _ J) Hx (or_introl Hw) HL1) as (n & En & Hn). rewrite En. cbn [obind].
      eapply IH; [eapply (move_inv s r t (old ++ ext) (t :: old) ext next done _ fired log n x Ha Hx Hd J (or_introl Hw) En Hn old ext (pre ++ [t]) rest1); try done|cbn; rewrite Ha in Hf; cbn in Hf; lia].
      * by rewrite <- app_assoc.
      * intros v Hv. by right.
      * intros v [Hv| ->%list_elem_of_singleton]%elem_of_app; [right; by apply Hpre|by left].
Qed.

End Run.
End InterruptCorrect.


(** ** The hardware deadline *)

(** The hardware fires at the expiry of [next_timer], which is no later than the
    expiry of any active timer plus the margin. *)
Definition deadline_ok (s : tstate) (r : raw_timer) : Prop :=
  match rt_next r with
  | None => rt_active r = []
  | Some n => exists xn, timers s !! n = Some xn /\ rt_hw r = Some (tm_expires xn) /\
      Forall (fun t => exists x, timers s !! t = Some x /\
        tm_expires xn <= tm_expires x + DEFAULT_TIMER_MARGIN) (rt_active r)
  end.

(** Arming a timer other than [next_timer] makes it active with the requested expiry,
    at least the precision in the future, and keeps the hardware deadline within
    the margin of every active timer. *)
Theorem mod_timer_keeps_deadline s c r t x now cval :
  raws s !! c = Some r -> deadline_ok s r -> timers s !! t = Some x ->
  (tm_cpu x = -1 \/ tm_cpu x = Z.of_nat c) -> rt_next r <> Some t ->
  0 <= now -> now + TIMER_PRECISION < 2 ^ 63 -> 0 <= cval < 2 ^ 63 ->
  exists s' r' x', mod_timer s c now t cval = Ret s' /\ raws s' !! c = Some r' /\ deadline_ok s' r' /\
    t ∈ rt_active r' /\ timers s' !! t = Some x' /\
    tm_expires x' = Z.max cval (now + TIMER_PRECISION) /\ tm_stop x' = false.
Proof.
  intros Hr Hd Hx Hcpu Hnext Hnow Hov Hcv. unfold mod_timer, set_expires.
  assert (Hu : u64 (now + TIMER_PRECISION) = now + TIMER_PRECISION).
  { apply wrap_small. unfold TIMER_PRECISION in *. lia. }
  rewrite (get_timer_Ret _ _ _ Hx), Hu. cbn [obind].
  set (e := if cval <? now + TIMER_PRECISION then now + TIMER_PRECISION else cval).
  assert (He : e = Z.max cval (now + TIMER_PRECISION)) by (unfold e; case_bools; lia).
  assert (Hmg : 0 <= DEFAULT_TIMER_MARGIN) by done.
  assert (Hb : 0 <= e < 2 ^ 63) by (unfold TIMER_PRECISION in *; lia). clearbody e.
  set (x1 := mk_timer (tm_cpu x) (tm_stop x) e (tm_timeout x) (tm_data x) (tm_raw x)).
  unfold __mod_timer. rewrite (get_timer_Ret _ t x1) by apply lookup_insert_eq. cbn [obind].
  replace (negb (negb (tm_cpu x1 =? -1) && negb (tm_cpu x1 =? Z.of_nat c))) with true.
  2: { unfold x1; cbn [tm_cpu]. destruct Hcpu as [-> | ->]; rewrite ?Z.eqb_refl; [done|by rewrite andb_false_r]. }
  cbn [assert obind]. set (s1 := put_timer s t x1).
  pose proof (detach_raw s1 c t) as Hr1. change (raws s1) with (raws s) in Hr1. rewrite Hr in Hr1. cbn [fmap option_fmap option_map] in Hr1.
  set (r1 := mk_raw (remove t (rt_active r)) _ _ _ _) in Hr1. assert (En : rt_next r1 = rt_next r) by done. assert (Eh : rt_hw r1 = rt_hw r) by done.
  assert (Hact : forall u, u ∈ rt_active r1 -> u ∈ rt_active r /\ u <> t) by (intros u; apply remove_elem). clearbody r1.
  set (x2 := mk_timer (Z.of_nat c) false (tm_expires x1) (tm_timeout x1) (tm_data x1) (Some c)).
  set (s2 := put_timer (detach_timer s1 t) t x2).
  assert (Hx2 : timers s2 !! t = Some x2) by apply lookup_insert_eq.
  assert (Hother : forall u, u <> t -> timers s2 !! u = timers s !! u).
  { intros u Hne. unfold s2; cbn. rewrite lookup_insert_ne, detach_timers by done. cbn. by rewrite lookup_insert_ne. }
  assert (Hum : u64 (tm_expires x1 + DEFAULT_TIMER_MARGIN) = e + DEFAULT_TIMER_MARGIN).
  { apply wrap_small. unfold x1; cbn. change DEFAULT_TIMER_MARGIN with 500000. lia. }
  rewrite (get_raw_Ret c s2 r1) by exact Hr1. cbn [obind]. rewrite Hum, En.
  assert (Hin : forall l, t ∈ l ++ [t]) by (intros l; apply elem_of_app; right; by apply list_elem_of_singleton).
  destruct (rt_next r) as [n|] eqn:En'; unfold deadline_ok in Hd; rewrite En' in Hd; cbn [obind].
  - destruct Hd as (xn & Hn & Hhw & Hall). assert (Hnt : n <> t) by (intros ->; done).
    assert (Hold : forall u, u ∈ rt_active r1 -> exists xu, timers s2 !! u = Some xu /\
      tm_expires xn <= tm_expires xu + DEFAULT_TIMER_MARGIN).
    { intros u Hu'. destruct (Hact u Hu') as [Hu1 Hne]. destruct (proj1 (Forall_forall _ _) Hall u Hu1) as (xu & Hxu & Hle).
      exists xu. by rewrite Hother. }
    unfold expires_of. rewrite (get_timer_Ret s2 n xn) by (by rewrite Hother). cbn [obind].
    destruct (Z.ltb_spec (e + DEFAULT_TIMER_MARGIN) (tm_expires xn)) as [Hlt|Hge];
      eexists _, _, x2; (split; [reflexivity|]); split_and!;
      [by eapply put_raw_lookup| |apply Hin|done|done|done|by eapply put_raw_lookup| |apply Hin|done|done|done]; cbn.
    + exists x2. split_and!; try done. apply Forall_forall. intros u [Hu'| ->%list_elem_of_singleton]%elem_of_app.
      * destruct (Hold u Hu') as (xu & Hxu & Hle). exists xu. split; [done|]. change (tm_expires x2) with e. lia.
      * exists x2. split; [done|]. change DEFAULT_TIMER_MARGIN with 500000. lia.
    + exists xn. rewrite Hother by done. split_and!; [done|by rewrite Eh|].
      apply Forall_forall. intros u [Hu'| ->%list_elem_of_singleton]%elem_of_app; [by apply Hold|].
      exists x2. split; [done|]. change (tm_expires x2) with e. lia.
  - eexists _, _, x2. split; [reflexivity|]. split_and!; [by eapply put_raw_lookup| |apply Hin|done|done|done].
    cbn. exists x2. split_and!; try done. apply Forall_forall.
    intros u [Hu'| ->%list_elem_of_singleton]%elem_of_app.
    + destruct (Hact u Hu') as [Hu1 _]. rewrite Hd in Hu1. by apply not_elem_of_nil in Hu1.
    + exists x2. split; [done|]. change DEFAULT_TIMER_MARGIN with 500000. lia.
Qed.

(** ** A stopped timer keeps the hardware *)

(** Timer 1 is armed for 100 ms, stopped, and timer 2 is armed for 10 ms.  The
    stopped timer is still [next_timer], with [expires] 0, so timer 2 is not
    programmed: the hardware fires 90 ms late. *)
Definition two_timers : tstate :=
  mk_tstate (<[1 := mk_timer (-1) false 0 0 0 None]> (<[2 := mk_timer (-1) false 0 0 0 None]> ∅))
    (init_raw_timers 1).

Definition stop_then_arm : outcome tstate :=
  let* s := setup_and_start_timer two_timers 0 0 1 100000000 in
  let* s := stop_timer s 1 in
  setup_and_start_timer s 0 0 2 10000000.

Lemma stop_then_arm_late :
  (let* s := stop_then_arm in let* r := get_raw s 0 in Ret (rt_active r, rt_hw r)) = Ret ([2], Some 100000000).
Proof. vm_compute. reflexivity. Qed.

(** Re-arming [next_timer] itself for an earlier time does not reprogram it either. *)
Lemma rearm_next_earlier_late :
  (let* s := setup_and_start_timer two_timers 0 0 1 100000000 in
   let* s := setup_and_start_timer s 0 0 1 10000000 in
   let* r := get_raw s 0 in Ret (rt_active r, rt_hw r)) = Ret ([1], Some 100000000).
Proof. vm_compute. reflexivity. Qed.

(** A handler that arms a timer which waits on the list of the interrupt makes it late: timer 2 is
    still [next_timer] when it has moved behind timer 3, and the hardware is programmed for it. *)
Definition three_timers : tstate :=
  mk_tstate (<[1 := mk_timer 0 false 1000000 1000000 0 (Some 0%nat)]> (<[2 := mk_timer 0 false 10000000 9000000 0 (Some 0%nat)]>
              (<[3 := mk_timer 0 false 12000000 9000000 0 (Some 0%nat)]> ∅)))
    [mk_raw [2; 3; 1] [] (Some 1) None (Some 1000000)].

Lemma rearm_waiting_late :
  match soft_timer_interrupt (fun _ _ => []) (fun t _ => if t =? 1 then [AMod 0 1000000 2 20000000] else []) (fun _ _ => []) 20 three_timers 0 1000000 with
  | Ret (fired, _, s) => match raws s !! 0%nat, timers s !! 3 with
                         | Some r, Some x => fired = [1] /\ rt_active r = [3; 2] /\ rt_hw r = Some 20000000 /\ tm_expires x = 12000000
                         | _, _ => False
                         end
  | _ => False
  end.
Proof. vm_compute. done. Qed.

(** ** Witnesses *)

(** Timers 1 and 4 are due, timer 2 is not, and timer 3 is not armed. *)
Definition demo_timers : tstate :=
  mk_tstate (<[1 := mk_timer 0 false 1000000 1000000 0 (Some 0%nat)]> (<[2 := mk_timer 0 false 9000000 9000000 0 (Some 0%nat)]>
              (<[3 := mk_timer (-1) false 0 2000000 0 None]> (<[4 := mk_timer 0 false 1200000 1000000 0 (Some 0%nat)]> ∅))))
    [mk_raw [1; 2; 4] [] (Some 1) None (Some 1000000)].

(** The handler of timer 1 starts timer 3, and another CPU stops timer 4 after it. *)
Definition demo_during (t : Z) (s : tstate) : list timer_act :=
  match timers s !! 3 with
  | Some x => if (t =? 1) && bool_decide (0 < length (raws s))%nat && ((tm_cpu x =? -1) || (tm_cpu x =? 0)) && (tm_timeout x <=? 2000000)
              then [AStart 0 1000000 3] else []
  | None => []
  end.

Definition demo_after (t : Z) (s : tstate) : list timer_act :=
  match timers s !! 4 with
  | Some x => if (t =? 1) && match tm_raw x ≫= fun k => raws s !! k with Some r => bool_decide (rt_running r <> Some 4) | None => true end then [AStop 4] else []
  | None => []
  end.

Lemma demo_acts_legal t s : legal_run 1000000 s [] /\ legal_run 1000000 s (demo_during t s) /\ legal_run 1000000 s (demo_after t s).
Proof.
  split; [done|]. split.
  - unfold demo_during. destruct (timers s !! 3) as [x|] eqn:Hx; [|done]. destruct (_ && _) eqn:E; [|done]. apply andb_true_iff in E as [E E4]. apply andb_true_iff in E as [E E3]. apply andb_true_iff in E as [_ E2].
    split; [|done]. exists x. split; [done|]. apply bool_decide_eq_true in E2. apply orb_true_iff in E3. apply Z.leb_le in E4. unfold TIMER_PRECISION.
    split_and!; [done| |lia|lia]. destruct E3 as [E3|E3]; apply Z.eqb_eq in E3; auto.
  - unfold demo_after. destruct (timers s !! 4) as [x|] eqn:Hx; [|done]. destruct (_ && _) eqn:E; [|done]. apply andb_true_iff in E as [_ E].
    split; [|done]. exists x. split; [done|]. intros k r Hk Hr. rewrite Hk in E. cbn in E. rewrite Hr in E. by apply bool_decide_eq_true in E.
Qed.

Lemma demo_timers_wf : twf demo_timers.
Proof.
  split.
  - intros [|k] r Hr; [|done]. injection Hr as <-. split; [apply (bool_decide_unpack _); vm_compute; exact I|]. repeat constructor; by eexists.
  - intros [|k] r n Hr Hn; [|done]. injection Hr as <-. injection Hn as <-. by eexists.
  - intros t x Hx. cbn in Hx.
    repeat (apply lookup_insert_Some in Hx as [(_ & <-)|[_ Hx]]; [cbn; split_and!; try lia; intros ?; by eexists 0%nat, _|]). done.
Qed.


Lemma mod_timer_keeps_deadline_witness :
  exists s' r' x', mod_timer demo_timers 0 1000000 2 5000000 = Ret s' /\ raws s' !! 0%nat = Some r' /\
    deadline_ok s' r' /\ 2 ∈ rt_active r' /\ timers s' !! 2 = Some x' /\
    tm_expires x' = 5000000 /\ tm_stop x' = false.
Proof.
  apply (mod_timer_keeps_deadline demo_timers 0 (mk_raw [1; 2; 4] [] (Some 1) None (Some 1000000)) 2
    (mk_timer 0 false 9000000 9000000 0 (Some 0%nat)) 1000000 5000000).
  - reflexivity.
  - eexists. split; [reflexivity|]. split; [reflexivity|]. repeat constructor; eexists; (split; [reflexivity|]); done.
  - reflexivity.
  - by right.
  - done.
  - lia.
  - done.
  - lia.
Defined.
